(* ===== verification/_CoqProject ===== *)
-Q . S2P
Prelude.v
CLib.v
Ctype.v
Encoding.v
Containers.v
Config.v
NetLibModel.v
ConfigFacts.v
ConfigSpec.v
Setconf.v
SetconfSpec.v
Showconf.v
ShowconfSpec.v
Terminal.v
Show.v
ShowSpec.v
Field25519.v
Prime25519.v
X25519.v
CurveHacl64.v
CurveHacl64Spec.v
CurveFiat32.v
CurveFiat32Spec.v
Curve25519.v
Keys.v
Wg.v
IpcUapi.v
IpcUapiSpec.v
Ipc.v
IpcSpec.v
Highlighter.v
HighlighterSpec.v
Netlink.v
NetlinkSpec.v
IpcLinux.v
IpcLinuxSpec.v
IpcLinuxGetSpec.v
IpcLinuxDropsSpec.v
IpcLinuxLinksSpec.v
Regex.v
RegexSpec.v
Quick.v
QuickBinder.v
Android.v
AndroidSpec.v
AndroidNamesSpec.v
AndroidUsersSpec.v
AndroidDnsSpec.v
EmbedCurve.v
EmbedCurveSpec.v
Embed.v
EmbedSpec.v
IpcBSD.v
IpcBSDSpec.v
IpcCells.v
IpcCellsSpec.v
IpcOpenBSD.v
IpcOpenBSDSpec.v
IpcFreeBSD.v
IpcFreeBSDSpec.v
Hashtable.v
WinCompat.v
IpcWindows.v
IpcWindowsSpec.v
IpcUapiWindows.v
ElfCleaner.v
ElfCleanerSpec.v
ElfCleanerEnds.v
ElfCleanerSafe.v
NatPunch.v
NatPunchSpec.v
StickySockets.v
