(* ===== verification/Prelude.v ===== *)
(** * Verification of the WireGuard tools of the Android tunnel

    The tunnel library of the app ships the C program [wg] (wireguard-tools)
    and its contributions, under src/tunnel/tools/wireguard-tools; in the file
    names below [src] stands for its directory src and [contrib] for its
    directory contrib.  This development models the program as Rocq functions
    and proves the properties that make its parts correct.

    ** The program and the files that model it

    [wg] reads a configuration (a file or the command line) into a
    [struct wgdevice], hands it to the implementation of an interface (the
    kernel, or a userspace daemon behind a Unix socket), reads such a device back
    and prints it, and makes keys.  [wg-quick] brings an interface up and down
    from one file, with [wg] and the commands of Android.

    - Prelude: C integers at their width, C strings as lists of bytes, the
      platform (signedness of [char], width of [unsigned long]), and the effect
      monad [M]: a run consumes the outcomes of the allocations to come and ends
      in a value, in [exit], in undefined behaviour or out of fuel.
      CLib: the string, number and [printf] functions of libc the tools call.
    - Ctype: src/ctype.h.  Encoding: src/encoding.c.
    - Containers: src/containers.h.  A linked list is a list, a pointer to a node
      its position; [NetLib] and [NetLibLaws] are the name service, the address
      conversions and the files, as parameters with the laws POSIX documents,
      and NetLibModel gives an implementation for which the laws hold.
    - Config: src/config.c, the parser of files and of the command line.
      ConfigFacts proves that it keeps devices well formed on every input,
      ConfigSpec what each value parser accepts and stores.
    - Setconf: src/setconf.c and src/set.c, over the interface [Ipc] of an
      implementation and [Qsort]; SetconfSpec.  Showconf: src/showconf.c;
      ShowconfSpec.  Terminal: src/terminal.c.  Show: src/show.c; ShowSpec.
    - Field25519, Prime25519, X25519: the field, the primality of its modulus and
      the Montgomery ladder of RFC 7748, as the reference.  CurveHacl64 and
      CurveFiat32: src/curve25519-hacl64.h and src/curve25519-fiat32.h with every
      limb operation; CurveHacl64Spec, CurveFiat32Spec, and Curve25519 for the
      choice of src/curve25519.c between them.
    - Keys: src/genkey.c and src/pubkey.c.  Wg: src/wg.c, the dispatch.
    - IpcUapi: src/ipc-uapi.h, the text protocol of daemons; IpcUapiSpec.
    - Ipc: src/ipc.c and src/ipc-uapi-unix.h: the list of interfaces, the sockets
      and the choice of the implementation; IpcSpec, which also builds the [Ipc]
      that Setconf and Show are written against and proves its laws.
    - Highlighter: contrib/highlighter/highlighter.c; HighlighterSpec.
    - Netlink: src/netlink.h, messages and attributes as bytes; NetlinkSpec reads
      what is written.  IpcLinux: src/ipc-linux.h over
      src/uapi/linux/linux/wireguard.h, and the [kernel] of Ipc built from it.
      IpcLinuxSpec: the messages a device is sent in; IpcLinuxGetSpec: what is read
      from them; IpcLinuxDropsSpec: what becomes of errors in an answer;
      IpcLinuxLinksSpec: the list of interfaces and the family.
    - IpcBSD, IpcOpenBSD, IpcFreeBSD: src/ipc-openbsd.h over
      src/uapi/openbsd/net/if_wg.h, a buffer of structures, and src/ipc-freebsd.h,
      name-value lists of libnv, which is a parameter; a file Spec for each.
    - IpcCells: the loops over such a buffer, which ipc-openbsd.h and ipc-windows.h
      have word for word up to the names of the fields; IpcCellsSpec proves them once,
      for structures with the laws of [CellLaws], which both systems discharge.
    - Hashtable: src/wincompat/include/hashtable.h.  IpcWindows: src/ipc-windows.h over
      src/uapi/windows/wireguard.h, adapters, their table, and a device in a buffer;
      IpcWindowsSpec.  IpcUapiWindows: src/ipc-uapi-windows.h, named pipes.
      WinCompat: src/wincompat/libc.c.
    - Regex: the extended regular expressions of libc, and RegexSpec, their
      languages.  Quick: the first part of src/wg-quick/android.c, the commands and
      pipes, over a [host] that answers them; a function is a computation in [Q],
      over the actions taken and the globals, and [at_exit] is the end of the
      program.  QuickBinder: the resolver service.  Android: everything else of
      the file.  AndroidSpec: failure and cleanup; AndroidNamesSpec: interface
      names, the lines of a file, the MTU; AndroidUsersSpec: the users of a tunnel;
      AndroidDnsSpec: buffers and quotes of name servers and addresses.
    - EmbedCurve and Embed: contrib/embeddable-wg-library/wireguard.c, the curve and
      everything else; its copy of netlink.h is modelled by Netlink.
      EmbedCurveSpec: its arithmetic; EmbedSpec: the library against the tools.
    - NatPunch: contrib/nat-hole-punching, the server and the client; NatPunchSpec.
      StickySockets: contrib/sticky-sockets.
    - ElfCleaner: src/tunnel/tools/elf-cleaner, which the build runs on the libraries it
      packs, over the bytes of a file; ElfCleanerSpec: a dynamic section;
      ElfCleanerEnds: any file; ElfCleanerSafe: well-formed files.

    ** What the theorems show

    - Round trips: keys in base64 and hex; [showconf] output through [setconf];
      a device through the text protocol of daemons, through the messages of
      the Linux kernel, and through the buffers and lists of the kernels of BSD and Windows.
    - Splitting: the messages [kernel_set_device] sends fit the buffer, always
      come to an end, and carry every peer and address once and in order; on any
      bytes the attribute loops stay within the message.
    - Cryptography: both implementations of Curve25519 compute the X25519 function
      of RFC 7748 on all inputs, so they agree, and so does the third one, of the
      embeddable library; [genkey | pubkey] prints the public key of the bytes
      drawn; a key is made of random bytes only.
    - The embeddable library: it sends what [kernel_set_device] sends and hands out
      what [kernel_get_device] reads at its first attempt, so the round trip and the
      splitting hold for it; its keys, names and links.
    - Convergence: applying what [syncconf] sends leaves exactly the peers of the
      file, without dropping a peer that stays.
    - Safety: parsing any file, command line or daemon reply, with any sequence
      of failing allocations, runs into no undefined behaviour and hands over only
      well-formed devices; buffers for times, names and spans are large enough.
    - Exactness of the parsers and printers: allowed addresses, netmasks, marks,
      intervals, endpoints with their bounded retries, dump lines, escape filter.
    - Dispatch: subcommands, the daemon or the kernel, dead sockets, the list of
      interfaces.
    - The highlighter's spans tile the text; its key test is the decoder's.
    - wg-quick: a step that fails takes the interface, its rules and its network down
      again; the ranges of users cover the users they should, as far as the byte behind
      the selection allows; the lines of a file are sorted into
      options and configuration without loss; names are interface names; the
      buffers for name servers are large enough; addresses stay in quotes.
    - Windows: the hash table is a finite map; what is opened through the table of
      adapters, or answered from that of pipes, is what a search gives; a pipe is used
      only when the local system owns it; [getline] and [strsep] are those of libc.
    - elf-cleaner: of a well-formed file it changes the bytes it should and no other; a dynamic
      section keeps each entry once, cleaned, and in front of its end; the tool ends on
      any file and does not touch a file that is not ELF.
    - Demonstrations: the server answers with what it was told last, the filter keeps the
      answers only, the client sets every endpoint once and ends; a reply leaves from
      the address the packet arrived at.
    - What the code does wrong is proved too: an fwmark clamped on 32-bit
      platforms, a positive error that [show] does not notice, a prefix length
      taken modulo 256, a host name with two dots, two failing allocations that
      are not handled, errors below a peer that [kernel_get_device] drops, a user
      that is left out, a read behind a string, search domains that reach the
      shell, endpoints that never match, a name used as a regular expression; in the
      embeddable library an interrupted dump that is asked for again without end,
      a sequence number compared with itself, and names that are not bounded; IPv6
      endpoints lost on OpenBSD, and an error that is returned as 0 on FreeBSD; on
      Windows a name without an end and an identifier that is null; in elf-cleaner an
      empty section, a dry run and an offset that leave the file.

    ** Bounds and fuel

    A loop over a string or a list is recursion on it.  [resolve_loop] may retry
    for ever when the environment asks for it; its fuel is [retries + 1] for a
    bounded number, which [resolve_loop_terminates] shows to be enough, and the
    parameter [patience] otherwise.  [ipv6_loop] and [interface_names] take the
    length of the text as fuel: every turn moves on by a character.
    The loops over attributes and messages take the length of the datagram, and
    [kernel_set_device] the number of peers and addresses: each message takes one
    of them at least.  [kernel_get_device] asks again when a dump was interrupted, and on
    OpenBSD and Windows when the buffer was too small, as often as its parameter says; so does [wg_get_device], and
    [wg_get_device_interrupted] shows that no parameter is enough for it.  In wg-quick the loop over the lines of a
    command has their number as fuel ([for_lines_each] shows that it is enough),
    the scan of a selection the length of the memory, and the loop that draws the
    number of a network the parameter [patience]; [pick_netid_ends] shows when it
    ends.  In elf-cleaner the loops over headers have as many turns as a
    16-bit count allows and the loop over a dynamic section two for each entry, which
    [parse_file_ends] shows to be enough.  The client of NatPunch goes round as often
    as its parameter says, and [client_sets_each_once] says how often that is.  Sizes of
    buffers are in [size_t], and the theorems that need it assume that the data
    fits into the address space.

    ** Not modelled

    Diagnostics on standard error; [free]; the system calls behind the netlink
    socket and the programs that wg-quick runs, which are parameters; running out of
    memory in wg-quick, where it exits; on Windows the setup API, the driver and the pipes, which are
    parameters, and the set-up of the console and of library loading (init.c and loader.c of
    wincompat); the sockets and commands of the NAT client outside of its loop, and the
    [main] of sticky-sockets, which is input and output; extract-keys and
    offset-finder, which read the memory of one version of the kernel; the fuzzing
    harnesses, which only call what is modelled; the JNI bridge to the Go code.  The Kotlin, Java, Go and shell parts of the
    repository are outside the C program. *)

From Stdlib Require Import Ascii String.
From stdpp Require Import base numbers option sets list list_numbers strings.

#[global] Open Scope Z_scope.

(** ** Notations, scopes and hint databases *)

Declare Scope c_scope.
Delimit Scope c_scope with C.

Create HintDb cint.

(** ** Fixed-width integers

    A C integer is a [Z]; a conversion to a narrower or unsigned type is the
    explicit wrap below.  Arithmetic in type [int] is written without a wrap
    where the operands are too small to overflow, as in the C code. *)

Definition u8 (x : Z) : Z := x mod 2 ^ 8.
Definition u16 (x : Z) : Z := x mod 2 ^ 16.
Definition u32 (x : Z) : Z := x mod 2 ^ 32.
Definition u64 (x : Z) : Z := x mod 2 ^ 64.
Definition s32 (x : Z) : Z := (x + 2 ^ 31) mod 2 ^ 32 - 2 ^ 31.

Notation "x .& y" := (Z.land x y) (at level 42, left associativity) : c_scope.
Notation "x .| y" := (Z.lor x y) (at level 46, left associativity) : c_scope.
Notation "x .^ y" := (Z.lxor x y) (at level 44, left associativity) : c_scope.
Notation "x .>> n" := (Z.shiftr x n) (at level 41, left associativity) : c_scope.
Notation "x .<< n" := (Z.shiftl x n) (at level 41, left associativity) : c_scope.
Notation "~~ x" := (Z.lnot x) (at level 35, right associativity) : c_scope.

#[local] Open Scope c_scope.
(** The truth value of a C integer, and the integer of a truth value. *)
Definition truthy (x : Z) : bool := negb (x =? 0).
Definition c_bool (b : bool) : Z := if b then 1 else 0.

Lemma u8_range x : 0 <= u8 x < 256.
Proof. apply Z.mod_pos_bound. lia. Qed.
Lemma u16_range x : 0 <= u16 x < 65536.
Proof. apply Z.mod_pos_bound. lia. Qed.
Lemma u32_range x : 0 <= u32 x < 4294967296.
Proof. apply Z.mod_pos_bound. lia. Qed.
Lemma u64_range x : 0 <= u64 x < 2 ^ 64.
Proof. apply Z.mod_pos_bound. lia. Qed.

Lemma u8_small x : 0 <= x < 256 → u8 x = x.
Proof. intros; apply Z.mod_small; lia. Qed.
Lemma u16_small x : 0 <= x < 65536 → u16 x = x.
Proof. intros; apply Z.mod_small; lia. Qed.
Lemma u32_small x : 0 <= x < 4294967296 → u32 x = x.
Proof. intros; apply Z.mod_small; lia. Qed.
Lemma u64_small x : 0 <= x < 2 ^ 64 → u64 x = x.
Proof. intros; apply Z.mod_small; lia. Qed.

Lemma lor_shift_add a b n : 0 <= n → 0 <= b < 2 ^ n → (a .<< n) .| b = a * 2 ^ n + b.
Proof.
  intros Hn Hb. rewrite <- Z.shiftl_mul_pow2 by lia.
  assert (Hdisj : (a .<< n) .& b = 0).
  { apply Z.bits_inj'. intros k Hk. rewrite Z.land_spec, Z.bits_0.
    destruct (Z.lt_ge_cases k n).
    - by rewrite Z.shiftl_spec_low by lia.
    - rewrite <- (Z.mod_small b (2 ^ n)) by lia.
      rewrite Z.mod_pow2_bits_high by lia. apply andb_false_r. }
  by rewrite <- Z.lxor_lor, <- Z.add_nocarry_lxor.
Qed.

#[export] Hint Resolve u8_range u16_range u32_range u64_range : cint.

(** ** Deciding a statement about a byte by evaluation

    [Z_range_check] turns a statement about every integer of an interval into
    one evaluation; it is how the table-free character tests are compared with
    their reference definitions. *)

Lemma Z_range_check (P : Z → bool) (lo n : Z) :
  forallb P (seqZ lo n) = true → ∀ x, lo <= x < lo + n → P x = true.
Proof.
  intros H x Hx. rewrite forallb_forall in H. apply H.
  apply list_elem_of_In, elem_of_seqZ. lia.
Qed.

(** [by_bytes lo n] proves [P x] for [lo <= x < lo + n] when the goal is an
    equation between decidable values of [x]. *)
Lemma Z_range_eq {A} `{EqDecision A} (f g : Z → A) (lo n : Z) :
  forallb (λ x, bool_decide (f x = g x)) (seqZ lo n) = true →
  ∀ x, lo <= x < lo + n → f x = g x.
Proof.
  intros H x Hx. pose proof (Z_range_check _ _ _ H x Hx) as Hp. simpl in Hp.
  by apply bool_decide_eq_true in Hp.
Qed.

(** ** Bytes, characters and C strings

    A string is the list of its bytes, as values in 0..255, without the
    terminating NUL; a valid C string holds no zero byte. *)

Abbreviation bytes := (list Z).

Definition is_byte (b : Z) : bool := (0 <=? b) && (b <? 256).
Definition is_cchar (b : Z) : bool := (0 <? b) && (b <? 256).
Definition all_bytes (l : bytes) : bool := forallb is_byte l.
Definition cstring (l : bytes) : bool := forallb is_cchar l.

Definition ch (c : ascii) : Z := Z.of_N (N_of_ascii c).
Definition str (s : string) : bytes := ch <$> list_ascii_of_string s.
Arguments str s%_string_scope.

(** Replace every character literal by its code, for [lia] and friends. *)
Ltac ch_norm :=
  repeat match goal with
  | |- context [ch ?c] =>
      let v := eval vm_compute in (ch c) in progress change (ch c) with v
  | H : context [ch ?c] |- _ =>
      let v := eval vm_compute in (ch c) in progress change (ch c) with v in H
  end.

(** Linear arithmetic with division and remainder by powers of two. *)
Ltac pow_norm :=
  repeat match goal with
  | |- context [2 ^ Zpos ?p] =>
      let v := eval vm_compute in (2 ^ Zpos p) in progress change (2 ^ Zpos p) with v
  | H : context [2 ^ Zpos ?p] |- _ =>
      let v := eval vm_compute in (2 ^ Zpos p) in progress change (2 ^ Zpos p) with v in H
  end.
Ltac bit_lia := pow_norm; Z.to_euclidean_division_equations; lia.

(** Reading [l[i]] of an array that is long enough; 0 stands for the NUL that
    terminates a string. *)
Definition at_ (l : bytes) (i : nat) : Z := default 0 (l !! i).

Lemma is_byte_spec b : is_byte b = true ↔ 0 <= b < 256.
Proof. unfold is_byte. rewrite andb_true_iff, Z.leb_le, Z.ltb_lt. lia. Qed.
Lemma is_cchar_spec b : is_cchar b = true ↔ 0 < b < 256.
Proof. unfold is_cchar. rewrite andb_true_iff, !Z.ltb_lt. lia. Qed.

Lemma all_bytes_cons b l : all_bytes (b :: l) = is_byte b && all_bytes l.
Proof. reflexivity. Qed.

Lemma all_bytes_app l k : all_bytes (l ++ k) = all_bytes l && all_bytes k.
Proof. apply forallb_app. Qed.

Lemma all_bytes_lookup l i b : all_bytes l = true → l !! i = Some b → 0 <= b < 256.
Proof.
  intros Hl Hi. apply is_byte_spec.
  unfold all_bytes in Hl. rewrite forallb_forall in Hl. apply Hl, list_elem_of_In.
  by eapply list_elem_of_lookup_2.
Qed.

Lemma all_bytes_at l i : all_bytes l = true → 0 <= at_ l i < 256.
Proof.
  intros Hl. unfold at_. destruct (l !! i) eqn:E; simpl; [|lia].
  by eapply all_bytes_lookup.
Qed.
#[export] Hint Resolve all_bytes_at : cint.

Lemma cstring_all_bytes l : cstring l = true → all_bytes l = true.
Proof.
  unfold cstring, all_bytes. rewrite !forallb_forall. intros H b Hb.
  apply is_byte_spec. apply H, is_cchar_spec in Hb. lia.
Qed.

Lemma cstring_app l k : cstring (l ++ k) = cstring l && cstring k.
Proof. apply forallb_app. Qed.

(** ** The platform

    Two implementation-defined choices reach the behaviour of the tools:
    whether plain [char] is signed (it is on x86, not on ARM), and the width of
    [unsigned long] (32 bits on the 32-bit Android ABIs, 64 on the others).
    The model takes both as a parameter. *)

Class Platform := {
  char_signed : bool;
  ulong_bits : Z;
  ulong_bits_ok : ulong_bits = 32 ∨ ulong_bits = 64;
}.

(** The [int] a plain [char] holding byte [b] is promoted to. *)
Definition char_val `{Platform} (b : Z) : Z :=
  if char_signed && (128 <=? b) then b - 256 else b.

Lemma char_val_ascii `{Platform} b : b < 128 → char_val b = b.
Proof.
  intros. unfold char_val. rewrite (proj2 (Z.leb_gt 128 b)) by lia.
  by rewrite andb_false_r.
Qed.

Lemma char_val_cases `{Platform} b :
  0 <= b < 256 → char_val b = b ∨ (128 <= b ∧ char_val b = b - 256).
Proof.
  intros. unfold char_val. destruct char_signed; simpl; [|auto].
  destruct (Z.leb_spec 128 b); auto.
Qed.

Definition ULONG_MAX `{Platform} : Z := 2 ^ ulong_bits - 1.
Definition ULLONG_MAX : Z := 2 ^ 64 - 1.
Definition UINT32_MAX : Z := 2 ^ 32 - 1.
Definition INT_MAX : Z := 2 ^ 31 - 1.
Definition INT_MIN : Z := - 2 ^ 31.

Lemma ULONG_MAX_cases `{Platform} :
  ULONG_MAX = UINT32_MAX ∨ ULONG_MAX = ULLONG_MAX.
Proof.
  unfold ULONG_MAX, UINT32_MAX, ULLONG_MAX.
  destruct ulong_bits_ok as [->| ->]; auto.
Qed.

Lemma ULONG_MAX_ge `{Platform} : UINT32_MAX <= ULONG_MAX.
Proof. destruct ULONG_MAX_cases as [->| ->]; unfold UINT32_MAX, ULLONG_MAX; lia. Qed.

(** The two ABIs the library is built for most often. *)
Definition arm64 : Platform :=
  {| char_signed := false; ulong_bits := 64; ulong_bits_ok := or_intror eq_refl |}.
Definition x86_64 : Platform :=
  {| char_signed := true; ulong_bits := 64; ulong_bits_ok := or_intror eq_refl |}.
Definition armv7 : Platform :=
  {| char_signed := false; ulong_bits := 32; ulong_bits_ok := or_introl eq_refl |}.

(** ** Effects

    A tool function runs in a small state and error monad.  The state is the
    outcome of the allocations still to come (an allocation past the end of
    the list succeeds); a run ends in a value, in [exit(code)], in undefined
    behaviour (a NULL or freed pointer used), or out of fuel. *)

Inductive outcome (A : Type) : Type :=
  | Done (a : A)
  | Exit (code : Z)
  | Undefined
  | NoFuel.
Arguments Done {A} _.
Arguments Exit {A} _.
Arguments Undefined {A}.
Arguments NoFuel {A}.

Definition allocs : Type := list bool.
Definition M (A : Type) : Type := allocs → outcome (A * allocs).

#[export] Instance M_ret : MRet M := λ A a o, Done (a, o).
#[export] Instance M_bind : MBind M := λ A B f m o,
  match m o with
  | Done (a, o') => f a o'
  | Exit c => Exit c
  | Undefined => Undefined
  | NoFuel => NoFuel
  end.

Definition exit_ {A} (code : Z) : M A := λ _, Exit code.
Definition undefined {A} : M A := λ _, Undefined.
Definition out_of_fuel {A} : M A := λ _, NoFuel.

(** [calloc], [malloc] and [strdup]: whether the allocation succeeded. *)
Definition alloc : M bool := λ o,
  match o with
  | [] => Done (true, [])
  | b :: o' => Done (b, o')
  end.

(** A run with memory to spare. *)
Definition run {A} (m : M A) : outcome A :=
  match m [] with
  | Done (a, _) => Done a
  | Exit c => Exit c
  | Undefined => Undefined
  | NoFuel => NoFuel
  end.

Definition outcome_value {A} (x : outcome A) : option A :=
  match x with Done a => Some a | _ => None end.

Lemma M_bind_Done {A B} (m : M A) (f : A → M B) o r :
  (m ≫= f) o = Done r → ∃ a o', m o = Done (a, o') ∧ f a o' = Done r.
Proof.
  unfold mbind, M_bind. destruct (m o) as [[a o']| | |]; [|done..]. eauto.
Qed.

(** Take apart every completed bind of the context. *)
Ltac m_inv :=
  repeat match goal with
  | H : (_ ≫= _) _ = Done _ |- _ =>
      apply M_bind_Done in H as (? & ? & ? & ?)
  | H : mret _ _ = Done _ |- _ =>
      unfold mret, M_ret in H; simplify_eq/=
  | H : Done _ = Done _ |- _ => simplify_eq/=
  | H : exit_ _ _ = Done _ |- _ => discriminate H
  | H : undefined _ = Done _ |- _ => discriminate H
  | H : out_of_fuel _ = Done _ |- _ => discriminate H
  end.

(** [safe m Q]: whatever the allocator does, [m] runs into no undefined
    behaviour, and a value it returns satisfies [Q]. *)
Definition safe {A} (m : M A) (Q : A → Prop) : Prop :=
  ∀ o, match m o with Done (a, _) => Q a | Undefined => False | Exit _ | NoFuel => True end.

Lemma safe_ret {A} (a : A) (Q : A → Prop) : Q a → safe (mret a) Q.
Proof. intros HQ o. exact HQ. Qed.

Lemma safe_bind {A B} (m : M A) (f : A → M B) (P : A → Prop) (Q : B → Prop) :
  safe m P → (∀ a, P a → safe (f a) Q) → safe (m ≫= f) Q.
Proof.
  intros Hm Hf o. unfold mbind, M_bind. specialize (Hm o).
  destruct (m o) as [[a o']| | |]; [by apply Hf|done..].
Qed.

Lemma safe_mono {A} (m : M A) (P Q : A → Prop) : safe m P → (∀ a, P a → Q a) → safe m Q.
Proof. intros Hm HPQ o. specialize (Hm o). destruct (m o) as [[a o']| | |]; auto. Qed.

Lemma safe_alloc (Q : bool → Prop) : Q true → Q false → safe alloc Q.
Proof. intros Ht Hf o. destruct o as [|[] o]; assumption. Qed.

Lemma safe_exit {A} c (Q : A → Prop) : safe (exit_ c) Q.
Proof. done. Qed.
Lemma safe_fuel {A} (Q : A → Prop) : safe out_of_fuel Q.
Proof. done. Qed.

Create HintDb safe.
#[export] Hint Resolve safe_ret safe_exit safe_fuel : safe.

(** Step through an allocation: both outcomes. *)
Ltac safe_alloc b :=
  eapply (safe_bind alloc _ (λ _, True)); [by apply safe_alloc|]; intros b _.

Lemma safe_Done {A} (m : M A) Q o a o' : safe m Q → m o = Done (a, o') → Q a.
Proof. intros H E. specialize (H o). by rewrite E in H. Qed.

(** ** Lists *)

(** [for (i = 0; i < n; ++i)] over an accumulator. *)
Fixpoint for_upto {S} (i n : nat) (body : nat → S → S) (s : S) : S :=
  match n with
  | O => s
  | Datatypes.S n' => for_upto (Datatypes.S i) n' body (body i s)
  end.

Lemma forallb_ext_in {A} (f g : A → bool) l :
  (∀ x, x ∈ l → f x = g x) → forallb f l = forallb g l.
Proof.
  induction l as [|x l IH]; intros H; simpl; [done|].
  rewrite H, IH by set_solver. done.
Qed.

Lemma forallb_Forall_true {A} (f : A → bool) l :
  forallb f l = true ↔ Forall (λ x, f x = true) l.
Proof. rewrite forallb_forall, List.Forall_forall. done. Qed.

Lemma flat_map_ext_in {A B} (f g : A → list B) l :
  (∀ x, In x l → f x = g x) → flat_map f l = flat_map g l.
Proof. intros. rewrite !flat_map_concat_map. f_equal. by apply map_ext_in. Qed.

Lemma drop_app_cons {A} (l k : list A) x : drop (S (length l)) (l ++ x :: k) = k.
Proof. rewrite <- Nat.add_1_r, drop_app_add. done. Qed.

(** The first position at which a test holds. *)
Fixpoint index_of (P : Z → bool) (l : bytes) : option nat :=
  match l with
  | [] => None
  | b :: l' => if P b then Some O else S <$> index_of P l'
  end.

Lemma index_of_Some P l i :
  index_of P l = Some i ↔
  ∃ b, l !! i = Some b ∧ P b = true ∧ ∀ j c, (j < i)%nat → l !! j = Some c → P c = false.
Proof.
  revert i. induction l as [|x l IH]; intros i; simpl.
  { split; [done|]. intros (b & ? & _). done. }
  destruct (P x) eqn:Hx.
  - split.
    + intros [= <-]. exists x. split_and!; [done..|]. lia.
    + intros (b & Hb & HP & Hlt). destruct i as [|i]; [done|].
      specialize (Hlt O x ltac:(lia) eq_refl). congruence.
  - rewrite fmap_Some. split.
    + intros (k & (b & ? & ? & Hlt)%IH & ->). exists b. split_and!; [done..|].
      intros [|j] c Hj Hc; simplify_eq/=; [done|]. eapply Hlt; [|done]. lia.
    + intros (b & Hb & HP & Hlt). destruct i as [|i]; simpl in *; [congruence|].
      exists i. split; [|done]. apply IH. exists b. split_and!; [done..|].
      intros j c Hj Hc. apply (Hlt (S j)); [lia|done].
Qed.

Lemma index_of_None P l : index_of P l = None ↔ Forall (λ b, P b = false) l.
Proof.
  induction l as [|x l IH]; simpl; [split; [constructor|done]|].
  destruct (P x) eqn:Hx.
  - split; [done|]. rewrite Forall_cons. intros [? _]. congruence.
  - rewrite fmap_None, IH, Forall_cons. naive_solver.
Qed.

Lemma index_of_lt P l i : index_of P l = Some i → (i < length l)%nat.
Proof. intros (b & ? & _)%index_of_Some. by eapply lookup_lt_Some. Qed.
