(* ===== verification/CLib.v ===== *)
(** * CLib: the C library functions the tools call on strings and numbers

    String comparison, searching and tokenising, [strtoul] and its relatives,
    and the [%u], [%d] and [%x] conversions of [printf], as the C standard and
    POSIX describe them in the "C" locale.  A pointer into a string is the
    suffix it points at; [*end == 0] is [is_end].  The number printers and
    [strtoul] are inverse to each other, which the configuration and protocol
    round trips rest on. *)

From Stdlib Require Import Ascii String.
From stdpp Require Import base numbers option sets list list_numbers strings.
From S2P Require Import Prelude.

(** ** Error numbers, as Linux numbers them *)

Definition ENOENT : Z := 2.
Definition ESRCH : Z := 3.
Definition EINTR : Z := 4.
Definition EBADF : Z := 9.
Definition ENOMEM : Z := 12.
Definition EINVAL : Z := 22.
Definition ERANGE : Z := 34.
Definition ENAMETOOLONG : Z := 36.
Definition ENOSYS : Z := 38.
Definition EPROTO : Z := 71.
Definition EBADMSG : Z := 74.
Definition EPROTONOSUPPORT : Z := 93.
Definition EOPNOTSUPP : Z := 95.
Definition ENETUNREACH : Z := 101.
Definition ECONNREFUSED : Z := 111.

(** ** Comparison and search *)

Definition strcmp_eq (a b : bytes) : bool := bool_decide (a = b).

Definition tolower (c : Z) : Z := if (65 <=? c) && (c <=? 90) then c + 32 else c.

Definition strcasecmp_eq (a b : bytes) : bool :=
  bool_decide (tolower <$> a = tolower <$> b).

(** [!strncasecmp(a, b, n)] for an [n] no longer than either string. *)
Definition strncasecmp_eq (a b : bytes) (n : nat) : bool :=
  strcasecmp_eq (take n a) (take n b).

(** [strchr(s, c)]: the suffix starting at the first [c]. *)
Definition strchr (s : bytes) (c : Z) : option bytes :=
  (λ i, drop i s) <$> index_of (Z.eqb c) s.

Definition has_char (s : bytes) (c : Z) : bool := existsb (Z.eqb c) s.

(** [strrchr(s, c)]: the string before the last [c], and what follows it. *)
Definition strrchr_split (s : bytes) (c : Z) : option (bytes * bytes) :=
  match index_of (Z.eqb c) (reverse s) with
  | Some i => let k := (length s - 1 - i)%nat in Some (take k s, drop (S k) s)
  | None => None
  end.

(** [strchr(s, c)] with the [c] overwritten by NUL: before and after. *)
Definition strchr_split (s : bytes) (c : Z) : option (bytes * bytes) :=
  match index_of (Z.eqb c) s with
  | Some i => Some (take i s, drop (S i) s)
  | None => None
  end.

(** [strsep(&p, "c")] on a non-NULL [p]: the token, and the new [p]. *)
Definition strsep (s : bytes) (c : Z) : bytes * option bytes :=
  match strchr_split s c with
  | Some (tok, rest) => (tok, Some rest)
  | None => (s, None)
  end.

(** All tokens [while ((t = strsep(&p, "c")))] visits; a call shortens the
    rest, so [length s + 1] calls are enough. *)
Fixpoint strsep_all_fuel (fuel : nat) (s : bytes) (c : Z) : list bytes :=
  match fuel with
  | O => []
  | S f => match strsep s c with
           | (tok, None) => [tok]
           | (tok, Some rest) => tok :: strsep_all_fuel f rest c
           end
  end.
Definition strsep_all (s : bytes) (c : Z) : list bytes :=
  strsep_all_fuel (S (length s)) s c.

(** [strncpy(dst, src, n)] into a zeroed buffer, read back as a string. *)
Definition strncpy_str (src : bytes) (n : nat) : bytes := take n src.

(** A buffer used as a string: it ends at its first NUL. *)
Definition cstr (l : bytes) : bytes :=
  match index_of (Z.eqb 0) l with Some i => take i l | None => l end.

(** [memcmp(a, b, n)]; only its sign is specified. *)
Fixpoint memcmp (a b : bytes) (n : nat) : Z :=
  match n with
  | O => 0
  | S n' =>
      if at_ a 0 =? at_ b 0 then memcmp (drop 1 a) (drop 1 b) n'
      else at_ a 0 - at_ b 0
  end.

(** The successive results of [getline]: each line with its newline, the last
    one without when the data ends in the middle of a line. *)
Fixpoint getlines (l : bytes) : list bytes :=
  match l with
  | [] => []
  | c :: l' =>
      if c =? 10 then [c] :: getlines l'
      else match getlines l' with
           | [] => [[c]]
           | t :: ts => (c :: t) :: ts
           end
  end.

(** ** strtoul, strtoull, strtoll *)

Definition isspace (c : Z) : bool := ((9 <=? c) && (c <=? 13)) || (c =? 32).

Definition digit_val (c : Z) : option Z :=
  if (48 <=? c) && (c <=? 57) then Some (c - 48)
  else if (97 <=? c) && (c <=? 122) then Some (c - 87)
  else if (65 <=? c) && (c <=? 90) then Some (c - 55)
  else None.

Definition base_digit (base c : Z) : option Z :=
  match digit_val c with
  | Some d => if d <? base then Some d else None
  | None => None
  end.

(** The longest prefix of digits, and the rest. *)
Fixpoint span_digits (base : Z) (s : bytes) : list Z * bytes :=
  match s with
  | [] => ([], [])
  | c :: s' =>
      match base_digit base c with
      | Some d => let '(ds, rest) := span_digits base s' in (d :: ds, rest)
      | None => ([], s)
      end
  end.

Definition digits_value (base : Z) (ds : list Z) : Z :=
  fold_left (λ acc d, base * acc + d) ds 0.

Fixpoint skip_space (s : bytes) : bytes :=
  match s with
  | c :: s' => if isspace c then skip_space s' else s
  | [] => []
  end.

Definition skip_sign (s : bytes) : bool * bytes :=
  match s with
  | c :: s' => if c =? 45 then (true, s') else if c =? 43 then (false, s') else (false, s)
  | [] => (false, [])
  end.

(** The optional "0x" of base 16, taken only when a hex digit follows. *)
Definition skip_0x (base : Z) (s : bytes) : bytes :=
  match s with
  | 48 :: x :: d :: s' =>
      if (base =? 16) && ((x =? 120) || (x =? 88)) && bool_decide (is_Some (base_digit 16 d))
      then d :: s' else s
  | _ => s
  end.

(** Magnitude, sign and end pointer, before the range check. *)
Definition strto_parse (base : Z) (s : bytes) : option (bool * Z * bytes) :=
  let '(neg, s1) := skip_sign (skip_space s) in
  match span_digits base (skip_0x base s1) with
  | ([], _) => None
  | (ds, rest) => Some (neg, digits_value base ds, rest)
  end.

(** [strtoul] into an unsigned type of maximum [max]: value and end. *)
Definition strtou (max base : Z) (s : bytes) : Z * bytes :=
  match strto_parse base s with
  | None => (0, s)
  | Some (neg, v, rest) =>
      (if max <? v then max else if neg then (- v) mod (max + 1) else v, rest)
  end.

Definition strtoul `{Platform} (base : Z) (s : bytes) : Z * bytes := strtou ULONG_MAX base s.
Definition strtoull (base : Z) (s : bytes) : Z * bytes := strtou ULLONG_MAX base s.

Definition strtoll (base : Z) (s : bytes) : Z * bytes :=
  match strto_parse base s with
  | None => (0, s)
  | Some (neg, v, rest) =>
      ((if neg then Z.max (- 2 ^ 63) (- v) else Z.min (2 ^ 63 - 1) v), rest)
  end.

(** [*end == '\0'] *)
Definition is_end (s : bytes) : bool := match s with [] => true | _ => false end.

(** ** printf conversions *)

Definition digit_char (d : Z) : Z := if d <? 10 then 48 + d else 87 + d.

Fixpoint print_fuel (fuel : nat) (base n : Z) (acc : bytes) : bytes :=
  match fuel with
  | O => acc
  | S f =>
      let acc' := digit_char (n mod base) :: acc in
      if n / base =? 0 then acc' else print_fuel f base (n / base) acc'
  end.

(** [%u] is base 10 and [%x] base 16; a number has at most as many digits as bits. *)
Definition print_base (base n : Z) : bytes :=
  print_fuel (S (Z.to_nat (Z.log2 n))) base n [].
Definition printf_u (n : Z) : bytes := print_base 10 n.
Definition printf_x (n : Z) : bytes := print_base 16 n.
Definition printf_d (n : Z) : bytes :=
  if n <? 0 then ch "-" :: printf_u (- n) else printf_u n.

(** ** Lemmas *)

Lemma strcmp_eq_spec a b : strcmp_eq a b = true ↔ a = b.
Proof. apply bool_decide_eq_true. Qed.

Lemma strcmp_eq_refl a : strcmp_eq a a = true.
Proof. by apply strcmp_eq_spec. Qed.

Lemma strcasecmp_eq_spec a b : strcasecmp_eq a b = true ↔ tolower <$> a = tolower <$> b.
Proof. apply bool_decide_eq_true. Qed.

Lemma has_char_spec s c : has_char s c = true ↔ c ∈ s.
Proof.
  unfold has_char. rewrite existsb_exists. setoid_rewrite Z.eqb_eq.
  setoid_rewrite list_elem_of_In. naive_solver.
Qed.

Lemma index_of_eqb_app c l k :
  c ∉ l → index_of (Z.eqb c) (l ++ c :: k) = Some (length l).
Proof.
  induction l as [|x l IH]; simpl; intros Hn.
  - by rewrite Z.eqb_refl.
  - destruct (Z.eqb_spec c x) as [->|]; [set_solver|].
    rewrite IH by set_solver. done.
Qed.

Lemma index_of_eqb_None c l : index_of (Z.eqb c) l = None ↔ c ∉ l.
Proof.
  rewrite index_of_None. rewrite Forall_forall. setoid_rewrite Z.eqb_neq.
  naive_solver.
Qed.

Lemma strchr_split_app c l k :
  c ∉ l → strchr_split (l ++ c :: k) c = Some (l, k).
Proof.
  intros H. unfold strchr_split. rewrite index_of_eqb_app by done.
  rewrite take_app_length, drop_app_cons. done.
Qed.

Lemma strchr_split_Some c s l k :
  strchr_split s c = Some (l, k) → s = l ++ c :: k ∧ c ∉ l.
Proof.
  unfold strchr_split. destruct (index_of _ s) as [i|] eqn:E; [|done].
  intros [= <- <-]. apply index_of_Some in E as (b & Hb & Hc & Hlt).
  apply Z.eqb_eq in Hc as <-. split.
  - symmetry. by apply take_drop_middle.
  - rewrite list_elem_of_lookup. intros [j Hj].
    pose proof Hj as [Hj' Hlt']%lookup_take_Some.
    specialize (Hlt _ _ Hlt' Hj'). apply Z.eqb_neq in Hlt. done.
Qed.

Lemma strchr_split_None c s : strchr_split s c = None ↔ c ∉ s.
Proof.
  unfold strchr_split. rewrite <- index_of_eqb_None.
  destruct (index_of _ s); naive_solver.
Qed.

Lemma strrchr_split_app c l k :
  c ∉ k → strrchr_split (l ++ c :: k) c = Some (l, k).
Proof.
  intros H. unfold strrchr_split. rewrite reverse_app, reverse_cons, <- app_assoc. simpl.
  rewrite index_of_eqb_app by set_solver.
  rewrite length_reverse, length_app. simpl.
  replace (length l + S (length k) - 1 - length k)%nat with (length l) by lia.
  rewrite take_app_length, drop_app_cons. done.
Qed.

Lemma strrchr_split_Some c s l k :
  strrchr_split s c = Some (l, k) → s = l ++ c :: k ∧ c ∉ k.
Proof.
  intros H. destruct (decide (c ∈ s)) as [Hin|Hn].
  - apply (list_elem_of_split_r) in Hin as (l1 & l2 & -> & Hl2).
    rewrite strrchr_split_app in H by done. by simplify_eq.
  - unfold strrchr_split in H.
    rewrite (proj2 (index_of_eqb_None c (reverse s))) in H by set_solver. done.
Qed.

(** ** Printing and parsing numbers are inverse *)

Lemma digits_value_app base ds es :
  digits_value base (ds ++ es) =
  digits_value base ds * base ^ Z.of_nat (length es) + digits_value base es.
Proof.
  unfold digits_value. rewrite fold_left_app. generalize (fold_left (λ acc d, base * acc + d) ds 0).
  induction es as [|e es IH] using rev_ind; intros a; simpl; [lia|].
  rewrite !fold_left_app, length_app. simpl. rewrite IH, Nat.add_1_r, Nat2Z.inj_succ, Z.pow_succ_r by lia.
  ring.
Qed.

Lemma digits_value_snoc base ds d :
  digits_value base (ds ++ [d]) = base * digits_value base ds + d.
Proof. unfold digits_value. by rewrite fold_left_app. Qed.

Lemma digits_value_nonneg base ds :
  0 <= base → Forall (λ d, 0 <= d) ds → 0 <= digits_value base ds.
Proof.
  intros Hb. induction ds as [|d ds IH] using rev_ind; [done|].
  intros [? Hd]%Forall_app. rewrite digits_value_snoc. apply Forall_cons in Hd as [? _].
  specialize (IH ltac:(done)). nia.
Qed.

Lemma base_digit_char base d :
  2 <= base <= 16 → 0 <= d < base → base_digit base (digit_char d) = Some d.
Proof.
  intros Hb Hd. unfold base_digit, digit_val, digit_char.
  destruct (Z.ltb_spec d 10).
  - rewrite (proj2 (Z.leb_le 48 _)), (proj2 (Z.leb_le _ 57)) by lia. simpl.
    replace (48 + d - 48) with d by lia. rewrite (proj2 (Z.ltb_lt d base)) by lia. done.
  - rewrite (proj2 (Z.leb_gt _ 57)) by lia. rewrite andb_false_r.
    rewrite (proj2 (Z.leb_le 97 _)), (proj2 (Z.leb_le _ 122)) by lia. simpl.
    replace (87 + d - 87) with d by lia. rewrite (proj2 (Z.ltb_lt d base)) by lia. done.
Qed.

(** The digits [print_fuel] writes, as values. *)
Definition print_spec (base : Z) (out : bytes) (n : Z) : Prop :=
  ∃ ds, out = digit_char <$> ds ∧ Forall (λ d, 0 <= d < base) ds ∧
        ds ≠ [] ∧ digits_value base ds = n ∧ (ds = [0] ∨ hd 0 ds ≠ 0).

Lemma print_fuel_digits base fuel n acc :
  2 <= base → 0 <= n < base ^ Z.of_nat fuel → (0 < fuel)%nat →
  ∃ ds, print_fuel fuel base n acc = (digit_char <$> ds) ++ acc ∧
        Forall (λ d, 0 <= d < base) ds ∧ ds ≠ [] ∧ digits_value base ds = n ∧
        (ds = [0] ∨ hd 0 ds ≠ 0).
Proof.
  intros Hb. revert n acc. induction fuel as [|f IH]; intros n acc Hn Hf; [lia|].
  pose proof (Z.mod_pos_bound n base ltac:(lia)).
  pose proof (Z.div_mod n base ltac:(lia)) as Hdm. simpl.
  destruct (Z.eqb_spec (n / base) 0) as [Hz|Hnz].
  - exists [n mod base]. unfold digits_value. simpl.
    split_and!; [done|by apply Forall_singleton|done|lia|].
    destruct (Z.eq_dec (n mod base) 0) as [->|]; auto.
  - assert (0 < n / base).
    { pose proof (Z.div_pos n base ltac:(lia) ltac:(lia)). lia. }
    rewrite Nat2Z.inj_succ, Z.pow_succ_r in Hn by lia.
    assert (n / base < base ^ Z.of_nat f) by (apply Z.div_lt_upper_bound; lia).
    assert (0 < f)%nat by (destruct f; [simpl in *; lia|lia]).
    destruct (IH (n / base) (digit_char (n mod base) :: acc)) as (ds & -> & Hds & Hne & Hv & Hhd); [lia..|].
    exists (ds ++ [n mod base]). rewrite digits_value_snoc, Hv. split_and!.
    + by rewrite fmap_app, <- app_assoc.
    + apply Forall_app. split; [done|]. by apply Forall_singleton.
    + by destruct ds.
    + lia.
    + right. destruct Hhd as [->|Hhd]; [unfold digits_value in Hv; simpl in Hv; lia|].
      by destruct ds.
Qed.

Lemma print_base_spec base n :
  2 <= base → 0 <= n → print_spec base (print_base base n) n.
Proof.
  intros Hb Hn. unfold print_base.
  destruct (print_fuel_digits base (S (Z.to_nat (Z.log2 n))) n []) as (ds & -> & ? & ? & ? & ?); [lia| |lia|].
  - rewrite Nat2Z.inj_succ, Z2Nat.id by apply Z.log2_nonneg. split; [lia|].
    destruct (Z.eq_dec n 0) as [->|]; [apply Z.pow_pos_nonneg; simpl; lia|].
    pose proof (Z.log2_spec n ltac:(lia)) as [_ Hl].
    eapply Z.lt_le_trans; [exact Hl|].
    apply Z.pow_le_mono_l. split; [lia|lia].
  - exists ds. rewrite app_nil_r. auto.
Qed.

Lemma span_digits_chars base ds rest :
  2 <= base <= 16 → Forall (λ d, 0 <= d < base) ds →
  (∀ c s, rest = c :: s → base_digit base c = None) →
  span_digits base ((digit_char <$> ds) ++ rest) = (ds, rest).
Proof.
  intros Hb Hds Hrest. induction Hds as [|d ds Hd Hds IH]; csimpl.
  - destruct rest as [|c s]; simpl; [done|]. by rewrite (Hrest c s).
  - rewrite base_digit_char by lia. by rewrite IH.
Qed.

Lemma digit_char_range d : 0 <= d < 16 → 48 <= digit_char d <= 102.
Proof. unfold digit_char. destruct (Z.ltb_spec d 10); lia. Qed.

(** Every string the printers write is a C string that starts with no space,
    no sign and, unless it is "0" itself, no zero. *)
Lemma print_spec_skip base out n rest :
  2 <= base <= 16 → print_spec base out n →
  skip_sign (skip_space (out ++ rest)) = (false, out ++ rest).
Proof.
  intros Hb (ds & -> & Hds & Hne & _ & _). destruct ds as [|d ds]; [done|].
  apply Forall_cons in Hds as [Hd _]. pose proof (digit_char_range d ltac:(lia)).
  csimpl. unfold skip_space, isspace.
  rewrite (proj2 (Z.leb_gt (digit_char d) 13)), (proj2 (Z.eqb_neq (digit_char d) 32)) by lia.
  rewrite andb_false_r. simpl.
  rewrite (proj2 (Z.eqb_neq (digit_char d) 45)), (proj2 (Z.eqb_neq (digit_char d) 43)) by lia.
  done.
Qed.

Lemma skip_0x_no_zero base c s : c ≠ 48 → skip_0x base (c :: s) = c :: s.
Proof. intros. unfold skip_0x. repeat (case_match; try done). Qed.

Lemma skip_0x_base base s : base ≠ 16 → skip_0x base s = s.
Proof.
  intros H%Z.eqb_neq. unfold skip_0x. rewrite H. by repeat (case_match; simplify_eq).
Qed.

Lemma print_spec_skip_0x base out n :
  2 <= base <= 16 → print_spec base out n → skip_0x base out = out.
Proof.
  intros Hb (ds & -> & Hds & Hne & Hv & Hhd). destruct ds as [|d ds]; [done|].
  destruct Hhd as [Hhd|Hhd]; [by simplify_eq|]. csimpl in *. apply skip_0x_no_zero.
  apply Forall_cons in Hds as [Hd _]. unfold digit_char. destruct (Z.ltb_spec d 10); lia.
Qed.

Lemma strto_parse_print base out n rest :
  2 <= base <= 16 → base ≠ 16 ∨ rest = [] → print_spec base out n →
  (∀ c s, rest = c :: s → base_digit base c = None) →
  strto_parse base (out ++ rest) = Some (false, n, rest).
Proof.
  intros Hb H16 Hp Hr. unfold strto_parse. rewrite (print_spec_skip base out n) by done.
  assert (skip_0x base (out ++ rest) = out ++ rest) as ->.
  { destruct H16 as [H16| ->]; [by apply skip_0x_base|].
    rewrite app_nil_r. by eapply print_spec_skip_0x. }
  destruct Hp as (ds & -> & Hds & Hne & Hv & Hhd).
  rewrite span_digits_chars by done. destruct ds; [done|]. by rewrite Hv.
Qed.

Lemma strtou_print10 max n rest :
  0 <= n <= max → (∀ c s, rest = c :: s → base_digit 10 c = None) →
  strtou max 10 (printf_u n ++ rest) = (n, rest).
Proof.
  intros Hn Hr. unfold strtou.
  rewrite (strto_parse_print 10 _ n) by (first [done | left; lia | apply print_base_spec; lia]).
  rewrite (proj2 (Z.ltb_ge max n)) by lia. done.
Qed.

Lemma strtou_print10_end max n :
  0 <= n <= max → strtou max 10 (printf_u n) = (n, []).
Proof. intros. rewrite <- (app_nil_r (printf_u n)). by apply strtou_print10. Qed.

Lemma skip_0x_prefix out n :
  print_spec 16 out n → skip_0x 16 (str "0x" ++ out) = out.
Proof.
  intros (ds & -> & Hds & Hne & _). destruct ds as [|d ds]; [done|].
  apply Forall_cons in Hds as [Hd _]. csimpl.
  rewrite (bool_decide_eq_true_2 _); [done|]. rewrite base_digit_char by lia. eauto.
Qed.

Lemma strtou_print16 max n :
  0 <= n <= max → strtou max 16 (str "0x" ++ printf_x n) = (n, []).
Proof.
  intros Hn. pose proof (print_base_spec 16 n ltac:(lia) ltac:(lia)) as Hp.
  pose proof (strto_parse_print 16 (printf_x n) n [] ltac:(lia) ltac:(by right) Hp ltac:(done)) as Hparse.
  unfold strtou. enough (strto_parse 16 (str "0x" ++ printf_x n) = Some (false, n, [])) as ->.
  { rewrite (proj2 (Z.ltb_ge max n)) by lia. done. }
  rewrite <- Hparse. unfold strto_parse, printf_x. rewrite (print_spec_skip 16 _ n [] ltac:(lia) Hp).
  change (skip_sign (skip_space (str "0x" ++ print_base 16 n))) with (false, str "0x" ++ print_base 16 n).
  cbv iota beta. rewrite (skip_0x_prefix _ n Hp), app_nil_r.
  by rewrite (print_spec_skip_0x 16 _ n ltac:(lia) Hp).
Qed.

Lemma digit_char_cchar d : 0 <= d < 16 → is_cchar (digit_char d) = true.
Proof. intros. pose proof (digit_char_range d). apply is_cchar_spec. lia. Qed.

Lemma print_base_chars base n :
  2 <= base <= 16 → 0 <= n →
  Forall (λ c, 48 <= c <= 57 ∨ (97 <= c <= 102 ∧ 10 < base)) (print_base base n).
Proof.
  intros Hb Hn. destruct (print_base_spec base n) as (ds & -> & Hds & _); [lia..|].
  apply Forall_fmap. eapply Forall_impl; [exact Hds|]. intros d Hd. simpl in *.
  unfold digit_char. destruct (Z.ltb_spec d 10); lia.
Qed.

Lemma printf_u_digits n : 0 <= n → Forall (λ c, 48 <= c <= 57) (printf_u n).
Proof.
  intros. eapply Forall_impl; [apply print_base_chars; lia|]. intros c Hc. simpl in *. lia.
Qed.

Lemma print_base_nonempty base n : 2 <= base → 0 <= n → print_base base n ≠ [].
Proof.
  intros. destruct (print_base_spec base n) as (ds & -> & _ & Hne & _); [lia..|].
  by destruct ds.
Qed.

(** ** Numerals

    [numeral base s] is the value of a string of digits and nothing else; on
    a string that starts with a digit, [strtoul] reaches the end exactly on
    numerals, and then it returns their value, clamped to the type. *)
Definition numeral (base : Z) (s : bytes) : option Z :=
  match span_digits base s with
  | ((_ :: _) as ds, []) => Some (digits_value base ds)
  | _ => None
  end.

Lemma strto_parse_digit base s :
  2 <= base → 48 <= at_ s 0 <= 57 → base_digit base (at_ s 0) ≠ None → skip_0x base s = s →
  strto_parse base s = Some (false, digits_value base (span_digits base s).1, (span_digits base s).2).
Proof.
  intros Hb Hd Hbd H0x. unfold strto_parse. destruct s as [|c s]; [unfold at_ in Hd; simpl in Hd; lia|].
  change (at_ (c :: s) 0) with c in *. cbn [skip_space]. unfold isspace.
  rewrite (proj2 (Z.leb_gt c 13)), (proj2 (Z.eqb_neq c 32)) by lia. rewrite andb_false_r. cbn [orb].
  cbn [skip_sign]. rewrite (proj2 (Z.eqb_neq c 45)), (proj2 (Z.eqb_neq c 43)) by lia.
  rewrite H0x. cbn [span_digits]. destruct (base_digit base c); [|done].
  destruct (span_digits base s) as [ds rest]. done.
Qed.

Lemma base_digit_decimal base c : 10 <= base → 48 <= c <= 57 → base_digit base c ≠ None.
Proof.
  intros. unfold base_digit, digit_val. rewrite (proj2 (Z.leb_le 48 c)), (proj2 (Z.leb_le c 57)) by lia.
  simpl. rewrite (proj2 (Z.ltb_lt _ base)) by lia. done.
Qed.

Lemma strtou_numeral max base s :
  10 <= base → 48 <= at_ s 0 <= 57 → skip_0x base s = s →
  match numeral base s with
  | Some n => strtou max base s = (Z.min max n, [])
  | None => is_end (strtou max base s).2 = false
  end.
Proof.
  intros Hb Hd H0x. unfold numeral, strtou.
  rewrite strto_parse_digit by (done || lia || by apply base_digit_decimal).
  destruct (span_digits base s) as [ds rest] eqn:E. destruct ds as [|d ds].
  - destruct s as [|c s]; [unfold at_ in Hd; simpl in Hd; lia|].
    cbn [span_digits] in E. change (at_ (c :: s) 0) with c in *.
    pose proof (base_digit_decimal base c Hb Hd). destruct (base_digit base c); [|done].
    by destruct (span_digits base s).
  - destruct rest; [|done]. cbn [fst snd].
    destruct (Z.ltb_spec max (digits_value base (d :: ds))); f_equal; lia.
Qed.

Lemma numeral_nonneg base s n : 0 <= base → numeral base s = Some n → 0 <= n.
Proof.
  intros Hb. unfold numeral. destruct (span_digits base s) as [[|d ds] [|]] eqn:E; try done.
  intros [= <-]. apply digits_value_nonneg; [done|]. revert E. generalize (d :: ds) as l. clear -Hb.
  revert s. intros s l. generalize (@nil Z) as r. intros r. revert l r.
  induction s as [|c s IH]; intros l r; simpl; [by intros [= <- <-]|].
  destruct (base_digit base c) as [e|] eqn:Ee; [|by intros [= <- <-]].
  destruct (span_digits base s) as [es r'] eqn:Es. intros [= <- <-]. constructor; [|by eapply IH].
  unfold base_digit, digit_val in Ee. repeat case_match; simplify_eq; lia.
Qed.

(** ** Tokens *)

(** [strsep] takes a string apart at the delimiter, and only there. *)
Lemma strsep_all_fuel_join fuel s c :
  (length s < fuel)%nat →
  ∃ tok toks, strsep_all_fuel fuel s c = tok :: toks ∧
    s = tok ++ flat_map (λ t, c :: t) toks ∧ Forall (λ t, c ∉ t) (tok :: toks).
Proof.
  revert s. induction fuel as [|f IH]; intros s Hl; [lia|]. simpl. unfold strsep.
  destruct (strchr_split s c) as [[tok rest]|] eqn:E.
  - apply strchr_split_Some in E as [-> Hn]. rewrite length_app in Hl. simpl in Hl.
    destruct (IH rest) as (t & ts & -> & Hr & Hf); [lia|].
    exists tok, (t :: ts). split_and!; [done| |by constructor]. simpl. by rewrite Hr at 1.
  - apply strchr_split_None in E. exists s, []. simpl. rewrite app_nil_r.
    split_and!; [done..|]. by apply Forall_singleton.
Qed.

Lemma strsep_all_join s c :
  ∃ tok toks, strsep_all s c = tok :: toks ∧ s = tok ++ flat_map (λ t, c :: t) toks ∧
    Forall (λ t, c ∉ t) (tok :: toks).
Proof. apply strsep_all_fuel_join. lia. Qed.

Lemma strsep_all_fuel_tokens fuel tok toks c :
  (length toks < fuel)%nat → Forall (λ t, c ∉ t) (tok :: toks) →
  strsep_all_fuel fuel (tok ++ flat_map (λ t, c :: t) toks) c = tok :: toks.
Proof.
  revert fuel tok. induction toks as [|t toks IH]; intros [|f] tok Hl Hf; simpl in *; try lia.
  - unfold strsep. rewrite app_nil_r. rewrite (proj2 (strchr_split_None c tok)); [done|].
    apply Forall_cons in Hf as [Hf _]. exact Hf.
  - apply Forall_cons in Hf as [Ht Hf]. unfold strsep. rewrite strchr_split_app by done.
    f_equal. apply IH; [lia|done].
Qed.

Lemma strsep_all_tokens tok toks c :
  Forall (λ t, c ∉ t) (tok :: toks) →
  strsep_all (tok ++ flat_map (λ t, c :: t) toks) c = tok :: toks.
Proof.
  intros Hf. apply strsep_all_fuel_tokens; [|done]. rewrite length_app.
  clear Hf. induction toks as [|t toks IH]; simpl; [lia|]. rewrite length_app. lia.
Qed.

Lemma numeral_print base n :
  2 <= base <= 16 → 0 <= n → numeral base (print_base base n) = Some n.
Proof.
  intros Hb Hn. destruct (print_base_spec base n) as (ds & -> & Hds & Hne & Hv & _); [lia..|].
  unfold numeral. rewrite <- (app_nil_r (digit_char <$> ds)), span_digits_chars by done.
  destruct ds; [done|]. by rewrite Hv.
Qed.

(** ** Buffers, lines and comparison *)

Lemma cstr_sub l : cstr l ⊆ l.
Proof. unfold cstr. case_match; [apply subseteq_take|done]. Qed.

Lemma cstr_id l : cstring l = true → cstr l = l.
Proof.
  intros Hc. unfold cstr. destruct (index_of (Z.eqb 0) l) as [i|] eqn:E; [|done].
  apply index_of_Some in E as (b & Hb & <-%Z.eqb_eq & _). exfalso.
  unfold cstring in Hc. rewrite forallb_forall in Hc.
  assert (is_cchar 0 = true) as ?%is_cchar_spec; [|lia].
  apply Hc, list_elem_of_In. by eapply list_elem_of_lookup_2.
Qed.

Lemma concat_getlines l : concat (getlines l) = l.
Proof.
  induction l as [|c l IH]; simpl; [done|]. case_match; simpl; [by rewrite IH|].
  destruct (getlines l); simpl in *; by rewrite <- IH.
Qed.

Lemma getlines_bytes l : all_bytes l = true → Forall (λ t, all_bytes t = true) (getlines l).
Proof.
  induction l as [|c l IH]; cbn [getlines]; [done|].
  rewrite all_bytes_cons, andb_true_iff. intros [Hc Hl]. specialize (IH Hl).
  case_match; [constructor; [|done]; by rewrite all_bytes_cons, Hc|].
  destruct (getlines l) as [|t ts]; [repeat constructor; by rewrite all_bytes_cons, Hc|].
  apply Forall_cons in IH as [Ht Hts]. constructor; [|done]. by rewrite all_bytes_cons, Hc.
Qed.

(** A text made of complete lines is read back line by line. *)
Lemma getlines_app t l : 10 ∉ t → getlines (t ++ 10 :: l) = (t ++ [10]) :: getlines l.
Proof.
  induction t as [|c t IH]; intros Ht; [done|]. cbn [app getlines].
  rewrite (proj2 (Z.eqb_neq c 10)) by set_solver. by rewrite IH by set_solver.
Qed.

Lemma at_cons_0 x l : at_ (x :: l) 0 = x.
Proof. done. Qed.

Lemma memcmp_eq a b n :
  length a = n → length b = n → memcmp a b n = 0 ↔ a = b.
Proof.
  revert a b. induction n as [|n IH]; intros [|x a] [|y b] Ha Hb; simplify_eq/=; [done|].
  rewrite !at_cons_0, !drop_0. destruct (Z.eqb_spec x y) as [->|].
  - rewrite IH by done. split; congruence.
  - split; [lia|congruence].
Qed.

Lemma memcmp_total a b n : memcmp a b n <= 0 ∨ memcmp b a n <= 0.
Proof.
  revert a b. induction n as [|n IH]; intros a b; simpl; [lia|].
  destruct (Z.eqb_spec (at_ a 0) (at_ b 0)) as [->|]; [rewrite Z.eqb_refl; apply IH|].
  destruct (Z.eqb_spec (at_ b 0) (at_ a 0)); lia.
Qed.

Lemma memcmp_sym a b n : memcmp a b n = 0 → memcmp b a n = 0.
Proof.
  revert a b. induction n as [|n IH]; intros a b; simpl; [done|].
  destruct (Z.eqb_spec (at_ a 0) (at_ b 0)) as [->|]; [rewrite Z.eqb_refl; apply IH|lia].
Qed.

(** [memcmp] is a total preorder: the sum of two comparisons never changes sign. *)
Lemma memcmp_trans a b c n :
  (memcmp a b n <= 0 → memcmp b c n <= 0 → memcmp a c n <= 0) ∧
  (memcmp a b n < 0 → memcmp b c n <= 0 → memcmp a c n < 0) ∧
  (memcmp a b n <= 0 → memcmp b c n < 0 → memcmp a c n < 0).
Proof.
  revert a b c. induction n as [|n IH]; intros a b c; simpl; [lia|].
  destruct (Z.eqb_spec (at_ a 0) (at_ b 0)), (Z.eqb_spec (at_ b 0) (at_ c 0)),
    (Z.eqb_spec (at_ a 0) (at_ c 0)); first [apply IH | lia].
Qed.

(** The string a buffer holds, and what follows it. *)
Lemma cstr_split l :
  (0 ∉ cstr l) ∧ (l = cstr l ∨ ∃ r, l = cstr l ++ 0 :: r).
Proof.
  unfold cstr. destruct (index_of (Z.eqb 0) l) as [i|] eqn:E.
  - apply index_of_Some in E as (b & Hb & <-%Z.eqb_eq & Hlt). split.
    + rewrite list_elem_of_lookup. intros [j [Hj Hl]%lookup_take_Some].
      specialize (Hlt j 0 Hl Hj). done.
    + right. exists (drop (S i) l). symmetry. by apply take_drop_middle.
  - apply index_of_eqb_None in E. auto.
Qed.

(** The number of digits printed. *)
Lemma print_fuel_length fuel base n acc k :
  2 <= base → 0 <= n < base ^ Z.of_nat (S k) → (length (print_fuel fuel base n acc) <= S k + length acc)%nat.
Proof.
  revert n acc k. induction fuel as [|f IH]; intros n acc k Hb Hn; cbn [print_fuel]; [lia|].
  destruct (Z.eqb_spec (n / base) 0) as [|Hne]; [cbn [length]; lia|].
  rewrite Nat2Z.inj_succ, Z.pow_succ_r in Hn by lia.
  assert (n / base < base ^ Z.of_nat k) by (apply Z.div_lt_upper_bound; lia).
  pose proof (Z.div_pos n base ltac:(lia) ltac:(lia)).
  destruct k as [|k]; [simpl in *; lia|].
  pose proof (IH (n / base) (digit_char (n mod base) :: acc) k Hb ltac:(lia)) as H'. cbn [length] in H'. lia.
Qed.

Lemma printf_u_length n k : 0 <= n < 10 ^ Z.of_nat (S k) → (length (printf_u n) <= S k)%nat.
Proof.
  intros Hn. pose proof (print_fuel_length (S (Z.to_nat (Z.log2 n))) 10 n [] k ltac:(lia) Hn) as H.
  cbn [length] in H. unfold printf_u, print_base. lia.
Qed.
