(* ===== verification/Ctype.v ===== *)
(** * Ctype: the locale-independent character classes of ctype.h

    The three branch-free tests of [ctype.h], as bit arithmetic on the [int]
    argument, and their agreement with the character classes they stand for. *)

From Stdlib Require Import Ascii.
From stdpp Require Import base numbers list list_numbers.
From S2P Require Import Prelude CLib.
#[local] Open Scope c_scope.

(** [char_is_space]: [unsigned char d = c - 9; return (0x80001FU >> (d & 31)) & (1U >> (d >> 5))]. *)
Definition char_is_space (c : Z) : bool :=
  let d := u8 (c - 9) in
  truthy ((0x80001F .>> (d .& 31)) .& (1 .>> (d .>> 5))).

(** [char_is_digit]: the sign bit of a conjunction of two differences. *)
Definition char_is_digit (c : Z) : bool :=
  truthy (u32 ((ch "0" - 1 - c) .& (c - (ch "9" + 1))) .>> 31).

Definition char_is_alpha (c : Z) : bool :=
  truthy (u32 ((ch "a" - 1 - (c .| 32)) .& ((c .| 32) - (ch "z" + 1))) .>> 31).

(** ** Lemmas *)

(** The sign bit of an [int], as [(unsigned int)x >> 31]. *)
Lemma u32_sign_bit x :
  - 2 ^ 31 <= x < 2 ^ 31 → u32 x .>> 31 = c_bool (x <? 0).
Proof.
  intros Hx. unfold u32. rewrite Z.shiftr_div_pow2 by lia.
  destruct (Z.ltb_spec x 0); unfold c_bool.
  - rewrite <- (Z.mod_add x 1), Z.mod_small by lia.
    symmetry. apply Z.div_unique with (x + 2 ^ 31); lia.
  - rewrite Z.mod_small by lia. apply Z.div_small. lia.
Qed.

Lemma truthy_c_bool b : truthy (c_bool b) = b.
Proof. by destruct b. Qed.

Lemma land_neg_iff a b : (Z.land a b <? 0) = (a <? 0) && (b <? 0).
Proof.
  apply Bool.eq_iff_eq_true. rewrite andb_true_iff, !Z.ltb_lt. apply Z.land_neg.
Qed.

(** A conjunction of two [int]s stays in the range of [int]. *)
Lemma land_int_range a b :
  - 2 ^ 31 <= a < 2 ^ 31 → - 2 ^ 31 <= b < 2 ^ 31 → - 2 ^ 31 <= Z.land a b < 2 ^ 31.
Proof.
  assert (Hdiv : ∀ x, - 2 ^ 31 <= x < 2 ^ 31 ↔ Z.shiftr x 31 = 0 ∨ Z.shiftr x 31 = -1).
  { intros x. rewrite Z.shiftr_div_pow2 by lia.
    pose proof (Z.div_mod x (2 ^ 31) ltac:(lia)). pose proof (Z.mod_pos_bound x (2 ^ 31) ltac:(lia)).
    lia. }
  rewrite !Hdiv, Z.shiftr_land. intros [-> | ->] [-> | ->]; auto.
Qed.

(** The sign-bit range test both [char_is_digit] and [char_is_alpha] use. *)
Lemma sign_range_test lo hi x :
  - 2 ^ 31 <= lo - 1 - x < 2 ^ 31 → - 2 ^ 31 <= x - (hi + 1) < 2 ^ 31 →
  truthy (u32 ((lo - 1 - x) .& (x - (hi + 1))) .>> 31) = (lo <=? x) && (x <=? hi).
Proof.
  intros H1 H2. rewrite u32_sign_bit by by apply land_int_range.
  rewrite truthy_c_bool, land_neg_iff. lia.
Qed.

Lemma char_is_digit_spec c :
  - 2 ^ 31 + 58 <= c < 2 ^ 31 → char_is_digit c = (48 <=? c) && (c <=? 57).
Proof. intros. unfold char_is_digit. apply sign_range_test; ch_norm; lia. Qed.

Lemma char_is_space_spec c : -128 <= c < 256 → char_is_space c = isspace c.
Proof. apply (Z_range_eq char_is_space isspace (-128) 384). vm_compute. reflexivity. Qed.

Lemma char_is_alpha_spec c :
  -128 <= c < 256 →
  char_is_alpha c = ((65 <=? c) && (c <=? 90)) || ((97 <=? c) && (c <=? 122)).
Proof.
  apply (Z_range_eq char_is_alpha
    (λ c, ((65 <=? c) && (c <=? 90)) || ((97 <=? c) && (c <=? 122))) (-128) 384).
  vm_compute. reflexivity.
Qed.

(** On a plain [char] the tests do not depend on its signedness. *)
Lemma char_is_digit_char `{Platform} b :
  0 <= b < 256 → char_is_digit (char_val b) = (48 <=? b) && (b <=? 57).
Proof.
  intros Hb. destruct (char_val_cases b Hb) as [-> | [? ->]];
    rewrite char_is_digit_spec by lia; lia.
Qed.

Lemma char_is_space_char `{Platform} b :
  0 <= b < 256 → char_is_space (char_val b) = isspace b.
Proof.
  intros Hb. unfold isspace. destruct (char_val_cases b Hb) as [-> | [? ->]];
    rewrite char_is_space_spec by lia; unfold isspace; lia.
Qed.

(** The digit test and [strtoul] agree on what a decimal digit is. *)
Lemma base_digit_10 c d :
  base_digit 10 c = Some d ↔ 48 <= c <= 57 ∧ d = c - 48.
Proof.
  unfold base_digit, digit_val. repeat case_match; naive_solver lia.
Qed.
