(* ===== verification/Encoding.v ===== *)
(** * Encoding: the constant-time base64 and hex codecs of encoding.c

    [encode_base64], [decode_base64] and the key codecs built from them, with
    the branch-free arithmetic of the source kept as it is; the reference
    alphabet they implement; and the proofs that each codec accepts exactly
    the strings its encoder writes. *)

From Stdlib Require Import Ascii String.
From stdpp Require Import base numbers option sets list list_numbers strings.
From S2P Require Import Prelude CLib Ctype.
#[local] Open Scope c_scope.

Definition WG_KEY_LEN : nat := 32.
Definition WG_KEY_LEN_BASE64 : nat := ((WG_KEY_LEN + 2) / 3 * 4 + 1)%nat.
Definition WG_KEY_LEN_HEX : nat := (WG_KEY_LEN * 2 + 1)%nat.

(** A key is an array of [WG_KEY_LEN] bytes. *)
Definition key_ok (key : bytes) : bool :=
  Nat.eqb (length key) WG_KEY_LEN && all_bytes key.

(** ** base64 *)

(** The character for a 6-bit value, without a table. *)
Definition base64_char (i : Z) : Z :=
  i + ch "A"
  + (((25 - i) .>> 8) .& 6)
  - (((51 - i) .>> 8) .& 75)
  - (((61 - i) .>> 8) .& 15)
  + (((62 - i) .>> 8) .& 3).

Definition encode_base64 (s0 s1 s2 : Z) : bytes :=
  base64_char <$>
    [ (s0 .>> 2) .& 63;
      ((s0 .<< 4) .| (s1 .>> 4)) .& 63;
      ((s1 .<< 2) .| (s2 .>> 6)) .& 63;
      s2 .& 63 ].

(** [key_to_base64]: ten whole groups, the last two bytes padded with a zero,
    then the padding character and the NUL overwrite the last two positions. *)
Definition key_to_base64 (key : bytes) : bytes :=
  let groups := flat_map (λ i, encode_base64 (at_ key (i * 3)) (at_ key (i * 3 + 1)) (at_ key (i * 3 + 2)))
                         (seq 0 (WG_KEY_LEN / 3)) in
  let i := (WG_KEY_LEN / 3)%nat in
  let last := encode_base64 (at_ key (i * 3)) (at_ key (i * 3 + 1)) 0 in
  <[(WG_KEY_LEN_BASE64 - 1)%nat := 0]>
    (<[(WG_KEY_LEN_BASE64 - 2)%nat := ch "="]> (groups ++ last ++ [0])).

(** The string [key_to_base64] leaves in its buffer. *)
Definition key_base64 (key : bytes) : bytes := take (WG_KEY_LEN_BASE64 - 1) (key_to_base64 key).

Section Decode.
Context {plat : Platform}.

(** One character of [decode_base64]: its 6-bit value, or -1. *)
Definition base64_digit (b : Z) : Z :=
  let c := char_val b in
  -1
  + (((((ch "A" - 1) - c) .& (c - (ch "Z" + 1))) .>> 8) .& (c - 64))
  + (((((ch "a" - 1) - c) .& (c - (ch "z" + 1))) .>> 8) .& (c - 70))
  + (((((ch "0" - 1) - c) .& (c - (ch "9" + 1))) .>> 8) .& (c + 5))
  + (((((ch "+" - 1) - c) .& (c - (ch "+" + 1))) .>> 8) .& 63)
  + (((((ch "/" - 1) - c) .& (c - (ch "/" + 1))) .>> 8) .& 64).

Definition decode_base64 (c0 c1 c2 c3 : Z) : Z :=
  let val := 0 .| (base64_digit c0 .<< 18) in
  let val := val .| (base64_digit c1 .<< 12) in
  let val := val .| (base64_digit c2 .<< 6) in
  val .| (base64_digit c3 .<< 0).

(** One iteration of the loop of [key_from_base64]. *)
Definition from_base64_step (base64 : bytes) (i : nat) (st : Z * bytes) : Z * bytes :=
  let '(ret, key) := st in
  let val := decode_base64 (at_ base64 (i * 4)) (at_ base64 (i * 4 + 1))
                           (at_ base64 (i * 4 + 2)) (at_ base64 (i * 4 + 3)) in
  (u8 (ret .| (u32 val .>> 31)),
   <[(i * 3 + 2)%nat := val .& 0xff]>
     (<[(i * 3 + 1)%nat := (val .>> 8) .& 0xff]>
       (<[(i * 3 + 0)%nat := (val .>> 16) .& 0xff]> key))).

(** [key_from_base64]: the verdict, and the key buffer afterwards. *)
Definition key_from_base64 (key : bytes) (base64 : bytes) : bool * bytes :=
  if negb (Nat.eqb (length base64) (WG_KEY_LEN_BASE64 - 1)) || negb (at_ base64 (WG_KEY_LEN_BASE64 - 2) =? ch "=")
  then (false, key)
  else
    let '(ret, key) := for_upto 0 (WG_KEY_LEN / 3) (from_base64_step base64) (0, key) in
    let i := (WG_KEY_LEN / 3)%nat in
    let val := decode_base64 (at_ base64 (i * 4 + 0)) (at_ base64 (i * 4 + 1))
                             (at_ base64 (i * 4 + 2)) (ch "A") in
    let ret := u8 (ret .| ((u32 val .>> 31) .| (val .& 0xff))) in
    let key := <[(i * 3 + 1)%nat := (val .>> 8) .& 0xff]>
                 (<[(i * 3 + 0)%nat := (val .>> 16) .& 0xff]> key) in
    (truthy (1 .& ((ret - 1) .>> 8)), key).
End Decode.

(** ** hex *)

Definition hex_char (nibble : Z) : Z :=
  u8 (87 + nibble + ((u32 (nibble - 10) .>> 8) .& u32 (~~ 38))).

Definition key_to_hex (key : bytes) : bytes :=
  flat_map (λ i, [hex_char (at_ key i .>> 4); hex_char (at_ key i .& 0xf)]) (seq 0 WG_KEY_LEN) ++ [0].

Definition key_hex (key : bytes) : bytes := take (WG_KEY_LEN_HEX - 1) (key_to_hex key).

(** The nine assignments made for each hex digit: the error mask and the value. *)
Definition hex_nibble (b : Z) : Z * Z :=
  let c := u8 b in
  let c_num := u8 (c .^ 48) in
  let c_num0 := u8 (u32 (c_num - 10) .>> 8) in
  let c_alpha := u8 (u32 ((c .& u32 (~~ 32)) - 55)) in
  let c_alpha0 := u8 ((u32 (c_alpha - 10) .^ u32 (c_alpha - 16)) .>> 8) in
  (u8 (((c_num0 .| c_alpha0) - 1) .>> 8),
   u8 ((c_num0 .& c_num) .| (c_alpha0 .& c_alpha))).

(** Iteration [i / 2] of the loop of [key_from_hex]. *)
Definition from_hex_step (hex : bytes) (k : nat) (st : Z * bytes) : Z * bytes :=
  let '(ret, key) := st in
  let '(e1, c_val) := hex_nibble (at_ hex (2 * k)) in
  let ret := u8 (ret .| e1) in
  let c_acc := u8 (c_val * 16) in
  let '(e2, c_val) := hex_nibble (at_ hex (2 * k + 1)) in
  (u8 (ret .| e2), <[k := c_acc .| c_val]> key).

Definition key_from_hex (key : bytes) (hex : bytes) : bool * bytes :=
  if negb (Nat.eqb (length hex) (WG_KEY_LEN_HEX - 1)) then (false, key)
  else
    let '(ret, key) := for_upto 0 ((WG_KEY_LEN_HEX - 1) / 2) (from_hex_step hex) (0, key) in
    (truthy (1 .& ((ret - 1) .>> 8)), key).

(** ** The zero test *)

Definition key_is_zero (key : bytes) : bool :=
  let acc := for_upto 0 WG_KEY_LEN (λ i acc, u8 (acc .| at_ key i)) 0 in
  truthy (1 .& ((acc - 1) .>> 8)).

(** ** Lemmas shared by the codecs *)

(** The verdict [1 & ((ret - 1) >> 8)] of an 8-bit accumulator. *)
Lemma verdict_spec ret : 0 <= ret < 256 → truthy (1 .& ((ret - 1) .>> 8)) = (ret =? 0).
Proof.
  apply (Z_range_eq (λ ret, truthy (1 .& ((ret - 1) .>> 8))) (λ ret, ret =? 0) 0 256).
  vm_compute. reflexivity.
Qed.

Lemma lor_zero_iff a b : Z.lor a b = 0 ↔ a = 0 ∧ b = 0.
Proof. apply Z.lor_eq_0_iff. Qed.

Lemma lor_byte a b : 0 <= a < 256 → 0 <= b < 256 → 0 <= a .| b < 256.
Proof.
  intros Ha Hb. assert (Hs : ∀ x, 0 <= x < 256 ↔ Z.shiftr x 8 = 0).
  { intros x. rewrite Z.shiftr_div_pow2 by lia.
    pose proof (Z.div_mod x (2 ^ 8) ltac:(lia)). pose proof (Z.mod_pos_bound x (2 ^ 8) ltac:(lia)). lia. }
  rewrite Hs in *. by rewrite Z.shiftr_lor, Ha, Hb.
Qed.

Lemma u8_lor_zero a b :
  0 <= a < 256 → 0 <= b < 256 → u8 (a .| b) = 0 ↔ a = 0 ∧ b = 0.
Proof.
  intros. rewrite u8_small by by apply lor_byte. apply lor_zero_iff.
Qed.

(** Joining bit fields: a shifted value and a shorter one share no bit. *)
Lemma land_63 x : x .& 63 = x mod 64.
Proof. exact (Z.land_ones x 6 ltac:(lia)). Qed.
Lemma land_255 x : x .& 0xff = x mod 256.
Proof. exact (Z.land_ones x 8 ltac:(lia)). Qed.
Lemma land_15 x : x .& 0xf = x mod 16.
Proof. exact (Z.land_ones x 4 ltac:(lia)). Qed.
Lemma shr_div x n : 0 <= n → x .>> n = x / 2 ^ n.
Proof. apply Z.shiftr_div_pow2. Qed.

(** ** The base64 alphabet, and the two table-free conversions *)

(** RFC 4648, table 1. *)
Definition b64_val (b : Z) : option Z :=
  if (65 <=? b) && (b <=? 90) then Some (b - 65)
  else if (97 <=? b) && (b <=? 122) then Some (b - 71)
  else if (48 <=? b) && (b <=? 57) then Some (b + 4)
  else if b =? 43 then Some 62
  else if b =? 47 then Some 63
  else None.

Lemma b64_val_range b v : b64_val b = Some v → 0 <= v < 64 ∧ 0 < b < 128.
Proof. unfold b64_val. repeat case_match; naive_solver lia. Qed.

Lemma base64_char_val i : 0 <= i < 64 → b64_val (base64_char i) = Some i.
Proof.
  apply (Z_range_eq (λ i, b64_val (base64_char i)) Some 0 64). vm_compute. reflexivity.
Qed.

Lemma b64_val_char b v : 0 <= b < 256 → b64_val b = Some v → base64_char v = b.
Proof.
  intros Hb Hv.
  assert ((base64_char <$> b64_val b) = (_ ← b64_val b; Some b)) as Heq.
  { revert b Hb Hv. intros b Hb _.
    apply (Z_range_eq (λ b, base64_char <$> b64_val b) (λ b, _ ← b64_val b; Some b) 0 256);
      [vm_compute; reflexivity|lia]. }
  rewrite Hv in Heq. by simplify_eq/=.
Qed.

Section DecodeProofs.
Context {plat : Platform}.

(** The sum of masks in [decode_base64] is the alphabet, whatever the
    signedness of [char]. *)
Lemma base64_digit_spec b : 0 <= b < 256 → base64_digit b = default (-1) (b64_val b).
Proof.
  revert b. unfold base64_digit, char_val. destruct char_signed.
  - apply (Z_range_eq (λ b, let c := if true && (128 <=? b) then b - 256 else b in _)
             (λ b, default (-1) (b64_val b)) 0 256). vm_compute. reflexivity.
  - apply (Z_range_eq (λ b, let c := if false && (128 <=? b) then b - 256 else b in _)
             (λ b, default (-1) (b64_val b)) 0 256). vm_compute. reflexivity.
Qed.

Lemma decode_base64_Some c0 c1 c2 c3 v0 v1 v2 v3 :
  b64_val c0 = Some v0 → b64_val c1 = Some v1 → b64_val c2 = Some v2 → b64_val c3 = Some v3 →
  decode_base64 c0 c1 c2 c3 = v0 * 2 ^ 18 + v1 * 2 ^ 12 + v2 * 2 ^ 6 + v3.
Proof.
  intros H0 H1 H2 H3.
  pose proof (b64_val_range _ _ H0). pose proof (b64_val_range _ _ H1).
  pose proof (b64_val_range _ _ H2). pose proof (b64_val_range _ _ H3).
  unfold decode_base64. rewrite !base64_digit_spec, H0, H1, H2, H3 by lia. simpl.
  rewrite Z.lor_0_l, Z.shiftl_0_r, <- !Z.lor_assoc.
  rewrite (lor_shift_add v2 v3 6) by lia.
  rewrite (lor_shift_add v1 _ 12) by lia.
  rewrite (lor_shift_add v0 _ 18) by lia. lia.
Qed.

(** A number whose bits from 24 up are all equal. *)
Definition fits24 (x : Z) : Prop := Z.shiftr x 24 = 0 ∨ Z.shiftr x 24 = -1.

Lemma fits24_range x : fits24 x ↔ - 2 ^ 24 <= x < 2 ^ 24.
Proof.
  unfold fits24. rewrite Z.shiftr_div_pow2 by lia.
  pose proof (Z.div_mod x (2 ^ 24) ltac:(lia)). pose proof (Z.mod_pos_bound x (2 ^ 24) ltac:(lia)). lia.
Qed.

Lemma fits24_lor a b : fits24 a → fits24 b → fits24 (a .| b).
Proof. unfold fits24. rewrite Z.shiftr_lor. intros [-> | ->] [-> | ->]; auto. Qed.

Lemma base64_digit_fits24 c n : 0 <= c < 256 → 0 <= n <= 18 → fits24 (base64_digit c .<< n).
Proof.
  intros Hc Hn. rewrite base64_digit_spec, fits24_range, Z.shiftl_mul_pow2 by lia.
  assert (2 ^ n <= 2 ^ 18) by (apply Z.pow_le_mono_r; lia).
  assert (0 < 2 ^ n) by (apply Z.pow_pos_nonneg; lia).
  destruct (b64_val c) eqn:E; simpl; [|lia]. apply b64_val_range in E as [? _]. nia.
Qed.

(** A decoded group is a 24-bit number, negative exactly when some character
    is outside the alphabet. *)
Lemma decode_base64_range c0 c1 c2 c3 :
  all_bytes [c0; c1; c2; c3] = true →
  - 2 ^ 24 <= decode_base64 c0 c1 c2 c3 < 2 ^ 24.
Proof.
  intros Hb. unfold all_bytes in Hb. simpl in Hb. rewrite !andb_true_iff, !is_byte_spec in Hb.
  apply fits24_range. unfold decode_base64.
  do 4 (apply fits24_lor; [|apply base64_digit_fits24; lia]). by left.
Qed.

Lemma decode_base64_nonneg c0 c1 c2 c3 :
  all_bytes [c0; c1; c2; c3] = true →
  0 <= decode_base64 c0 c1 c2 c3 ↔
  ∃ v0 v1 v2 v3, b64_val c0 = Some v0 ∧ b64_val c1 = Some v1 ∧ b64_val c2 = Some v2 ∧ b64_val c3 = Some v3.
Proof.
  intros Hb. unfold all_bytes in Hb. simpl in Hb. rewrite !andb_true_iff, !is_byte_spec in Hb.
  assert (Hd : ∀ c, 0 <= c < 256 → 0 <= base64_digit c ↔ is_Some (b64_val c)).
  { intros c Hc. rewrite base64_digit_spec by done. unfold is_Some.
    destruct (b64_val c) eqn:E; simpl; [apply b64_val_range in E|]; naive_solver lia. }
  unfold decode_base64. rewrite !Z.lor_nonneg, !Z.shiftl_nonneg, !Hd by lia. unfold is_Some.
  naive_solver.
Qed.

(** The three bytes of a decoded group. *)
Definition group_bytes (val : Z) : bytes :=
  [(val .>> 16) .& 0xff; (val .>> 8) .& 0xff; val .& 0xff].

Lemma group_bytes_join a b c :
  all_bytes [a; b; c] = true → group_bytes (a * 65536 + b * 256 + c) = [a; b; c].
Proof.
  intros Hb. unfold all_bytes in Hb. simpl in Hb. rewrite !andb_true_iff, !is_byte_spec in Hb.
  unfold group_bytes. rewrite !land_255, !shr_div by lia. repeat f_equal; bit_lia.
Qed.

Lemma encode_base64_sextets a b c :
  all_bytes [a; b; c] = true →
  encode_base64 a b c =
  base64_char <$> [a / 4; a mod 4 * 16 + b / 16; b mod 16 * 4 + c / 64; c mod 64].
Proof.
  intros Hb. unfold all_bytes in Hb. simpl in Hb. rewrite !andb_true_iff, !is_byte_spec in Hb.
  unfold encode_base64. rewrite !land_63, !shr_div by lia.
  rewrite (lor_shift_add a (b / 2 ^ 4) 4), (lor_shift_add b (c / 2 ^ 6) 2) by bit_lia.
  csimpl. repeat f_equal; bit_lia.
Qed.

Lemma decode_encode_base64 a b c :
  all_bytes [a; b; c] = true →
  decode_base64 (at_ (encode_base64 a b c) 0) (at_ (encode_base64 a b c) 1)
                (at_ (encode_base64 a b c) 2) (at_ (encode_base64 a b c) 3)
  = a * 65536 + b * 256 + c.
Proof.
  intros Hb. rewrite encode_base64_sextets by done.
  unfold all_bytes in Hb. simpl in Hb. rewrite !andb_true_iff, !is_byte_spec in Hb.
  unfold at_. simpl. erewrite decode_base64_Some by (apply base64_char_val; bit_lia). bit_lia.
Qed.

Lemma encode_decode_base64 c0 c1 c2 c3 :
  all_bytes [c0; c1; c2; c3] = true → 0 <= decode_base64 c0 c1 c2 c3 →
  let g := group_bytes (decode_base64 c0 c1 c2 c3) in
  encode_base64 (at_ g 0) (at_ g 1) (at_ g 2) = [c0; c1; c2; c3].
Proof.
  intros Hb Hn g. apply decode_base64_nonneg in Hn as (v0 & v1 & v2 & v3 & H0 & H1 & H2 & H3); [|done].
  unfold g. rewrite (decode_base64_Some _ _ _ _ _ _ _ _ H0 H1 H2 H3).
  unfold all_bytes in Hb. simpl in Hb. rewrite !andb_true_iff, !is_byte_spec in Hb.
  pose proof (b64_val_range _ _ H0). pose proof (b64_val_range _ _ H1).
  pose proof (b64_val_range _ _ H2). pose proof (b64_val_range _ _ H3).
  unfold at_, group_bytes. simpl. rewrite !land_255, !shr_div by lia.
  rewrite encode_base64_sextets.
  2: { unfold all_bytes. simpl. rewrite !andb_true_iff, !is_byte_spec. bit_lia. }
  rewrite <- (b64_val_char c0 v0), <- (b64_val_char c1 v1), <- (b64_val_char c2 v2),
    <- (b64_val_char c3 v3) by (done || lia).
  csimpl. repeat f_equal; bit_lia.
Qed.

(** ** The decoding loop *)

#[local] Opaque decode_base64.

Definition group_val (s : bytes) (i : nat) : Z :=
  decode_base64 (at_ s (i * 4)) (at_ s (i * 4 + 1)) (at_ s (i * 4 + 2)) (at_ s (i * 4 + 3)).
Definition last_val (s : bytes) : Z :=
  decode_base64 (at_ s 40) (at_ s 41) (at_ s 42) (ch "A").

Lemma all_bytes_4 a b c d :
  0 <= a < 256 → 0 <= b < 256 → 0 <= c < 256 → 0 <= d < 256 → all_bytes [a; b; c; d] = true.
Proof. intros. unfold all_bytes. simpl. rewrite !andb_true_iff, !is_byte_spec. auto. Qed.

Lemma group_sign s i :
  all_bytes s = true → u32 (group_val s i) .>> 31 = c_bool (group_val s i <? 0).
Proof.
  intros Hs. apply u32_sign_bit.
  enough (- 2 ^ 24 <= group_val s i < 2 ^ 24) by lia.
  unfold group_val. apply decode_base64_range. apply all_bytes_4; by apply all_bytes_at.
Qed.

Lemma last_sign s :
  all_bytes s = true → u32 (last_val s) .>> 31 = c_bool (last_val s <? 0).
Proof.
  intros Hs. apply u32_sign_bit.
  enough (- 2 ^ 24 <= last_val s < 2 ^ 24) by lia.
  unfold last_val. apply decode_base64_range. apply all_bytes_4; [by apply all_bytes_at..|].
  ch_norm. lia.
Qed.

Lemma c_bool_range b : 0 <= c_bool b < 256.
Proof. destruct b; simpl; lia. Qed.

(** The accumulated verdict is zero exactly when every group decoded. *)
Lemma from_base64_loop_ret s n i ret key :
  all_bytes s = true → 0 <= ret < 256 →
  let r := (for_upto i n (from_base64_step s) (ret, key)).1 in
  0 <= r < 256 ∧ (r = 0 ↔ ret = 0 ∧ ∀ j, (i <= j < i + n)%nat → 0 <= group_val s j).
Proof.
  intros Hs. revert i ret key. induction n as [|n IH]; intros i ret key Hret; simpl.
  { split; [done|]. split; [intros ->; split; [done|lia]|tauto]. }
  fold (group_val s i). rewrite group_sign by done.
  edestruct IH as [Hr Hz]; [|split; [exact Hr|rewrite Hz]].
  { apply u8_range. }
  rewrite u8_lor_zero by (done || apply c_bool_range).
  split.
  - intros [[-> Hi] Hj]. split; [done|]. intros j Hij.
    destruct (decide (j = i)) as [->|]; [destruct (Z.ltb_spec (group_val s i) 0); [done|lia]|].
    apply Hj. lia.
  - intros [-> Hj]. split_and!; [done| |intros j ?; apply Hj; lia].
    rewrite (proj2 (Z.ltb_ge _ 0)) by (apply Hj; lia). done.
Qed.

(** What the loop and the two final stores leave in the key buffer. *)
Definition decoded_key (s : bytes) : bytes :=
  flat_map (λ i, group_bytes (group_val s i)) (seq 0 10) ++ take 2 (group_bytes (last_val s)).

Lemma from_base64_loop_key s key :
  length key = WG_KEY_LEN →
  let k := (for_upto 0 10 (from_base64_step s) (0, key)).2 in
  <[31%nat := (last_val s .>> 8) .& 0xff]> (<[30%nat := (last_val s .>> 16) .& 0xff]> k) = decoded_key s.
Proof.
  intros Hl. do 32 (destruct key as [|? key]; [discriminate Hl|]).
  destruct key; [|discriminate Hl]. reflexivity.
Qed.

Definition b64_accepts (s : bytes) : Prop :=
  length s = 44%nat ∧ at_ s 43 = ch "=" ∧ (∀ j, (j < 10)%nat → 0 <= group_val s j) ∧
  0 <= last_val s ∧ last_val s .& 0xff = 0.

Lemma key_from_base64_spec key s :
  length key = WG_KEY_LEN → all_bytes s = true →
  (key_from_base64 key s).1 = true ↔ b64_accepts s.
Proof.
  intros Hk Hs. unfold key_from_base64, b64_accepts.
  change (WG_KEY_LEN_BASE64 - 1)%nat with 44%nat. change (WG_KEY_LEN_BASE64 - 2)%nat with 43%nat.
  change (WG_KEY_LEN / 3)%nat with 10%nat.
  destruct (Nat.eqb_spec (length s) 44) as [Hl|Hl]; cbn [negb orb];
    [|split; [discriminate|intros (? & _); congruence]].
  destruct (Z.eqb_spec (at_ s 43) (ch "=")) as [He|He]; cbn [negb];
    [|split; [discriminate|intros (_ & ? & _); congruence]].
  pose proof (from_base64_loop_ret s 10 0 0 key Hs ltac:(lia)) as [Hr Hz].
  destruct (for_upto 0 10 (from_base64_step s) (0, key)) as [r k]. cbn [fst snd] in Hr, Hz |- *.
  change (10 * 4 + 0)%nat with 40%nat. change (10 * 4 + 1)%nat with 41%nat. change (10 * 4 + 2)%nat with 42%nat.
  fold (last_val s). rewrite last_sign by done.
  rewrite verdict_spec by apply u8_range. rewrite Z.eqb_eq, u8_lor_zero, Hz, lor_zero_iff.
  - assert (c_bool (last_val s <? 0) = 0 ↔ 0 <= last_val s) as ->.
    { destruct (Z.ltb_spec (last_val s) 0); cbn; lia. }
    split.
    + intros [[_ Hg] [??]]. split_and!; try done. intros j ?. apply Hg. lia.
    + intros (_ & _ & Hg & ? & ?). split_and!; try done. intros j ?. apply Hg. lia.
  - done.
  - apply lor_byte; [apply c_bool_range|]. rewrite land_255. by apply Z.mod_pos_bound.
Qed.

Lemma key_from_base64_key key s :
  length key = WG_KEY_LEN → (key_from_base64 key s).1 = true →
  (key_from_base64 key s).2 = decoded_key s.
Proof.
  intros Hk. pose proof (from_base64_loop_key s key Hk) as Hloop.
  unfold key_from_base64. case_match; [done|]. intros _.
  change (WG_KEY_LEN / 3)%nat with 10%nat. cbv zeta in Hloop.
  destruct (for_upto 0 10 (from_base64_step s) (0, key)) as [r k]. exact Hloop.
Qed.

(** ** The encoder, group by group *)

#[local] Opaque base64_char.

Lemma group_val_encoded key i :
  length key = WG_KEY_LEN → all_bytes key = true → (i < 10)%nat →
  group_val (key_base64 key) i =
  at_ key (i * 3) * 65536 + at_ key (i * 3 + 1) * 256 + at_ key (i * 3 + 2).
Proof.
  intros Hl Hb Hi.
  rewrite <- (decode_encode_base64 (at_ key (i * 3)) (at_ key (i * 3 + 1)) (at_ key (i * 3 + 2))).
  2: { unfold all_bytes. simpl. rewrite !andb_true_iff, !is_byte_spec. auto with cint. }
  do 32 (destruct key as [|? key]; [discriminate Hl|]). destruct key; [|discriminate Hl].
  do 10 (destruct i as [|i]; [reflexivity|]). lia.
Qed.

Lemma last_val_encoded key :
  length key = WG_KEY_LEN → all_bytes key = true →
  last_val (key_base64 key) = at_ key 30 * 65536 + at_ key 31 * 256 + 0.
Proof.
  intros Hl Hb. rewrite <- (decode_encode_base64 (at_ key 30) (at_ key 31) 0).
  2: { unfold all_bytes. simpl. rewrite !andb_true_iff, !is_byte_spec. auto with cint lia. }
  do 32 (destruct key as [|? key]; [discriminate Hl|]). destruct key; [|discriminate Hl].
  reflexivity.
Qed.

Lemma decoded_key_encoded key :
  length key = WG_KEY_LEN → all_bytes key = true → decoded_key (key_base64 key) = key.
Proof.
  intros Hl Hb. unfold decoded_key.
  assert (Hat : ∀ i, 0 <= at_ key i < 256) by auto with cint.
  rewrite (flat_map_ext_in _ (λ i, [at_ key (i * 3); at_ key (i * 3 + 1); at_ key (i * 3 + 2)])).
  - rewrite last_val_encoded, group_bytes_join by (first [done | unfold all_bytes; simpl; rewrite !andb_true_iff, !is_byte_spec; auto with lia]).
    do 32 (destruct key as [|? key]; [discriminate Hl|]). destruct key; [|discriminate Hl]. reflexivity.
  - intros i Hi. apply in_seq in Hi. rewrite group_val_encoded by (done || lia).
    apply group_bytes_join. unfold all_bytes; simpl; rewrite !andb_true_iff, !is_byte_spec; auto.
Qed.

(** The encoded key, as the concatenation of its groups. *)
Lemma key_base64_groups key :
  key_base64 key =
  flat_map (λ i, encode_base64 (at_ key (i * 3)) (at_ key (i * 3 + 1)) (at_ key (i * 3 + 2))) (seq 0 10)
  ++ take 3 (encode_base64 (at_ key 30) (at_ key 31) 0) ++ [ch "="].
Proof. reflexivity. Qed.

Lemma key_base64_length key : length (key_base64 key) = 44%nat.
Proof. reflexivity. Qed.

Lemma key_to_base64_key key : key_to_base64 key = key_base64 key ++ [0].
Proof. reflexivity. Qed.

Lemma encode_base64_alphabet a b c x :
  all_bytes [a; b; c] = true → x ∈ encode_base64 a b c → is_Some (b64_val x).
Proof.
  intros Hb. rewrite encode_base64_sextets by done.
  unfold all_bytes in Hb. simpl in Hb. rewrite !andb_true_iff, !is_byte_spec in Hb.
  intros (i & -> & Hi)%list_elem_of_fmap. rewrite base64_char_val; [eauto|].
  set_unfold in Hi. destruct_or! Hi; subst; bit_lia.
Qed.

Lemma key_base64_alphabet key x :
  all_bytes key = true → x ∈ key_base64 key → is_Some (b64_val x) ∨ x = ch "=".
Proof.
  intros Hb. rewrite key_base64_groups, !elem_of_app.
  assert (H3 : ∀ i j k, all_bytes [at_ key i; at_ key j; at_ key k] = true).
  { intros. unfold all_bytes; simpl; rewrite !andb_true_iff, !is_byte_spec; auto with cint. }
  intros [Hx|[Hx|Hx]].
  - left. apply list_elem_of_In, in_flat_map in Hx as (i & _ & Hx).
    eapply encode_base64_alphabet; [apply H3|by apply list_elem_of_In].
  - left. apply (subseteq_take _ _ _) in Hx. eapply encode_base64_alphabet; [|exact Hx].
    unfold all_bytes; simpl; rewrite !andb_true_iff, !is_byte_spec; auto with cint lia.
  - right. by apply list_elem_of_singleton in Hx.
Qed.

(** ** Decoding is the inverse of encoding *)

Lemma key_ok_spec key : key_ok key = true ↔ length key = WG_KEY_LEN ∧ all_bytes key = true.
Proof. unfold key_ok. by rewrite andb_true_iff, Nat.eqb_eq. Qed.

Lemma key_base64_bytes key : all_bytes key = true → all_bytes (key_base64 key) = true.
Proof.
  intros Hb. unfold all_bytes. apply forallb_forall. intros x Hx%list_elem_of_In.
  apply is_byte_spec. destruct (key_base64_alphabet key x Hb Hx) as [[v Hv%b64_val_range]| ->].
  - lia.
  - ch_norm. lia.
Qed.

Lemma key_base64_accepted key :
  key_ok key = true → b64_accepts (key_base64 key).
Proof.
  intros [Hl Hb]%key_ok_spec. assert (Hat : ∀ i, 0 <= at_ key i < 256) by auto with cint.
  unfold b64_accepts. split_and!; [done|done|..].
  - intros j Hj. rewrite group_val_encoded by done.
    pose proof (Hat (j * 3)%nat). pose proof (Hat (j * 3 + 1)%nat). pose proof (Hat (j * 3 + 2)%nat). lia.
  - rewrite last_val_encoded by done. pose proof (Hat 30%nat). pose proof (Hat 31%nat). lia.
  - rewrite last_val_encoded, land_255 by done. pose proof (Hat 31%nat). bit_lia.
Qed.

Lemma key_from_base64_encoded key0 key :
  length key0 = WG_KEY_LEN → key_ok key = true →
  key_from_base64 key0 (key_base64 key) = (true, key).
Proof.
  intros H0 Hk. pose proof Hk as [Hl Hb]%key_ok_spec.
  assert (Ht : (key_from_base64 key0 (key_base64 key)).1 = true).
  { apply key_from_base64_spec; [done|by apply key_base64_bytes|by apply key_base64_accepted]. }
  rewrite (surjective_pairing (key_from_base64 _ _)), Ht, key_from_base64_key by done.
  by rewrite decoded_key_encoded.
Qed.

Lemma group_bytes_bytes v : all_bytes (group_bytes v) = true.
Proof.
  unfold group_bytes. rewrite !land_255. unfold all_bytes; simpl.
  rewrite !andb_true_iff, !is_byte_spec. split_and!; try done; by apply Z.mod_pos_bound.
Qed.

Lemma decoded_key_ok s : key_ok (decoded_key s) = true.
Proof.
  apply key_ok_spec. split; [reflexivity|]. unfold decoded_key. rewrite all_bytes_app, andb_true_iff. split.
  - unfold all_bytes. apply forallb_forall. intros x (i & _ & Hx)%in_flat_map.
    pose proof (group_bytes_bytes (group_val s i)) as Hg. unfold all_bytes in Hg.
    rewrite forallb_forall in Hg. auto.
  - pose proof (group_bytes_bytes (last_val s)) as Hg. unfold all_bytes, group_bytes in *. simpl in *.
    rewrite !andb_true_iff in *. tauto.
Qed.

#[local] Opaque encode_base64.

Lemma key_base64_decoded s :
  all_bytes s = true → b64_accepts s → key_base64 (decoded_key s) = s.
Proof.
  intros Hb (Hl & He & Hg & Hn & Hz). rewrite key_base64_groups.
  rewrite (flat_map_ext_in _ (λ i, [at_ s (i * 4); at_ s (i * 4 + 1); at_ s (i * 4 + 2); at_ s (i * 4 + 3)])).
  - assert (Hlast : encode_base64 (at_ (decoded_key s) 30) (at_ (decoded_key s) 31) 0
                    = [at_ s 40; at_ s 41; at_ s 42; ch "A"]).
    { rewrite <- Hz. apply encode_decode_base64; [|done].
      apply all_bytes_4; [by apply all_bytes_at..|]. ch_norm. lia. }
    rewrite Hlast, <- He.
    do 44 (destruct s as [|? s]; [discriminate Hl|]). destruct s; [|discriminate Hl]. reflexivity.
  - intros i Hi%in_seq. rewrite <- (encode_decode_base64 (at_ s (i * 4)) _ _ (at_ s (i * 4 + 3))).
    + do 10 (destruct i as [|i]; [reflexivity|]). lia.
    + apply all_bytes_4; by apply all_bytes_at.
    + apply Hg. lia.
Qed.

(** What [key_from_base64] accepts. *)
Lemma key_from_base64_accepts (key0 s key : bytes) (Hk : length key0 = WG_KEY_LEN) (Hs : all_bytes s = true) :
  key_from_base64 key0 s = (true, key) ↔ key_ok key = true ∧ key_to_base64 key = s ++ [0].
Proof.
  rewrite key_to_base64_key. split.
  - intros Hd. assert (Ht : (key_from_base64 key0 s).1 = true) by by rewrite Hd.
    pose proof (key_from_base64_key key0 s Hk Ht) as Hkey. rewrite Hd in Hkey. simpl in Hkey. subst key.
    split; [apply decoded_key_ok|]. f_equal. apply key_base64_decoded; [done|].
    by eapply key_from_base64_spec.
  - intros [Hok Heq%(inj (.++ [0]))]. subst s. by apply key_from_base64_encoded.
Qed.

(** C23: [key_from_base64] accepts a string exactly when it is what
    [key_to_base64] writes for some key, and then it stores that key: the
    decoder is the inverse of the encoder and rejects every non-canonical
    encoding, on platforms with signed and with unsigned [char] alike. *)
Theorem key_from_base64_iff (key0 s key : bytes) (Hk : length key0 = WG_KEY_LEN) (Hs : all_bytes s = true) :
  key_from_base64 key0 s = (true, key) ↔ key_ok key = true ∧ key_to_base64 key = s ++ [0].
Proof. by apply key_from_base64_accepts. Qed.
End DecodeProofs.

Lemma key_from_base64_iff_witness :
  key_from_base64 (plat := arm64) (replicate 32 0) (key_base64 (seqZ 0 32)) = (true, seqZ 0 32).
Proof.
  apply (key_from_base64_iff (plat := arm64) (replicate 32 0) (key_base64 (seqZ 0 32)) (seqZ 0 32));
    vm_compute; auto.
Defined.

(** ** hex: one digit *)

Definition hex_val (b : Z) : option Z := base_digit 16 b.

Lemma hex_val_range b v : hex_val b = Some v → 0 <= v < 16.
Proof. unfold hex_val, base_digit, digit_val. repeat case_match; naive_solver lia. Qed.

Lemma hex_nibble_spec b :
  0 <= b < 256 →
  match hex_val b with
  | Some v => hex_nibble b = (0, v)
  | None => (hex_nibble b).1 = 255
  end.
Proof.
  intros Hb.
  pose proof (Z_range_check (λ b, match hex_val b with
    | Some v => ((hex_nibble b).1 =? 0) && ((hex_nibble b).2 =? v)
    | None => (hex_nibble b).1 =? 255 end) 0 256 ltac:(vm_compute; reflexivity) b Hb) as H.
  cbv beta in H. destruct (hex_val b), (hex_nibble b); cbn [fst snd] in *;
    rewrite ?andb_true_iff, ?Z.eqb_eq in H; [destruct H|]; by subst.
Qed.

Lemma hex_char_digit n : 0 <= n < 16 → hex_char n = digit_char n.
Proof. apply (Z_range_eq hex_char digit_char 0 16). vm_compute. reflexivity. Qed.

Lemma hex_val_char n : 0 <= n < 16 → hex_val (hex_char n) = Some n.
Proof. intros. rewrite hex_char_digit by done. by apply base_digit_char. Qed.

Lemma hex_char_val b v : 0 <= b < 256 → hex_val b = Some v → hex_char v = tolower b.
Proof.
  intros Hb Hv.
  assert ((hex_char <$> hex_val b) = (_ ← hex_val b; Some (tolower b))) as H.
  { clear Hv. revert b Hb.
    apply (Z_range_eq (λ b, hex_char <$> hex_val b) (λ b, _ ← hex_val b; Some (tolower b)) 0 256).
    vm_compute. reflexivity. }
  rewrite Hv in H. by simplify_eq/=.
Qed.

Lemma hex_val_tolower b : 0 <= b < 256 → hex_val (tolower b) = hex_val b.
Proof. apply (Z_range_eq (λ b, hex_val (tolower b)) hex_val 0 256). vm_compute. reflexivity. Qed.

Lemma hex_nibble_range b : 0 <= (hex_nibble b).1 < 256 ∧ 0 <= (hex_nibble b).2 < 256.
Proof. unfold hex_nibble. split; apply u8_range. Qed.

(** ** hex: the decoding loop *)

(** The byte the loop stores for digits [2k] and [2k + 1]. *)
Definition hex_byte (s : bytes) (k : nat) : Z :=
  u8 ((hex_nibble (at_ s (2 * k))).2 * 16) .| (hex_nibble (at_ s (2 * k + 1))).2.

Lemma from_hex_step_eq s k r key :
  from_hex_step s k (r, key) =
  (u8 (u8 (r .| (hex_nibble (at_ s (2 * k))).1) .| (hex_nibble (at_ s (2 * k + 1))).1),
   <[k := hex_byte s k]> key).
Proof. unfold from_hex_step, hex_byte. by destruct (hex_nibble _), (hex_nibble _). Qed.

Lemma from_hex_loop_ret s n i ret key :
  all_bytes s = true → 0 <= ret < 256 →
  let r := (for_upto i n (from_hex_step s) (ret, key)).1 in
  0 <= r < 256 ∧
  (r = 0 ↔ ret = 0 ∧ ∀ j, (i <= j < i + n)%nat →
     is_Some (hex_val (at_ s (2 * j))) ∧ is_Some (hex_val (at_ s (2 * j + 1)))).
Proof.
  intros Hs. revert i ret key. induction n as [|n IH]; intros i ret key Hret; cbn [for_upto].
  { split; [done|]. cbn. split; [intros ->; split; [done|lia]|tauto]. }
  rewrite from_hex_step_eq. generalize (hex_byte s i). intros hb.
  pose proof (hex_nibble_range (at_ s (2 * i))) as [Hr1 _].
  pose proof (hex_nibble_range (at_ s (2 * i + 1))) as [Hr2 _].
  pose proof (hex_nibble_spec (at_ s (2 * i)) (all_bytes_at _ _ Hs)) as H1.
  pose proof (hex_nibble_spec (at_ s (2 * i + 1)) (all_bytes_at _ _ Hs)) as H2.
  destruct (hex_nibble (at_ s (2 * i))) as [e1 v1]. destruct (hex_nibble (at_ s (2 * i + 1))) as [e2 v2].
  cbn [fst snd] in *.
  edestruct IH as [Hr Hz]; [|split; [exact Hr|rewrite Hz]]; [apply u8_range|].
  rewrite u8_lor_zero, u8_lor_zero by (done || apply u8_range).
  assert (He1 : e1 = 0 ↔ is_Some (hex_val (at_ s (2 * i)))).
  { destruct (hex_val (at_ s (2 * i))); simplify_eq/=; unfold is_Some; naive_solver. }
  assert (He2 : e2 = 0 ↔ is_Some (hex_val (at_ s (2 * i + 1)))).
  { destruct (hex_val (at_ s (2 * i + 1))); simplify_eq/=; unfold is_Some; naive_solver. }
  rewrite He1, He2. split.
  - intros [[[-> ?] ?] Hj]. split; [done|]. intros j Hij.
    destruct (decide (j = i)) as [->|]; [done|]. apply Hj. lia.
  - intros [-> Hj]. pose proof (Hj i ltac:(lia)). split_and!; [tauto..|]. intros j ?. apply Hj. lia.
Qed.

Lemma from_hex_loop_snd s n i st :
  (for_upto i n (from_hex_step s) st).2 =
  for_upto i n (λ k key, <[k := hex_byte s k]> key) st.2.
Proof.
  revert i st. induction n as [|n IH]; intros i [r key]; cbn [for_upto]; [done|].
  by rewrite IH, from_hex_step_eq.
Qed.

Definition decoded_hex (s : bytes) : bytes := hex_byte s <$> seq 0 32.

#[local] Opaque hex_nibble hex_byte hex_char.

Lemma from_hex_loop_key s key :
  length key = WG_KEY_LEN → (for_upto 0 32 (from_hex_step s) (0, key)).2 = decoded_hex s.
Proof.
  intros Hl. rewrite from_hex_loop_snd. cbn [snd].
  do 32 (destruct key as [|? key]; [discriminate Hl|]). destruct key; [|discriminate Hl]. reflexivity.
Qed.

Definition hex_accepts (s : bytes) : Prop :=
  length s = 64%nat ∧
  ∀ k, (k < 32)%nat → is_Some (hex_val (at_ s (2 * k))) ∧ is_Some (hex_val (at_ s (2 * k + 1))).

Lemma key_from_hex_spec key s :
  length key = WG_KEY_LEN → all_bytes s = true →
  (key_from_hex key s).1 = true ↔ hex_accepts s.
Proof.
  intros Hk Hs. unfold key_from_hex, hex_accepts.
  change (WG_KEY_LEN_HEX - 1)%nat with 64%nat. change (64 / 2)%nat with 32%nat.
  destruct (Nat.eqb_spec (length s) 64) as [Hl|Hl]; cbn [negb];
    [|split; [discriminate|intros (? & _); congruence]].
  pose proof (from_hex_loop_ret s 32 0 0 key Hs ltac:(lia)) as [Hr Hz].
  destruct (for_upto 0 32 (from_hex_step s) (0, key)) as [r k]. cbn [fst] in *.
  rewrite verdict_spec, Z.eqb_eq, Hz by done. split.
  - intros [_ Hj]. split; [done|]. intros j ?. apply Hj. lia.
  - intros [_ Hj]. split; [done|]. intros j ?. apply Hj. lia.
Qed.

Lemma key_from_hex_key key s :
  length key = WG_KEY_LEN → (key_from_hex key s).1 = true → (key_from_hex key s).2 = decoded_hex s.
Proof.
  intros Hk. pose proof (from_hex_loop_key s key Hk) as Hloop. unfold key_from_hex.
  case_match; [done|]. intros _. change ((WG_KEY_LEN_HEX - 1) / 2)%nat with 32%nat.
  destruct (for_upto 0 32 (from_hex_step s) (0, key)) as [r k]. exact Hloop.
Qed.

(** ** hex: decoding is the inverse of encoding, up to case *)

Lemma at_tolower s i : at_ (tolower <$> s) i = tolower (at_ s i).
Proof. unfold at_. rewrite list_lookup_fmap. by destruct (s !! i). Qed.

Lemma hex_byte_digits s k v1 v2 :
  all_bytes s = true → hex_val (at_ s (2 * k)) = Some v1 → hex_val (at_ s (2 * k + 1)) = Some v2 →
  hex_byte s k = v1 * 16 + v2.
Proof.
  intros Hs H1 H2. Transparent hex_byte. unfold hex_byte. Opaque hex_byte.
  pose proof (hex_nibble_spec (at_ s (2 * k)) (all_bytes_at _ _ Hs)) as E1. rewrite H1 in E1.
  pose proof (hex_nibble_spec (at_ s (2 * k + 1)) (all_bytes_at _ _ Hs)) as E2. rewrite H2 in E2.
  rewrite E1, E2. cbn [snd]. apply hex_val_range in H1, H2. rewrite u8_small by lia.
  change 16 with (2 ^ 4). rewrite <- Z.shiftl_mul_pow2 by lia. rewrite lor_shift_add by lia.
  by rewrite Z.shiftl_mul_pow2 by lia.
Qed.

Lemma key_to_hex_key key : key_to_hex key = key_hex key ++ [0].
Proof. reflexivity. Qed.

Lemma key_hex_pairs key :
  key_hex key = flat_map (λ i, [hex_char (at_ key i .>> 4); hex_char (at_ key i .& 0xf)]) (seq 0 32).
Proof. reflexivity. Qed.

Lemma hex_accepts_decoded s :
  all_bytes s = true → hex_accepts s →
  key_ok (decoded_hex s) = true ∧ key_hex (decoded_hex s) = tolower <$> s.
Proof.
  intros Hs [Hl Hd].
  assert (Hb : ∀ k, (k < 32)%nat → 0 <= hex_byte s k < 256 ∧
     [hex_char (hex_byte s k .>> 4); hex_char (hex_byte s k .& 0xf)]
     = [tolower (at_ s (2 * k)); tolower (at_ s (2 * k + 1))]).
  { intros k Hk. destruct (Hd k Hk) as [[v1 H1] [v2 H2]].
    rewrite (hex_byte_digits s k v1 v2) by done.
    pose proof (hex_val_range _ _ H1). pose proof (hex_val_range _ _ H2).
    rewrite land_15, shr_div by lia.
    rewrite <- (hex_char_val _ v1), <- (hex_char_val _ v2) by (done || by apply all_bytes_at).
    split; [lia|]. repeat f_equal; bit_lia. }
  split.
  - apply key_ok_spec. split; [reflexivity|]. unfold all_bytes, decoded_hex. apply forallb_forall.
    intros x (k & <- & Hk)%in_map_iff. apply in_seq in Hk. apply is_byte_spec, Hb. lia.
  - rewrite key_hex_pairs.
    rewrite (flat_map_ext_in _ (λ k, [tolower (at_ s (2 * k)); tolower (at_ s (2 * k + 1))])).
    + do 64 (destruct s as [|? s]; [discriminate Hl|]). destruct s; [|discriminate Hl]. reflexivity.
    + intros k Hk%in_seq. rewrite <- (proj2 (Hb k ltac:(lia))). unfold decoded_hex, at_.
      rewrite list_lookup_fmap, (lookup_seq_lt 0 32 k) by lia. reflexivity.
Qed.

Lemma key_hex_accepted key s :
  key_ok key = true → all_bytes s = true → tolower <$> s = key_hex key →
  hex_accepts s ∧ decoded_hex s = key.
Proof.
  intros [Hl Hb]%key_ok_spec Hs Heq.
  assert (Hls : length s = 64%nat) by (rewrite <- (length_fmap tolower s), Heq; reflexivity).
  assert (Hd : ∀ k, (k < 32)%nat → hex_val (at_ s (2 * k)) = Some (at_ key k / 16) ∧
                                    hex_val (at_ s (2 * k + 1)) = Some (at_ key k mod 16)).
  { intros k Hk. pose proof (all_bytes_at key k Hb).
    assert (tolower (at_ s (2 * k)) = hex_char (at_ key k .>> 4) ∧
            tolower (at_ s (2 * k + 1)) = hex_char (at_ key k .& 0xf)) as [H1 H2].
    { rewrite <- !at_tolower, Heq, key_hex_pairs. clear -Hk.
      do 32 (destruct k as [|k]; [split; reflexivity|]). lia. }
    rewrite <- (hex_val_tolower (at_ s (2 * k))), <- (hex_val_tolower (at_ s (2 * k + 1))), H1, H2
      by by apply all_bytes_at.
    rewrite land_15, shr_div by lia. split; apply hex_val_char; bit_lia. }
  split.
  - split; [done|]. intros k Hk. destruct (Hd k Hk) as [-> ->]. eauto.
  - apply list_eq. intros k. unfold decoded_hex. rewrite list_lookup_fmap.
    destruct (decide (k < 32)%nat) as [Hk|Hk].
    + rewrite lookup_seq_lt by lia. simpl. destruct (Hd k Hk) as [H1 H2].
      rewrite (hex_byte_digits s k _ _ Hs H1 H2).
      destruct (lookup_lt_is_Some_2 key k) as [b Hkb]; [by rewrite Hl|].
      unfold at_. rewrite Hkb. simpl. f_equal. bit_lia.
    + rewrite lookup_seq_ge by lia. simpl. symmetry. apply lookup_ge_None. rewrite Hl.
      unfold WG_KEY_LEN. lia.
Qed.

Lemma key_hex_chars key x :
  all_bytes key = true → x ∈ key_hex key → 48 <= x <= 57 ∨ 97 <= x <= 102.
Proof.
  intros Hb. rewrite key_hex_pairs. intros (i & _ & Hx)%list_elem_of_In%in_flat_map.
  pose proof (all_bytes_at key i Hb). rewrite land_15, shr_div in Hx by lia.
  assert (∃ n, 0 <= n < 16 ∧ x = hex_char n) as (n & Hn & ->).
  { destruct Hx as [<-|[<-|[]]]; eexists; (split; [|reflexivity]); bit_lia. }
  rewrite hex_char_digit by done. unfold digit_char. destruct (Z.ltb_spec n 10); lia.
Qed.

Lemma key_from_hex_encoded key0 key :
  length key0 = WG_KEY_LEN → key_ok key = true → key_from_hex key0 (key_hex key) = (true, key).
Proof.
  intros H0 Hok. pose proof Hok as [_ Hb]%key_ok_spec.
  assert (Hbytes : all_bytes (key_hex key) = true).
  { apply forallb_forall. intros x Hx%list_elem_of_In. apply is_byte_spec.
    pose proof (key_hex_chars key x Hb Hx). lia. }
  destruct (key_hex_accepted key (key_hex key)) as [Ha Hd]; [done..| |].
  { rewrite <- (map_id (key_hex key)) at 2. apply list_fmap_ext. intros i x Hx%list_elem_of_lookup_2.
    pose proof (key_hex_chars key x Hb Hx). unfold tolower. destruct (Z.leb_spec 65 x), (Z.leb_spec x 90); simpl; lia. }
  assert (Ht : (key_from_hex key0 (key_hex key)).1 = true) by by apply key_from_hex_spec.
  by rewrite (surjective_pairing (key_from_hex _ _)), Ht, key_from_hex_key, Hd.
Qed.

(** [key_from_hex] accepts exactly the 64-digit strings, in either letter
    case, that [key_to_hex] writes for some key, and stores that key. *)
Theorem key_from_hex_iff (key0 s key : bytes) (Hk : length key0 = WG_KEY_LEN) (Hs : all_bytes s = true) :
  key_from_hex key0 s = (true, key) ↔ key_ok key = true ∧ key_to_hex key = (tolower <$> s) ++ [0].
Proof.
  rewrite key_to_hex_key. split.
  - intros Hd. assert (Ht : (key_from_hex key0 s).1 = true) by by rewrite Hd.
    pose proof (key_from_hex_key key0 s Hk Ht) as Hkey. rewrite Hd in Hkey. simpl in Hkey. subst key.
    apply key_from_hex_spec in Ht; [|done..].
    destruct (hex_accepts_decoded s Hs Ht) as [? ->]. done.
  - intros [Hok Heq%(inj (.++ [0]))]. destruct (key_hex_accepted key s Hok Hs (eq_sym Heq)) as [Ha <-].
    assert (Ht : (key_from_hex key0 s).1 = true) by by apply key_from_hex_spec.
    by rewrite (surjective_pairing (key_from_hex _ _)), Ht, key_from_hex_key.
Qed.

Lemma key_from_hex_iff_witness :
  key_from_hex (replicate 32 0) (str "000102030405060708090A0B0C0D0E0F101112131415161718191a1b1c1d1e1f") = (true, seqZ 0 32).
Proof.
  apply (key_from_hex_iff (replicate 32 0)
    (str "000102030405060708090A0B0C0D0E0F101112131415161718191a1b1c1d1e1f") (seqZ 0 32)); vm_compute; auto.
Defined.

(** ** The zero test *)

Lemma key_is_zero_loop key n i acc :
  all_bytes key = true → 0 <= acc < 256 →
  let r := for_upto i n (λ i acc, u8 (acc .| at_ key i)) acc in
  0 <= r < 256 ∧ (r = 0 ↔ acc = 0 ∧ ∀ j, (i <= j < i + n)%nat → at_ key j = 0).
Proof.
  intros Hb. revert i acc. induction n as [|n IH]; intros i acc Ha; simpl.
  { split; [done|]. split; [intros ->; split; [done|lia]|tauto]. }
  destruct (IH (S i) (u8 (acc .| at_ key i))) as [Hr Hz]; [apply u8_range|].
  split; [exact Hr|]. rewrite Hz, u8_lor_zero by (done || by apply all_bytes_at). split.
  - intros [[-> ?] Hj]. split; [done|]. intros j Hij.
    destruct (decide (j = i)) as [->|]; [done|]. apply Hj. lia.
  - intros [-> Hj]. split_and!; [done|apply Hj; lia|]. intros j ?. apply Hj. lia.
Qed.

Lemma key_is_zero_spec key :
  key_ok key = true → key_is_zero key = bool_decide (key = replicate WG_KEY_LEN 0).
Proof.
  intros [Hl Hb]%key_ok_spec. unfold key_is_zero.
  destruct (key_is_zero_loop key WG_KEY_LEN 0 0 Hb ltac:(lia)) as [Hr Hz].
  rewrite verdict_spec by done. apply Bool.eq_iff_eq_true. rewrite Z.eqb_eq, Hz, bool_decide_eq_true.
  split.
  - intros [_ Hj]. apply list_eq. intros k. destruct (decide (k < WG_KEY_LEN)%nat) as [Hk|Hk].
    + rewrite lookup_replicate_2 by done. destruct (lookup_lt_is_Some_2 key k) as [b Hkb]; [by rewrite Hl|].
      rewrite Hkb. f_equal. specialize (Hj k ltac:(lia)). unfold at_ in Hj. by rewrite Hkb in Hj.
    + rewrite !lookup_ge_None_2; [done|..]; rewrite ?length_replicate, ?Hl; lia.
  - intros ->. split; [done|]. intros j Hj. unfold at_. by rewrite lookup_replicate_2 by lia.
Qed.
