(* ===== verification/Containers.v ===== *)
(** * Containers: the data model of containers.h and the operating system interface

    The structures every tool passes around.  A singly linked list headed by
    [first_peer] or [first_allowedip] is the list of its nodes, in order; a
    pointer to one of its nodes ([last_peer], [last_allowedip], and the cursors
    of the parsers) is the position of that node, [None] for NULL.  Storing
    through [p->next_peer] cuts the list after [p] and appends the new node.

    [NetLib] is the part of libc and of the operating system the sources call
    but do not contain; [NetLibLaws] states what the tools rely on. *)

From Stdlib Require Import Ascii String.
From stdpp Require Import base numbers option sets list list_numbers strings.
From S2P Require Import Prelude CLib Ctype Encoding.
#[local] Open Scope c_scope.

(** ** Constants *)

Definition AF_UNSPEC : Z := 0.
Definition AF_UNIX : Z := 1.
Definition AF_INET : Z := 2.
Definition AF_INET6 : Z := 10.
Definition SIZEOF_SOCKADDR_IN : Z := 16.
Definition SIZEOF_SOCKADDR_IN6 : Z := 28.
Definition IFNAMSIZ : nat := 16.

Definition WGALLOWEDIP_REMOVE_ME : Z := 1 .<< 0.

Definition WGPEER_REMOVE_ME : Z := 1 .<< 0.
Definition WGPEER_REPLACE_ALLOWEDIPS : Z := 1 .<< 1.
Definition WGPEER_HAS_PUBLIC_KEY : Z := 1 .<< 2.
Definition WGPEER_HAS_PRESHARED_KEY : Z := 1 .<< 3.
Definition WGPEER_HAS_PERSISTENT_KEEPALIVE_INTERVAL : Z := 1 .<< 4.

Definition WGDEVICE_REPLACE_PEERS : Z := 1 .<< 0.
Definition WGDEVICE_HAS_PRIVATE_KEY : Z := 1 .<< 1.
Definition WGDEVICE_HAS_PUBLIC_KEY : Z := 1 .<< 2.
Definition WGDEVICE_HAS_LISTEN_PORT : Z := 1 .<< 3.
Definition WGDEVICE_HAS_FWMARK : Z := 1 .<< 4.

(** [flags & bit] as a condition, [flags |= bit], and [flags &= ~bit] on a [uint32_t]. *)
Definition has_flag (flags bit : Z) : bool := truthy (flags .& bit).
Definition set_flag (flags bit : Z) : Z := flags .| bit.
Definition clear_flag (flags bit : Z) : Z := flags .& u32 (~~ bit).

(** ** Structures *)

(** [struct sockaddr_in] / [struct sockaddr_in6]: the family, the port in host
    order, the address bytes, and the IPv6 flow information and scope. *)
Record sockaddr := {
  sa_family : Z;
  sin_port : Z;
  sin_addr : bytes;
  sin6_extra : bytes;
}.
Definition sockaddr_zero : sockaddr :=
  {| sa_family := AF_UNSPEC; sin_port := 0; sin_addr := []; sin6_extra := [] |}.

(** [struct wgallowedip]; [ip] is the 16-byte union of [ip4] and [ip6]. *)
Record wgallowedip := {
  family : Z;
  ip : bytes;
  cidr : Z;
  ai_flags : Z;
}.
Definition wgallowedip_zero : wgallowedip :=
  {| family := 0; ip := replicate 16 0; cidr := 0; ai_flags := 0 |}.

Definition ip4 (a : wgallowedip) : bytes := take 4 (ip a).
Definition ip6 (a : wgallowedip) : bytes := ip a.

(** [struct wgpeer]; [allowedips] is the list from [first_allowedip]. *)
Record wgpeer := {
  p_flags : Z;
  p_public_key : bytes;
  preshared_key : bytes;
  endpoint : sockaddr;
  tv_sec : Z;
  tv_nsec : Z;
  rx_bytes : Z;
  tx_bytes : Z;
  persistent_keepalive_interval : Z;
  allowedips : list wgallowedip;
  last_allowedip : option nat;
}.
Definition wgpeer_zero : wgpeer :=
  {| p_flags := 0; p_public_key := replicate WG_KEY_LEN 0; preshared_key := replicate WG_KEY_LEN 0;
     endpoint := sockaddr_zero; tv_sec := 0; tv_nsec := 0; rx_bytes := 0; tx_bytes := 0;
     persistent_keepalive_interval := 0; allowedips := []; last_allowedip := None |}.

(** [struct wgdevice]; [peers] is the list from [first_peer]. *)
Record wgdevice := {
  name : bytes;
  ifindex : Z;
  flags : Z;
  public_key : bytes;
  private_key : bytes;
  fwmark : Z;
  listen_port : Z;
  peers : list wgpeer;
  last_peer : option nat;
}.
Definition wgdevice_zero : wgdevice :=
  {| name := []; ifindex := 0; flags := 0; public_key := replicate WG_KEY_LEN 0;
     private_key := replicate WG_KEY_LEN 0; fwmark := 0; listen_port := 0;
     peers := []; last_peer := None |}.

#[export] Instance sockaddr_eq_dec : EqDecision sockaddr.
Proof. solve_decision. Defined.
#[export] Instance wgallowedip_eq_dec : EqDecision wgallowedip.
Proof. solve_decision. Defined.
#[export] Instance wgpeer_eq_dec : EqDecision wgpeer.
Proof. solve_decision. Defined.
#[export] Instance wgdevice_eq_dec : EqDecision wgdevice.
Proof. solve_decision. Defined.

(** ** Field stores *)

Definition set_family v a := {| family := v; ip := ip a; cidr := cidr a; ai_flags := ai_flags a |}.
Definition set_cidr v a := {| family := family a; ip := ip a; cidr := v; ai_flags := ai_flags a |}.
Definition set_ai_flags v a := {| family := family a; ip := ip a; cidr := cidr a; ai_flags := v |}.
(** Storing 4 or 16 bytes at the start of the address union. *)
Definition store_ip (b : bytes) a :=
  {| family := family a; ip := b ++ drop (length b) (ip a); cidr := cidr a; ai_flags := ai_flags a |}.

Definition peer_with (fl : Z) (pub psk : bytes) (ep : sockaddr) (sec nsec rx tx ka : Z)
    (ips : list wgallowedip) (la : option nat) : wgpeer :=
  {| p_flags := fl; p_public_key := pub; preshared_key := psk; endpoint := ep; tv_sec := sec;
     tv_nsec := nsec; rx_bytes := rx; tx_bytes := tx; persistent_keepalive_interval := ka;
     allowedips := ips; last_allowedip := la |}.

Definition set_p_flags v p := peer_with v (p_public_key p) (preshared_key p) (endpoint p) (tv_sec p) (tv_nsec p)
  (rx_bytes p) (tx_bytes p) (persistent_keepalive_interval p) (allowedips p) (last_allowedip p).
Definition set_p_public_key v p := peer_with (p_flags p) v (preshared_key p) (endpoint p) (tv_sec p) (tv_nsec p)
  (rx_bytes p) (tx_bytes p) (persistent_keepalive_interval p) (allowedips p) (last_allowedip p).
Definition set_preshared_key v p := peer_with (p_flags p) (p_public_key p) v (endpoint p) (tv_sec p) (tv_nsec p)
  (rx_bytes p) (tx_bytes p) (persistent_keepalive_interval p) (allowedips p) (last_allowedip p).
Definition set_endpoint v p := peer_with (p_flags p) (p_public_key p) (preshared_key p) v (tv_sec p) (tv_nsec p)
  (rx_bytes p) (tx_bytes p) (persistent_keepalive_interval p) (allowedips p) (last_allowedip p).
Definition set_tv_sec v p := peer_with (p_flags p) (p_public_key p) (preshared_key p) (endpoint p) v (tv_nsec p)
  (rx_bytes p) (tx_bytes p) (persistent_keepalive_interval p) (allowedips p) (last_allowedip p).
Definition set_tv_nsec v p := peer_with (p_flags p) (p_public_key p) (preshared_key p) (endpoint p) (tv_sec p) v
  (rx_bytes p) (tx_bytes p) (persistent_keepalive_interval p) (allowedips p) (last_allowedip p).
Definition set_rx_bytes v p := peer_with (p_flags p) (p_public_key p) (preshared_key p) (endpoint p) (tv_sec p) (tv_nsec p)
  v (tx_bytes p) (persistent_keepalive_interval p) (allowedips p) (last_allowedip p).
Definition set_tx_bytes v p := peer_with (p_flags p) (p_public_key p) (preshared_key p) (endpoint p) (tv_sec p) (tv_nsec p)
  (rx_bytes p) v (persistent_keepalive_interval p) (allowedips p) (last_allowedip p).
Definition set_keepalive v p := peer_with (p_flags p) (p_public_key p) (preshared_key p) (endpoint p) (tv_sec p) (tv_nsec p)
  (rx_bytes p) (tx_bytes p) v (allowedips p) (last_allowedip p).
Definition set_allowedips v p := peer_with (p_flags p) (p_public_key p) (preshared_key p) (endpoint p) (tv_sec p) (tv_nsec p)
  (rx_bytes p) (tx_bytes p) (persistent_keepalive_interval p) v (last_allowedip p).
Definition set_last_allowedip v p := peer_with (p_flags p) (p_public_key p) (preshared_key p) (endpoint p) (tv_sec p) (tv_nsec p)
  (rx_bytes p) (tx_bytes p) (persistent_keepalive_interval p) (allowedips p) v.

Definition device_with (n : bytes) (ifi fl : Z) (pub priv : bytes) (fw port : Z)
    (ps : list wgpeer) (lp : option nat) : wgdevice :=
  {| name := n; ifindex := ifi; flags := fl; public_key := pub; private_key := priv; fwmark := fw;
     listen_port := port; peers := ps; last_peer := lp |}.

Definition set_name v d := device_with v (ifindex d) (flags d) (public_key d) (private_key d) (fwmark d) (listen_port d) (peers d) (last_peer d).
Definition set_ifindex v d := device_with (name d) v (flags d) (public_key d) (private_key d) (fwmark d) (listen_port d) (peers d) (last_peer d).
Definition set_flags v d := device_with (name d) (ifindex d) v (public_key d) (private_key d) (fwmark d) (listen_port d) (peers d) (last_peer d).
Definition set_public_key v d := device_with (name d) (ifindex d) (flags d) v (private_key d) (fwmark d) (listen_port d) (peers d) (last_peer d).
Definition set_private_key v d := device_with (name d) (ifindex d) (flags d) (public_key d) v (fwmark d) (listen_port d) (peers d) (last_peer d).
Definition set_fwmark v d := device_with (name d) (ifindex d) (flags d) (public_key d) (private_key d) v (listen_port d) (peers d) (last_peer d).
Definition set_listen_port v d := device_with (name d) (ifindex d) (flags d) (public_key d) (private_key d) (fwmark d) v (peers d) (last_peer d).
Definition set_peers v d := device_with (name d) (ifindex d) (flags d) (public_key d) (private_key d) (fwmark d) (listen_port d) v (last_peer d).
Definition set_last_peer v d := device_with (name d) (ifindex d) (flags d) (public_key d) (private_key d) (fwmark d) (listen_port d) (peers d) v.

(** ** Linked lists *)

(** [if (last) last->next = node; else first = node;] *)
Definition link_after {A} (l : list A) (last : option nat) (node : A) : list A :=
  match last with
  | Some i => take (S i) l ++ [node]
  | None => [node]
  end.

(** The position of the node so linked. *)
Definition next_pos (last : option nat) : nat :=
  match last with Some i => S i | None => O end.

(** The cursor is the last node: what every parser maintains. *)
Definition cursor_ok {A} (l : list A) (last : option nat) : Prop :=
  match last with
  | Some i => length l = S i
  | None => l = []
  end.

Lemma link_after_app {A} (l : list A) last x :
  cursor_ok l last → link_after l last x = l ++ [x].
Proof. destruct last; simpl; [intros; by rewrite take_ge by lia|by intros ->]. Qed.

Lemma cursor_ok_next {A} (l : list A) last x :
  cursor_ok l last → cursor_ok (l ++ [x]) (Some (next_pos last)).
Proof. destruct last; simpl; [intros; rewrite length_app; simpl; lia|by intros ->]. Qed.

Lemma cursor_ok_pos {A} (l : list A) last : cursor_ok l last → next_pos last = length l.
Proof. destruct last; simpl; [done|by intros ->]. Qed.

Lemma lookup_link_after {A} (l : list A) last x :
  cursor_ok l last → link_after l last x !! next_pos last = Some x.
Proof. intros H. rewrite link_after_app, (cursor_ok_pos l) by done. by apply list_lookup_middle. Qed.

Lemma cursor_ok_alter {A} (f : A → A) (l : list A) i last :
  cursor_ok l last → cursor_ok (alter f i l) last.
Proof. destruct last; simpl; [by rewrite length_alter|by intros ->]. Qed.

(** [peer->field = ...] for the peer at position [i]. *)
Definition update_peer (i : nat) (f : wgpeer → wgpeer) (d : wgdevice) : wgdevice :=
  set_peers (alter f i (peers d)) d.

(** ** The operating system and libc interface *)

Inductive gai_error := EAI_NONAME | EAI_FAIL | EAI_NODATA | EAI_AGAIN | EAI_SYSTEM | EAI_OTHER.

Record addrinfo := { ai_family : Z; ai_addrlen : Z; ai_addr : sockaddr }.
Inductive gai_result := GaiOk (r : addrinfo) | GaiError (e : gai_error).

(** A file as a reader sees it: the bytes that can be read, and whether the
    read that follows them fails instead of reaching the end. *)
Record cfile := { f_data : bytes; f_error : bool }.

Class NetLib := {
  inet_pton : Z → bytes → option bytes;
  inet_ntop : Z → bytes → option bytes;
  (** [getaddrinfo(node, service, hints, &res)], at its [n]-th call in a row. *)
  getaddrinfo : option bytes → bytes → nat → gai_result;
  (** [getnameinfo] with NI_NUMERICHOST | NI_NUMERICSERV: host and service. *)
  getnameinfo : sockaddr → option (bytes * bytes);
  getenv : bytes → option bytes;
  fopen : bytes → option cfile;
}.

(** Numeric host names: IPv6 text has a colon and IPv4 text has none, and
    neither has any other delimiter. *)
Definition host_text (fam : Z) (s : bytes) : Prop :=
  s ≠ [] ∧ Forall (λ c, 48 <= c <= 57 ∨ 97 <= c <= 102 ∨ c = ch "." ∨ c = ch ":") s ∧
  (ch ":" ∈ s ↔ fam = AF_INET6).

(** A plain endpoint: a full address, and no flow information or scope. *)
Definition plain_endpoint (sa : sockaddr) : Prop :=
  (sa_family sa = AF_INET ∧ length (sin_addr sa) = 4%nat ∨
   sa_family sa = AF_INET6 ∧ length (sin_addr sa) = 16%nat) ∧
  all_bytes (sin_addr sa) = true ∧ 0 <= sin_port sa < 65536 ∧ sin6_extra sa = [].

(** What POSIX documents of these calls and the tools rely on. *)
Class NetLibLaws (N : NetLib) := {
  inet_pton_len4 s b : inet_pton AF_INET s = Some b → length b = 4%nat ∧ all_bytes b = true;
  inet_pton_len6 s b : inet_pton AF_INET6 s = Some b → length b = 16%nat ∧ all_bytes b = true;
  (** Text produced by [inet_ntop] is read back by [inet_pton]. *)
  inet_ntop4 b : length b = 4%nat → all_bytes b = true →
    ∃ s, inet_ntop AF_INET b = Some s ∧ inet_pton AF_INET s = Some b ∧ host_text AF_INET s;
  inet_ntop6 b : length b = 16%nat → all_bytes b = true →
    ∃ s, inet_ntop AF_INET6 b = Some s ∧ inet_pton AF_INET6 s = Some b ∧ host_text AF_INET6 s;
  (** A resolved address carries its own family, and its port is a [uint16_t]. *)
  gai_addr node service n r : getaddrinfo node service n = GaiOk r →
    sa_family (ai_addr r) = ai_family r ∧ 0 <= sin_port (ai_addr r) < 65536;
  (** A decimal service name is that port. *)
  gai_port port n : 0 <= port < 65536 →
    ∃ r, getaddrinfo None (printf_u port) n = GaiOk r ∧ sin_port (ai_addr r) = port ∧
         ((ai_family r = AF_INET ∧ ai_addrlen r = SIZEOF_SOCKADDR_IN) ∨
          (ai_family r = AF_INET6 ∧ ai_addrlen r = SIZEOF_SOCKADDR_IN6));
  (** The numeric text of an address and port resolves to them. *)
  gni_gai sa : plain_endpoint sa →
    ∃ host, getnameinfo sa = Some (host, printf_u (sin_port sa)) ∧ host_text (sa_family sa) host ∧
      ∀ n, ∃ r, getaddrinfo (Some host) (printf_u (sin_port sa)) n = GaiOk r ∧ ai_addr r = sa ∧
        ai_family r = sa_family sa ∧
        ai_addrlen r = if sa_family sa =? AF_INET then SIZEOF_SOCKADDR_IN else SIZEOF_SOCKADDR_IN6;
  (** A file is made of bytes. *)
  fopen_bytes path f : fopen path = Some f → all_bytes (f_data f) = true;
}.

(** ** Well-formed objects: the ranges of the C types and of the prefixes *)

Definition allowedip_ok (a : wgallowedip) : Prop :=
  length (ip a) = 16%nat ∧ all_bytes (ip a) = true ∧
  ((family a = AF_INET ∧ 0 <= cidr a <= 32) ∨ (family a = AF_INET6 ∧ 0 <= cidr a <= 128)) ∧
  (ai_flags a = 0 ∨ ai_flags a = WGALLOWEDIP_REMOVE_ME).

Definition endpoint_ok (sa : sockaddr) : Prop :=
  (sa_family sa = AF_UNSPEC ∨ sa_family sa = AF_INET ∨ sa_family sa = AF_INET6) ∧
  0 <= sin_port sa < 65536.

Definition peer_ok (p : wgpeer) : Prop :=
  key_ok (p_public_key p) = true ∧ key_ok (preshared_key p) = true ∧ endpoint_ok (endpoint p) ∧
  0 <= persistent_keepalive_interval p < 65536 ∧ Forall allowedip_ok (allowedips p).

Definition device_ok (d : wgdevice) : Prop :=
  key_ok (public_key d) = true ∧ key_ok (private_key d) = true ∧
  0 <= fwmark d < 2 ^ 32 ∧ 0 <= listen_port d < 65536 ∧ Forall peer_ok (peers d).

Lemma key_ok_zero : key_ok (replicate WG_KEY_LEN 0) = true.
Proof. reflexivity. Qed.

Lemma peer_ok_zero : peer_ok wgpeer_zero.
Proof.
  unfold peer_ok, endpoint_ok. simpl. split_and!; try done; auto; lia.
Qed.

Lemma device_ok_zero : device_ok wgdevice_zero.
Proof. unfold device_ok. simpl. split_and!; try done; lia. Qed.

(** ** Flag words *)

Lemma has_flag_set fl bit b :
  has_flag (set_flag fl bit) b = has_flag fl b || has_flag bit b.
Proof.
  unfold has_flag, set_flag, truthy. rewrite Z.land_lor_distr_l, <- negb_andb. f_equal.
  apply Bool.eq_iff_eq_true. rewrite andb_true_iff, !Z.eqb_eq. apply Z.lor_eq_0_iff.
Qed.

Lemma has_flag_clear fl bit b :
  has_flag (clear_flag fl bit) b = truthy (fl .& (u32 (~~ bit) .& b)).
Proof. unfold has_flag, clear_flag. by rewrite Z.land_assoc. Qed.
