(* ===== verification/Config.v ===== *)
(** * Config: the configuration parsers of config.c

    The file parser ([config_read_init], [config_read_line],
    [config_read_finish]) and the command-line parser ([config_read_cmd]), with
    the value parsers they share.  A parser that stores through pointers
    returns the verdict with the objects it wrote; the functions that allocate,
    exit or retry run in the monad [M].  Messages to stderr are not modelled. *)

From Stdlib Require Import Ascii String.
From stdpp Require Import base numbers option sets list list_numbers strings.
From S2P Require Import Prelude CLib Ctype Encoding Containers.
#[local] Open Scope c_scope.

Definition COMMENT_CHAR : Z := ch "#".

(** [get_value]: the text after [key], when [line] starts with it and goes on. *)
Definition get_value (line key : bytes) : option bytes :=
  if (length line <=? length key)%nat then None
  else if negb (strncasecmp_eq line key (length key)) then None
  else Some (drop (length key) line).

Section Parsers.
Context {plat : Platform} {net : NetLib}.

(** The family and length test made before an address is taken from an [addrinfo]. *)
Definition addrinfo_is (fam len : Z) (r : addrinfo) : bool :=
  (ai_family r =? fam) && (ai_addrlen r =? len).

(** [parse_port(&port, &flags, value)] *)
Definition parse_port (port fl : Z) (value : bytes) : bool * Z * Z :=
  if Nat.eqb (length value) 0 then (false, port, fl)
  else match getaddrinfo None value 0 with
  | GaiError _ => (false, port, fl)
  | GaiOk resolved =>
      if addrinfo_is AF_INET SIZEOF_SOCKADDR_IN resolved
         || addrinfo_is AF_INET6 SIZEOF_SOCKADDR_IN6 resolved
      then (true, sin_port (ai_addr resolved), set_flag fl WGDEVICE_HAS_LISTEN_PORT)
      else (false, port, fl)
  end.

(** [parse_fwmark(&fwmark, &flags, value)] *)
Definition parse_fwmark (mark fl : Z) (value : bytes) : bool * Z * Z :=
  if strcasecmp_eq value (str "off") then (true, 0, set_flag fl WGDEVICE_HAS_FWMARK)
  else if negb (char_is_digit (char_val (at_ value 0))) then (false, mark, fl)
  else
    let base := if (2 <? length value)%nat && (at_ value 0 =? ch "0") && (at_ value 1 =? ch "x")
                then 16 else 10 in
    let '(ret, endp) := strtoul base value in
    if negb (is_end endp) || (UINT32_MAX <? ret) then (false, mark, fl)
    else (true, u32 ret, set_flag fl WGDEVICE_HAS_FWMARK).

(** [parse_key(key, value)] *)
Definition parse_key (key value : bytes) : bool * bytes :=
  let '(ok, key') := key_from_base64 key value in
  if ok then (true, key') else (false, replicate WG_KEY_LEN 0).

(** [parse_keyfile(key, path)]: [fread] of the 44 characters, then only white
    space up to the end of the file; an empty file stands for the zero key. *)
Definition parse_keyfile (key path : bytes) : bool * bytes :=
  match fopen path with
  | None => (false, key)
  | Some f =>
      let n := (WG_KEY_LEN_BASE64 - 1)%nat in
      if (length (f_data f) <? n)%nat then
        if negb (f_error f) && Nat.eqb (length (f_data f)) 0
        then (true, replicate WG_KEY_LEN 0)
        else (false, key)
      else
        let dst := take n (f_data f) in
        if negb (forallb char_is_space (drop n (f_data f))) then (false, key)
        else if f_error f then (false, key)
        else
          (** [dst] is used as a string: it ends at its first NUL. *)
          parse_key key (cstr dst)
  end.

(** [parse_ip(allowedip, value)] *)
Definition parse_ip (a : wgallowedip) (value : bytes) : bool * wgallowedip :=
  let a := set_family AF_UNSPEC a in
  let a :=
    if has_char value (ch ":") then
      match inet_pton AF_INET6 value with
      | Some b => set_family AF_INET6 (store_ip b a)
      | None => a
      end
    else
      match inet_pton AF_INET value with
      | Some b => set_family AF_INET (store_ip b a)
      | None => a
      end in
  if family a =? AF_UNSPEC then (false, a) else (true, a).

(** [parse_dns_retries()] *)
Definition parse_dns_retries : M Z :=
  match getenv (str "WG_ENDPOINT_RESOLUTION_RETRIES") with
  | None => mret 15
  | Some retries =>
      if strcmp_eq retries (str "infinity") then mret (-1)
      else
        let '(ret, endp) := strtoul 10 retries in
        if negb (is_end endp) || (INT_MAX <? ret) then exit_ 1 else mret ret
  end.

Definition is_permanent (e : gai_error) : bool :=
  match e with EAI_NONAME | EAI_FAIL | EAI_NODATA => true | _ => false end.

(** The retry loop of [parse_endpoint]: [None] when it gives up. *)
Fixpoint resolve_loop (fuel : nat) (host service : bytes) (retries : Z) (attempt : nat) : M (option addrinfo) :=
  match fuel with
  | O => out_of_fuel
  | S fuel' =>
      match getaddrinfo (Some host) service attempt with
      | GaiOk resolved => mret (Some resolved)
      | GaiError e =>
          if is_permanent e || ((0 <=? retries) && (retries =? 0)) then mret None
          else resolve_loop fuel' host service (if 0 <=? retries then retries - 1 else retries) (S attempt)
      end
  end.

(** Attempts allowed when the number of retries is bounded, and the share of
    an unbounded run that is looked at otherwise. *)
Definition resolve_fuel (patience : nat) (retries : Z) : nat :=
  if retries <? 0 then patience else S (Z.to_nat retries).

(** The host and the service of an endpoint string. *)
Definition split_endpoint (value : bytes) : option (bytes * bytes) :=
  if at_ value 0 =? ch "[" then
    match strchr_split value (ch "]") with
    | None => None
    | Some (host, rest) =>
        if negb (at_ rest 0 =? ch ":") || Nat.eqb (length (drop 1 rest)) 0 then None
        else Some (drop 1 host, drop 1 rest)
    end
  else
    match strrchr_split value (ch ":") with
    | None => None
    | Some (host, service) => if Nat.eqb (length service) 0 then None else Some (host, service)
    end.

(** [parse_endpoint(endpoint, value)] *)
Definition parse_endpoint (patience : nat) (ep : sockaddr) (value : bytes) : M (bool * sockaddr) :=
  mutable ← alloc;
  retries ← parse_dns_retries;
  if negb mutable then mret (false, ep)
  else if Nat.eqb (length value) 0 then mret (false, ep)
  else match split_endpoint value with
  | None => mret (false, ep)
  | Some (host, service) =>
      r ← resolve_loop (resolve_fuel patience retries) host service retries 0;
      match r with
      | None => mret (false, ep)
      | Some resolved =>
          if addrinfo_is AF_INET SIZEOF_SOCKADDR_IN resolved
             || addrinfo_is AF_INET6 SIZEOF_SOCKADDR_IN6 resolved
          then mret (true, ai_addr resolved)
          else mret (false, ep)
      end
  end.

(** [parse_persistent_keepalive(&interval, &flags, value)] *)
Definition parse_persistent_keepalive (interval fl : Z) (value : bytes) : bool * Z * Z :=
  if strcasecmp_eq value (str "off")
  then (true, 0, set_flag fl WGPEER_HAS_PERSISTENT_KEEPALIVE_INTERVAL)
  else if negb (char_is_digit (char_val (at_ value 0))) then (false, interval, fl)
  else
    let '(ret, endp) := strtoul 10 value in
    if negb (is_end endp) || (65535 <? ret) then (false, interval, fl)
    else (true, u16 ret, set_flag fl WGPEER_HAS_PERSISTENT_KEEPALIVE_INTERVAL).

(** The [i]-th 32-bit word of the address, in host order: [ntohl(ip[i])]. *)
Definition ip_word (b : bytes) (i : nat) : Z :=
  at_ b (4 * i) * 2 ^ 24 + at_ b (4 * i + 1) * 2 ^ 16 + at_ b (4 * i + 2) * 2 ^ 8 + at_ b (4 * i + 3).

(** The loop of [validate_netmask], from word [i] down to word 0. *)
Fixpoint netmask_loop (b : bytes) (c : Z) (n : nat) : bool :=
  match n with
  | O => true
  | S i =>
      if 32 * (Z.of_nat i + 1) <=? c then true
      else
        let mask := if 32 * Z.of_nat i <? c then 0xffffffff .>> (c - 32 * Z.of_nat i) else 0xffffffff in
        if truthy (ip_word b i .& mask) then false else netmask_loop b c i
  end.

Definition validate_netmask (a : wgallowedip) : bool :=
  if family a =? AF_INET then netmask_loop (ip a) (cidr a) 1
  else if family a =? AF_INET6 then netmask_loop (ip a) (cidr a) 4
  else true.

(** [parse_ip_prefix(peer, &flags, &mask)] *)
Definition parse_ip_prefix (p : wgpeer) (fl : Z) (mask : bytes) : wgpeer * Z * bytes :=
  let plus fl := (set_p_flags (clear_flag (p_flags p) WGPEER_REPLACE_ALLOWEDIPS) p, fl, drop 1 mask) in
  if at_ mask 0 =? ch "-" then plus (set_flag fl WGALLOWEDIP_REMOVE_ME)
  else if at_ mask 0 =? ch "+" then plus fl
  else (p, fl, mask).

(** The prefix length of one entry: [None] for a format error. *)
Definition parse_cidr (a : wgallowedip) (mask : option bytes) : option Z :=
  match mask with
  | Some mask =>
      if negb (char_is_digit (char_val (at_ mask 0))) then None
      else
        let '(c, endp) := strtoul 10 mask in
        if negb (is_end endp) || ((32 <? c) && (family a =? AF_INET)) || ((128 <? c) && (family a =? AF_INET6))
        then None else Some c
  | None =>
      if family a =? AF_INET then Some 32
      else if family a =? AF_INET6 then Some 128
      else None
  end.

(** The body of [while ((mask = strsep(&sep, ",")))], over the tokens. *)
Fixpoint parse_allowedips_loop (tokens : list bytes) (p : wgpeer) (last : option nat) : M (bool * wgpeer * option nat) :=
  match tokens with
  | [] => mret (true, p, last)
  | tok :: tokens' =>
      let '(p, fl, mask) := parse_ip_prefix p 0 tok in
      saved_entry ← alloc;
      if negb saved_entry then mret (false, p, last)
      else
        let '(ip, mask) := strsep mask (ch "/") in
        new_allowedip ← alloc;
        if negb new_allowedip then mret (false, p, last)
        else
          let '(ok, a) := parse_ip wgallowedip_zero ip in
          if negb ok then mret (false, p, last)
          else match parse_cidr a mask with
          | None => mret (false, p, last)
          | Some c =>
              let a := set_ai_flags fl (set_cidr (u8 c) a) in
              parse_allowedips_loop tokens'
                (set_allowedips (link_after (allowedips p) last a) p) (Some (next_pos last))
          end
  end.

(** [parse_allowedips(peer, &last_allowedip, value)] *)
Definition parse_allowedips (p : wgpeer) (last : option nat) (value : bytes) : M (bool * wgpeer * option nat) :=
  mutable ← alloc;
  if negb mutable then mret (false, p, last)
  else
    let p := set_p_flags (set_flag (p_flags p) WGPEER_REPLACE_ALLOWEDIPS) p in
    if Nat.eqb (length value) 0 then mret (true, p, last)
    else
      r ← parse_allowedips_loop (strsep_all value (ch ",")) p last;
      let '(ok, p, last') := r in
      (** [*last_allowedip] is stored only on success. *)
      mret (ok, p, if (ok : bool) then last' else last).

(** ** The file parser *)

(** [struct config_ctx]; [device] is [None] once it has been freed. *)
Record config_ctx := {
  device : option wgdevice;
  ctx_last_peer : option nat;
  ctx_last_allowedip : option nat;
  is_peer_section : bool;
  is_device_section : bool;
}.
Definition ctx_with_device (d : option wgdevice) (ctx : config_ctx) : config_ctx :=
  {| device := d; ctx_last_peer := ctx_last_peer ctx; ctx_last_allowedip := ctx_last_allowedip ctx;
     is_peer_section := is_peer_section ctx; is_device_section := is_device_section ctx |}.

(** [ctx->last_peer->...]: the store goes to the last peer of the device. *)
Definition with_last_peer {A} (ctx : config_ctx) (k : wgdevice → nat → wgpeer → M A) : M A :=
  match device ctx, ctx_last_peer ctx with
  | Some d, Some i => match peers d !! i with Some p => k d i p | None => undefined end
  | _, _ => undefined
  end.

(** The [key_match] chain of an [Interface] section. *)
Definition process_device_line (ctx : config_ctx) (d : wgdevice) (line : bytes) : M (bool * config_ctx) :=
  let put d := ctx_with_device (Some d) ctx in
  match get_value line (str "ListenPort=") with
  | Some value =>
      let '(ret, port, fl) := parse_port (listen_port d) (flags d) value in
      mret (ret, put (set_flags fl (set_listen_port port d)))
  | None =>
  match get_value line (str "FwMark=") with
  | Some value =>
      let '(ret, mark, fl) := parse_fwmark (fwmark d) (flags d) value in
      mret (ret, put (set_flags fl (set_fwmark mark d)))
  | None =>
  match get_value line (str "PrivateKey=") with
  | Some value =>
      let '(ret, key) := parse_key (private_key d) value in
      let d := set_private_key key d in
      mret (ret, put (if (ret : bool) then set_flags (set_flag (flags d) WGDEVICE_HAS_PRIVATE_KEY) d else d))
  | None => mret (false, ctx)
  end end end.

(** The [key_match] chain of a [Peer] section. *)
Definition process_peer_line (patience : nat) (ctx : config_ctx) (line : bytes) : M (bool * config_ctx) :=
  let put d i p := ctx_with_device (Some (update_peer i (λ _, p) d)) ctx in
  match get_value line (str "Endpoint=") with
  | Some value =>
      with_last_peer ctx (λ d i p,
        r ← parse_endpoint patience (endpoint p) value;
        let '(ret, ep) := r in
        mret (ret, put d i (set_endpoint ep p)))
  | None =>
  match get_value line (str "PublicKey=") with
  | Some value =>
      with_last_peer ctx (λ d i p,
        let '(ret, key) := parse_key (p_public_key p) value in
        let p := set_p_public_key key p in
        mret (ret, put d i (if (ret : bool) then set_p_flags (set_flag (p_flags p) WGPEER_HAS_PUBLIC_KEY) p else p)))
  | None =>
  match get_value line (str "AllowedIPs=") with
  | Some value =>
      with_last_peer ctx (λ d i p,
        r ← parse_allowedips p (ctx_last_allowedip ctx) value;
        let '(ret, p, last) := r in
        mret (ret, {| device := Some (update_peer i (λ _, p) d); ctx_last_peer := ctx_last_peer ctx;
                      ctx_last_allowedip := last; is_peer_section := is_peer_section ctx;
                      is_device_section := is_device_section ctx |}))
  | None =>
  match get_value line (str "PersistentKeepalive=") with
  | Some value =>
      with_last_peer ctx (λ d i p,
        let '(ret, ka, fl) := parse_persistent_keepalive (persistent_keepalive_interval p) (p_flags p) value in
        mret (ret, put d i (set_p_flags fl (set_keepalive ka p))))
  | None =>
  match get_value line (str "PresharedKey=") with
  | Some value =>
      with_last_peer ctx (λ d i p,
        let '(ret, key) := parse_key (preshared_key p) value in
        let p := set_preshared_key key p in
        mret (ret, put d i (if (ret : bool) then set_p_flags (set_flag (p_flags p) WGPEER_HAS_PRESHARED_KEY) p else p)))
  | None => mret (false, ctx)
  end end end end end.

(** [process_line(ctx, line)] *)
Definition process_line (patience : nat) (ctx : config_ctx) (line : bytes) : M (bool * config_ctx) :=
  if strcasecmp_eq line (str "[Interface]") then
    mret (true, {| device := device ctx; ctx_last_peer := ctx_last_peer ctx;
                   ctx_last_allowedip := ctx_last_allowedip ctx;
                   is_peer_section := false; is_device_section := true |})
  else if strcasecmp_eq line (str "[Peer]") then
    new_peer ← alloc;
    if negb new_peer then mret (false, ctx)
    else match device ctx with
    | None => undefined
    | Some d =>
        let p := set_p_flags (set_flag (p_flags wgpeer_zero) WGPEER_REPLACE_ALLOWEDIPS) wgpeer_zero in
        mret (true, {| device := Some (set_peers (link_after (peers d) (ctx_last_peer ctx) p) d);
                       ctx_last_peer := Some (next_pos (ctx_last_peer ctx));
                       ctx_last_allowedip := None;
                       is_peer_section := true; is_device_section := false |})
    end
  else if is_device_section ctx then
    match device ctx with
    | None => undefined
    | Some d => process_device_line ctx d line
    end
  else if is_peer_section ctx then process_peer_line patience ctx line
  else mret (false, ctx).

(** The copy of a line up to its comment, without white space. *)
Definition clean_line (input : bytes) : bytes :=
  let len := match index_of (Z.eqb COMMENT_CHAR) input with Some i => i | None => length input end in
  filter (λ c, negb (char_is_space (char_val c))) (take len input).

(** [config_read_line(ctx, input)]; a failure frees the device. *)
Definition config_read_line (patience : nat) (ctx : config_ctx) (input : bytes) : M (bool * config_ctx) :=
  line ← alloc;
  r ← (if negb line then mret (false, ctx)
       else
         let cleaned := clean_line input in
         if Nat.eqb (length cleaned) 0 then mret (true, ctx)
         else process_line patience ctx cleaned);
  let '(ret, ctx) := r in
  if (ret : bool) then mret (true, ctx)
  else match device ctx with
  | None => undefined
  | Some _ => mret (false, ctx_with_device None ctx)
  end.

(** [config_read_init(ctx, append)] *)
Definition config_read_init (append : bool) : M (bool * config_ctx) :=
  d ← alloc;
  let ctx dev := {| device := dev; ctx_last_peer := None; ctx_last_allowedip := None;
                    is_peer_section := false; is_device_section := false |} in
  if negb d then mret (false, ctx None)
  else
    let fl := if append then 0
              else WGDEVICE_REPLACE_PEERS .| WGDEVICE_HAS_PRIVATE_KEY .| WGDEVICE_HAS_FWMARK .| WGDEVICE_HAS_LISTEN_PORT in
    mret (true, ctx (Some (set_flags fl wgdevice_zero))).

(** [config_read_finish(ctx)]: the device, or NULL when a peer has no key. *)
Definition config_read_finish (ctx : config_ctx) : M (option wgdevice) :=
  match device ctx with
  | None => undefined
  | Some d =>
      if forallb (λ p, has_flag (p_flags p) WGPEER_HAS_PUBLIC_KEY) (peers d)
      then mret (Some d) else mret None
  end.

(** The calls [setconf_main] makes: read every line, then finish. *)
Fixpoint config_read_lines (patience : nat) (ctx : config_ctx) (lines : list bytes) : M (bool * config_ctx) :=
  match lines with
  | [] => mret (true, ctx)
  | l :: lines' =>
      r ← config_read_line patience ctx l;
      let '(ok, ctx) := r in
      if (ok : bool) then config_read_lines patience ctx lines' else mret (false, ctx)
  end.

(** ** The command-line parser *)

(** [strip_spaces(in)] *)
Definition strip_spaces (input : bytes) : M (option bytes) :=
  out ← alloc;
  if negb out then mret None
  else mret (Some (filter (λ c, negb (char_is_space (char_val c))) input)).

(** The loop of [config_read_cmd]; [None] is the [error] label. *)
Fixpoint config_read_cmd_loop (patience : nat) (d : wgdevice) (cur : option nat) (last : option nat)
    (argv : list bytes) : M (option wgdevice) :=
  match argv with
  | [] => mret (Some d)
  | arg :: rest =>
      (** The options that take a value need [argc >= 2]. *)
      match rest with
      | value :: rest' =>
        if strcmp_eq arg (str "listen-port") && negb (bool_decide (is_Some cur)) then
          let '(ok, port, fl) := parse_port (listen_port d) (flags d) value in
          if negb ok then mret None
          else config_read_cmd_loop patience (set_flags fl (set_listen_port port d)) cur last rest'
        else if strcmp_eq arg (str "fwmark") && negb (bool_decide (is_Some cur)) then
          let '(ok, mark, fl) := parse_fwmark (fwmark d) (flags d) value in
          if negb ok then mret None
          else config_read_cmd_loop patience (set_flags fl (set_fwmark mark d)) cur last rest'
        else if strcmp_eq arg (str "private-key") && negb (bool_decide (is_Some cur)) then
          let '(ok, key) := parse_keyfile (private_key d) value in
          if negb ok then mret None
          else
            let d := set_private_key key d in
            config_read_cmd_loop patience (set_flags (set_flag (flags d) WGDEVICE_HAS_PRIVATE_KEY) d) cur last rest'
        else if strcmp_eq arg (str "peer") then
          new_peer ← alloc;
          if negb new_peer then mret None
          else
            let '(ok, key) := parse_key (p_public_key wgpeer_zero) value in
            let p := set_p_public_key key wgpeer_zero in
            if negb ok then mret None
            else
              let p := set_p_flags (set_flag (p_flags p) WGPEER_HAS_PUBLIC_KEY) p in
              config_read_cmd_loop patience (set_peers (link_after (peers d) cur p) d)
                (Some (next_pos cur)) None rest'
        else match cur with
        | None => mret None
        | Some i =>
          match peers d !! i with
          | None => undefined
          | Some p =>
            let put p := update_peer i (λ _, p) d in
            if strcmp_eq arg (str "remove") then
              config_read_cmd_loop patience (put (set_p_flags (set_flag (p_flags p) WGPEER_REMOVE_ME) p)) cur last rest
            else if strcmp_eq arg (str "endpoint") then
              r ← parse_endpoint patience (endpoint p) value;
              let '(ok, ep) := r in
              if negb ok then mret None
              else config_read_cmd_loop patience (put (set_endpoint ep p)) cur last rest'
            else if strcmp_eq arg (str "allowed-ips") then
              line ← strip_spaces value;
              match line with
              | None => mret None
              | Some line =>
                  r ← parse_allowedips p last line;
                  let '(ok, p, last) := r in
                  if negb ok then mret None
                  else config_read_cmd_loop patience (put p) cur last rest'
              end
            else if strcmp_eq arg (str "persistent-keepalive") then
              let '(ok, ka, fl) := parse_persistent_keepalive (persistent_keepalive_interval p) (p_flags p) value in
              if negb ok then mret None
              else config_read_cmd_loop patience (put (set_p_flags fl (set_keepalive ka p))) cur last rest'
            else if strcmp_eq arg (str "preshared-key") then
              let '(ok, key) := parse_keyfile (preshared_key p) value in
              if negb ok then mret None
              else
                let p := set_preshared_key key p in
                config_read_cmd_loop patience
                  (put (set_p_flags (set_flag (p_flags p) WGPEER_HAS_PRESHARED_KEY) p)) cur last rest'
            else mret None
          end
        end
      | [] =>
        match cur with
        | None => mret None
        | Some i =>
            if strcmp_eq arg (str "remove") then
              match peers d !! i with
              | None => undefined
              | Some p =>
                  mret (Some (update_peer i (λ _, set_p_flags (set_flag (p_flags p) WGPEER_REMOVE_ME) p) d))
              end
            else mret None
        end
      end
  end.

(** [config_read_cmd(argv, argc)] *)
Definition config_read_cmd (patience : nat) (argv : list bytes) : M (option wgdevice) :=
  dev ← alloc;
  if negb dev then mret None
  else config_read_cmd_loop patience wgdevice_zero None None argv.
End Parsers.
