(* ===== verification/NetLibModel.v ===== *)
(** * NetLibModel: a concrete libc, for which the laws of [NetLib] hold

    [NetLib] leaves the name service and the address conversions of libc
    open.  This file gives one implementation, numeric addresses only and IPv6
    text without [::] compression, and proves [NetLibLaws] of it: the laws are
    satisfiable, and every theorem that assumes them can be evaluated. *)

From Stdlib Require Import Ascii String.
From stdpp Require Import base numbers option sets list list_numbers strings.
From S2P Require Import Prelude CLib Ctype Encoding Containers.

(** Text joined with a delimiter. *)
Definition join (c : Z) (l : list bytes) : bytes :=
  match l with
  | [] => []
  | t :: ts => t ++ flat_map (λ t, c :: t) ts
  end.

(** A canonical numeral in range. *)
Definition field (base max : Z) (t : bytes) : option Z :=
  match numeral base t with
  | Some n => if (n <=? max) && bool_decide (print_base base n = t) then Some n else None
  | None => None
  end.

Definition fields (base max c : Z) (k : nat) (s : bytes) : option (list Z) :=
  let toks := strsep_all s c in
  if Nat.eqb (length toks) k then mapM (field base max) toks else None.

Definition groups_to_bytes (gs : list Z) : bytes := flat_map (λ g, [g / 256; g mod 256]) gs.
Fixpoint bytes_to_groups (b : bytes) : list Z :=
  match b with
  | x :: y :: b' => x * 256 + y :: bytes_to_groups b'
  | _ => []
  end.

Definition pton (fam : Z) (s : bytes) : option bytes :=
  if fam =? AF_INET then fields 10 255 (ch ".") 4 s
  else if fam =? AF_INET6 then groups_to_bytes <$> fields 16 65535 (ch ":") 8 s
  else None.

Definition ntop (fam : Z) (b : bytes) : option bytes :=
  if fam =? AF_INET then Some (join (ch ".") (printf_u <$> b))
  else if fam =? AF_INET6 then Some (join (ch ":") (printf_x <$> bytes_to_groups b))
  else None.

Definition gai (node : option bytes) (service : bytes) (n : nat) : gai_result :=
  match numeral 10 service with
  | Some port =>
      if 65535 <? port then GaiError EAI_OTHER
      else
        let sa fam addr := {| sa_family := fam; sin_port := port; sin_addr := addr; sin6_extra := [] |} in
        let ok fam len addr := GaiOk {| ai_family := fam; ai_addrlen := len; ai_addr := sa fam addr |} in
        match node with
        | None => ok AF_INET SIZEOF_SOCKADDR_IN (replicate 4 0)
        | Some host =>
            match pton AF_INET host with
            | Some b => ok AF_INET SIZEOF_SOCKADDR_IN b
            | None => match pton AF_INET6 host with
                      | Some b => ok AF_INET6 SIZEOF_SOCKADDR_IN6 b
                      | None => GaiError EAI_NONAME
                      end
            end
        end
  | None => GaiError EAI_NONAME
  end.

Definition gni (sa : sockaddr) : option (bytes * bytes) :=
  match ntop (sa_family sa) (sin_addr sa) with
  | Some host => Some (host, printf_u (sin_port sa))
  | None => None
  end.

#[export] Instance net0 : NetLib := {|
  inet_pton := pton; inet_ntop := ntop; getaddrinfo := gai; getnameinfo := gni;
  getenv := λ _, None; fopen := λ _, None |}.

(** ** The laws *)

Lemma field_range base max t n : 0 <= base → field base max t = Some n → 0 <= n <= max.
Proof.
  intros Hb. unfold field. destruct (numeral base t) as [m|] eqn:E; [|done]. apply numeral_nonneg in E; [|done].
  destruct (Z.leb_spec m max); [|done]. cbn. case_bool_decide; [|done]. intros [= <-]. lia.
Qed.

Lemma fields_spec base max c k s l :
  0 <= base → fields base max c k s = Some l → length l = k ∧ Forall (λ n, 0 <= n <= max) l.
Proof.
  intros Hb. unfold fields. destruct (Nat.eqb_spec (length (strsep_all s c)) k) as [Hk|]; [|done].
  intros Hm%mapM_Some. split; [rewrite <- Hk; symmetry; by eapply Forall2_length|].
  eapply Forall2_Forall_r; [exact Hm|]. apply List.Forall_forall. intros t _ n Hn. by eapply field_range.
Qed.

Lemma field_print base max n : 2 <= base <= 16 → 0 <= n <= max → field base max (print_base base n) = Some n.
Proof.
  intros Hb Hn. unfold field. rewrite numeral_print by lia.
  rewrite (proj2 (Z.leb_le n max)), bool_decide_eq_true_2 by (done || lia). done.
Qed.

Lemma fields_join base max c k l :
  2 <= base <= 16 → ¬ (48 <= c <= 57 ∨ 97 <= c <= 102) → length l = S k → Forall (λ n, 0 <= n <= max) l →
  fields base max c (S k) (join c (print_base base <$> l)) = Some l.
Proof.
  intros Hb Hc Hl Hf. unfold fields. destruct l as [|x l]; [done|]. csimpl.
  assert (Htok : Forall (λ t, c ∉ t) (print_base base x :: (print_base base <$> l))).
  { change (Forall (λ t, c ∉ t) (print_base base <$> (x :: l))). apply Forall_fmap.
    eapply Forall_impl; [exact Hf|]. intros n Hn Hin. simpl in *.
    pose proof (print_base_chars base n ltac:(lia) ltac:(lia)) as Hp. rewrite Forall_forall in Hp.
    apply Hp in Hin. lia. }
  rewrite strsep_all_tokens by done. simpl in Hl. cbn [length]. rewrite length_fmap.
  replace (S (length l) =? S k)%nat with true by (symmetry; apply Nat.eqb_eq; lia).
  change (print_base base x :: (print_base base <$> l)) with (print_base base <$> (x :: l)).
  apply mapM_Some, Forall2_fmap_l, Forall_Forall2_diag.
  eapply Forall_impl; [exact Hf|]. intros n Hn. simpl in *. by apply field_print.
Qed.

Lemma join_chars (P : Z → Prop) c l :
  P c → Forall (Forall P) l → Forall P (join c l).
Proof.
  intros Hc Hl. destruct Hl as [|t ts Ht Hts]; simpl; [done|]. apply Forall_app. split; [done|].
  induction Hts as [|u us Hu Hus IH]; simpl; [done|]. constructor; [done|]. apply Forall_app. auto.
Qed.

Lemma all_bytes_Forall l : all_bytes l = true ↔ Forall (λ n, 0 <= n <= 255) l.
Proof.
  unfold all_bytes. rewrite forallb_Forall_true. split; intros H; (eapply Forall_impl; [exact H|]);
    intros x Hx; simpl in *; [apply is_byte_spec in Hx|apply is_byte_spec]; lia.
Qed.

Lemma groups_bytes_id gs :
  Forall (λ g, 0 <= g <= 65535) gs → all_bytes (groups_to_bytes gs) = true.
Proof.
  intros H. apply all_bytes_Forall. induction H as [|g gs Hg Hgs IH]; simpl; [done|].
  repeat constructor; try bit_lia. exact IH.
Qed.

Lemma bytes_to_groups_spec b k :
  length b = (2 * k)%nat → all_bytes b = true →
  length (bytes_to_groups b) = k ∧ Forall (λ g, 0 <= g <= 65535) (bytes_to_groups b) ∧
  groups_to_bytes (bytes_to_groups b) = b.
Proof.
  revert b. induction k as [|k IH]; intros b Hl Hb.
  { by destruct b. }
  destruct b as [|x [|y b]]; simpl in Hl; try lia.
  unfold all_bytes in Hb. simpl in Hb. rewrite !andb_true_iff, !is_byte_spec in Hb.
  destruct (IH b) as (Hlen & Hf & Hid); [lia|tauto|]. simpl. split_and!.
  - lia.
  - constructor; [lia|done].
  - rewrite Hid. repeat f_equal; bit_lia.
Qed.

Lemma ntop4 b :
  length b = 4%nat → all_bytes b = true →
  ∃ s, ntop AF_INET b = Some s ∧ pton AF_INET s = Some b ∧ host_text AF_INET s.
Proof.
  intros Hl Hb. apply all_bytes_Forall in Hb. exists (join (ch ".") (printf_u <$> b)).
  assert (Hdig : Forall (Forall (λ c, 48 <= c <= 57 ∨ c = ch ".")) (printf_u <$> b)).
  { apply Forall_fmap. eapply Forall_impl; [exact Hb|]. intros n Hn. simpl in *.
    eapply Forall_impl; [apply printf_u_digits; lia|]. auto. }
  assert (Hch : Forall (λ c, 48 <= c <= 57 ∨ c = ch ".") (join (ch ".") (printf_u <$> b)))
    by (apply join_chars; auto).
  split_and!; [done|apply fields_join; [lia|ch_norm; lia|done|done]|].
  split_and!.
  - destruct b as [|x b]; [done|]. csimpl. apply Forall_cons in Hb as [Hx _].
    pose proof (print_base_nonempty 10 x ltac:(lia) ltac:(lia)).
    unfold printf_u. by destruct (print_base 10 x).
  - eapply Forall_impl; [exact Hch|]. simpl. intros c Hc. destruct_or! Hc; auto.
  - split; [|done]. intros Hin. rewrite Forall_forall in Hch. apply Hch in Hin. ch_norm. lia.
Qed.

Lemma ntop6 b :
  length b = 16%nat → all_bytes b = true →
  ∃ s, ntop AF_INET6 b = Some s ∧ pton AF_INET6 s = Some b ∧ host_text AF_INET6 s ∧ pton AF_INET s = None.
Proof.
  intros Hl Hb. destruct (bytes_to_groups_spec b 8 Hl Hb) as (Hgl & Hgf & Hid).
  set (s := join (ch ":") (printf_x <$> bytes_to_groups b)). exists s.
  assert (Hhex : Forall (λ c, (48 <= c <= 57 ∨ 97 <= c <= 102) ∨ c = ch ":") s).
  { apply join_chars; [auto|]. apply Forall_fmap. eapply Forall_impl; [exact Hgf|]. intros n Hn. simpl in *.
    eapply Forall_impl; [apply print_base_chars; lia|]. simpl. intros c Hc. lia. }
  split_and!; [done| | |].
  - apply fmap_Some. exists (bytes_to_groups b). split; [|done].
    apply fields_join; [lia|ch_norm; lia|done|done].
  - assert (Hcolon : ch ":" ∈ s).
    { unfold s. destruct (bytes_to_groups b) as [|g [|g' gs]]; [done..|]. csimpl.
      apply elem_of_app. right. by left. }
    split_and!; [by intros He; rewrite He in Hcolon; apply not_elem_of_nil in Hcolon| |done].
    eapply Forall_impl; [exact Hhex|]. simpl. intros c Hc. destruct_or! Hc; auto.
  - change (fields 10 255 (ch ".") 4 s = None). unfold fields.
    pose proof (strsep_all_tokens s [] (ch ".")) as Ht. simpl in Ht. rewrite app_nil_r in Ht.
    rewrite Ht; [done|]. apply Forall_singleton. intros Hin. rewrite Forall_forall in Hhex.
    apply Hhex in Hin. ch_norm. lia.
Qed.

Lemma gai_numeric host port n :
  0 <= port < 65536 →
  gai (Some host) (printf_u port) n =
  match pton AF_INET host with
  | Some b => GaiOk {| ai_family := AF_INET; ai_addrlen := SIZEOF_SOCKADDR_IN;
      ai_addr := {| sa_family := AF_INET; sin_port := port; sin_addr := b; sin6_extra := [] |} |}
  | None => match pton AF_INET6 host with
    | Some b => GaiOk {| ai_family := AF_INET6; ai_addrlen := SIZEOF_SOCKADDR_IN6;
        ai_addr := {| sa_family := AF_INET6; sin_port := port; sin_addr := b; sin6_extra := [] |} |}
    | None => GaiError EAI_NONAME
    end
  end.
Proof.
  intros Hp. unfold gai, printf_u. rewrite numeral_print by lia. by rewrite (proj2 (Z.ltb_ge 65535 port)) by lia.
Qed.

#[export] Instance net0_laws : NetLibLaws net0.
Proof.
  constructor; simpl.
  - intros s b Hs. apply fields_spec in Hs as [? ?%all_bytes_Forall]; [done|lia].
  - intros s b (gs & Hgs & ->)%fmap_Some. apply fields_spec in Hgs as [Hl Hf]; [|lia]. split.
    + do 8 (destruct gs as [|? gs]; [done|]). by destruct gs.
    + by apply groups_bytes_id.
  - apply ntop4.
  - intros b Hl Hb. destruct (ntop6 b Hl Hb) as (s & ? & ? & ? & _). eauto.
  - intros node service n r. unfold gai. destruct (numeral 10 service) as [port|] eqn:E; [|done].
    apply numeral_nonneg in E; [|lia]. destruct (Z.ltb_spec 65535 port); [done|].
    destruct node as [host|].
    + destruct (pton AF_INET host); [intros [= <-]; simpl; lia|].
      destruct (pton AF_INET6 host); [intros [= <-]; simpl; lia|done].
    + intros [= <-]. simpl. lia.
  - intros port n Hp. eexists. unfold gai, printf_u. rewrite numeral_print by lia.
    rewrite (proj2 (Z.ltb_ge 65535 port)) by lia. split_and!; [done|done|]. by left.
  - intros [fam port addr extra] ([[Hf Hl]|[Hf Hl]] & Hb & Hp & He);
      cbn [sa_family sin_port sin_addr sin6_extra] in *; subst fam extra;
      unfold gni; cbn [sa_family sin_port sin_addr].
    + destruct (ntop4 addr Hl Hb) as (s & Hs & Hpt & Hh). exists s. rewrite Hs. split_and!; [done|done|].
      intros n. rewrite gai_numeric, Hpt by done. eauto.
    + destruct (ntop6 addr Hl Hb) as (s & Hs & Hpt & Hh & Hn4). exists s. rewrite Hs. split_and!; [done|done|].
      intros n. rewrite gai_numeric, Hn4, Hpt by done. eauto.
  - done.
Qed.

(** The same library with one file in the file system. *)
Definition with_file (path data : bytes) : NetLib := {|
  inet_pton := pton; inet_ntop := ntop; getaddrinfo := gai; getnameinfo := gni;
  getenv := λ _, None;
  fopen := λ p, if bool_decide (p = path) then Some {| f_data := data; f_error := false |} else None |}.

Lemma with_file_laws path data : all_bytes data = true → NetLibLaws (with_file path data).
Proof.
  intros Hd. constructor; try apply net0_laws. intros p f. simpl. case_bool_decide; [|done]. by intros [= <-].
Qed.
