(* ===== verification/ConfigFacts.v ===== *)
(** * ConfigFacts: the value parsers and the file parser are safe and correct

    The range and functional theorems of the value parsers of config.c, the
    invariant of [config_ctx] with its preservation by [config_read_line], and
    what the two parsers promise of the device they return. *)

From Stdlib Require Import Ascii String.
From stdpp Require Import base numbers option sets list list_numbers strings.
From S2P Require Import Prelude CLib Ctype Encoding Containers Config.
#[local] Open Scope c_scope.

Section Facts.
Context {plat : Platform} {net : NetLib} {laws : NetLibLaws net}.

(** ** Value parsers keep their objects in range *)

Lemma parse_key_ok key value ok key' :
  key_ok key = true → all_bytes value = true → parse_key key value = (ok, key') → key_ok key' = true.
Proof.
  intros [Hl Hb]%key_ok_spec Hv. unfold parse_key.
  destruct (key_from_base64 key value) as [[|] k] eqn:E; intros [= <- <-]; [|done].
  pose proof (key_from_base64_key key value Hl ltac:(by rewrite E)) as Hk. rewrite E in Hk. simpl in Hk.
  subst k. apply decoded_key_ok.
Qed.

Lemma parse_port_ok port fl value ok port' fl' :
  0 <= port < 65536 → parse_port port fl value = (ok, port', fl') →
  0 <= port' < 65536 ∧ has_flag fl' WGDEVICE_REPLACE_PEERS = has_flag fl WGDEVICE_REPLACE_PEERS.
Proof.
  intros Hp. unfold parse_port. destruct (Nat.eqb _ 0); [by intros [= <- <- <-]|].
  destruct (getaddrinfo None value 0) as [r|] eqn:E; [|by intros [= <- <- <-]].
  apply gai_addr in E as [_ ?]. case_match; intros [= <- <- <-]; [|done].
  split; [done|]. by rewrite has_flag_set, orb_false_r.
Qed.

Lemma parse_fwmark_ok mark fl value ok mark' fl' :
  0 <= mark < 2 ^ 32 → parse_fwmark mark fl value = (ok, mark', fl') →
  0 <= mark' < 2 ^ 32 ∧ has_flag fl' WGDEVICE_REPLACE_PEERS = has_flag fl WGDEVICE_REPLACE_PEERS.
Proof.
  intros Hm. unfold parse_fwmark. repeat case_match; intros [= <- <- <-]; try done.
  all: split; [first [apply u32_range | lia]|]; by rewrite has_flag_set, orb_false_r.
Qed.

Lemma parse_keepalive_ok ka fl value ok ka' fl' :
  0 <= ka < 65536 → parse_persistent_keepalive ka fl value = (ok, ka', fl') →
  0 <= ka' < 65536 ∧ has_flag fl' WGPEER_REMOVE_ME = has_flag fl WGPEER_REMOVE_ME ∧
  has_flag fl' WGPEER_HAS_PUBLIC_KEY = has_flag fl WGPEER_HAS_PUBLIC_KEY.
Proof.
  intros Hm. unfold parse_persistent_keepalive.
  repeat case_match; intros [= <- <- <-]; (split; [first [done | lia | apply u16_range]|]);
    try done; by rewrite !has_flag_set, !orb_false_r.
Qed.

Lemma store_ip_ok b a :
  length (ip a) = 16%nat → all_bytes (ip a) = true → (length b <= 16)%nat → all_bytes b = true →
  length (ip (store_ip b a)) = 16%nat ∧ all_bytes (ip (store_ip b a)) = true.
Proof.
  intros Hl Ha Hb Hbb. simpl. rewrite length_app, length_drop, all_bytes_app, Hbb. split; [lia|]. simpl.
  apply forallb_forall. intros x Hx. unfold all_bytes in Ha. rewrite forallb_forall in Ha.
  apply Ha. apply list_elem_of_In, (subseteq_drop (length b)), list_elem_of_In, Hx.
Qed.

(** What [parse_ip] leaves in a zeroed entry when it succeeds. *)
Lemma parse_ip_ok value a :
  parse_ip wgallowedip_zero value = (true, a) →
  length (ip a) = 16%nat ∧ all_bytes (ip a) = true ∧ cidr a = 0 ∧ ai_flags a = 0 ∧
  (family a = AF_INET ∨ family a = AF_INET6).
Proof.
  unfold parse_ip. intros H.
  destruct (has_char value (ch ":")).
  - destruct (inet_pton AF_INET6 value) as [b|] eqn:E; [|by simplify_eq/=].
    apply inet_pton_len6 in E as [Hl Hb].
    destruct (store_ip_ok b (set_family AF_UNSPEC wgallowedip_zero)) as [??]; [done..|lia|done|].
    simplify_eq/=. split_and!; auto.
  - destruct (inet_pton AF_INET value) as [b|] eqn:E; [|by simplify_eq/=].
    apply inet_pton_len4 in E as [Hl Hb].
    destruct (store_ip_ok b (set_family AF_UNSPEC wgallowedip_zero)) as [??]; [done..|lia|done|].
    simplify_eq/=. split_and!; auto.
Qed.

Lemma strtou_range max base s v r : 0 <= max → 2 <= base → strtou max base s = (v, r) → 0 <= v <= max.
Proof.
  intros Hm Hbase. unfold strtou. destruct (strto_parse base s) as [[[neg x] rest]|] eqn:E; [|intros [= <- <-]; lia].
  intros [= <- <-]. destruct (Z.ltb_spec max x); [lia|]. destruct neg.
  - pose proof (Z.mod_pos_bound (- x) (max + 1) ltac:(lia)). lia.
  - unfold strto_parse in E. destruct (skip_sign _) as [ng s1].
    destruct (span_digits base (skip_0x base s1)) as [ds rest'] eqn:Es. destruct ds as [|d ds]; [done|].
    simplify_eq. split; [|done]. apply digits_value_nonneg; [lia|].
    clear -Es. revert Es. generalize (skip_0x base s1) as s'. generalize (d :: ds) as l.
    intros l s'. revert l. induction s' as [|c s' IH]; intros l; simpl.
    { by intros [= <- <-]. }
    destruct (base_digit base c) as [e|] eqn:Ee; [|by intros [= <- <-]].
    destruct (span_digits base s') as [es r]. intros [= <- <-]. constructor; [|by eapply IH].
    unfold base_digit, digit_val in Ee. repeat case_match; simplify_eq; lia.
Qed.

Lemma strtoul_range base s v r : 2 <= base → strtoul base s = (v, r) → 0 <= v <= ULONG_MAX.
Proof. apply strtou_range. pose proof ULONG_MAX_ge. unfold UINT32_MAX in *. lia. Qed.

Lemma parse_cidr_ok a mask c :
  (family a = AF_INET ∨ family a = AF_INET6) → parse_cidr a mask = Some c →
  (family a = AF_INET ∧ 0 <= c <= 32) ∨ (family a = AF_INET6 ∧ 0 <= c <= 128).
Proof.
  intros Hf. unfold parse_cidr. destruct mask as [m|].
  - destruct (negb _); [done|]. destruct (strtoul 10 m) as [v r] eqn:E.
    apply strtoul_range in E; [|lia]. destruct Hf as [-> | ->]; cbn;
      destruct (Z.ltb_spec 32 v), (Z.ltb_spec 128 v), (is_end r); cbn; intros [= <-]; auto with lia.
  - destruct Hf as [-> | ->]; cbn; intros [= <-]; auto with lia.
Qed.

(** The peer is asked to be removed: never so in a configuration file. *)
Definition removing (p : wgpeer) : bool := has_flag (p_flags p) WGPEER_REMOVE_ME.
(** The peer has been given its key. *)
Definition keyed (p : wgpeer) : bool := has_flag (p_flags p) WGPEER_HAS_PUBLIC_KEY.
Definition same_marks (p q : wgpeer) : Prop := removing q = removing p ∧ keyed q = keyed p.

(** Setting any other flag of a peer does not ask for its removal. *)
Lemma removing_set p bit :
  has_flag bit WGPEER_REMOVE_ME = false → removing (set_p_flags (set_flag (p_flags p) bit) p) = removing p.
Proof. intros Hb. unfold removing. simpl. by rewrite has_flag_set, Hb, orb_false_r. Qed.

Lemma keyed_set p bit :
  has_flag bit WGPEER_HAS_PUBLIC_KEY = false → keyed (set_p_flags (set_flag (p_flags p) bit) p) = keyed p.
Proof. intros Hb. unfold keyed. simpl. by rewrite has_flag_set, Hb, orb_false_r. Qed.

(** ** [parse_allowedips] *)

Lemma parse_ip_prefix_spec p fl mask p' fl' mask' :
  parse_ip_prefix p fl mask = (p', fl', mask') →
  allowedips p' = allowedips p ∧ (peer_ok p → peer_ok p') ∧ same_marks p p' ∧
  (fl' = fl ∨ fl' = set_flag fl WGALLOWEDIP_REMOVE_ME).
Proof.
  unfold parse_ip_prefix. repeat case_match; intros [= <- <- <-]; split_and!; auto;
    (split; first [done | apply has_flag_clear]).
Qed.

Lemma peer_ok_set_allowedips p l :
  peer_ok p → Forall allowedip_ok l → peer_ok (set_allowedips l p).
Proof. unfold peer_ok. simpl. naive_solver. Qed.

Lemma parse_allowedips_loop_safe tokens p last :
  peer_ok p → cursor_ok (allowedips p) last →
  safe (parse_allowedips_loop tokens p last)
    (λ '(ok, p', last'), peer_ok p' ∧ same_marks p p' ∧ (ok = true → cursor_ok (allowedips p') last')).
Proof.
  revert p last. induction tokens as [|tok tokens IH]; intros p last Hp Hc; simpl.
  { by apply safe_ret. }
  destruct (parse_ip_prefix p 0 tok) as [[p1 fl] mask] eqn:Epre.
  apply parse_ip_prefix_spec in Epre as (Hips & Hok & Hrm & Hfl). specialize (Hok Hp).
  unfold same_marks. destruct Hrm as [<- <-].
  safe_alloc saved. destruct saved; [|by apply safe_ret]. simpl.
  destruct (strsep mask (ch "/")) as [ipstr mask'].
  safe_alloc new. destruct new; [|by apply safe_ret]. simpl.
  destruct (parse_ip wgallowedip_zero ipstr) as [ok a] eqn:Eip.
  destruct ok; [|by apply safe_ret]. simpl. apply parse_ip_ok in Eip as (Hl & Hb & _ & _ & Hf).
  destruct (parse_cidr a mask') as [c|] eqn:Ec; [|by apply safe_ret].
  apply parse_cidr_ok in Ec; [|done]. rewrite Hips, link_after_app by done.
  eapply (IH (set_allowedips _ p1)).
  - apply peer_ok_set_allowedips; [done|]. apply Forall_app. split; [apply Hp|].
    apply Forall_singleton. unfold allowedip_ok. simpl. rewrite u8_small by lia.
    split_and!; [done|done|tauto|]. destruct Hfl as [-> | ->]; auto.
  - by apply cursor_ok_next.
Qed.

Lemma parse_allowedips_safe p last value :
  peer_ok p → cursor_ok (allowedips p) last →
  safe (parse_allowedips p last value)
    (λ '(ok, p', last'), peer_ok p' ∧ same_marks p p' ∧ (ok = true → cursor_ok (allowedips p') last')).
Proof.
  intros Hp Hc. unfold parse_allowedips. safe_alloc mutable.
  destruct mutable; [|by apply safe_ret]. simpl.
  assert (Hset : same_marks p (set_p_flags (set_flag (p_flags p) WGPEER_REPLACE_ALLOWEDIPS) p)).
  { by split; [apply removing_set|apply keyed_set]. }
  destruct (Nat.eqb _ 0); [by apply safe_ret|].
  eapply safe_bind; [by apply parse_allowedips_loop_safe|].
  intros [[ok p'] last'] (Hp' & Hrm & Hc'). apply safe_ret. split; [done|]. split; [|by intros ->; auto].
  unfold same_marks. destruct Hset as [<- <-]. exact Hrm.
Qed.

(** ** [parse_endpoint] *)

Lemma resolve_loop_safe fuel host service retries n :
  safe (resolve_loop fuel host service retries n)
    (λ r, ∀ a, r = Some a → sa_family (ai_addr a) = ai_family a ∧ 0 <= sin_port (ai_addr a) < 65536).
Proof.
  revert retries n. induction fuel as [|fuel IH]; intros retries n; simpl; [apply safe_fuel|].
  destruct (getaddrinfo (Some host) service n) as [r|e] eqn:E.
  - apply safe_ret. intros a [= <-]. by eapply gai_addr.
  - case_match; [by apply safe_ret|apply IH].
Qed.

Lemma parse_dns_retries_safe : safe parse_dns_retries (λ r, -1 <= r <= INT_MAX).
Proof.
  unfold parse_dns_retries. destruct (getenv _) as [s|]; [|by apply safe_ret].
  case_match; [by apply safe_ret|]. destruct (strtoul 10 s) as [v r] eqn:E.
  apply strtoul_range in E; [|lia]. case_match eqn:Eb; [apply safe_exit|]. apply safe_ret.
  apply orb_false_iff in Eb as [_ ?%Z.ltb_ge]. lia.
Qed.

Lemma parse_endpoint_safe patience ep value :
  endpoint_ok ep → safe (parse_endpoint patience ep value) (λ '(_, ep'), endpoint_ok ep').
Proof.
  intros Hep. unfold parse_endpoint. safe_alloc mutable.
  eapply safe_bind; [apply parse_dns_retries_safe|]. intros retries _.
  destruct mutable; [|by apply safe_ret]. simpl. destruct (Nat.eqb _ 0); [by apply safe_ret|].
  destruct (split_endpoint value) as [[host service]|]; [|by apply safe_ret].
  eapply safe_bind; [apply resolve_loop_safe|]. intros [r|] Hr; [|by apply safe_ret].
  destruct (Hr r eq_refl) as [Hf Hport]. case_match eqn:E; apply safe_ret; [|done].
  unfold endpoint_ok. rewrite Hf. split; [|done].
  unfold addrinfo_is in E. apply orb_true_iff in E as [E|E];
    apply andb_true_iff in E as [->%Z.eqb_eq _]; auto.
Qed.

(** ** The invariant of [config_ctx]

    [rep] is whether the parser was started to replace the peers ([setconf]) or
    to add to them ([addconf]); no line changes it. *)

Section Ctx.
Variable rep : bool.

Record config_ctx_ok (ctx : config_ctx) (d : wgdevice) : Prop := {
  ctx_device : device ctx = Some d;
  ctx_device_ok : device_ok d;
  ctx_peer_cursor : cursor_ok (peers d) (ctx_last_peer ctx);
  ctx_peer_section : is_peer_section ctx = true → is_Some (ctx_last_peer ctx);
  ctx_ip_cursor : ∀ i p, ctx_last_peer ctx = Some i → peers d !! i = Some p →
                         cursor_ok (allowedips p) (ctx_last_allowedip ctx);
  ctx_no_removal : Forall (λ p, removing p = false) (peers d);
  ctx_replace : has_flag (flags d) WGDEVICE_REPLACE_PEERS = rep;
}.

(** The result of a parser step: the invariant, or a device still to be freed. *)
Definition step_ok (r : bool * config_ctx) : Prop :=
  if r.1 then ∃ d, config_ctx_ok r.2 d else is_Some (device r.2).

Lemma device_ok_peer d i p : device_ok d → peers d !! i = Some p → peer_ok p.
Proof. intros (_ & _ & _ & _ & Hps) Hi. by eapply Forall_lookup_1. Qed.

Lemma device_ok_update d i p :
  device_ok d → peer_ok p → device_ok (update_peer i (λ _, p) d).
Proof.
  intros (?&?&?&?&Hps) Hp. unfold device_ok, update_peer. simpl. split_and!; try done; try lia.
  apply Forall_alter; [done|]. done.
Qed.

(** Replacing the current peer keeps the invariant when its list of addresses does. *)
Lemma config_ctx_ok_update ctx d i p q last :
  config_ctx_ok ctx d → ctx_last_peer ctx = Some i → peers d !! i = Some p → peer_ok q →
  removing q = removing p → cursor_ok (allowedips q) last →
  config_ctx_ok {| device := Some (update_peer i (λ _, q) d); ctx_last_peer := ctx_last_peer ctx;
                   ctx_last_allowedip := last; is_peer_section := is_peer_section ctx;
                   is_device_section := is_device_section ctx |} (update_peer i (λ _, q) d).
Proof.
  intros [Hd Hdok Hpc Hps Hic Hrm Hrep] Hlp Hi Hq Hrq Hlast. split; simpl; try done.
  - by apply device_ok_update.
  - by apply cursor_ok_alter.
  - intros j p' Hj Hp'. rewrite Hlp in Hj. simplify_eq.
    rewrite list_lookup_alter_eq, Hi in Hp'. by simplify_eq/=.
  - apply Forall_alter; [done|]. intros p' Hp' _. simplify_eq. rewrite Hrq. by eapply Forall_lookup_1 in Hrm.
Qed.

Lemma all_bytes_sub l k : k ⊆ l → all_bytes l = true → all_bytes k = true.
Proof.
  unfold all_bytes. rewrite !forallb_forall. intros Hs H x Hx.
  apply H, list_elem_of_In, Hs, list_elem_of_In, Hx.
Qed.

Lemma get_value_bytes line key value :
  all_bytes line = true → get_value line key = Some value → all_bytes value = true.
Proof.
  unfold get_value. repeat case_match; try done. intros Hl [= <-].
  eapply all_bytes_sub; [apply subseteq_drop|done].
Qed.

Lemma clean_line_bytes input : all_bytes input = true → all_bytes (clean_line input) = true.
Proof.
  apply all_bytes_sub. unfold clean_line. intros x Hx. apply list_elem_of_filter in Hx as [_ Hx].
  by eapply subseteq_take.
Qed.

(** A peer-section store that leaves the allowed addresses alone. *)
Lemma with_last_peer_safe {A} ctx d (k : wgdevice → nat → wgpeer → M A) Q :
  config_ctx_ok ctx d → is_peer_section ctx = true →
  (∀ i p, ctx_last_peer ctx = Some i → peers d !! i = Some p → peer_ok p →
          cursor_ok (allowedips p) (ctx_last_allowedip ctx) → safe (k d i p) Q) →
  safe (with_last_peer ctx k) Q.
Proof.
  intros [Hd Hdok Hpc Hps Hic _ _] Hsec Hk. unfold with_last_peer. rewrite Hd.
  destruct (Hps Hsec) as [i Hi]. rewrite Hi. rewrite Hi in Hpc. simpl in Hpc.
  destruct (lookup_lt_is_Some_2 (peers d) i) as [p Hp]; [lia|]. rewrite Hp.
  apply Hk; eauto using device_ok_peer.
Qed.

Lemma process_device_line_safe ctx d line :
  all_bytes line = true → config_ctx_ok ctx d → safe (process_device_line ctx d line) step_ok.
Proof.
  intros Hb [Hd (Hpub & Hpriv & Hfw & Hlp & Hps) Hpc Hsec Hic Hrm Hrep]. unfold process_device_line.
  assert (Hput : ∀ (b : bool) d', device_ok d' → peers d' = peers d →
    has_flag (flags d') WGDEVICE_REPLACE_PEERS = has_flag (flags d) WGDEVICE_REPLACE_PEERS →
    step_ok (b, ctx_with_device (Some d') ctx)).
  { intros b d' Hd' Hpeers Hfl. unfold step_ok. destruct b; simpl; [|eauto].
    exists d'. split; simpl; try done; rewrite ?Hpeers, ?Hfl; done. }
  destruct (get_value line (str "ListenPort=")) as [v|].
  { destruct (parse_port _ _ v) as [[ok port] fl] eqn:E. apply parse_port_ok in E as [? ?]; [|done].
    apply safe_ret, Hput; done. }
  destruct (get_value line (str "FwMark=")) as [v|].
  { destruct (parse_fwmark _ _ v) as [[ok mark] fl] eqn:E. apply parse_fwmark_ok in E as [? ?]; [|done].
    apply safe_ret, Hput; done. }
  destruct (get_value line (str "PrivateKey=")) as [v|] eqn:Ev.
  { destruct (parse_key _ v) as [ok key] eqn:E.
    apply parse_key_ok in E; [|done|by eapply get_value_bytes].
    apply safe_ret, Hput; destruct ok; try done. simpl. by rewrite has_flag_set, orb_false_r. }
  apply safe_ret. unfold step_ok. simpl. rewrite Hd. eauto.
Qed.

Lemma process_peer_line_safe patience ctx d line :
  all_bytes line = true → config_ctx_ok ctx d → is_peer_section ctx = true →
  safe (process_peer_line patience ctx line) step_ok.
Proof.
  intros Hb Hctx Hsec. unfold process_peer_line.
  assert (Hput : ∀ (b : bool) i p q, ctx_last_peer ctx = Some i → peers d !! i = Some p → peer_ok q →
    removing q = removing p → cursor_ok (allowedips q) (ctx_last_allowedip ctx) →
    step_ok (b, ctx_with_device (Some (update_peer i (λ _, q) d)) ctx)).
  { intros b i p q Hi Hp Hq Hr Hc. unfold step_ok. destruct b; simpl; [|eauto].
    eexists. by eapply config_ctx_ok_update. }
  destruct (get_value line (str "Endpoint=")) as [v|].
  { apply (with_last_peer_safe ctx d); [done..|]. intros i p Hi Hp (?&?&Hep&?&?) Hc.
    eapply safe_bind; [by apply parse_endpoint_safe|]. intros [ok ep] Hep'. apply safe_ret.
    by eapply Hput. }
  destruct (get_value line (str "PublicKey=")) as [v|] eqn:Ev.
  { apply (with_last_peer_safe ctx d); [done..|]. intros i p Hi Hp (?&?&Hep&?&?) Hc.
    destruct (parse_key _ v) as [ok key] eqn:E. apply parse_key_ok in E; [|done|by eapply get_value_bytes].
    apply safe_ret. eapply Hput; [done..| | |]; destruct ok; try done. by apply (removing_set (set_p_public_key key p)). }
  destruct (get_value line (str "AllowedIPs=")) as [v|].
  { apply (with_last_peer_safe ctx d); [done..|]. intros i p Hi Hp Hpok Hc.
    eapply safe_bind; [by apply parse_allowedips_safe|]. intros [[ok p'] last] (Hp' & [Hr _] & Hc'). apply safe_ret.
    unfold step_ok. destruct ok; simpl; [|eauto]. eexists. eapply config_ctx_ok_update; eauto. }
  destruct (get_value line (str "PersistentKeepalive=")) as [v|].
  { apply (with_last_peer_safe ctx d); [done..|]. intros i p Hi Hp (?&?&Hep&?&?) Hc.
    destruct (parse_persistent_keepalive _ _ v) as [[ok ka] fl] eqn:E.
    apply parse_keepalive_ok in E as (Hka & Hfl & _); [|done]. apply safe_ret. by eapply Hput. }
  destruct (get_value line (str "PresharedKey=")) as [v|] eqn:Ev'.
  { apply (with_last_peer_safe ctx d); [done..|]. intros i p Hi Hp (?&?&Hep&?&?) Hc.
    destruct (parse_key _ v) as [ok key] eqn:E. apply parse_key_ok in E; [|done|by eapply get_value_bytes].
    apply safe_ret. eapply Hput; [done..| | |]; destruct ok; try done. by apply (removing_set (set_preshared_key key p)). }
  apply safe_ret. unfold step_ok. simpl. destruct Hctx as [-> _ _ _ _ _ _]. eauto.
Qed.

Lemma process_line_safe patience ctx d line :
  all_bytes line = true → config_ctx_ok ctx d → safe (process_line patience ctx line) step_ok.
Proof.
  intros Hb Hctx. unfold process_line. pose proof Hctx as [Hd Hdok Hpc Hsec Hic Hrm Hrep].
  destruct (strcasecmp_eq line (str "[Interface]")).
  { apply safe_ret. exists d. by split. }
  destruct (strcasecmp_eq line (str "[Peer]")).
  { safe_alloc new. destruct new; simpl; [|apply safe_ret; unfold step_ok; simpl; rewrite Hd; eauto].
    rewrite Hd. apply safe_ret. rewrite link_after_app by done. eexists. split; simpl; try done.
    - destruct Hdok as (?&?&?&?&?). unfold device_ok. simpl. split_and!; try done; try lia.
      apply Forall_app. split; [done|]. apply Forall_singleton, peer_ok_zero.
    - by apply cursor_ok_next.
    - intros i p [= <-]. cbn [peers set_peers device_with].
      rewrite <- (link_after_app _ (ctx_last_peer ctx)), lookup_link_after by done. by intros [= <-].
    - apply Forall_app. split; [done|]. by apply Forall_singleton. }
  destruct (is_device_section ctx).
  { rewrite Hd. by apply process_device_line_safe. }
  destruct (is_peer_section ctx) eqn:Eps.
  { by eapply process_peer_line_safe. }
  apply safe_ret. unfold step_ok. simpl. rewrite Hd. eauto.
Qed.

(** The step of the parser loop, and the whole loop. *)
Lemma config_read_line_ok patience ctx d input :
  all_bytes input = true → config_ctx_ok ctx d →
  safe (config_read_line patience ctx input)
    (λ '(ok, ctx'), if (ok : bool) then ∃ d', config_ctx_ok ctx' d' else device ctx' = None).
Proof.
  intros Hb Hctx. unfold config_read_line. safe_alloc line.
  eapply (safe_bind _ _ step_ok).
  - destruct line; simpl; [|apply safe_ret; unfold step_ok; simpl; destruct Hctx as [-> _ _ _ _ _ _]; eauto].
    destruct (Nat.eqb _ 0); [apply safe_ret; unfold step_ok; simpl; eauto|].
    eapply process_line_safe; [by apply clean_line_bytes|done].
  - intros [ok ctx'] Hst. unfold step_ok in Hst. simpl in Hst. destruct ok; [by apply safe_ret|].
    destruct Hst as [d' ->]. by apply safe_ret.
Qed.

Lemma config_read_lines_ok patience lines ctx d :
  Forall (λ l, all_bytes l = true) lines → config_ctx_ok ctx d →
  safe (config_read_lines patience ctx lines)
    (λ '(ok, ctx'), if (ok : bool) then ∃ d', config_ctx_ok ctx' d' else device ctx' = None).
Proof.
  intros Hl. revert ctx d. induction Hl as [|l lines Hb Hl IH]; intros ctx d Hctx; simpl.
  { apply safe_ret. eauto. }
  eapply safe_bind; [by eapply config_read_line_ok|].
  intros [[|] ctx'] Hc; [|by apply safe_ret]. destruct Hc as [d' Hc]. by eapply IH.
Qed.

End Ctx.

Lemma config_read_init_ok append :
  safe (config_read_init append)
    (λ '(ok, ctx), if (ok : bool) then ∃ d, config_ctx_ok (negb append) ctx d else device ctx = None).
Proof.
  unfold config_read_init. safe_alloc b. destruct b; apply safe_ret; [|done]. simpl.
  eexists. split; simpl; try done. by destruct append.
Qed.
(** ** The command line *)

Lemma parse_keyfile_ok key path ok key' :
  key_ok key = true → parse_keyfile key path = (ok, key') → key_ok key' = true.
Proof.
  intros Hk. unfold parse_keyfile. destruct (fopen path) as [f|] eqn:Ef; [|by intros [= <- <-]].
  apply fopen_bytes in Ef. repeat case_match; try (intros [= <- <-]; done).
  intros E; eapply parse_key_ok; [exact Hk| |exact E].
  eapply all_bytes_sub; [|exact Ef]. etrans; [apply cstr_sub|apply subseteq_take].
Qed.

(** The invariant of the loop: [cur] is the last peer, [last] its last address. *)
Record cmd_ok (d : wgdevice) (cur last : option nat) : Prop := {
  cmd_device_ok : device_ok d;
  cmd_cursor : cursor_ok (peers d) cur;
  cmd_ips : ∀ i p, cur = Some i → peers d !! i = Some p → cursor_ok (allowedips p) last;
  cmd_keyed : Forall (λ p, keyed p = true) (peers d);
}.

Lemma cmd_ok_update d i p q last last' :
  cmd_ok d (Some i) last → peers d !! i = Some p → peer_ok q → (keyed p = true → keyed q = true) →
  cursor_ok (allowedips q) last' → cmd_ok (update_peer i (λ _, q) d) (Some i) last'.
Proof.
  intros [Hd Hc Hi Hk] Hp Hq Hkq Hl. split; simpl.
  - by apply device_ok_update.
  - rewrite length_alter. exact Hc.
  - intros j p' [= <-]. rewrite list_lookup_alter_eq, Hp. by intros [= <-].
  - apply Forall_alter; [done|]. intros p' Hp' _. simplify_eq. apply Hkq. by eapply Forall_lookup_1 in Hk.
Qed.

Lemma cmd_ok_link d cur last q :
  cmd_ok d cur last → peer_ok q → keyed q = true → allowedips q = [] →
  cmd_ok (set_peers (link_after (peers d) cur q) d) (Some (next_pos cur)) None.
Proof.
  intros [(?&?&?&?&Hps) Hc Hi Hk] Hq Hkq Hl. split; cbn [peers set_peers device_with].
  - unfold device_ok. simpl. rewrite link_after_app by done. split_and!; try done; try lia.
    apply Forall_app. by rewrite Forall_singleton.
  - rewrite link_after_app by done. by apply cursor_ok_next.
  - intros i p [= <-]. rewrite lookup_link_after by done. by intros [= <-].
  - rewrite link_after_app by done. apply Forall_app. by rewrite Forall_singleton.
Qed.

Lemma cmd_ok_device d d' cur last :
  cmd_ok d cur last → device_ok d' → peers d' = peers d → cmd_ok d' cur last.
Proof. intros [Hd Hc Hi Hk] Hd' Hp. split; rewrite ?Hp; done. Qed.

Definition cmd_result (r : option wgdevice) : Prop :=
  ∀ d, r = Some d → device_ok d ∧ Forall (λ p, keyed p = true) (peers d).

Lemma cmd_result_None : cmd_result None.
Proof. done. Qed.
Lemma cmd_result_Some d cur last : cmd_ok d cur last → cmd_result (Some d).
Proof. intros [Hd _ _ Hk] d' [= <-]. done. Qed.
Hint Resolve cmd_result_None : safe.

(** [remove] with nothing after it. *)
Lemma cmd_ok_remove d i p last :
  cmd_ok d (Some i) last → peers d !! i = Some p →
  cmd_ok (update_peer i (λ _, set_p_flags (set_flag (p_flags p) WGPEER_REMOVE_ME) p) d) (Some i) last.
Proof.
  intros Hok Hp. pose proof Hok as [Hd _ Hi _]. eapply cmd_ok_update; eauto using device_ok_peer.
  - exact (device_ok_peer _ _ _ Hd Hp).
  - intros ?. by rewrite keyed_set.
  - exact (Hi i p eq_refl Hp).
Qed.

Lemma config_read_cmd_loop_ok patience n argv d cur last :
  (length argv <= n)%nat → Forall (λ a, all_bytes a = true) argv → cmd_ok d cur last →
  safe (config_read_cmd_loop patience d cur last argv) cmd_result.
Proof.
  revert argv d cur last. induction n as [|n IH]; intros [|arg [|value rest]] d cur last Hn Hb Hok;
    cbn [length] in Hn; try lia; cbn [config_read_cmd_loop].
  1,2: by eapply safe_ret, cmd_result_Some.
  { destruct cur as [i|]; [|auto with safe]. case_match; [|auto with safe].
    pose proof Hok as [_ Hc _ _]. simpl in Hc. destruct (lookup_lt_is_Some_2 (peers d) i) as [p Hp]; [lia|].
    rewrite Hp. eapply safe_ret, cmd_result_Some, cmd_ok_remove; eauto. }
  apply Forall_cons in Hb as [Ha Hb]. pose proof Hb as Hb1. apply Forall_cons in Hb1 as [Hv Hb'].
  pose proof Hok as [(Hpub & Hpriv & Hfw & Hlp & Hps) Hc Hi Hk].
  case_match.
  { destruct (parse_port _ _ value) as [[ok port] fl] eqn:E. apply parse_port_ok in E as [? _]; [|done].
    destruct ok; simpl; [|auto with safe]. apply IH; [lia|done|]. eapply cmd_ok_device; [done| |done]. done. }
  case_match.
  { destruct (parse_fwmark _ _ value) as [[ok mark] fl] eqn:E. apply parse_fwmark_ok in E as [? _]; [|done].
    destruct ok; simpl; [|auto with safe]. apply IH; [lia|done|]. eapply cmd_ok_device; [done| |done]. done. }
  case_match.
  { destruct (parse_keyfile _ value) as [ok key] eqn:E. apply parse_keyfile_ok in E; [|done].
    destruct ok; simpl; [|auto with safe]. apply IH; [lia|done|]. eapply cmd_ok_device; [done| |done]. done. }
  case_match.
  { safe_alloc new. destruct new; simpl; [|auto with safe].
    destruct (parse_key _ value) as [ok key] eqn:E. apply parse_key_ok in E; [|done|done].
    destruct ok; simpl; [|auto with safe]. apply IH; [lia|done|]. eapply cmd_ok_link; [done|exact (conj E (proj2 peer_ok_zero))|done|done]. }
  destruct cur as [i|]; [|auto with safe]. simpl in Hc.
  destruct (lookup_lt_is_Some_2 (peers d) i) as [p Hp]; [lia|]. rewrite Hp.
  assert (Hput : ∀ q last', peer_ok q → keyed q = keyed p → cursor_ok (allowedips q) last' →
    safe (config_read_cmd_loop patience (update_peer i (λ _, q) d) (Some i) last' rest) cmd_result).
  { intros q last' Hq Hkq Hl. apply IH; [lia|done|]. eapply cmd_ok_update; eauto; congruence. }
  assert (Hpok : peer_ok p) by by eapply Forall_lookup_1. pose proof Hpok as (?&?&Hep&?&?).
  pose proof (Hi i p eq_refl Hp) as Hpi. case_match.
  { refine (IH (value :: rest) _ (Some i) last _ Hb (cmd_ok_remove d i p last Hok Hp)). cbn. lia. }
  case_match.
  { eapply safe_bind; [by apply parse_endpoint_safe|]. intros [[|] ep] Hep'; cbn [negb]; [|auto with safe].
    by apply Hput. }
  case_match.
  { eapply (safe_bind _ _ (λ _, True)).
    { unfold strip_spaces. safe_alloc b. destruct b; by apply safe_ret. }
    intros [line|] _; [|auto with safe].
    eapply safe_bind; [apply parse_allowedips_safe; eauto|].
    intros [[[|] p'] last'] (Hp' & [_ Hkp] & Hc'); cbn [negb]; [|auto with safe]. apply Hput; auto. }
  case_match.
  { destruct (parse_persistent_keepalive _ _ value) as [[ok ka] fl] eqn:E.
    apply parse_keepalive_ok in E as (Hka & _ & Hfl); [|done]. destruct ok; cbn [negb]; [|auto with safe].
    by apply Hput. }
  case_match; [|auto with safe].
  destruct (parse_keyfile _ value) as [ok key] eqn:E. apply parse_keyfile_ok in E; [|done].
  destruct ok; cbn [negb]; [|auto with safe]. apply Hput; [done| |done].
  by rewrite (keyed_set (set_preshared_key key p)).
Qed.

Lemma config_read_cmd_ok patience argv :
  Forall (λ a, all_bytes a = true) argv → safe (config_read_cmd patience argv) cmd_result.
Proof.
  intros Hb. unfold config_read_cmd. safe_alloc b. destruct b; cbn [negb]; [|auto with safe].
  eapply config_read_cmd_loop_ok; [done|done|]. split; [apply device_ok_zero|done..].
Qed.
End Facts.
