(* ===== verification/ConfigSpec.v ===== *)
(** * ConfigSpec: what the value parsers of config.c compute

    Reference definitions of the accepted values and the theorems that the
    parsers implement them: numbers, netmasks, the list of allowed addresses
    with its incremental form, and the bounded resolution of endpoints. *)

From Stdlib Require Import Ascii String.
From stdpp Require Import base numbers option sets list list_numbers strings.
From S2P Require Import Prelude CLib Ctype Encoding Containers Config NetLibModel ConfigFacts.
#[local] Open Scope c_scope.

Section Numbers.
Context {plat : Platform} {net : NetLib}.

(** ** Firewall marks and keepalive intervals *)

(** The number a mark stands for: hexadecimal after "0x", else decimal. *)
Definition mark_value (value : bytes) : option Z :=
  if (2 <? length value)%nat && (at_ value 0 =? ch "0") && (at_ value 1 =? ch "x")
  then numeral 16 (drop 2 value) else numeral 10 value.

Lemma numeral_10_first value n :
  numeral 10 value = Some n → 48 <= at_ value 0 <= 57.
Proof.
  unfold numeral. destruct value as [|c s]; [done|]. cbn [span_digits]. change (at_ (c :: s) 0) with c.
  destruct (base_digit 10 c) as [d|] eqn:E; [|done]. apply base_digit_10 in E. lia.
Qed.

Lemma digit_test value :
  all_bytes value = true → char_is_digit (char_val (at_ value 0)) = (48 <=? at_ value 0) && (at_ value 0 <=? 57).
Proof. intros. apply char_is_digit_char. by apply all_bytes_at. Qed.

(** [strtoul] on a hexadecimal mark: the numeral after the prefix, or no end. *)
Lemma strtou_hex max s :
  s ≠ [] →
  match numeral 16 s with
  | Some n => strtou max 16 (48 :: 120 :: s) = (Z.min max n, [])
  | None => is_end (strtou max 16 (48 :: 120 :: s)).2 = false
  end.
Proof.
  intros Hs. destruct s as [|d s]; [done|].
  assert (H0 : skip_sign (skip_space (48 :: 120 :: d :: s)) = (false, 48 :: 120 :: d :: s)) by reflexivity.
  unfold strtou, strto_parse. rewrite H0. cbn [skip_0x]. unfold numeral.
  destruct (base_digit 16 d) as [v|] eqn:Ed.
  - rewrite bool_decide_eq_true_2 by eauto. cbn [andb orb Z.eqb Pos.eqb]. cbn [span_digits]. rewrite Ed.
    destruct (span_digits 16 s) as [ds [|r rest]]; [|done].
    destruct (Z.ltb_spec max (digits_value 16 (v :: ds))); f_equal; lia.
  - rewrite bool_decide_eq_false_2 by by intros [? ?]. cbn [span_digits]. rewrite Ed.
    cbn. reflexivity.
Qed.

Lemma parse_fwmark_eq mark fl value :
  all_bytes value = true →
  parse_fwmark mark fl value =
  if strcasecmp_eq value (str "off") then (true, 0, set_flag fl WGDEVICE_HAS_FWMARK)
  else match mark_value value with
  | Some n => if UINT32_MAX <? Z.min ULONG_MAX n then (false, mark, fl)
              else (true, Z.min ULONG_MAX n, set_flag fl WGDEVICE_HAS_FWMARK)
  | None => (false, mark, fl)
  end.
Proof.
  intros Hb. unfold parse_fwmark, mark_value. destruct (strcasecmp_eq value _); [done|].
  rewrite digit_test by done. pose proof ULONG_MAX_ge as Hge. unfold UINT32_MAX in Hge.
  assert (Hfin : ∀ base s n, 0 <= base → numeral base s = Some n → u32 (Z.min ULONG_MAX n) = Z.min ULONG_MAX n
            ∨ (UINT32_MAX <? Z.min ULONG_MAX n) = true).
  { intros base s n Hb0 Hn%numeral_nonneg; [|done]. destruct (Z.ltb_spec UINT32_MAX (Z.min ULONG_MAX n)); [auto|].
    left. apply u32_small. unfold UINT32_MAX in *. lia. }
  destruct ((2 <? length value)%nat && _ && _) eqn:Ehex.
  - apply andb_true_iff in Ehex as [[Hl%Nat.ltb_lt H0%Z.eqb_eq]%andb_true_iff H1%Z.eqb_eq].
    destruct value as [|c0 [|c1 s]]; simpl in Hl; try lia.
    change (at_ (c0 :: c1 :: s) 0) with c0 in *. change (at_ (c0 :: c1 :: s) 1) with c1 in *.
    ch_norm. subst c0 c1. cbn [andb Z.leb Z.compare Pos.compare Pos.compare_cont negb]. change (drop 2 (48 :: 120 :: s)) with (drop 0 s); rewrite ?drop_0.
    assert (Hne : s ≠ []) by (intros ->; simpl in Hl; lia).
    unfold strtoul. pose proof (strtou_hex ULONG_MAX s Hne) as Hs.
    destruct (numeral 16 s) as [n|] eqn:En.
    + rewrite Hs. cbn [is_end negb orb]. destruct (Hfin 16 s n ltac:(lia) En) as [-> | ->]; [|done].
      by destruct (UINT32_MAX <? _).
    + destruct (strtou ULONG_MAX 16 _) as [v e]. simpl in Hs. by rewrite Hs.
  - destruct ((48 <=? at_ value 0) && (at_ value 0 <=? 57)) eqn:Ed; cbn [negb].
    + pose proof (strtou_numeral ULONG_MAX 10 value ltac:(lia) ltac:(lia) (skip_0x_base 10 value ltac:(lia))) as Hs.
      unfold strtoul. destruct (numeral 10 value) as [n|] eqn:En.
      * rewrite Hs. cbn [is_end negb orb]. destruct (Hfin 10 value n ltac:(lia) En) as [-> | ->]; [|done].
        by destruct (UINT32_MAX <? _).
      * destruct (strtou ULONG_MAX 10 value) as [v e]. simpl in Hs. by rewrite Hs.
    + destruct (numeral 10 value) as [n|] eqn:En; [|done]. apply numeral_10_first in En. lia.
Qed.

Lemma parse_keepalive_eq ka fl value :
  all_bytes value = true →
  parse_persistent_keepalive ka fl value =
  if strcasecmp_eq value (str "off") then (true, 0, set_flag fl WGPEER_HAS_PERSISTENT_KEEPALIVE_INTERVAL)
  else match numeral 10 value with
  | Some n => if 65535 <? n then (false, ka, fl)
              else (true, n, set_flag fl WGPEER_HAS_PERSISTENT_KEEPALIVE_INTERVAL)
  | None => (false, ka, fl)
  end.
Proof.
  intros Hb. unfold parse_persistent_keepalive. destruct (strcasecmp_eq value _); [done|].
  rewrite digit_test by done. pose proof ULONG_MAX_ge as Hge. unfold UINT32_MAX in Hge.
  destruct ((48 <=? at_ value 0) && (at_ value 0 <=? 57)) eqn:Ed; cbn [negb].
  - pose proof (strtou_numeral ULONG_MAX 10 value ltac:(lia) ltac:(lia) (skip_0x_base 10 value ltac:(lia))) as Hs.
    unfold strtoul. destruct (numeral 10 value) as [n|] eqn:En.
    + rewrite Hs. cbn [is_end negb orb]. apply numeral_nonneg in En; [|lia].
      destruct (Z.ltb_spec 65535 (Z.min ULONG_MAX n)), (Z.ltb_spec 65535 n); try lia; [done|].
      rewrite Z.min_r, u16_small by lia. done.
    + destruct (strtou ULONG_MAX 10 value) as [v e]. simpl in Hs. by rewrite Hs.
  - destruct (numeral 10 value) as [n|] eqn:En; [|done]. apply numeral_10_first in En. lia.
Qed.
End Numbers.

(** On a platform with a 64-bit [unsigned long], [parse_fwmark] accepts
    "off" and exactly the numerals, decimal or "0x" hexadecimal, up to
    0xffffffff, and stores their value; anything else is refused and nothing
    is stored. *)
Theorem parse_fwmark_correct (plat : Platform) (H64 : ulong_bits = 64) (mark fl : Z) (value : bytes)
    (Hv : all_bytes value = true) (Hoff : strcasecmp_eq value (str "off") = false) :
  parse_fwmark mark fl value =
  match mark_value value with
  | Some n => if n <=? 0xffffffff then (true, n, set_flag fl WGDEVICE_HAS_FWMARK) else (false, mark, fl)
  | None => (false, mark, fl)
  end.
Proof.
  rewrite parse_fwmark_eq, Hoff by done. destruct (mark_value value) as [n|]; [|done].
  unfold ULONG_MAX, UINT32_MAX. rewrite H64.
  destruct (Z.leb_spec n 0xffffffff), (Z.ltb_spec (2 ^ 32 - 1) (Z.min (2 ^ 64 - 1) n)); try lia; [|done].
  by rewrite Z.min_r by lia.
Qed.

Lemma parse_fwmark_correct_witness :
  parse_fwmark (plat := x86_64) 0 0 (str "0xCA6C") = (true, 0xca6c, WGDEVICE_HAS_FWMARK).
Proof.
  rewrite (parse_fwmark_correct x86_64 eq_refl 0 0 (str "0xCA6C") eq_refl eq_refl).
  vm_compute. reflexivity.
Defined.

(** With a 32-bit [unsigned long], as on the 32-bit Android ABIs,
    [strtoul] saturates at 0xffffffff and the range test of [parse_fwmark] can
    never fail: every numeral that is too large is accepted as 0xffffffff,
    although the error message reserves the option to 0-0xffffffff. *)
Theorem parse_fwmark_clamps_32 (plat : Platform) (H32 : ulong_bits = 32) (mark fl : Z) (value : bytes) (n : Z)
    (Hv : all_bytes value = true) (Hoff : strcasecmp_eq value (str "off") = false)
    (Hn : mark_value value = Some n) (Hbig : 0xffffffff < n) :
  parse_fwmark mark fl value = (true, 0xffffffff, set_flag fl WGDEVICE_HAS_FWMARK).
Proof.
  rewrite parse_fwmark_eq, Hoff, Hn by done. unfold ULONG_MAX, UINT32_MAX. rewrite H32.
  rewrite Z.min_l by lia. done.
Qed.

Lemma parse_fwmark_clamps_32_witness :
  parse_fwmark (plat := armv7) 0 0 (str "4294967296") = (true, 0xffffffff, WGDEVICE_HAS_FWMARK).
Proof.
  rewrite (parse_fwmark_clamps_32 armv7 eq_refl 0 0 (str "4294967296") 4294967296);
    vm_compute; reflexivity.
Defined.

(** [parse_persistent_keepalive] accepts "off" and exactly the decimal
    numerals up to 65535, and stores their value, whatever the platform. *)
Theorem parse_persistent_keepalive_correct (plat : Platform) (ka fl : Z) (value : bytes)
    (Hv : all_bytes value = true) :
  parse_persistent_keepalive ka fl value =
  let fl' := set_flag fl WGPEER_HAS_PERSISTENT_KEEPALIVE_INTERVAL in
  if strcasecmp_eq value (str "off") then (true, 0, fl')
  else match numeral 10 value with
  | Some n => if n <=? 65535 then (true, n, fl') else (false, ka, fl)
  | None => (false, ka, fl)
  end.
Proof.
  rewrite parse_keepalive_eq by done. cbv zeta. destruct (strcasecmp_eq _ _); [done|].
  destruct (numeral 10 value) as [n|]; [|done].
  destruct (Z.ltb_spec 65535 n), (Z.leb_spec n 65535); done || lia.
Qed.

Lemma parse_persistent_keepalive_correct_witness :
  parse_persistent_keepalive (plat := armv7) 7 0 (str "65536") = (false, 7, 0).
Proof.
  rewrite (parse_persistent_keepalive_correct armv7 7 0 (str "65536") eq_refl). vm_compute. reflexivity.
Defined.

(** ** Netmasks *)

(** The first [n] 32-bit words of an address, as one big-endian number. *)
Fixpoint ip_value (b : bytes) (n : nat) : Z :=
  match n with
  | O => 0
  | S i => ip_value b i * 2 ^ 32 + ip_word b i
  end.

Lemma ip_word_range b i : all_bytes b = true → 0 <= ip_word b i < 2 ^ 32.
Proof.
  intros Hb. unfold ip_word. pose proof (all_bytes_at b (4 * i) Hb). pose proof (all_bytes_at b (4 * i + 1) Hb).
  pose proof (all_bytes_at b (4 * i + 2) Hb). pose proof (all_bytes_at b (4 * i + 3) Hb). lia.
Qed.

Lemma netmask_loop_full b c n : 32 * Z.of_nat n <= c → netmask_loop b c n = true.
Proof.
  intros Hc. destruct n as [|i]; [done|]. simpl. rewrite (proj2 (Z.leb_le _ c)) by lia. done.
Qed.

(** The low [k <= 32] bits of the number are those of its last word. *)
Lemma ip_value_low b n k :
  0 <= k <= 32 → ip_value b (S n) mod 2 ^ k = ip_word b n mod 2 ^ k.
Proof.
  intros Hk. cbn [ip_value]. replace (2 ^ 32) with (2 ^ (32 - k) * 2 ^ k).
  - rewrite Z.mul_assoc, Z.add_comm. apply Z_mod_plus_full.
  - rewrite <- Z.pow_add_r by lia. f_equal. lia.
Qed.

Lemma land_mask32 x k : 0 <= k <= 32 → x .& (0xffffffff .>> (32 - k)) = x mod 2 ^ k.
Proof.
  intros Hk. rewrite <- Z.land_ones by lia. f_equal.
  change 0xffffffff with (Z.ones 32). rewrite Z.ones_equiv, Z.shiftr_div_pow2 by lia.
  rewrite Z.ones_equiv. symmetry. apply Z.div_unique with (2 ^ (32 - k) - 1).
  - pose proof (Z.pow_pos_nonneg 2 (32 - k) ltac:(lia) ltac:(lia)). lia.
  - replace 32 with ((32 - k) + k) at 1 by lia. rewrite Z.pow_add_r by lia. lia.
Qed.

Lemma netmask_loop_spec b c n :
  all_bytes b = true → 0 <= c <= 32 * Z.of_nat n →
  netmask_loop b c n = (ip_value b n mod 2 ^ (32 * Z.of_nat n - c) =? 0).
Proof.
  intros Hb. induction n as [|n IH]; intros Hc.
  { replace c with 0 by lia. done. }
  pose proof (ip_word_range b n Hb) as Hw. cbn [netmask_loop].
  destruct (Z.leb_spec (32 * (Z.of_nat n + 1)) c) as [Hge|Hlt].
  { replace (32 * Z.of_nat (S n) - c) with 0 by lia. rewrite Z.mod_1_r. done. }
  destruct (Z.ltb_spec (32 * Z.of_nat n) c) as [Hin|Hle].
  - set (k := 32 * Z.of_nat (S n) - c). assert (1 <= k < 32) as Hk by lia.
    replace (c - 32 * Z.of_nat n) with (32 - k) by lia.
    rewrite land_mask32, <- ip_value_low by lia. unfold truthy. rewrite netmask_loop_full by lia.
    by destruct (Z.eqb (ip_value b (S n) mod 2 ^ k) 0).
  - rewrite (land_mask32 (ip_word b n) 32 ltac:(lia) : ip_word b n .& 0xffffffff = _), Z.mod_small by lia.
    unfold truthy. specialize (IH ltac:(lia)).
    replace (32 * Z.of_nat (S n) - c) with (32 + (32 * Z.of_nat n - c)) by lia.
    set (k := 32 * Z.of_nat n - c) in *. assert (0 <= k) by lia.
    pose proof (Z.pow_pos_nonneg 2 k ltac:(lia) ltac:(lia)).
    rewrite Z.pow_add_r by lia. cbn [ip_value].
    rewrite Z.rem_mul_r by lia. rewrite Z.div_add_l, (Z.div_small (ip_word b n)), Z.add_0_r by lia.
    rewrite (Z.add_comm (ip_value b n * 2 ^ 32)), Z.mod_add, (Z.mod_small (ip_word b n)) by lia.
    pose proof (Z.mod_pos_bound (ip_value b n) (2 ^ k) ltac:(lia)).
    destruct (Z.eqb_spec (ip_word b n) 0) as [->|Hne]; simpl.
    + rewrite IH. destruct (Z.eqb_spec (ip_value b n mod 2 ^ k) 0) as [->|]; symmetry;
        [done|apply Z.eqb_neq; lia].
    + symmetry. apply Z.eqb_neq. lia.
Qed.

(** C25: [validate_netmask] tells exactly whether the host part of an address
    is zero: the 32- or 128-bit big-endian number has its last [32 - cidr] or
    [128 - cidr] bits clear. *)
Theorem validate_netmask_correct (a : wgallowedip) (Ha : allowedip_ok a) :
  validate_netmask a =
  if family a =? AF_INET then ip_value (ip a) 1 mod 2 ^ (32 - cidr a) =? 0
  else ip_value (ip a) 4 mod 2 ^ (128 - cidr a) =? 0.
Proof.
  destruct Ha as (_ & Hb & Hf & _). unfold validate_netmask.
  destruct Hf as [[-> Hc]|[-> Hc]]; cbn [Z.eqb AF_INET AF_INET6 Pos.eqb];
    rewrite netmask_loop_spec by (done || lia); done.
Qed.

Lemma validate_netmask_correct_witness :
  let a := {| family := AF_INET; ip := [10; 1; 2; 0] ++ replicate 12 0; cidr := 23; ai_flags := 0 |} in
  allowedip_ok a ∧ validate_netmask a = true.
Proof.
  intros a. assert (Ha : allowedip_ok a).
  { unfold allowedip_ok. cbn. split_and!; [done|done|left; lia|by left]. }
  split; [exact Ha|]. rewrite (validate_netmask_correct a Ha). vm_compute. reflexivity.
Defined.

(** ** Endpoint resolution *)

Section Resolve.
Context {plat : Platform} {net : NetLib}.

(** The reference: the first attempt that succeeds, unless a permanent error
    comes before it or the attempts are used up. *)
Fixpoint resolve_spec (host service : bytes) (attempts : list nat) : option addrinfo :=
  match attempts with
  | [] => None
  | n :: rest =>
      match getaddrinfo (Some host) service n with
      | GaiOk r => Some r
      | GaiError e => if is_permanent e then None else resolve_spec host service rest
      end
  end.

Lemma resolve_loop_bounded host service retries n o :
  0 <= retries →
  resolve_loop (S (Z.to_nat retries)) host service retries n o =
  Done (resolve_spec host service (seq n (S (Z.to_nat retries))), o).
Proof.
  intros Hr. rewrite <- (Z2Nat.id retries Hr) at 2. generalize (Z.to_nat retries) as r. clear Hr retries.
  intros r. revert n. induction r as [|r IH]; intros n.
  - simpl. destruct (getaddrinfo (Some host) service n); [done|]. by destruct (is_permanent e).
  - cbn [resolve_loop seq resolve_spec]. destruct (getaddrinfo (Some host) service n) as [a|e]; [done|].
    rewrite (proj2 (Z.leb_le 0 _)), (proj2 (Z.eqb_neq (Z.of_nat (S r)) 0)) by lia.
    cbn [andb]. rewrite orb_false_r. destruct (is_permanent e); [done|].
    replace (Z.of_nat (S r) - 1) with (Z.of_nat r) by lia. apply IH.
Qed.

Lemma resolve_loop_infinite patience host service n o :
  resolve_loop patience host service (-1) n o =
  match resolve_spec host service (seq n patience) with
  | Some r => Done (Some r, o)
  | None => if existsb (λ k, match getaddrinfo (Some host) service k with GaiError e => is_permanent e | _ => false end)
                       (seq n patience)
            then Done (None, o) else NoFuel
  end.
Proof.
  revert n. induction patience as [|p IH]; intros n; [done|].
  cbn [resolve_loop seq resolve_spec existsb]. destruct (getaddrinfo (Some host) service n) as [a|e]; [done|].
  cbn [Z.leb Z.compare andb orb]. rewrite orb_false_r. destruct (is_permanent e); [done|]. apply IH.
Qed.
End Resolve.

(** C26: With [retries >= 0] the resolution loop of [parse_endpoint] always
    ends, after at most [retries + 1] calls of [getaddrinfo] (16 by default),
    and returns the first address found, or nothing after a permanent error. *)
Theorem resolve_loop_terminates (net : NetLib) (patience : nat) (host service : bytes) (retries : Z) (o : allocs)
    (Hr : 0 <= retries) :
  resolve_loop (resolve_fuel patience retries) host service retries 0 o =
  Done (resolve_spec host service (seq 0 (Z.to_nat (retries + 1))), o).
Proof.
  unfold resolve_fuel. rewrite (proj2 (Z.ltb_ge retries 0)) by lia.
  rewrite resolve_loop_bounded by done. by rewrite Z2Nat.inj_add by lia; rewrite Nat.add_comm.
Qed.

Lemma resolve_loop_terminates_witness :
  resolve_loop (net := net0) (resolve_fuel 0 15) (str "10.0.0.1") (str "51820") 15 0 [] =
  Done (Some {| ai_family := AF_INET; ai_addrlen := SIZEOF_SOCKADDR_IN;
                ai_addr := {| sa_family := AF_INET; sin_port := 51820; sin_addr := [10; 0; 0; 1]; sin6_extra := [] |} |}, []).
Proof.
  rewrite (resolve_loop_terminates net0 0 (str "10.0.0.1") (str "51820") 15 []); [|lia].
  vm_compute. reflexivity.
Defined.

(** ** Allowed addresses *)

Section AllowedIPs.
Context {plat : Platform} {net : NetLib} {laws : NetLibLaws net}.

(** An entry that starts with + or - asks for an incremental change. *)
Definition incremental (tok : bytes) : bool := (at_ tok 0 =? ch "-") || (at_ tok 0 =? ch "+").

(** The reference reading of one entry, [[+|-]address[/prefix]]. *)
Definition allowedip_entry (tok : bytes) : option wgallowedip :=
  let '(ips, mask) := strsep (if incremental tok then drop 1 tok else tok) (ch "/") in
  match parse_ip wgallowedip_zero ips with
  | (true, a) =>
      match parse_cidr a mask with
      | Some c => Some (set_ai_flags (if at_ tok 0 =? ch "-" then WGALLOWEDIP_REMOVE_ME else 0) (set_cidr c a))
      | None => None
      end
  | _ => None
  end.

Definition replace_flag (inc : bool) (fl : Z) : Z :=
  if inc then clear_flag fl WGPEER_REPLACE_ALLOWEDIPS else fl.

Lemma parse_ip_prefix_eq p tok :
  parse_ip_prefix p 0 tok =
  (set_p_flags (replace_flag (incremental tok) (p_flags p)) p,
   if at_ tok 0 =? ch "-" then WGALLOWEDIP_REMOVE_ME else 0,
   if incremental tok then drop 1 tok else tok).
Proof.
  unfold parse_ip_prefix, incremental, replace_flag. destruct (at_ tok 0 =? ch "-"); [done|].
  destruct (at_ tok 0 =? ch "+"); [done|]. by destruct p.
Qed.

Lemma clear_flag_idem fl bit : clear_flag (clear_flag fl bit) bit = clear_flag fl bit.
Proof. unfold clear_flag. by rewrite <- Z.land_assoc, Z.land_diag. Qed.

Lemma replace_flag_orb a b fl : replace_flag a (replace_flag b fl) = replace_flag (b || a) fl.
Proof. unfold replace_flag. destruct a, b; simpl; try done. apply clear_flag_idem. Qed.

Lemma set_flags_idem p : set_allowedips (allowedips p) (set_p_flags (p_flags p) p) = p.
Proof. by destruct p. Qed.

(** The loop appends the entries it reads, and clears the flag when one of
    them was incremental; it fails exactly when an entry cannot be read. *)
Lemma parse_allowedips_loop_spec tokens p last :
  cursor_ok (allowedips p) last →
  match mapM allowedip_entry tokens with
  | Some es =>
      parse_allowedips_loop tokens p last [] =
      Done (true, set_allowedips (allowedips p ++ es)
                    (set_p_flags (replace_flag (existsb incremental tokens) (p_flags p)) p),
            match es with [] => last | _ => Some (length (allowedips p) + length es - 1)%nat end, [])
  | None => ∃ p' last', parse_allowedips_loop tokens p last [] = Done (false, p', last', [])
  end.
Proof.
  revert p last. induction tokens as [|tok tokens IH]; intros p last Hc.
  { cbn. rewrite app_nil_r, set_flags_idem. done. }
  cbn [parse_allowedips_loop mapM existsb]. rewrite parse_ip_prefix_eq.
  destruct (allowedip_entry tok) as [e|] eqn:Ee; unfold allowedip_entry in Ee;
    destruct (strsep (if incremental tok then drop 1 tok else tok) (ch "/")) as [ips mask];
    destruct (parse_ip wgallowedip_zero ips) as [[|] a] eqn:Eip; try done;
    (destruct (parse_cidr a mask) as [c|] eqn:Ec; try done); simplify_eq; [|by cbn; rewrite ?Eip; cbn; rewrite ?Ec; eauto..].
  apply parse_ip_ok in Eip as (_ & _ & _ & _ & Hf). apply parse_cidr_ok in Ec; [|done].
  unfold mbind, M_bind, alloc. cbn [negb]. rewrite u8_small by lia. cbn [allowedips set_p_flags peer_with].
  set (e := set_ai_flags _ (set_cidr c a)). rewrite link_after_app by done.
  set (p' := set_allowedips (allowedips p ++ [e]) _).
  specialize (IH p' (Some (next_pos last)) (cursor_ok_next _ _ e Hc)). cbn [option_bind].
  destruct (mapM allowedip_entry tokens) as [es|]; [|done]. cbn. rewrite IH.
  assert (Hl : next_pos last = length (allowedips p)) by by apply cursor_ok_pos.
  assert (Hp : set_allowedips (allowedips p' ++ es)
      (set_p_flags (replace_flag (existsb incremental tokens) (p_flags p')) p') =
    set_allowedips (allowedips p ++ e :: es)
      (set_p_flags (replace_flag (incremental tok || existsb incremental tokens) (p_flags p)) p)).
  { unfold p'. cbn. by rewrite <- replace_flag_orb, <- app_assoc. }
  rewrite Hp. do 3 f_equal. destruct es as [|e' es]; cbn.
  - rewrite Hl. f_equal. lia.
  - unfold p'. cbn. rewrite length_app. cbn. f_equal. lia.
Qed.

Lemma parse_allowedips_eq p last value :
  cursor_ok (allowedips p) last → value ≠ [] →
  match mapM allowedip_entry (strsep_all value (ch ",")) with
  | Some es =>
      parse_allowedips p last value [] =
      Done (true, set_allowedips (allowedips p ++ es)
                    (set_p_flags (replace_flag (existsb incremental (strsep_all value (ch ",")))
                       (set_flag (p_flags p) WGPEER_REPLACE_ALLOWEDIPS)) p),
            Some (length (allowedips p) + length es - 1)%nat, [])
  | None => ∃ p', parse_allowedips p last value [] = Done (false, p', last, [])
  end.
Proof.
  intros Hc Hv. unfold parse_allowedips, mbind, M_bind, alloc. cbn [negb].
  destruct value as [|c0 v0]; [done|]. cbn [length Nat.eqb].
  set (p1 := set_p_flags _ p). set (toks := strsep_all (c0 :: v0) (ch ",")).
  pose proof (parse_allowedips_loop_spec toks p1 last Hc) as Hloop.
  destruct (mapM allowedip_entry toks) as [es|] eqn:Em.
  - rewrite Hloop. cbn. destruct (strsep_all_join (c0 :: v0) (ch ",")) as (t & ts & Ht & _). fold toks in Ht.
    destruct es; [|done]. apply length_mapM in Em. rewrite Ht in Em. done.
  - destruct Hloop as (p' & last' & ->). by exists p'.
Qed.

(** *** The grammar of a list of addresses

    Written without the functions of the parser: a sign, an address as [inet_pton] takes it, and a decimal prefix length. *)

Definition is_decimal (ds : bytes) : Prop := ds ≠ [] ∧ Forall (λ c, 48 <= c <= 57) ds.
Definition decimal (ds : bytes) : Z := foldl (λ v c, 10 * v + (c - 48)) 0 ds.

(** The sign and the flags of the address. *)
Inductive sign_text : bytes → Z → Prop :=
  | Unsigned : sign_text [] 0
  | Plus : sign_text (str "+") 0
  | Minus : sign_text (str "-") WGALLOWEDIP_REMOVE_ME.
(** An address, its family, the number of its bits, and its bytes. *)
Inductive address_text : bytes → Z → Z → bytes → Prop :=
  | Address4 t b : ch ":" ∉ t → inet_pton AF_INET t = Some b → address_text t AF_INET 32 b
  | Address6 t b : ch ":" ∈ t → inet_pton AF_INET6 t = Some b → address_text t AF_INET6 128 b.
(** What follows an address of so many bits, and its prefix length. *)
Inductive prefix_text : bytes → Z → Z → Prop :=
  | NoPrefix bits : prefix_text [] bits bits
  | Prefix ds bits : is_decimal ds → decimal ds <= bits → prefix_text (ch "/" :: ds) bits (decimal ds).

Definition begins_with_sign (t : bytes) : Prop := head t = Some (ch "+") ∨ head t = Some (ch "-").
Definition denotes (tok : bytes) (a : wgallowedip) : Prop :=
  ∃ sign addr pre fl fam bits b c,
    tok = sign ++ addr ++ pre ∧ sign_text sign fl ∧ (sign = [] → ¬ begins_with_sign addr) ∧ (ch "/" ∉ addr) ∧
    address_text addr fam bits b ∧ prefix_text pre bits c ∧
    a = {| family := fam; ip := b ++ replicate (16 - length b) 0; cidr := c; ai_flags := fl |}.

Lemma span_digits_decimal s ds : span_digits 10 s = (ds, []) ↔ Forall (λ c, 48 <= c <= 57) s ∧ ds = ((λ c, c - 48) <$> s).
Proof.
  revert ds. induction s as [|c s IH]; intros ds; cbn [span_digits]; [split; [intros [= <-]; done|by intros [_ ->]]|].
  rewrite Forall_cons. destruct (base_digit 10 c) as [d|] eqn:Ed.
  - apply base_digit_10 in Ed as [Hc ->]. destruct (span_digits 10 s) as [es rest]. split.
    + intros [= <- ->]. destruct (proj1 (IH es) eq_refl) as [Hs ->]. done.
    + intros [[_ Hs] ->]. pose proof (proj2 (IH _) (conj Hs eq_refl)) as [= -> ->]. done.
  - split; [done|]. intros [[Hc _] _]. by rewrite (proj2 (base_digit_10 c (c - 48)) (conj Hc eq_refl)) in Ed.
Qed.
Lemma numeral_decimal s n : numeral 10 s = Some n ↔ is_decimal s ∧ n = decimal s.
Proof.
  assert (Hv : ∀ v s, foldl (λ v c, 10 * v + (c - 48)) v s = fold_left (λ v d, 10 * v + d) ((λ c, c - 48) <$> s) v).
  { intros v l. revert v. induction l as [|c l IH]; intros v; [done|]. apply IH. }
  unfold numeral, is_decimal, decimal. rewrite Hv. split.
  - destruct (span_digits 10 s) as [[|d ds] [|]] eqn:E; try done. apply span_digits_decimal in E as [Hs E]. intros [= <-].
    rewrite E. split; [|done]. split; [by destruct s|done].
  - intros [[Hne Hs] ->]. rewrite (proj2 (span_digits_decimal s _) (conj Hs eq_refl)). by destruct s.
Qed.

Lemma parse_cidr_prefix a bits mask :
  (family a = AF_INET ∧ bits = 32 ∨ family a = AF_INET6 ∧ bits = 128) → all_bytes mask = true →
  parse_cidr a (Some mask) = match numeral 10 mask with Some n => if n <=? bits then Some n else None | None => None end.
Proof.
  intros Hf Hb. unfold parse_cidr. rewrite digit_test by done. pose proof ULONG_MAX_ge as Hge. unfold UINT32_MAX in Hge.
  destruct ((48 <=? at_ mask 0) && (at_ mask 0 <=? 57)) eqn:Ed; cbn [negb].
  - pose proof (strtou_numeral ULONG_MAX 10 mask ltac:(lia) ltac:(lia) (skip_0x_base 10 mask ltac:(lia))) as Hs.
    unfold strtoul. destruct (numeral 10 mask) as [n|] eqn:En.
    + rewrite Hs. cbn [is_end negb orb]. apply numeral_nonneg in En; [|lia].
      assert (Hover : ((32 <? Z.min ULONG_MAX n) && (family a =? AF_INET)) || ((128 <? Z.min ULONG_MAX n) && (family a =? AF_INET6)) = (bits <? Z.min ULONG_MAX n)).
      { destruct Hf as [[-> ->]|[-> ->]]; vm_compute (AF_INET =? _); vm_compute (AF_INET6 =? _); by rewrite andb_true_r, andb_false_r, ?orb_false_r. }
      rewrite Hover. assert (0 <= bits <= 128) by lia.
      destruct (Z.ltb_spec bits (Z.min ULONG_MAX n)), (Z.leb_spec n bits); try lia; [done|]. by rewrite Z.min_r by lia.
    + destruct (strtou ULONG_MAX 10 mask) as [v e]. simpl in Hs. by rewrite Hs.
  - destruct (numeral 10 mask) as [n|] eqn:En; [|done]. apply numeral_10_first in En. lia.
Qed.

Lemma parse_ip_text t a : parse_ip wgallowedip_zero t = (true, a) ↔
  ∃ fam bits b, address_text t fam bits b ∧ a = {| family := fam; ip := b ++ replicate (16 - length b) 0; cidr := 0; ai_flags := 0 |}.
Proof.
  unfold parse_ip. cbn [set_family wgallowedip_zero]. destruct (has_char t (ch ":")) eqn:Ec.
  - apply has_char_spec in Ec. split.
    + destruct (inet_pton AF_INET6 t) as [b|] eqn:Eb; [|done]. cbn. intros [= <-]. exists AF_INET6, 128, b. split; [by constructor|].
      unfold store_ip. cbn -[replicate]. by rewrite drop_replicate.
    + intros (fam & bits & b & Ha & ->). inversion Ha as [? ? Hn|? ? _ Hb]; subst; [done|]. rewrite Hb. unfold set_family, store_ip. cbn [family]. change (AF_INET =? AF_UNSPEC) with false. change (AF_INET6 =? AF_UNSPEC) with false. cbn iota. cbn [ip cidr ai_flags wgallowedip_zero]. by rewrite drop_replicate.
  - assert (Hn : ch ":" ∉ t) by (rewrite <- has_char_spec; congruence). split.
    + destruct (inet_pton AF_INET t) as [b|] eqn:Eb; [|done]. cbn. intros [= <-]. exists AF_INET, 32, b. split; [by constructor|].
      unfold store_ip. cbn -[replicate]. by rewrite drop_replicate.
    + intros (fam & bits & b & Ha & ->). inversion Ha as [? ? _ Hb|? ? Hy]; subst; [|done]. rewrite Hb. unfold set_family, store_ip. cbn [family]. change (AF_INET =? AF_UNSPEC) with false. change (AF_INET6 =? AF_UNSPEC) with false. cbn iota. cbn [ip cidr ai_flags wgallowedip_zero]. by rewrite drop_replicate.
Qed.

(** The sign is what the parser takes off. *)
Lemma sign_split tok : ∃ sign fl, sign_text sign fl ∧ tok = sign ++ (if incremental tok then drop 1 tok else tok) ∧
  fl = (if at_ tok 0 =? ch "-" then WGALLOWEDIP_REMOVE_ME else 0) ∧ (sign = [] → ¬ begins_with_sign tok).
Proof.
  unfold incremental, begins_with_sign. destruct tok as [|c tok]; [exists [], 0; split; [constructor|]; split; [done|]; split; [done|]; intros _ [?|?]; done|].
  change (at_ (c :: tok) 0) with c. destruct (Z.eqb_spec c (ch "-")) as [->|H1]; [exists (str "-"), WGALLOWEDIP_REMOVE_ME; split; [constructor|done]|].
  destruct (Z.eqb_spec c (ch "+")) as [->|H2]; [exists (str "+"), 0; split; [constructor|done]|].
  exists [], 0. split; [constructor|]. split; [done|]. split; [done|]. intros _ [[= ?]|[= ?]]; done.
Qed.
Lemma sign_text_taken sign fl t :
  sign_text sign fl → (sign = [] → ¬ begins_with_sign t) →
  (if incremental (sign ++ t) then drop 1 (sign ++ t) else sign ++ t) = t ∧ (if at_ (sign ++ t) 0 =? ch "-" then WGALLOWEDIP_REMOVE_ME else 0) = fl.
Proof.
  intros [] Hn; [|done|done]. specialize (Hn eq_refl). unfold begins_with_sign in Hn. cbn [app]. unfold incremental.
  destruct t as [|c t]; [done|]. change (at_ (c :: t) 0) with c.
  rewrite (proj2 (Z.eqb_neq c (ch "-"))) by (intros ->; apply Hn; by right). by rewrite (proj2 (Z.eqb_neq c (ch "+"))) by (intros ->; apply Hn; by left).
Qed.

Lemma allowedip_entry_denotes tok a : all_bytes tok = true → allowedip_entry tok = Some a ↔ denotes tok a.
Proof.
  intros Hb. split.
  - unfold allowedip_entry. destruct (sign_split tok) as (sign & fl & Hs & Htok & Hfl & Hplain). rewrite <- Hfl.
    set (t := if incremental tok then _ else _) in *. unfold strsep. intros H.
    assert (Hgen : ∀ addr pre bits' fam b c, t = addr ++ pre → ch "/" ∉ addr → address_text addr fam bits' b → prefix_text pre bits' c →
      a = {| family := fam; ip := b ++ replicate (16 - length b) 0; cidr := c; ai_flags := fl |} → denotes tok a).
    { intros addr pre bits' fam b c Ht Hsl Hat Hpt Ha. exists sign, addr, pre, fl, fam, bits', b, c. rewrite Htok, Ht. split; [done|]. split; [done|].
      split; [|done]. intros -> Hbeg. apply (Hplain eq_refl). rewrite Htok, Ht. unfold begins_with_sign in *. destruct addr as [|x addr]; [by destruct Hbeg|exact Hbeg]. }
    destruct (strchr_split t (ch "/")) as [[addr mask]|] eqn:Esp.
    + apply strchr_split_Some in Esp as [Ht Hsl]. destruct (parse_ip wgallowedip_zero addr) as [[|] x] eqn:Eip; [|done].
      apply parse_ip_text in Eip as (fam & bits & b & Hat & ->).
      assert (Hm : all_bytes mask = true).
      { rewrite Htok, Ht, !all_bytes_app, all_bytes_cons, !andb_true_iff in Hb. tauto. }
      rewrite (parse_cidr_prefix _ bits) in H by (done || (destruct Hat; auto)).
      destruct (numeral 10 mask) as [n|] eqn:En; [|done]. apply numeral_decimal in En as [Hd ->].
      destruct (Z.leb_spec (decimal mask) bits) as [Hle|]; [|done]. injection H as <-.
      by apply (Hgen addr (ch "/" :: mask) bits fam b (decimal mask)); [..|by constructor|].
    + apply strchr_split_None in Esp. destruct (parse_ip wgallowedip_zero t) as [[|] x] eqn:Eip; [|done].
      apply parse_ip_text in Eip as (fam & bits & b & Hat & ->).
      assert (Hc : parse_cidr {| family := fam; ip := b ++ replicate (16 - length b) 0; cidr := 0; ai_flags := 0 |} None = Some bits) by (by destruct Hat).
      rewrite Hc in H. injection H as <-. apply (Hgen t [] bits fam b bits); [by rewrite app_nil_r|done|done|constructor|done].
  - intros (sign & addr & pre & fl & fam & bits & b & c & -> & Hs & Hplain & Hsl & Hat & Hpt & ->).
    destruct (sign_text_taken sign fl (addr ++ pre) Hs) as [Ht Hfl].
    { intros Hn Hbeg. apply (Hplain Hn). destruct addr as [|x addr]; [|done]. destruct Hpt; destruct Hbeg; done. }
    unfold allowedip_entry. rewrite Ht, Hfl. unfold strsep.
    assert (Hip : parse_ip wgallowedip_zero addr = (true, {| family := fam; ip := b ++ replicate (16 - length b) 0; cidr := 0; ai_flags := 0 |})) by (apply parse_ip_text; eauto).
    destruct Hpt as [bits|ds bits Hd Hle].
    + rewrite app_nil_r. rewrite (proj2 (strchr_split_None _ addr)) by done. rewrite Hip. by destruct Hat.
    + rewrite strchr_split_app by done. rewrite Hip. rewrite !all_bytes_app, all_bytes_cons, !andb_true_iff in Hb.
      rewrite (parse_cidr_prefix _ bits) by (tauto || (destruct Hat; auto)). rewrite (proj2 (numeral_decimal ds (decimal ds))) by done.
      by rewrite (proj2 (Z.leb_le _ _)).
Qed.

(** The entries between the commas of a value. *)
Definition comma_list (value : bytes) (toks : list bytes) : Prop :=
  match toks with [] => False | t :: ts => value = t ++ flat_map (λ t, ch "," :: t) ts end ∧ Forall (λ t, ch "," ∉ t) toks.

Lemma comma_list_strsep value toks : comma_list value toks ↔ toks = strsep_all value (ch ",").
Proof.
  split.
  - intros [Hv Hn]. destruct toks as [|t ts]; [done|]. subst value. by rewrite strsep_all_tokens.
  - intros ->. destruct (strsep_all_join value (ch ",")) as (t & ts & -> & Hv & Hn). done.
Qed.
Lemma comma_list_bytes value toks : comma_list value toks → all_bytes value = true → Forall (λ t, all_bytes t = true) toks.
Proof.
  intros [Hv _] Hb. destruct toks as [|t ts]; [done|]. rewrite Hv, all_bytes_app, andb_true_iff in Hb. destruct Hb as [Ht Hts]. constructor; [done|].
  clear Hv Ht t. induction ts as [|t ts IH]; [done|]. cbn [flat_map] in Hts. rewrite <- app_comm_cons, all_bytes_cons, all_bytes_app, !andb_true_iff in Hts. constructor; tauto.
Qed.
Lemma mapM_denotes toks es : Forall (λ t, all_bytes t = true) toks → mapM allowedip_entry toks = Some es ↔ Forall2 denotes toks es.
Proof.
  intros Hb. rewrite mapM_Some. revert es. induction Hb as [|t toks Ht _ IH]; intros [|e es].
  - split; constructor.
  - split; inversion 1.
  - split; inversion 1.
  - rewrite !Forall2_cons. rewrite IH, allowedip_entry_denotes by done. done.
Qed.
Lemma incremental_sign tok : incremental tok = true ↔ begins_with_sign tok.
Proof.
  unfold incremental, begins_with_sign. destruct tok as [|c tok]; [cbn; naive_solver|]. change (at_ (c :: tok) 0) with c. cbn [head].
  rewrite orb_true_iff, !Z.eqb_eq. naive_solver.
Qed.
End AllowedIPs.


(** C24: given memory, [parse_allowedips] accepts a non-empty value exactly when it is a list, with commas between, of entries of the form
    [[+|-]address[/prefix]]: the address is one that [inet_pton] takes, of IPv6 when it has a colon and of IPv4 otherwise, and the prefix
    length is a decimal numeral up to 32 or 128, which is what it is when it is left out.  It then appends the addresses that
    the entries denote, in order, to those the peer already has, and WGPEER_REPLACE_ALLOWEDIPS is set afterwards exactly
    when no entry began with a sign. *)
Theorem parse_allowedips_correct (plat : Platform) (net : NetLib) (laws : NetLibLaws net)
    (p : wgpeer) (last : option nat) (value : bytes)
    (Hc : cursor_ok (allowedips p) last) (Hb : all_bytes value = true) (Hv : value ≠ []) :
  (∀ toks es, comma_list value toks → Forall2 denotes toks es →
     ∃ p' last', run (parse_allowedips p last value) = Done (true, p', last') ∧
       allowedips p' = allowedips p ++ es ∧ cursor_ok (allowedips p') last' ∧
       (has_flag (p_flags p') WGPEER_REPLACE_ALLOWEDIPS = true ↔ Forall (λ t, ¬ begins_with_sign t) toks)) ∧
  ((∀ toks es, comma_list value toks → ¬ Forall2 denotes toks es) →
     ∃ p', run (parse_allowedips p last value) = Done (false, p', last)).
Proof.
  pose proof (parse_allowedips_eq p last value Hc Hv) as H. pose proof (proj2 (comma_list_strsep value _) eq_refl) as Hl.
  set (toks := strsep_all value (ch ",")) in *. assert (Htb := comma_list_bytes _ _ Hl Hb). unfold run. split.
  - intros toks' es Hl' Hes. apply comma_list_strsep in Hl'. fold toks in Hl'. subst toks'.
    rewrite (proj2 (mapM_denotes toks es Htb) Hes) in H. rewrite H. do 2 eexists. split; [done|].
    cbn [allowedips p_flags set_allowedips set_p_flags peer_with]. split_and!; [done| |].
    + unfold cursor_ok. rewrite length_app. apply Forall2_length in Hes. destruct Hl as [Hne _]. destruct toks as [|t ts]; [done|]. simpl in Hes. lia.
    + unfold replace_flag. destruct (existsb incremental toks) eqn:Ei.
      * rewrite has_flag_clear. change (u32 (~~ WGPEER_REPLACE_ALLOWEDIPS) .& WGPEER_REPLACE_ALLOWEDIPS) with 0.
        rewrite Z.land_0_r. split; [done|]. intros Hall. apply existsb_exists in Ei as (t & Ht & Hi). rewrite <- list_elem_of_In in Ht.
        rewrite Forall_forall in Hall. by apply incremental_sign, (Hall t) in Hi.
      * rewrite has_flag_set, orb_true_r. split; [|done]. intros _. apply Forall_forall. intros t Ht Hs%incremental_sign.
        assert (existsb incremental toks = true); [|congruence]. apply existsb_exists. exists t. by rewrite <- list_elem_of_In.
  - intros Hno. destruct (mapM allowedip_entry toks) as [es|] eqn:Em; [|destruct H as [p' ->]; eauto].
    apply mapM_denotes in Em; [|done]. by destruct (Hno toks es Hl).
Qed.

Lemma parse_allowedips_correct_witness :
  (∃ p' last', run (parse_allowedips (plat := arm64) (net := net0) wgpeer_zero None (str "10.0.0.0/8,-192.168.1.1")) = Done (true, p', last') ∧
    allowedips p' = [{| family := AF_INET; ip := [10; 0; 0; 0] ++ replicate 12 0; cidr := 8; ai_flags := 0 |};
                     {| family := AF_INET; ip := [192; 168; 1; 1] ++ replicate 12 0; cidr := 32; ai_flags := WGALLOWEDIP_REMOVE_ME |}] ∧
    has_flag (p_flags p') WGPEER_REPLACE_ALLOWEDIPS ≠ true).
Proof.
  set (es := [{| family := AF_INET; ip := [10; 0; 0; 0] ++ replicate 12 0; cidr := 8; ai_flags := 0 |};
              {| family := AF_INET; ip := [192; 168; 1; 1] ++ replicate 12 0; cidr := 32; ai_flags := WGALLOWEDIP_REMOVE_ME |}]).
  destruct (parse_allowedips_correct arm64 net0 net0_laws wgpeer_zero None (str "10.0.0.0/8,-192.168.1.1") eq_refl eq_refl ltac:(done)) as [H _].
  destruct (H [str "10.0.0.0/8"; str "-192.168.1.1"] es) as (p' & last' & Hr & Ha & _ & Hf).
  - split; [reflexivity|]. repeat constructor; apply (bool_decide_unpack _); vm_compute; reflexivity.
  - constructor; [|constructor; [|constructor]].
    + exists [], (str "10.0.0.0"), (str "/8"), 0, AF_INET, 32, [10; 0; 0; 0], 8. split; [reflexivity|]. split; [constructor|]. split; [intros _ [?|?]; discriminate|].
      split; [apply (bool_decide_unpack _); vm_compute; reflexivity|]. split; [constructor; [apply (bool_decide_unpack _); vm_compute; reflexivity|vm_compute; reflexivity]|]. split; [|reflexivity].
      apply (Prefix (str "8") 32); [split; [discriminate|repeat constructor; discriminate]|vm_compute; discriminate].
    + exists (str "-"), (str "192.168.1.1"), [], WGALLOWEDIP_REMOVE_ME, AF_INET, 32, [192; 168; 1; 1], 32. split; [reflexivity|]. split; [constructor|]. split; [intros ?; discriminate|].
      split; [apply (bool_decide_unpack _); vm_compute; reflexivity|]. split; [constructor; [apply (bool_decide_unpack _); vm_compute; reflexivity|vm_compute; reflexivity]|]. split; [constructor|reflexivity].
  - exists p', last'. split; [exact Hr|]. split; [exact Ha|]. intros Hrep. apply Hf in Hrep. inversion_clear Hrep as [|? ? _ Hrest]. inversion_clear Hrest as [|? ? Hs _].
    apply Hs. right. reflexivity.
Defined.
