(* ===== verification/Setconf.v ===== *)
(** * Setconf: setconf.c and set.c

    [wg setconf], [wg addconf] and [wg syncconf] read a configuration file and
    hand the device to the kernel or to a userspace implementation; [wg set]
    does so with a device read from its arguments.  [sync_conf] rewrites the
    device so that the peers that stay are not torn down: it sorts the public
    keys of the file and of the running interface together and asks for the
    removal of those that only the interface has.

    The device interface is the class [Ipc] (ipc.h), and [qsort] the class
    [Qsort]; both are parameters here. *)

From Stdlib Require Import Ascii String.
From stdpp Require Import base numbers option sets list list_numbers sorting strings gmap.
From S2P Require Import Prelude CLib Ctype Encoding Containers Config NetLibModel ConfigFacts.
#[local] Open Scope c_scope.

(** ** Interfaces *)

(** ipc.h: the return value of [ipc_get_device(&dev, iface)] with [dev], that of
    [ipc_set_device(dev)], and the buffer of NUL-terminated names that
    [ipc_list_devices()] returns, NULL on failure. *)
Class Ipc := {
  ipc_get_device : bytes → Z * option wgdevice;
  ipc_set_device : wgdevice → Z;
  ipc_list_devices : option bytes;
}.

(** A call that returns 0 has stored a device, whose data has the ranges of its
    types; the kernel and the userspace implementations identify a peer by its
    key, so no key is listed twice. *)
Class IpcLaws (I : Ipc) := {
  ipc_get_ok nm d : ipc_get_device nm = (0, d) → ∃ d', d = Some d' ∧ device_ok d' ∧ NoDup (p_public_key <$> peers d');
}.

Class Qsort := { qsort : ∀ {A : Type}, (A → A → Z) → list A → list A }.

(** C17 7.22.5.2, for a comparison that is a total preorder on the elements. *)
Class QsortLaws (Q : Qsort) := {
  qsort_perm {A} (cmp : A → A → Z) l : qsort cmp l ≡ₚ l;
  qsort_sorted {A} (P : A → Prop) (cmp : A → A → Z) l :
    Forall P l → (∀ x y, P x → P y → cmp x y <= 0 ∨ cmp y x <= 0) →
    (∀ x y z, P x → P y → P z → cmp x y <= 0 → cmp y z <= 0 → cmp x z <= 0) →
    StronglySorted (λ x y, cmp x y <= 0) (qsort cmp l);
}.

(** ** setconf.c *)

Record pubkey_origin := { pubkey : bytes; from_file : bool }.

Definition pubkey_cmp (a b : pubkey_origin) : Z :=
  let ret := memcmp (pubkey a) (pubkey b) WG_KEY_LEN in
  if truthy ret then ret else c_bool (from_file a) - c_bool (from_file b).

Section Tools.
Context {plat : Platform} {net : NetLib} {ipc : Ipc} {srt : Qsort}.

(** The peer [sync_conf] puts in front of the file's peers. *)
Definition removal (key : bytes) : wgpeer :=
  set_p_public_key key (set_p_flags WGPEER_REMOVE_ME wgpeer_zero).

(** [peer->next_peer = file->first_peer; file->first_peer = peer; ...] *)
Definition prepend_peer (p : wgpeer) (d : wgdevice) : wgdevice :=
  set_last_peer (Some match last_peer d with Some i => S i | None => O end)
    (set_peers (p :: peers d) d).

(** [i == peer_count - 1 || !pubkeys[i + 1].from_file || memcmp(...)] *)
Definition only_running (o : pubkey_origin) (rest : list pubkey_origin) : bool :=
  match rest with
  | [] => true
  | next :: _ => negb (from_file next) || truthy (memcmp (pubkey o) (pubkey next) WG_KEY_LEN)
  end.

(** The loop over the sorted keys. *)
Fixpoint sync_loop (l : list pubkey_origin) (file : wgdevice) : M (bool * wgdevice) :=
  match l with
  | [] => mret (true, file)
  | o :: rest =>
      if from_file o then sync_loop rest file
      else if only_running o rest then
        peer ← alloc;
        if negb peer then mret (false, file)
        else sync_loop rest (prepend_peer (removal (pubkey o)) file)
      else sync_loop rest file
  end.

Definition origins (b : bool) (ps : list wgpeer) : list pubkey_origin :=
  (λ p, {| pubkey := p_public_key p; from_file := b |}) <$> ps.

(** [sync_conf(file)] *)
Definition sync_conf (file : wgdevice) : M (bool * wgdevice) :=
  match peers file with
  | [] => mret (true, file)
  | _ =>
      match ipc_get_device (name file) with
      | (ret, runtime) =>
          if negb (ret =? 0) then mret (false, file)
          else match runtime with
          | None => undefined
          | Some runtime =>
              match peers runtime with
              | [] => mret (true, file)
              | _ =>
                  let file := set_flags (clear_flag (flags file) WGDEVICE_REPLACE_PEERS) file in
                  pubkeys ← alloc;
                  if negb pubkeys then mret (false, file)
                  else sync_loop (qsort pubkey_cmp (origins true (peers file) ++ origins false (peers runtime))) file
              end
          end
      end
  end.

(** [strncpy(device->name, ifname, IFNAMSIZ - 1)] with the NUL after it. *)
Definition store_name (ifname : bytes) (d : wgdevice) : wgdevice :=
  set_name (take (IFNAMSIZ - 1) ifname) d.

(** The lines [getline] returns: an error ends the loop like the end of the
    file does, and the unfinished line is not returned. *)
Definition file_lines (f : cfile) : list bytes :=
  let ls := getlines (f_data f) in
  if f_error f then filter (λ l, last l = Some 10) ls else ls.

(** [setconf_main(argc, argv)]: the exit status, and the device handed to
    [ipc_set_device] if any.  [argv] is the command and its two operands. *)
Definition setconf_main (patience : nat) (argv : list bytes) : M (Z * option wgdevice) :=
  match argv with
  | [cmd; ifname; path] =>
      match fopen path with
      | None => mret (1, None)
      | Some f =>
          r ← config_read_init (strcmp_eq cmd (str "addconf"));
          let '(ok, ctx) := r in
          if negb ok then mret (1, None)
          else
            r ← config_read_lines patience ctx (cstr <$> file_lines f);
            let '(ok, ctx) := r in
            if negb ok then mret (1, None)
            else
              d ← config_read_finish ctx;
              match d with
              | None => mret (1, None)
              | Some d =>
                  let d := store_name ifname d in
                  r ← (if strcmp_eq cmd (str "syncconf") then sync_conf d else mret (true, d));
                  let '(ok, d) := r in
                  if negb ok then mret (1, None)
                  else mret (if negb (ipc_set_device d =? 0) then 1 else 0, Some d)
              end
      end
  | _ => mret (1, None)
  end.

(** ** set.c *)

(** [set_main(argc, argv)] *)
Definition set_main (patience : nat) (argv : list bytes) : M (Z * option wgdevice) :=
  match argv with
  | _ :: ifname :: ((_ :: _) as args) =>
      d ← config_read_cmd patience args;
      match d with
      | None => mret (1, None)
      | Some d =>
          let d := store_name ifname d in
          mret (if negb (ipc_set_device d =? 0) then 1 else 0, Some d)
      end
  | _ => mret (1, None)
  end.
End Tools.

(** ** One [qsort], by insertion *)

Fixpoint sort_insert {A} (cmp : A → A → Z) (x : A) (l : list A) : list A :=
  match l with
  | [] => [x]
  | y :: l' => if cmp x y <=? 0 then x :: l else y :: sort_insert cmp x l'
  end.
#[export] Instance insertion_qsort : Qsort := {| qsort := λ A cmp l, foldr (sort_insert cmp) [] l |}.

Lemma sort_insert_perm {A} (cmp : A → A → Z) x l : sort_insert cmp x l ≡ₚ x :: l.
Proof.
  induction l as [|y l IH]; simpl; [done|]. case_match; [done|]. rewrite IH. apply Permutation_swap.
Qed.

Lemma sort_insert_sorted {A} (P : A → Prop) (cmp : A → A → Z) x l :
  (∀ x y, P x → P y → cmp x y <= 0 ∨ cmp y x <= 0) →
  (∀ x y z, P x → P y → P z → cmp x y <= 0 → cmp y z <= 0 → cmp x z <= 0) →
  P x → Forall P l → StronglySorted (λ x y, cmp x y <= 0) l →
  StronglySorted (λ x y, cmp x y <= 0) (sort_insert cmp x l).
Proof.
  intros Ht Htr Hx Hl Hs. induction Hs as [|y l Hs IH Hy]; simpl; [by repeat constructor|].
  apply Forall_cons in Hl as [Hpy Hl]. destruct (Z.leb_spec (cmp x y) 0) as [Hle|Hgt].
  - constructor; [by constructor|]. constructor; [done|]. rewrite Forall_forall in *.
    intros z Hz. apply (Htr x y z); auto.
  - constructor; [by apply IH|]. rewrite sort_insert_perm. constructor; [|done].
    destruct (Ht x y Hx Hpy); lia.
Qed.

#[export] Instance insertion_qsort_laws : QsortLaws insertion_qsort.
Proof.
  assert (Hperm : ∀ A (cmp : A → A → Z) l, foldr (sort_insert cmp) [] l ≡ₚ l).
  { intros A cmp l. induction l as [|x l IH]; simpl; [done|]. by rewrite sort_insert_perm, IH. }
  constructor; [exact Hperm|]. intros A P cmp l Hl Ht Htr. simpl.
  induction Hl as [|x l Hx Hl IH]; simpl; [constructor|].
  apply (sort_insert_sorted P); auto. by rewrite Hperm.
Qed.
