(* ===== verification/SetconfSpec.v ===== *)
(** * SetconfSpec: what setconf, addconf, syncconf and set hand to the interface

    The effect of a device on a running interface is the documented one
    (uapi/linux/linux/wireguard.h): [WGDEVICE_REPLACE_PEERS] empties the set of
    peers first, then every listed peer is removed when it carries
    [WGPEER_REMOVE_ME] and added or updated otherwise.  Against this
    specification [sync_conf] makes the interface converge to the file without
    ever dropping a peer that the file keeps. *)

From Stdlib Require Import Ascii String.
From stdpp Require Import base numbers option sets list list_numbers sorting strings gmap.
From S2P Require Import Prelude CLib Ctype Encoding Containers Config NetLibModel ConfigFacts Setconf.
#[local] Open Scope c_scope.

(** ** The documented effect on the peers of an interface *)

Definition apply_peer (ks : gset bytes) (p : wgpeer) : gset bytes :=
  if removing p then ks ∖ {[ p_public_key p ]} else {[ p_public_key p ]} ∪ ks.

Definition apply_peers : gset bytes → list wgpeer → gset bytes := foldl apply_peer.

Definition apply_device (ks : gset bytes) (d : wgdevice) : gset bytes :=
  apply_peers (if has_flag (flags d) WGDEVICE_REPLACE_PEERS then ∅ else ks) (peers d).

Definition peer_keys (d : wgdevice) : gset bytes := list_to_set (p_public_key <$> peers d).

Lemma apply_peers_add ks ps :
  Forall (λ p, removing p = false) ps → apply_peers ks ps = list_to_set (p_public_key <$> ps) ∪ ks.
Proof.
  intros Hps. revert ks. induction Hps as [|p ps Hp Hps IH]; intros ks; csimpl; [set_solver|].
  unfold apply_peers in *. simpl. rewrite IH. unfold apply_peer. rewrite Hp. set_solver.
Qed.

Lemma apply_peers_remove ks keys :
  apply_peers ks (removal <$> keys) = ks ∖ list_to_set keys.
Proof.
  revert ks. induction keys as [|k keys IH]; intros ks; csimpl; [set_solver|].
  unfold apply_peers in *. simpl. rewrite IH. unfold apply_peer. simpl. set_solver.
Qed.

Lemma apply_peers_app ks ps qs : apply_peers ks (ps ++ qs) = apply_peers (apply_peers ks ps) qs.
Proof. apply foldl_app. Qed.

(** ** The order of [pubkey_cmp] *)

Lemma pubkey_cmp_total a b : pubkey_cmp a b <= 0 ∨ pubkey_cmp b a <= 0.
Proof.
  unfold pubkey_cmp, truthy. pose proof (memcmp_total (pubkey a) (pubkey b) WG_KEY_LEN) as Ht.
  pose proof (memcmp_sym (pubkey a) (pubkey b) WG_KEY_LEN) as H1.
  pose proof (memcmp_sym (pubkey b) (pubkey a) WG_KEY_LEN) as H2.
  destruct (Z.eqb_spec (memcmp (pubkey a) (pubkey b) WG_KEY_LEN) 0),
    (Z.eqb_spec (memcmp (pubkey b) (pubkey a) WG_KEY_LEN) 0); cbn [negb];
    destruct (from_file a), (from_file b); cbn [c_bool]; lia.
Qed.

Lemma pubkey_cmp_trans a b c :
  pubkey_cmp a b <= 0 → pubkey_cmp b c <= 0 → pubkey_cmp a c <= 0.
Proof.
  unfold pubkey_cmp, truthy.
  destruct (memcmp_trans (pubkey a) (pubkey b) (pubkey c) WG_KEY_LEN) as (H1 & H2 & H3).
  destruct (memcmp_trans (pubkey b) (pubkey c) (pubkey a) WG_KEY_LEN) as (H4 & H5 & H6).
  pose proof (memcmp_sym (pubkey a) (pubkey c) WG_KEY_LEN).
  destruct (Z.eqb_spec (memcmp (pubkey a) (pubkey b) WG_KEY_LEN) 0),
    (Z.eqb_spec (memcmp (pubkey b) (pubkey c) WG_KEY_LEN) 0),
    (Z.eqb_spec (memcmp (pubkey a) (pubkey c) WG_KEY_LEN) 0);
    destruct (from_file a), (from_file b), (from_file c); cbn [negb c_bool]; try lia.
Qed.

(** Keys of full length are compared exactly. *)
Definition origin_ok (o : pubkey_origin) : Prop := key_ok (pubkey o) = true.

Lemma origin_length o : origin_ok o → length (pubkey o) = WG_KEY_LEN.
Proof. by intros [? _]%key_ok_spec. Qed.

Lemma pubkey_cmp_le a b : pubkey_cmp a b <= 0 → memcmp (pubkey a) (pubkey b) WG_KEY_LEN <= 0.
Proof. unfold pubkey_cmp, truthy. case_match eqn:E; [done|]. apply negb_false_iff, Z.eqb_eq in E. lia. Qed.

Lemma pubkey_cmp_squeeze a b c :
  origin_ok a → origin_ok b → pubkey a = pubkey c →
  pubkey_cmp a b <= 0 → pubkey_cmp b c <= 0 → pubkey b = pubkey a.
Proof.
  intros Ha%origin_length Hb%origin_length Hac H1%pubkey_cmp_le H2%pubkey_cmp_le. rewrite <- Hac in H2.
  destruct (memcmp_trans (pubkey b) (pubkey a) (pubkey b) WG_KEY_LEN) as (_ & H3 & H4).
  assert (memcmp (pubkey b) (pubkey b) WG_KEY_LEN = 0) by by apply memcmp_eq.
  apply (memcmp_eq _ _ WG_KEY_LEN); [done|done|]. lia.
Qed.

Lemma pubkey_cmp_file_first a b :
  origin_ok a → pubkey a = pubkey b → from_file a = true → from_file b = false → 0 < pubkey_cmp a b.
Proof.
  intros Ha%origin_length Hab Hf Hg. unfold pubkey_cmp. rewrite <- Hab.
  replace (memcmp (pubkey a) (pubkey a) WG_KEY_LEN) with 0 by (symmetry; by apply memcmp_eq).
  rewrite Hf, Hg. cbn. lia.
Qed.

(** ** The loop of [sync_conf] *)

(** The keys whose removal the loop asks for, in the order of the loop. *)
Fixpoint running_only (l : list pubkey_origin) : list bytes :=
  match l with
  | [] => []
  | o :: rest =>
      if negb (from_file o) && only_running o rest then pubkey o :: running_only rest
      else running_only rest
  end.

Definition running_keys (l : list pubkey_origin) : list bytes :=
  pubkey <$> filter (λ o, from_file o = false) l.
Definition file_keys (l : list pubkey_origin) : list bytes :=
  pubkey <$> filter (λ o, from_file o = true) l.

Lemma origin_eta o : o = {| pubkey := pubkey o; from_file := from_file o |}.
Proof. by destruct o. Qed.

Lemma elem_of_running_keys k l : k ∈ running_keys l ↔ {| pubkey := k; from_file := false |} ∈ l.
Proof.
  unfold running_keys. rewrite list_elem_of_fmap. split.
  - intros (o & -> & [Hf Ho]%list_elem_of_filter). by rewrite <- Hf, <- origin_eta.
  - intros Ho. exists {| pubkey := k; from_file := false |}. split; [done|]. by apply list_elem_of_filter.
Qed.

Lemma elem_of_file_keys k l : k ∈ file_keys l ↔ {| pubkey := k; from_file := true |} ∈ l.
Proof.
  unfold file_keys. rewrite list_elem_of_fmap. split.
  - intros (o & -> & [Hf Ho]%list_elem_of_filter). by rewrite <- Hf, <- origin_eta.
  - intros Ho. exists {| pubkey := k; from_file := true |}. split; [done|]. by apply list_elem_of_filter.
Qed.

(** In a sorted list the test made on the next element decides whether the key
    is one of the file's. *)
Lemma only_running_spec o rest :
  Forall origin_ok (o :: rest) → StronglySorted (λ x y, pubkey_cmp x y <= 0) (o :: rest) →
  from_file o = false → pubkey o ∉ running_keys rest →
  only_running o rest = true ↔ pubkey o ∉ file_keys rest.
Proof.
  intros [Ho Hok]%Forall_cons [Hsort Hle]%StronglySorted_inv Hf Hnd.
  rewrite elem_of_file_keys. rewrite elem_of_running_keys in Hnd.
  destruct rest as [|next rest]; cbn [only_running]; [set_solver|].
  apply Forall_cons in Hok as [Hnext Hok]. apply Forall_cons in Hle as [Hle1 Hle].
  unfold truthy. rewrite orb_true_iff, !negb_true_iff, Z.eqb_neq, memcmp_eq by by apply origin_length. split.
  - intros Hor [Heq|Hin]%elem_of_cons.
    + rewrite <- Heq in Hor. simpl in Hor. naive_solver.
    + apply StronglySorted_inv in Hsort as [_ Hle2]. rewrite Forall_forall in Hle2.
      pose proof (pubkey_cmp_squeeze o next {| pubkey := pubkey o; from_file := true |} Ho Hnext eq_refl Hle1 (Hle2 _ Hin)) as Hk.
      destruct Hor as [Hor|Hor]; [|congruence]. apply Hnd. apply elem_of_cons. left.
      rewrite (origin_eta next). congruence.
  - intros Hnot. destruct (from_file next) eqn:E; [|auto]. right. intros Heq. apply Hnot.
    apply elem_of_cons. left. rewrite (origin_eta next). congruence.
Qed.

Lemma running_keys_cons o l :
  running_keys (o :: l) = if from_file o then running_keys l else pubkey o :: running_keys l.
Proof. unfold running_keys. rewrite filter_cons. by destruct (from_file o). Qed.
Lemma file_keys_cons o l :
  file_keys (o :: l) = if from_file o then pubkey o :: file_keys l else file_keys l.
Proof. unfold file_keys. rewrite filter_cons. by destruct (from_file o). Qed.

(** The keys to remove are exactly those the file does not have. *)
Lemma running_only_spec l :
  Forall origin_ok l → StronglySorted (λ x y, pubkey_cmp x y <= 0) l → NoDup (running_keys l) →
  (∀ k, k ∈ running_only l ↔ k ∈ running_keys l ∧ k ∉ file_keys l) ∧ NoDup (running_only l).
Proof.
  induction l as [|o l IH]; intros Hok Hs Hnd; cbn [running_only]; [split; [set_solver|constructor]|].
  pose proof Hok as [Ho Hok']%Forall_cons. pose proof Hs as [Hs' Hle]%StronglySorted_inv.
  rewrite running_keys_cons, file_keys_cons in *. destruct (from_file o) eqn:Hf; cbn [negb andb].
  - destruct (IH Hok' Hs' Hnd) as [IHk IHd]. split; [|done]. intros k. rewrite IHk.
    split; [|set_solver]. intros [Hr Hn]. split; [done|]. intros [->|]%elem_of_cons; [|done].
    apply elem_of_running_keys in Hr. rewrite Forall_forall in Hle. apply Hle in Hr.
    pose proof (pubkey_cmp_file_first o {| pubkey := pubkey o; from_file := false |} Ho eq_refl Hf eq_refl). lia.
  - apply NoDup_cons in Hnd as [Hno Hnd]. destruct (IH Hok' Hs' Hnd) as [IHk IHd].
    pose proof (only_running_spec o l Hok Hs Hf Hno) as Hspec.
    destruct (only_running o l).
    + split; [|apply NoDup_cons; split; [|done]; rewrite IHk; tauto].
      intros k. rewrite !elem_of_cons, IHk. apply proj1 in Hspec. specialize (Hspec eq_refl).
      split; [intros [->|[]]; auto|intros [[->|] ?]; auto].
    + split; [|done]. intros k. rewrite IHk, elem_of_cons. split; [tauto|].
      intros [[->|] Hn]; [|done]. apply Hspec in Hn. done.
Qed.

Lemma running_keys_origins fs rs :
  running_keys (origins true fs ++ origins false rs) = p_public_key <$> rs.
Proof.
  unfold origins. induction fs as [|p fs IH]; csimpl; [|by rewrite running_keys_cons].
  induction rs as [|p rs IH]; csimpl; [done|]. by rewrite running_keys_cons, IH.
Qed.

Lemma file_keys_origins fs rs :
  file_keys (origins true fs ++ origins false rs) = p_public_key <$> fs.
Proof.
  unfold origins. induction fs as [|p fs IH]; csimpl; [|by rewrite file_keys_cons, IH].
  induction rs as [|p rs IH]; csimpl; [done|]. by rewrite file_keys_cons.
Qed.

Lemma device_ok_prepend d key : key_ok key = true → device_ok d → device_ok (prepend_peer (removal key) d).
Proof.
  intros Hk (?&?&?&?&Hps). unfold device_ok. simpl. split_and!; try done; try lia.
  constructor; [|done]. exact (conj Hk (proj2 peer_ok_zero)).
Qed.

Lemma sync_loop_result l file o :
  match sync_loop l file o with
  | Done ((true, file'), _) =>
      peers file' = (removal <$> reverse (running_only l)) ++ peers file ∧
      flags file' = flags file ∧ name file' = name file ∧
      (device_ok file → Forall origin_ok l → device_ok file')
  | Done ((false, _), _) => o ≠ []
  | _ => False
  end.
Proof.
  revert file o. induction l as [|p l IH]; intros file o; cbn [sync_loop running_only]; [done|].
  assert (Hskip : ∀ file', (device_ok file → Forall origin_ok l → device_ok file') →
    device_ok file → Forall origin_ok (p :: l) → device_ok file').
  { intros file' H ? [_ ?]%Forall_cons. auto. }
  destruct (from_file p); cbn [negb andb].
  { specialize (IH file o). destruct (sync_loop l file o) as [[[[] ?] ?]| | |]; naive_solver. }
  destruct (only_running p l).
  2:{ specialize (IH file o). destruct (sync_loop l file o) as [[[[] ?] ?]| | |]; naive_solver. }
  specialize (IH (prepend_peer (removal (pubkey p)) file)).
  assert (Hdone : ∀ o' file' r, sync_loop l (prepend_peer (removal (pubkey p)) file) o' = Done ((true, file'), r) →
    peers file' = (removal <$> reverse (pubkey p :: running_only l)) ++ peers file ∧
    flags file' = flags file ∧ name file' = name file ∧
    (device_ok file → Forall origin_ok (p :: l) → device_ok file')).
  { intros o' file' r E. specialize (IH o'). rewrite E in IH. destruct IH as (IHp & IHf & IHn & IHd).
    split_and!; [by rewrite IHp, reverse_cons, fmap_app, <- app_assoc|done..|].
    intros Hd [? ?]%Forall_cons. apply IHd; [by apply device_ok_prepend|done]. }
  unfold mbind, M_bind. destruct o as [|[] o]; cbn [alloc negb]; [specialize (IH [])|specialize (IH o)|done].
  all: destruct (sync_loop _ _ _) as [[[[] file'] r]| | |] eqn:E; first [exact (Hdone _ _ _ E) | done | exact IH].
Qed.

(** ** [sync_conf] *)

Section Facts.
Context {plat : Platform} {net : NetLib} {laws : NetLibLaws net}.
Context {ipc : Ipc} {ipcl : IpcLaws ipc} {srt : Qsort} {srtl : QsortLaws srt}.

Lemma device_ok_origins b d : device_ok d → Forall origin_ok (origins b (peers d)).
Proof.
  intros (_&_&_&_&Hps). unfold origins. apply Forall_fmap.
  eapply Forall_impl; [exact Hps|]. by intros p [? _].
Qed.

Lemma pubkeys_ok file runtime :
  device_ok file → device_ok runtime → NoDup (p_public_key <$> peers runtime) →
  let l := qsort pubkey_cmp (origins true (peers file) ++ origins false (peers runtime)) in
  Forall origin_ok l ∧ NoDup (running_only l) ∧
  ∀ k, k ∈ running_only l ↔ k ∈ p_public_key <$> peers runtime ∧ k ∉ p_public_key <$> peers file.
Proof.
  intros Hf Hr Hnd l. set (l0 := origins true (peers file) ++ origins false (peers runtime)) in l.
  assert (Hp : l ≡ₚ l0) by apply qsort_perm.
  assert (Hok : Forall origin_ok l).
  { rewrite Hp. apply Forall_app. split; by apply device_ok_origins. }
  assert (Hrk : running_keys l ≡ₚ p_public_key <$> peers runtime).
  { rewrite <- (running_keys_origins (peers file)). unfold running_keys. by rewrite Hp. }
  assert (Hfk : file_keys l ≡ₚ p_public_key <$> peers file).
  { rewrite <- (file_keys_origins _ (peers runtime)). unfold file_keys. by rewrite Hp. }
  destruct (running_only_spec l) as [Hspec Hd]; [done| |by rewrite Hrk|].
  { apply (qsort_sorted (λ _, True)); [by apply Forall_true|..].
    - intros x y _ _. apply pubkey_cmp_total.
    - intros x y z _ _ _. apply pubkey_cmp_trans. }
  split_and!; [done..|]. intros k. by rewrite Hspec, Hrk, Hfk.
Qed.

(** A successful [sync_conf], whatever was allocated: the peers of the file, after
    requests to remove exactly the keys that only the interface has. *)
Definition synced (file file' runtime : wgdevice) : Prop :=
  name file' = name file ∧ device_ok file' ∧
  ∃ gone, peers file' = (removal <$> gone) ++ peers file ∧ NoDup gone ∧
    (file' = file ∧ gone = [] ∧ (peers file = [] ∨ peers runtime = []) ∨
     flags file' = clear_flag (flags file) WGDEVICE_REPLACE_PEERS ∧
     ∀ k, k ∈ gone ↔ k ∈ p_public_key <$> peers runtime ∧ k ∉ p_public_key <$> peers file).

Lemma sync_conf_result file runtime o :
  device_ok file → ipc_get_device (name file) = (0, Some runtime) →
  match sync_conf file o with
  | Done ((true, file'), _) => synced file file' runtime
  | Done ((false, _), _) => o ≠ []
  | _ => False
  end.
Proof.
  intros Hf Hg. destruct (ipc_get_ok _ _ Hg) as (r & [= <-] & Hr & Hnd).
  unfold sync_conf. rewrite Hg. cbn [Z.eqb negb].
  assert (Hid : peers file = [] ∨ peers runtime = [] → synced file file runtime).
  { intros He. split_and!; try done. exists []. split_and!; [done|constructor|]. left. auto. }
  destruct (peers file) as [|p ps] eqn:Ef; [exact (Hid (or_introl eq_refl))|].
  destruct (peers runtime) as [|q qs] eqn:Er; [exact (Hid (or_intror eq_refl))|].
  set (file1 := set_flags _ file). rewrite <- Er.
  destruct (pubkeys_ok file1 runtime Hf Hr) as (Hok & Hdup & Hmem); [by rewrite Er|].
  assert (Hloop : ∀ o', match sync_loop (qsort pubkey_cmp (origins true (peers file1) ++ origins false (peers runtime))) file1 o' with
    | Done ((true, file'), _) => synced file file' runtime
    | Done ((false, _), _) => o' ≠ [] | _ => False end).
  { intros o'. pose proof (sync_loop_result (qsort pubkey_cmp (origins true (peers file1) ++ origins false (peers runtime))) file1 o') as H.
    destruct (sync_loop _ _ _) as [[[[] file'] r']| | |]; [|done..]. destruct H as (Hp & Hfl & Hn & Hd).
    split_and!; [done|by apply Hd|]. eexists. split_and!; [exact Hp|by rewrite reverse_Permutation|]. right.
    split; [done|]. intros k. rewrite elem_of_reverse. apply Hmem. }
  unfold mbind, M_bind. destruct o as [|[] o]; cbn [alloc negb]; [exact (Hloop [])| |done].
  specialize (Hloop o). destruct (sync_loop _ _ _) as [[[[] file'] r']| | |]; done.
Qed.

Lemma replace_cleared fl : has_flag (clear_flag fl WGDEVICE_REPLACE_PEERS) WGDEVICE_REPLACE_PEERS = false.
Proof. rewrite has_flag_clear. change (u32 (~~ WGDEVICE_REPLACE_PEERS) .& WGDEVICE_REPLACE_PEERS) with 0. by rewrite Z.land_0_r. Qed.

(** The interface ends with the peers of the file, and at every step of the way it
    has the peers that were there and stay. *)
Lemma synced_converges file file' runtime :
  synced file file' runtime → Forall (λ p, removing p = false) (peers file) →
  has_flag (flags file) WGDEVICE_REPLACE_PEERS = true →
  apply_device (peer_keys runtime) file' = peer_keys file ∧
  ∀ n, peer_keys runtime ∩ peer_keys file ⊆
       apply_peers (if has_flag (flags file') WGDEVICE_REPLACE_PEERS then ∅ else peer_keys runtime) (take n (peers file')).
Proof.
  intros (_ & _ & gone & Hp & _ & Hcase) Hrm Hrep. unfold apply_device, peer_keys.
  destruct Hcase as [(-> & -> & He)|(Hfl & Hgone)].
  - rewrite Hrep, apply_peers_add by done. split; [set_solver|]. intros n.
    destruct He as [-> | ->]; set_solver.
  - rewrite Hfl, replace_cleared, Hp, apply_peers_app, apply_peers_remove, apply_peers_add by done. split.
    + apply set_eq. intros k. rewrite elem_of_union, elem_of_difference, !elem_of_list_to_set, Hgone.
      destruct (decide (k ∈ p_public_key <$> peers file)); tauto.
    + intros n. rewrite take_app, apply_peers_app, <- fmap_take, apply_peers_remove.
      rewrite apply_peers_add by by apply Forall_take. intros k. rewrite elem_of_intersection, !elem_of_list_to_set.
      intros [Hk1 Hk2]. apply elem_of_union_r. rewrite elem_of_difference, !elem_of_list_to_set. split; [done|].
      intros Hin%subseteq_take%Hgone. tauto.
Qed.

(** C5: [wg syncconf]: when the running interface can be read and memory
    suffices, [sync_conf] succeeds; applying the device it produces leaves
    exactly the peers of the file, and after every single peer of the update the
    peers present before that the file keeps are still there. *)
Theorem sync_conf_converges file runtime :
  device_ok file → Forall (λ p, removing p = false) (peers file) →
  has_flag (flags file) WGDEVICE_REPLACE_PEERS = true →
  ipc_get_device (name file) = (0, Some runtime) →
  ∃ file', run (sync_conf file) = Done (true, file') ∧
    apply_device (peer_keys runtime) file' = peer_keys file ∧
    ∀ n, peer_keys runtime ∩ peer_keys file ⊆
         apply_peers (if has_flag (flags file') WGDEVICE_REPLACE_PEERS then ∅ else peer_keys runtime)
                     (take n (peers file')).
Proof.
  intros Hd Hrm Hrep Hg. pose proof (sync_conf_result file runtime [] Hd Hg) as H. unfold run.
  destruct (sync_conf file []) as [[[[] file'] r]| | |]; try done. exists file'. split; [done|].
  by apply synced_converges.
Qed.

(** ** The commands *)

(** A device read from a file: well formed, every peer keyed, none removed. *)
Definition file_device (rep : bool) (d : wgdevice) : Prop :=
  device_ok d ∧ Forall (λ p, keyed p = true) (peers d) ∧ Forall (λ p, removing p = false) (peers d) ∧
  has_flag (flags d) WGDEVICE_REPLACE_PEERS = rep.

Lemma config_read_finish_ok rep ctx d :
  config_ctx_ok rep ctx d →
  safe (config_read_finish ctx) (λ r, ∀ d', r = Some d' → file_device rep d').
Proof.
  intros [Hd Hok _ _ _ Hrm Hrep]. unfold config_read_finish. rewrite Hd.
  case_match eqn:E; apply safe_ret; [|done]. intros d' [= <-].
  split_and!; try done. by apply forallb_Forall_true in E.
Qed.

Lemma file_lines_bytes f :
  all_bytes (f_data f) = true → Forall (λ l, all_bytes l = true) (cstr <$> file_lines f).
Proof.
  intros Hb%getlines_bytes. apply Forall_fmap. unfold file_lines.
  assert (Hall : Forall (λ l, all_bytes (cstr l) = true) (getlines (f_data f))).
  { eapply Forall_impl; [exact Hb|]. intros l Hl. eapply all_bytes_sub; [apply cstr_sub|done]. }
  case_match; [|done]. rewrite Forall_forall in *.
  intros l [_ Hl]%list_elem_of_filter. by apply Hall.
Qed.

(** What reaches [ipc_set_device]. *)
Definition sent_ok (r : Z * option wgdevice) : Prop :=
  (r.1 = 0 → ∃ d, r.2 = Some d ∧ ipc_set_device d = 0) ∧
  ∀ d, r.2 = Some d →
    device_ok d ∧ (length (name d) < IFNAMSIZ)%nat ∧
    Forall (λ p, keyed p = true ∨ p = removal (p_public_key p)) (peers d).

Lemma sent_ok_none : sent_ok (1, None).
Proof. done. Qed.

Lemma sent_ok_some d :
  device_ok d → (length (name d) < IFNAMSIZ)%nat →
  Forall (λ p, keyed p = true ∨ p = removal (p_public_key p)) (peers d) →
  sent_ok (if negb (ipc_set_device d =? 0) then 1 else 0, Some d).
Proof.
  intros Hd Hn Hp. split; simpl; [|by intros ? [= <-]].
  destruct (Z.eqb_spec (ipc_set_device d) 0); [eauto|done].
Qed.
Hint Resolve sent_ok_none : safe.

Lemma store_name_length ifname d : (length (name (store_name ifname d)) < IFNAMSIZ)%nat.
Proof. simpl. rewrite length_take. unfold IFNAMSIZ. lia. Qed.

(** Reading the file, as [setconf_main] does. *)
Lemma setconf_main_post patience cmd ifname path (Q : Z * option wgdevice → Prop) :
  Q (1, None) →
  (∀ d, file_device (negb (strcmp_eq cmd (str "addconf"))) d →
     safe (r ← (if strcmp_eq cmd (str "syncconf") then sync_conf (store_name ifname d) else mret (true, store_name ifname d));
           let '(ok, d) := r in
           if negb ok then mret (1, None)
           else mret (if negb (ipc_set_device d =? 0) then 1 else 0, Some d)) Q) →
  safe (setconf_main patience [cmd; ifname; path]) Q.
Proof.
  intros H1 Hcont. unfold setconf_main. destruct (fopen path) as [f|] eqn:Ef; [|by apply safe_ret].
  eapply safe_bind; [apply config_read_init_ok|]. intros [[|] ctx] Hctx; [|by apply safe_ret].
  destruct Hctx as [d Hctx]. cbn [negb]. eapply safe_bind.
  { eapply config_read_lines_ok; [by eapply file_lines_bytes, fopen_bytes|exact Hctx]. }
  intros [[|] ctx'] Hctx'; [|by apply safe_ret]. destruct Hctx' as [d' Hctx']. cbn [negb].
  eapply safe_bind; [by eapply config_read_finish_ok|]. intros [d1|] Hd1; [|by apply safe_ret].
  by apply Hcont, Hd1.
Qed.

Lemma sync_conf_safe file :
  device_ok file → safe (sync_conf file) (λ '(ok, file'), ok = true → ∃ runtime, 
    peers file ≠ [] ∧ ipc_get_device (name file) = (0, Some runtime) ∧ synced file file' runtime ∨ file' = file ∧ peers file = []).
Proof.
  intros Hd o. destruct (peers file) as [|p ps] eqn:Ef.
  { unfold sync_conf. rewrite Ef. intros _. exists wgdevice_zero. auto. }
  destruct (ipc_get_device (name file)) as [ret [runtime|]] eqn:Eg;
    (destruct (Z.eqb_spec ret 0) as [->|Hne]; [|unfold sync_conf; by rewrite Ef, Eg, (proj2 (Z.eqb_neq ret 0) Hne)]).
  - pose proof (sync_conf_result file runtime o Hd Eg) as H.
    destruct (sync_conf file o) as [[[[] file'] r]| | |]; try done. intros _. exists runtime. auto.
  - apply ipc_get_ok in Eg as (? & [=] & _).
Qed.

(** C6: [wg setconf], [wg addconf] and [wg syncconf] on any file: no allocation
    failure, parse error or content of the file leads to undefined behaviour; a
    device handed to the interface is well formed, its name fits, each of its
    peers has its public key or is a plain removal request; and the exit status
    is 0 only when the interface accepted the device. *)
Theorem setconf_main_safe patience argv :
  safe (setconf_main patience argv) sent_ok.
Proof.
  destruct argv as [|cmd [|ifname [|path [|]]]]; try (apply safe_ret, sent_ok_none).
  apply setconf_main_post; [apply sent_ok_none|]. intros d (Hd & Hk & Hr & _).
  pose proof (store_name_length ifname d) as Hn. set (d1 := store_name ifname d) in *.
  assert (Hd1 : device_ok d1) by done. assert (Hp1 : peers d1 = peers d) by done. clearbody d1.
  destruct (strcmp_eq cmd (str "syncconf")).
  - eapply safe_bind; [by apply sync_conf_safe|]. intros [[|] d'] Hs; [|by apply safe_ret, sent_ok_none].
    apply safe_ret, sent_ok_some; destruct (Hs eq_refl) as [rt [(_ & _ & Hname & Hd' & gone & Hp' & _)|[-> _]]]; try done.
    + by rewrite Hname.
    + rewrite Hp', Hp1. apply Forall_app. split; [|eapply Forall_impl; [exact Hk|]; auto].
      apply Forall_fmap, Forall_true. by right.
    + rewrite Hp1. eapply Forall_impl; [exact Hk|]. auto.
  - apply safe_ret, sent_ok_some; [done..|]. rewrite Hp1. eapply Forall_impl; [exact Hk|]. auto.
Qed.

(** [wg syncconf] end to end: the device it hands to a running interface is
    made of removal requests followed by keyed peers, and applying it leaves
    exactly those keyed peers on the interface. *)
Theorem syncconf_end_to_end patience ifname path runtime :
  ipc_get_device (take (IFNAMSIZ - 1) ifname) = (0, Some runtime) →
  safe (setconf_main patience [str "syncconf"; ifname; path]) (λ '(_, sent), ∀ d, sent = Some d →
    ∃ gone kept, peers d = (removal <$> gone) ++ kept ∧ Forall (λ p, keyed p = true) kept ∧
      apply_device (peer_keys runtime) d = list_to_set (p_public_key <$> kept)).
Proof.
  intros Hg. apply setconf_main_post; [done|]. intros d (Hd & Hk & Hr & Hrep).
  assert (Hcmd : strcmp_eq (str "syncconf") (str "syncconf") = true) by by apply bool_decide_eq_true.
  rewrite Hcmd. clear Hcmd. eapply (safe_bind _ _ (λ '(ok, d'), ok = true → synced (store_name ifname d) d' runtime)).
  { intros o. pose proof (sync_conf_result (store_name ifname d) runtime o Hd Hg) as H.
    destruct (sync_conf _ o) as [[[[] d'] r]| | |]; done. }
  intros [[|] d'] Hs; [|by apply safe_ret]. specialize (Hs eq_refl). apply safe_ret. intros ? [= <-].
  destruct (synced_converges _ _ _ Hs Hr Hrep) as [Hc _].
  destruct Hs as (_ & _ & gone & Hp & _). by exists gone, (peers d).
Qed.

(** What [wg set] hands to [ipc_set_device]: every peer it names has been given its key. *)
Definition set_sent_ok (r : Z * option wgdevice) : Prop :=
  (r.1 = 0 ∨ r.1 = 1) ∧ (r.1 = 0 → ∃ d, r.2 = Some d ∧ ipc_set_device d = 0) ∧
  ∀ d, r.2 = Some d → device_ok d ∧ (length (name d) < IFNAMSIZ)%nat ∧ Forall (λ p, keyed p = true) (peers d).

Lemma set_sent_ok_none : set_sent_ok (1, None).
Proof. split; [by right|done]. Qed.

(** C22: [wg set] on any arguments, allocator and interface: no undefined behaviour; the result is 0 or 1, and 0 only when the
    interface took the device; and a device handed to the interface is well formed, its name fits and each of its peers, one
    that is to be removed included, has been given its public key. *)
Theorem set_main_safe patience argv :
  Forall (λ a, all_bytes a = true) argv → safe (set_main patience argv) set_sent_ok.
Proof.
  intros Hb. destruct argv as [|cmd [|ifname [|a args]]]; try (apply safe_ret, set_sent_ok_none).
  cbn [set_main]. eapply safe_bind; [apply config_read_cmd_ok; by do 2 apply Forall_cons in Hb as [_ Hb]|].
  intros [d|] Hd; [|apply safe_ret, set_sent_ok_none]. destruct (Hd d eq_refl) as [Hok Hk].
  apply safe_ret. split; [|split]; [by destruct (negb _); auto| |].
  - cbn [fst snd]. destruct (Z.eqb_spec (ipc_set_device (store_name ifname d)) 0); [eauto|done].
  - intros ? [= <-]. split; [done|]. split; [apply store_name_length|done].
Qed.
End Facts.

(** ** A concrete interface, and the theorems at work *)

(** Keys made of one repeated byte, and an interface running peers 1 and 2. *)
Definition key_of (b : Z) : bytes := replicate WG_KEY_LEN b.
Definition peer_of (b : Z) : wgpeer :=
  set_p_flags WGPEER_HAS_PUBLIC_KEY (set_p_public_key (key_of b) wgpeer_zero).
Definition device_of (keys : list Z) : wgdevice :=
  set_flags WGDEVICE_REPLACE_PEERS (set_peers (peer_of <$> keys) wgdevice_zero).

#[export] Instance ipc12 : Ipc := {|
  ipc_get_device := λ _, (0, Some (device_of [1; 2])); ipc_set_device := λ _, 0; ipc_list_devices := Some [0] |}.

Lemma device_of_ok keys : Forall (λ b, 0 <= b < 256) keys → device_ok (device_of keys).
Proof.
  intros Hk. destruct device_ok_zero as (?&?&?&?&_). unfold device_ok. simpl. split_and!; try done; try lia.
  apply Forall_fmap. eapply Forall_impl; [exact Hk|]. intros b Hb.
  refine (conj _ (proj2 peer_ok_zero)). apply key_ok_spec. split; [done|].
  change (all_bytes (replicate WG_KEY_LEN b) = true). apply forallb_Forall_true, Forall_replicate.
  by apply is_byte_spec.
Qed.

#[export] Instance ipc12_laws : IpcLaws ipc12.
Proof.
  constructor. intros nm d [= <-]. eexists. split; [done|]. split.
  - apply device_of_ok. repeat constructor; lia.
  - apply (bool_decide_unpack _). vm_compute. exact I.
Qed.

Lemma sync_conf_converges_witness :
  ∃ file', run (sync_conf (device_of [2; 3])) = Done (true, file') ∧
    apply_device (peer_keys (device_of [1; 2])) file' = peer_keys (device_of [2; 3]) ∧
    ∀ n, peer_keys (device_of [1; 2]) ∩ peer_keys (device_of [2; 3]) ⊆
         apply_peers (if has_flag (flags file') WGDEVICE_REPLACE_PEERS then ∅ else peer_keys (device_of [1; 2]))
                     (take n (peers file')).
Proof.
  apply (sync_conf_converges (ipc := ipc12)); [|repeat constructor|reflexivity|reflexivity].
  apply device_of_ok. repeat constructor; lia.
Defined.

(** A file with one peer, whose key is thirty-two bytes 2. *)
Definition conf2 : bytes := str "[Peer]
PublicKey = AgICAgICAgICAgICAgICAgICAgICAgICAgICAgICAgI= # the second
".
Definition net2 : NetLib := with_file (str "wg0.conf") conf2.

Lemma syncconf_end_to_end_witness :
  safe (setconf_main (plat := arm64) (net := net2) 3 [str "syncconf"; str "wg0"; str "wg0.conf"]) (λ '(_, sent), ∀ d, sent = Some d →
    ∃ gone kept, peers d = (removal <$> gone) ++ kept ∧ Forall (λ p, keyed p = true) kept ∧
      apply_device (peer_keys (device_of [1; 2])) d = list_to_set (p_public_key <$> kept)).
Proof.
  apply (syncconf_end_to_end (ipc := ipc12) (laws := with_file_laws (str "wg0.conf") conf2 eq_refl)).
  reflexivity.
Defined.

(** On that file the device sent asks for the removal of peer 1 and keeps peer 2. *)
Example syncconf_run :
  match run (setconf_main (plat := arm64) (net := net2) 3 [str "syncconf"; str "wg0"; str "wg0.conf"]) with
  | Done (ret, Some d) => Some (ret, map p_flags (peers d), map p_public_key (peers d))
  | _ => None
  end = Some (0, [WGPEER_REMOVE_ME; WGPEER_REPLACE_ALLOWEDIPS .| WGPEER_HAS_PUBLIC_KEY], [key_of 1; key_of 2]).
Proof. vm_compute. reflexivity. Qed.

Lemma setconf_main_safe_witness :
  safe (setconf_main (plat := arm64) (net := net2) 3 [str "setconf"; str "wg0"; str "wg0.conf"]) sent_ok.
Proof. exact (setconf_main_safe (laws := with_file_laws (str "wg0.conf") conf2 eq_refl) 3 _). Defined.

(** Two peers, the second one to be removed. *)
Definition set_peers_args : list bytes :=
  [str "set"; str "wg0"; str "peer"; key_base64 (key_of 1); str "allowed-ips"; str "10.0.0.0/8";
   str "peer"; key_base64 (key_of 2); str "remove"].
Lemma set_main_safe_witness :
  ∃ d, run (set_main (plat := arm64) 3 set_peers_args) = Done (0, Some d) ∧
    map p_public_key (peers d) = [key_of 1; key_of 2] ∧ map removing (peers d) = [false; true] ∧
    device_ok d ∧ Forall (λ p, keyed p = true) (peers d).
Proof.
  assert (Hb : Forall (λ a, all_bytes a = true) set_peers_args) by (repeat constructor).
  pose proof (set_main_safe (plat := arm64) 3 set_peers_args Hb []) as Hs.
  assert (Hrun : ∃ d, set_main (plat := arm64) 3 set_peers_args [] = Done ((0, Some d), []) ∧
    map p_public_key (peers d) = [key_of 1; key_of 2] ∧ map removing (peers d) = [false; true]).
  { eexists. split; [vm_compute; reflexivity|]. split; vm_compute; reflexivity. }
  destruct Hrun as (d & Hr & Hk & Hm). rewrite Hr in Hs. destruct Hs as (_ & _ & Hd). destruct (Hd d eq_refl) as (Hok & _ & Hkeyed).
  exists d. unfold run. rewrite Hr. split; [reflexivity|]. split; [exact Hk|]. split; [exact Hm|]. split; [exact Hok|exact Hkeyed].
Defined.

(** The command really sets the mark on the device it hands over. *)
Example set_main_fwmark :
  run (set_main (plat := arm64) 0 [str "set"; str "wg0"; str "fwmark"; str "0x10"]) =
  Done (0, Some (set_name (str "wg0") (set_flags WGDEVICE_HAS_FWMARK (set_fwmark 16 wgdevice_zero)))).
Proof. reflexivity. Qed.
