(* ===== verification/Showconf.v ===== *)
(** * Showconf: showconf.c

    [wg showconf] prints the configuration of an interface in the format that
    [wg setconf] reads.  The functions below return the bytes written to
    standard output, in order. *)

From Stdlib Require Import Ascii String.
From stdpp Require Import base numbers option sets list list_numbers strings.
From S2P Require Import Prelude CLib Ctype Encoding Containers Config Setconf.
#[local] Open Scope c_scope.

(** [char base64[...]; key_to_base64(base64, key); printf("%s", base64)] *)
Definition print_key (key : bytes) : bytes := cstr (key_to_base64 key).

Definition newline : bytes := [10].

Section Showconf.
Context {net : NetLib} {ipc : Ipc}.

(** The text of an allowed address, when it has one. *)
Definition allowedip_text (a : wgallowedip) : option bytes :=
  if family a =? AF_INET then inet_ntop AF_INET (ip4 a)
  else if family a =? AF_INET6 then inet_ntop AF_INET6 (ip6 a)
  else None.

(** The [for_each_wgallowedip] loop. *)
Fixpoint showconf_allowedips (l : list wgallowedip) : bytes :=
  match l with
  | [] => []
  | a :: next =>
      match allowedip_text a with
      | None => []
      | Some ip => ip ++ str "/" ++ printf_d (cidr a) ++ (if next is [] then [] else str ", ")
      end ++ showconf_allowedips next
  end.

Definition has_endpoint (p : wgpeer) : bool :=
  (sa_family (endpoint p) =? AF_INET) || (sa_family (endpoint p) =? AF_INET6).

(** [[host]:service] or [host:service]. *)
Definition endpoint_text (sa : sockaddr) (host service : bytes) : bytes :=
  if (sa_family sa =? AF_INET6) && has_char host (ch ":")
  then str "[" ++ host ++ str "]:" ++ service
  else host ++ str ":" ++ service.

Definition showconf_endpoint (p : wgpeer) : bytes :=
  if has_endpoint p then
    match getnameinfo (endpoint p) with
    | Some (host, service) => str "Endpoint = " ++ endpoint_text (endpoint p) host service ++ newline
    | None => []
    end
  else [].

(** The body of the [for_each_wgpeer] loop; [more] is [peer->next_peer]. *)
Definition showconf_peer (p : wgpeer) (more : bool) : bytes :=
  str "[Peer]" ++ newline ++ str "PublicKey = " ++ print_key (p_public_key p) ++ newline
  ++ (if has_flag (p_flags p) WGPEER_HAS_PRESHARED_KEY
      then str "PresharedKey = " ++ print_key (preshared_key p) ++ newline else [])
  ++ (if allowedips p is [] then [] else str "AllowedIPs = ")
  ++ showconf_allowedips (allowedips p)
  ++ (if allowedips p is [] then [] else newline)
  ++ showconf_endpoint p
  ++ (if truthy (persistent_keepalive_interval p)
      then str "PersistentKeepalive = " ++ printf_u (persistent_keepalive_interval p) ++ newline else [])
  ++ (if more then newline else []).

Fixpoint showconf_peers (ps : list wgpeer) : bytes :=
  match ps with
  | [] => []
  | p :: next => showconf_peer p (if next is [] then false else true) ++ showconf_peers next
  end.

Definition showconf_device (d : wgdevice) : bytes :=
  str "[Interface]" ++ newline
  ++ (if truthy (listen_port d) then str "ListenPort = " ++ printf_u (listen_port d) ++ newline else [])
  ++ (if truthy (fwmark d) then str "FwMark = 0x" ++ printf_x (fwmark d) ++ newline else [])
  ++ (if has_flag (flags d) WGDEVICE_HAS_PRIVATE_KEY
      then str "PrivateKey = " ++ print_key (private_key d) ++ newline else [])
  ++ newline ++ showconf_peers (peers d).

(** [showconf_main(argc, argv)]: the exit status and the output. *)
Definition showconf_main (argv : list bytes) : outcome (Z * bytes) :=
  match argv with
  | [_; ifname] =>
      match ipc_get_device ifname with
      | (ret, dev) =>
          if truthy ret then Done (1, [])
          else match dev with
          | None => Undefined
          | Some d => Done (0, showconf_device d)
          end
      end
  | _ => Done (1, [])
  end.
End Showconf.
