(* ===== verification/ShowconfSpec.v ===== *)
(** * ShowconfSpec: what showconf prints, setconf reads back

    The lines of [showconf_device] are read one by one with the parser of
    config.c; each line stores exactly the field it was printed from. *)

From Stdlib Require Import Ascii String.
From stdpp Require Import base numbers option sets list list_numbers strings.
From S2P Require Import Prelude CLib Ctype Encoding Containers Config NetLibModel ConfigFacts ConfigSpec Setconf Showconf.
#[local] Open Scope c_scope.

(** ** Lines of text *)

(** Characters that survive [clean_line], and that [getline] and C strings keep. *)
Definition plain_char (c : Z) : Prop := 0 < c < 256 ∧ isspace c = false ∧ c ≠ COMMENT_CHAR.
(** ... and those of a line before it is cleaned. *)
Definition line_char (c : Z) : Prop := 0 < c < 256 ∧ c ≠ 10 ∧ c ≠ COMMENT_CHAR.

Lemma plain_line c : plain_char c → line_char c.
Proof. intros (? & Hs & ?). split_and!; try done; try lia. by intros ->. Qed.

Lemma plain_line_all v : Forall plain_char v → Forall line_char v.
Proof. intros H. eapply Forall_impl; [exact H|]. apply plain_line. Qed.

Definition plain_test (c : Z) : bool := is_cchar c && negb (isspace c) && negb (c =? COMMENT_CHAR).
Definition line_test (c : Z) : bool := is_cchar c && negb (c =? 10) && negb (c =? COMMENT_CHAR).

Lemma plain_by_eval v : forallb plain_test v = true → Forall plain_char v.
Proof.
  rewrite forallb_Forall_true. intros H. eapply Forall_impl; [exact H|]. intros c. simpl. unfold plain_test.
  rewrite !andb_true_iff, !negb_true_iff, is_cchar_spec, Z.eqb_neq. intros [[[? ?] ?] ?]. by split_and!.
Qed.

Lemma line_by_eval v : forallb line_test v = true → Forall line_char v.
Proof.
  rewrite forallb_Forall_true. intros H. eapply Forall_impl; [exact H|]. intros c. simpl. unfold line_test.
  rewrite !andb_true_iff, !negb_true_iff, is_cchar_spec, !Z.eqb_neq. intros [[[? ?] ?] ?]. by split_and!.
Qed.

Lemma isspace_between c : 48 <= c <= 102 → isspace c = false.
Proof. unfold isspace. lia. Qed.

Lemma plain_between c : 48 <= c <= 102 → plain_char c.
Proof. intros. split_and!; [lia..|by apply isspace_between|]. unfold COMMENT_CHAR. ch_norm. lia. Qed.

Lemma plain_key k : all_bytes k = true → Forall plain_char (key_base64 k).
Proof.
  intros Hk. apply Forall_forall. intros x Hx. destruct (key_base64_alphabet k x Hk Hx) as [[v Hv]| ->].
  - pose proof (b64_val_range x v Hv) as [Hr Hx']. pose proof (b64_val_char x v ltac:(lia) Hv) as <-.
    pose proof (Forall_forall plain_char (base64_char <$> seqZ 0 64)) as [HF _].
    apply HF; [apply plain_by_eval; vm_compute; reflexivity|].
    apply list_elem_of_fmap. exists v. split; [done|]. apply elem_of_seqZ. lia.
  - unfold COMMENT_CHAR. ch_norm. by split_and!.
Qed.

Lemma plain_u n : 0 <= n → Forall plain_char (printf_u n).
Proof.
  intros Hn. eapply Forall_impl; [by apply printf_u_digits|]. intros c Hc. simpl in Hc. apply plain_between. lia.
Qed.
Lemma plain_x n : 0 <= n → Forall plain_char (printf_x n).
Proof.
  intros Hn. eapply Forall_impl; [apply print_base_chars; lia|]. intros c Hc. simpl in Hc. apply plain_between. lia.
Qed.
Lemma plain_host fam s : host_text fam s → Forall plain_char s.
Proof.
  intros (_ & Hs & _). eapply Forall_impl; [exact Hs|]. intros c Hc. simpl in Hc.
  destruct_or! Hc; [apply plain_between; lia..| |]; subst; unfold COMMENT_CHAR; ch_norm; by split_and!.
Qed.

Lemma print_key_eq k : all_bytes k = true → print_key k = key_base64 k.
Proof.
  intros Hk. unfold print_key. rewrite key_to_base64_key. unfold cstr.
  rewrite index_of_eqb_app; [by rewrite take_app_length|].
  intros H0. pose proof (plain_key k Hk) as Hp. rewrite Forall_forall in Hp. apply Hp in H0 as [? _]. lia.
Qed.

Section Read.
Context {plat : Platform} {net : NetLib} {laws : NetLibLaws net}.

(** [clean_line] drops the white space of a line without comment. *)
Lemma clean_line_plain t :
  Forall line_char t → clean_line (t ++ newline) = filter (λ c, isspace c = false) t.
Proof.
  intros Ht. unfold clean_line.
  assert (Hb : Forall (λ c, 0 <= c < 256 ∧ COMMENT_CHAR ≠ c) (t ++ newline)).
  { apply Forall_app. split; [|by repeat constructor]. eapply Forall_impl; [exact Ht|].
    intros c (? & ? & ?). split; [lia|congruence]. }
  assert (index_of (Z.eqb COMMENT_CHAR) (t ++ newline) = None) as ->.
  { apply index_of_None. eapply Forall_impl; [exact Hb|]. intros c [_ Hc]. by apply Z.eqb_neq. }
  rewrite firstn_all.
  assert (Hf : ∀ l, Forall (λ c, 0 <= c < 256 ∧ COMMENT_CHAR ≠ c) l →
    filter (λ c, Is_true (negb (char_is_space (char_val c)))) l = filter (λ c, isspace c = false) l).
  { intros l Hl. induction Hl as [|c l [Hc _] _ IH]; [done|]. rewrite !filter_cons, IH, char_is_space_char by done.
    by destruct (isspace c). }
  rewrite Hf by done. rewrite filter_app. unfold newline. rewrite (filter_cons_False _ 10), filter_nil by done. apply app_nil_r.
Qed.
Lemma filter_plain v : Forall plain_char v → filter (λ c, isspace c = false) v = v.
Proof. induction 1 as [|c v (_ & Hc & _) _ IH]; [done|]. by rewrite filter_cons_True, IH. Qed.

(** The cleaned form of [key = value]. *)
Lemma clean_kv k v :
  Forall plain_char k → Forall line_char v →
  clean_line ((k ++ str " = " ++ v) ++ newline) = (k ++ str "=") ++ filter (λ c, isspace c = false) v.
Proof.
  intros Hk Hv. rewrite clean_line_plain.
  - rewrite !filter_app, filter_plain by done. change (filter (λ c, isspace c = false) (str " = ")) with (str "=").
    by rewrite app_assoc.
  - rewrite !Forall_app. split_and!; [by apply plain_line_all|by apply line_by_eval|done].
Qed.

(** ** Dispatch on the key of a line *)

Definition mismatch (k key : bytes) : bool :=
  existsb (λ '(a, b), negb (tolower a =? tolower b)) (zip k key).

Lemma mismatch_tolower k v key :
  mismatch k key = true → tolower <$> (k ++ v) ≠ tolower <$> key.
Proof.
  revert key. induction k as [|a k IH]; intros [|b key]; csimpl; try done.
  unfold mismatch. simpl. rewrite orb_true_iff, negb_true_iff, Z.eqb_neq. fold (mismatch k key).
  intros [Hab|Hm] [= ?]; [done|]. by eapply IH.
Qed.

Lemma mismatch_take k key v n :
  mismatch k key = true → (length key <= n)%nat → mismatch (take n (k ++ v)) key = true.
Proof.
  revert key n. induction k as [|a k IH]; intros [|b key] [|n] Hm Hn; simpl in *; try done; try lia.
  unfold mismatch in *. simpl in *. rewrite orb_true_iff in *. destruct Hm as [Hm|Hm]; [auto|].
  right. apply (IH key n); [done|lia].
Qed.

Lemma get_value_other k v key : mismatch k key = true → get_value (k ++ v) key = None.
Proof.
  intros Hm. unfold get_value. case_match; [done|]. 
  assert (strncasecmp_eq (k ++ v) key (length key) = false) as ->; [|done].
  apply bool_decide_eq_false. rewrite firstn_all.
  pose proof (mismatch_take k key v (length key) Hm ltac:(lia)) as Hm'.
  rewrite <- (app_nil_r (take _ _)). by apply mismatch_tolower.
Qed.

Lemma get_value_self k v : v ≠ [] → get_value (k ++ v) k = Some v.
Proof.
  intros Hv. unfold get_value. rewrite length_app.
  assert ((length k + length v <=? length k)%nat = false) as ->.
  { apply Nat.leb_gt. destruct v; simpl; [done|lia]. }
  unfold strncasecmp_eq, strcasecmp_eq. rewrite take_app_length, firstn_all, bool_decide_eq_true_2 by done.
  cbn [negb]. by rewrite drop_app_length.
Qed.

Lemma section_other k v key : mismatch k key = true → strcasecmp_eq (k ++ v) key = false.
Proof. intros Hm. apply bool_decide_eq_false. by apply mismatch_tolower. Qed.

(** Take a [key=value] line through the dispatch of [process_line]. *)
Ltac dispatch :=
  rewrite ?section_other by reflexivity; cbn [is_device_section is_peer_section device];
  rewrite ?get_value_other by reflexivity; rewrite ?get_value_self by done.

(** ** Reading lines *)

Variable patience : nat.

(** The parser reads the lines [ts], each followed by a newline, one by one. *)
Inductive reads : config_ctx → list bytes → config_ctx → Prop :=
  | reads_nil ctx : reads ctx [] ctx
  | reads_cons ctx t ctx1 ts ctx2 :
      config_read_line patience ctx (cstr (t ++ newline)) [] = Done ((true, ctx1), []) →
      reads ctx1 ts ctx2 → reads ctx (t :: ts) ctx2.

Lemma reads_app ctx ts ctx1 us ctx2 : reads ctx ts ctx1 → reads ctx1 us ctx2 → reads ctx (ts ++ us) ctx2.
Proof. induction 1; [done|]. intros. econstructor; eauto. Qed.

Lemma reads_run ctx ts ctx' :
  reads ctx ts ctx' →
  config_read_lines patience ctx (cstr <$> ((λ t, t ++ newline) <$> ts)) [] = Done ((true, ctx'), []).
Proof.
  induction 1 as [|ctx t ctx1 ts ctx2 Ht _ IH]; [done|]. csimpl. unfold mbind, M_bind. by rewrite Ht.
Qed.

Lemma cstr_line t : Forall line_char t → cstr (t ++ newline) = t ++ newline.
Proof.
  intros Ht. apply cstr_id. unfold cstring. apply forallb_Forall_true, Forall_app.
  split; [|by repeat constructor]. eapply Forall_impl; [exact Ht|]. intros c [? _]. by apply is_cchar_spec.
Qed.

Lemma reads_line ctx t line ctx' :
  Forall line_char t → clean_line (t ++ newline) = line → line ≠ [] →
  process_line patience ctx line [] = Done ((true, ctx'), []) → reads ctx [t] ctx'.
Proof.
  intros Ht Hc Hne Hp. econstructor; [|apply reads_nil]. rewrite cstr_line by done.
  unfold config_read_line, mbind, M_bind. cbn [alloc negb]. rewrite Hc.
  destruct line as [|c line]; [done|]. cbn [length Nat.eqb]. by rewrite Hp.
Qed.

Lemma reads_blank ctx : reads ctx [[]] ctx.
Proof.
  econstructor; [|apply reads_nil]. rewrite cstr_line by constructor.
  unfold config_read_line, mbind, M_bind. cbn [alloc negb]. by rewrite clean_line_plain by constructor.
Qed.

(** A [key = value] line. *)
Lemma reads_kv ctx k v ctx' :
  Forall plain_char k → Forall line_char v →
  process_line patience ctx ((k ++ str "=") ++ filter (λ c, isspace c = false) v) [] = Done ((true, ctx'), []) →
  reads ctx [k ++ str " = " ++ v] ctx'.
Proof.
  intros Hk Hv Hp. eapply reads_line; [|by apply clean_kv| |done].
  - rewrite !Forall_app. split_and!; [by apply plain_line_all|by apply line_by_eval|done].
  - destruct k; done.
Qed.

Lemma reads_kv_plain ctx k v ctx' :
  Forall plain_char k → Forall plain_char v →
  process_line patience ctx ((k ++ str "=") ++ v) [] = Done ((true, ctx'), []) →
  reads ctx [k ++ str " = " ++ v] ctx'.
Proof.
  intros Hk Hv Hp. apply reads_kv; [done|by apply plain_line_all|]. by rewrite filter_plain.
Qed.

(** ** Values *)

Lemma plain_bytes v : Forall plain_char v → all_bytes v = true.
Proof.
  intros H. apply forallb_Forall_true. eapply Forall_impl; [exact H|]. intros c [? _]. apply is_byte_spec. lia.
Qed.

Lemma parse_key_printed key0 key :
  key_ok key0 = true → key_ok key = true → parse_key key0 (key_base64 key) = (true, key).
Proof.
  intros [H0 _]%key_ok_spec Hk. unfold parse_key. by rewrite key_from_base64_encoded.
Qed.

Lemma parse_port_printed port0 fl port :
  0 <= port < 65536 → parse_port port0 fl (printf_u port) = (true, port, set_flag fl WGDEVICE_HAS_LISTEN_PORT).
Proof.
  intros Hp. unfold parse_port. destruct (gai_port port 0 Hp) as (r & -> & Hport & Hf).
  pose proof (print_base_nonempty 10 port ltac:(lia) ltac:(lia)) as Hne. unfold printf_u.
  destruct (print_base 10 port); [done|]. cbn [length Nat.eqb]. unfold addrinfo_is.
  destruct Hf as [[-> ->]|[-> ->]]; cbn; by rewrite Hport.
Qed.

Lemma digits_not_off base n :
  2 <= base <= 16 → 0 <= n → strcasecmp_eq (print_base base n) (str "off") = false.
Proof.
  intros Hb Hn. apply bool_decide_eq_false. pose proof (print_base_chars base n Hb Hn) as Hd.
  destruct (print_base base n) as [|c s]; [done|]. apply Forall_cons in Hd as [Hc _].
  change (tolower <$> str "off") with [111; 102; 102]. csimpl. intros [= Ht _].
  unfold tolower in Ht. case_match; lia.
Qed.

Lemma parse_fwmark_printed mark0 fl mark :
  0 <= mark < 2 ^ 32 →
  parse_fwmark mark0 fl (str "0x" ++ printf_x mark) = (true, mark, set_flag fl WGDEVICE_HAS_FWMARK).
Proof.
  intros Hm. rewrite parse_fwmark_eq.
  2:{ apply plain_bytes, Forall_app. split; [by apply plain_by_eval|apply plain_x; lia]. }
  assert (strcasecmp_eq (str "0x" ++ printf_x mark) (str "off") = false) as -> by by apply bool_decide_eq_false.
  assert (mark_value (str "0x" ++ printf_x mark) = Some mark) as ->.
  { unfold mark_value. pose proof (print_base_nonempty 16 mark ltac:(lia) ltac:(lia)) as Hne.
    pose proof (numeral_print 16 mark ltac:(lia) ltac:(lia)) as Hn. unfold printf_x.
    destruct (print_base 16 mark); done. }
  pose proof ULONG_MAX_ge. unfold UINT32_MAX in *. rewrite Z.min_r by lia.
  by rewrite (proj2 (Z.ltb_ge _ _)) by lia.
Qed.

Lemma parse_keepalive_printed ka0 fl ka :
  0 <= ka < 65536 →
  parse_persistent_keepalive ka0 fl (printf_u ka) = (true, ka, set_flag fl WGPEER_HAS_PERSISTENT_KEEPALIVE_INTERVAL).
Proof.
  intros Hk. rewrite parse_keepalive_eq by (apply plain_bytes, plain_u; lia). unfold printf_u.
  rewrite digits_not_off, numeral_print by lia. by rewrite (proj2 (Z.ltb_ge _ _)) by lia.
Qed.

(** ** Endpoints *)

Lemma host_not_in fam s c : host_text fam s → c ≠ ch ":" → c ≠ ch "." → ¬ (48 <= c <= 57) → ¬ (97 <= c <= 102) → c ∉ s.
Proof. intros (_ & Hs & _) ???? Hin. rewrite Forall_forall in Hs. apply Hs in Hin. tauto. Qed.

Lemma host_colon fam s : host_text fam s → has_char s (ch ":") = (fam =? AF_INET6).
Proof. intros (_ & _ & Hc). apply Bool.eq_iff_eq_true. by rewrite has_char_spec, Z.eqb_eq. Qed.

Lemma host_first fam s c k :
  host_text fam s → c ≠ ch ":" → c ≠ ch "." → ¬ (48 <= c <= 57) → ¬ (97 <= c <= 102) → at_ (s ++ k) 0 ≠ c.
Proof.
  intros Hh ????. pose proof (host_not_in fam s c Hh) as Hn. destruct Hh as [Hne _].
  destruct s as [|x s]; [done|]. change (at_ ((x :: s) ++ k) 0) with x. set_solver.
Qed.

Lemma split_endpoint_text sa host port :
  (sa_family sa = AF_INET ∨ sa_family sa = AF_INET6) → host_text (sa_family sa) host → 0 <= port →
  split_endpoint (endpoint_text sa host (printf_u port)) = Some (host, printf_u port).
Proof.
  intros Hf Hh Hp. unfold split_endpoint, endpoint_text.
  pose proof (print_base_nonempty 10 port ltac:(lia) ltac:(lia)) as Hne. fold (printf_u port) in Hne.
  rewrite (host_colon _ _ Hh), andb_diag. destruct Hf as [Hf|Hf]; rewrite Hf; cbn [Z.eqb Pos.eqb AF_INET AF_INET6].
  - rewrite (proj2 (Z.eqb_neq _ _)) by (eapply host_first; [exact Hh|ch_norm; lia..]).
    change (str ":" ++ printf_u port) with (ch ":" :: printf_u port). rewrite strrchr_split_app.
    + by destruct (printf_u port).
    + intros Hin. pose proof (printf_u_digits port Hp) as Hd. rewrite Forall_forall in Hd. apply Hd in Hin. ch_norm. lia.
  - change (at_ (str "[" ++ _) 0) with (ch "["). rewrite Z.eqb_refl.
    change (str "]:" ++ printf_u port) with (ch "]" :: ch ":" :: printf_u port).
    rewrite app_assoc, strchr_split_app.
    + change (at_ (ch ":" :: printf_u port) 0) with (ch ":"). rewrite Z.eqb_refl. cbn [negb orb drop].
      by destruct (printf_u port).
    + intros [Hin|Hin]%elem_of_app; [by apply list_elem_of_singleton in Hin|].
      revert Hin. eapply host_not_in; [exact Hh|ch_norm; lia..].
Qed.

Lemma endpoint_text_plain sa host port :
  host_text (sa_family sa) host → 0 <= port → Forall plain_char (endpoint_text sa host (printf_u port)).
Proof.
  intros Hh Hp. unfold endpoint_text. case_match; rewrite !Forall_app; split_and!;
    first [by eapply plain_host | by apply plain_u | by apply plain_by_eval].
Qed.

Context (no_retries : getenv (str "WG_ENDPOINT_RESOLUTION_RETRIES") = None).

Lemma resolve_first fuel host service retries n r o :
  getaddrinfo (Some host) service n = GaiOk r →
  resolve_loop (S fuel) host service retries n o = Done (Some r, o).
Proof. intros Hg. cbn [resolve_loop]. by rewrite Hg. Qed.

Lemma parse_endpoint_printed ep0 sa :
  plain_endpoint sa →
  ∃ host, getnameinfo sa = Some (host, printf_u (sin_port sa)) ∧
    Forall plain_char (endpoint_text sa host (printf_u (sin_port sa))) ∧
    endpoint_text sa host (printf_u (sin_port sa)) ≠ [] ∧
    parse_endpoint patience ep0 (endpoint_text sa host (printf_u (sin_port sa))) [] = Done ((true, sa), []).
Proof.
  intros Hpl. destruct (gni_gai sa Hpl) as (host & Hg & Hh & Hgai). exists host.
  destruct Hpl as (Hfam & _ & Hport & _).
  assert (Hf : sa_family sa = AF_INET ∨ sa_family sa = AF_INET6) by tauto.
  pose proof (split_endpoint_text sa host (sin_port sa) Hf Hh ltac:(lia)) as Hsplit.
  assert (Hne : endpoint_text sa host (printf_u (sin_port sa)) ≠ []).
  { intros He. rewrite He in Hsplit. done. }
  split_and!; [done|by apply endpoint_text_plain; [|lia]|done|].
  unfold parse_endpoint, parse_dns_retries. rewrite no_retries. unfold mbind, M_bind. cbn [alloc mret M_ret negb].
  destruct (endpoint_text _ _ _) as [|c0 t0]; [done|]. cbn [length Nat.eqb]. rewrite Hsplit.
  destruct (Hgai 0%nat) as (r & Hr & Haddr & Hfam' & Hlen).
  change (resolve_fuel patience 15) with 16%nat. rewrite (resolve_first _ _ _ _ _ r) by done. unfold addrinfo_is.
  rewrite Hfam', Hlen. destruct Hf as [Hf|Hf]; rewrite Hf; cbn; by rewrite Haddr.
Qed.

(** ** Allowed addresses *)

(** An address as the parser stores it: no flags, and no bytes past an IPv4 address. *)
Definition canonical_ip (a : wgallowedip) : Prop :=
  allowedip_ok a ∧ ai_flags a = 0 ∧ (family a = AF_INET → drop 4 (ip a) = replicate 12 0).

Definition entry_text (a : wgallowedip) : bytes := default [] (allowedip_text a) ++ str "/" ++ printf_u (cidr a).

Lemma cidr_range a : allowedip_ok a → 0 <= cidr a <= 128.
Proof. intros (_ & _ & Hf & _). lia. Qed.

Lemma allowedip_text_ok a :
  canonical_ip a → ∃ s, allowedip_text a = Some s ∧ host_text (family a) s ∧
    parse_ip wgallowedip_zero s = (true, set_family (family a) (set_cidr 0 a)).
Proof.
  intros ((Hl & Hb & Hf & _) & Hfl & H4). unfold allowedip_text, parse_ip.
  destruct a as [fam addr c fl]; cbn [family ip cidr ai_flags ip4 ip6] in *.
  destruct Hf as [[-> _]|[-> _]]; cbn [Z.eqb Pos.eqb AF_INET AF_INET6].
  - unfold ip4. cbn [ip]. destruct (inet_ntop4 (take 4 addr)) as (s & Hs & Hp & Hh).
    { rewrite length_take. lia. }
    { eapply all_bytes_sub; [apply subseteq_take|done]. }
    exists s. split_and!; [done|done|].
    assert (Hst : ip (store_ip (take 4 addr) wgallowedip_zero) = addr).
    { unfold store_ip. cbn [ip]. rewrite length_take, Hl. change (drop (4 `min` 16) _) with (replicate 12 0).
      by rewrite <- (H4 eq_refl), take_drop. }
    rewrite (host_colon _ _ Hh), Hp. subst fl. cbn -[store_ip wgallowedip_zero].
    unfold set_family, set_cidr. cbn -[wgallowedip_zero drop length] in *. by rewrite Hst.
  - unfold ip6. cbn [ip]. destruct (inet_ntop6 addr Hl Hb) as (s & Hs & Hp & Hh).
    exists s. split_and!; [done|done|].
    assert (Hst : ip (store_ip addr wgallowedip_zero) = addr).
    { unfold store_ip. cbn [ip]. rewrite Hl. change (drop 16 _) with ([] : bytes). apply app_nil_r. }
    rewrite (host_colon _ _ Hh), Hp. subst fl. cbn -[store_ip wgallowedip_zero].
    unfold set_family, set_cidr. cbn -[wgallowedip_zero drop length] in *. by rewrite Hst.
Qed.

Lemma printed_digit n : 0 <= n → char_is_digit (char_val (at_ (printf_u n) 0)) = true.
Proof.
  intros Hn. pose proof (printf_u_digits n Hn) as Hd.
  pose proof (print_base_nonempty 10 n ltac:(lia) Hn) as Hne. fold (printf_u n) in Hne.
  destruct (printf_u n) as [|x s]; [done|]. apply Forall_cons in Hd as [Hx _].
  change (at_ (x :: s) 0) with x. rewrite char_is_digit_char by lia. lia.
Qed.

Lemma parse_cidr_printed a :
  allowedip_ok a → parse_cidr (set_family (family a) (set_cidr 0 a)) (Some (printf_u (cidr a))) = Some (cidr a).
Proof.
  intros Ha. pose proof (cidr_range a Ha) as Hc. destruct Ha as (_ & _ & Hf & _). unfold parse_cidr.
  rewrite printed_digit by lia.
  pose proof ULONG_MAX_ge. unfold UINT32_MAX in *. unfold strtoul. rewrite strtou_print10_end by lia.
  cbn [negb is_end orb family set_family set_cidr].
  destruct Hf as [[-> Hr]|[-> Hr]]; cbn; rewrite ?andb_false_r, ?andb_true_r.
  - by rewrite (proj2 (Z.ltb_ge 32 _)) by lia.
  - by rewrite (proj2 (Z.ltb_ge 128 _)) by lia.
Qed.

Lemma printf_d_nonneg n : 0 <= n → printf_d n = printf_u n.
Proof. intros Hn. unfold printf_d. by rewrite (proj2 (Z.ltb_ge n 0)) by lia. Qed.

Lemma entry_text_ok a :
  canonical_ip a →
  allowedip_entry (entry_text a) = Some a ∧ incremental (entry_text a) = false ∧ (ch "," ∉ entry_text a) ∧
  Forall plain_char (entry_text a).
Proof.
  intros Ha. destruct (allowedip_text_ok a Ha) as (s & Hs & Hh & Hp). pose proof Ha as (Hok & Hfl & _).
  pose proof (cidr_range a Hok) as Hc. unfold entry_text. rewrite Hs. cbn [from_option id].
  assert (Hfirst : ∀ c, c ≠ ch ":" → c ≠ ch "." → ¬ (48 <= c <= 57) → ¬ (97 <= c <= 102) →
    (at_ (s ++ str "/" ++ printf_u (cidr a)) 0 =? c) = false).
  { intros. apply Z.eqb_neq. by eapply host_first. }
  assert (Hinc : incremental (s ++ str "/" ++ printf_u (cidr a)) = false).
  { unfold incremental. rewrite !Hfirst by (ch_norm; lia). done. }
  split_and!; [|done| |].
  - unfold allowedip_entry. rewrite Hinc. change (str "/" ++ printf_u (cidr a)) with (ch "/" :: printf_u (cidr a)) in *.
    unfold strsep. rewrite strchr_split_app by (eapply host_not_in; [exact Hh|ch_norm; lia..]).
    rewrite Hp, parse_cidr_printed, Hfirst by (done || ch_norm; lia). destruct a; simpl in *. by subst.
  - rewrite !elem_of_app. intros [Hin|[Hin|Hin]].
    + revert Hin. eapply host_not_in; [exact Hh|ch_norm; lia..].
    + by apply list_elem_of_singleton in Hin.
    + pose proof (printf_u_digits (cidr a) ltac:(lia)) as Hd. rewrite Forall_forall in Hd. apply Hd in Hin. ch_norm. lia.
  - rewrite !Forall_app. split_and!; [by eapply plain_host|by apply plain_by_eval|apply plain_u; lia].
Qed.

Lemma showconf_allowedips_text a l :
  Forall canonical_ip (a :: l) →
  filter (λ c, isspace c = false) (showconf_allowedips (a :: l)) =
    entry_text a ++ flat_map (λ t, ch "," :: t) (entry_text <$> l) ∧
  Forall line_char (showconf_allowedips (a :: l)).
Proof.
  revert a. induction l as [|b l IH]; intros a [Ha Hl]%Forall_cons;
    destruct (entry_text_ok a Ha) as (_ & _ & _ & Hpl); destruct (allowedip_text_ok a Ha) as (s & Hs & _);
    pose proof (cidr_range a (proj1 Ha)) as Hc; unfold entry_text in *; rewrite Hs in *; cbn [from_option id] in *.
  - cbn [showconf_allowedips]. rewrite Hs, printf_d_nonneg, !app_nil_r by lia.
    split; [by apply filter_plain|by apply plain_line_all].
  - destruct (IH b Hl) as [IHf IHl].
    assert (showconf_allowedips (a :: b :: l) =
      (s ++ str "/" ++ printf_u (cidr a)) ++ str ", " ++ showconf_allowedips (b :: l)) as ->.
    { change (showconf_allowedips (a :: b :: l)) with
        (match allowedip_text a with None => [] | Some ip => ip ++ str "/" ++ printf_d (cidr a) ++ str ", " end
         ++ showconf_allowedips (b :: l)).
      rewrite Hs, printf_d_nonneg, <- !app_assoc by lia. done. }
    split.
    + by rewrite filter_app, (filter_plain _ Hpl), filter_app, IHf.
    + apply Forall_app. split; [by apply plain_line_all|]. apply Forall_app. split; [by apply line_by_eval|done].
Qed.

Lemma parse_allowedips_printed p last a l :
  cursor_ok (allowedips p) last → Forall canonical_ip (a :: l) →
  let text := entry_text a ++ flat_map (λ t, ch "," :: t) (entry_text <$> l) in
  text ≠ [] ∧ parse_allowedips p last text [] =
    Done (true, set_allowedips (allowedips p ++ a :: l)
                  (set_p_flags (set_flag (p_flags p) WGPEER_REPLACE_ALLOWEDIPS) p),
          Some (length (allowedips p) + length l)%nat, []).
Proof.
  intros Hc Hcan text. pose proof Hcan as [Ha _]%Forall_cons.
  assert (Hne : text ≠ []).
  { unfold text, entry_text. destruct (allowedip_text_ok a Ha) as (s & -> & (Hs & _) & _). by destruct s. }
  assert (Htok : strsep_all text (ch ",") = entry_text <$> (a :: l)).
  { apply strsep_all_tokens. change (Forall (λ t, ch "," ∉ t) (entry_text <$> (a :: l))). apply Forall_fmap.
    eapply Forall_impl; [exact Hcan|]. intros x Hx. apply (entry_text_ok x Hx). }
  assert (Hmap : mapM allowedip_entry (entry_text <$> (a :: l)) = Some (a :: l)).
  { apply mapM_Some, Forall2_fmap_l, Forall_Forall2_diag.
    eapply Forall_impl; [exact Hcan|]. intros x Hx. apply (entry_text_ok x Hx). }
  assert (Hinc : existsb incremental (entry_text <$> (a :: l)) = false).
  { clear -Hcan laws plat. induction Hcan as [|x k Hx _ IH]; [done|]. csimpl.
    destruct (entry_text_ok x Hx) as (_ & -> & _). exact IH. }
  split; [done|]. pose proof (parse_allowedips_eq p last text Hc Hne) as H. rewrite Htok, Hmap, Hinc in H.
  rewrite H. do 3 f_equal. f_equal. simpl. lia.
Qed.

(** ** Reading a peer *)

(** The parser inside a [Peer] section: [ps] are finished, [p] is being read. *)
Definition peer_ctx (d : wgdevice) (ps : list wgpeer) (p : wgpeer) (last : option nat) : config_ctx :=
  {| device := Some (set_peers (ps ++ [p]) d); ctx_last_peer := Some (length ps); ctx_last_allowedip := last;
     is_peer_section := true; is_device_section := false |}.

Lemma with_peer_ctx {A} d ps p last (k : wgdevice → nat → wgpeer → M A) :
  with_last_peer (peer_ctx d ps p last) k = k (set_peers (ps ++ [p]) d) (length ps) p.
Proof. unfold with_last_peer, peer_ctx. cbn. by rewrite list_lookup_middle. Qed.

Lemma update_peer_ctx d ps p q : update_peer (length ps) (λ _, q) (set_peers (ps ++ [p]) d) = set_peers (ps ++ [q]) d.
Proof.
  unfold update_peer. cbn [peers set_peers device_with]. pose proof (alter_app_r (λ _, q) ps [p] 0) as H.
  rewrite Nat.add_0_r in H. rewrite H. done.
Qed.

(** A line that stores into the current peer. *)
Ltac peer_line :=
  unfold process_line, process_peer_line; dispatch; rewrite with_peer_ctx; unfold mbind, M_bind;
  cbn [is_device_section is_peer_section peer_ctx ctx_last_allowedip].

Lemma read_public_key d ps p last key :
  key_ok (p_public_key p) = true → key_ok key = true →
  reads (peer_ctx d ps p last) [str "PublicKey" ++ str " = " ++ key_base64 key]
        (peer_ctx d ps (set_p_flags (set_flag (p_flags p) WGPEER_HAS_PUBLIC_KEY) (set_p_public_key key p)) last).
Proof.
  intros H0 Hk. pose proof Hk as [_ Hb]%key_ok_spec.
  apply reads_kv_plain; [by apply plain_by_eval|by apply plain_key|].
  peer_line. rewrite parse_key_printed by done. cbn. unfold ctx_with_device. cbn. by rewrite update_peer_ctx.
Qed.

Lemma read_preshared_key d ps p last key :
  key_ok (preshared_key p) = true → key_ok key = true →
  reads (peer_ctx d ps p last) [str "PresharedKey" ++ str " = " ++ key_base64 key]
        (peer_ctx d ps (set_p_flags (set_flag (p_flags p) WGPEER_HAS_PRESHARED_KEY) (set_preshared_key key p)) last).
Proof.
  intros H0 Hk. pose proof Hk as [_ Hb]%key_ok_spec.
  apply reads_kv_plain; [by apply plain_by_eval|by apply plain_key|].
  peer_line. rewrite parse_key_printed by done. cbn. unfold ctx_with_device. cbn. by rewrite update_peer_ctx.
Qed.

Lemma read_keepalive d ps p last ka :
  0 <= ka < 65536 →
  reads (peer_ctx d ps p last) [str "PersistentKeepalive" ++ str " = " ++ printf_u ka]
        (peer_ctx d ps (set_p_flags (set_flag (p_flags p) WGPEER_HAS_PERSISTENT_KEEPALIVE_INTERVAL) (set_keepalive ka p)) last).
Proof.
  intros Hk. pose proof (print_base_nonempty 10 ka ltac:(lia) ltac:(lia)) as Hne. fold (printf_u ka) in Hne.
  apply reads_kv_plain; [by apply plain_by_eval|apply plain_u; lia|].
  peer_line. rewrite parse_keepalive_printed by done. cbn. unfold ctx_with_device. cbn. by rewrite update_peer_ctx.
Qed.

Lemma read_endpoint d ps p last sa :
  plain_endpoint sa → ∃ host, getnameinfo sa = Some (host, printf_u (sin_port sa)) ∧
  reads (peer_ctx d ps p last) [str "Endpoint" ++ str " = " ++ endpoint_text sa host (printf_u (sin_port sa))]
        (peer_ctx d ps (set_endpoint sa p) last).
Proof.
  intros Hp. destruct (parse_endpoint_printed (endpoint p) sa Hp) as (host & Hg & Hpl & Hne & He).
  exists host. split; [done|]. apply reads_kv_plain; [by apply plain_by_eval|done|].
  peer_line. rewrite He. cbn. unfold ctx_with_device. cbn. by rewrite update_peer_ctx.
Qed.

Lemma read_allowedips d ps p last a l :
  cursor_ok (allowedips p) last → Forall canonical_ip (a :: l) →
  reads (peer_ctx d ps p last) [str "AllowedIPs" ++ str " = " ++ showconf_allowedips (a :: l)]
        (peer_ctx d ps (set_allowedips (allowedips p ++ a :: l)
                          (set_p_flags (set_flag (p_flags p) WGPEER_REPLACE_ALLOWEDIPS) p))
                       (Some (length (allowedips p) + length l)%nat)).
Proof.
  intros Hc Hcan. destruct (showconf_allowedips_text a l Hcan) as [Ht Hl].
  destruct (parse_allowedips_printed p last a l Hc Hcan) as [Hne Hp].
  apply reads_kv; [by apply plain_by_eval|done|]. rewrite Ht.
  peer_line. rewrite Hp. cbn. by rewrite update_peer_ctx.
Qed.

(** What a printed peer is read back as: the configuration, without the counters. *)
Definition has_psk (p : wgpeer) : bool := has_flag (p_flags p) WGPEER_HAS_PRESHARED_KEY.
Definition conf_peer (p : wgpeer) : wgpeer :=
  peer_with
    (WGPEER_REPLACE_ALLOWEDIPS .| WGPEER_HAS_PUBLIC_KEY
     .| (if has_psk p then WGPEER_HAS_PRESHARED_KEY else 0)
     .| (if truthy (persistent_keepalive_interval p) then WGPEER_HAS_PERSISTENT_KEEPALIVE_INTERVAL else 0))
    (p_public_key p) (if has_psk p then preshared_key p else replicate WG_KEY_LEN 0)
    (if has_endpoint p then endpoint p else sockaddr_zero) 0 0 0 0
    (persistent_keepalive_interval p) (allowedips p) None.

Definition canonical_peer (p : wgpeer) : Prop :=
  peer_ok p ∧ Forall canonical_ip (allowedips p) ∧ (has_endpoint p = true → plain_endpoint (endpoint p)).

Definition opt_line (b : bool) (t : bytes) : list bytes := if b then [t] else [].

(** The lines of [showconf_peer]. *)
Definition peer_lines (p : wgpeer) (more : bool) : list bytes :=
  [str "[Peer]"] ++ [str "PublicKey" ++ str " = " ++ key_base64 (p_public_key p)]
  ++ opt_line (has_psk p) (str "PresharedKey" ++ str " = " ++ key_base64 (preshared_key p))
  ++ opt_line (negb (Nat.eqb (length (allowedips p)) 0))
       (str "AllowedIPs" ++ str " = " ++ showconf_allowedips (allowedips p))
  ++ opt_line (has_endpoint p)
       match getnameinfo (endpoint p) with
       | Some (host, service) => str "Endpoint" ++ str " = " ++ endpoint_text (endpoint p) host service
       | None => []
       end
  ++ opt_line (truthy (persistent_keepalive_interval p))
       (str "PersistentKeepalive" ++ str " = " ++ printf_u (persistent_keepalive_interval p))
  ++ opt_line more [].

Lemma reads_opt ctx b t ctx' :
  (b = true → reads ctx [t] ctx') → (b = false → ctx = ctx') → reads ctx (opt_line b t) ctx'.
Proof. intros H1 H2. destruct b; [by apply H1|]. rewrite H2 by done. constructor. Qed.

Lemma read_peer_header d ps cur last sec :
  cursor_ok ps cur →
  reads {| device := Some (set_peers ps d); ctx_last_peer := cur; ctx_last_allowedip := last;
           is_peer_section := sec; is_device_section := negb sec |} [str "[Peer]"]
        (peer_ctx d ps (set_p_flags WGPEER_REPLACE_ALLOWEDIPS wgpeer_zero) None).
Proof.
  intros Hc. eapply (reads_line _ _ (str "[Peer]")); [by apply line_by_eval| |done|].
  - rewrite clean_line_plain by by apply line_by_eval. reflexivity.
  - unfold process_line.
    change (strcasecmp_eq (str "[Peer]") (str "[Interface]")) with false.
    change (strcasecmp_eq (str "[Peer]") (str "[Peer]")) with true. cbn -[link_after wgpeer_zero].
    unfold peer_ctx. rewrite link_after_app, (cursor_ok_pos ps) by done. reflexivity.
Qed.

Lemma read_peer d ps cur last sec p more :
  cursor_ok ps cur → canonical_peer p →
  ∃ last', reads {| device := Some (set_peers ps d); ctx_last_peer := cur; ctx_last_allowedip := last;
                    is_peer_section := sec; is_device_section := negb sec |} (peer_lines p more)
                 (peer_ctx d ps (conf_peer p) last').
Proof.
  intros Hc ((Hpub & Hpsk & Hep & Hka & Hips) & Hcan & Hplain).
  set (q1 := set_p_flags (set_flag WGPEER_REPLACE_ALLOWEDIPS WGPEER_HAS_PUBLIC_KEY)
               (set_p_public_key (p_public_key p) (set_p_flags WGPEER_REPLACE_ALLOWEDIPS wgpeer_zero))).
  set (q2 := if has_psk p then set_p_flags (set_flag (p_flags q1) WGPEER_HAS_PRESHARED_KEY) (set_preshared_key (preshared_key p) q1) else q1).
  set (q3 := set_allowedips (allowedips p) q2).
  set (q4 := if has_endpoint p then set_endpoint (endpoint p) q3 else q3).
  set (last' := match allowedips p with [] => None | _ :: l => Some (length l) end).
  assert (Hips2 : allowedips q2 = []) by (unfold q2; by destruct (has_psk p)).
  assert (Hfl2 : set_flag (p_flags q2) WGPEER_REPLACE_ALLOWEDIPS = p_flags q2) by (unfold q2; by destruct (has_psk p)).
  exists last'. unfold peer_lines.
  eapply reads_app; [by apply read_peer_header|].
  eapply reads_app; [by apply (read_public_key _ _ (set_p_flags WGPEER_REPLACE_ALLOWEDIPS wgpeer_zero))|]. fold q1.
  eapply (reads_app _ _ (peer_ctx d ps q2 None)).
  { apply reads_opt; [|by intros E; unfold q2; rewrite E]. unfold q2. intros E. rewrite E. by apply (read_preshared_key _ _ q1). }
  eapply (reads_app _ _ (peer_ctx d ps q3 last')).
  { unfold q3, last'. destruct (allowedips p) as [|a l].
    { cbn. replace (set_allowedips [] q2) with q2 by (rewrite <- Hips2 at 1; by destruct q2). constructor. }
    pose proof (read_allowedips d ps q2 None a l) as Hread. rewrite Hips2, Hfl2 in Hread.
    replace (set_p_flags (p_flags q2) q2) with q2 in Hread by by destruct q2. by apply Hread. }
  eapply (reads_app _ _ (peer_ctx d ps q4 last')).
  { apply reads_opt; [|by intros E; unfold q4; rewrite E]. unfold q4. intros He. rewrite He.
    destruct (read_endpoint d ps q3 last' (endpoint p) (Hplain He)) as (host & -> & Hr). exact Hr. }
  eapply (reads_app _ _ (peer_ctx d ps (conf_peer p) last')); [|by apply reads_opt; [intros _; apply reads_blank|]].
  assert (Hconf : conf_peer p = if truthy (persistent_keepalive_interval p)
    then set_p_flags (set_flag (p_flags q4) WGPEER_HAS_PERSISTENT_KEEPALIVE_INTERVAL)
           (set_keepalive (persistent_keepalive_interval p) q4) else q4).
  { unfold conf_peer, q4, q3, q2, truthy. destruct (Z.eqb_spec (persistent_keepalive_interval p) 0) as [->|];
      destruct (has_psk p), (has_endpoint p); reflexivity. }
  apply reads_opt; [|by intros E; rewrite Hconf, E]. rewrite Hconf. intros E. rewrite E. by apply read_keepalive.
Qed.

Fixpoint peers_lines (ps : list wgpeer) : list bytes :=
  match ps with
  | [] => []
  | p :: next => peer_lines p (if next is [] then false else true) ++ peers_lines next
  end.

Lemma read_peers d todo ps cur last sec :
  cursor_ok ps cur → Forall canonical_peer todo →
  ∃ cur' last' sec', reads {| device := Some (set_peers ps d); ctx_last_peer := cur; ctx_last_allowedip := last;
                    is_peer_section := sec; is_device_section := negb sec |} (peers_lines todo)
                 {| device := Some (set_peers (ps ++ (conf_peer <$> todo)) d); ctx_last_peer := cur';
                    ctx_last_allowedip := last'; is_peer_section := sec'; is_device_section := negb sec' |}.
Proof.
  revert ps cur last sec. induction todo as [|p todo IH]; intros ps cur last sec Hc Hcan.
  { exists cur, last, sec. csimpl. rewrite app_nil_r. constructor. }
  apply Forall_cons in Hcan as [Hp Hcan]. cbn [peers_lines].
  destruct (read_peer d ps cur last sec p (if todo is [] then false else true) Hc Hp) as [last1 H1].
  destruct (IH (ps ++ [conf_peer p]) (Some (length ps)) last1 true) as (cur' & last' & sec' & H2); [|done|].
  { simpl. rewrite length_app. simpl. lia. }
  exists cur', last', sec'. rewrite fmap_cons. rewrite <- app_assoc in H2. by eapply reads_app.
Qed.

(** ** Reading a device *)

Definition conf_flags : Z :=
  WGDEVICE_REPLACE_PEERS .| WGDEVICE_HAS_PRIVATE_KEY .| WGDEVICE_HAS_FWMARK .| WGDEVICE_HAS_LISTEN_PORT.
Definition has_private (d : wgdevice) : bool := has_flag (flags d) WGDEVICE_HAS_PRIVATE_KEY.

(** What a printed device is read back as. *)
Definition conf_device (d : wgdevice) : wgdevice :=
  device_with [] 0 conf_flags (replicate WG_KEY_LEN 0)
    (if has_private d then private_key d else replicate WG_KEY_LEN 0)
    (fwmark d) (listen_port d) (conf_peer <$> peers d) None.

Definition canonical_device (d : wgdevice) : Prop := device_ok d ∧ Forall canonical_peer (peers d).

Definition device_lines (d : wgdevice) : list bytes :=
  [str "[Interface]"]
  ++ opt_line (truthy (listen_port d)) (str "ListenPort" ++ str " = " ++ printf_u (listen_port d))
  ++ opt_line (truthy (fwmark d)) (str "FwMark" ++ str " = " ++ str "0x" ++ printf_x (fwmark d))
  ++ opt_line (has_private d) (str "PrivateKey" ++ str " = " ++ key_base64 (private_key d))
  ++ [[]] ++ peers_lines (peers d).

Definition dev_ctx (d : wgdevice) : config_ctx :=
  {| device := Some d; ctx_last_peer := None; ctx_last_allowedip := None;
     is_peer_section := false; is_device_section := true |}.

Ltac device_line :=
  unfold process_line, process_device_line; dispatch; cbn [is_device_section dev_ctx device];
  unfold process_device_line; dispatch.

Lemma read_interface d0 :
  reads {| device := Some d0; ctx_last_peer := None; ctx_last_allowedip := None;
           is_peer_section := false; is_device_section := false |} [str "[Interface]"] (dev_ctx d0).
Proof.
  eapply (reads_line _ _ (str "[Interface]")); [by apply line_by_eval| |done|done].
  rewrite clean_line_plain by by apply line_by_eval. reflexivity.
Qed.

Lemma read_listen_port d0 port :
  0 <= port < 65536 →
  reads (dev_ctx d0) [str "ListenPort" ++ str " = " ++ printf_u port]
        (dev_ctx (set_flags (set_flag (flags d0) WGDEVICE_HAS_LISTEN_PORT) (set_listen_port port d0))).
Proof.
  intros Hp. pose proof (print_base_nonempty 10 port ltac:(lia) ltac:(lia)) as Hne. fold (printf_u port) in Hne.
  apply reads_kv_plain; [by apply plain_by_eval|apply plain_u; lia|].
  device_line. by rewrite parse_port_printed.
Qed.

Lemma read_fwmark d0 mark :
  0 <= mark < 2 ^ 32 →
  reads (dev_ctx d0) [str "FwMark" ++ str " = " ++ str "0x" ++ printf_x mark]
        (dev_ctx (set_flags (set_flag (flags d0) WGDEVICE_HAS_FWMARK) (set_fwmark mark d0))).
Proof.
  intros Hp. apply reads_kv_plain; [by apply plain_by_eval| |].
  { apply Forall_app. split; [by apply plain_by_eval|apply plain_x; lia]. }
  device_line. by rewrite parse_fwmark_printed.
Qed.

Lemma read_private_key d0 key :
  key_ok (private_key d0) = true → key_ok key = true →
  reads (dev_ctx d0) [str "PrivateKey" ++ str " = " ++ key_base64 key]
        (dev_ctx (set_flags (set_flag (flags d0) WGDEVICE_HAS_PRIVATE_KEY) (set_private_key key d0))).
Proof.
  intros H0 Hk. pose proof Hk as [_ Hb]%key_ok_spec.
  apply reads_kv_plain; [by apply plain_by_eval|by apply plain_key|].
  device_line. by rewrite parse_key_printed.
Qed.

Lemma read_device d :
  canonical_device d →
  ∃ cur last sec,
    reads {| device := Some (set_flags conf_flags wgdevice_zero); ctx_last_peer := None; ctx_last_allowedip := None;
             is_peer_section := false; is_device_section := false |} (device_lines d)
          {| device := Some (conf_device d); ctx_last_peer := cur; ctx_last_allowedip := last;
             is_peer_section := sec; is_device_section := negb sec |}.
Proof.
  intros [(_ & Hpriv & Hfw & Hlp & _) Hcan].
  set (d0 := set_flags conf_flags wgdevice_zero). set (d1 := set_listen_port (listen_port d) d0).
  set (d2 := set_fwmark (fwmark d) d1).
  set (d3 := if has_private d then set_private_key (private_key d) d2 else d2).
  destruct (read_peers d3 (peers d) [] None None false eq_refl Hcan) as (cur & last & sec & Hps).
  exists cur, last, sec. unfold device_lines.
  eapply reads_app; [apply read_interface|].
  eapply (reads_app _ _ (dev_ctx d1)).
  { apply reads_opt; [intros _; by apply (read_listen_port d0)|].
    unfold truthy. intros Hz%negb_false_iff%Z.eqb_eq. unfold d1. by rewrite Hz. }
  eapply (reads_app _ _ (dev_ctx d2)).
  { apply reads_opt; [intros _; by apply (read_fwmark d1)|].
    unfold truthy. intros Hz%negb_false_iff%Z.eqb_eq. unfold d2. by rewrite Hz. }
  eapply (reads_app _ _ (dev_ctx d3)).
  { apply reads_opt; unfold d3; intros ->; [by apply (read_private_key d2)|done]. }
  eapply reads_app; [apply reads_blank|]. cbn [app] in Hps.
  assert (Hend : set_peers (conf_peer <$> peers d) d3 = conf_device d).
  { unfold d3, conf_device. by destruct (has_private d). }
  rewrite Hend in Hps. replace (set_peers [] d3) with d3 in Hps by (unfold d3; by destruct (has_private d)).
  exact Hps.
Qed.

(** ** From the text to its lines *)

Lemma getlines_lines ts :
  Forall (λ t, 10 ∉ t) ts → getlines (flat_map (λ t, t ++ newline) ts) = (λ t, t ++ newline) <$> ts.
Proof.
  induction 1 as [|t ts Ht _ IH]; [done|]. csimpl. rewrite <- app_assoc. change (newline ++ ?k) with (10 :: k).
  rewrite getlines_app by done. by rewrite IH.
Qed.

Definition unlines (ts : list bytes) : bytes := flat_map (λ t, t ++ newline) ts.

Lemma unlines_app ts us : unlines (ts ++ us) = unlines ts ++ unlines us.
Proof. apply flat_map_app. Qed.
Lemma unlines_one t : unlines [t] = t ++ newline.
Proof. unfold unlines. simpl. apply app_nil_r. Qed.
Lemma unlines_opt b t : unlines (opt_line b t) = if b then t ++ newline else [].
Proof. destruct b; [apply unlines_one|done]. Qed.

Lemma line_kv k v : Forall plain_char k → Forall line_char v → Forall line_char (k ++ str " = " ++ v).
Proof. intros. rewrite !Forall_app. split_and!; [by apply plain_line_all|by apply line_by_eval|done]. Qed.

Lemma lines_opt b t : (b = true → Forall line_char t) → Forall (Forall line_char) (opt_line b t).
Proof. destruct b; simpl; [|done]. intros H. apply Forall_singleton, H. done. Qed.

Lemma peer_lines_text p more :
  canonical_peer p →
  showconf_peer p more = unlines (peer_lines p more) ∧ Forall (Forall line_char) (peer_lines p more).
Proof.
  intros ((Hpub & Hpsk & _ & Hka & _) & Hcan & Hplain).
  apply key_ok_spec in Hpub as [_ Hpub]. apply key_ok_spec in Hpsk as [_ Hpsk]. split.
  - unfold showconf_peer, peer_lines. rewrite !unlines_app, !unlines_one, !unlines_opt, !print_key_eq by done.
    unfold showconf_endpoint. fold (has_psk p).
    assert (He : has_endpoint p = true → is_Some (getnameinfo (endpoint p))).
    { intros H. destruct (gni_gai _ (Hplain H)) as (host & -> & _). eauto. }
    destruct (has_endpoint p); [destruct (He eq_refl) as [[host service] ->]|clear He];
      destruct (allowedips p), (has_psk p), more, (truthy (persistent_keepalive_interval p));
      cbn [length Nat.eqb negb]; rewrite <- ?app_assoc; reflexivity.
  - unfold peer_lines. rewrite !Forall_app. split_and!.
    + by apply Forall_singleton, line_by_eval.
    + apply Forall_singleton, line_kv; [by apply plain_by_eval|by apply plain_line_all, plain_key].
    + apply lines_opt. intros _. apply line_kv; [by apply plain_by_eval|by apply plain_line_all, plain_key].
    + apply lines_opt. intros Hne. apply line_kv; [by apply plain_by_eval|].
      destruct (allowedips p) as [|a l]; [done|]. by apply (showconf_allowedips_text a l).
    + apply lines_opt. intros H. destruct (gni_gai _ (Hplain H)) as (host & -> & Hh & _).
      apply line_kv; [by apply plain_by_eval|]. apply plain_line_all, endpoint_text_plain; [done|].
      destruct (Hplain H) as (_ & _ & ? & _). lia.
    + apply lines_opt. intros _. apply line_kv; [by apply plain_by_eval|]. apply plain_line_all, plain_u. lia.
    + apply lines_opt. constructor.
Qed.

Lemma device_lines_text d :
  canonical_device d →
  showconf_device d = unlines (device_lines d) ∧ Forall (Forall line_char) (device_lines d).
Proof.
  intros [(_ & Hpriv & Hfw & Hlp & _) Hcan]. apply key_ok_spec in Hpriv as [_ Hpriv].
  assert (Hps : showconf_peers (peers d) = unlines (peers_lines (peers d)) ∧
    Forall (Forall line_char) (peers_lines (peers d))).
  { induction Hcan as [|p ps Hp _ [IHt IHl]]; [done|]. cbn [showconf_peers peers_lines].
    destruct (peer_lines_text p (if ps is [] then false else true) Hp) as [Ht Hl].
    rewrite unlines_app, Ht, IHt. split; [done|]. by apply Forall_app. }
  destruct Hps as [Ht Hl]. split.
  - unfold showconf_device, device_lines.
    rewrite !unlines_app, !unlines_one, !unlines_opt, Ht, print_key_eq by done. fold (has_private d).
    destruct (truthy (listen_port d)), (truthy (fwmark d)), (has_private d); rewrite <- ?app_assoc; reflexivity.
  - unfold device_lines. rewrite !Forall_app. split_and!; [| | | | |done].
    + by apply Forall_singleton, line_by_eval.
    + apply lines_opt. intros _. apply line_kv; [by apply plain_by_eval|]. apply plain_line_all, plain_u. lia.
    + apply lines_opt. intros _. apply line_kv; [by apply plain_by_eval|]. apply plain_line_all, Forall_app.
      split; [by apply plain_by_eval|apply plain_x; lia].
    + apply lines_opt. intros _. apply line_kv; [by apply plain_by_eval|]. by apply plain_line_all, plain_key.
    + by repeat constructor.
Qed.

Lemma conf_device_keyed d : forallb (λ p, has_flag (p_flags p) WGPEER_HAS_PUBLIC_KEY) (peers (conf_device d)) = true.
Proof.
  cbn [conf_device peers device_with]. apply forallb_Forall_true, Forall_fmap, Forall_true. intros p. cbn.
  by destruct (has_psk p), (truthy (persistent_keepalive_interval p)).
Qed.
End Read.

(** C1: [wg showconf] writes a file that [wg setconf] reads back: for a device
    with plain endpoints and addresses without stray bytes, the device that
    setconf hands to the interface after reading showconf's output has the same
    private key, listen port and fwmark, and the same peers in the same order
    with the same keys, endpoints, keepalive intervals and allowed addresses. *)
Theorem showconf_setconf_roundtrip (plat : Platform) (net : NetLib) (laws : NetLibLaws net) (ipc : Ipc) (srt : Qsort)
    (patience : nat) (d : wgdevice) (ifname path : bytes)
    (Hd : canonical_device d)
    (Henv : getenv (str "WG_ENDPOINT_RESOLUTION_RETRIES") = None)
    (Hfile : fopen path = Some {| f_data := showconf_device d; f_error := false |}) :
  run (setconf_main patience [str "setconf"; ifname; path]) =
  Done (if negb (ipc_set_device (store_name ifname (conf_device d)) =? 0) then 1 else 0,
        Some (store_name ifname (conf_device d))).
Proof.
  destruct (device_lines_text d Hd) as [Ht Hl].
  destruct (read_device patience Henv d Hd) as (cur & last & sec & Hr%reads_run).
  unfold run, setconf_main. rewrite Hfile.
  unfold config_read_init, mbind, M_bind. cbn [alloc negb].
  change (strcmp_eq (str "setconf") (str "addconf")) with false. cbv iota. fold conf_flags.
  unfold mret, M_ret.
  unfold file_lines. cbn [f_data f_error]. rewrite Ht. unfold unlines. rewrite getlines_lines.
  2:{ eapply Forall_impl; [exact Hl|]. intros t Hline Hin. rewrite Forall_forall in Hline.
      apply Hline in Hin as (_ & ? & _). done. }
  cbn [negb]. rewrite Hr. cbn [negb]. unfold config_read_finish. cbn [device]. rewrite conf_device_keyed.
  change (strcmp_eq (str "setconf") (str "syncconf")) with false. reflexivity.
Qed.

(** A device with one peer, its endpoint and two addresses. *)
Definition sample_peer : wgpeer :=
  peer_with (WGPEER_HAS_PUBLIC_KEY .| WGPEER_HAS_PRESHARED_KEY) (replicate WG_KEY_LEN 7) (replicate WG_KEY_LEN 9)
    {| sa_family := AF_INET; sin_port := 51820; sin_addr := [192; 0; 2; 1]; sin6_extra := [] |} 0 0 0 0 25
    [{| family := AF_INET; ip := [10; 0; 0; 0] ++ replicate 12 0; cidr := 8; ai_flags := 0 |};
     {| family := AF_INET6; ip := [253] ++ replicate 15 0; cidr := 64; ai_flags := 0 |}] None.
Definition sample_device : wgdevice :=
  device_with (str "wg0") 3 (WGDEVICE_HAS_PRIVATE_KEY .| WGDEVICE_HAS_PUBLIC_KEY) (replicate WG_KEY_LEN 1)
    (replicate WG_KEY_LEN 2) 16 51820 [sample_peer] None.
Definition sample_net : NetLib := with_file (str "wg0.conf") (showconf_device (net := net0) sample_device).
#[local] Instance ipc_accepts : Ipc := {| ipc_get_device := λ _, (0, Some sample_device); ipc_set_device := λ _, 0; ipc_list_devices := Some [0] |}.

Lemma sample_canonical : canonical_device sample_device.
Proof.
  assert (Hips : Forall canonical_ip (allowedips sample_peer)).
  { apply Forall_cons. split; [|apply Forall_singleton]; (split; [|done]);
      unfold allowedip_ok; split_and!; try done; simpl; auto with lia. }
  assert (Hok : peer_ok sample_peer).
  { unfold peer_ok, endpoint_ok. cbn -[Z.le Z.lt]. split_and!; try done; try lia.
    all: first [by auto | eapply Forall_impl; [exact Hips|]; by intros a [? _]]. }
  split; [|apply Forall_singleton; split_and!; [exact Hok|exact Hips|]].
  - unfold device_ok. cbn -[Z.le Z.lt]. split_and!; try done; try lia. by apply Forall_singleton.
  - intros _. split_and!; try done. left. done.
Qed.

Lemma showconf_setconf_roundtrip_witness :
  run (setconf_main (plat := arm64) (net := sample_net) 0 [str "setconf"; str "wg1"; str "wg0.conf"]) =
  Done (0, Some (store_name (str "wg1") (conf_device sample_device))).
Proof.
  refine (showconf_setconf_roundtrip arm64 sample_net (with_file_laws _ _ _) ipc_accepts insertion_qsort 0
            sample_device (str "wg1") (str "wg0.conf") sample_canonical eq_refl _); vm_compute; reflexivity.
Defined.
