(* ===== verification/Terminal.v ===== *)
(** * Terminal: terminal.c and the codes of terminal.h

    [filter_ansi] blanks the escape sequences of a formatted string in place,
    by overwriting them with NUL bytes, and prints the pieces between the NULs.
    It is compared with [strip_csi], which drops the sequences in one pass. *)

From Stdlib Require Import Ascii String.
From stdpp Require Import base numbers option sets list list_numbers strings.
From S2P Require Import Prelude CLib Ctype Encoding Containers Config NetLibModel.
#[local] Open Scope c_scope.

Definition ESC : Z := 0x1b.
(** ["\x1b[" code] *)
Definition csi (code : string) : bytes := ESC :: ch "[" :: str code.
Definition TERMINAL_FG_RED : bytes := csi "31m".
Definition TERMINAL_FG_GREEN : bytes := csi "32m".
Definition TERMINAL_FG_YELLOW : bytes := csi "33m".
Definition TERMINAL_FG_CYAN : bytes := csi "36m".
Definition TERMINAL_BOLD : bytes := csi "1m".
Definition TERMINAL_RESET : bytes := csi "0m".

Section Terminal.
Context {plat : Platform} {net : NetLib}.
(** [isatty(fileno(stdout))] *)
Variable isatty_stdout : bool.

(** [color_mode()]: the verdict, and the static [mode] it leaves; -1 is unset. *)
Definition color_mode (mode : Z) : bool * Z :=
  if negb (mode =? -1) then (truthy mode, mode)
  else
    let var := getenv (str "WG_COLOR_MODE") in
    let var_is v := match var with Some s => strcmp_eq s (str v) | None => false end in
    let mode := c_bool (if var_is "always" then true else if var_is "never" then false else isatty_stdout) in
    (truthy mode, mode).

(** [for (j = i + 2; j < len; ++j) { if (alpha) break; str[j] = 0; } str[j] = 0;]
    on the text from [j] on. *)
Fixpoint blank_params (s : bytes) : bytes :=
  match s with
  | [] => []
  | c :: s' => if char_is_alpha (char_val c) then 0 :: s' else 0 :: blank_params s'
  end.

(** The body of the first loop at position [i]. *)
Definition blank_at (i : nat) (s : bytes) : bytes :=
  if (at_ s i =? ESC) && (at_ s (S i) =? ch "[")
  then take i s ++ [0; 0] ++ blank_params (drop (i + 2) s)
  else s.

(** [if (len >= 2) for (i = 0; i < len - 2; ++i) ...] *)
Definition blank_sequences (s : bytes) : bytes :=
  if (2 <=? length s)%nat then for_upto 0 (length s - 2) blank_at s else s.

(** The second loop: [fputs] up to a NUL, then skip the NULs. *)
Fixpoint skip_nuls (s : bytes) : bytes :=
  match s with
  | c :: s' => if c =? 0 then skip_nuls s' else s
  | [] => []
  end.
Fixpoint put_pieces (fuel : nat) (s : bytes) : bytes :=
  match s, fuel with
  | [], _ => []
  | _, O => []
  | _, S fuel' => cstr s ++ put_pieces fuel' (skip_nuls (drop (length (cstr s)) s))
  end.

(** [filter_ansi]: the text formatted from [fmt] and [args], what is written,
    and the static mode.  When [vasprintf] fails its result is used anyway. *)
Definition filter_ansi (mode : Z) (text : bytes) : M (bytes * Z) :=
  let '(color, mode) := color_mode mode in
  if color then mret (text, mode)
  else
    ok ← alloc;
    if negb ok then undefined
    else mret (put_pieces (S (length text)) (blank_sequences text), mode).

(** The output of a row of [terminal_printf] calls. *)
Fixpoint terminal_print (mode : Z) (texts : list bytes) : M (bytes * Z) :=
  match texts with
  | [] => mret ([], mode)
  | t :: ts =>
      r ← filter_ansi mode t;
      let '(out, mode) := r in
      r ← terminal_print mode ts;
      let '(outs, mode) := r in
      mret (out ++ outs, mode)
  end.

(** ** The reference: drop the sequences in one pass *)

Inductive csi_state := Text | Bracket | Params.

(** A sequence is ESC, a bracket and at least one more byte, up to a letter. *)
Fixpoint strip_csi (st : csi_state) (s : bytes) : bytes :=
  match s with
  | [] => []
  | c :: s' =>
      match st with
      | Text =>
          if (c =? ESC) && (at_ s' 0 =? ch "[") && (2 <=? length s')%nat
          then strip_csi Bracket s' else c :: strip_csi Text s'
      | Bracket => strip_csi Params s'
      | Params => strip_csi (if char_is_alpha (char_val c) then Text else Params) s'
      end
  end.

(** ** Proofs *)

Definition printable (s : bytes) : bytes := filter (λ c, c ≠ 0) s.

Lemma printable_id s : 0 ∉ s → printable s = s.
Proof.
  unfold printable. induction s as [|c s IH]; intros Hs; [done|].
  rewrite filter_cons_True by set_solver. f_equal. apply IH. set_solver.
Qed.

Lemma printable_app s t : printable (s ++ t) = printable s ++ printable t.
Proof. apply filter_app. Qed.

Lemma printable_nul s : printable (0 :: s) = printable s.
Proof. unfold printable. by rewrite filter_cons_False by naive_solver. Qed.

Lemma skip_nuls_spec s : printable (skip_nuls s) = printable s ∧ (length (skip_nuls s) <= length s)%nat.
Proof.
  induction s as [|x s [IHp IHl]]; [done|]. cbn [skip_nuls].
  destruct (Z.eqb_spec x 0) as [->|]; [|done]. rewrite printable_nul. split; [done|simpl; lia].
Qed.

(** The second loop prints every byte that is not NUL. *)
Lemma put_pieces_printable fuel s : (length s < fuel)%nat → put_pieces fuel s = printable s.
Proof.
  revert s. induction fuel as [|fuel IH]; intros s Hl; [lia|].
  destruct (cstr_split s) as [Hn Hs]. destruct (decide (s = [])) as [->|Hne]; [done|].
  assert (put_pieces (S fuel) s = cstr s ++ put_pieces fuel (skip_nuls (drop (length (cstr s)) s))) as ->.
  { by destruct s. }
  destruct Hs as [Hs|[r Hs]].
  - rewrite drop_ge by (rewrite <- Hs; lia). cbn [skip_nuls].
    replace (put_pieces fuel []) with ([] : bytes) by by destruct fuel.
    rewrite app_nil_r, <- Hs. symmetry. apply printable_id. by rewrite Hs.
  - generalize dependent (cstr s). intros t Hn ->. rewrite drop_app_length. cbn [skip_nuls Z.eqb].
    destruct (skip_nuls_spec r) as [Hp Hle]. rewrite length_app in Hl. cbn [length] in Hl.
    rewrite IH by lia. rewrite Hp, printable_app, printable_nul, (printable_id t Hn). reflexivity.
Qed.

(** *** The first loop *)

Lemma blank_params_length s : length (blank_params s) = length s.
Proof.
  induction s as [|c s IH]; cbn [blank_params length]; [done|].
  destruct (char_is_alpha _); cbn [length]; lia.
Qed.

(** The first loop as a recursion on the text that is left. *)
Fixpoint blank (fuel : nat) (s : bytes) : bytes :=
  match fuel, s with
  | S fuel', c :: s' =>
      if (c =? ESC) && (at_ s' 0 =? ch "[") && (2 <=? length s')%nat
      then 0 :: blank fuel' (0 :: blank_params (drop 1 s'))
      else c :: blank fuel' s'
  | _, _ => s
  end.

Lemma blank_length fuel s : length (blank fuel s) = length s.
Proof.
  revert s. induction fuel as [|fuel IH]; intros [|c s]; [done..|]. cbn [blank].
  destruct ((c =? ESC) && _ && _) eqn:E; cbn [length]; rewrite IH; [|done]. cbn [length].
  apply andb_true_iff in E as [_ Hlen%Nat.leb_le]. rewrite blank_params_length, length_drop. lia.
Qed.

Lemma at_app_r (pre s : bytes) i : at_ (pre ++ s) (length pre + i) = at_ s i.
Proof. unfold at_. by rewrite lookup_app_r, Nat.add_comm, Nat.add_sub by lia. Qed.

Lemma blank_at_eq pre c s :
  blank_at (length pre) (pre ++ c :: s) =
  if (c =? ESC) && (at_ s 0 =? ch "[") then pre ++ [0; 0] ++ blank_params (drop 1 s) else pre ++ c :: s.
Proof.
  unfold blank_at. pose proof (at_app_r pre (c :: s) 0) as H0. rewrite Nat.add_0_r in H0. rewrite H0.
  pose proof (at_app_r pre (c :: s) 1) as H1. rewrite Nat.add_1_r in H1. rewrite H1.
  change (at_ (c :: s) 0) with c. change (at_ (c :: s) 1) with (at_ s 0).
  by rewrite take_app_length, drop_app_add.
Qed.

Lemma blank_loop pre s n :
  length s = (n + 2)%nat → for_upto (length pre) n blank_at (pre ++ s) = pre ++ blank (length s) s.
Proof.
  revert pre s. induction n as [|n IH]; intros pre s Hl.
  { destruct s as [|a [|b [|]]]; try done. cbn [for_upto length blank].
    change (2 <=? 1)%nat with false. change (2 <=? 0)%nat with false. by rewrite !andb_false_r. }
  destruct s as [|c s]; [done|]. cbn [for_upto]. rewrite blank_at_eq. cbn [length blank].
  simpl in Hl. assert ((2 <=? length s)%nat = true) as -> by (apply Nat.leb_le; lia). rewrite andb_true_r.
  assert (Hstep : ∀ b k, length k = (n + 2)%nat →
    for_upto (S (length pre)) n blank_at (pre ++ b :: k) = pre ++ b :: blank (length k) k).
  { intros b k Hk. pose proof (IH (pre ++ [b]) k Hk) as H. rewrite length_app in H. cbn [length] in H.
    rewrite Nat.add_1_r, <- !app_assoc in H. exact H. }
  destruct ((c =? ESC) && (at_ s 0 =? ch "[")); [|apply Hstep; lia].
  assert (Hlen : length (0 :: blank_params (drop 1 s)) = length s).
  { cbn [length]. rewrite blank_params_length, length_drop. lia. }
  cbn [app]. rewrite Hstep by lia. by rewrite Hlen.
Qed.

(** Blanking and then dropping the NULs strips the sequences. *)
Lemma blank_strip fuel s :
  (length s <= fuel)%nat → 0 ∉ s →
  printable (blank fuel s) = strip_csi Text s ∧ printable (blank fuel (blank_params s)) = strip_csi Params s.
Proof.
  revert s. induction fuel as [fuel IH] using lt_wf_ind. intros s Hl Hn.
  destruct s as [|c s]; [by destruct fuel|]. destruct fuel as [|fuel]; [simpl in Hl; lia|]. simpl in Hl.
  apply not_elem_of_cons in Hn as [Hc Hn]. split.
  - cbn [blank strip_csi]. destruct ((c =? ESC) && _ && _) eqn:E.
    + apply andb_true_iff in E as [_ Hlen%Nat.leb_le]. destruct s as [|b s]; [simpl in Hlen; lia|].
      apply not_elem_of_cons in Hn as [_ Hn]. simpl in Hl, Hlen. destruct fuel as [|fuel]; [lia|].
      cbn [drop strip_csi]. rewrite drop_0, printable_nul. cbn [blank]. change ((0 =? ESC) && _ && _) with false.
      cbv iota. rewrite printable_nul. apply IH; [lia|lia|done].
    + unfold printable. rewrite filter_cons_True by done. f_equal. apply IH; [lia|lia|done].
  - cbn [blank_params strip_csi]. destruct (char_is_alpha (char_val c)); cbn [blank];
      change ((0 =? ESC) && _ && _) with false; cbv iota; rewrite printable_nul; apply IH; (lia || done).
Qed.
End Terminal.

(** Without colours, [filter_ansi] prints the text less its escape
    sequences: the two in-place loops over the buffer agree with the one-pass
    reference on every string, for either signedness of [char]. *)
Theorem filter_ansi_strips (plat : Platform) (net : NetLib) (tty : bool) (mode : Z) (text : bytes)
    (Hmode : (color_mode tty mode).1 = false) (Htext : cstring text = true) :
  run (filter_ansi tty mode text) = Done (strip_csi Text text, (color_mode tty mode).2).
Proof.
  assert (Hn : 0 ∉ text).
  { intros H0. unfold cstring in Htext. rewrite forallb_forall in Htext.
    apply list_elem_of_In, Htext, is_cchar_spec in H0. lia. }
  unfold run, filter_ansi. destruct (color_mode tty mode) as [c m]. simpl in Hmode. subst c.
  unfold mbind, M_bind. cbn [alloc negb mret M_ret]. unfold mret, M_ret. do 2 f_equal.
  unfold blank_sequences. destruct (Nat.leb_spec 2 (length text)).
  - rewrite (blank_loop [] text) by lia. cbn [app]. rewrite put_pieces_printable by (rewrite blank_length; lia).
    by apply blank_strip.
  - rewrite put_pieces_printable by lia. rewrite printable_id by done.
    destruct text as [|a [|b text]]; [done| |simpl in *; lia]. cbn [strip_csi length].
    change (2 <=? 0)%nat with false. by rewrite andb_false_r.
Qed.

(** The coloured word a peer's age is printed with. *)
Lemma filter_ansi_strips_witness :
  run (filter_ansi (plat := arm64) (net := net0) false (-1) (str "5 " ++ TERMINAL_FG_CYAN ++ str "days" ++ TERMINAL_RESET)) =
  Done (str "5 days", 0).
Proof.
  pose proof (filter_ansi_strips arm64 net0 false (-1) (str "5 " ++ TERMINAL_FG_CYAN ++ str "days" ++ TERMINAL_RESET)
    eq_refl eq_refl) as H.
  rewrite H. vm_compute. reflexivity.
Defined.

(** The result of [vasprintf] is not checked: without memory the text that was
    never allocated is read. *)
Example filter_ansi_no_memory :
  filter_ansi (plat := arm64) (net := net0) false (-1) (str "interface") [false] = Undefined.
Proof. reflexivity. Qed.
