(* ===== verification/Show.v ===== *)
(** * Show: show.c

    [wg show] in its three forms: the human-readable listing ([pretty_print],
    through [terminal_printf]), one field of every peer ([ugly_print]) and the
    tab-separated dump.  The output is the row of calls that write it: a text
    given to [terminal_printf] or to [printf]. *)

From Stdlib Require Import Ascii String.
From stdpp Require Import base numbers option sets list list_numbers sorting strings.
From S2P Require Import Prelude CLib Ctype Encoding Containers Config Setconf Showconf Terminal.
#[local] Open Scope c_scope.

(** A call that writes to standard output. *)
Inductive write := Term (text : bytes) | Plain (text : bytes).

Definition tab : bytes := [9].

(** ** Sorting the peers *)

Section Show.
Context {plat : Platform} {net : NetLib} {ipc : Ipc} {srt : Qsort}.
(** [time(NULL)], and the text of [gai_strerror] for a failed [getnameinfo]. *)
Variable now : Z.
Variable gai_strerror : bytes.

(** [time_t] is as wide as [long]. *)
Definition time_t (x : Z) : Z := if ulong_bits =? 32 then s32 x else x.

Definition no_handshake (p : wgpeer) : bool := negb (truthy (tv_sec p)) && negb (truthy (tv_nsec p)).

Definition peer_cmp (a b : wgpeer) : Z :=
  if no_handshake a && (truthy (tv_sec b) || truthy (tv_nsec b)) then 1
  else if no_handshake b && (truthy (tv_sec a) || truthy (tv_nsec a)) then -1
  else
    let diff := time_t (tv_sec a - tv_sec b) in
    let diff := if diff =? 0 then time_t (tv_nsec a - tv_nsec b) else diff in
    if diff <? 0 then 1 else if 0 <? diff then -1 else 0.

(** [sort_peers(device)]; [last_peer] is not read again and is dropped. *)
Definition sort_peers (d : wgdevice) : M wgdevice :=
  match peers d with
  | [] => mret d
  | ps =>
      ok ← alloc;
      if negb ok then mret d else mret (set_last_peer None (set_peers (qsort peer_cmp ps) d))
  end.

(** ** Fields *)

Definition key (k : bytes) : bytes := cstr (key_to_base64 k).
Definition maybe_key (k : bytes) (have_it : bool) : bytes := if have_it then key k else str "(none)".
Definition masked_key (k : bytes) : bytes :=
  match getenv (str "WG_HIDE_KEYS") with
  | Some var => if strcmp_eq var (str "never") then key k else str "(hidden)"
  | None => str "(hidden)"
  end.

Definition ip_field (a : wgallowedip) : bytes := default [] (allowedip_text a).

Definition endpoint_field (sa : sockaddr) : bytes :=
  match getnameinfo sa with
  | None => gai_strerror
  | Some (host, service) => endpoint_text sa host service
  end.

(** ** Times and amounts *)

(** [offset += snprintf(buf + offset, len - offset, ...)]: the buffer, as the
    string it holds, and the offset; an offset past the end is undefined. *)
Definition snprintf_at (len : nat) (st : bytes * nat) (text : bytes) : M (bytes * nat) :=
  let '(buf, offset) := st in
  if (len <? offset)%nat then undefined
  else mret (if Nat.eqb (len - offset) 0 then buf else take offset buf ++ take (len - offset - 1) text,
             (offset + length text)%nat).

(** One unit of [pretty_time]. *)
Definition time_unit (len : nat) (st : bytes * nat) (n : Z) (unit : string) : M (bytes * nat) :=
  if truthy n then
    snprintf_at len st ((if Nat.eqb st.2 0 then [] else str ", ") ++ printf_u n ++ str " "
      ++ TERMINAL_FG_CYAN ++ str unit ++ (if n =? 1 then [] else str "s") ++ TERMINAL_RESET)
  else mret st.

(** [pretty_time(buf, len, left)] into a buffer whose string is [buf]. *)
Definition pretty_time (buf : bytes) (len : nat) (left : Z) : M (bytes * nat) :=
  let years := left / (365 * 24 * 60 * 60) in
  let left := left mod (365 * 24 * 60 * 60) in
  let days := left / (24 * 60 * 60) in
  let left := left mod (24 * 60 * 60) in
  let hours := left / (60 * 60) in
  let left := left mod (60 * 60) in
  let minutes := left / 60 in
  let seconds := left mod 60 in
  st ← time_unit len (buf, O) years "year";
  st ← time_unit len st days "day";
  st ← time_unit len st hours "hour";
  st ← time_unit len st minutes "minute";
  time_unit len st seconds "second".

(** [ago(t)]; the static buffer is empty or holds an earlier result, which
    every branch overwrites from its start. *)
Definition ago (sec : Z) : M bytes :=
  let now := time_t now in
  if now =? sec then mret (str "Now")
  else if now <? sec then
    mret (str "(" ++ TERMINAL_FG_RED ++ str "System clock wound backward; connection problems may ensue."
          ++ TERMINAL_RESET ++ str ")")
  else
    st ← pretty_time [] 1024 (u64 (now - sec));
    let '(buf, offset) := st in
    if (1024 <=? offset)%nat then undefined else mret (take 1023 (buf ++ str " ago")).

(** [every(seconds)]: the text after the fixed prefix of the buffer. *)
Definition every (seconds : Z) : M bytes :=
  st ← pretty_time [] (1024 - 6 - 1) seconds;
  mret (str "every " ++ st.1).

(** [(double)b]: the nearest 53-bit significand, ties to even. *)
Definition round_half_even (num den : Z) : Z :=
  let q := num / den in
  let r := num mod den in
  if 2 * r <? den then q else if den <? 2 * r then q + 1 else if Z.even q then q else q + 1.
Definition double_of_u64 (b : Z) : Z :=
  let e := Z.max 0 (Z.log2 b - 52) in round_half_even b (2 ^ e) * 2 ^ e.
(** [%.2f] of the exact quotient [num / den]. *)
Definition printf_2f (num den : Z) : bytes :=
  let q := round_half_even (num * 100) den in
  printf_u (q / 100) ++ str "." ++ [48 + (q mod 100) / 10; 48 + q mod 10].

Definition bytes_field (b : Z) : bytes :=
  let amount num den unit := printf_2f num den ++ str " " ++ TERMINAL_FG_CYAN ++ str unit ++ TERMINAL_RESET in
  if b <? 1024 then printf_u b ++ str " " ++ TERMINAL_FG_CYAN ++ str "B" ++ TERMINAL_RESET
  else if b <? 1024 ^ 2 then amount (double_of_u64 b) 1024 "KiB"
  else if b <? 1024 ^ 3 then amount (double_of_u64 b) (1024 ^ 2) "MiB"
  else if b <? 1024 ^ 4 then amount (double_of_u64 b) (1024 ^ 3) "GiB"
  else amount (double_of_u64 b) (1024 ^ 4) "TiB".

(** ** The three listings *)

(** [for_each_wgallowedip] with the separator after every entry but the last. *)
Fixpoint ip_entries (slash sep stop : bytes) (l : list wgallowedip) : list bytes :=
  match l with
  | [] => []
  | a :: next =>
      (ip_field a ++ slash ++ printf_u (cidr a) ++ (if next is [] then stop else sep))
      :: ip_entries slash sep stop next
  end.

Definition label (name : string) : bytes := str "  " ++ TERMINAL_BOLD ++ str name ++ TERMINAL_RESET ++ str ": ".
Definition when (b : bool) (w : list write) : list write := if b then w else [].

(** The body of the peer loop of [pretty_print]. *)
Definition pretty_peer (p : wgpeer) (more : bool) : M (list write) :=
  handshake ← (if truthy (tv_sec p) then
                 t ← ago (tv_sec p); mret [Term (label "latest handshake" ++ t ++ newline)]
               else mret []);
  keepalive ← (if truthy (persistent_keepalive_interval p) then
                 t ← every (persistent_keepalive_interval p);
                 mret [Term (label "persistent keepalive" ++ t ++ newline)]
               else mret []);
  mret (
    [Term (TERMINAL_FG_YELLOW ++ TERMINAL_BOLD ++ str "peer" ++ TERMINAL_RESET ++ str ": " ++ TERMINAL_FG_YELLOW
           ++ key (p_public_key p) ++ TERMINAL_RESET ++ newline)]
    ++ when (has_flag (p_flags p) WGPEER_HAS_PRESHARED_KEY)
         [Term (label "preshared key" ++ masked_key (preshared_key p) ++ newline)]
    ++ when (has_endpoint p) [Term (label "endpoint" ++ endpoint_field (endpoint p) ++ newline)]
    ++ [Term (label "allowed ips")]
    ++ (if allowedips p is [] then [Term (str "(none)" ++ newline)]
        else Term <$> ip_entries (TERMINAL_FG_CYAN ++ str "/" ++ TERMINAL_RESET) (str ", ") newline (allowedips p))
    ++ handshake
    ++ when (truthy (rx_bytes p) || truthy (tx_bytes p))
         [Term (label "transfer"); Term (bytes_field (rx_bytes p) ++ str " received, ");
          Term (bytes_field (tx_bytes p) ++ str " sent" ++ newline)]
    ++ keepalive
    ++ when more [Term newline]).

Fixpoint pretty_peers (ps : list wgpeer) : M (list write) :=
  match ps with
  | [] => mret []
  | p :: next =>
      w ← pretty_peer p (if next is [] then false else true);
      ws ← pretty_peers next;
      mret (w ++ ws)
  end.

Definition pretty_print (d : wgdevice) : M (list write) :=
  let head :=
    [Term TERMINAL_RESET;
     Term (TERMINAL_FG_GREEN ++ TERMINAL_BOLD ++ str "interface" ++ TERMINAL_RESET ++ str ": " ++ TERMINAL_FG_GREEN
           ++ name d ++ TERMINAL_RESET ++ newline)]
    ++ when (has_flag (flags d) WGDEVICE_HAS_PUBLIC_KEY) [Term (label "public key" ++ key (public_key d) ++ newline)]
    ++ when (has_flag (flags d) WGDEVICE_HAS_PRIVATE_KEY)
         [Term (label "private key" ++ masked_key (private_key d) ++ newline)]
    ++ when (truthy (listen_port d)) [Term (label "listening port" ++ printf_u (listen_port d) ++ newline)]
    ++ when (truthy (fwmark d)) [Term (label "fwmark" ++ str "0x" ++ printf_x (fwmark d) ++ newline)] in
  d ← sort_peers d;
  ws ← pretty_peers (peers d);
  mret (head ++ (if peers d is [] then [] else [Term newline]) ++ ws).

Definition fwmark_field (mark : Z) : bytes := if truthy mark then str "0x" ++ printf_x mark else str "off".
Definition keepalive_field (ka : Z) : bytes := if truthy ka then printf_u ka else str "off".
Definition prefix (d : wgdevice) (with_interface : bool) : bytes := if with_interface then name d ++ tab else [].

Definition dump_peer (d : wgdevice) (with_interface : bool) (p : wgpeer) : bytes :=
  prefix d with_interface ++ key (p_public_key p) ++ tab
  ++ maybe_key (preshared_key p) (has_flag (p_flags p) WGPEER_HAS_PRESHARED_KEY) ++ tab
  ++ (if has_endpoint p then endpoint_field (endpoint p) else str "(none)") ++ tab
  ++ (if allowedips p is [] then str "(none)" ++ tab
      else concat (ip_entries (str "/") (str ",") tab (allowedips p)))
  ++ printf_u (u64 (tv_sec p)) ++ tab ++ printf_u (rx_bytes p) ++ tab ++ printf_u (tx_bytes p) ++ tab
  ++ keepalive_field (persistent_keepalive_interval p) ++ newline.

Definition dump_print (d : wgdevice) (with_interface : bool) : bytes :=
  prefix d with_interface
  ++ maybe_key (private_key d) (has_flag (flags d) WGDEVICE_HAS_PRIVATE_KEY) ++ tab
  ++ maybe_key (public_key d) (has_flag (flags d) WGDEVICE_HAS_PUBLIC_KEY) ++ tab
  ++ printf_u (listen_port d) ++ tab ++ fwmark_field (fwmark d) ++ newline
  ++ flat_map (dump_peer d with_interface) (peers d).

(** [ugly_print]: the output, or [None] for an invalid parameter. *)
Definition ugly_print (d : wgdevice) (param : bytes) (with_interface : bool) : option bytes :=
  let pre := prefix d with_interface in
  let each (f : wgpeer → bytes) := flat_map (λ p, pre ++ f p) (peers d) in
  let is_param s := strcmp_eq param (str s) in
  if is_param "public-key" then
    Some (pre ++ maybe_key (public_key d) (has_flag (flags d) WGDEVICE_HAS_PUBLIC_KEY) ++ newline)
  else if is_param "private-key" then
    Some (pre ++ maybe_key (private_key d) (has_flag (flags d) WGDEVICE_HAS_PRIVATE_KEY) ++ newline)
  else if is_param "listen-port" then Some (pre ++ printf_u (listen_port d) ++ newline)
  else if is_param "fwmark" then Some (pre ++ fwmark_field (fwmark d) ++ newline)
  else if is_param "endpoints" then
    Some (each (λ p, key (p_public_key p) ++ tab
            ++ (if has_endpoint p then endpoint_field (endpoint p) else str "(none)") ++ newline))
  else if is_param "allowed-ips" then
    Some (each (λ p, key (p_public_key p) ++ tab
            ++ (if allowedips p is [] then str "(none)" ++ newline
                else concat (ip_entries (str "/") (str " ") newline (allowedips p)))))
  else if is_param "latest-handshakes" then
    Some (each (λ p, key (p_public_key p) ++ tab ++ printf_u (u64 (tv_sec p)) ++ newline))
  else if is_param "transfer" then
    Some (each (λ p, key (p_public_key p) ++ tab ++ printf_u (rx_bytes p) ++ tab ++ printf_u (tx_bytes p) ++ newline))
  else if is_param "persistent-keepalive" then
    Some (each (λ p, key (p_public_key p) ++ tab ++ keepalive_field (persistent_keepalive_interval p) ++ newline))
  else if is_param "preshared-keys" then
    Some (each (λ p, key (p_public_key p) ++ tab
            ++ maybe_key (preshared_key p) (has_flag (p_flags p) WGPEER_HAS_PRESHARED_KEY) ++ newline))
  else if is_param "peers" then Some (each (λ p, key (p_public_key p) ++ newline))
  else if is_param "dump" then Some (dump_print d with_interface)
  else None.

(** A call with the device a successful [ipc_get_device] stored: NULL is used. *)
Definition ugly_call (dev : option wgdevice) (param : bytes) (with_interface : bool) : M (option bytes) :=
  match dev with
  | Some d => mret (ugly_print d param with_interface)
  | None => if ugly_print wgdevice_zero param with_interface is None then mret None else undefined
  end.
Definition pretty_call (dev : option wgdevice) : M (list write) :=
  match dev with Some d => pretty_print d | None => undefined end.

(** The names of the buffer [ipc_list_devices] returns. *)
Fixpoint interface_names (fuel : nat) (buf : bytes) : list bytes :=
  match fuel with
  | O => []
  | S fuel' =>
      match cstr buf with
      | [] => []
      | nm => nm :: interface_names fuel' (drop (S (length nm)) buf)
      end
  end.

(** The loop over the interfaces; the status so far and the output. *)
Fixpoint show_all (names : list bytes) (param : option bytes) (ret : Z) : M (Z * list write) :=
  match names with
  | [] => mret (ret, [])
  | nm :: rest =>
      let '(r, dev) := ipc_get_device nm in
      if r <? 0 then show_all rest param ret
      else match param with
      | Some param =>
          out ← ugly_call dev param true;
          match out with
          | None => mret (1, [])
          | Some t =>
              r ← show_all rest (Some param) 0;
              mret (r.1, Plain t :: r.2)
          end
      | None =>
          w ← pretty_call dev;
          r ← show_all rest None 0;
          mret (r.1, w ++ (if rest is [] then [] else [Plain newline]) ++ r.2)
      end
  end.

(** [show_main(argc, argv)] *)
Definition show_main (argv : list bytes) : M (Z * list write) :=
  let names buf := interface_names (S (length buf)) buf in
  let all param :=
    match ipc_list_devices with
    | None => mret (1, [])
    | Some buf => show_all (names buf) param (c_bool (truthy (at_ buf 0)))
    end in
  let one ifname param :=
    let '(r, dev) := ipc_get_device ifname in
    if r <? 0 then mret (1, [])
    else match param with
    | Some param =>
        out ← ugly_call dev param false;
        mret (if out is None then 1 else 0, match out with Some t => [Plain t] | None => [] end)
    | None => w ← pretty_call dev; mret (0, w)
    end in
  let is_help s := strcmp_eq s (str "-h") || strcmp_eq s (str "--help") || strcmp_eq s (str "help") in
  match argv with
  | [] => undefined
  | [_] => all None
  | _ :: who :: rest =>
      match rest with
      | _ :: _ :: _ => mret (1, [])
      | _ =>
          let param := head rest in
          if strcmp_eq who (str "all") then all param
          else if strcmp_eq who (str "interfaces") then
            match param with
            | Some _ => mret (1, [])
            | None =>
                match ipc_list_devices with
                | None => mret (1, [])
                | Some buf =>
                    mret (0, match names buf with
                             | [] => []
                             | nm :: nms => [Plain (nm ++ flat_map (λ n, str " " ++ n) nms ++ newline)]
                             end)
                end
            end
          else if (if param is None then is_help who else false) then mret (0, [])
          else one who param
      end
  end.
End Show.
