(* ===== verification/ShowSpec.v ===== *)
(** * ShowSpec: what the listings of show.c contain *)

From Stdlib Require Import Ascii String.
From stdpp Require Import base numbers option sets list list_numbers sorting strings.
From S2P Require Import Prelude CLib Ctype Encoding Containers Config NetLibModel ConfigFacts ConfigSpec Setconf Showconf ShowconfSpec Terminal Show.
#[local] Open Scope c_scope.

(** ** Times *)

(** One unit with its number, and the units of a time that are not zero. *)
Definition unit_text (u : Z * string) : bytes :=
  printf_u u.1 ++ str " " ++ TERMINAL_FG_CYAN ++ str u.2 ++ (if u.1 =? 1 then [] else str "s") ++ TERMINAL_RESET.
Definition time_units (t : Z) : list (Z * string) :=
  [(t / 31536000, "year"%string); (t mod 31536000 / 86400, "day"%string);
   (t mod 31536000 mod 86400 / 3600, "hour"%string); (t mod 31536000 mod 86400 mod 3600 / 60, "minute"%string);
   (t mod 31536000 mod 86400 mod 3600 mod 60, "second"%string)].
Definition time_text (t : Z) : bytes :=
  match filter (λ u, u.1 ≠ 0) (time_units t) with
  | [] => []
  | u :: us => unit_text u ++ flat_map (λ u, str ", " ++ unit_text u) us
  end.

(** What the code builds, unit by unit. *)
Definition add_unit (buf : bytes) (u : Z * string) : bytes :=
  if u.1 =? 0 then buf else buf ++ (if Nat.eqb (length buf) 0 then [] else str ", ") ++ unit_text u.

Lemma unit_text_nonempty u : (0 < length (unit_text u))%nat.
Proof. unfold unit_text. rewrite !length_app. simpl. lia. Qed.

Lemma add_units_text us : 
  foldl add_unit [] us =
  match filter (λ u, u.1 ≠ 0) us with
  | [] => []
  | u :: us => unit_text u ++ flat_map (λ u, str ", " ++ unit_text u) us
  end.
Proof.
  assert (Hne : ∀ us buf, buf ≠ [] →
    foldl add_unit buf us = buf ++ flat_map (λ u, str ", " ++ unit_text u) (filter (λ u, u.1 ≠ 0) us)).
  { intros l. induction l as [|u l IH]; intros buf Hb; cbn [foldl]; [by rewrite app_nil_r|].
    unfold add_unit at 2. destruct (Z.eqb_spec u.1 0) as [Hz|Hz].
    - rewrite filter_cons_False by naive_solver. by apply IH.
    - rewrite filter_cons_True by done. destruct buf as [|c buf]; [done|]. cbn [length Nat.eqb].
      rewrite IH by done. cbn [flat_map]. by rewrite <- !app_assoc. }
  induction us as [|u us IH]; [done|]. cbn [foldl]. unfold add_unit at 2. destruct (Z.eqb_spec u.1 0) as [Hz|Hz].
  - by rewrite filter_cons_False by naive_solver.
  - rewrite filter_cons_True by done. cbn [length Nat.eqb app]. apply Hne.
    pose proof (unit_text_nonempty u). destruct (unit_text u); [simpl in *; lia|done].
Qed.

Lemma length_str s : length (str s) = String.length s.
Proof. unfold str. rewrite length_fmap. induction s as [|c s IH]; simpl; [done|]. by rewrite IH. Qed.

Lemma unit_text_length n unit :
  0 <= n < 10 ^ 12 → (String.length unit <= 6)%nat → (length (unit_text (n, unit)) <= 29)%nat.
Proof.
  intros Hn Hu. unfold unit_text. cbn [fst snd]. rewrite !length_app, !length_str.
  pose proof (printf_u_length n 11 Hn). case_match; cbn -[printf_u]; lia.
Qed.

Lemma time_unit_spec len buf n unit o :
  0 <= n < 10 ^ 12 → (String.length unit <= 6)%nat → (length buf + 32 < len)%nat →
  time_unit len (buf, length buf) n unit o = Done ((add_unit buf (n, unit), length (add_unit buf (n, unit))), o) ∧
  (length (add_unit buf (n, unit)) <= length buf + 31)%nat.
Proof.
  intros Hn Hu Hl. unfold time_unit, add_unit, truthy. cbn [fst snd].
  destruct (Z.eqb_spec n 0); cbn [negb]; [split; [done|lia]|].
  pose proof (unit_text_length n unit Hn Hu) as Hlen.
  change (printf_u n ++ str " " ++ TERMINAL_FG_CYAN ++ str unit ++ (if n =? 1 then [] else str "s") ++ TERMINAL_RESET)
    with (unit_text (n, unit)).
  set (sep := if Nat.eqb (length buf) 0 then [] else str ", ").
  assert (Hsep : (length sep <= 2)%nat) by (unfold sep; case_match; simpl; lia).
  unfold snprintf_at. rewrite (proj2 (Nat.ltb_ge _ _)) by lia. rewrite (proj2 (Nat.eqb_neq _ _)) by lia.
  rewrite firstn_all, (take_ge (sep ++ _)) by (rewrite length_app; lia).
  rewrite !length_app. split; [done|lia].
Qed.

Lemma pretty_time_units len left o :
  0 <= left < 2 ^ 64 → (200 <= len)%nat →
  pretty_time [] len left o = Done ((time_text left, length (time_text left)), o) ∧
  (length (time_text left) <= 155)%nat.
Proof.
  intros Hl Hlen. unfold time_text. rewrite <- add_units_text. unfold pretty_time, time_units. cbn [foldl].
  change (365 * 24 * 60 * 60) with 31536000. change (24 * 60 * 60) with 86400. change (60 * 60) with 3600.
  set (l1 := left mod 31536000). set (l2 := l1 mod 86400). set (l3 := l2 mod 3600).
  assert (0 <= left / 31536000 < 10 ^ 12) by (unfold Z.pow; bit_lia).
  assert (0 <= l1 < 31536000) by (apply Z.mod_pos_bound; lia).
  assert (0 <= l2 < 86400) by (apply Z.mod_pos_bound; lia).
  assert (0 <= l3 < 3600) by (apply Z.mod_pos_bound; lia).
  assert (Hb : ∀ x k, 0 <= x < 31536000 → 0 < k → 0 <= x / k < 10 ^ 12).
  { intros x k Hx Hk. split; [by apply Z.div_pos; lia|]. apply Z.div_lt_upper_bound; [done|]. nia. }
  set (b1 := add_unit [] (left / 31536000, "year"%string)).
  set (b2 := add_unit b1 (l1 / 86400, "day"%string)).
  set (b3 := add_unit b2 (l2 / 3600, "hour"%string)).
  set (b4 := add_unit b3 (l3 / 60, "minute"%string)).
  pose proof (Hb l1 86400). pose proof (Hb l2 3600). pose proof (Hb l3 60).
  pose proof (Z.mod_pos_bound l3 60 ltac:(lia)).
  destruct (time_unit_spec len [] (left / 31536000) "year" o) as [E1 L1]; [lia|simpl; lia|simpl; lia|].
  fold b1 in E1, L1. cbn [length] in L1, E1.
  destruct (time_unit_spec len b1 (l1 / 86400) "day" o) as [E2 L2]; [lia|simpl; lia|lia|]. fold b2 in E2, L2.
  destruct (time_unit_spec len b2 (l2 / 3600) "hour" o) as [E3 L3]; [lia|simpl; lia|lia|]. fold b3 in E3, L3.
  destruct (time_unit_spec len b3 (l3 / 60) "minute" o) as [E4 L4]; [lia|simpl; lia|lia|]. fold b4 in E4, L4.
  destruct (time_unit_spec len b4 (l3 mod 60) "second" o) as [E5 L5]; [lia|simpl; lia|lia|].
  split; [|lia]. unfold mbind, M_bind. by rewrite E1, E2, E3, E4.
Qed.

(** The buffers of [ago] and [every] are long enough: for every number of
    seconds a [uint64_t] holds, [pretty_time] writes the complete text, the
    nonzero units with their plural endings separated by commas, never moves its
    offset past the end, and the text is at most 155 bytes long. *)
Theorem pretty_time_complete (len : nat) (left : Z)
    (Hleft : 0 <= left < 2 ^ 64) (Hlen : (200 <= len)%nat) :
  run (pretty_time [] len left) = Done (time_text left, length (time_text left)) ∧
  (length (time_text left) <= 155)%nat.
Proof. destruct (pretty_time_units len left [] Hleft Hlen) as [H ?]. unfold run. by rewrite H. Qed.

Lemma pretty_time_complete_witness :
  run (pretty_time [] 1024 (2 ^ 64 - 1)) = Done (time_text (2 ^ 64 - 1), 84%nat).
Proof.
  pose proof (pretty_time_complete 1024 (2 ^ 64 - 1) ltac:(lia) ltac:(lia)) as [H _].
  rewrite H. vm_compute. reflexivity.
Defined.

(** ** The order of the peers *)

(** [p] had its handshake no earlier than [q]; 0 stands for none. *)
Definition newer (p q : wgpeer) : Prop :=
  tv_sec q < tv_sec p ∨ (tv_sec q = tv_sec p ∧ tv_nsec q <= tv_nsec p).

Definition time_ok `{Platform} (p : wgpeer) : Prop :=
  0 <= tv_sec p < 2 ^ (ulong_bits - 1) ∧ 0 <= tv_nsec p < 10 ^ 9.

Lemma time_t_diff `{Platform} x y : 0 <= x < 2 ^ (ulong_bits - 1) → 0 <= y < 2 ^ (ulong_bits - 1) → time_t (x - y) = x - y.
Proof.
  unfold time_t. destruct ulong_bits_ok as [-> | ->]; [|done]. intros Hx Hy.
  change (32 =? 32) with true. cbv iota. unfold s32. simpl in Hx, Hy. rewrite Z.mod_small by lia. lia.
Qed.

Lemma nsec_ulong `{Platform} x : 0 <= x < 10 ^ 9 → 0 <= x < 2 ^ (ulong_bits - 1).
Proof. destruct ulong_bits_ok as [-> | ->]; simpl; lia. Qed.

Lemma peer_cmp_newer `{Platform} p q : time_ok p → time_ok q → peer_cmp p q <= 0 ↔ newer p q.
Proof.
  intros [Hs1 Hn1] [Hs2 Hn2]. unfold peer_cmp, no_handshake, truthy, newer.
  rewrite !time_t_diff by eauto using nsec_ulong.
  destruct (Z.eqb_spec (tv_sec p) 0), (Z.eqb_spec (tv_nsec p) 0),
    (Z.eqb_spec (tv_sec q) 0), (Z.eqb_spec (tv_nsec q) 0); cbn; try lia.
  all: destruct (Z.eqb_spec (tv_sec p - tv_sec q) 0); repeat case_match; lia.
Qed.

(** Given memory, [sort_peers] lists the same peers, the one with the most
    recent handshake first and those without a handshake last, on 32-bit and
    64-bit [time_t] alike. *)
Theorem sort_peers_newest_first (plat : Platform) (srt : Qsort) (srtl : QsortLaws srt) (d : wgdevice)
    (Hd : Forall time_ok (peers d)) :
  ∃ d', run (sort_peers d) = Done d' ∧ peers d' ≡ₚ peers d ∧ StronglySorted newer (peers d').
Proof.
  unfold sort_peers, run. destruct (peers d) as [|p ps] eqn:E.
  { exists d. rewrite E. split_and!; [done|done|constructor]. }
  set (l := p :: ps) in *. eexists. split; [done|]. cbn [peers set_last_peer set_peers device_with].
  split; [apply qsort_perm|].
  assert (Hs : StronglySorted (λ x y, peer_cmp x y <= 0) (qsort peer_cmp l)).
  { apply (qsort_sorted time_ok); [done|..].
    - intros x y Hx Hy. rewrite !peer_cmp_newer by done. unfold newer. lia.
    - intros x y z Hx Hy Hz. rewrite !peer_cmp_newer by done. unfold newer. lia. }
  assert (Hok : Forall time_ok (qsort peer_cmp l)) by by rewrite qsort_perm.
  clear -Hs Hok. induction Hs as [|x k Hs IH Hx]; [constructor|].
  apply Forall_cons in Hok as [Hox Hok]. constructor; [by apply IH|].
  rewrite Forall_forall in *. intros y Hy. apply peer_cmp_newer; auto.
Qed.

Lemma sort_peers_newest_first_witness :
  ∃ d', run (sort_peers (plat := armv7) (set_peers [set_tv_sec 5 wgpeer_zero; set_tv_sec 1700000000 wgpeer_zero] wgdevice_zero)) = Done d' ∧
    map tv_sec (peers d') = [1700000000; 5].
Proof.
  destruct (sort_peers_newest_first armv7 insertion_qsort insertion_qsort_laws
    (set_peers [set_tv_sec 5 wgpeer_zero; set_tv_sec 1700000000 wgpeer_zero] wgdevice_zero)) as (d' & Hr & _ & Hs).
  { repeat constructor; simpl; lia. }
  exists d'. split; [exact Hr|]. vm_compute in Hr. by injection Hr as <-.
Defined.

(** ** A device that is missing *)

Section Null.
Context (plat : Platform) (net : NetLib) (ipc : Ipc) (srt : Qsort).

(** [show_main] takes only a negative result of [ipc_get_device] for a
    failure; a positive one that comes without a device is followed by a read
    through the NULL pointer. *)
Theorem show_main_positive_error (now : Z) (gai cmd ifname : bytes) (r : Z) (o : allocs)
    (Hget : ipc_get_device ifname = (r, None)) (Hr : 0 < r)
    (Hname : ifname ∉ [str "all"; str "interfaces"; str "-h"; str "--help"; str "help"]) :
  show_main now gai [cmd; ifname] o = Undefined.
Proof.
  unfold show_main. cbn [head].
  assert (Hne : ∀ s, s ∈ [str "all"; str "interfaces"; str "-h"; str "--help"; str "help"] →
    strcmp_eq ifname s = false).
  { intros s Hs. apply bool_decide_eq_false. intros ->. done. }
  rewrite !Hne by set_solver. cbn [orb]. rewrite Hget. by rewrite (proj2 (Z.ltb_ge r 0)) by lia.
Qed.
End Null.

Lemma show_main_positive_error_witness :
  show_main (plat := arm64) (net := net0) (srt := insertion_qsort)
    (ipc := {| ipc_get_device := λ _, (101, None); ipc_set_device := λ _, 0; ipc_list_devices := Some [0] |})
    0 [] [str "show"; str "wg0"] [] = Undefined.
Proof.
  apply (show_main_positive_error arm64 net0
    {| ipc_get_device := λ _, (101, None); ipc_set_device := λ _, 0; ipc_list_devices := Some [0] |}
    insertion_qsort 0 [] (str "show") (str "wg0") 101 []); [reflexivity|lia|].
  apply (bool_decide_unpack _). vm_compute. exact I.
Defined.

(** ** The dump *)

Section Dump.
Context {plat : Platform} {net : NetLib} {laws : NetLibLaws net}.
Variable gai_strerror : bytes.

(** The fields of a line of the dump. *)
Definition tab_line (fields : list bytes) : bytes :=
  match fields with
  | [] => []
  | f :: fs => f ++ flat_map (λ f, 9 :: f) fs
  end.
Definition prefix_field (d : wgdevice) (with_interface : bool) : list bytes := if with_interface then [name d] else [].

Definition device_fields (d : wgdevice) (with_interface : bool) : list bytes :=
  prefix_field d with_interface
  ++ [maybe_key (private_key d) (has_flag (flags d) WGDEVICE_HAS_PRIVATE_KEY);
      maybe_key (public_key d) (has_flag (flags d) WGDEVICE_HAS_PUBLIC_KEY);
      printf_u (listen_port d); fwmark_field (fwmark d)].

Definition ips_field (l : list wgallowedip) : bytes :=
  match l with
  | [] => str "(none)"
  | a :: l => entry_text a ++ flat_map (λ a, str "," ++ entry_text a) l
  end.

Definition peer_fields (d : wgdevice) (with_interface : bool) (p : wgpeer) : list bytes :=
  prefix_field d with_interface
  ++ [key (p_public_key p); maybe_key (preshared_key p) (has_flag (p_flags p) WGPEER_HAS_PRESHARED_KEY);
      if has_endpoint p then endpoint_field gai_strerror (endpoint p) else str "(none)";
      ips_field (allowedips p); printf_u (u64 (tv_sec p)); printf_u (rx_bytes p); printf_u (tx_bytes p);
      keepalive_field (persistent_keepalive_interval p)].

(** Right-nested appends. *)
Ltac app_norm := repeat (progress (cbn [app]; rewrite <- ?app_assoc)).

Lemma prefix_tab d w f fs : prefix d w ++ tab_line (f :: fs) = tab_line (prefix_field d w ++ f :: fs).
Proof. destruct w; simpl; [|done]. by rewrite <- app_assoc. Qed.

Lemma ip_entries_concat l :
  l ≠ [] → concat (ip_entries (str "/") (str ",") tab l) = ips_field l ++ tab.
Proof.
  induction l as [|a [|b l] IH]; intros Hne; [done|..].
  - cbn [ip_entries concat ips_field flat_map]. unfold entry_text, ip_field. by rewrite !app_nil_r, <- !app_assoc.
  - change (concat (ip_entries (str "/") (str ",") tab (a :: b :: l))) with
      ((ip_field a ++ str "/" ++ printf_u (cidr a) ++ str ",") ++ concat (ip_entries (str "/") (str ",") tab (b :: l))).
    rewrite IH by done. cbn [ips_field flat_map]. unfold entry_text, ip_field. by rewrite <- !app_assoc.
Qed.

Lemma dump_peer_line d w p : dump_peer gai_strerror d w p = tab_line (peer_fields d w p) ++ newline.
Proof.
  unfold dump_peer, peer_fields. rewrite <- prefix_tab. cbn [tab_line flat_map]. app_norm.
  destruct (allowedips p) as [|a l] eqn:E; [by app_norm|].
  rewrite ip_entries_concat by done. by app_norm.
Qed.

Lemma dump_print_lines d w :
  dump_print gai_strerror d w =
  unlines (tab_line <$> (device_fields d w :: (peer_fields d w <$> peers d))).
Proof.
  unfold dump_print, device_fields. rewrite fmap_cons. unfold unlines. cbn [flat_map].
  rewrite <- prefix_tab. cbn [tab_line flat_map]. app_norm. unfold tab, newline. cbn [app]. do 9 f_equal.
  induction (peers d) as [|p ps IH]; [done|]. csimpl. by rewrite dump_peer_line, IH.
Qed.
Lemma plain_keys k b : all_bytes k = true → Forall plain_char (maybe_key k b).
Proof.
  intros Hk. destruct b; [|by apply plain_by_eval]. change (key k) with (print_key k). unfold maybe_key.
  change (key k) with (print_key k). rewrite print_key_eq by done. by apply plain_key.
Qed.

Lemma device_fields_plain d w :
  device_ok d → Forall plain_char (name d) → Forall (Forall plain_char) (device_fields d w).
Proof.
  intros (Hpub & Hpriv & Hfw & Hlp & _) Hn. apply key_ok_spec in Hpub as [_ Hpub].
  apply key_ok_spec in Hpriv as [_ Hpriv]. unfold device_fields. apply Forall_app. split.
  { destruct w; [by apply Forall_singleton|done]. }
  repeat (apply Forall_cons; split); [by apply plain_keys|by apply plain_keys|apply plain_u; lia| |done].
  unfold fwmark_field. case_match; [|by apply plain_by_eval]. apply Forall_app.
  split; [by apply plain_by_eval|apply plain_x; lia].
Qed.

Lemma ips_field_plain l : Forall canonical_ip l → Forall plain_char (ips_field l).
Proof.
  intros Hl. destruct Hl as [|a l Ha Hl]; [by apply plain_by_eval|]. cbn [ips_field]. apply Forall_app.
  split; [by apply (entry_text_ok a Ha)|]. induction Hl as [|b l Hb _ IH]; [done|]. cbn [flat_map].
  rewrite !Forall_app. split_and!; [by apply plain_by_eval|by apply (entry_text_ok b Hb)|done].
Qed.

Lemma peer_fields_plain d w p :
  canonical_peer p → Forall plain_char (name d) → 0 <= rx_bytes p → 0 <= tx_bytes p →
  Forall (Forall plain_char) (peer_fields d w p).
Proof.
  intros ((Hpub & Hpsk & _ & Hka & _) & Hcan & Hplain) Hn Hrx Htx. apply key_ok_spec in Hpub as [_ Hpub].
  apply key_ok_spec in Hpsk as [_ Hpsk]. unfold peer_fields. apply Forall_app. split.
  { destruct w; [by apply Forall_singleton|done]. }
  repeat (apply Forall_cons; split); [by apply (plain_keys _ true)|by apply plain_keys| |
    by apply ips_field_plain|apply plain_u; pose proof (u64_range (tv_sec p)); lia|by apply plain_u|by apply plain_u| |done].
  - destruct (has_endpoint p) eqn:E; [|by apply plain_by_eval]. unfold endpoint_field.
    destruct (gni_gai _ (Hplain eq_refl)) as (host & -> & Hh & _). apply endpoint_text_plain; [done|].
    destruct (Hplain eq_refl) as (_ & _ & ? & _). lia.
  - unfold keepalive_field. case_match; [apply plain_u; lia|by apply plain_by_eval].
Qed.

Lemma plain_not c f : isspace c = true → Forall plain_char f → c ∉ f.
Proof. intros Hc Hf Hin. rewrite Forall_forall in Hf. apply Hf in Hin as (_ & ? & _). congruence. Qed.

Lemma tab_line_split fs :
  fs ≠ [] → Forall (Forall plain_char) fs → strsep_all (tab_line fs) 9 = fs ∧ 10 ∉ tab_line fs.
Proof.
  intros Hne Hfs. destruct fs as [|f fs]; [done|]. split.
  - apply strsep_all_tokens. eapply Forall_impl; [exact Hfs|]. intros g Hg. by apply plain_not.
  - cbn [tab_line]. apply Forall_cons in Hfs as [Hf Hfs]. rewrite not_elem_of_app. split; [by apply plain_not|].
    induction Hfs as [|g fs Hg _ IH]; [by apply not_elem_of_nil|]. cbn [flat_map].
    rewrite not_elem_of_app, not_elem_of_cons. split_and!; [done|by apply plain_not|by apply IH].
Qed.
End Dump.

(** [wg show dump] is machine readable: for a well-formed device whose name
    has no white space, the output is one line for the interface and one for each
    peer, and splitting a line at its tabs gives exactly its fields, four for the
    interface and eight for a peer, with the interface name in front when every
    interface is listed. *)
Theorem dump_print_fields (plat : Platform) (net : NetLib) (laws : NetLibLaws net)
    (gai : bytes) (d : wgdevice) (with_interface : bool)
    (Hd : canonical_device d) (Hname : Forall plain_char (name d))
    (Hcount : Forall (λ p, 0 <= rx_bytes p ∧ 0 <= tx_bytes p) (peers d)) :
  ∃ ls, getlines (dump_print gai d with_interface) = (λ l, l ++ newline) <$> ls ∧
    (λ l, strsep_all l 9) <$> ls = device_fields d with_interface :: (peer_fields gai d with_interface <$> peers d).
Proof.
  destruct Hd as [Hdok Hps].
  assert (Hall : Forall (λ fs, fs ≠ [] ∧ Forall (Forall plain_char) fs)
    (device_fields d with_interface :: (peer_fields gai d with_interface <$> peers d))).
  { constructor; [split; [by destruct with_interface|by apply device_fields_plain]|]. apply Forall_fmap.
    rewrite Forall_forall in *. intros p Hp. destruct (Hcount p Hp).
    split; [by destruct with_interface|]. apply peer_fields_plain; auto. }
  exists (tab_line <$> (device_fields d with_interface :: (peer_fields gai d with_interface <$> peers d))).
  rewrite dump_print_lines. split.
  - apply getlines_lines, Forall_fmap. eapply Forall_impl; [exact Hall|]. intros fs [? ?]. by apply tab_line_split.
  - rewrite <- list_fmap_compose. rewrite <- (list_fmap_id (_ :: _)) at 2. apply list_fmap_ext.
    intros i fs Hi. eapply Forall_lookup_1 in Hall as [? ?]; [|exact Hi]. by apply tab_line_split.
Qed.

Lemma dump_print_fields_witness :
  ∃ ls, getlines (dump_print (net := net0) [] sample_device true) = (λ l, l ++ newline) <$> ls ∧
    length <$> ((λ l, strsep_all l 9) <$> ls) = [5; 9]%nat.
Proof.
  destruct (dump_print_fields arm64 net0 net0_laws [] sample_device true) as (ls & H1 & H2).
  - apply sample_canonical.
  - by apply plain_by_eval.
  - repeat constructor; simpl; lia.
  - exists ls. split; [exact H1|]. by rewrite H2.
Defined.
