(* ===== verification/Field25519.v ===== *)
(** * Field25519: the X25519 function of RFC 7748, as the reference for curve25519.c

    Arithmetic modulo the prime [P25519] as a congruence on [Z], a setoid with
    [Proper] instances, so that limb representations can be rewritten to the
    values they stand for; little-endian bytes; the scalar clamping of
    curve25519.h; and the Montgomery ladder of RFC 7748, section 5. *)

From Stdlib Require Import Ascii String Zdiv Zpow_facts.
From stdpp Require Import base numbers option sets list list_numbers strings.
From S2P Require Import Prelude.
#[local] Open Scope c_scope.

Definition P25519 : Z := 2 ^ 255 - 19.
Definition CURVE25519_KEY_SIZE : nat := 32.

(** ** Congruence modulo the prime *)

Definition eqp (x y : Z) : Prop := (P25519 | x - y).
Infix "≡p" := eqp (at level 70) : c_scope.

Lemma eqp_iff x y : x ≡p y ↔ x mod P25519 = y mod P25519.
Proof.
  unfold eqp. split.
  - intros [k Hk]. replace x with (y + k * P25519) by lia. apply Z_mod_plus_full.
  - intros H. apply Z.mod_divide; [done|]. by rewrite Zminus_mod, H, Z.sub_diag.
Qed.

Lemma eqp_multiple x y k : x = y + k * P25519 → x ≡p y.
Proof. intros ->. exists k. lia. Qed.

Lemma eqp_inv x y : x ≡p y → ∃ k, x = y + k * P25519.
Proof. intros [k Hk]. exists k. lia. Qed.

#[export] Instance eqp_equivalence : Equivalence eqp.
Proof.
  split; repeat intro; rewrite ?eqp_iff in *; congruence.
Qed.
#[export] Instance eqp_add : Proper (eqp ==> eqp ==> eqp) Z.add.
Proof. intros x x' [k Hk]%eqp_inv y y' [m Hm]%eqp_inv. apply (eqp_multiple _ _ (k + m)). lia. Qed.
#[export] Instance eqp_sub : Proper (eqp ==> eqp ==> eqp) Z.sub.
Proof. intros x x' [k Hk]%eqp_inv y y' [m Hm]%eqp_inv. apply (eqp_multiple _ _ (k - m)). lia. Qed.
#[export] Instance eqp_mul : Proper (eqp ==> eqp ==> eqp) Z.mul.
Proof.
  intros x x' [k ->]%eqp_inv y y' [m ->]%eqp_inv.
  apply (eqp_multiple _ _ (x' * m + k * y' + k * m * P25519)). ring.
Qed.

Lemma eqp_mod x : x mod P25519 ≡p x.
Proof. apply eqp_iff, Zmod_mod. Qed.

#[export] Instance eqp_pow : Proper (eqp ==> eq ==> eqp) Z.pow.
Proof.
  intros x y Hxy n _ <-. destruct (Z.le_gt_cases 0 n) as [Hn|Hn].
  - revert n Hn. apply natlike_ind; [done|]. intros n Hn IH.
    rewrite !Z.pow_succ_r by done. by rewrite IH, Hxy.
  - by rewrite !Z.pow_neg_r.
Qed.

(** ** Little-endian bytes *)

Fixpoint le_value (l : bytes) : Z :=
  match l with
  | [] => 0
  | b :: l' => b + 256 * le_value l'
  end.
Fixpoint le_bytes (n : nat) (v : Z) : bytes :=
  match n with
  | O => []
  | S n' => v mod 256 :: le_bytes n' (v / 256)
  end.

Lemma le_bytes_length n v : length (le_bytes n v) = n.
Proof. revert v. induction n; intros; simpl; auto. Qed.

Lemma le_bytes_app n m v : le_bytes (n + m) v = le_bytes n v ++ le_bytes m (v / 256 ^ Z.of_nat n).
Proof.
  revert v. induction n as [|n IH]; intros v; [by rewrite Z.div_1_r|].
  cbn [Nat.add le_bytes app]. f_equal. rewrite IH, Nat2Z.inj_succ, Z.pow_succ_r, Z.div_div by lia. done.
Qed.

Lemma le_bytes_mod n v k : 0 < k → le_bytes n (v mod (256 ^ Z.of_nat n * k)) = le_bytes n v.
Proof.
  revert v. induction n as [|n IH]; intros v Hk; [done|]. cbn [le_bytes].
  rewrite Nat2Z.inj_succ, Z.pow_succ_r, <- Z.mul_assoc by lia.
  assert (Hp : 0 < 256 ^ Z.of_nat n * k) by (apply Z.mul_pos_pos; [apply Z.pow_pos_nonneg; lia|done]).
  f_equal.
  - rewrite Z.rem_mul_r by lia. rewrite Z.add_mod, Z.mul_comm, Z.mod_mul, Z.add_0_r by lia.
    by rewrite !Zmod_mod.
  - rewrite <- (IH (v / 256)) by done. f_equal. rewrite Z.rem_mul_r by lia.
    rewrite Z.mul_comm, Z.div_add by lia. rewrite Z.div_small; [lia|]. apply Z.mod_pos_bound. lia.
Qed.

Lemma le_value_range l : all_bytes l = true → 0 <= le_value l < 256 ^ Z.of_nat (length l).
Proof.
  induction l as [|b l IH]; [simpl; lia|]. rewrite all_bytes_cons, andb_true_iff, is_byte_spec.
  intros [Hb Hl]. specialize (IH Hl). cbn [length le_value]. rewrite Nat2Z.inj_succ, Z.pow_succ_r by lia. lia.
Qed.

Lemma le_value_app l k : le_value (l ++ k) = le_value l + 256 ^ Z.of_nat (length l) * le_value k.
Proof.
  induction l as [|b l IH]; [simpl; lia|]. cbn [app le_value length]. rewrite IH, Nat2Z.inj_succ, Z.pow_succ_r by lia. lia.
Qed.

(** ** The scalar *)

(** [curve25519_clamp_secret(secret)] *)
Definition curve25519_clamp_secret (secret : bytes) : bytes :=
  let secret := <[0%nat := at_ secret 0 .& 248]> secret in
  <[31%nat := (at_ secret 31 .& 127) .| 64]> secret.

(** ** The ladder of RFC 7748 *)

(** The two points [x_2 : z_2] and [x_3 : z_3]. *)
Record ladder_state := { x_2 : Z; z_2 : Z; x_3 : Z; z_3 : Z }.

Definition cswap (swap : bool) (s : ladder_state) : ladder_state :=
  if swap then {| x_2 := x_3 s; z_2 := z_3 s; x_3 := x_2 s; z_3 := z_2 s |} else s.

Definition a24 : Z := 121665.

(** One differential addition and doubling. *)
Definition ladder_step (x_1 : Z) (s : ladder_state) : ladder_state :=
  let A := x_2 s + z_2 s in
  let AA := A * A in
  let B := x_2 s - z_2 s in
  let BB := B * B in
  let E := AA - BB in
  let C := x_3 s + z_3 s in
  let D := x_3 s - z_3 s in
  let DA := D * A in
  let CB := C * B in
  {| x_2 := AA * BB mod P25519;
     z_2 := E * (AA + a24 * E) mod P25519;
     x_3 := (DA + CB) * (DA + CB) mod P25519;
     z_3 := x_1 * ((DA - CB) * (DA - CB)) mod P25519 |}.

(** The step for a bit of the scalar: swap, step, swap back. *)
Definition ladder_bit (x_1 : Z) (bit : bool) (s : ladder_state) : ladder_state :=
  cswap bit (ladder_step x_1 (cswap bit s)).

(** Bits [n - 1] down to 0, each with its own two swaps. *)
Fixpoint ladder (x_1 k : Z) (n : nat) (s : ladder_state) : ladder_state :=
  match n with
  | O => s
  | S n' => ladder x_1 k n' (ladder_bit x_1 (Z.testbit k (Z.of_nat n')) s)
  end.

(** The loop of the RFC swaps lazily: it carries the last bit and swaps by the
    difference of two bits. *)
Fixpoint rfc_loop (x_1 k : Z) (n : nat) (swap : bool) (s : ladder_state) : ladder_state :=
  match n with
  | O => cswap swap s
  | S t =>
      let k_t := Z.testbit k (Z.of_nat t) in
      rfc_loop x_1 k t k_t (ladder_step x_1 (cswap (xorb swap k_t) s))
  end.

Definition ladder_start (x_1 : Z) : ladder_state := {| x_2 := 1; z_2 := 0; x_3 := x_1; z_3 := 1 |}.
Definition ladder_result (s : ladder_state) : Z := x_2 s * Zpow_mod (z_2 s) (P25519 - 2) P25519 mod P25519.

(** The function on numbers, and on the 32-byte strings of the interface; the top
    bit of the coordinate is ignored. *)
Definition x25519_value (k u : Z) : Z :=
  let x_1 := u mod 2 ^ 255 in
  ladder_result (rfc_loop x_1 k 255 false (ladder_start x_1)).

Definition x25519 (secret basepoint : bytes) : bytes :=
  le_bytes 32 (x25519_value (le_value (curve25519_clamp_secret secret)) (le_value basepoint)).
