(* ===== verification/Prime25519.v ===== *)
(** * Prime25519: the modulus of the field is a prime

    Pocklington's criterion, from Fermat's little theorem of the Standard
    Library, with an executable check of its certificates; a chain of
    certificates down to primes small enough for trial division; and what
    primality gives to the field of curve25519.c. *)

From Stdlib Require Import Zdivisibility Znumtheory Zpow_facts Zmod.
From stdpp Require Import base numbers option sets list list_numbers.
From S2P Require Import Prelude Field25519.
#[local] Open Scope c_scope.

(** ** Prime divisors *)

Lemma prime_divisor n : 1 < n → ∃ p, Z.prime p ∧ (p | n).
Proof.
  intros Hn. assert (H0 : 0 <= n) by lia. revert Hn. pattern n. revert n H0. apply Zlt_0_ind. intros n IH _ Hn.
  destruct (Znumtheory.prime_dec n) as [Hp|Hp].
  { exists n. split; [by apply prime_alt|apply Z.divide_refl]. }
  destruct (not_prime_divide n Hn Hp) as (d & Hd & Hdn).
  destruct (IH d) as (p & ? & ?); [lia..|]. exists p. split; [done|]. by apply Z.divide_trans with d.
Qed.

(** A number below the square of each of its prime divisors is prime. *)
Lemma prime_by_divisors n : 1 < n → (∀ p, Z.prime p → (p | n) → n < p * p) → Z.prime n.
Proof.
  intros Hn H. split; [done|]. intros d Hd [e He].
  assert (Hsmall : ∀ x y, 1 < x → n = y * x → x <= y → False).
  { intros x y Hx Hxy Hle. destruct (prime_divisor x Hx) as (p & Hp & Hpx).
    assert (p <= x) by (apply Z.divide_pos_le; [lia|done]). pose proof (Z.prime_ge_2 p Hp).
    assert (n < p * p) by (apply H; [done|]; apply Z.divide_trans with x; [done|by exists y]). nia. }
  destruct (Z.le_ge_cases d e); [eapply (Hsmall d e)|eapply (Hsmall e d)]; nia.
Qed.

(** ** Trial division *)

Definition trial (n k : Z) : bool :=
  (1 <? n) && (n <? (k + 2) * (k + 2)) && forallb (λ d, negb (n mod d =? 0)) (seqZ 2 k).

Lemma trial_prime n k : 0 <= k → trial n k = true → Z.prime n.
Proof.
  unfold trial. rewrite !andb_true_iff. intros Hk [[Hn Hsq] Hd]. apply prime_by_divisors; [lia|].
  intros p Hp Hpn. pose proof (Z.prime_ge_2 p Hp). destruct (Z.le_gt_cases (k + 2) p); [nia|].
  pose proof (Z_range_check _ 2 k Hd p ltac:(lia)) as Hm. simpl in Hm.
  rewrite (proj2 (Z.mod_divide n p ltac:(lia)) Hpn) in Hm. done.
Qed.

(** ** Pocklington's criterion *)

Lemma pow_mod_1 b k m : 1 < m → 0 <= k → b mod m = 1 → b ^ k mod m = 1.
Proof. intros Hm Hk Hb. rewrite Zpower_mod, Hb, Z.pow_1_l by lia. by apply Z.mod_1_l. Qed.

(** Nonnegative Bezout coefficients. *)
Lemma bezout_pos q m : 0 < q → 0 < m → Z.coprime q m → ∃ i j, 0 <= i ∧ 0 <= j ∧ i * q = 1 + j * m.
Proof.
  intros Hq Hm [u [v Huv]]%Z.Bezout_coprime_iff.
  exists (u + (Z.abs u + Z.abs v) * m), (- v + (Z.abs u + Z.abs v) * q). split_and!; nia.
Qed.

Lemma mod_of_divisor a n p r : (p | n) → 0 < p → 0 < n → 0 <= r < p → a mod n = r → a mod p = r.
Proof.
  intros [k ->] Hp Hn Hr Ha. rewrite (Z.div_mod a (k * p)) by lia. rewrite Ha.
  symmetry. apply (Z.mod_unique_pos _ _ (k * (a / (k * p)))); lia.
Qed.

Lemma pocklington_divides n a q p :
  1 < n → Z.prime q → (q | n - 1) → a ^ (n - 1) mod n = 1 → Z.gcd (a ^ ((n - 1) / q) - 1) n = 1 →
  Z.prime p → (p | n) → (q | p - 1).
Proof.
  intros Hn Hq [k Hk] Ha Hg Hp Hpn. pose proof (Z.prime_ge_2 _ Hq). pose proof (Z.prime_ge_2 _ Hp).
  destruct (Z.BoolSpec_divide q (p - 1)) as [|Hnd]; [done|]. exfalso.
  destruct (bezout_pos q (p - 1)) as (i & j & Hi & Hj & Hij); [lia..|by apply Z.coprime_prime_l|].
  assert (Hkq : (n - 1) / q = k) by (rewrite Hk; apply Z.div_mul; lia). rewrite Hkq in Hg. set (b := a ^ k) in *.
  assert (Hk0 : 0 < k) by nia.
  assert (Hap : a ^ (n - 1) mod p = 1) by (apply (mod_of_divisor _ n); auto; lia).
  assert (Hbq : b ^ q mod p = 1) by (unfold b; rewrite <- Z.pow_mul_r, <- Hk by lia; done).
  assert (Hb0 : b mod p ≠ 0).
  { intros Hb0. rewrite Zpower_mod, Hb0, Z.pow_0_l, Z.mod_0_l in Hbq by lia. done. }
  pose proof (Z.fermat_nz p b Hp Hb0) as Hf.
  assert (Hb1 : b mod p = 1).
  { transitivity (b ^ (i * q) mod p); [|rewrite Z.mul_comm, Z.pow_mul_r by lia; apply pow_mod_1; [lia|lia|done]].
    rewrite Hij, Z.pow_add_r, Z.pow_1_r, Z.mul_comm, (Z.mul_comm j), Z.pow_mul_r by nia.
    rewrite <- Z.mul_mod_idemp_l, pow_mod_1, Z.mul_1_l by (done || lia). done. }
  assert (Hd : (p | Z.gcd (b - 1) n)).
  { apply Z.gcd_greatest; [|done]. apply Z.mod_divide; [lia|]. rewrite Zminus_mod, Hb1, (Z.mod_1_l p) by lia. done. }
  rewrite Hg in Hd. apply Z.divide_pos_le in Hd; lia.
Qed.

(** The certificate: a base, and prime divisors of [n - 1] with a product beyond
    the square root of [n]. *)
Definition product (qs : list Z) : Z := foldr Z.mul 1 qs.
Definition certificate (n a : Z) (qs : list Z) : bool :=
  (1 <? n) && (n <? product qs * product qs) && (Zpow_mod a (n - 1) n =? 1) && bool_decide (NoDup qs) &&
  forallb (λ q, ((n - 1) mod q =? 0) && (Z.gcd (Zpow_mod a ((n - 1) / q) n - 1) n =? 1)) qs.

Lemma product_divides qs m : Forall Z.prime qs → NoDup qs → Forall (λ q, (q | m)) qs → (product qs | m).
Proof.
  induction qs as [|q qs IH]; intros Hp Hn Hd; [apply Z.divide_1_l|].
  apply Forall_cons in Hp as [Hq Hp]. apply NoDup_cons in Hn as [Hin Hn]. apply Forall_cons in Hd as [Hdq Hd].
  destruct (IH Hp Hn Hd) as [k ->]. simpl.
  assert (Hc : Z.coprime q (product qs)).
  { clear -Hq Hp Hin. induction qs as [|r qs IH]; [apply Z.coprime_1_r|]. apply Forall_cons in Hp as [Hr Hp].
    apply not_elem_of_cons in Hin as [Hne Hin]. apply Z.coprime_mul_r; [|by apply IH].
    apply Z.coprime_prime_l; [done|]. by intros ?%Z.divide_prime_prime. }
  assert (Hqk : (q | k)) by (apply (Z.gauss q (product qs)); [by rewrite Z.mul_comm|done]).
  destruct Hqk as [j ->]. exists j. lia.
Qed.

Lemma certificate_prime n a qs : Forall Z.prime qs → certificate n a qs = true → Z.prime n.
Proof.
  unfold certificate. rewrite !andb_true_iff, bool_decide_eq_true, forallb_Forall_true.
  intros Hp [[[[Hn Hsq] Ha] Hnd] Hq]. apply Z.ltb_lt in Hn, Hsq. apply Z.eqb_eq in Ha.
  rewrite Zpow_mod_correct in Ha by lia. apply prime_by_divisors; [done|]. intros p Hpp Hpn.
  assert (Hd : (product qs | p - 1)).
  { apply product_divides; [done..|]. apply Forall_forall. intros q Hin.
    pose proof (proj1 (Forall_forall _ _) Hp q Hin) as Hqp. pose proof (Z.prime_ge_2 q Hqp).
    pose proof (proj1 (Forall_forall _ _) Hq q Hin) as Hc. simpl in Hc. rewrite andb_true_iff, !Z.eqb_eq in Hc.
    destruct Hc as [Hdiv Hg]. apply Z.mod_divide in Hdiv; [|lia]. rewrite Zpow_mod_correct in Hg by lia.
    apply (pocklington_divides n a q p); try done.
    by rewrite <- Z.gcd_mod_l, <- Zminus_mod_idemp_l, Z.gcd_mod_l. }
  pose proof (Z.prime_ge_2 p Hpp). assert (product qs <= p - 1) by (apply Z.divide_pos_le; [lia|done]).
  assert (0 <= product qs); [|nia]. clear -Hp. induction Hp as [|q l Hq _ IH]; simpl; [lia|].
  pose proof (Z.prime_ge_2 q Hq). nia.
Qed.

(** ** The chain of certificates *)

Ltac certify qs := apply (certificate_prime _ 2 qs); [repeat apply Forall_cons_2; assumption || apply Forall_nil_2|vm_compute; reflexivity].

Lemma prime_P25519 : Z.prime P25519.
Proof.
  assert (Z.prime 991) by (apply (trial_prime _ 30); [done|reflexivity]).
  assert (Z.prime 103) by (apply (trial_prime _ 9); [done|reflexivity]).
  assert (Z.prime 127) by (apply (trial_prime _ 10); [done|reflexivity]).
  assert (Z.prime 569003) by (apply (trial_prime _ 760); [done|vm_compute; reflexivity]).
  assert (Z.prime 430751) by (apply (trial_prime _ 660); [done|vm_compute; reflexivity]).
  assert (Z.prime 4153) by (apply (trial_prime _ 64); [done|reflexivity]).
  assert (Z.prime 8574133) by certify [991; 103].
  assert (Z.prime 1919519569386763) by certify [8574133; 127].
  assert (Z.prime 2773320623) by certify [569003].
  assert (Z.prime 72106336199) by certify [2773320623].
  assert (Z.prime 75445702479781427272750846543864801) by certify [1919519569386763; 72106336199].
  assert (Z.prime 31757755568855353) by certify [430751; 4153].
  assert (Z.prime 74058212732561358302231226437062788676166966415465897661863160754340907)
    by certify [75445702479781427272750846543864801; 31757755568855353].
  certify [74058212732561358302231226437062788676166966415465897661863160754340907].
Qed.

(** ** Units of the field *)

Definition unit_p (x : Z) : Prop := ~ x ≡p 0.

Lemma eqp_0 x : x ≡p 0 ↔ (P25519 | x).
Proof. unfold eqp. by rewrite Z.sub_0_r. Qed.

Lemma unit_mul x y : unit_p x → unit_p y → unit_p (x * y).
Proof.
  unfold unit_p. rewrite !eqp_0. intros Hx Hy [?|?]%Z.divide_prime_mul; [done..|]. apply prime_P25519.
Qed.

Lemma unit_fermat x : unit_p x → x ^ (P25519 - 1) ≡p 1.
Proof.
  unfold unit_p. intros Hx. apply eqp_iff. rewrite (Z.fermat_nz P25519 x prime_P25519); [done|].
  intros H. apply Hx, eqp_iff. by rewrite H.
Qed.
