(* ===== verification/X25519.v ===== *)
(** * X25519: facts of the reference ladder that both implementations use

    The clamped scalar has 255 bits, and a ladder over 256 bits ends in the same
    projective point as the one over 255: its first step scales the second
    point, and a scaled point has the same affine coordinate because the
    modulus is prime. *)

From Stdlib Require Import Ascii String Zdiv Zpow_facts.
From stdpp Require Import base numbers option sets list list_numbers strings.
From S2P Require Import Prelude Field25519 Prime25519.
#[local] Open Scope c_scope.

(** ** Bytes *)

Lemma le_value_slice l off n :
  all_bytes l = true → (off + n <= length l)%nat →
  le_value (take n (drop off l)) = le_value l / 256 ^ Z.of_nat off mod 256 ^ Z.of_nat n.
Proof.
  intros Hb Hl. assert (Hsub : ∀ k, k ⊆ l → all_bytes k = true).
  { unfold all_bytes in *. rewrite forallb_forall in Hb. intros k Hk. apply forallb_forall. intros x Hx.
    apply Hb, list_elem_of_In, Hk, list_elem_of_In, Hx. }
  assert (Hp : ∀ k, 0 < 256 ^ Z.of_nat k) by (intros; apply Z.pow_pos_nonneg; lia).
  rewrite <- (take_drop off l) at 2. rewrite le_value_app, length_take, Nat.min_l by lia.
  rewrite Z.mul_comm, Z.div_add by (specialize (Hp off); lia).
  pose proof (le_value_range (take off l) ltac:(apply Hsub, subseteq_take)) as Hr1. rewrite length_take, Nat.min_l in Hr1 by lia.
  rewrite Z.div_small, Z.add_0_l by done. rewrite <- (take_drop n (drop off l)) at 2.
  rewrite le_value_app, length_take, length_drop, Nat.min_l by lia.
  rewrite Z.mul_comm, Z.mod_add by (specialize (Hp n); lia). symmetry. apply Z.mod_small.
  pose proof (le_value_range (take n (drop off l)) ltac:(apply Hsub; etrans; [apply subseteq_take|apply subseteq_drop])) as Hr2.
  by rewrite length_take, length_drop, Nat.min_l in Hr2 by lia.
Qed.

(** Bits [k] to [k + 50] of [x], read through a 64-bit word that starts at bit [k - s]. *)
Lemma le_bytes_cat n m a b :
  0 <= a < 256 ^ Z.of_nat n → le_bytes n a ++ le_bytes m b = le_bytes (n + m) (a + 256 ^ Z.of_nat n * b).
Proof.
  intros Ha. rewrite le_bytes_app. f_equal.
  - rewrite <- (le_bytes_mod n (a + _) 1) by lia. f_equal. rewrite Z.mul_1_r.
    apply (Z.mod_unique_pos _ _ b); lia.
  - f_equal. apply (Z.div_unique_pos _ _ _ a); lia.
Qed.

Lemma le_bytes_value l : all_bytes l = true → le_bytes (length l) (le_value l) = l.
Proof.
  induction l as [|b l IH]; intros Hl; [done|]. rewrite all_bytes_cons, andb_true_iff, is_byte_spec in Hl.
  destruct Hl as [Hb Hl]. cbn [length le_value le_bytes]. f_equal.
  - symmetry. apply (Z.mod_unique_pos _ _ (le_value l)); lia.
  - replace ((b + 256 * le_value l) / 256) with (le_value l) by (apply (Z.div_unique_pos _ _ _ b); lia). by apply IH.
Qed.

(** ** The clamped scalar *)

Lemma le_value_testbit l i m :
  all_bytes l = true → (i < length l)%nat → 0 <= m < 8 →
  Z.testbit (le_value l) (8 * Z.of_nat i + m) = Z.testbit (at_ l i) m.
Proof.
  revert i. induction l as [|b l IH]; intros i Hl Hi Hm; [simpl in Hi; lia|].
  rewrite all_bytes_cons, andb_true_iff, is_byte_spec in Hl. destruct Hl as [Hb Hl].
  change 256 with (2 ^ 8) in *. cbn [le_value]. destruct i as [|i].
  - change (at_ (b :: l) 0) with b. rewrite Z.mul_0_r, Z.add_0_l.
    rewrite <- (Z.mod_pow2_bits_low (b + 256 * le_value l) 8) by lia.
    rewrite (Z.mul_comm 256), Z.mod_add, Z.mod_small by lia. done.
  - change (at_ (b :: l) (S i)) with (at_ l i). rewrite <- (IH i Hl) by (simpl in Hi; lia).
    replace (8 * Z.of_nat (S i) + m) with ((8 * Z.of_nat i + m) + 8) by lia.
    rewrite <- Z.shiftr_spec by lia. f_equal. rewrite Z.shiftr_div_pow2 by lia.
    change (2 ^ 8) with 256. rewrite Z.mul_comm, Z.div_add, Z.div_small by lia. lia.
Qed.

Lemma clamp_length s : length (curve25519_clamp_secret s) = length s.
Proof. unfold curve25519_clamp_secret. by rewrite !length_insert. Qed.

Lemma clamp_bytes s : all_bytes s = true → all_bytes (curve25519_clamp_secret s) = true.
Proof.
  intros Hs. unfold curve25519_clamp_secret.
  assert (Hi : ∀ l i b, all_bytes l = true → is_byte b = true → all_bytes (<[i := b]> l) = true).
  { intros l i b. unfold all_bytes. rewrite !forallb_Forall_true. intros. by apply Forall_insert. }
  assert (H0 : ∀ x, 0 <= x < 256 → is_byte (x .& 248) = true) by (apply (Z_range_check _ 0 256); reflexivity).
  assert (H1 : ∀ x, 0 <= x < 256 → is_byte ((x .& 127) .| 64) = true) by (apply (Z_range_check _ 0 256); reflexivity).
  assert (Hs' : all_bytes (<[0%nat := at_ s 0 .& 248]> s) = true) by auto using all_bytes_at.
  auto using all_bytes_at.
Qed.

(** ** Lazy swaps *)

Lemma cswap_cswap a b s : cswap a (cswap b s) = cswap (xorb b a) s.
Proof. by destruct a, b, s. Qed.

Lemma rfc_loop_ladder x_1 k n swap s : rfc_loop x_1 k n swap s = ladder x_1 k n (cswap swap s).
Proof.
  revert swap s. induction n as [|n IH]; intros swap s; [done|].
  cbn [rfc_loop ladder]. rewrite IH. unfold ladder_bit. by rewrite cswap_cswap.
Qed.

(** ** Scaled points *)

Definition scaled (s t : ladder_state) : Prop :=
  ∃ m l, (unit_p m ∧ unit_p l) ∧
    x_2 t ≡p m * x_2 s ∧ z_2 t ≡p m * z_2 s ∧ x_3 t ≡p l * x_3 s ∧ z_3 t ≡p l * z_3 s.

Lemma eqp_eq x y : x = y → x ≡p y.
Proof. by intros ->. Qed.

Lemma scaled_cswap b s t : scaled s t → scaled (cswap b s) (cswap b t).
Proof. intros (m & l & [? ?] & ?). destruct b; [exists l, m|exists m, l]; naive_solver. Qed.

Lemma scaled_step x_1 s t : scaled s t → scaled (ladder_step x_1 s) (ladder_step x_1 t).
Proof.
  intros (m & l & [Hm Hl] & H1 & H2 & H3 & H4). exists (m * m * (m * m)), (l * m * (l * m)).
  split; [by auto using unit_mul|]. cbn [ladder_step x_2 z_2 x_3 z_3].
  rewrite !eqp_mod, H1, H2, H3, H4. split_and!; apply eqp_eq; ring.
Qed.

Lemma scaled_ladder x_1 k n s t : scaled s t → scaled (ladder x_1 k n s) (ladder x_1 k n t).
Proof.
  revert s t. induction n as [|n IH]; intros s t H; [done|].
  by apply IH, scaled_cswap, scaled_step, scaled_cswap.
Qed.

Lemma ladder_result_pow s : ladder_result s ≡p x_2 s * z_2 s ^ (P25519 - 2).
Proof. unfold ladder_result. by rewrite eqp_mod, Zpow_mod_correct, eqp_mod by done. Qed.

Lemma ladder_result_eq s t :
  x_2 s * z_2 s ^ (P25519 - 2) ≡p x_2 t * z_2 t ^ (P25519 - 2) → ladder_result s = ladder_result t.
Proof.
  rewrite <- !ladder_result_pow. intros H%eqp_iff. unfold ladder_result in *. by rewrite !Zmod_mod in H.
Qed.

Lemma scaled_result s t : scaled s t → ladder_result s = ladder_result t.
Proof.
  intros (m & l & [Hm _] & H1 & H2 & _). apply ladder_result_eq. rewrite H1, H2, Z.pow_mul_l.
  pose proof (unit_fermat m Hm) as Hf. replace (P25519 - 1) with (Z.succ (P25519 - 2)) in Hf by lia.
  rewrite Z.pow_succ_r in Hf by (unfold P25519; lia).
  transitivity (m * m ^ (P25519 - 2) * (x_2 s * z_2 s ^ (P25519 - 2))); [|apply eqp_eq; ring].
  rewrite Hf. apply eqp_eq. ring.
Qed.

(** At the coordinate 0 every point of the ladder has a zero coordinate. *)
Definition degenerate (s : ladder_state) : Prop := x_2 s * z_2 s ≡p 0 ∧ x_3 s * z_3 s ≡p 0.

Lemma degenerate_ladder x_1 k n s : x_1 ≡p 0 → degenerate s → degenerate (ladder x_1 k n s).
Proof.
  intros Hx. revert s. induction n as [|n IH]; intros s Hs; [done|]. apply IH.
  set (b := Z.testbit _ _). assert (Hc : ∀ c r, degenerate r → degenerate (cswap c r)) by (intros [] r []; done).
  apply Hc. specialize (Hc b s Hs). destruct (cswap b s) as [a d e f], Hc as [H _]. cbn [x_2 z_2] in H.
  split; cbn [ladder_step x_2 z_2 x_3 z_3]; rewrite !eqp_mod.
  - transitivity (4 * (a * d) * ((a + d) * (a + d) * ((a - d) * (a - d)) * ((a + d) * (a + d) + a24 * (4 * (a * d)))));
      [apply eqp_eq; ring|]. rewrite H. apply eqp_eq. ring.
  - rewrite Hx. apply eqp_eq. ring.
Qed.

Lemma degenerate_result s : degenerate s → ladder_result s = 0.
Proof.
  intros [H _]. pose proof (ladder_result_pow s) as Hr.
  replace (P25519 - 2) with (Z.succ (P25519 - 3)) in Hr by lia. rewrite Z.pow_succ_r, Z.mul_assoc, H in Hr by (unfold P25519; lia).
  apply eqp_iff in Hr. rewrite Z.mul_0_l, Z.mod_0_l in Hr by done. unfold ladder_result in *. by rewrite Zmod_mod in Hr.
Qed.

(** ** The 256-bit ladder *)

Lemma ladder_256 x_1 k :
  Z.testbit k 255 = false → ladder_result (ladder x_1 k 256 (ladder_start x_1)) = ladder_result (rfc_loop x_1 k 255 false (ladder_start x_1)).
Proof.
  intros Hk. rewrite rfc_loop_ladder. change (cswap false ?s) with s.
  change (ladder x_1 k 256 ?s) with (ladder x_1 k 255 (ladder_bit x_1 (Z.testbit k 255) s)). rewrite Hk.
  unfold ladder_bit. change (cswap false ?s) with s.
  destruct (Z.eq_dec (x_1 mod P25519) 0) as [Hx|Hx].
  - assert (Hx0 : x_1 ≡p 0) by (by apply eqp_iff).
    assert (Hd : degenerate (ladder_start x_1)) by (split; cbn; [done|by rewrite Hx0]).
    rewrite !degenerate_result; [done|by apply degenerate_ladder|]. apply degenerate_ladder; [done|].
    by apply (degenerate_ladder x_1 0 1).
  - symmetry. apply scaled_result, scaled_ladder. exists 1, (4 * x_1).
    assert (Hu : unit_p x_1) by (intros H; by apply Hx, (proj1 (eqp_iff x_1 0))).
    split; [split; [|apply unit_mul; [|done]]; unfold unit_p; rewrite eqp_iff; by vm_compute|].
    cbn [cswap ladder_step ladder_start x_2 z_2 x_3 z_3]. rewrite !eqp_mod. split_and!; apply eqp_eq; ring.
Qed.

Lemma clamp_top_bit s :
  all_bytes s = true → length s = 32%nat → Z.testbit (le_value (curve25519_clamp_secret s)) 255 = false.
Proof.
  intros Hs Hl. change 255 with (8 * Z.of_nat 31 + 7).
  rewrite le_value_testbit by (try apply clamp_bytes; rewrite ?clamp_length; (done || lia)).
  unfold curve25519_clamp_secret, at_ at 1. rewrite list_lookup_insert_eq by (rewrite length_insert; lia).
  simpl default. by rewrite Z.lor_spec, Z.land_spec, andb_false_r.
Qed.

(** ** Powers by squaring, over any representation of the field *)

Section Powers.
Context {E : Type} (ev : E → Z) (good : E → Prop) (mul : E → E → E) (sq : E → E).
Context (mul_ok : ∀ x y, good x → good y → ev (mul x y) ≡p ev x * ev y ∧ good (mul x y)).
Context (sq_ok : ∀ x, good x → ev (sq x) ≡p ev x * ev x ∧ good (sq x)).

(** [x] is the power [k] of [v]. *)
Definition is_power (v : Z) (x : E) (k : Z) : Prop := ev x ≡p v ^ k ∧ good x ∧ 0 <= k.

Lemma power_one x : good x → is_power (ev x) x 1.
Proof. intros. split_and!; [by rewrite Z.pow_1_r|done|lia]. Qed.

Lemma power_mul v x y j k : is_power v x j → is_power v y k → is_power v (mul x y) (j + k).
Proof.
  intros (Hx & Tx & Hj) (Hy & Ty & Hk). destruct (mul_ok x y) as [Hm Tm]; [done..|].
  split_and!; [|done|lia]. by rewrite Hm, Hx, Hy, Z.pow_add_r.
Qed.

Lemma power_square v x k : is_power v x k → is_power v (sq x) (2 * k).
Proof.
  intros (Hx & Tx & Hk). destruct (sq_ok x) as [Hm Tm]; [done|].
  split_and!; [|done|lia]. rewrite Hm, Hx, <- Z.pow_add_r by done. by replace (k + k) with (2 * k) by lia.
Qed.

Lemma power_loop v n : ∀ i x k, is_power v x k →
  is_power v (for_upto i n (λ _ t, sq t) x) (2 ^ Z.of_nat n * k).
Proof.
  induction n as [|n IH]; intros i x k Hx; cbn [for_upto]; [by rewrite Z.mul_1_l|].
  replace (2 ^ Z.of_nat (S n) * k) with (2 ^ Z.of_nat n * (2 * k)).
  - apply IH. by apply power_square.
  - rewrite Nat2Z.inj_succ, Z.pow_succ_r by lia. ring.
Qed.

(** One squaring, then [for (i = 1; i <= n; ++i)]. *)
Lemma power_times v x k n :
  is_power v x k → is_power v (for_upto 1 n (λ _ t, sq t) (sq x)) (2 ^ Z.of_nat (S n) * k).
Proof.
  intros Hx. replace (2 ^ Z.of_nat (S n) * k) with (2 ^ Z.of_nat n * (2 * k)).
  - by apply power_loop, power_square.
  - rewrite Nat2Z.inj_succ, Z.pow_succ_r by lia. ring.
Qed.
End Powers.
