(* ===== verification/CurveHacl64.v ===== *)
(** * CurveHacl64: curve25519-hacl64.h and curve25519.c

    The 64-bit implementation of Curve25519, with five limbs of 51 bits in
    [u64] and products in [u128].  An array of five limbs is a [felem]; the
    functions that store into an array return it.  Every operation wraps at
    the width of its C type.  Arrays that one call reads and writes at once
    ([fmul_fmul(a, b, a)], [fsquare_fsquare_times_inplace]) are read before
    they are written, in the C code as here. *)

From Stdlib Require Import Ascii String.
From stdpp Require Import base numbers option sets list list_numbers strings.
From S2P Require Import Prelude Field25519.
#[local] Open Scope c_scope.

Definition u128 (x : Z) : Z := x mod 2 ^ 128.

(** An array of five limbs, of [u64] or of [u128]. *)
Record felem := Limbs { l0 : Z; l1 : Z; l2 : Z; l3 : Z; l4 : Z }.
Definition felem_zero : felem := Limbs 0 0 0 0 0.
Definition felem_one : felem := Limbs 1 0 0 0 0.

Definition mask51 : Z := 0x7ffffffffffff.

(** ** Masks *)

Definition u64_eq_mask (a b : Z) : Z :=
  let x := a .^ b in
  let minus_x := u64 (u64 (~~ x) + 1) in
  let x_or_minus_x := x .| minus_x in
  let xnx := x_or_minus_x .>> 63 in
  u64 (xnx - 1).

Definition u64_gte_mask (a b : Z) : Z :=
  let x := a in
  let y := b in
  let x_xor_y := x .^ y in
  let x_sub_y := u64 (x - y) in
  let x_sub_y_xor_y := x_sub_y .^ y in
  let q := x_xor_y .| x_sub_y_xor_y in
  let x_xor_q := x .^ q in
  let x_xor_q_ := x_xor_q .>> 63 in
  u64 (x_xor_q_ - 1).

Definition modulo_carry_top (b : felem) : felem :=
  Limbs (u64 (l0 b + u64 (19 * (l4 b .>> 51)))) (l1 b) (l2 b) (l3 b) (l4 b .& mask51).

(** ** Products *)

Definition fproduct_copy_from_wide_ (input : felem) : felem :=
  Limbs (u64 (l0 input)) (u64 (l1 input)) (u64 (l2 input)) (u64 (l3 input)) (u64 (l4 input)).

Definition fproduct_sum_scalar_multiplication_ (output input : felem) (s : Z) : felem :=
  Limbs (u128 (l0 output + u128 (l0 input * s))) (u128 (l1 output + u128 (l1 input * s)))
        (u128 (l2 output + u128 (l2 input * s))) (u128 (l3 output + u128 (l3 input * s)))
        (u128 (l4 output + u128 (l4 input * s))).

(** One block of [fproduct_carry_wide_]: the new [tmp[ctr]] and [tmp[ctr + 1]]. *)
Definition carry_block (tctr tctrp1 : Z) : Z * Z :=
  let r0 := u64 tctr .& mask51 in
  let c := tctr .>> 51 in
  (r0, u128 (tctrp1 + c)).

Definition fproduct_carry_wide_ (tmp : felem) : felem :=
  let '(t0, t1) := carry_block (l0 tmp) (l1 tmp) in
  let '(t1, t2) := carry_block t1 (l2 tmp) in
  let '(t2, t3) := carry_block t2 (l3 tmp) in
  let '(t3, t4) := carry_block t3 (l4 tmp) in
  Limbs t0 t1 t2 t3 t4.

Definition fmul_shift_reduce (output : felem) : felem :=
  Limbs (u64 (19 * l4 output)) (l0 output) (l1 output) (l2 output) (l3 output).

Definition fmul_mul_shift_reduce_ (output input input21 : felem) : felem :=
  let output := fproduct_sum_scalar_multiplication_ output input (l0 input21) in
  let input := fmul_shift_reduce input in
  let output := fproduct_sum_scalar_multiplication_ output input (l1 input21) in
  let input := fmul_shift_reduce input in
  let output := fproduct_sum_scalar_multiplication_ output input (l2 input21) in
  let input := fmul_shift_reduce input in
  let output := fproduct_sum_scalar_multiplication_ output input (l3 input21) in
  let input := fmul_shift_reduce input in
  fproduct_sum_scalar_multiplication_ output input (l4 input21).

(** The end of [fmul_fmul] and [fsquare_fsquare_]: the carry from the top limb
    of a wide element, and its copy to [u64] limbs. *)
Definition reduce_top (t : felem) : felem :=
  let b4 := l4 t in
  let b0 := l0 t in
  let b4_ := b4 .& mask51 in
  let b0_ := u128 (b0 + u128 (19 * u64 (b4 .>> 51))) in
  fproduct_copy_from_wide_ (Limbs b0_ (l1 t) (l2 t) (l3 t) b4_).

(** ... and the carry from limb 0 to limb 1. *)
Definition carry_0_1 (output : felem) : felem :=
  let i0 := l0 output in
  let i1 := l1 output in
  Limbs (i0 .& mask51) (u64 (i1 + (i0 .>> 51))) (l2 output) (l3 output) (l4 output).

Definition fmul_fmul (input input21 : felem) : felem :=
  let t := fmul_mul_shift_reduce_ felem_zero input input21 in
  carry_0_1 (reduce_top (fproduct_carry_wide_ t)).

Definition fsquare_fsquare__ (output : felem) : felem :=
  let r0 := l0 output in
  let r1 := l1 output in
  let r2 := l2 output in
  let r3 := l3 output in
  let r4 := l4 output in
  let d0 := u64 (r0 * 2) in
  let d1 := u64 (r1 * 2) in
  let d2 := u64 (u64 (r2 * 2) * 19) in
  let d419 := u64 (r4 * 19) in
  let d4 := u64 (d419 * 2) in
  let m a b := u128 (a * b) in
  let s0 := u128 (u128 (m r0 r0 + m d4 r1) + m d2 r3) in
  let s1 := u128 (u128 (m d0 r1 + m d4 r2) + m (u64 (r3 * 19)) r3) in
  let s2 := u128 (u128 (m d0 r2 + m r1 r1) + m d4 r3) in
  let s3 := u128 (u128 (m d0 r3 + m d1 r2) + m r4 d419) in
  let s4 := u128 (u128 (m d0 r4 + m d1 r3) + m r2 r2) in
  Limbs s0 s1 s2 s3 s4.

Definition fsquare_fsquare_ (output : felem) : felem :=
  carry_0_1 (reduce_top (fproduct_carry_wide_ (fsquare_fsquare__ output))).

(** One squaring, then [for (i = 1; i < count1; ++i)]. *)
Definition fsquare_fsquare_times (input : felem) (count1 : nat) : felem :=
  for_upto 1 (count1 - 1) (λ _ output, fsquare_fsquare_ output) (fsquare_fsquare_ input).
Definition fsquare_fsquare_times_inplace (output : felem) (count1 : nat) : felem :=
  fsquare_fsquare_times output count1.

Definition crecip_crecip (z : felem) : felem :=
  let a0 := fsquare_fsquare_times z 1 in
  let t00 := fsquare_fsquare_times a0 2 in
  let b0 := fmul_fmul t00 z in
  let a0 := fmul_fmul b0 a0 in
  let t00 := fsquare_fsquare_times a0 1 in
  let b0 := fmul_fmul t00 b0 in
  let t00 := fsquare_fsquare_times b0 5 in
  let b1 := fmul_fmul t00 b0 in
  let t01 := fsquare_fsquare_times b1 10 in
  let c0 := fmul_fmul t01 b1 in
  let t01 := fsquare_fsquare_times c0 20 in
  let t01 := fmul_fmul t01 c0 in
  let t01 := fsquare_fsquare_times_inplace t01 10 in
  let b1 := fmul_fmul t01 b1 in
  let t01 := fsquare_fsquare_times b1 50 in
  let c := fmul_fmul t01 b1 in
  let t0 := fsquare_fsquare_times c 100 in
  let t0 := fmul_fmul t0 c in
  let t0 := fsquare_fsquare_times_inplace t0 50 in
  let t0 := fmul_fmul t0 b1 in
  let t0 := fsquare_fsquare_times_inplace t0 5 in
  fmul_fmul t0 a0.

(** ** Sums, differences and scalars *)

Definition fsum (a b : felem) : felem :=
  Limbs (u64 (l0 a + l0 b)) (u64 (l1 a + l1 b)) (u64 (l2 a + l2 b)) (u64 (l3 a + l3 b)) (u64 (l4 a + l4 b)).

(** [fdifference(a, b)] stores [b - a] into [a]. *)
Definition fdifference (a b : felem) : felem :=
  Limbs (u64 (u64 (l0 b + 0x3fffffffffff68) - l0 a)) (u64 (u64 (l1 b + 0x3ffffffffffff8) - l1 a))
        (u64 (u64 (l2 b + 0x3ffffffffffff8) - l2 a)) (u64 (u64 (l3 b + 0x3ffffffffffff8) - l3 a))
        (u64 (u64 (l4 b + 0x3ffffffffffff8) - l4 a)).

Definition fscalar (b : felem) (s : Z) : felem :=
  let tmp := Limbs (u128 (l0 b * s)) (u128 (l1 b * s)) (u128 (l2 b * s)) (u128 (l3 b * s)) (u128 (l4 b * s)) in
  reduce_top (fproduct_carry_wide_ tmp).

Definition fmul (a b : felem) : felem := fmul_fmul a b.
Definition crecip (input : felem) : felem := crecip_crecip input.

(** ** Points: the [x] and [z] halves of an array of ten limbs *)

Definition point : Type := felem * felem.

(** [point_swap_conditional_step] on one limb. *)
Definition point_swap_conditional_step (swap1 ai bi : Z) : Z * Z :=
  let x := swap1 .& (ai .^ bi) in
  (ai .^ x, bi .^ x).

Definition point_swap_conditional5 (a b : felem) (swap1 : Z) : felem * felem :=
  let '(a4, b4) := point_swap_conditional_step swap1 (l4 a) (l4 b) in
  let '(a3, b3) := point_swap_conditional_step swap1 (l3 a) (l3 b) in
  let '(a2, b2) := point_swap_conditional_step swap1 (l2 a) (l2 b) in
  let '(a1, b1) := point_swap_conditional_step swap1 (l1 a) (l1 b) in
  let '(a0, b0) := point_swap_conditional_step swap1 (l0 a) (l0 b) in
  (Limbs a0 a1 a2 a3 a4, Limbs b0 b1 b2 b3 b4).

Definition point_swap_conditional (a b : point) (iswap : Z) : point * point :=
  let swap1 := u64 (0 - iswap) in
  let '(ax, bx) := point_swap_conditional5 a.1 b.1 swap1 in
  let '(az, bz) := point_swap_conditional5 a.2 b.2 swap1 in
  ((ax, az), (bx, bz)).

(** [addanddouble_fmonty(pp, ppq, p, pq, qmqp)]: the points stored in [pp] and
    [ppq]; [p] and [pq] are scratch afterwards. *)
Definition addanddouble_fmonty (p pq : point) (qmqp : felem) : point * point :=
  let '(x, z) := p in
  let '(xprime, zprime) := pq in
  let qx := qmqp in
  let origx := x in
  let x := fsum x z in
  let z := fdifference z origx in
  let origxprime := xprime in
  let xprime := fsum xprime zprime in
  let zprime := fdifference zprime origxprime in
  let xxprime := fmul xprime z in
  let zzprime := fmul x zprime in
  let origxprime := xxprime in
  let xxprime := fsum xxprime zzprime in
  let zzprime := fdifference zzprime origxprime in
  let x3 := fsquare_fsquare_times xxprime 1 in
  let zzzprime := fsquare_fsquare_times zzprime 1 in
  let z3 := fmul zzzprime qx in
  let xx := fsquare_fsquare_times x 1 in
  let zz := fsquare_fsquare_times z 1 in
  let x2 := fmul xx zz in
  let zz := fdifference zz xx in
  let scalar := 121665 in
  let zzz := fscalar zz scalar in
  let zzz := fsum zzz xx in
  let z2 := fmul zzz zz in
  ((x2, z2), (x3, z3)).

(** ** The ladder *)

Definition ladder_smallloop_cmult_small_loop_step (nq nqpq : point) (q : felem) (byt : Z) : point * point :=
  let bit0 := byt .>> 7 in
  let '(nq, nqpq) := point_swap_conditional nq nqpq bit0 in
  let '(nq2, nqpq2) := addanddouble_fmonty nq nqpq q in
  let bit := byt .>> 7 in
  point_swap_conditional nq2 nqpq2 bit.

(** The second step reads what the first one stored in [nq2] and [nqpq2]. *)
Definition ladder_smallloop_cmult_small_loop_double_step (nq nqpq : point) (q : felem) (byt : Z) : point * point :=
  let '(nq2, nqpq2) := ladder_smallloop_cmult_small_loop_step nq nqpq q byt in
  let byt1 := u8 (byt .<< 1) in
  ladder_smallloop_cmult_small_loop_step nq2 nqpq2 q byt1.

(** [while (i--)] *)
Fixpoint ladder_smallloop_cmult_small_loop (i : nat) (nq nqpq : point) (q : felem) (byt : Z) : point * point :=
  match i with
  | O => (nq, nqpq)
  | S i' =>
      let '(nq, nqpq) := ladder_smallloop_cmult_small_loop_double_step nq nqpq q byt in
      ladder_smallloop_cmult_small_loop i' nq nqpq q (u8 (byt .<< 2))
  end.

Fixpoint ladder_bigloop_cmult_big_loop (i : nat) (n1 : bytes) (nq nqpq : point) (q : felem) : point * point :=
  match i with
  | O => (nq, nqpq)
  | S i' =>
      let byte := at_ n1 i' in
      let '(nq, nqpq) := ladder_smallloop_cmult_small_loop 4 nq nqpq q byte in
      ladder_bigloop_cmult_big_loop i' n1 nq nqpq q
  end.

Definition ladder_cmult (n1 : bytes) (q : point) : point :=
  let nqpq := q in
  let nq := (felem_one, felem_zero) in
  (ladder_bigloop_cmult_big_loop 32 n1 nq nqpq q.1).1.

(** ** Formats *)

(** [get_unaligned_le64(a)] of curve25519.c, at an offset of the array. *)
Definition get_unaligned_le64 (a : bytes) (off : nat) : Z := le_value (take 8 (drop off a)).
Definition put_unaligned_le64 (s : Z) : bytes := le_bytes 8 s.

Definition format_fexpand (input : bytes) : felem :=
  let i0 := get_unaligned_le64 input 0 in
  let i1 := get_unaligned_le64 input 6 in
  let i2 := get_unaligned_le64 input 12 in
  let i3 := get_unaligned_le64 input 19 in
  let i4 := get_unaligned_le64 input 24 in
  Limbs (i0 .& mask51) ((i1 .>> 3) .& mask51) ((i2 .>> 6) .& mask51) ((i3 .>> 1) .& mask51)
        ((i4 .>> 12) .& mask51).

Definition format_fcontract_first_carry_pass (input : felem) : felem :=
  let t1_ := u64 (l1 input + (l0 input .>> 51)) in
  let t0_ := l0 input .& mask51 in
  let t2_ := u64 (l2 input + (t1_ .>> 51)) in
  let t1__ := t1_ .& mask51 in
  let t3_ := u64 (l3 input + (t2_ .>> 51)) in
  let t2__ := t2_ .& mask51 in
  let t4_ := u64 (l4 input + (t3_ .>> 51)) in
  let t3__ := t3_ .& mask51 in
  Limbs t0_ t1__ t2__ t3__ t4_.

Definition format_fcontract_first_carry_full (input : felem) : felem :=
  modulo_carry_top (format_fcontract_first_carry_pass input).

(** The source repeats the body of the first pass. *)
Definition format_fcontract_second_carry_pass (input : felem) : felem :=
  format_fcontract_first_carry_pass input.

Definition format_fcontract_second_carry_full (input : felem) : felem :=
  carry_0_1 (modulo_carry_top (format_fcontract_second_carry_pass input)).

Definition format_fcontract_trim (input : felem) : felem :=
  let mask0 := u64_gte_mask (l0 input) 0x7ffffffffffed in
  let mask1 := u64_eq_mask (l1 input) mask51 in
  let mask2 := u64_eq_mask (l2 input) mask51 in
  let mask3 := u64_eq_mask (l3 input) mask51 in
  let mask4 := u64_eq_mask (l4 input) mask51 in
  let mask := (((mask0 .& mask1) .& mask2) .& mask3) .& mask4 in
  Limbs (u64 (l0 input - (0x7ffffffffffed .& mask))) (u64 (l1 input - (mask51 .& mask)))
        (u64 (l2 input - (mask51 .& mask))) (u64 (l3 input - (mask51 .& mask))) (u64 (l4 input - (mask51 .& mask))).

Definition format_fcontract_store (input : felem) : bytes :=
  let o0 := u64 (l1 input .<< 51) .| l0 input in
  let o1 := u64 (l2 input .<< 38) .| (l1 input .>> 13) in
  let o2 := u64 (l3 input .<< 25) .| (l2 input .>> 26) in
  let o3 := u64 (l4 input .<< 12) .| (l3 input .>> 39) in
  put_unaligned_le64 o0 ++ put_unaligned_le64 o1 ++ put_unaligned_le64 o2 ++ put_unaligned_le64 o3.

Definition format_fcontract (input : felem) : bytes :=
  format_fcontract_store (format_fcontract_trim
    (format_fcontract_second_carry_full (format_fcontract_first_carry_full input))).

Definition format_scalar_of_point (pt : point) : bytes :=
  let '(x, z) := pt in
  let zmone := crecip z in
  let sc := fmul x zmone in
  format_fcontract sc.

(** ** The entry points *)

Definition curve25519_generic (secret basepoint : bytes) : bytes :=
  let q := (format_fexpand basepoint, felem_one) in
  let e := curve25519_clamp_secret secret in
  let nq := ladder_cmult e q in
  format_scalar_of_point nq.

(** curve25519.c *)
Definition curve25519 (secret basepoint : bytes) : bytes := curve25519_generic secret basepoint.
Definition basepoint9 : bytes := 9 :: replicate 31 0.
Definition curve25519_generate_public (secret : bytes) : bytes := curve25519 secret basepoint9.
