(* ===== verification/CurveHacl64Spec.v ===== *)
(** * CurveHacl64Spec: the 64-bit limbs compute the X25519 function

    [feval] is the number an array of limbs stands for.  Every field operation
    is shown exact on limbs within its bounds, no [u64] or [u128] ever wrapping,
    and congruent modulo the prime to the operation it is named for. *)

From Stdlib Require Import Ascii String Zdiv Zpow_facts.
From stdpp Require Import base numbers option sets list list_numbers strings.
From S2P Require Import Prelude Field25519 X25519 CurveHacl64.
#[local] Open Scope c_scope.

Definition feval (f : felem) : Z :=
  l0 f + 2 ^ 51 * l1 f + 2 ^ 102 * l2 f + 2 ^ 153 * l3 f + 2 ^ 204 * l4 f.

(** Every limb is in [0, b]. *)
Definition limbs_le (b : Z) (f : felem) : Prop :=
  0 <= l0 f <= b ∧ 0 <= l1 f <= b ∧ 0 <= l2 f <= b ∧ 0 <= l3 f <= b ∧ 0 <= l4 f <= b.

(** ** Words *)

Lemma u128_small x : 0 <= x < 2 ^ 128 → u128 x = x.
Proof. apply Z.mod_small. Qed.

Lemma mask51_mod x : x .& mask51 = x mod 2 ^ 51.
Proof. change mask51 with (Z.ones 51). by rewrite Z.land_ones by lia. Qed.

Lemma shr51_div x : x .>> 51 = x / 2 ^ 51.
Proof. by rewrite Z.shiftr_div_pow2 by lia. Qed.

Lemma mask51_u64 x : u64 x .& mask51 = x mod 2 ^ 51.
Proof.
  rewrite mask51_mod. unfold u64. change (2 ^ 64) with (2 ^ 51 * 2 ^ 13).
  rewrite Z.rem_mul_r by lia. rewrite Z.mul_comm, Z.mod_add by lia. apply Zmod_mod.
Qed.

(** A carry out of a limb, as a linear equation. *)
Lemma carry51 x : 0 <= x → x = 2 ^ 51 * (x / 2 ^ 51) + x mod 2 ^ 51 ∧ 0 <= x mod 2 ^ 51 <= mask51 ∧ 0 <= x / 2 ^ 51.
Proof.
  intros Hx. pose proof (Z.mod_pos_bound x (2 ^ 51) ltac:(lia)). unfold mask51. split_and!; try lia.
  - apply Z.div_mod. lia.
  - by apply Z.div_pos.
Qed.

(** ** Wide elements *)

Lemma carry_wide_spec t :
  limbs_le (2 ^ 120) t →
  ∃ q, let r := fproduct_carry_wide_ t in
    feval r = feval t ∧ limbs_le mask51 (Limbs (l0 r) (l1 r) (l2 r) (l3 r) 0) ∧
    l4 r = l4 t + q ∧ 0 <= q <= 2 ^ 70.
Proof.
  intros (H0 & H1 & H2 & H3 & H4). destruct t as [t0 t1 t2 t3 t4]. cbn [l0 l1 l2 l3 l4] in *.
  unfold fproduct_carry_wide_, carry_block. cbn [l0 l1 l2 l3 l4].
  rewrite !mask51_u64, !shr51_div.
  destruct (carry51 t0 ltac:(lia)) as (E0 & R0 & Q0). set (c0 := t0 / 2 ^ 51) in *. set (m0 := t0 mod 2 ^ 51) in *.
  rewrite (u128_small (t1 + c0)) by lia.
  destruct (carry51 (t1 + c0) ltac:(lia)) as (E1 & R1 & Q1). set (c1 := (t1 + c0) / 2 ^ 51) in *. set (m1 := (t1 + c0) mod 2 ^ 51) in *.
  rewrite (u128_small (t2 + c1)) by lia.
  destruct (carry51 (t2 + c1) ltac:(lia)) as (E2 & R2 & Q2). set (c2 := (t2 + c1) / 2 ^ 51) in *. set (m2 := (t2 + c1) mod 2 ^ 51) in *.
  rewrite (u128_small (t3 + c2)) by lia.
  destruct (carry51 (t3 + c2) ltac:(lia)) as (E3 & R3 & Q3). set (c3 := (t3 + c2) / 2 ^ 51) in *. set (m3 := (t3 + c2) mod 2 ^ 51) in *.
  rewrite (u128_small (t4 + c3)) by lia.
  exists c3. unfold feval, limbs_le. cbn [l0 l1 l2 l3 l4]. clearbody c0 c1 c2 c3 m0 m1 m2 m3.
  split_and!; try lia.
Qed.

Lemma reduce_top_spec t :
  limbs_le mask51 (Limbs (l0 t) (l1 t) (l2 t) (l3 t) 0) → 0 <= l4 t → 19 * (l4 t / 2 ^ 51) < 2 ^ 64 - 2 ^ 51 →
  let r := reduce_top t in
  feval r ≡p feval t ∧ limbs_le mask51 (Limbs 0 (l1 r) (l2 r) (l3 r) (l4 r)) ∧
  0 <= l0 r <= mask51 + 19 * (l4 t / 2 ^ 51).
Proof.
  destruct t as [t0 t1 t2 t3 t4]. intros (H0 & H1 & H2 & H3 & _) H4 Hb. cbn [l0 l1 l2 l3 l4] in *.
  unfold reduce_top, fproduct_copy_from_wide_. cbn [l0 l1 l2 l3 l4].
  rewrite mask51_mod, shr51_div. destruct (carry51 t4 H4) as (E4 & R4 & Q4).
  set (c := t4 / 2 ^ 51) in *. set (m := t4 mod 2 ^ 51) in *. clearbody c m. unfold mask51 in *.
  rewrite (u64_small c) by lia. rewrite (u128_small (19 * c)), (u128_small (t0 + 19 * c)) by lia.
  rewrite !u64_small by lia. unfold feval, limbs_le. cbn [l0 l1 l2 l3 l4]. split_and!; try lia.
  apply (eqp_multiple _ _ (- c)). unfold P25519. lia.
Qed.

Lemma carry_0_1_spec f :
  0 <= l0 f < 2 ^ 64 → 0 <= l1 f <= mask51 →
  let r := carry_0_1 f in
  feval r = feval f ∧ 0 <= l0 r <= mask51 ∧ 0 <= l1 r <= mask51 + 2 ^ 13 ∧
  l2 r = l2 f ∧ l3 r = l3 f ∧ l4 r = l4 f.
Proof.
  destruct f as [f0 f1 f2 f3 f4]. intros H0 H1. cbn [l0 l1 l2 l3 l4] in *.
  unfold carry_0_1. cbn [l0 l1 l2 l3 l4]. rewrite mask51_mod, shr51_div.
  destruct (carry51 f0 ltac:(lia)) as (E0 & R0 & Q0).
  set (c := f0 / 2 ^ 51) in *. set (m := f0 mod 2 ^ 51) in *. clearbody c m. unfold mask51 in *.
  rewrite u64_small by lia. unfold feval. cbn [l0 l1 l2 l3 l4]. split_and!; lia.
Qed.

(** The limbs of a product, and of a difference of two such. *)
Definition TIGHT : Z := 2 ^ 51 + 2 ^ 13.
Definition LOOSE : Z := 2 ^ 54 + 2 ^ 51 + 2 ^ 26.
Definition tight : felem → Prop := limbs_le TIGHT.
Definition loose : felem → Prop := limbs_le LOOSE.

Lemma limbs_le_mono b c f : b <= c → limbs_le b f → limbs_le c f.
Proof. unfold limbs_le. lia. Qed.

Lemma tight_loose f : tight f → loose f.
Proof. apply limbs_le_mono. unfold TIGHT, LOOSE. lia. Qed.

(** A wide element that is not too large at the top comes out reduced. *)
Lemma wide_reduce t :
  limbs_le (2 ^ 120) t → l4 t <= 5 * (LOOSE * LOOSE) →
  let r := carry_0_1 (reduce_top (fproduct_carry_wide_ t)) in feval r ≡p feval t ∧ tight r.
Proof.
  intros Ht H4. destruct (carry_wide_spec t Ht) as (q & He & Hl & Hq & Hqb). cbn zeta in *.
  set (w := fproduct_carry_wide_ t) in *.
  assert (Hw4 : 0 <= l4 w) by (destruct Ht as (_ & _ & _ & _ & ?); lia).
  assert (Hc : 19 * (l4 w / 2 ^ 51) < 2 ^ 64 - 2 ^ 51).
  { pose proof (Z.mul_div_le (l4 w) (2 ^ 51) ltac:(lia)). unfold LOOSE in H4. lia. }
  destruct (reduce_top_spec w Hl Hw4 Hc) as (Hr & Hrl & Hr0). set (r := reduce_top w) in *.
  destruct Hrl as (_ & L1 & L2 & L3 & L4). cbn [l0 l1 l2 l3 l4] in *. unfold mask51 in *.
  destruct (carry_0_1_spec r) as (Hf & F0 & F1 & F2 & F3 & F4); [lia|unfold mask51; lia|].
  cbn zeta. split; [by rewrite Hf, Hr, He|]. unfold tight, TIGHT, limbs_le. unfold mask51 in *. lia.
Qed.

(** ** Multiplication and squaring *)

Lemma prod_le a b A B : 0 <= a <= A → 0 <= b <= B → 0 <= a * b <= A * B.
Proof. intros. split; [lia|]. by apply Z.mul_le_mono_nonneg; lia. Qed.

Lemma sum_scalar_exact out inp s X Y S :
  limbs_le X out → limbs_le Y inp → 0 <= s <= S → X + Y * S < 2 ^ 128 →
  fproduct_sum_scalar_multiplication_ out inp s =
    Limbs (l0 out + l0 inp * s) (l1 out + l1 inp * s) (l2 out + l2 inp * s) (l3 out + l3 inp * s) (l4 out + l4 inp * s) ∧
  limbs_le (X + Y * S)
    (Limbs (l0 out + l0 inp * s) (l1 out + l1 inp * s) (l2 out + l2 inp * s) (l3 out + l3 inp * s) (l4 out + l4 inp * s)).
Proof.
  intros (O0 & O1 & O2 & O3 & O4) (I0 & I1 & I2 & I3 & I4) Hs Hb.
  pose proof (prod_le _ _ _ _ I0 Hs). pose proof (prod_le _ _ _ _ I1 Hs). pose proof (prod_le _ _ _ _ I2 Hs).
  pose proof (prod_le _ _ _ _ I3 Hs). pose proof (prod_le _ _ _ _ I4 Hs).
  split; [|unfold limbs_le; cbn [l0 l1 l2 l3 l4]; lia].
  unfold fproduct_sum_scalar_multiplication_.
  f_equal; (rewrite (u128_small (_ * s)), u128_small by lia); reflexivity.
Qed.

(** The limbs of a product before any carry. *)
Definition mul_wide (a b : felem) : felem :=
  Limbs (l0 a * l0 b + 19 * (l4 a * l1 b + l3 a * l2 b + l2 a * l3 b + l1 a * l4 b))
        (l1 a * l0 b + l0 a * l1 b + 19 * (l4 a * l2 b + l3 a * l3 b + l2 a * l4 b))
        (l2 a * l0 b + l1 a * l1 b + l0 a * l2 b + 19 * (l4 a * l3 b + l3 a * l4 b))
        (l3 a * l0 b + l2 a * l1 b + l1 a * l2 b + l0 a * l3 b + 19 * (l4 a * l4 b))
        (l4 a * l0 b + l3 a * l1 b + l2 a * l2 b + l1 a * l3 b + l0 a * l4 b).

Lemma mul_limbs a b :
  loose a → loose b → fmul_mul_shift_reduce_ felem_zero a b = mul_wide a b ∧ limbs_le (2 ^ 120) (mul_wide a b).
Proof.
  destruct a as [a0 a1 a2 a3 a4], b as [b0 b1 b2 b3 b4].
  intros Ha (B0 & B1 & B2 & B3 & B4). pose proof Ha as (A0 & A1 & A2 & A3 & A4). cbn [l0 l1 l2 l3 l4] in *.
  set (D := LOOSE * LOOSE). assert (HD : 19 * 5 * D < 2 ^ 120) by (unfold D, LOOSE; lia).
  assert (HL : 19 * LOOSE < 2 ^ 64) by (unfold LOOSE; lia).
  unfold fmul_mul_shift_reduce_. cbn [l0 l1 l2 l3 l4].
  destruct (sum_scalar_exact felem_zero (Limbs a0 a1 a2 a3 a4) b0 0 (19 * LOOSE) LOOSE) as [E1 W1];
    [unfold limbs_le; simpl; lia|unfold limbs_le; simpl; lia|done|lia|]. rewrite E1. clear E1.
  unfold fmul_shift_reduce. cbn [l0 l1 l2 l3 l4 felem_zero] in *. rewrite !(u64_small (19 * _)) by lia.
  match goal with |- context [fproduct_sum_scalar_multiplication_ ?o ?i b1] =>
    destruct (sum_scalar_exact o i b1 _ (19 * LOOSE) LOOSE W1) as [E2 W2];
      [unfold limbs_le; cbn [l0 l1 l2 l3 l4]; lia|done|lia|] end. rewrite E2. clear E2 W1. cbn [l0 l1 l2 l3 l4] in *.
  match goal with |- context [fproduct_sum_scalar_multiplication_ ?o ?i b2] =>
    destruct (sum_scalar_exact o i b2 _ (19 * LOOSE) LOOSE W2) as [E2 W1];
      [unfold limbs_le; cbn [l0 l1 l2 l3 l4]; lia|done|lia|] end. rewrite E2. clear E2 W2. cbn [l0 l1 l2 l3 l4] in *.
  match goal with |- context [fproduct_sum_scalar_multiplication_ ?o ?i b3] =>
    destruct (sum_scalar_exact o i b3 _ (19 * LOOSE) LOOSE W1) as [E2 W2];
      [unfold limbs_le; cbn [l0 l1 l2 l3 l4]; lia|done|lia|] end. rewrite E2. clear E2 W1. cbn [l0 l1 l2 l3 l4] in *.
  match goal with |- context [fproduct_sum_scalar_multiplication_ ?o ?i b4] =>
    destruct (sum_scalar_exact o i b4 _ (19 * LOOSE) LOOSE W2) as [E2 W1];
      [unfold limbs_le; cbn [l0 l1 l2 l3 l4]; lia|done|lia|] end. rewrite E2. clear E2 W2. cbn [l0 l1 l2 l3 l4] in *.
  assert (Heq : Limbs (0 + a0 * b0 + 19 * a4 * b1 + 19 * a3 * b2 + 19 * a2 * b3 + 19 * a1 * b4)
    (0 + a1 * b0 + a0 * b1 + 19 * a4 * b2 + 19 * a3 * b3 + 19 * a2 * b4)
    (0 + a2 * b0 + a1 * b1 + a0 * b2 + 19 * a4 * b3 + 19 * a3 * b4)
    (0 + a3 * b0 + a2 * b1 + a1 * b2 + a0 * b3 + 19 * a4 * b4)
    (0 + a4 * b0 + a3 * b1 + a2 * b2 + a1 * b3 + a0 * b4) = mul_wide (Limbs a0 a1 a2 a3 a4) (Limbs b0 b1 b2 b3 b4)).
  { unfold mul_wide. cbn [l0 l1 l2 l3 l4]. f_equal; ring. }
  rewrite <- Heq. split; [done|]. eapply limbs_le_mono; [|exact W1]. fold D. lia.
Qed.

Lemma mul_wide_top a b : loose a → loose b → l4 (mul_wide a b) <= 5 * (LOOSE * LOOSE).
Proof.
  intros (A0 & A1 & A2 & A3 & A4) (B0 & B1 & B2 & B3 & B4).
  pose proof (prod_le _ _ _ _ A4 B0). pose proof (prod_le _ _ _ _ A3 B1). pose proof (prod_le _ _ _ _ A2 B2).
  pose proof (prod_le _ _ _ _ A1 B3). pose proof (prod_le _ _ _ _ A0 B4).
  cbn [mul_wide l4]. lia.
Qed.

Lemma mul_wide_eval a b : feval (mul_wide a b) ≡p feval a * feval b.
Proof.
  apply (eqp_multiple _ _ (- ((l4 a * l1 b + l3 a * l2 b + l2 a * l3 b + l1 a * l4 b)
    + 2 ^ 51 * (l4 a * l2 b + l3 a * l3 b + l2 a * l4 b) + 2 ^ 102 * (l4 a * l3 b + l3 a * l4 b)
    + 2 ^ 153 * (l4 a * l4 b)))). unfold P25519, feval, mul_wide. cbn [l0 l1 l2 l3 l4]. ring.
Qed.

Lemma fmul_spec a b : loose a → loose b → feval (fmul a b) ≡p feval a * feval b ∧ tight (fmul a b).
Proof.
  intros Ha Hb. destruct (mul_limbs a b Ha Hb) as [E Hw].
  destruct (wide_reduce _ Hw (mul_wide_top a b Ha Hb)) as [Hr Ht].
  unfold fmul, fmul_fmul. rewrite E. split; [|exact Ht]. by rewrite Hr, mul_wide_eval.
Qed.

Lemma square_limbs a : loose a → fsquare_fsquare__ a = mul_wide a a.
Proof.
  destruct a as [r0 r1 r2 r3 r4]. intros (A0 & A1 & A2 & A3 & A4). cbn [l0 l1 l2 l3 l4] in *.
  unfold fsquare_fsquare__, mul_wide. cbn [l0 l1 l2 l3 l4]. cbv zeta.
  assert (HL : 38 * LOOSE < 2 ^ 64) by (unfold LOOSE; lia).
  assert (HD : 3 * (38 * LOOSE * (38 * LOOSE)) < 2 ^ 128) by (unfold LOOSE; lia).
  rewrite !(u64_small (r0 * 2)), !(u64_small (r1 * 2)), !(u64_small (r2 * 2)), !(u64_small (r2 * 2 * 19)),
    !(u64_small (r4 * 19)), !(u64_small (r4 * 19 * 2)), !(u64_small (r3 * 19)) by lia.
  set (S := 38 * LOOSE) in *.
  assert (Hm : ∀ x y, 0 <= x <= S → 0 <= y <= S → 0 <= x * y <= S * S) by (intros; by apply prod_le).
  assert (Hu : ∀ x y, 0 <= x <= S → 0 <= y <= S → u128 (x * y) = x * y).
  { intros x y Hx Hy. apply u128_small. specialize (Hm x y Hx Hy). lia. }
  assert (H3 : ∀ x y z, 0 <= x <= S * S → 0 <= y <= S * S → 0 <= z <= S * S → u128 (u128 (x + y) + z) = x + y + z).
  { intros x y z Hx Hy Hz. rewrite (u128_small (x + y)) by lia. apply u128_small. lia. }
  assert (Hb : ∀ x k, 0 <= x <= LOOSE → 0 <= k <= 38 → 0 <= x * k <= S).
  { intros x k Hx Hk. unfold S. rewrite (Z.mul_comm 38). by apply prod_le. }
  pose proof (Hb r0 1 A0 ltac:(lia)) as B0. pose proof (Hb r1 1 A1 ltac:(lia)) as B1. pose proof (Hb r2 1 A2 ltac:(lia)) as B2.
  pose proof (Hb r3 1 A3 ltac:(lia)) as B3. pose proof (Hb r4 1 A4 ltac:(lia)) as B4. rewrite Z.mul_1_r in B0, B1, B2, B3, B4.
  pose proof (Hb r0 2 A0 ltac:(lia)). pose proof (Hb r1 2 A1 ltac:(lia)). pose proof (Hb r2 (2 * 19) A2 ltac:(lia)) as C2.
  pose proof (Hb r3 19 A3 ltac:(lia)). pose proof (Hb r4 19 A4 ltac:(lia)). pose proof (Hb r4 (19 * 2) A4 ltac:(lia)) as C4.
  rewrite Z.mul_assoc in C2, C4. rewrite !Hu by assumption.
  rewrite !H3 by (apply Hm; assumption). f_equal; ring.
Qed.

Lemma fsquare_spec a :
  loose a → feval (fsquare_fsquare_ a) ≡p feval a * feval a ∧ tight (fsquare_fsquare_ a).
Proof.
  intros Ha. destruct (mul_limbs a a Ha Ha) as [_ Hw].
  destruct (wide_reduce _ Hw (mul_wide_top a a Ha Ha)) as [Hr Ht].
  unfold fsquare_fsquare_. rewrite square_limbs by done. split; [|exact Ht]. by rewrite Hr, mul_wide_eval.
Qed.

Lemma fmul_tight x y : tight x → tight y → feval (fmul_fmul x y) ≡p feval x * feval y ∧ tight (fmul_fmul x y).
Proof. intros. apply fmul_spec; by apply tight_loose. Qed.
Lemma fsquare_tight x : tight x → feval (fsquare_fsquare_ x) ≡p feval x * feval x ∧ tight (fsquare_fsquare_ x).
Proof. intros. apply fsquare_spec; by apply tight_loose. Qed.

Abbreviation hacl_power := (is_power feval tight).

Lemma hacl_times v x k n :
  hacl_power v x k → hacl_power v (fsquare_fsquare_times x (S n)) (2 ^ Z.of_nat (S n) * k).
Proof.
  intros Hx. unfold fsquare_fsquare_times. cbn [Nat.sub]. rewrite Nat.sub_0_r.
  by apply (power_times feval tight _ fsquare_tight).
Qed.
Definition hacl_mul := power_mul feval tight fmul_fmul fmul_tight.

(** The addition chain of [crecip_crecip] reaches the exponent [p - 2]. *)
Lemma crecip_spec z : tight z → feval (crecip z) ≡p feval z ^ (P25519 - 2) ∧ tight (crecip z).
Proof.
  intros Hz. set (v := feval z).
  pose proof (power_one feval tight z Hz : hacl_power v z 1) as Z1.
  unfold crecip, crecip_crecip, fsquare_fsquare_times_inplace.
  pose proof (hacl_times v z _ 0 Z1) as A0. set (a0 := fsquare_fsquare_times z 1) in *.
  pose proof (hacl_times v a0 _ 1 A0) as T0. set (t0 := fsquare_fsquare_times a0 2) in *.
  pose proof (hacl_mul v t0 z _ _ T0 Z1) as B0. set (b0 := fmul_fmul t0 z) in *.
  pose proof (hacl_mul v b0 a0 _ _ B0 A0) as A1. set (a1 := fmul_fmul b0 a0) in *.
  pose proof (hacl_times v a1 _ 0 A1) as T1. set (t1 := fsquare_fsquare_times a1 1) in *.
  pose proof (hacl_mul v t1 b0 _ _ T1 B0) as B1. set (b1 := fmul_fmul t1 b0) in *.
  pose proof (hacl_times v b1 _ 4 B1) as T2. set (t2 := fsquare_fsquare_times b1 5) in *.
  pose proof (hacl_mul v t2 b1 _ _ T2 B1) as B2. set (b2 := fmul_fmul t2 b1) in *.
  pose proof (hacl_times v b2 _ 9 B2) as T3. set (t3 := fsquare_fsquare_times b2 10) in *.
  pose proof (hacl_mul v t3 b2 _ _ T3 B2) as C0. set (c0 := fmul_fmul t3 b2) in *.
  pose proof (hacl_times v c0 _ 19 C0) as T4. set (t4 := fsquare_fsquare_times c0 20) in *.
  pose proof (hacl_mul v t4 c0 _ _ T4 C0) as T5. set (t5 := fmul_fmul t4 c0) in *.
  pose proof (hacl_times v t5 _ 9 T5) as T6. set (t6 := fsquare_fsquare_times t5 10) in *.
  pose proof (hacl_mul v t6 b2 _ _ T6 B2) as B3. set (b3 := fmul_fmul t6 b2) in *.
  pose proof (hacl_times v b3 _ 49 B3) as T7. set (t7 := fsquare_fsquare_times b3 50) in *.
  pose proof (hacl_mul v t7 b3 _ _ T7 B3) as C1. set (c1 := fmul_fmul t7 b3) in *.
  pose proof (hacl_times v c1 _ 99 C1) as T8. set (t8 := fsquare_fsquare_times c1 100) in *.
  pose proof (hacl_mul v t8 c1 _ _ T8 C1) as T9. set (t9 := fmul_fmul t8 c1) in *.
  pose proof (hacl_times v t9 _ 49 T9) as TA. set (ta := fsquare_fsquare_times t9 50) in *.
  pose proof (hacl_mul v ta b3 _ _ TA B3) as TB. set (tb := fmul_fmul ta b3) in *.
  pose proof (hacl_times v tb _ 4 TB) as TC. set (tc := fsquare_fsquare_times tb 5) in *.
  pose proof (hacl_mul v tc a1 _ _ TC A1) as (R & TR & _).
  split; [|exact TR]. rewrite R. apply eqp_iff. do 2 f_equal.
Qed.

(** ** Sums, differences and scalars *)

Lemma fsum_spec a b :
  limbs_le (2 ^ 60) a → limbs_le (2 ^ 60) b → feval (fsum a b) = feval a + feval b.
Proof.
  intros (A0 & A1 & A2 & A3 & A4) (B0 & B1 & B2 & B3 & B4). unfold fsum, feval. cbn [l0 l1 l2 l3 l4].
  rewrite !u64_small by lia. lia.
Qed.

Lemma fsum_le a b A B : limbs_le A a → limbs_le B b → A + B < 2 ^ 64 → limbs_le (A + B) (fsum a b).
Proof.
  intros (A0 & A1 & A2 & A3 & A4) (B0 & B1 & B2 & B3 & B4) Hb. unfold fsum, limbs_le. cbn [l0 l1 l2 l3 l4].
  rewrite !u64_small by lia. lia.
Qed.

Lemma fdifference_spec a b :
  tight a → tight b → feval (fdifference a b) ≡p feval b - feval a ∧ loose (fdifference a b).
Proof.
  intros (A0 & A1 & A2 & A3 & A4) (B0 & B1 & B2 & B3 & B4). unfold TIGHT in *.
  unfold fdifference, loose, limbs_le, LOOSE. cbn [l0 l1 l2 l3 l4].
  rewrite !(u64_small (_ + _)) by lia. rewrite !u64_small by lia. split; [|lia].
  apply (eqp_multiple _ _ 8). unfold P25519, feval. cbn [l0 l1 l2 l3 l4]. lia.
Qed.

Lemma fscalar_spec b s :
  loose b → 0 <= s < 2 ^ 20 → feval (fscalar b s) ≡p feval b * s ∧ limbs_le (2 ^ 51 + 2 ^ 30) (fscalar b s).
Proof.
  intros (B0 & B1 & B2 & B3 & B4) Hs. unfold LOOSE in *.
  assert (Hp : ∀ x, 0 <= x <= 2 ^ 54 + 2 ^ 51 + 2 ^ 26 → 0 <= x * s <= (2 ^ 54 + 2 ^ 51 + 2 ^ 26) * 2 ^ 20).
  { intros x Hx. apply prod_le; lia. }
  pose proof (Hp _ B0). pose proof (Hp _ B1). pose proof (Hp _ B2). pose proof (Hp _ B3). pose proof (Hp _ B4).
  unfold fscalar. rewrite !u128_small by lia.
  set (t := Limbs (l0 b * s) (l1 b * s) (l2 b * s) (l3 b * s) (l4 b * s)).
  assert (Ht : limbs_le ((2 ^ 54 + 2 ^ 51 + 2 ^ 26) * 2 ^ 20) t) by (unfold limbs_le, t; cbn [l0 l1 l2 l3 l4]; lia).
  destruct (carry_wide_spec t) as (q & He & Hl & Hq & Hqb); [eapply limbs_le_mono; [|exact Ht]; lia|].
  cbn zeta in *. set (w := fproduct_carry_wide_ t) in *.
  assert (Hw4 : 0 <= l4 w <= 2 ^ 75) by (destruct Ht as (_ & _ & _ & _ & ?); lia).
  assert (Hc : 0 <= l4 w / 2 ^ 51 <= 2 ^ 24).
  { split; [apply Z.div_pos; lia|]. apply Z.div_le_upper_bound; lia. }
  destruct (reduce_top_spec w Hl ltac:(lia) ltac:(lia)) as (Hr & (_ & L1 & L2 & L3 & L4) & Hr0).
  cbn [l0 l1 l2 l3 l4] in *. split.
  - rewrite Hr, He. unfold feval, t. cbn [l0 l1 l2 l3 l4]. apply eqp_iff. f_equal. ring.
  - unfold limbs_le, mask51 in *. lia.
Qed.

(** ** Conditional swaps *)

Lemma word_bits_high a n : 0 <= a < 2 ^ 64 → 64 <= n → Z.testbit a n = false.
Proof. intros Ha Hn. rewrite <- (Z.mod_small a (2 ^ 64)) by done. apply Z.mod_pow2_bits_high. lia. Qed.

Lemma land_ones_lxor a b : 0 <= a < 2 ^ 64 → 0 <= b < 2 ^ 64 → Z.ones 64 .& (a .^ b) = a .^ b.
Proof.
  intros Ha Hb. apply Z.bits_inj'. intros n Hn. rewrite Z.land_spec, Z.lxor_spec.
  destruct (Z.lt_ge_cases n 64) as [Hlt|Hge].
  - by rewrite Z.ones_spec_low by lia.
  - by rewrite !word_bits_high, andb_false_r by done.
Qed.

Lemma swap_step b x y :
  0 <= x < 2 ^ 64 → 0 <= y < 2 ^ 64 →
  point_swap_conditional_step (u64 (0 - c_bool b)) x y = if b then (y, x) else (x, y).
Proof.
  intros Hx Hy. unfold point_swap_conditional_step. destruct b; cbn [c_bool].
  - change (u64 (0 - 1)) with (Z.ones 64). rewrite land_ones_lxor by done.
    rewrite <- Z.lxor_assoc, Z.lxor_nilpotent, Z.lxor_0_l.
    rewrite (Z.lxor_comm x y), <- Z.lxor_assoc, Z.lxor_nilpotent, Z.lxor_0_l. done.
  - change (u64 (0 - 0)) with 0. by rewrite Z.land_0_l, !Z.lxor_0_r.
Qed.

Definition words (f : felem) : Prop := limbs_le (2 ^ 64 - 1) f.
Lemma tight_words f : tight f → words f.
Proof. apply limbs_le_mono. unfold TIGHT. lia. Qed.

Lemma swap5 b f g :
  words f → words g → point_swap_conditional5 f g (u64 (0 - c_bool b)) = if b then (g, f) else (f, g).
Proof.
  intros (F0 & F1 & F2 & F3 & F4) (G0 & G1 & G2 & G3 & G4). unfold point_swap_conditional5.
  rewrite !swap_step by lia. destruct f, g, b; done.
Qed.

Lemma swap_points b (p q : point) :
  words p.1 → words p.2 → words q.1 → words q.2 →
  point_swap_conditional p q (c_bool b) = if b then (q, p) else (p, q).
Proof.
  intros. unfold point_swap_conditional. rewrite !swap5 by done. destruct p, q, b; done.
Qed.

(** ** One step of the ladder *)

(** The points stand for a state of the reference ladder. *)
Definition stands (nq nqpq : point) (s : ladder_state) : Prop :=
  (tight nq.1 ∧ tight nq.2 ∧ tight nqpq.1 ∧ tight nqpq.2) ∧
  feval nq.1 ≡p x_2 s ∧ feval nq.2 ≡p z_2 s ∧ feval nqpq.1 ≡p x_3 s ∧ feval nqpq.2 ≡p z_3 s.

Lemma fsum_tight a b : tight a → tight b → feval (fsum a b) = feval a + feval b ∧ loose (fsum a b).
Proof.
  intros Ha Hb. split.
  - apply fsum_spec; (eapply limbs_le_mono; [|done]); unfold TIGHT; lia.
  - eapply limbs_le_mono; [|apply fsum_le; [exact Ha|exact Hb|]]; unfold TIGHT, LOOSE; lia.
Qed.

Lemma fsquare_1 a : loose a → feval (fsquare_fsquare_times a 1) ≡p feval a * feval a ∧ tight (fsquare_fsquare_times a 1).
Proof. apply fsquare_spec. Qed.

Lemma addanddouble_spec nq nqpq q x_1 s :
  stands nq nqpq s → tight q → feval q ≡p x_1 →
  let r := addanddouble_fmonty nq nqpq q in stands r.1 r.2 (ladder_step x_1 s).
Proof.
  destruct nq as [x z], nqpq as [x' z']. intros ((Tx & Tz & Tx' & Tz') & Ex & Ez & Ex' & Ez') Tq Eq.
  cbn [fst snd] in *. unfold addanddouble_fmonty. cbv zeta. cbn [fst snd].
  destruct (fsum_tight x z Tx Tz) as [EA LA]. set (A := fsum x z) in *.
  destruct (fdifference_spec z x Tz Tx) as [EB LB]. set (B := fdifference z x) in *.
  destruct (fsum_tight x' z' Tx' Tz') as [EC LC]. set (C := fsum x' z') in *.
  destruct (fdifference_spec z' x' Tz' Tx') as [ED LD]. set (D := fdifference z' x') in *.
  destruct (fmul_spec C B LC LB) as [ECB TCB]. set (CB := fmul C B) in *.
  destruct (fmul_spec A D LA LD) as [EDA TDA]. set (DA := fmul A D) in *.
  destruct (fsum_tight CB DA TCB TDA) as [ES LS]. set (S := fsum CB DA) in *.
  destruct (fdifference_spec DA CB TDA TCB) as [EM LM]. set (M := fdifference DA CB) in *.
  destruct (fsquare_1 S LS) as [E3 T3]. set (x3 := fsquare_fsquare_times S 1) in *.
  destruct (fsquare_1 M LM) as [EM2 TM2]. set (M2 := fsquare_fsquare_times M 1) in *.
  destruct (fmul_spec M2 q (tight_loose _ TM2) (tight_loose _ Tq)) as [EZ3 TZ3].
  destruct (fsquare_1 A LA) as [EAA TAA]. set (AA := fsquare_fsquare_times A 1) in *.
  destruct (fsquare_1 B LB) as [EBB TBB]. set (BB := fsquare_fsquare_times B 1) in *.
  destruct (fmul_spec AA BB (tight_loose _ TAA) (tight_loose _ TBB)) as [EX2 TX2].
  destruct (fdifference_spec BB AA TBB TAA) as [EE LE]. set (E := fdifference BB AA) in *.
  destruct (fscalar_spec E 121665 LE ltac:(lia)) as [EF LF]. set (F := fscalar E 121665) in *.
  assert (EG : feval (fsum F AA) = feval F + feval AA).
  { apply fsum_spec; (eapply limbs_le_mono; [|eassumption]); unfold TIGHT; lia. }
  assert (LG : loose (fsum F AA)).
  { eapply limbs_le_mono; [|apply fsum_le; [exact LF|exact TAA|]]; unfold TIGHT, LOOSE; lia. }
  set (G := fsum F AA) in *. destruct (fmul_spec G E LG LE) as [EZ2 TZ2].
  split; [done|]. cbn [ladder_step x_2 z_2 x_3 z_3]. rewrite !eqp_mod. split_and!.
  - rewrite EX2, EAA, EBB, EA, EB, Ex, Ez. done.
  - rewrite EZ2, EG, EF, EE, EAA, EBB, EA, EB, Ex, Ez. unfold a24. apply eqp_iff. f_equal. ring.
  - rewrite E3, ES, ECB, EDA, EA, EB, EC, ED, Ex, Ez, Ex', Ez'. apply eqp_iff. f_equal. ring.
  - rewrite EZ3, EM2, EM, ECB, EDA, EA, EB, EC, ED, Ex, Ez, Ex', Ez', Eq. apply eqp_iff. f_equal. ring.
Qed.

(** ** The loops over the scalar *)

Lemma stands_swap b nq nqpq s :
  stands nq nqpq s →
  let r := point_swap_conditional nq nqpq (c_bool b) in stands r.1 r.2 (cswap b s).
Proof.
  intros ((T1 & T2 & T3 & T4) & E). cbv zeta.
  rewrite swap_points by by apply tight_words. destruct b; split; simpl in *; tauto.
Qed.

Lemma byte_bit7 b : 0 <= b < 256 → b .>> 7 = c_bool (Z.testbit b 7).
Proof. intros Hb. rewrite Z.testbit_odd. revert b Hb. apply (Z_range_eq (λ b, b .>> 7) (λ b, c_bool (Z.odd (b .>> 7))) 0 256). vm_compute. reflexivity. Qed.

Lemma ladder_step_spec nq nqpq q x_1 s byt :
  stands nq nqpq s → tight q → feval q ≡p x_1 → 0 <= byt < 256 →
  let r := ladder_smallloop_cmult_small_loop_step nq nqpq q byt in
  stands r.1 r.2 (ladder_bit x_1 (Z.testbit byt 7) s).
Proof.
  intros Hs Tq Eq Hb. unfold ladder_smallloop_cmult_small_loop_step. cbv zeta. rewrite byte_bit7 by done.
  pose proof (stands_swap (Z.testbit byt 7) nq nqpq s Hs) as H1. cbv zeta in H1.
  destruct (point_swap_conditional nq nqpq _) as [a b]. cbn [fst snd] in H1.
  pose proof (addanddouble_spec a b q x_1 _ H1 Tq Eq) as H2. cbv zeta in H2.
  destruct (addanddouble_fmonty a b q) as [c d]. cbn [fst snd] in H2.
  exact (stands_swap (Z.testbit byt 7) c d _ H2).
Qed.

Lemma u8_shl_bit b i j n : 0 <= i → 0 <= j → n = i + j → n <= 7 → Z.testbit (u8 (b .<< i)) n = Z.testbit b j.
Proof.
  intros Hi Hj -> Hij. unfold u8. rewrite Z.mod_pow2_bits_low by lia.
  rewrite Z.shiftl_spec by lia. f_equal. lia.
Qed.

Lemma u8_shl_shl b i j : 0 <= i → 0 <= j → u8 (u8 (b .<< i) .<< j) = u8 (b .<< (i + j)).
Proof.
  intros Hi Hj. unfold u8. rewrite !Z.shiftl_mul_pow2, Z.pow_add_r by lia.
  rewrite Z.mul_assoc. apply Z.mul_mod_idemp_l. lia.
Qed.

(** The eight bits of a byte, from the top. *)
Definition ladder_byte (x_1 b : Z) (s : ladder_state) : ladder_state :=
  let step i s := ladder_bit x_1 (Z.testbit b i) s in
  step 0 (step 1 (step 2 (step 3 (step 4 (step 5 (step 6 (step 7 s))))))).

Lemma double_step_spec nq nqpq q x_1 s byt :
  stands nq nqpq s → tight q → feval q ≡p x_1 → 0 <= byt < 256 →
  let r := ladder_smallloop_cmult_small_loop_double_step nq nqpq q byt in
  stands r.1 r.2 (ladder_bit x_1 (Z.testbit byt 6) (ladder_bit x_1 (Z.testbit byt 7) s)).
Proof.
  intros Hs Tq Eq Hb. unfold ladder_smallloop_cmult_small_loop_double_step. cbv zeta.
  pose proof (ladder_step_spec nq nqpq q x_1 s byt Hs Tq Eq Hb) as H1. cbv zeta in H1.
  destruct (ladder_smallloop_cmult_small_loop_step nq nqpq q byt) as [a b]. cbn [fst snd] in H1.
  pose proof (ladder_step_spec a b q x_1 _ (u8 (byt .<< 1)) H1 Tq Eq (u8_range _)) as H2. cbv zeta in H2.
  by rewrite (u8_shl_bit byt 1 6 7) in H2 by lia.
Qed.

Lemma small_loop_spec nq nqpq q x_1 s byt :
  stands nq nqpq s → tight q → feval q ≡p x_1 → 0 <= byt < 256 →
  let r := ladder_smallloop_cmult_small_loop 4 nq nqpq q byt in stands r.1 r.2 (ladder_byte x_1 byt s).
Proof.
  intros Hs Tq Eq Hb. cbv zeta. cbn [ladder_smallloop_cmult_small_loop].
  pose proof (double_step_spec nq nqpq q x_1 s byt Hs Tq Eq Hb) as H1. cbv zeta in H1.
  destruct (ladder_smallloop_cmult_small_loop_double_step nq nqpq q byt) as [a1 b1]. cbn [fst snd] in H1.
  pose proof (double_step_spec a1 b1 q x_1 _ _ H1 Tq Eq (u8_range (byt .<< 2))) as H2. cbv zeta in H2.
  destruct (ladder_smallloop_cmult_small_loop_double_step a1 b1 q _) as [a2 b2]. cbn [fst snd] in H2.
  pose proof (double_step_spec a2 b2 q x_1 _ _ H2 Tq Eq (u8_range (u8 (byt .<< 2) .<< 2))) as H3. cbv zeta in H3.
  destruct (ladder_smallloop_cmult_small_loop_double_step a2 b2 q _) as [a3 b3]. cbn [fst snd] in H3.
  pose proof (double_step_spec a3 b3 q x_1 _ _ H3 Tq Eq (u8_range (u8 (u8 (byt .<< 2) .<< 2) .<< 2))) as H4. cbv zeta in H4.
  destruct (ladder_smallloop_cmult_small_loop_double_step a3 b3 q _) as [a4 b4]. cbn [fst snd] in *.
  rewrite !u8_shl_shl in H4 by lia. change (2 + (2 + 2)) with 6 in H4. change (2 + 2 + 2) with 6 in H4. change (2 + 2) with 4 in H4.
  rewrite (u8_shl_bit byt 6 1 7), (u8_shl_bit byt 6 0 6), (u8_shl_bit byt 4 3 7), (u8_shl_bit byt 4 2 6),
    (u8_shl_bit byt 2 5 7), (u8_shl_bit byt 2 4 6) in H4 by lia.
  exact H4.
Qed.

Lemma ladder_byte_spec x_1 n1 i s :
  all_bytes n1 = true → (i < length n1)%nat →
  ladder x_1 (le_value n1) (8 * i) (ladder_byte x_1 (at_ n1 i) s) = ladder x_1 (le_value n1) (8 * S i) s.
Proof.
  intros Hb Hi. replace (8 * S i)%nat with (S (S (S (S (S (S (S (S (8 * i)))))))))%nat by lia. cbn [ladder].
  unfold ladder_byte. f_equal.
  assert (Hbit : ∀ m n, (n < 8)%nat → m = Z.of_nat n →
    Z.testbit (le_value n1) (Z.of_nat (n + 8 * i)) = Z.testbit (at_ n1 i) m).
  { intros m n Hn ->. rewrite <- (le_value_testbit n1 i) by (done || lia). f_equal. lia. }
  rewrite <- (Hbit 0 0%nat), <- (Hbit 1 1%nat), <- (Hbit 2 2%nat), <- (Hbit 3 3%nat), <- (Hbit 4 4%nat),
    <- (Hbit 5 5%nat), <- (Hbit 6 6%nat), <- (Hbit 7 7%nat) by lia. done.
Qed.

Lemma big_loop_spec i n1 nq nqpq q x_1 s :
  all_bytes n1 = true → (i <= length n1)%nat → stands nq nqpq s → tight q → feval q ≡p x_1 →
  let r := ladder_bigloop_cmult_big_loop i n1 nq nqpq q in
  stands r.1 r.2 (ladder x_1 (le_value n1) (8 * i) s).
Proof.
  intros Hb Hi Hs Tq Eq. cbv zeta. revert nq nqpq s Hi Hs. induction i as [|i IH]; intros nq nqpq s Hi Hs.
  { exact Hs. }
  cbn [ladder_bigloop_cmult_big_loop]. cbv zeta.
  pose proof (small_loop_spec nq nqpq q x_1 s (at_ n1 i) Hs Tq Eq (all_bytes_at n1 i Hb)) as H1. cbv zeta in H1.
  destruct (ladder_smallloop_cmult_small_loop 4 nq nqpq q (at_ n1 i)) as [a b]. cbn [fst snd] in H1.
  rewrite <- ladder_byte_spec by (done || lia). apply IH; [lia|done].
Qed.

(** ** Reading the coordinate *)

Lemma limb_of_word x k s :
  0 <= s <= 13 → s <= k → ((x / 2 ^ (k - s)) mod 2 ^ 64 .>> s) .& mask51 = x / 2 ^ k mod 2 ^ 51.
Proof.
  intros Hs Hk. rewrite mask51_mod, Z.shiftr_div_pow2 by lia.
  replace (2 ^ k) with (2 ^ (k - s) * 2 ^ s) by (rewrite <- Z.pow_add_r by lia; f_equal; lia).
  rewrite <- Z.div_div by lia. set (y := x / 2 ^ (k - s)).
  replace (2 ^ 64) with (2 ^ s * 2 ^ (64 - s)) by (rewrite <- Z.pow_add_r by lia; f_equal; lia).
  rewrite Z.rem_mul_r by lia. rewrite Z.mul_comm, Z.div_add by lia.
  rewrite (Z.div_small (y mod 2 ^ s)) by (apply Z.mod_pos_bound; lia). rewrite Z.add_0_l.
  replace (2 ^ (64 - s)) with (2 ^ 51 * 2 ^ (13 - s)) by (rewrite <- Z.pow_add_r by lia; f_equal; lia).
  rewrite Z.rem_mul_r by lia. rewrite Z.mul_comm, Z.mod_add by lia. apply Zmod_mod.
Qed.

Lemma fexpand_spec b :
  all_bytes b = true → length b = 32%nat →
  feval (format_fexpand b) = le_value b mod 2 ^ 255 ∧ limbs_le mask51 (format_fexpand b).
Proof.
  intros Hb Hl. set (V := le_value b).
  assert (Hw : ∀ off k s, 8 * Z.of_nat off = k - s → (off + 8 <= 32)%nat → 0 <= s <= 13 → s <= k →
    (get_unaligned_le64 b off .>> s) .& mask51 = V / 2 ^ k mod 2 ^ 51).
  { intros off k s Ho Hoff Hs Hk. unfold get_unaligned_le64. rewrite le_value_slice by (done || lia).
    change 256 with (2 ^ 8). rewrite <- !Z.pow_mul_r, Ho by lia. change (8 * Z.of_nat 8) with 64. by apply limb_of_word. }
  pose proof (Hw 0%nat 0 0 eq_refl ltac:(lia) ltac:(lia) ltac:(lia)) as W0. rewrite Z.shiftr_0_r, Z.div_1_r in W0.
  unfold format_fexpand. rewrite W0, (Hw 6%nat 51 3), (Hw 12%nat 102 6), (Hw 19%nat 153 1), (Hw 24%nat 204 12) by lia.
  unfold feval, limbs_le, mask51. cbn [l0 l1 l2 l3 l4].
  assert (Hm : ∀ x, 0 <= x mod 2 ^ 51 <= 0x7ffffffffffff) by (intros x; pose proof (Z.mod_pos_bound x (2 ^ 51) ltac:(lia)); lia).
  split; [|auto 10]. 
  assert (Hs : ∀ k, 0 <= k → V / 2 ^ k = 2 ^ 51 * (V / 2 ^ (k + 51)) + V / 2 ^ k mod 2 ^ 51).
  { intros k Hk. rewrite Z.pow_add_r, <- Z.div_div by lia. apply Z.div_mod. lia. }
  pose proof (Hs 0 ltac:(lia)) as S0. rewrite Z.div_1_r in S0. pose proof (Hs 51 ltac:(lia)) as S1.
  pose proof (Hs 102 ltac:(lia)) as S2. pose proof (Hs 153 ltac:(lia)) as S3. pose proof (Hs 204 ltac:(lia)) as S4.
  change (0 + 51) with 51 in S0. change (51 + 51) with 102 in S1. change (102 + 51) with 153 in S2.
  change (153 + 51) with 204 in S3. change (204 + 51) with 255 in S4.
  pose proof (Hm V). pose proof (Hm (V / 2 ^ 51)). pose proof (Hm (V / 2 ^ 102)). pose proof (Hm (V / 2 ^ 153)).
  pose proof (Hm (V / 2 ^ 204)). clear Hs Hm Hw W0. clearbody V.
  generalize dependent (V mod 2 ^ 51). generalize dependent (V / 2 ^ 51 mod 2 ^ 51).
  generalize dependent (V / 2 ^ 102 mod 2 ^ 51). generalize dependent (V / 2 ^ 153 mod 2 ^ 51).
  generalize dependent (V / 2 ^ 204 mod 2 ^ 51). intros.
  apply (Z.mod_unique_pos _ _ (V / 2 ^ 255)); [lia|].
  generalize dependent (V / 2 ^ 255). generalize dependent (V / 2 ^ 204). generalize dependent (V / 2 ^ 153).
  generalize dependent (V / 2 ^ 102). generalize dependent (V / 2 ^ 51). intros. lia.
Qed.

(** ** Writing the result *)

(** One pass of carries, as linear equations. *)
Lemma carry_pass_spec f :
  limbs_le (2 ^ 52) f →
  let r := format_fcontract_first_carry_pass f in
  ∃ c0 c1 c2 c3, 0 <= c0 ∧ 0 <= c1 ∧ 0 <= c2 ∧ 0 <= c3 ∧
    l0 f = 2 ^ 51 * c0 + l0 r ∧ l1 f + c0 = 2 ^ 51 * c1 + l1 r ∧ l2 f + c1 = 2 ^ 51 * c2 + l2 r ∧
    l3 f + c2 = 2 ^ 51 * c3 + l3 r ∧ l4 f + c3 = l4 r ∧
    limbs_le mask51 (Limbs (l0 r) (l1 r) (l2 r) (l3 r) 0).
Proof.
  destruct f as [t0 t1 t2 t3 t4]. intros (H0 & H1 & H2 & H3 & H4). cbn [l0 l1 l2 l3 l4] in *.
  unfold format_fcontract_first_carry_pass. cbv zeta. cbn [l0 l1 l2 l3 l4]. rewrite !mask51_mod, !shr51_div.
  destruct (carry51 t0 ltac:(lia)) as (E0 & R0 & Q0). set (c0 := t0 / 2 ^ 51) in *. set (m0 := t0 mod 2 ^ 51) in *.
  rewrite (u64_small (t1 + c0)) by lia.
  destruct (carry51 (t1 + c0) ltac:(lia)) as (E1 & R1 & Q1). set (c1 := (t1 + c0) / 2 ^ 51) in *. set (m1 := (t1 + c0) mod 2 ^ 51) in *.
  rewrite (u64_small (t2 + c1)) by lia.
  destruct (carry51 (t2 + c1) ltac:(lia)) as (E2 & R2 & Q2). set (c2 := (t2 + c1) / 2 ^ 51) in *. set (m2 := (t2 + c1) mod 2 ^ 51) in *.
  rewrite (u64_small (t3 + c2)) by lia.
  destruct (carry51 (t3 + c2) ltac:(lia)) as (E3 & R3 & Q3). set (c3 := (t3 + c2) / 2 ^ 51) in *. set (m3 := (t3 + c2) mod 2 ^ 51) in *.
  rewrite (u64_small (t4 + c3)) by lia.
  exists c0, c1, c2, c3. clearbody c0 c1 c2 c3 m0 m1 m2 m3. unfold limbs_le, mask51 in *. cbn [l0 l1 l2 l3 l4]. lia.
Qed.

Lemma carry_top_spec f :
  limbs_le (2 ^ 53) f → let r := modulo_carry_top f in
  ∃ c, 0 <= c ∧ l4 f = 2 ^ 51 * c + l4 r ∧ l0 r = l0 f + 19 * c ∧ 0 <= l4 r <= mask51 ∧
    l1 r = l1 f ∧ l2 r = l2 f ∧ l3 r = l3 f.
Proof.
  destruct f as [t0 t1 t2 t3 t4]. intros (H0 & H1 & H2 & H3 & H4). cbn [l0 l1 l2 l3 l4] in *.
  unfold modulo_carry_top. cbn [l0 l1 l2 l3 l4]. cbv zeta. rewrite mask51_mod, shr51_div.
  destruct (carry51 t4 ltac:(lia)) as (E4 & R4 & Q4). set (c := t4 / 2 ^ 51) in *. set (m := t4 mod 2 ^ 51) in *.
  exists c. clearbody c m. rewrite (u64_small (19 * c)), u64_small by (unfold mask51 in *; lia).
  unfold mask51 in *. lia.
Qed.

(** Two full passes leave limbs below 2^51, of the same value modulo the prime. *)
Lemma carries_spec f :
  tight f → let r := format_fcontract_second_carry_full (format_fcontract_first_carry_full f) in
  feval r ≡p feval f ∧ limbs_le mask51 r.
Proof.
  intros Hf. cbv zeta. unfold format_fcontract_first_carry_full, format_fcontract_second_carry_full, format_fcontract_second_carry_pass.
  assert (Hf' : limbs_le (2 ^ 52) f) by (eapply limbs_le_mono; [|exact Hf]; unfold TIGHT; lia).
  destruct (carry_pass_spec f Hf') as (a0 & a1 & a2 & a3 & ? & ? & ? & ? & A0 & A1 & A2 & A3 & A4 & AL).
  set (f1 := format_fcontract_first_carry_pass f) in *. unfold tight, limbs_le, TIGHT, mask51 in *. cbn [l0 l1 l2 l3 l4] in *.
  destruct (carry_top_spec f1) as (c & ? & C4 & C0 & CL & C1 & C2 & C3); [unfold limbs_le; lia|].
  set (f2 := modulo_carry_top f1) in *. unfold mask51 in *.
  assert (Hc : c <= 1) by lia.
  destruct (carry_pass_spec f2) as (b0 & b1 & b2 & b3 & ? & ? & ? & ? & B0 & B1 & B2 & B3 & B4 & BL); [unfold limbs_le; lia|].
  set (f3 := format_fcontract_first_carry_pass f2) in *. unfold limbs_le, mask51 in *. cbn [l0 l1 l2 l3 l4] in *.
  destruct (carry_top_spec f3) as (d & ? & D4 & D0 & DL & D1 & D2 & D3); [unfold limbs_le; lia|].
  set (f4 := modulo_carry_top f3) in *. unfold mask51 in *.
  assert (Hb0 : b0 <= 1) by lia. assert (Hb1 : b1 <= b0) by lia. assert (Hb2 : b2 <= b1) by lia.
  assert (Hb3 : b3 <= b2) by lia. assert (Hd : d <= b3) by lia.
  assert (L0 : 0 <= l0 f4 <= 0x7ffffffffffff) by lia.
  assert (E : carry_0_1 f4 = f4).
  { unfold carry_0_1. rewrite mask51_mod, shr51_div, Z.mod_small, Z.div_small, Z.add_0_r, u64_small by lia. by destruct f4. }
  rewrite E. split; [|lia]. apply (eqp_multiple _ _ (- c - d)). unfold feval, P25519. lia.
Qed.

(** The masks are all ones or all zeros. *)
Lemma word_xor_range a b : 0 <= a < 2 ^ 64 → 0 <= b < 2 ^ 64 → 0 <= a .^ b < 2 ^ 64.
Proof.
  intros Ha Hb. rewrite <- (land_ones_lxor a b Ha Hb), Z.land_comm, Z.land_ones by lia. apply Z.mod_pos_bound. lia.
Qed.

Lemma top_bit x : 0 <= x < 2 ^ 64 → x / 2 ^ 63 = if 2 ^ 63 <=? x then 1 else 0.
Proof.
  intros Hx. destruct (Z.leb_spec (2 ^ 63) x).
  - symmetry. apply (Z.div_unique_pos x (2 ^ 63) 1 (x - 2 ^ 63)); lia.
  - apply Z.div_small. lia.
Qed.

Lemma eq_mask_spec a b :
  0 <= a < 2 ^ 64 → 0 <= b < 2 ^ 64 → u64_eq_mask a b = if a =? b then Z.ones 64 else 0.
Proof.
  intros Ha Hb. unfold u64_eq_mask. cbv zeta. destruct (Z.eqb_spec a b) as [->|Hne].
  { by rewrite Z.lxor_nilpotent. }
  pose proof (word_xor_range a b Ha Hb) as Hx. assert (Hx0 : a .^ b ≠ 0) by (intros H%Z.lxor_eq; done).
  set (x := a .^ b) in *. clearbody x.
  assert (Hm : u64 (u64 (~~ x) + 1) = 2 ^ 64 - x).
  { unfold u64, Z.lnot. rewrite Z.add_mod_idemp_l by lia. symmetry. apply (Z.mod_unique_pos _ _ (-1)); lia. }
  rewrite Hm, Z.shiftr_lor, !Z.shiftr_div_pow2 by lia.
  rewrite !top_bit by lia. destruct (Z.leb_spec (2 ^ 63) x), (Z.leb_spec (2 ^ 63) (2 ^ 64 - x)); try done. lia.
Qed.

Lemma gte_mask_spec a b :
  0 <= a < 2 ^ 63 → 0 <= b < 2 ^ 63 → u64_gte_mask a b = if b <=? a then Z.ones 64 else 0.
Proof.
  intros Ha Hb. unfold u64_gte_mask. cbv zeta. rewrite Z.shiftr_lxor, Z.shiftr_lor, !Z.shiftr_lxor, !Z.shiftr_div_pow2 by lia.
  rewrite (Z.div_small a), (Z.div_small b) by lia. cbn [Z.lxor Z.lor]. rewrite Z.lxor_0_r.
  destruct (Z.leb_spec b a).
  - rewrite (u64_small (a - b)), (Z.div_small (a - b)) by lia. reflexivity.
  - assert (u64 (a - b) = 2 ^ 64 + (a - b)) as ->.
    { unfold u64. symmetry. apply (Z.mod_unique_pos _ _ (-1)); lia. }
    rewrite top_bit by lia. destruct (Z.leb_spec (2 ^ 63) (2 ^ 64 + (a - b))); [reflexivity|lia].
Qed.

(** ** Formats, out *)

(** The number of a reduced element is below [2 ^ 255]; [format_fcontract_trim]
    subtracts the prime exactly when the number is at least the prime. *)
Lemma trim_spec f :
  limbs_le mask51 f →
  let g := format_fcontract_trim f in
  feval g = feval f mod P25519 ∧ limbs_le mask51 g.
Proof.
  intros Hf. cbv zeta. unfold limbs_le in Hf. unfold format_fcontract_trim. cbv zeta.
  rewrite gte_mask_spec, !eq_mask_spec by (unfold mask51 in *; lia).
  set (m := (((_ .& _) .& _) .& _) .& _).
  assert (Hm : (m = Z.ones 64 ∧ P25519 <= feval f) ∨ (m = 0 ∧ feval f < P25519)).
  { unfold m, feval, P25519, mask51 in *. clear m.
    destruct (Z.leb_spec 0x7ffffffffffed (l0 f)), (Z.eqb_spec (l1 f) 0x7ffffffffffff), (Z.eqb_spec (l2 f) 0x7ffffffffffff),
      (Z.eqb_spec (l3 f) 0x7ffffffffffff), (Z.eqb_spec (l4 f) 0x7ffffffffffff);
      (left; split; [reflexivity|lia]) || (right; split; [reflexivity|lia]). }
  clearbody m. destruct Hm as [[-> Hv]|[-> Hv]].
  - assert (H1 : l0 f >= 0x7ffffffffffed ∧ l1 f = mask51 ∧ l2 f = mask51 ∧ l3 f = mask51 ∧ l4 f = mask51)
      by (unfold feval, P25519, mask51 in *; lia).
    change (mask51 .& Z.ones 64) with mask51. change (0x7ffffffffffed .& Z.ones 64) with 0x7ffffffffffed.
    rewrite !u64_small by (unfold mask51 in *; lia). split; [|unfold limbs_le, mask51 in *; cbn [l0 l1 l2 l3 l4]; lia].
    apply (Z.mod_unique_pos _ _ 1); unfold feval, P25519, mask51 in *; cbn [l0 l1 l2 l3 l4]; lia.
  - rewrite !Z.land_0_r, !Z.sub_0_r, !u64_small by (unfold mask51 in *; lia).
    split; [|by unfold limbs_le]. rewrite Z.mod_small; [done|]. unfold feval in *. lia.
Qed.

(** A word of the output: the low bits of one limb above the high bits of the one
    before it. *)
Lemma store_word x y s :
  0 <= s <= 64 → 0 <= y < 2 ^ s → u64 (x .<< s) .| y = (x mod 2 ^ (64 - s)) * 2 ^ s + y.
Proof.
  intros Hs Hy. rewrite Z.shiftl_mul_pow2 by lia. unfold u64.
  replace (2 ^ 64) with (2 ^ (64 - s) * 2 ^ s) by (rewrite <- Z.pow_add_r by lia; f_equal; lia).
  rewrite Z.mul_mod_distr_r by (apply Z.pow_nonzero; lia).
  by rewrite <- Z.shiftl_mul_pow2, lor_shift_add, Z.shiftl_mul_pow2 by lia.
Qed.

Lemma store_spec f : limbs_le mask51 f → format_fcontract_store f = le_bytes 32 (feval f).
Proof.
  intros Hf. unfold limbs_le, mask51 in Hf. unfold format_fcontract_store, put_unaligned_le64. cbv zeta.
  rewrite !Z.shiftr_div_pow2 by lia.
  pose proof (Z.div_mod (l1 f) (2 ^ 13) ltac:(lia)) as D1. pose proof (Z.mod_pos_bound (l1 f) (2 ^ 13) ltac:(lia)) as M1.
  pose proof (Z.div_mod (l2 f) (2 ^ 26) ltac:(lia)) as D2. pose proof (Z.mod_pos_bound (l2 f) (2 ^ 26) ltac:(lia)) as M2.
  pose proof (Z.div_mod (l3 f) (2 ^ 39) ltac:(lia)) as D3. pose proof (Z.mod_pos_bound (l3 f) (2 ^ 39) ltac:(lia)) as M3.
  rewrite !store_word by lia.
  change (64 - 51) with 13. change (64 - 38) with 26. change (64 - 25) with 39. change (64 - 12) with 52.
  rewrite (Z.mod_small (l4 f)) by lia.
  set (r1 := l1 f mod 2 ^ 13) in *. set (q1 := l1 f / 2 ^ 13) in *. set (r2 := l2 f mod 2 ^ 26) in *.
  set (q2 := l2 f / 2 ^ 26) in *. set (r3 := l3 f mod 2 ^ 39) in *. set (q3 := l3 f / 2 ^ 39) in *.
  clearbody r1 q1 r2 q2 r3 q3.
  rewrite (le_bytes_cat 8 8), (le_bytes_cat 8 16), (le_bytes_cat 8 24) by (simpl Z.of_nat; lia).
  f_equal. unfold feval. simpl Z.of_nat. lia.
Qed.

Lemma fcontract_spec f : tight f → format_fcontract f = le_bytes 32 (feval f mod P25519).
Proof.
  intros Hf. destruct (carries_spec f Hf) as [He Hl]. unfold format_fcontract.
  set (g := format_fcontract_second_carry_full _) in *. destruct (trim_spec g Hl) as [Ht Htl].
  rewrite (store_spec _ Htl), Ht. f_equal. by apply eqp_iff.
Qed.

(** ** The function *)

Lemma hacl64_generic_x25519 secret basepoint :
  all_bytes secret = true → length secret = 32%nat → all_bytes basepoint = true → length basepoint = 32%nat →
  curve25519_generic secret basepoint = x25519 secret basepoint.
Proof.
  intros Hs Ls Hb Lb. unfold curve25519_generic, format_scalar_of_point, ladder_cmult, x25519, x25519_value. cbv zeta. cbn [fst].
  destruct (fexpand_spec basepoint Hb Lb) as [Ee Te].
  assert (Tb : tight (format_fexpand basepoint)) by (eapply limbs_le_mono; [|exact Te]; done).
  set (x_1 := le_value basepoint mod 2 ^ 255) in *.
  pose proof (big_loop_spec 32 (curve25519_clamp_secret secret) (felem_one, felem_zero) (format_fexpand basepoint, felem_one)
    (format_fexpand basepoint) x_1 (ladder_start x_1)) as H.
  cbv zeta in H. destruct (ladder_bigloop_cmult_big_loop _ _ _ _ _) as [[x z] nqpq]. cbn [fst snd] in H.
  destruct H as ((Tx & Tz & _ & _) & Ex & Ez & _ & _); [by apply clamp_bytes|rewrite clamp_length; lia| |done|by rewrite Ee|].
  { unfold stands. cbn [fst snd ladder_start x_2 z_2 x_3 z_3]. rewrite Ee. split; [|done].
    repeat split; try apply Tb; cbn; unfold TIGHT; lia. }
  rewrite <- ladder_256 by (by apply clamp_top_bit).
  change (8 * 32)%nat with 256%nat in *. cbn [fst snd] in *. set (s := ladder _ _ _ _) in *. clearbody s.
  destruct (crecip_spec z Tz) as [Er Tr]. destruct (fmul_spec x (crecip z) (tight_loose _ Tx) (tight_loose _ Tr)) as [Em Tm].
  rewrite fcontract_spec by done. f_equal. unfold ladder_result. apply eqp_iff. rewrite Em, Er, Ex, Ez.
  rewrite Zpow_mod_correct by done. by rewrite eqp_mod.
Qed.

(** C2: the 64-bit implementation of [curve25519] computes the X25519 function of
    RFC 7748 on every secret and every coordinate of 32 bytes: no limb
    operation overflows, the ladder follows the reference ladder bit by bit,
    and the bytes stored are the reduced little-endian coordinate; so
    [curve25519_generate_public] is X25519 at the base point 9. *)
Theorem curve25519_computes_x25519 secret basepoint :
  all_bytes secret = true → length secret = CURVE25519_KEY_SIZE →
  all_bytes basepoint = true → length basepoint = CURVE25519_KEY_SIZE →
  curve25519 secret basepoint = x25519 secret basepoint ∧
  curve25519_generate_public secret = x25519 secret (9 :: replicate 31 0).
Proof.
  intros Hs Ls Hb Lb. unfold curve25519_generate_public, curve25519, basepoint9.
  by rewrite !hacl64_generic_x25519.
Qed.

Lemma curve25519_computes_x25519_witness :
  curve25519 (replicate 32 0x5a) (replicate 32 0xff) = x25519 (replicate 32 0x5a) (replicate 32 0xff) ∧
  curve25519_generate_public (replicate 32 0x5a) = x25519 (replicate 32 0x5a) (9 :: replicate 31 0).
Proof. exact (curve25519_computes_x25519 (replicate 32 0x5a) (replicate 32 0xff) eq_refl eq_refl eq_refl eq_refl). Defined.
