(* ===== verification/CurveFiat32.v ===== *)
(** * CurveFiat32: curve25519-fiat32.h

    The 32-bit implementation of Curve25519, with ten limbs of alternately 26 and
    25 bits in [u32] and products in [u64].  [fe] and [fe_loose] are the same
    struct under two names, which the C code uses to tell bounds apart.  The
    unrolled bodies keep the variable names of the source; every operation
    wraps at the width of its C type. *)

From Stdlib Require Import Ascii String.
From stdpp Require Import base numbers option sets list list_numbers strings.
From S2P Require Import Prelude Field25519.
#[local] Open Scope c_scope.

Notation "x *₆₄ y" := (u64 (x * y)) (at level 40, left associativity) : c_scope.
Notation "x +₆₄ y" := (u64 (x + y)) (at level 50, left associativity) : c_scope.
Notation "x *₃₂ y" := (u32 (x * y)) (at level 40, left associativity) : c_scope.
Notation "x +₃₂ y" := (u32 (x + y)) (at level 50, left associativity) : c_scope.
Notation "x -₃₂ y" := (u32 (x - y)) (at level 50, left associativity) : c_scope.

(** [struct fe] and [struct fe_loose]. *)
Record fe := Fe { v0 : Z; v1 : Z; v2 : Z; v3 : Z; v4 : Z; v5 : Z; v6 : Z; v7 : Z; v8 : Z; v9 : Z }.
Definition fe_loose : Type := fe.

(** ** Bytes in *)

Definition get_unaligned_le32 (a : bytes) (off : nat) : Z := le_value (take 4 (drop off a)).

Definition fe_frombytes_impl (s : bytes) : fe :=
  let a0 := get_unaligned_le32 s 0 in
  let a1 := get_unaligned_le32 s 4 in
  let a2 := get_unaligned_le32 s 8 in
  let a3 := get_unaligned_le32 s 12 in
  let a4 := get_unaligned_le32 s 16 in
  let a5 := get_unaligned_le32 s 20 in
  let a6 := get_unaligned_le32 s 24 in
  let a7 := get_unaligned_le32 s 28 in
  Fe (a0 .& Z.ones 26)
     ((a0 .>> 26) .| u32 ((a1 .& Z.ones 19) .<< 6))
     ((a1 .>> 19) .| u32 ((a2 .& Z.ones 13) .<< 13))
     ((a2 .>> 13) .| u32 ((a3 .& Z.ones 6) .<< 19))
     (a3 .>> 6)
     (a4 .& Z.ones 25)
     ((a4 .>> 25) .| u32 ((a5 .& Z.ones 19) .<< 7))
     ((a5 .>> 19) .| u32 ((a6 .& Z.ones 12) .<< 13))
     ((a6 .>> 12) .| u32 ((a7 .& Z.ones 6) .<< 20))
     ((a7 .>> 6) .& Z.ones 25).

Definition fe_frombytes (s : bytes) : fe := fe_frombytes_impl s.

(** ** Bytes out *)

(** These return the carry or borrow and the [low] they store. *)
Definition addcarryx_u25 (c a b : Z) : Z * Z :=
  let x := a +₃₂ b +₃₂ c in ((x .>> 25) .& 1, x .& 0x1ffffff).
Definition addcarryx_u26 (c a b : Z) : Z * Z :=
  let x := a +₃₂ b +₃₂ c in ((x .>> 26) .& 1, x .& 0x3ffffff).
Definition subborrow_u25 (c a b : Z) : Z * Z :=
  let x := a -₃₂ b -₃₂ c in (x .>> 31, x .& 0x1ffffff).
Definition subborrow_u26 (c a b : Z) : Z * Z :=
  let x := a -₃₂ b -₃₂ c in (x .>> 31, x .& 0x3ffffff).

Definition cmovznz32 (t z nz : Z) : Z :=
  let t := u32 (- c_bool (truthy t)) in
  (t .& nz) .| (u32 (~~ t) .& z).

Definition fe_freeze (in1 : fe) : fe :=
  let '(Fe x2 x4 x6 x8 x10 x12 x14 x16 x18 x17) := in1 in
  let '(x21, x20) := subborrow_u26 0 x2 0x3ffffed in
  let '(x24, x23) := subborrow_u25 x21 x4 0x1ffffff in
  let '(x27, x26) := subborrow_u26 x24 x6 0x3ffffff in
  let '(x30, x29) := subborrow_u25 x27 x8 0x1ffffff in
  let '(x33, x32) := subborrow_u26 x30 x10 0x3ffffff in
  let '(x36, x35) := subborrow_u25 x33 x12 0x1ffffff in
  let '(x39, x38) := subborrow_u26 x36 x14 0x3ffffff in
  let '(x42, x41) := subborrow_u25 x39 x16 0x1ffffff in
  let '(x45, x44) := subborrow_u26 x42 x18 0x3ffffff in
  let '(x48, x47) := subborrow_u25 x45 x17 0x1ffffff in
  let x49 := cmovznz32 x48 0 0xffffffff in
  let x50 := x49 .& 0x3ffffed in
  let '(x53, x52) := addcarryx_u26 0 x20 x50 in
  let x54 := x49 .& 0x1ffffff in
  let '(x57, x56) := addcarryx_u25 x53 x23 x54 in
  let x58 := x49 .& 0x3ffffff in
  let '(x61, x60) := addcarryx_u26 x57 x26 x58 in
  let x62 := x49 .& 0x1ffffff in
  let '(x65, x64) := addcarryx_u25 x61 x29 x62 in
  let x66 := x49 .& 0x3ffffff in
  let '(x69, x68) := addcarryx_u26 x65 x32 x66 in
  let x70 := x49 .& 0x1ffffff in
  let '(x73, x72) := addcarryx_u25 x69 x35 x70 in
  let x74 := x49 .& 0x3ffffff in
  let '(x77, x76) := addcarryx_u26 x73 x38 x74 in
  let x78 := x49 .& 0x1ffffff in
  let '(x81, x80) := addcarryx_u25 x77 x41 x78 in
  let x82 := x49 .& 0x3ffffff in
  let '(x85, x84) := addcarryx_u26 x81 x44 x82 in
  let x86 := x49 .& 0x1ffffff in
  let '(_, x88) := addcarryx_u25 x85 x47 x86 in
  Fe x52 x56 x60 x64 x68 x72 x76 x80 x84 x88.

Definition fe_tobytes (f : fe) : bytes :=
  let h := fe_freeze f in
  [u8 (v0 h .>> 0); u8 (v0 h .>> 8); u8 (v0 h .>> 16); u8 ((v0 h .>> 24) .| u32 (v1 h .<< 2));
   u8 (v1 h .>> 6); u8 (v1 h .>> 14); u8 ((v1 h .>> 22) .| u32 (v2 h .<< 3)); u8 (v2 h .>> 5);
   u8 (v2 h .>> 13); u8 ((v2 h .>> 21) .| u32 (v3 h .<< 5)); u8 (v3 h .>> 3); u8 (v3 h .>> 11);
   u8 ((v3 h .>> 19) .| u32 (v4 h .<< 6)); u8 (v4 h .>> 2); u8 (v4 h .>> 10); u8 (v4 h .>> 18);
   u8 (v5 h .>> 0); u8 (v5 h .>> 8); u8 (v5 h .>> 16); u8 ((v5 h .>> 24) .| u32 (v6 h .<< 1));
   u8 (v6 h .>> 7); u8 (v6 h .>> 15); u8 ((v6 h .>> 23) .| u32 (v7 h .<< 3)); u8 (v7 h .>> 5);
   u8 (v7 h .>> 13); u8 ((v7 h .>> 21) .| u32 (v8 h .<< 4)); u8 (v8 h .>> 4); u8 (v8 h .>> 12);
   u8 ((v8 h .>> 20) .| u32 (v9 h .<< 6)); u8 (v9 h .>> 2); u8 (v9 h .>> 10); u8 (v9 h .>> 18)].

(** ** Copies, sums and differences *)

Definition fe_copy (f : fe) : fe := f.
Definition fe_copy_lt (f : fe) : fe_loose := f.
Definition fe_0 : fe := Fe 0 0 0 0 0 0 0 0 0 0.
Definition fe_1 : fe := Fe 1 0 0 0 0 0 0 0 0 0.

Definition fe_add_impl (in1 in2 : fe) : fe :=
  let '(Fe x5 x7 x9 x11 x13 x15 x17 x19 x21 x20) := in1 in
  let '(Fe x23 x25 x27 x29 x31 x33 x35 x37 x39 x38) := in2 in
  Fe (x5 +₃₂ x23) (x7 +₃₂ x25) (x9 +₃₂ x27) (x11 +₃₂ x29) (x13 +₃₂ x31) (x15 +₃₂ x33) (x17 +₃₂ x35) (x19 +₃₂ x37) (x21 +₃₂ x39) (x20 +₃₂ x38).
Definition fe_add (f g : fe) : fe_loose := fe_add_impl f g.

Definition fe_sub_impl (in1 in2 : fe) : fe :=
  let '(Fe x5 x7 x9 x11 x13 x15 x17 x19 x21 x20) := in1 in
  let '(Fe x23 x25 x27 x29 x31 x33 x35 x37 x39 x38) := in2 in
  Fe (0x7ffffda +₃₂ x5 -₃₂ x23) (0x3fffffe +₃₂ x7 -₃₂ x25) (0x7fffffe +₃₂ x9 -₃₂ x27) (0x3fffffe +₃₂ x11 -₃₂ x29) (0x7fffffe +₃₂ x13 -₃₂ x31) (0x3fffffe +₃₂ x15 -₃₂ x33) (0x7fffffe +₃₂ x17 -₃₂ x35) (0x3fffffe +₃₂ x19 -₃₂ x37) (0x7fffffe +₃₂ x21 -₃₂ x39) (0x3fffffe +₃₂ x20 -₃₂ x38).
Definition fe_sub (f g : fe) : fe_loose := fe_sub_impl f g.

(** ** Products *)

(** [lo + (hi << 0x4) + (hi << 0x1) + hi], the folding of the high half of a
    product: nine times in each of the unrolled bodies. *)
Definition fold19 (lo hi : Z) : Z := lo +₆₄ u64 (hi .<< 4) +₆₄ u64 (hi .<< 1) +₆₄ hi.

(** The carries, with the variable names they have in [fe_mul_impl]; the same
    statements end [fe_sqr_impl] and [fe_mul_121666_impl]. *)
Definition fe_carry (x85 x82 x79 x76 x73 x70 x67 x64 x61 x49 : Z) : fe :=
  let x86 := x85 .>> 26 in
  let x87 := (u32 x85) .& 0x3ffffff in
  let x88 := x86 +₆₄ x82 in
  let x89 := x88 .>> 25 in
  let x90 := (u32 x88) .& 0x1ffffff in
  let x91 := x89 +₆₄ x79 in
  let x92 := x91 .>> 26 in
  let x93 := (u32 x91) .& 0x3ffffff in
  let x94 := x92 +₆₄ x76 in
  let x95 := x94 .>> 25 in
  let x96 := (u32 x94) .& 0x1ffffff in
  let x97 := x95 +₆₄ x73 in
  let x98 := x97 .>> 26 in
  let x99 := (u32 x97) .& 0x3ffffff in
  let x100 := x98 +₆₄ x70 in
  let x101 := x100 .>> 25 in
  let x102 := (u32 x100) .& 0x1ffffff in
  let x103 := x101 +₆₄ x67 in
  let x104 := x103 .>> 26 in
  let x105 := (u32 x103) .& 0x3ffffff in
  let x106 := x104 +₆₄ x64 in
  let x107 := x106 .>> 25 in
  let x108 := (u32 x106) .& 0x1ffffff in
  let x109 := x107 +₆₄ x61 in
  let x110 := x109 .>> 26 in
  let x111 := (u32 x109) .& 0x3ffffff in
  let x112 := x110 +₆₄ x49 in
  let x113 := x112 .>> 25 in
  let x114 := (u32 x112) .& 0x1ffffff in
  let x115 := x87 +₆₄ (19 *₆₄ x113) in
  let x116 := u32 (x115 .>> 26) in
  let x117 := (u32 x115) .& 0x3ffffff in
  let x118 := x116 +₃₂ x90 in
  let x119 := x118 .>> 25 in
  let x120 := x118 .& 0x1ffffff in
  Fe x117 x120 (x119 +₃₂ x93) x96 x99 x102 x105 x108 x111 x114.

Definition fe_mul_impl (in1 in2 : fe) : fe :=
  let '(Fe x5 x7 x9 x11 x13 x15 x17 x19 x21 x20) := in1 in
  let '(Fe x23 x25 x27 x29 x31 x33 x35 x37 x39 x38) := in2 in
  let x40 := x23 *₆₄ x5 in
  let x41 := (x23 *₆₄ x7) +₆₄ (x25 *₆₄ x5) in
  let x42 := (((2 *₃₂ x25) *₆₄ x7) +₆₄ (x23 *₆₄ x9)) +₆₄ (x27 *₆₄ x5) in
  let x43 := (((x25 *₆₄ x9) +₆₄ (x27 *₆₄ x7)) +₆₄ (x23 *₆₄ x11)) +₆₄ (x29 *₆₄ x5) in
  let x44 := (((x27 *₆₄ x9) +₆₄ (2 *₆₄ ((x25 *₆₄ x11) +₆₄ (x29 *₆₄ x7)))) +₆₄ (x23 *₆₄ x13)) +₆₄ (x31 *₆₄ x5) in
  let x45 := (((((x27 *₆₄ x11) +₆₄ (x29 *₆₄ x9)) +₆₄ (x25 *₆₄ x13)) +₆₄ (x31 *₆₄ x7)) +₆₄ (x23 *₆₄ x15)) +₆₄ (x33 *₆₄ x5) in
  let x46 := ((((2 *₆₄ (((x29 *₆₄ x11) +₆₄ (x25 *₆₄ x15)) +₆₄ (x33 *₆₄ x7))) +₆₄ (x27 *₆₄ x13)) +₆₄ (x31 *₆₄ x9)) +₆₄ (x23 *₆₄ x17)) +₆₄ (x35 *₆₄ x5) in
  let x47 := (((((((x29 *₆₄ x13) +₆₄ (x31 *₆₄ x11)) +₆₄ (x27 *₆₄ x15)) +₆₄ (x33 *₆₄ x9)) +₆₄ (x25 *₆₄ x17)) +₆₄ (x35 *₆₄ x7)) +₆₄ (x23 *₆₄ x19)) +₆₄ (x37 *₆₄ x5) in
  let x48 := (((((x31 *₆₄ x13) +₆₄ (2 *₆₄ ((((x29 *₆₄ x15) +₆₄ (x33 *₆₄ x11)) +₆₄ (x25 *₆₄ x19)) +₆₄ (x37 *₆₄ x7)))) +₆₄ (x27 *₆₄ x17)) +₆₄ (x35 *₆₄ x9)) +₆₄ (x23 *₆₄ x21)) +₆₄ (x39 *₆₄ x5) in
  let x49 := (((((((((x31 *₆₄ x15) +₆₄ (x33 *₆₄ x13)) +₆₄ (x29 *₆₄ x17)) +₆₄ (x35 *₆₄ x11)) +₆₄ (x27 *₆₄ x19)) +₆₄ (x37 *₆₄ x9)) +₆₄ (x25 *₆₄ x21)) +₆₄ (x39 *₆₄ x7)) +₆₄ (x23 *₆₄ x20)) +₆₄ (x38 *₆₄ x5) in
  let x50 := ((((2 *₆₄ (((((x33 *₆₄ x15) +₆₄ (x29 *₆₄ x19)) +₆₄ (x37 *₆₄ x11)) +₆₄ (x25 *₆₄ x20)) +₆₄ (x38 *₆₄ x7))) +₆₄ (x31 *₆₄ x17)) +₆₄ (x35 *₆₄ x13)) +₆₄ (x27 *₆₄ x21)) +₆₄ (x39 *₆₄ x9) in
  let x51 := (((((((x33 *₆₄ x17) +₆₄ (x35 *₆₄ x15)) +₆₄ (x31 *₆₄ x19)) +₆₄ (x37 *₆₄ x13)) +₆₄ (x29 *₆₄ x21)) +₆₄ (x39 *₆₄ x11)) +₆₄ (x27 *₆₄ x20)) +₆₄ (x38 *₆₄ x9) in
  let x52 := (((x35 *₆₄ x17) +₆₄ (2 *₆₄ ((((x33 *₆₄ x19) +₆₄ (x37 *₆₄ x15)) +₆₄ (x29 *₆₄ x20)) +₆₄ (x38 *₆₄ x11)))) +₆₄ (x31 *₆₄ x21)) +₆₄ (x39 *₆₄ x13) in
  let x53 := (((((x35 *₆₄ x19) +₆₄ (x37 *₆₄ x17)) +₆₄ (x33 *₆₄ x21)) +₆₄ (x39 *₆₄ x15)) +₆₄ (x31 *₆₄ x20)) +₆₄ (x38 *₆₄ x13) in
  let x54 := ((2 *₆₄ (((x37 *₆₄ x19) +₆₄ (x33 *₆₄ x20)) +₆₄ (x38 *₆₄ x15))) +₆₄ (x35 *₆₄ x21)) +₆₄ (x39 *₆₄ x17) in
  let x55 := (((x37 *₆₄ x21) +₆₄ (x39 *₆₄ x19)) +₆₄ (x35 *₆₄ x20)) +₆₄ (x38 *₆₄ x17) in
  let x56 := (x39 *₆₄ x21) +₆₄ (2 *₆₄ ((x37 *₆₄ x20) +₆₄ (x38 *₆₄ x19))) in
  let x57 := (x39 *₆₄ x20) +₆₄ (x38 *₆₄ x21) in
  let x58 := (2 *₃₂ x38) *₆₄ x20 in
  fe_carry (fold19 x40 x50) (fold19 x41 x51) (fold19 x42 x52) (fold19 x43 x53) (fold19 x44 x54) (fold19 x45 x55) (fold19 x46 x56) (fold19 x47 x57) (fold19 x48 x58) x49.

Definition fe_mul_ttt (f g : fe) : fe := fe_mul_impl f g.
Definition fe_mul_tlt (f : fe_loose) (g : fe) : fe := fe_mul_impl f g.
Definition fe_mul_tll (f g : fe_loose) : fe := fe_mul_impl f g.

Definition fe_sqr_impl (in1 : fe) : fe :=
  let '(Fe x2 x4 x6 x8 x10 x12 x14 x16 x18 x17) := in1 in
  let x19 := x2 *₆₄ x2 in
  let x20 := (2 *₃₂ x2) *₆₄ x4 in
  let x21 := 2 *₆₄ ((x4 *₆₄ x4) +₆₄ (x2 *₆₄ x6)) in
  let x22 := 2 *₆₄ ((x4 *₆₄ x6) +₆₄ (x2 *₆₄ x8)) in
  let x23 := ((x6 *₆₄ x6) +₆₄ ((4 *₃₂ x4) *₆₄ x8)) +₆₄ ((2 *₃₂ x2) *₆₄ x10) in
  let x24 := 2 *₆₄ (((x6 *₆₄ x8) +₆₄ (x4 *₆₄ x10)) +₆₄ (x2 *₆₄ x12)) in
  let x25 := 2 *₆₄ ((((x8 *₆₄ x8) +₆₄ (x6 *₆₄ x10)) +₆₄ (x2 *₆₄ x14)) +₆₄ ((2 *₃₂ x4) *₆₄ x12)) in
  let x26 := 2 *₆₄ ((((x8 *₆₄ x10) +₆₄ (x6 *₆₄ x12)) +₆₄ (x4 *₆₄ x14)) +₆₄ (x2 *₆₄ x16)) in
  let x27 := (x10 *₆₄ x10) +₆₄ (2 *₆₄ (((x6 *₆₄ x14) +₆₄ (x2 *₆₄ x18)) +₆₄ (2 *₆₄ ((x4 *₆₄ x16) +₆₄ (x8 *₆₄ x12))))) in
  let x28 := 2 *₆₄ (((((x10 *₆₄ x12) +₆₄ (x8 *₆₄ x14)) +₆₄ (x6 *₆₄ x16)) +₆₄ (x4 *₆₄ x18)) +₆₄ (x2 *₆₄ x17)) in
  let x29 := 2 *₆₄ ((((x12 *₆₄ x12) +₆₄ (x10 *₆₄ x14)) +₆₄ (x6 *₆₄ x18)) +₆₄ (2 *₆₄ ((x8 *₆₄ x16) +₆₄ (x4 *₆₄ x17)))) in
  let x30 := 2 *₆₄ ((((x12 *₆₄ x14) +₆₄ (x10 *₆₄ x16)) +₆₄ (x8 *₆₄ x18)) +₆₄ (x6 *₆₄ x17)) in
  let x31 := (x14 *₆₄ x14) +₆₄ (2 *₆₄ ((x10 *₆₄ x18) +₆₄ (2 *₆₄ ((x12 *₆₄ x16) +₆₄ (x8 *₆₄ x17))))) in
  let x32 := 2 *₆₄ (((x14 *₆₄ x16) +₆₄ (x12 *₆₄ x18)) +₆₄ (x10 *₆₄ x17)) in
  let x33 := 2 *₆₄ (((x16 *₆₄ x16) +₆₄ (x14 *₆₄ x18)) +₆₄ ((2 *₃₂ x12) *₆₄ x17)) in
  let x34 := 2 *₆₄ ((x16 *₆₄ x18) +₆₄ (x14 *₆₄ x17)) in
  let x35 := (x18 *₆₄ x18) +₆₄ ((4 *₃₂ x16) *₆₄ x17) in
  let x36 := (2 *₃₂ x18) *₆₄ x17 in
  let x37 := (2 *₃₂ x17) *₆₄ x17 in
  fe_carry (fold19 x19 x29) (fold19 x20 x30) (fold19 x21 x31) (fold19 x22 x32) (fold19 x23 x33) (fold19 x24 x34) (fold19 x25 x35) (fold19 x26 x36) (fold19 x27 x37) x28.

Definition fe_sq_tl (f : fe_loose) : fe := fe_sqr_impl f.
Definition fe_sq_tt (f : fe) : fe := fe_sqr_impl f.

(** The body of [fe_mul_impl] again, with the limbs of [in2] constants. *)
Definition fe_mul_121666_impl (in1 : fe) : fe := fe_mul_impl in1 (Fe 121666 0 0 0 0 0 0 0 0 0).
Definition fe_mul121666 (f : fe_loose) : fe := fe_mul_121666_impl f.

(** [for (i = 1; i < n; ++i) fe_sq_tt(&t, &t);] *)
Definition sq_loop (n : nat) (t : fe) : fe := for_upto 1 (n - 1) (λ _ t, fe_sq_tt t) t.

Definition fe_loose_invert (z : fe_loose) : fe :=
  let t0 := fe_sq_tl z in
  let t1 := fe_sq_tt t0 in
  let t1 := sq_loop 2 t1 in
  let t1 := fe_mul_tlt z t1 in
  let t0 := fe_mul_ttt t0 t1 in
  let t2 := fe_sq_tt t0 in
  let t1 := fe_mul_ttt t1 t2 in
  let t2 := fe_sq_tt t1 in
  let t2 := sq_loop 5 t2 in
  let t1 := fe_mul_ttt t2 t1 in
  let t2 := fe_sq_tt t1 in
  let t2 := sq_loop 10 t2 in
  let t2 := fe_mul_ttt t2 t1 in
  let t3 := fe_sq_tt t2 in
  let t3 := sq_loop 20 t3 in
  let t2 := fe_mul_ttt t3 t2 in
  let t2 := fe_sq_tt t2 in
  let t2 := sq_loop 10 t2 in
  let t1 := fe_mul_ttt t2 t1 in
  let t2 := fe_sq_tt t1 in
  let t2 := sq_loop 50 t2 in
  let t2 := fe_mul_ttt t2 t1 in
  let t3 := fe_sq_tt t2 in
  let t3 := sq_loop 100 t3 in
  let t2 := fe_mul_ttt t3 t2 in
  let t2 := fe_sq_tt t2 in
  let t2 := sq_loop 50 t2 in
  let t1 := fe_mul_ttt t2 t1 in
  let t1 := fe_sq_tt t1 in
  let t1 := sq_loop 5 t1 in
  fe_mul_ttt t1 t0.

Definition fe_invert (z : fe) : fe := fe_loose_invert (fe_copy_lt z).

(** ** Swaps *)

(** The body of the loop of [fe_cswap] at one limb. *)
Definition cswap_limb (b f g : Z) : Z * Z :=
  let x := f .^ g in
  let x := x .& b in
  (f .^ x, g .^ x).

Definition fe_cswap (f g : fe) (b : Z) : fe * fe :=
  let b := u32 (0 - b) in
  let '(f0, g0) := cswap_limb b (v0 f) (v0 g) in
  let '(f1, g1) := cswap_limb b (v1 f) (v1 g) in
  let '(f2, g2) := cswap_limb b (v2 f) (v2 g) in
  let '(f3, g3) := cswap_limb b (v3 f) (v3 g) in
  let '(f4, g4) := cswap_limb b (v4 f) (v4 g) in
  let '(f5, g5) := cswap_limb b (v5 f) (v5 g) in
  let '(f6, g6) := cswap_limb b (v6 f) (v6 g) in
  let '(f7, g7) := cswap_limb b (v7 f) (v7 g) in
  let '(f8, g8) := cswap_limb b (v8 f) (v8 g) in
  let '(f9, g9) := cswap_limb b (v9 f) (v9 g) in
  (Fe f0 f1 f2 f3 f4 f5 f6 f7 f8 f9, Fe g0 g1 g2 g3 g4 g5 g6 g7 g8 g9).

(** ** The ladder *)

(** The variables of the loop of [curve25519_generic] that live across turns. *)
Record ladder_vars := { x2 : fe; z2 : fe; x3 : fe; z3 : fe; swap : Z }.

Definition ladder_turn (x1 : fe) (e : bytes) (pos : nat) (s : ladder_vars) : ladder_vars :=
  let b := 1 .& (at_ e (pos / 8) .>> Z.of_nat (pos mod 8)) in
  let swap := swap s .^ b in
  let '(x2, x3) := fe_cswap (x2 s) (x3 s) swap in
  let '(z2, z3) := fe_cswap (z2 s) (z3 s) swap in
  let swap := b in
  let tmp0l := fe_sub x3 z3 in
  let tmp1l := fe_sub x2 z2 in
  let x2l := fe_add x2 z2 in
  let z2l := fe_add x3 z3 in
  let z3 := fe_mul_tll tmp0l x2l in
  let z2 := fe_mul_tll z2l tmp1l in
  let tmp0 := fe_sq_tl tmp1l in
  let tmp1 := fe_sq_tl x2l in
  let x3l := fe_add z3 z2 in
  let z2l := fe_sub z3 z2 in
  let x2 := fe_mul_ttt tmp1 tmp0 in
  let tmp1l := fe_sub tmp1 tmp0 in
  let z2 := fe_sq_tl z2l in
  let z3 := fe_mul121666 tmp1l in
  let x3 := fe_sq_tl x3l in
  let tmp0l := fe_add tmp0 z3 in
  let z3 := fe_mul_ttt x1 z2 in
  let z2 := fe_mul_tll tmp1l tmp0l in
  {| x2 := x2; z2 := z2; x3 := x3; z3 := z3; swap := swap |}.

(** [for (pos = 254; pos >= 0; --pos)], here over the turns that remain. *)
Fixpoint ladder_loop (x1 : fe) (e : bytes) (turns : nat) (s : ladder_vars) : ladder_vars :=
  match turns with
  | O => s
  | S pos => ladder_loop x1 e pos (ladder_turn x1 e pos s)
  end.

Definition curve25519_generic (scalar point : bytes) : bytes :=
  let e := curve25519_clamp_secret scalar in
  let x1 := fe_frombytes point in
  let s := ladder_loop x1 e 255 {| x2 := fe_1; z2 := fe_0; x3 := fe_copy x1; z3 := fe_1; swap := 0 |} in
  let '(x2, x3) := fe_cswap (x2 s) (x3 s) (swap s) in
  let '(z2, z3) := fe_cswap (z2 s) (z3 s) (swap s) in
  let z2 := fe_invert z2 in
  let x2 := fe_mul_ttt x2 z2 in
  fe_tobytes x2.

Definition curve25519 (secret basepoint : bytes) : bytes := curve25519_generic secret basepoint.
Definition curve25519_generate_public (secret : bytes) : bytes := curve25519 secret (9 :: replicate 31 0).
