(* ===== verification/CurveFiat32Spec.v ===== *)
(** * CurveFiat32Spec: the 32-bit limbs compute the X25519 function

    [fval] is the number ten limbs stand for.  The even limbs have 26 bits and
    the odd ones 25; [within o] bounds the odd limbs by [o] and the even ones by
    [2 * o].  Products are exact on loose limbs, so no [u64] ever wraps. *)

From Stdlib Require Import Ascii String Zdiv Zpow_facts.
From stdpp Require Import base numbers option sets list list_numbers strings.
From S2P Require Import Prelude Field25519 X25519 CurveFiat32.
#[local] Open Scope c_scope.

Definition fval (f : fe) : Z :=
  v0 f + 2 ^ 26 * v1 f + 2 ^ 51 * v2 f + 2 ^ 77 * v3 f + 2 ^ 102 * v4 f +
  2 ^ 128 * v5 f + 2 ^ 153 * v6 f + 2 ^ 179 * v7 f + 2 ^ 204 * v8 f + 2 ^ 230 * v9 f.

Definition within (o : Z) (f : fe) : Prop :=
  (0 <= v0 f <= 2 * o ∧ 0 <= v1 f <= o ∧ 0 <= v2 f <= 2 * o ∧ 0 <= v3 f <= o ∧ 0 <= v4 f <= 2 * o) ∧
  (0 <= v5 f <= o ∧ 0 <= v6 f <= 2 * o ∧ 0 <= v7 f <= o ∧ 0 <= v8 f <= 2 * o ∧ 0 <= v9 f <= o).

(** What products and [fe_frombytes] leave, and what sums and differences leave. *)
Definition tight : fe → Prop := within (2 ^ 25).
Definition loose : fe → Prop := within (3 * 2 ^ 25).

Lemma tight_loose32 f : tight f → loose f.
Proof. unfold tight, loose, within. lia. Qed.

(** ** Words: congruence modulo 2^64, under which [u64] is the identity *)

Definition eq64 (x y : Z) : Prop := u64 x = u64 y.
#[local] Instance eq64_equivalence : Equivalence eq64.
Proof. split; repeat intro; unfold eq64 in *; congruence. Qed.
#[local] Instance eq64_add : Proper (eq64 ==> eq64 ==> eq64) Z.add.
Proof. intros x x' Hx y y' Hy. unfold eq64, u64 in *. by rewrite Zplus_mod, Hx, Hy, <- Zplus_mod. Qed.
#[local] Instance eq64_mul : Proper (eq64 ==> eq64 ==> eq64) Z.mul.
Proof. intros x x' Hx y y' Hy. unfold eq64, u64 in *. by rewrite Zmult_mod, Hx, Hy, <- Zmult_mod. Qed.
Lemma eq64_u64 x : eq64 (u64 x) x.
Proof. apply Zmod_mod. Qed.

(** A computation in [u64] is exact where its value is in range. *)
Lemma u64_exact x y : eq64 x y → 0 <= y < 2 ^ 64 → u64 x = y.
Proof. intros Hx Hy. rewrite Hx. by apply u64_small. Qed.

Lemma fold19_exact lo hi a b : eq64 lo a → eq64 hi b → 0 <= a + 19 * b < 2 ^ 64 → fold19 lo hi = a + 19 * b.
Proof.
  intros Ha Hb Hr. apply u64_exact; [|done]. rewrite !Z.shiftl_mul_pow2 by lia. rewrite !eq64_u64, Ha, Hb.
  apply (f_equal u64). lia.
Qed.

Lemma u32_mask x k : 0 <= k <= 32 → u32 x .& Z.ones k = x mod 2 ^ k.
Proof.
  intros Hk. rewrite Z.land_ones by lia. unfold u32. apply Z.bits_inj'. intros n Hn.
  destruct (Z.lt_ge_cases n k).
  - by rewrite !Z.mod_pow2_bits_low by lia.
  - by rewrite !Z.mod_pow2_bits_high by lia.
Qed.

Lemma divmod x k : 0 <= x → 0 <= k → x = 2 ^ k * (x / 2 ^ k) + x mod 2 ^ k ∧ 0 <= x mod 2 ^ k < 2 ^ k ∧ 0 <= x / 2 ^ k.
Proof.
  intros Hx Hk. pose proof (Z.pow_pos_nonneg 2 k ltac:(lia) Hk).
  split; [apply Z.div_mod; lia|]. split; [by apply Z.mod_pos_bound|by apply Z.div_pos].
Qed.

(** ** Carries *)

(** One carry of the chain: what stays, what moves on, and that nothing wraps. *)
Lemma carry_step t c k :
  0 <= t <= 2 ^ 63 → 0 <= c <= 2 ^ 44 → 25 <= k <= 26 →
  ∃ q, (c +₆₄ t) .>> k = q ∧ u32 (c +₆₄ t) .& Z.ones k = c + t - 2 ^ k * q ∧
    0 <= c + t - 2 ^ k * q <= 2 ^ k - 1 ∧ 0 <= q <= 2 ^ 39.
Proof.
  intros Ht Hc Hk. rewrite (u64_small (c + t)), u32_mask, Z.shiftr_div_pow2 by lia.
  destruct (divmod (c + t) k) as (E & M & D); [lia..|]. exists ((c + t) / 2 ^ k).
  assert (Hq : (c + t) / 2 ^ k <= 2 ^ 39).
  { assert (Hp : 2 ^ 25 <= 2 ^ k) by (apply Z.pow_le_mono_r; lia). apply Z.div_le_upper_bound; [lia|].
    apply Z.le_trans with (2 ^ 25 * 2 ^ 39); [lia|]. apply Z.mul_le_mono_nonneg_r; lia. }
  repeat split; lia.
Qed.

Lemma fe_carry_spec t0 t1 t2 t3 t4 t5 t6 t7 t8 t9 :
  0 <= t0 <= 2 ^ 63 → 0 <= t1 <= 2 ^ 63 → 0 <= t2 <= 2 ^ 63 → 0 <= t3 <= 2 ^ 63 → 0 <= t4 <= 2 ^ 63 →
  0 <= t5 <= 2 ^ 63 → 0 <= t6 <= 2 ^ 63 → 0 <= t7 <= 2 ^ 63 → 0 <= t8 <= 2 ^ 63 → 0 <= t9 <= 2 ^ 63 →
  let r := fe_carry t0 t1 t2 t3 t4 t5 t6 t7 t8 t9 in
  fval r ≡p fval (Fe t0 t1 t2 t3 t4 t5 t6 t7 t8 t9) ∧ tight r.
Proof.
  intros H0 H1 H2 H3 H4 H5 H6 H7 H8 H9. cbv zeta. unfold fe_carry.
  change 0x3ffffff with (Z.ones 26). change 0x1ffffff with (Z.ones 25).
  destruct (carry_step t0 0 26) as (q0 & S0 & L0 & R0 & Q0); [lia..|].
  rewrite Z.add_0_l, (u64_small t0) in S0, L0 by lia. rewrite L0, S0. clear L0 S0.
  destruct (carry_step t1 q0 25) as (q1 & -> & -> & R1 & Q1); [lia..|].
  destruct (carry_step t2 q1 26) as (q2 & -> & -> & R2 & Q2); [lia..|].
  destruct (carry_step t3 q2 25) as (q3 & -> & -> & R3 & Q3); [lia..|].
  destruct (carry_step t4 q3 26) as (q4 & -> & -> & R4 & Q4); [lia..|].
  destruct (carry_step t5 q4 25) as (q5 & -> & -> & R5 & Q5); [lia..|].
  destruct (carry_step t6 q5 26) as (q6 & -> & -> & R6 & Q6); [lia..|].
  destruct (carry_step t7 q6 25) as (q7 & -> & -> & R7 & Q7); [lia..|].
  destruct (carry_step t8 q7 26) as (q8 & -> & -> & R8 & Q8); [lia..|].
  destruct (carry_step t9 q8 25) as (q9 & -> & -> & R9 & Q9); [lia..|].
  rewrite (u64_small (19 * q9)) by lia. rewrite Z.add_0_l in *.
  destruct (carry_step (t0 - 2 ^ 26 * q0) (19 * q9) 26) as (c0 & S0 & L0 & RC0 & QC0); [lia..|].
  rewrite Z.add_comm in S0, L0. rewrite S0, L0, (u32_small c0) by lia. clear S0 L0.
  rewrite (u32_small (c0 + _)) by lia.
  set (s := c0 + (q0 + t1 - 2 ^ 25 * q1)). assert (Hs : 0 <= s <= 2 ^ 25 + 2 ^ 20) by (unfold s; lia).
  rewrite Z.land_ones, Z.shiftr_div_pow2 by lia. destruct (divmod s 25) as (E & M & D); [lia..|].
  set (c1 := s / 2 ^ 25) in *. set (r1 := s mod 2 ^ 25) in *. clearbody c1 r1. rewrite (u32_small (c1 + _)) by lia.
  split; [|unfold tight, within; cbn [v0 v1 v2 v3 v4 v5 v6 v7 v8 v9]; lia].
  unfold s in E. clear s Hs. apply (eqp_multiple _ _ (- q9)). unfold fval, P25519. cbn [v0 v1 v2 v3 v4 v5 v6 v7 v8 v9]. lia.
Qed.

(** ** Products *)

Lemma prod_le32 a b A B : 0 <= a <= A → 0 <= b <= B → 0 <= a * b <= A * B.
Proof. nia. Qed.

(** Bounds a sum of products of variables from the bounds of the variables. *)
Ltac bound_products :=
  repeat match goal with
  | Ha : 0 <= ?a <= _, Hb : 0 <= ?b <= _ |- context [?a * ?b] =>
      let H := fresh "P" in pose proof (prod_le32 a b _ _ Ha Hb) as H;
      generalize dependent (a * b); intros
  end; lia.

(** The low and high halves of the columns of a product. *)
Definition mul_columns (f g : fe) : fe :=
  let '(Fe a0 a1 a2 a3 a4 a5 a6 a7 a8 a9) := f in
  let '(Fe b0 b1 b2 b3 b4 b5 b6 b7 b8 b9) := g in
  Fe (b0*a0 + 19 * (2*(b5*a5 + b3*a7 + b7*a3 + b1*a9 + b9*a1) + b4*a6 + b6*a4 + b2*a8 + b8*a2))
     (b0*a1 + b1*a0 + 19 * (b5*a6 + b6*a5 + b4*a7 + b7*a4 + b3*a8 + b8*a3 + b2*a9 + b9*a2))
     (2*(b1*a1) + b0*a2 + b2*a0 + 19 * (b6*a6 + 2*(b5*a7 + b7*a5 + b3*a9 + b9*a3) + b4*a8 + b8*a4))
     (b1*a2 + b2*a1 + b0*a3 + b3*a0 + 19 * (b6*a7 + b7*a6 + b5*a8 + b8*a5 + b4*a9 + b9*a4))
     (b2*a2 + 2*(b1*a3 + b3*a1) + b0*a4 + b4*a0 + 19 * (2*(b7*a7 + b5*a9 + b9*a5) + b6*a8 + b8*a6))
     (b2*a3 + b3*a2 + b1*a4 + b4*a1 + b0*a5 + b5*a0 + 19 * (b7*a8 + b8*a7 + b6*a9 + b9*a6))
     (2*(b3*a3 + b1*a5 + b5*a1) + b2*a4 + b4*a2 + b0*a6 + b6*a0 + 19 * (b8*a8 + 2*(b7*a9 + b9*a7)))
     (b3*a4 + b4*a3 + b2*a5 + b5*a2 + b1*a6 + b6*a1 + b0*a7 + b7*a0 + 19 * (b8*a9 + b9*a8))
     (b4*a4 + 2*(b3*a5 + b5*a3 + b1*a7 + b7*a1) + b2*a6 + b6*a2 + b0*a8 + b8*a0 + 19 * (2*(b9*a9)))
     (b4*a5 + b5*a4 + b3*a6 + b6*a3 + b2*a7 + b7*a2 + b1*a8 + b8*a1 + b0*a9 + b9*a0).

Lemma mul_columns_eval f g : fval (mul_columns f g) ≡p fval f * fval g.
Proof.
  destruct f as [a0 a1 a2 a3 a4 a5 a6 a7 a8 a9], g as [b0 b1 b2 b3 b4 b5 b6 b7 b8 b9].
  apply (eqp_multiple _ _ (-
    ((2*(b5*a5 + b3*a7 + b7*a3 + b1*a9 + b9*a1) + b4*a6 + b6*a4 + b2*a8 + b8*a2) +
     2^26 * (b5*a6 + b6*a5 + b4*a7 + b7*a4 + b3*a8 + b8*a3 + b2*a9 + b9*a2) +
     2^51 * (b6*a6 + 2*(b5*a7 + b7*a5 + b3*a9 + b9*a3) + b4*a8 + b8*a4) +
     2^77 * (b6*a7 + b7*a6 + b5*a8 + b8*a5 + b4*a9 + b9*a4) +
     2^102 * (2*(b7*a7 + b5*a9 + b9*a5) + b6*a8 + b8*a6) +
     2^128 * (b7*a8 + b8*a7 + b6*a9 + b9*a6) +
     2^153 * (b8*a8 + 2*(b7*a9 + b9*a7)) +
     2^179 * (b8*a9 + b9*a8) +
     2^204 * (2*(b9*a9))))).
  unfold fval, mul_columns, P25519. cbn [v0 v1 v2 v3 v4 v5 v6 v7 v8 v9]. ring.
Qed.

Lemma mul_columns_le f g : loose f → loose g →
  let c := mul_columns f g in
  (0 <= v0 c <= 2 ^ 63 ∧ 0 <= v1 c <= 2 ^ 63 ∧ 0 <= v2 c <= 2 ^ 63 ∧ 0 <= v3 c <= 2 ^ 63 ∧ 0 <= v4 c <= 2 ^ 63) ∧
  (0 <= v5 c <= 2 ^ 63 ∧ 0 <= v6 c <= 2 ^ 63 ∧ 0 <= v7 c <= 2 ^ 63 ∧ 0 <= v8 c <= 2 ^ 63 ∧ 0 <= v9 c <= 2 ^ 63).
Proof.
  destruct f as [a0 a1 a2 a3 a4 a5 a6 a7 a8 a9], g as [b0 b1 b2 b3 b4 b5 b6 b7 b8 b9].
  unfold loose, within. cbn [v0 v1 v2 v3 v4 v5 v6 v7 v8 v9].
  intros [(A0 & A1 & A2 & A3 & A4) (A5 & A6 & A7 & A8 & A9)] [(B0 & B1 & B2 & B3 & B4) (B5 & B6 & B7 & B8 & B9)].
  cbv zeta. unfold mul_columns. cbn [v0 v1 v2 v3 v4 v5 v6 v7 v8 v9].
  split; (split; [bound_products|]; split; [bound_products|]; split; [bound_products|]; split; bound_products).
Qed.

(** The columns computed in [u64] are the columns. *)
Ltac column :=
  lazymatch goal with
  | |- fold19 _ _ = _ => apply fold19_exact
  | |- _ = _ => apply u64_exact
  end; [rewrite !eq64_u64; apply (f_equal u64); ring..|lia].

Definition carry_columns (c : fe) : fe :=
  fe_carry (v0 c) (v1 c) (v2 c) (v3 c) (v4 c) (v5 c) (v6 c) (v7 c) (v8 c) (v9 c).

Lemma fe_mul_columns f g : loose f → loose g → fe_mul_impl f g = carry_columns (mul_columns f g).
Proof.
  intros Hf Hg. pose proof (mul_columns_le f g Hf Hg) as H. cbv zeta in H. unfold loose, within in Hg.
  destruct f as [a0 a1 a2 a3 a4 a5 a6 a7 a8 a9], g as [b0 b1 b2 b3 b4 b5 b6 b7 b8 b9].
  unfold mul_columns, carry_columns in *. cbn [v0 v1 v2 v3 v4 v5 v6 v7 v8 v9] in *.
  destruct H as [(H0 & H1 & H2 & H3 & H4) (H5 & H6 & H7 & H8 & H9)].
  unfold fe_mul_impl. cbv zeta. rewrite (u32_small (2 * b1)), (u32_small (2 * b9)) by lia.
  f_equal; [clear -H0|clear -H1|clear -H2|clear -H3|clear -H4|clear -H5|clear -H6|clear -H7|clear -H8|clear -H9]; column.
Qed.

Lemma fe_sqr_columns f : loose f → fe_sqr_impl f = carry_columns (mul_columns f f).
Proof.
  intros Hf. pose proof (mul_columns_le f f Hf Hf) as H. cbv zeta in H. unfold loose, within in Hf.
  destruct f as [a0 a1 a2 a3 a4 a5 a6 a7 a8 a9].
  unfold mul_columns, carry_columns in *. cbn [v0 v1 v2 v3 v4 v5 v6 v7 v8 v9] in *.
  destruct H as [(H0 & H1 & H2 & H3 & H4) (H5 & H6 & H7 & H8 & H9)].
  unfold fe_sqr_impl. cbv zeta.
  rewrite (u32_small (2 * a0)), (u32_small (4 * a1)), (u32_small (2 * a1)), (u32_small (2 * a5)), (u32_small (4 * a7)),
    (u32_small (2 * a8)), (u32_small (2 * a9)) by lia.
  f_equal; [clear -H0|clear -H1|clear -H2|clear -H3|clear -H4|clear -H5|clear -H6|clear -H7|clear -H8|clear -H9]; column.
Qed.

Lemma carry_columns_spec f g : loose f → loose g →
  fval (carry_columns (mul_columns f g)) ≡p fval f * fval g ∧ tight (carry_columns (mul_columns f g)).
Proof.
  intros Hf Hg. rewrite <- mul_columns_eval.
  destruct (mul_columns_le f g Hf Hg) as [(H0 & H1 & H2 & H3 & H4) (H5 & H6 & H7 & H8 & H9)].
  pose proof (fe_carry_spec _ _ _ _ _ _ _ _ _ _ H0 H1 H2 H3 H4 H5 H6 H7 H8 H9) as H. cbv zeta in H.
  by destruct (mul_columns f g).
Qed.

Lemma fe_mul_spec f g : loose f → loose g → fval (fe_mul_impl f g) ≡p fval f * fval g ∧ tight (fe_mul_impl f g).
Proof. intros. rewrite fe_mul_columns by done. by apply carry_columns_spec. Qed.

Lemma fe_sqr_spec f : loose f → fval (fe_sqr_impl f) ≡p fval f * fval f ∧ tight (fe_sqr_impl f).
Proof. intros. rewrite fe_sqr_columns by done. by apply carry_columns_spec. Qed.

Lemma fe_mul121666_spec f : loose f → fval (fe_mul121666 f) ≡p 121666 * fval f ∧ tight (fe_mul121666 f).
Proof.
  intros Hf. destruct (fe_mul_spec f (Fe 121666 0 0 0 0 0 0 0 0 0) Hf) as [H ?].
  { unfold loose, within. cbn [v0 v1 v2 v3 v4 v5 v6 v7 v8 v9]. lia. }
  split; [|done]. unfold fe_mul121666, fe_mul_121666_impl. rewrite H. apply eqp_eq. unfold fval at 2.
  cbn [v0 v1 v2 v3 v4 v5 v6 v7 v8 v9]. ring.
Qed.

(** ** Sums and differences *)

Lemma fe_add_spec f g : tight f → tight g → fval (fe_add f g) = fval f + fval g ∧ loose (fe_add f g).
Proof.
  intros Hf Hg. unfold tight, loose, within in *. destruct f as [a0 a1 a2 a3 a4 a5 a6 a7 a8 a9], g as [b0 b1 b2 b3 b4 b5 b6 b7 b8 b9]. unfold fe_add, fe_add_impl, fval.
  cbn [v0 v1 v2 v3 v4 v5 v6 v7 v8 v9] in *. rewrite !u32_small by lia. lia.
Qed.

Lemma fe_sub_spec f g : tight f → tight g → fval (fe_sub f g) ≡p fval f - fval g ∧ loose (fe_sub f g).
Proof.
  intros Hf Hg. unfold tight, loose, within in *. destruct f as [a0 a1 a2 a3 a4 a5 a6 a7 a8 a9], g as [b0 b1 b2 b3 b4 b5 b6 b7 b8 b9]. unfold fe_sub, fe_sub_impl, fval.
  cbn [v0 v1 v2 v3 v4 v5 v6 v7 v8 v9] in *. rewrite !(u32_small (_ + _)) by lia. rewrite !u32_small by lia.
  split; [|lia]. apply (eqp_multiple _ _ 2). unfold P25519. lia.
Qed.

(** ** The inverse *)

Lemma fe_mul_tight f g : tight f → tight g → fval (fe_mul_impl f g) ≡p fval f * fval g ∧ tight (fe_mul_impl f g).
Proof. intros. apply fe_mul_spec; by apply tight_loose32. Qed.
Lemma fe_sqr_tight f : tight f → fval (fe_sq_tt f) ≡p fval f * fval f ∧ tight (fe_sq_tt f).
Proof. intros. apply fe_sqr_spec; by apply tight_loose32. Qed.

Lemma fe_times v x k n :
  is_power fval tight v x k → is_power fval tight v (sq_loop (S n) (fe_sq_tt x)) (2 ^ Z.of_nat (S n) * k).
Proof.
  intros Hx. unfold sq_loop. cbn [Nat.sub]. rewrite Nat.sub_0_r. by apply (power_times fval tight _ fe_sqr_tight).
Qed.
Definition fe_power_mul := power_mul fval tight fe_mul_impl fe_mul_tight.
Definition fe_power_sq := power_square fval tight fe_sq_tt fe_sqr_tight.

(** The addition chain of [fe_loose_invert] reaches the exponent [p - 2]. *)
Lemma fe_invert_spec z : tight z → fval (fe_invert z) ≡p fval z ^ (P25519 - 2) ∧ tight (fe_invert z).
Proof.
  intros Hz. unfold fe_invert, fe_copy_lt, fe_loose_invert. set (v := fval z).
  change (fe_sq_tl z) with (fe_sq_tt z). unfold fe_mul_ttt, fe_mul_tlt.
  pose proof (power_one fval tight z Hz : is_power fval tight v z 1) as Z1.
  pose proof (fe_power_sq v z _ Z1) as A. set (a := fe_sq_tt z) in *.
  pose proof (fe_times v a _ 1 A) as B. set (b := sq_loop 2 (fe_sq_tt a)) in *.
  pose proof (fe_power_mul v z b _ _ Z1 B) as C. set (c := fe_mul_impl z b) in *.
  pose proof (fe_power_mul v a c _ _ A C) as D. set (d := fe_mul_impl a c) in *.
  pose proof (fe_power_sq v d _ D) as E. set (e := fe_sq_tt d) in *.
  pose proof (fe_power_mul v c e _ _ C E) as F. set (f := fe_mul_impl c e) in *.
  pose proof (fe_times v f _ 4 F) as G. set (g := sq_loop 5 (fe_sq_tt f)) in *.
  pose proof (fe_power_mul v g f _ _ G F) as H. set (h := fe_mul_impl g f) in *.
  pose proof (fe_times v h _ 9 H) as I. set (i := sq_loop 10 (fe_sq_tt h)) in *.
  pose proof (fe_power_mul v i h _ _ I H) as J. set (j := fe_mul_impl i h) in *.
  pose proof (fe_times v j _ 19 J) as K. set (k := sq_loop 20 (fe_sq_tt j)) in *.
  pose proof (fe_power_mul v k j _ _ K J) as L. set (l := fe_mul_impl k j) in *.
  pose proof (fe_times v l _ 9 L) as M. set (m := sq_loop 10 (fe_sq_tt l)) in *.
  pose proof (fe_power_mul v m h _ _ M H) as N. set (n := fe_mul_impl m h) in *.
  pose proof (fe_times v n _ 49 N) as O. set (o := sq_loop 50 (fe_sq_tt n)) in *.
  pose proof (fe_power_mul v o n _ _ O N) as P. set (p := fe_mul_impl o n) in *.
  pose proof (fe_times v p _ 99 P) as Q. set (q := sq_loop 100 (fe_sq_tt p)) in *.
  pose proof (fe_power_mul v q p _ _ Q P) as R. set (r := fe_mul_impl q p) in *.
  pose proof (fe_times v r _ 49 R) as S. set (s := sq_loop 50 (fe_sq_tt r)) in *.
  pose proof (fe_power_mul v s n _ _ S N) as T. set (t := fe_mul_impl s n) in *.
  pose proof (fe_times v t _ 4 T) as U. set (u := sq_loop 5 (fe_sq_tt t)) in *.
  pose proof (fe_power_mul v u d _ _ U D) as (W & TW & _).
  split; [|exact TW]. rewrite W. apply eqp_iff. do 2 f_equal.
Qed.

(** ** Swaps *)

Lemma word_lxor_land a b : 0 <= a < 2 ^ 32 → 0 <= b < 2 ^ 32 → (a .^ b) .& Z.ones 32 = a .^ b.
Proof.
  intros Ha Hb. apply Z.bits_inj'. intros n Hn. rewrite Z.land_spec, Z.lxor_spec.
  destruct (Z.lt_ge_cases n 32).
  - rewrite (Z.ones_spec_low 32) by lia. apply andb_true_r.
  - rewrite <- (Z.mod_small a (2 ^ 32)), <- (Z.mod_small b (2 ^ 32)) by lia.
    by rewrite !Z.mod_pow2_bits_high by lia.
Qed.

Lemma cswap_limb_spec b x y :
  0 <= x < 2 ^ 32 → 0 <= y < 2 ^ 32 → cswap_limb (u32 (0 - c_bool b)) x y = if b then (y, x) else (x, y).
Proof.
  intros Hx Hy. unfold cswap_limb. destruct b; cbn [c_bool].
  - change (u32 (0 - 1)) with (Z.ones 32). rewrite word_lxor_land by done.
    rewrite <- Z.lxor_assoc, Z.lxor_nilpotent, Z.lxor_0_l.
    rewrite (Z.lxor_comm x y), <- Z.lxor_assoc, Z.lxor_nilpotent, Z.lxor_0_l. done.
  - change (u32 (0 - 0)) with 0. by rewrite Z.land_0_r, !Z.lxor_0_r.
Qed.

Lemma fe_cswap_spec b f g : tight f → tight g → fe_cswap f g (c_bool b) = if b then (g, f) else (f, g).
Proof.
  intros Hf Hg. unfold tight, within in *. unfold fe_cswap. cbv zeta.
  rewrite !cswap_limb_spec by lia. by destruct f, g, b.
Qed.

(** ** The ladder *)

(** The variables stand for a state of the reference ladder with lazy swaps. *)
Definition stands (s : ladder_vars) (sw : bool) (t : ladder_state) : Prop :=
  swap s = c_bool sw ∧ (tight (x2 s) ∧ tight (z2 s) ∧ tight (x3 s) ∧ tight (z3 s)) ∧
  fval (x2 s) ≡p x_2 t ∧ fval (z2 s) ≡p z_2 t ∧ fval (x3 s) ≡p x_3 t ∧ fval (z3 s) ≡p z_3 t.

Lemma scalar_bit e pos :
  all_bytes e = true → (pos < 8 * length e)%nat →
  1 .& (at_ e (pos / 8) .>> Z.of_nat (pos mod 8)) = c_bool (Z.testbit (le_value e) (Z.of_nat pos)).
Proof.
  intros He Hp. pose proof (Nat.div_mod_eq pos 8). pose proof (Nat.mod_upper_bound pos 8 ltac:(lia)).
  replace (Z.of_nat pos) with (8 * Z.of_nat (pos / 8) + Z.of_nat (pos mod 8)) by lia.
  rewrite le_value_testbit by (done || lia || (apply Nat.Div0.div_lt_upper_bound; lia)).
  rewrite Z.land_comm. change 1 with (Z.ones 1). rewrite Z.land_ones by lia.
  rewrite <- Z.bit0_mod, Z.shiftr_spec, Z.add_0_l by lia. by destruct (Z.testbit _ _).
Qed.

(** The swaps at the head of a turn and after the loop. *)
Lemma stands_cswap s sw t b :
  stands s sw t →
  (∃ a c d e, fe_cswap (x2 s) (x3 s) (c_bool b) = (a, d) ∧ fe_cswap (z2 s) (z3 s) (c_bool b) = (c, e) ∧
    (tight a ∧ tight c ∧ tight d ∧ tight e) ∧
    fval a ≡p x_2 (cswap b t) ∧ fval c ≡p z_2 (cswap b t) ∧ fval d ≡p x_3 (cswap b t) ∧ fval e ≡p z_3 (cswap b t)).
Proof.
  intros (_ & (T1 & T2 & T3 & T4) & E1 & E2 & E3 & E4). rewrite !fe_cswap_spec by done.
  destruct b; do 4 eexists; split_and!; eauto.
Qed.

Lemma ladder_turn_spec x1 x_1 e pos s sw t :
  all_bytes e = true → (pos < 8 * length e)%nat → tight x1 → fval x1 ≡p x_1 → stands s sw t →
  let k := Z.testbit (le_value e) (Z.of_nat pos) in
  stands (ladder_turn x1 e pos s) k (ladder_step x_1 (cswap (xorb sw k) t)).
Proof.
  intros He Hp Tx Ex Hs. cbv zeta. unfold ladder_turn. rewrite scalar_bit by done. set (k := Z.testbit _ _).
  rewrite (proj1 Hs). replace (c_bool sw .^ c_bool k) with (c_bool (xorb sw k)) by (by destruct sw, k).
  destruct (stands_cswap s sw t (xorb sw k) Hs) as (a & c & d & f & -> & -> & (Ta & Tc & Td & Tf) & Ea & Ec & Ed & Ef).
  set (u := cswap _ t) in *. cbv zeta. unfold fe_mul_tll, fe_mul_ttt, fe_sq_tl.
  destruct (fe_sub_spec d f Td Tf) as [ED LD]. set (D := fe_sub d f) in *.
  destruct (fe_sub_spec a c Ta Tc) as [EB LB]. set (B := fe_sub a c) in *.
  destruct (fe_add_spec a c Ta Tc) as [EA LA]. set (A := fe_add a c) in *.
  destruct (fe_add_spec d f Td Tf) as [EC LC]. set (C := fe_add d f) in *.
  destruct (fe_mul_spec D A LD LA) as [EDA TDA]. set (DA := fe_mul_impl D A) in *.
  destruct (fe_mul_spec C B LC LB) as [ECB TCB]. set (CB := fe_mul_impl C B) in *.
  destruct (fe_sqr_spec B LB) as [EBB TBB]. set (BB := fe_sqr_impl B) in *.
  destruct (fe_sqr_spec A LA) as [EAA TAA]. set (AA := fe_sqr_impl A) in *.
  destruct (fe_add_spec DA CB TDA TCB) as [EP LP]. set (P := fe_add DA CB) in *.
  destruct (fe_sub_spec DA CB TDA TCB) as [EM LM]. set (M := fe_sub DA CB) in *.
  destruct (fe_mul_spec AA BB (tight_loose32 _ TAA) (tight_loose32 _ TBB)) as [EX2 TX2].
  destruct (fe_sub_spec AA BB TAA TBB) as [EE LE]. set (E := fe_sub AA BB) in *.
  destruct (fe_sqr_spec M LM) as [EMM TMM]. set (MM := fe_sqr_impl M) in *.
  destruct (fe_mul121666_spec E LE) as [EN TN]. set (N := fe_mul121666 E) in *.
  destruct (fe_sqr_spec P LP) as [EX3 TX3].
  destruct (fe_add_spec BB N TBB TN) as [EO LO]. set (O := fe_add BB N) in *.
  destruct (fe_mul_spec x1 MM (tight_loose32 _ Tx) (tight_loose32 _ TMM)) as [EZ3 TZ3].
  destruct (fe_mul_spec E O LE LO) as [EZ2 TZ2].
  split; [done|]. cbn [x2 z2 x3 z3]. split; [done|]. cbn [ladder_step x_2 z_2 x_3 z_3].
  rewrite !eqp_mod, EX2, EZ2, EX3, EZ3, EMM, EM, EO, EN, EP, EE, EAA, EBB, EDA, ECB, EA, EB, EC, ED, Ea, Ec, Ed, Ef, Ex.
  split_and!; apply eqp_eq; unfold a24; ring.
Qed.

Lemma ladder_loop_spec x1 x_1 e n s sw t :
  all_bytes e = true → (n <= 8 * length e)%nat → tight x1 → fval x1 ≡p x_1 → stands s sw t →
  ∃ sw' t', stands (ladder_loop x1 e n s) sw' t' ∧ cswap sw' t' = rfc_loop x_1 (le_value e) n sw t.
Proof.
  intros He Hn Tx Ex. revert s sw t. induction n as [|n IH]; intros s sw t Hs; [by exists sw, t|].
  cbn [ladder_loop rfc_loop]. apply IH; [lia|]. apply ladder_turn_spec; (done || lia).
Qed.

(** ** Bytes in *)

Lemma join a b i j k :
  0 <= a < 2 ^ 32 → 0 <= b → 0 <= i → 0 <= j → i + k = 32 → 0 <= k → j + k <= 32 →
  (a .>> i) .| u32 ((b .& Z.ones j) .<< k) = a / 2 ^ i + 2 ^ k * (b mod 2 ^ j).
Proof.
  intros Ha Hb Hi Hj Hik Hk Hjk. rewrite Z.land_ones, Z.shiftr_div_pow2 by lia.
  pose proof (Z.mod_pos_bound b (2 ^ j) ltac:(apply Z.pow_pos_nonneg; lia)) as Hm.
  assert (Hs : 0 <= (b mod 2 ^ j) .<< k < 4294967296).
  { rewrite Z.shiftl_mul_pow2 by lia. assert (2 ^ j * 2 ^ k <= 2 ^ 32) by (rewrite <- Z.pow_add_r by lia; apply Z.pow_le_mono_r; lia).
    pose proof (Z.pow_pos_nonneg 2 k ltac:(lia) ltac:(lia)). nia. }
  rewrite u32_small, Z.lor_comm, lor_shift_add by (done || lia || (split; [apply Z.div_pos; [lia|apply Z.pow_pos_nonneg; lia]|
    apply Z.div_lt_upper_bound; [apply Z.pow_pos_nonneg; lia|]; rewrite <- Z.pow_add_r by lia; rewrite Hik; lia])). lia.
Qed.

Lemma le32_words s : all_bytes s = true → length s = 32%nat →
  ∃ W1 W2 W3 W4 W5 W6 W7, let a i := get_unaligned_le32 s (4 * i) in
    (le_value s = a 0%nat + 2 ^ 32 * W1 ∧ W1 = a 1%nat + 2 ^ 32 * W2 ∧ W2 = a 2%nat + 2 ^ 32 * W3 ∧ W3 = a 3%nat + 2 ^ 32 * W4) ∧
    (W4 = a 4%nat + 2 ^ 32 * W5 ∧ W5 = a 5%nat + 2 ^ 32 * W6 ∧ W6 = a 6%nat + 2 ^ 32 * W7 ∧ W7 = a 7%nat) ∧
    ∀ i, (i < 8)%nat → 0 <= a i < 2 ^ 32.
Proof.
  intros Hs Hl. set (V := le_value s). pose proof (le_value_range s Hs) as HV. rewrite Hl in HV. fold V in HV.
  exists (V / 2 ^ 32), (V / 2 ^ 64), (V / 2 ^ 96), (V / 2 ^ 128), (V / 2 ^ 160), (V / 2 ^ 192), (V / 2 ^ 224).
  assert (Ha : ∀ i, (i < 8)%nat → get_unaligned_le32 s (4 * i) = V / 2 ^ (32 * Z.of_nat i) mod 2 ^ 32).
  { intros i Hi. unfold get_unaligned_le32. rewrite le_value_slice by (done || lia).
    change (256 ^ Z.of_nat 4) with (2 ^ 32). do 2 f_equal. change 256 with (2 ^ 8). rewrite <- Z.pow_mul_r by lia. f_equal. lia. }
  assert (Hd : ∀ k, 0 <= k → V / 2 ^ k = V / 2 ^ k mod 2 ^ 32 + 2 ^ 32 * (V / 2 ^ (k + 32))).
  { intros k Hk. rewrite (Z.div_mod (V / 2 ^ k) (2 ^ 32)) at 1 by lia.
    rewrite Z.div_div, <- Z.pow_add_r by (try apply Z.pow_nonzero; lia). lia. }
  cbv zeta. split_and!; rewrite ?Ha by lia; cbn [Z.of_nat Z.mul]; try (apply Hd; lia).
  - rewrite <- (Z.div_1_r V) at 1. apply (Hd 0). lia.
  - change (Z.of_nat 7) with 7. symmetry. apply Z.mod_small. split; [apply Z.div_pos; lia|apply Z.div_lt_upper_bound; lia].
  - intros i Hi. rewrite Ha by done. by apply Z.mod_pos_bound.
Qed.

Lemma fe_frombytes_spec s :
  all_bytes s = true → length s = 32%nat → fval (fe_frombytes s) = le_value s mod 2 ^ 255 ∧ tight (fe_frombytes s).
Proof.
  intros Hs Hl. destruct (le32_words s Hs Hl) as (W1 & W2 & W3 & W4 & W5 & W6 & W7 & (E0 & E1 & E2 & E3) & (E4 & E5 & E6 & E7) & Ha).
  unfold fe_frombytes, fe_frombytes_impl. cbv zeta.
  pose proof (Ha 0%nat ltac:(lia)). pose proof (Ha 1%nat ltac:(lia)). pose proof (Ha 2%nat ltac:(lia)). pose proof (Ha 3%nat ltac:(lia)).
  pose proof (Ha 4%nat ltac:(lia)). pose proof (Ha 5%nat ltac:(lia)). pose proof (Ha 6%nat ltac:(lia)). pose proof (Ha 7%nat ltac:(lia)).
  clear Ha. cbn [Nat.mul Nat.add] in *.
  set (a0 := get_unaligned_le32 s 0) in *. set (a1 := get_unaligned_le32 s 4) in *. set (a2 := get_unaligned_le32 s 8) in *.
  set (a3 := get_unaligned_le32 s 12) in *. set (a4 := get_unaligned_le32 s 16) in *. set (a5 := get_unaligned_le32 s 20) in *.
  set (a6 := get_unaligned_le32 s 24) in *. set (a7 := get_unaligned_le32 s 28) in *. clearbody a0 a1 a2 a3 a4 a5 a6 a7.
  rewrite !join by lia. rewrite !Z.land_ones, !Z.shiftr_div_pow2 by lia.
  destruct (divmod a0 26) as (D0 & M0 & P0); [lia..|]. destruct (divmod a1 19) as (D1 & M1 & P1); [lia..|].
  destruct (divmod a2 13) as (D2 & M2 & P2); [lia..|]. destruct (divmod a3 6) as (D3 & M3 & P3); [lia..|].
  destruct (divmod a4 25) as (D4 & M4 & P4); [lia..|]. destruct (divmod a5 19) as (D5 & M5 & P5); [lia..|].
  destruct (divmod a6 12) as (D6 & M6 & P6); [lia..|]. destruct (divmod a7 6) as (D7 & M7 & P7); [lia..|].
  destruct (divmod (a7 / 2 ^ 6) 25) as (D8 & M8 & P8); [lia..|].
  generalize dependent (a7 / 2 ^ 6 / 2 ^ 25). generalize dependent (a7 / 2 ^ 6 mod 2 ^ 25).
  generalize dependent (a0 / 2 ^ 26). generalize dependent (a1 / 2 ^ 19). generalize dependent (a2 / 2 ^ 13).
  generalize dependent (a3 / 2 ^ 6). generalize dependent (a4 / 2 ^ 25). generalize dependent (a5 / 2 ^ 19).
  generalize dependent (a6 / 2 ^ 12). generalize dependent (a7 / 2 ^ 6).
  generalize dependent (a0 mod 2 ^ 26). generalize dependent (a1 mod 2 ^ 19). generalize dependent (a2 mod 2 ^ 13).
  generalize dependent (a3 mod 2 ^ 6). generalize dependent (a4 mod 2 ^ 25). generalize dependent (a5 mod 2 ^ 19).
  generalize dependent (a6 mod 2 ^ 12). generalize dependent (a7 mod 2 ^ 6). intros.
  split; [|unfold tight, within; cbn [v0 v1 v2 v3 v4 v5 v6 v7 v8 v9]; lia].
  match goal with H : 0 <= ?t, E : ?q = 2 ^ 25 * ?t + _ |- _ => apply (Z.mod_unique_pos _ _ t) end;
    unfold fval; cbn [v0 v1 v2 v3 v4 v5 v6 v7 v8 v9]; lia.
Qed.

(** ** Bytes out *)

(** A step of the borrow chain, exact whatever the borrow in. *)
Lemma borrow_step c a b k :
  0 <= c <= 1 → 0 <= a <= 2 ^ k → 0 <= b <= 2 ^ k - 1 → 2 ^ k <= 2 ^ 26 → a - b - c < 2 ^ k → 0 <= k →
  let x := a -₃₂ b -₃₂ c in
  ∃ q, x .>> 31 = q ∧ x .& Z.ones k = a - b - c + 2 ^ k * q ∧ 0 <= a - b - c + 2 ^ k * q <= 2 ^ k - 1 ∧ 0 <= q <= 1.
Proof.
  intros Hc Ha Hb H26 Hlt Hk. cbv zeta.
  assert (Hx : a -₃₂ b -₃₂ c = (a - b - c) mod 2 ^ 32) by (unfold u32; by rewrite Zminus_mod_idemp_l).
  rewrite Hx, Z.shiftr_div_pow2, Z.land_ones by lia. set (d := a - b - c) in *.
  destruct (Z.lt_ge_cases d 0) as [Hneg|Hpos].
  - exists 1. assert (Hd : d mod 2 ^ 32 = d + 2 ^ 32) by (symmetry; apply (Z.mod_unique_pos _ _ (-1)); lia).
    rewrite Hd. assert (Hk32 : (2 ^ k | 2 ^ 32)) by (exists (2 ^ (32 - k)); rewrite <- Z.pow_add_r; [f_equal; lia|
      apply Z.le_trans with (32 - 26); [lia|]; apply (Z.pow_le_mono_r_iff 2) in H26; lia|lia]).
    destruct Hk32 as [m Hm]. split; [symmetry; apply (Z.div_unique_pos _ _ _ (d + 2 ^ 31)); lia|].
    split; [|lia]. symmetry. apply (Z.mod_unique_pos _ _ (m - 1)); lia.
  - exists 0. rewrite (Z.mod_small d (2 ^ 32)), (Z.mod_small d), Z.div_small by lia. lia.
Qed.

(** A step of the carry chain that adds the prime back. *)
Lemma add_step c a b k :
  0 <= c <= 1 → 0 <= a <= 2 ^ k - 1 → 0 <= b <= 2 ^ k - 1 → 0 <= k → 2 ^ k <= 2 ^ 26 →
  let x := a +₃₂ b +₃₂ c in
  ∃ q, (x .>> k) .& 1 = q ∧ x .& Z.ones k = a + b + c - 2 ^ k * q ∧ 0 <= a + b + c - 2 ^ k * q <= 2 ^ k - 1 ∧ 0 <= q <= 1.
Proof.
  intros Hc Ha Hb Hk H26. cbv zeta. rewrite (u32_small (a + b)), (u32_small (a + b + c)), Z.land_ones, Z.shiftr_div_pow2 by lia.
  set (s := a + b + c) in *. destruct (Z.lt_ge_cases s (2 ^ k)) as [H|H].
  - exists 0. rewrite Z.div_small, Z.mod_small by lia. change (0 .& 1) with 0. lia.
  - exists 1. assert (s / 2 ^ k = 1) as -> by (symmetry; apply (Z.div_unique_pos _ _ _ (s - 2 ^ k)); lia).
    change (1 .& 1) with 1. split; [done|]. split; [|lia]. symmetry. apply (Z.mod_unique_pos _ _ 1); lia.
Qed.

Lemma mask_cases q : 0 <= q <= 1 → cmovznz32 q 0 0xffffffff = if q =? 0 then 0 else 0xffffffff.
Proof. intros Hq. assert (q = 0 ∨ q = 1) as [-> | ->] by lia; reflexivity. Qed.

Lemma sub26 c a b : 0 <= c <= 1 → 0 <= a <= 2 ^ 26 → 0x3ffffed <= b <= 2 ^ 26 - 1 →
  ∃ q l, subborrow_u26 c a b = (q, l) ∧ l = a - b - c + 2 ^ 26 * q ∧ 0 <= l < 2 ^ 26 ∧ 0 <= q <= 1.
Proof.
  intros. destruct (borrow_step c a b 26) as (q & Hq & Hl & ? & ?); [lia..|].
  unfold subborrow_u26. cbv zeta. change 0x3ffffff with (Z.ones 26). rewrite Hq, Hl. do 2 eexists. split; [done|]. lia.
Qed.
Lemma sub25 c a b : 0 <= c <= 1 → 0 <= a <= 2 ^ 25 → 0x1ffffed <= b <= 2 ^ 25 - 1 →
  ∃ q l, subborrow_u25 c a b = (q, l) ∧ l = a - b - c + 2 ^ 25 * q ∧ 0 <= l < 2 ^ 25 ∧ 0 <= q <= 1.
Proof.
  intros. destruct (borrow_step c a b 25) as (q & Hq & Hl & ? & ?); [lia..|].
  unfold subborrow_u25. cbv zeta. change 0x1ffffff with (Z.ones 25). rewrite Hq, Hl. do 2 eexists. split; [done|]. lia.
Qed.
Lemma add26 c a b : 0 <= c <= 1 → 0 <= a < 2 ^ 26 → 0 <= b < 2 ^ 26 →
  ∃ q l, addcarryx_u26 c a b = (q, l) ∧ l = a + b + c - 2 ^ 26 * q ∧ 0 <= l < 2 ^ 26 ∧ 0 <= q <= 1.
Proof.
  intros. destruct (add_step c a b 26) as (q & Hq & Hl & ? & ?); [lia..|].
  unfold addcarryx_u26. cbv zeta. change 0x3ffffff with (Z.ones 26). rewrite Hq, Hl. do 2 eexists. split; [done|]. lia.
Qed.
Lemma add25 c a b : 0 <= c <= 1 → 0 <= a < 2 ^ 25 → 0 <= b < 2 ^ 25 →
  ∃ q l, addcarryx_u25 c a b = (q, l) ∧ l = a + b + c - 2 ^ 25 * q ∧ 0 <= l < 2 ^ 25 ∧ 0 <= q <= 1.
Proof.
  intros. destruct (add_step c a b 25) as (q & Hq & Hl & ? & ?); [lia..|].
  unfold addcarryx_u25. cbv zeta. change 0x1ffffff with (Z.ones 25). rewrite Hq, Hl. do 2 eexists. split; [done|]. lia.
Qed.

(** [tight] with the top values left out. *)
Definition frozen (h : fe) : Prop :=
  (0 <= v0 h < 2 ^ 26 ∧ 0 <= v1 h < 2 ^ 25 ∧ 0 <= v2 h < 2 ^ 26 ∧ 0 <= v3 h < 2 ^ 25 ∧ 0 <= v4 h < 2 ^ 26) ∧
  (0 <= v5 h < 2 ^ 25 ∧ 0 <= v6 h < 2 ^ 26 ∧ 0 <= v7 h < 2 ^ 25 ∧ 0 <= v8 h < 2 ^ 26 ∧ 0 <= v9 h < 2 ^ 25).

(** The masked limbs of the prime are [m] times the limbs. *)
Lemma mask_prime q : 0 <= q <= 1 →
  let m := cmovznz32 q 0 0xffffffff in
  m .& 0x3ffffed = 0x3ffffed * q ∧ m .& 0x3ffffff = 0x3ffffff * q ∧ m .& 0x1ffffff = 0x1ffffff * q.
Proof. intros Hq. assert (q = 0 ∨ q = 1) as [-> | ->] by lia; done. Qed.

Lemma fe_freeze_spec f : tight f → fval (fe_freeze f) = fval f mod P25519 ∧ frozen (fe_freeze f).
Proof.
  destruct f as [a0 a1 a2 a3 a4 a5 a6 a7 a8 a9]. unfold tight, within. cbn [v0 v1 v2 v3 v4 v5 v6 v7 v8 v9].
  intros [(A0 & A1 & A2 & A3 & A4) (A5 & A6 & A7 & A8 & A9)]. unfold fe_freeze.
  destruct (sub26 0 a0 0x3ffffed) as (b0 & l0 & -> & L0 & ? & ?); [lia..|].
  destruct (sub25 b0 a1 0x1ffffff) as (b1 & l1 & -> & L1 & ? & ?); [lia..|].
  destruct (sub26 b1 a2 0x3ffffff) as (b2 & l2 & -> & L2 & ? & ?); [lia..|].
  destruct (sub25 b2 a3 0x1ffffff) as (b3 & l3 & -> & L3 & ? & ?); [lia..|].
  destruct (sub26 b3 a4 0x3ffffff) as (b4 & l4 & -> & L4 & ? & ?); [lia..|].
  destruct (sub25 b4 a5 0x1ffffff) as (b5 & l5 & -> & L5 & ? & ?); [lia..|].
  destruct (sub26 b5 a6 0x3ffffff) as (b6 & l6 & -> & L6 & ? & ?); [lia..|].
  destruct (sub25 b6 a7 0x1ffffff) as (b7 & l7 & -> & L7 & ? & ?); [lia..|].
  destruct (sub26 b7 a8 0x3ffffff) as (b8 & l8 & -> & L8 & ? & ?); [lia..|].
  destruct (sub25 b8 a9 0x1ffffff) as (q & l9 & -> & L9 & ? & Hq); [lia..|].
  destruct (mask_prime q Hq) as (Me & Mf & Mg). cbv zeta in *. rewrite Me, Mf, Mg. clear Me Mf Mg.
  destruct (add26 0 l0 (0x3ffffed * q)) as (c0 & m0 & -> & N0 & ? & ?); [lia..|].
  destruct (add25 c0 l1 (0x1ffffff * q)) as (c1 & m1 & -> & N1 & ? & ?); [lia..|].
  destruct (add26 c1 l2 (0x3ffffff * q)) as (c2 & m2 & -> & N2 & ? & ?); [lia..|].
  destruct (add25 c2 l3 (0x1ffffff * q)) as (c3 & m3 & -> & N3 & ? & ?); [lia..|].
  destruct (add26 c3 l4 (0x3ffffff * q)) as (c4 & m4 & -> & N4 & ? & ?); [lia..|].
  destruct (add25 c4 l5 (0x1ffffff * q)) as (c5 & m5 & -> & N5 & ? & ?); [lia..|].
  destruct (add26 c5 l6 (0x3ffffff * q)) as (c6 & m6 & -> & N6 & ? & ?); [lia..|].
  destruct (add25 c6 l7 (0x1ffffff * q)) as (c7 & m7 & -> & N7 & ? & ?); [lia..|].
  destruct (add26 c7 l8 (0x3ffffff * q)) as (c8 & m8 & -> & N8 & ? & ?); [lia..|].
  destruct (add25 c8 l9 (0x1ffffff * q)) as (c & m9 & -> & N9 & ? & ?); [lia..|].
  split; [|unfold frozen; cbn [v0 v1 v2 v3 v4 v5 v6 v7 v8 v9]; lia].
  set (V := fval (Fe a0 a1 a2 a3 a4 a5 a6 a7 a8 a9)). set (L := fval (Fe l0 l1 l2 l3 l4 l5 l6 l7 l8 l9)).
  set (M := fval (Fe m0 m1 m2 m3 m4 m5 m6 m7 m8 m9)).
  assert (HV : 0 <= V < 2 * P25519) by (unfold V, fval, P25519; cbn [v0 v1 v2 v3 v4 v5 v6 v7 v8 v9]; lia).
  assert (HL : 0 <= L < 2 ^ 255) by (unfold L, fval; cbn [v0 v1 v2 v3 v4 v5 v6 v7 v8 v9]; lia).
  assert (HM : 0 <= M < 2 ^ 255) by (unfold M, fval; cbn [v0 v1 v2 v3 v4 v5 v6 v7 v8 v9]; lia).
  assert (EL : L = V - P25519 + 2 ^ 255 * q) by (unfold V, L, fval, P25519; cbn [v0 v1 v2 v3 v4 v5 v6 v7 v8 v9]; lia).
  assert (EM : M = L + P25519 * q - 2 ^ 255 * c) by (unfold M, L, fval, P25519; cbn [v0 v1 v2 v3 v4 v5 v6 v7 v8 v9]; lia).
  clearbody V L M. assert (Hc : 0 <= c <= 1) by done. clear -HV HL HM EL EM Hq Hc. unfold P25519 in *.
  apply (Z.mod_unique_pos _ _ (1 - q)); lia.
Qed.

Lemma byte_low h a : 0 <= h → 0 <= a → u8 (h .>> a) = h / 2 ^ a - 256 * (h / 2 ^ (a + 8)).
Proof.
  intros Hh Ha. rewrite Z.shiftr_div_pow2, Z.pow_add_r by lia. rewrite <- Z.div_div by (try apply Z.pow_nonzero; lia).
  unfold u8. rewrite Z.mod_eq by lia. done.
Qed.

Lemma byte_mix h g a b :
  0 <= a → 0 <= b <= 8 → 0 <= h < 2 ^ (a + b) → 0 <= g < 2 ^ 26 → b <= 6 →
  u8 ((h .>> a) .| u32 (g .<< b)) = h / 2 ^ a + 2 ^ b * g - 256 * (g / 2 ^ (8 - b)).
Proof.
  intros Ha Hb Hh Hg Hb6. pose proof (Z.pow_pos_nonneg 2 a ltac:(lia) Ha). pose proof (Z.pow_pos_nonneg 2 b ltac:(lia) ltac:(lia)).
  assert (Hlo : 0 <= h / 2 ^ a < 2 ^ b).
  { split; [apply Z.div_pos; lia|]. apply Z.div_lt_upper_bound; [lia|]. rewrite <- Z.pow_add_r by lia; lia. }
  assert (Hs : 0 <= g .<< b < 4294967296).
  { rewrite Z.shiftl_mul_pow2 by lia. assert (2 ^ b <= 2 ^ 6) by (apply Z.pow_le_mono_r; lia). nia. }
  rewrite Z.shiftr_div_pow2, u32_small, Z.lor_comm, lor_shift_add by lia.
  assert (Hw : 2 ^ 8 = 2 ^ (8 - b) * 2 ^ b) by (rewrite <- Z.pow_add_r by lia; f_equal; lia).
  destruct (divmod g (8 - b)) as (E & M & D); [lia..|].
  unfold u8. symmetry. apply (Z.mod_unique_pos _ _ (g / 2 ^ (8 - b))); [|lia].
  change 256 with (2 ^ 8). rewrite Hw.
  replace (h / 2 ^ a + 2 ^ b * g - 2 ^ (8 - b) * 2 ^ b * (g / 2 ^ (8 - b))) with (h / 2 ^ a + 2 ^ b * (g mod 2 ^ (8 - b))) by nia. nia.
Qed.

Ltac norm_shifts := repeat match goal with
  | |- context [2 ^ (?a + 8)] => let k := eval vm_compute in (a + 8) in change (2 ^ (a + 8)) with (2 ^ k)
  | |- context [2 ^ (8 - ?a)] => let k := eval vm_compute in (8 - a) in change (2 ^ (8 - a)) with (2 ^ k)
  end.

Lemma u8_byte x : is_byte (u8 x) = true.
Proof. apply is_byte_spec, u8_range. Qed.

Lemma fe_tobytes_spec f : tight f → fe_tobytes f = le_bytes 32 (fval f mod P25519).
Proof.
  intros Hf. destruct (fe_freeze_spec f Hf) as [HV Hz]. rewrite <- HV. unfold fe_tobytes. cbv zeta.
  destruct (fe_freeze f) as [h0 h1 h2 h3 h4 h5 h6 h7 h8 h9]. clear HV Hf f. unfold frozen in Hz.
  cbn [v0 v1 v2 v3 v4 v5 v6 v7 v8 v9] in *.
  match goal with |- ?l = _ => set (out := l) end.
  assert (Hb : all_bytes out = true) by (unfold out, all_bytes; cbn [forallb]; rewrite !u8_byte; reflexivity).
  rewrite <- (le_bytes_value out Hb). change (length out) with 32%nat. f_equal. unfold out. clear out Hb.
  cbn [le_value]. rewrite !byte_mix by lia. rewrite !byte_low by lia. norm_shifts.
  rewrite (Z.div_small h4 (2 ^ 26)), (Z.div_small h9 (2 ^ 26)) by lia. change (2 ^ 0) with 1. rewrite !Z.div_1_r. clear Hz.
  unfold fval. cbn [v0 v1 v2 v3 v4 v5 v6 v7 v8 v9].
  repeat match goal with |- context [?h / 2 ^ ?k] => generalize (h / 2 ^ k); intro end. lia.
Qed.

(** ** The function *)

Lemma fiat32_generic_x25519 scalar point :
  all_bytes scalar = true → length scalar = 32%nat → all_bytes point = true → length point = 32%nat →
  curve25519_generic scalar point = x25519 scalar point.
Proof.
  intros Hs Ls Hp Lp. unfold curve25519_generic, x25519, x25519_value, fe_copy. cbv zeta.
  destruct (fe_frombytes_spec point Hp Lp) as [Ex Tx]. set (x1 := fe_frombytes point) in *.
  set (x_1 := le_value point mod 2 ^ 255) in *. set (e := curve25519_clamp_secret scalar).
  destruct (ladder_loop_spec x1 x_1 e 255 {| x2 := fe_1; z2 := fe_0; x3 := x1; z3 := fe_1; swap := 0 |} false (ladder_start x_1))
    as (sw & t & Hst & <-); [by apply clamp_bytes|unfold e; rewrite clamp_length; lia|done|by rewrite Ex| |].
  { split; [done|]. split; [repeat split; try apply Tx; cbn; lia|]. cbn [x2 z2 x3 z3 ladder_start x_2 z_2 x_3 z_3]. by rewrite Ex. }
  set (s := ladder_loop _ _ _ _) in *. clearbody s. rewrite (proj1 Hst).
  destruct (stands_cswap s sw t sw Hst) as (a & c & d & f & -> & -> & (Ta & Tc & _ & _) & Ea & Ec & _).
  destruct (fe_invert_spec c Tc) as [Ei Ti]. destruct (fe_mul_tight a (fe_invert c) Ta Ti) as [Em Tm].
  unfold fe_mul_ttt. rewrite fe_tobytes_spec by done. f_equal. unfold ladder_result. apply eqp_iff. rewrite Em, Ei, Ea, Ec.
  rewrite Zpow_mod_correct by done. by rewrite eqp_mod.
Qed.

(** C3: the 32-bit implementation of [curve25519], generated by fiat-crypto, computes
    the X25519 function of RFC 7748 on every secret and every coordinate of 32
    bytes: the [u64] products never wrap, the unrolled loop with its lazy
    swaps follows the loop of the RFC, and [fe_tobytes] stores the reduced
    coordinate. *)
Theorem fiat32_computes_x25519 secret basepoint :
  all_bytes secret = true → length secret = CURVE25519_KEY_SIZE →
  all_bytes basepoint = true → length basepoint = CURVE25519_KEY_SIZE →
  curve25519 secret basepoint = x25519 secret basepoint ∧
  curve25519_generate_public secret = x25519 secret (9 :: replicate 31 0).
Proof.
  intros Hs Ls Hb Lb. unfold curve25519_generate_public, curve25519.
  by rewrite !fiat32_generic_x25519.
Qed.

Lemma fiat32_computes_x25519_witness :
  curve25519 (replicate 32 0x5a) (replicate 32 0xff) = x25519 (replicate 32 0x5a) (replicate 32 0xff) ∧
  curve25519_generate_public (replicate 32 0x5a) = x25519 (replicate 32 0x5a) (9 :: replicate 31 0).
Proof. exact (fiat32_computes_x25519 (replicate 32 0x5a) (replicate 32 0xff) eq_refl eq_refl eq_refl eq_refl). Defined.
