(* ===== verification/Curve25519.v ===== *)
(** * Curve25519: curve25519.c chooses between two implementations

    Which header is included depends on [__SIZEOF_INT128__].  The two agree, and
    the function that pubkey.c calls writes keys. *)

From Stdlib Require Import Ascii String.
From stdpp Require Import base numbers option sets list list_numbers strings.
From S2P Require Import Prelude Field25519 X25519.
From S2P Require Import CurveHacl64 CurveHacl64Spec CurveFiat32 CurveFiat32Spec.
#[local] Open Scope c_scope.

(** [curve25519_generate_public] of a build with or without 128-bit integers. *)
Definition generate_public (int128 : bool) (secret : bytes) : bytes :=
  if int128 then CurveHacl64.curve25519_generate_public secret else CurveFiat32.curve25519_generate_public secret.

Lemma le_bytes_all n v : all_bytes (le_bytes n v) = true.
Proof.
  revert v. induction n as [|n IH]; intros v; [done|]. cbn [le_bytes]. rewrite all_bytes_cons, IH, andb_true_r.
  apply is_byte_spec, Z.mod_pos_bound. lia.
Qed.

Lemma x25519_key s b : all_bytes (x25519 s b) = true ∧ length (x25519 s b) = 32%nat.
Proof. split; [apply le_bytes_all|apply le_bytes_length]. Qed.

Lemma generate_public_x25519 int128 secret :
  all_bytes secret = true → length secret = CURVE25519_KEY_SIZE →
  generate_public int128 secret = x25519 secret (9 :: replicate 31 0).
Proof.
  intros Hs Ls. destruct int128; unfold generate_public.
  - unfold CurveHacl64.curve25519_generate_public, CurveHacl64.curve25519, basepoint9.
    by rewrite hacl64_generic_x25519.
  - unfold CurveFiat32.curve25519_generate_public, CurveFiat32.curve25519.
    by rewrite fiat32_generic_x25519.
Qed.

(** Clamping twice is clamping once. *)
Lemma clamp_idemp s :
  all_bytes s = true → length s = 32%nat → curve25519_clamp_secret (curve25519_clamp_secret s) = curve25519_clamp_secret s.
Proof.
  intros Hs Hl. unfold curve25519_clamp_secret.
  assert (H0 : ∀ x, 0 <= x < 256 → (x .& 248) .& 248 = x .& 248) by (intros; by rewrite <- Z.land_assoc).
  assert (H1 : ∀ x, (((x .& 127) .| 64) .& 127) .| 64 = (x .& 127) .| 64).
  { intros x. apply Z.bits_inj'. intros n Hn. rewrite !Z.lor_spec, !Z.land_spec, !Z.lor_spec, !Z.land_spec.
    by destruct (Z.testbit x n), (Z.testbit 127 n), (Z.testbit 64 n). }
  destruct s as [|b0 s]; [done|]. do 31 (destruct s as [|? s]; [done|]). destruct s; [|done].
  pose proof (all_bytes_at _ 0 Hs) as Hb. unfold at_ in *. simpl in *. by rewrite H0, H1.
Qed.

Lemma x25519_clamped s b :
  all_bytes s = true → length s = 32%nat → x25519 (curve25519_clamp_secret s) b = x25519 s b.
Proof. intros. unfold x25519. by rewrite clamp_idemp. Qed.

(** The two implementations of Curve25519 that curve25519.c can be built with
    compute the same bytes from the same secret and coordinate. *)
Theorem curve25519_implementations_agree secret basepoint :
  all_bytes secret = true → length secret = CURVE25519_KEY_SIZE →
  all_bytes basepoint = true → length basepoint = CURVE25519_KEY_SIZE →
  CurveHacl64.curve25519 secret basepoint = CurveFiat32.curve25519 secret basepoint.
Proof.
  intros. unfold CurveHacl64.curve25519, CurveFiat32.curve25519.
  by rewrite hacl64_generic_x25519, fiat32_generic_x25519.
Qed.

Lemma curve25519_implementations_agree_witness :
  CurveHacl64.curve25519 (replicate 32 0xab) (9 :: replicate 31 0) = CurveFiat32.curve25519 (replicate 32 0xab) (9 :: replicate 31 0).
Proof.
  exact (curve25519_implementations_agree (replicate 32 0xab) (9 :: replicate 31 0) eq_refl eq_refl eq_refl eq_refl).
Defined.
