(* ===== verification/Keys.v ===== *)
(** * Keys: genkey.c and pubkey.c

    The system's sources of randomness are a record of the answers of
    [getentropy], [getrandom], [open] and [read]; a key buffer starts with
    whatever the stack holds.  What the tools write to standard error is not
    modelled. *)

From Stdlib Require Import Ascii String.
From stdpp Require Import base numbers option sets list list_numbers strings.
From S2P Require Import Prelude CLib Ctype Encoding Showconf ShowconfSpec Field25519 X25519 Curve25519.
#[local] Open Scope c_scope.

(** ** Randomness *)

(** [getentropy] and [getrandom] are [None] where the build has none.  Each call
    gives its result and the bytes it stored at the start of its buffer;
    [read] is told how many calls came before. *)
Record randomness := {
  getentropy : option (nat → Z * bytes);
  getrandom : option (nat → Z * bytes);
  open_urandom : bool;
  read_urandom : nat → nat → Z * bytes;
}.

(** What the manual pages promise. *)
Record randomness_laws (R : randomness) : Prop := {
  getentropy_all f n : getentropy R = Some f → (f n).1 = 0 → length (f n).2 = n;
  getentropy_bound f n : getentropy R = Some f → (length (f n).2 <= n)%nat;
  getentropy_bytes f n : getentropy R = Some f → all_bytes (f n).2 = true;
  getrandom_count f n : getrandom R = Some f → Z.of_nat (length (f n).2) = Z.max 0 (f n).1;
  getrandom_bound f n : getrandom R = Some f → (length (f n).2 <= n)%nat;
  getrandom_bytes f n : getrandom R = Some f → all_bytes (f n).2 = true;
  read_count k n : Z.of_nat (length (read_urandom R k n).2) = Z.max 0 (read_urandom R k n).1;
  read_bound k n : (length (read_urandom R k n).2 <= n)%nat;
  read_bytes k n : all_bytes (read_urandom R k n).2 = true;
}.

(** Storing [b] at [out + i]. *)
Definition store_at (i : nat) (b out : bytes) : bytes := take i out ++ b ++ drop (i + length b) out.

Section Keys.
Context {plat : Platform}.
Variable R : randomness.

(** [for (errno = 0, i = 0; i < len; i += ret, ret = 0)]: the count reached and
    the buffer.  Every turn but the last reads at least a byte. *)
Fixpoint urandom_loop (fuel k i len : nat) (out : bytes) : outcome (nat * bytes) :=
  if (i <? len)%nat then
    match fuel with
    | O => NoFuel
    | S fuel' =>
        let '(ret, b) := read_urandom R k (len - i) in
        let out := store_at i b out in
        if ret <=? 0 then Done (i, out)
        else urandom_loop fuel' (S k) (i + Z.to_nat ret) len out
    end
  else Done (i, out).

(** [if (!getentropy(out, len)) return true;], and the same for the system call. *)
Definition try_getentropy (out : bytes) (len : nat) : bool * bytes :=
  match getentropy R with
  | Some f => let '(r, b) := f len in (r =? 0, store_at 0 b out)
  | None => (false, out)
  end.
Definition try_getrandom (out : bytes) (len : nat) : bool * bytes :=
  match getrandom R with
  | Some f => let '(r, b) := f len in (r =? Z.of_nat len, store_at 0 b out)
  | None => (false, out)
  end.

(** [get_random_bytes(out, len)]: its result, and the buffer. *)
Definition get_random_bytes (out : bytes) (len : nat) : outcome (bool * bytes) :=
  if (256 <? len)%nat then Done (false, out)
  else
    let '(ok, out) := try_getentropy out len in
    if (ok : bool) then Done (true, out)
    else
      let '(ok, out) := try_getrandom out len in
      if (ok : bool) then Done (true, out)
      else if negb (open_urandom R) then Done (false, out)
      else
        match urandom_loop len 0 0 len out with
        | Done (i, out) => Done ((i =? len)%nat, out)
        | Exit c => Exit c
        | Undefined => Undefined
        | NoFuel => NoFuel
        end.

(** [genkey_main(argc, argv)]: the exit status and standard output.  [key] is the
    uninitialised buffer. *)
Definition genkey_main (key : bytes) (argv : list bytes) : outcome (Z * bytes) :=
  match argv with
  | [cmd] =>
      match get_random_bytes key WG_KEY_LEN with
      | Done (true, key) =>
          let key := if strcmp_eq cmd (str "genkey") then curve25519_clamp_secret key else key in
          Done (0, cstr (key_to_base64 key) ++ newline)
      | Done (false, _) => Done (1, [])
      | Exit c => Exit c
      | Undefined => Undefined
      | NoFuel => NoFuel
      end
  | _ => Done (1, [])
  end.

(** ** pubkey *)

(** The loop over [getc(stdin)] after the key: true when it meets the end of file. *)
Fixpoint only_space (s : bytes) : bool :=
  match s with
  | [] => true
  | c :: s' => if negb (truthy c) || char_is_space c then only_space s' else false
  end.

(** [pubkey_main(argc, argv)] on what standard input holds; [int128] chooses the
    implementation of the curve, [key] is the uninitialised buffer. *)
Definition pubkey_main (int128 : bool) (key : bytes) (argv : list bytes) (stdin : bytes) : Z * bytes :=
  match argv with
  | [_] =>
      let base64 := take (WG_KEY_LEN_BASE64 - 1) stdin in
      if negb (Nat.eqb (length base64) (WG_KEY_LEN_BASE64 - 1)) then (1, [])
      else if negb (only_space (drop (WG_KEY_LEN_BASE64 - 1) stdin)) then (1, [])
      else
        let '(ok, key) := key_from_base64 key (cstr base64) in
        if negb ok then (1, [])
        else (0, cstr (key_to_base64 (generate_public int128 key)) ++ newline)
  | _ => (1, [])
  end.
End Keys.

(** ** Randomness, proved *)

Lemma store_at_length i b out : (i + length b <= length out)%nat → length (store_at i b out) = length out.
Proof. intros H. unfold store_at. rewrite !length_app, length_take, length_drop. lia. Qed.

Lemma store_at_prefix i b out :
  (i + length b <= length out)%nat → take (i + length b) (store_at i b out) = take i out ++ b.
Proof.
  intros H. unfold store_at. rewrite app_assoc. apply take_app_length'.
  rewrite length_app, length_take. lia.
Qed.

Lemma store_at_all b out : length b = length out → store_at 0 b out = b.
Proof. intros H. unfold store_at. simpl. by rewrite H, drop_all, app_nil_r. Qed.

Section Random.
Context (R : randomness) (laws : randomness_laws R).

(** The loop ends, and what it has counted does not depend on the old contents. *)
Lemma urandom_loop_ok fuel : ∀ k i len out,
  length out = len → (i <= len)%nat → (len - i <= fuel)%nat → all_bytes (take i out) = true →
  ∃ n out', urandom_loop R fuel k i len out = Done (n, out') ∧ length out' = len ∧ (n <= len)%nat ∧
    all_bytes (take n out') = true ∧
    ∀ old, length old = len → take i old = take i out →
      ∃ old', urandom_loop R fuel k i len old = Done (n, old') ∧ take n old' = take n out'.
Proof.
  induction fuel as [|fuel IH]; intros k i len out Hlen Hi Hf Hb; simpl.
  { destruct (Nat.ltb_spec i len); [lia|]. exists i, out. split_and!; eauto. }
  destruct (Nat.ltb_spec i len) as [Hlt|]; [|exists i, out; split_and!; eauto].
  pose proof (read_count R laws k (len - i)) as Hc. pose proof (read_bound R laws k (len - i)) as Hbd.
  pose proof (read_bytes R laws k (len - i)) as Hby.
  destruct (read_urandom R k (len - i)) as [ret b]. simpl in *.
  assert (Hs : ∀ o : bytes, length o = len → (i + length b <= length o)%nat) by lia.
  destruct (Z.leb_spec ret 0) as [Hr|Hr].
  - exists i, (store_at i b out). assert (b = []) as -> by (apply nil_length_inv; lia).
    assert (Hid : ∀ o : bytes, length o = len → store_at i [] o = o) by (intros; unfold store_at; simpl; by rewrite Nat.add_0_r, take_drop).
    rewrite !Hid by done. split_and!; [done..|]. intros old Ho Ht. exists old. by rewrite Hid.
  - assert (Z.to_nat ret = length b) as -> by lia.
    destruct (IH (S k) (i + length b)%nat len (store_at i b out)) as (n & out' & E & L & N & B & U);
      [rewrite store_at_length; auto|lia|lia| |].
    { rewrite store_at_prefix, all_bytes_app, Hb by auto. done. }
    exists n, out'. split_and!; [done..|]. intros old Ho Ht.
    apply (U (store_at i b old)); [rewrite store_at_length; auto|]. rewrite !store_at_prefix by auto. by rewrite Ht.
Qed.

(** A source that writes the whole buffer whatever it held, or that fails. *)
Definition source_ok (len : nat) (source : bytes → bool * bytes) : Prop :=
  (∃ k, all_bytes k = true ∧ length k = len ∧ ∀ o, length o = len → source o = (true, k)) ∨
  (∀ o, length o = len → ∃ o', length o' = len ∧ source o = (false, o')).

Lemma try_getentropy_ok len : source_ok len (λ o, try_getentropy R o len).
Proof.
  unfold source_ok, try_getentropy. destruct (getentropy R) as [f|] eqn:E; [|right; eauto].
  pose proof (getentropy_all R laws f len E) as Ha. pose proof (getentropy_bytes R laws f len E).
  pose proof (getentropy_bound R laws f len E). destruct (f len) as [r b]. simpl in *.
  destruct (Z.eqb_spec r 0) as [->|]; [left; exists b|right; intros o Ho; exists (store_at 0 b o)].
  - split_and!; auto. intros o Ho. rewrite store_at_all by (rewrite Ha; auto). done.
  - split; [rewrite store_at_length; simpl; lia|done].
Qed.

Lemma try_getrandom_ok len : source_ok len (λ o, try_getrandom R o len).
Proof.
  unfold source_ok, try_getrandom. destruct (getrandom R) as [f|] eqn:E; [|right; eauto].
  pose proof (getrandom_count R laws f len E) as Ha. pose proof (getrandom_bytes R laws f len E).
  pose proof (getrandom_bound R laws f len E). destruct (f len) as [r b]. simpl in *.
  destruct (Z.eqb_spec r (Z.of_nat len)) as [->|]; [left; exists b|right; intros o Ho; exists (store_at 0 b o)].
  - split_and!; auto; [lia|]. intros o Ho. rewrite store_at_all by lia. done.
  - split; [rewrite store_at_length; simpl; lia|done].
Qed.

(** A call never runs out of fuel, and on success has overwritten the buffer. *)
Lemma get_random_bytes_ok len (out : bytes) :
  length out = len → ∃ b out', get_random_bytes R out len = Done (b, out') ∧ length out' = len ∧
    (b = true → all_bytes out' = true ∧ ∀ old, length old = len → get_random_bytes R old len = Done (true, out')).
Proof.
  intros Hlen. unfold get_random_bytes. destruct (256 <? len)%nat; [by exists false, out|].
  destruct (try_getentropy_ok len) as [(k & ? & ? & H1)|H1].
  { exists true, k. rewrite H1 by done. split_and!; auto. intros _. split; [done|]. intros old Ho. by rewrite H1. }
  destruct (H1 out Hlen) as (o1 & L1 & ->). destruct (try_getrandom_ok len) as [(k & ? & ? & H2)|H2].
  { exists true, k. rewrite H2 by done. split_and!; auto. intros _. split; [done|]. intros old Ho.
    destruct (H1 old Ho) as (o & ? & ->). by rewrite H2. }
  destruct (H2 o1 L1) as (o2 & L2 & ->). destruct (open_urandom R); [|by exists false, o2]. cbn [negb].
  destruct (urandom_loop_ok len 0 0 len o2) as (n & o3 & -> & L3 & N & B & U); [done|lia|lia|done|].
  exists (n =? len)%nat, o3. split_and!; [done..|]. intros ->%Nat.eqb_eq. rewrite take_ge in B by lia. split; [done|].
  intros old Ho. destruct (H1 old Ho) as (o4 & L4 & ->). destruct (H2 o4 L4) as (o5 & L5 & ->).
  pose proof (urandom_loop_ok len 0 0 len o5 L5 ltac:(lia) ltac:(lia) eq_refl) as (m & o6' & E6 & L6 & _).
  destruct (U o5 L5 eq_refl) as (o6 & E & Et). rewrite E. rewrite Nat.eqb_refl. do 2 f_equal.
  rewrite E in E6. simplify_eq. rewrite !take_ge in Et by lia. done.
Qed.
End Random.

(** ** Properties *)

(** C27: a successful [get_random_bytes] has written every byte of its buffer: for
    any sources of randomness that keep to their manual pages, short reads and
    failed calls included, the call ends, and when it returns true the result
    is [len] bytes that do not depend on what the buffer held before. *)
Theorem get_random_bytes_complete R (laws : randomness_laws R) len (out : bytes) (Hlen : length out = len) :
  ∃ b out', get_random_bytes R out len = Done (b, out') ∧ length out' = len ∧
    (b = true → all_bytes out' = true ∧ ∀ old, length old = len → get_random_bytes R old len = Done (true, out')).
Proof. by apply get_random_bytes_ok. Qed.

(** A system whose [getrandom] is interrupted after 5 bytes and whose device gives
    at most 20 bytes at a time. *)
Definition halting : randomness :=
  {| getentropy := Some (λ _, (-1, []));
     getrandom := Some (λ n, (Z.of_nat (Nat.min n 5), replicate (Nat.min n 5) 0xee));
     open_urandom := true;
     read_urandom := λ k n, (Z.of_nat (Nat.min n 20), replicate (Nat.min n 20) (Z.of_nat (k mod 100) + 1)) |}.

Lemma replicate_bytes n x : 0 <= x < 256 → all_bytes (replicate n x) = true.
Proof. intros Hx. induction n as [|n IH]; [done|]. cbn [replicate]. rewrite all_bytes_cons, IH, andb_true_r. by apply is_byte_spec. Qed.

Lemma halting_laws : randomness_laws halting.
Proof.
  split; intros; simpl in *; simplify_eq; simpl; rewrite ?length_replicate; try done; try lia;
    apply replicate_bytes; try pose proof (Nat.mod_upper_bound k 100); lia.
Qed.

Lemma get_random_bytes_complete_witness :
  get_random_bytes halting (replicate 32 0) 32 = Done (true, replicate 20 1 ++ replicate 12 2) ∧
  ∀ old, length old = 32%nat → get_random_bytes halting old 32 = Done (true, replicate 20 1 ++ replicate 12 2).
Proof.
  destruct (get_random_bytes_complete halting halting_laws 32 (replicate 32 0) eq_refl) as (b & o & H & _ & Ho).
  assert (E : get_random_bytes halting (replicate 32 0) 32 = Done (true, replicate 20 1 ++ replicate 12 2)) by reflexivity.
  rewrite H in E. injection E as -> ->. split; [exact H|]. exact (proj2 (Ho eq_refl)).
Defined.

Section KeyClaims.
Context {plat : Platform}.

Lemma only_space_spec s :
  all_bytes s = true → only_space s = true ↔ Forall (λ c, c = 0 ∨ isspace c = true) s.
Proof.
  induction s as [|c s IH]; intros Hs; [by split; [constructor|]|].
  rewrite all_bytes_cons, andb_true_iff, is_byte_spec in Hs. destruct Hs as [Hc Hs]. specialize (IH Hs).
  cbn [only_space]. rewrite char_is_space_spec by lia. rewrite Forall_cons. unfold truthy. rewrite negb_involutive.
  destruct (Z.eqb_spec c 0), (isspace c) eqn:E; simpl; rewrite ?IH; intuition done.
Qed.

Lemma key_base64_no_nul k : all_bytes k = true → 0 ∉ key_base64 k.
Proof.
  intros Hk H0. pose proof (plain_key k Hk) as Hp. rewrite Forall_forall in Hp. apply Hp in H0 as [? _]. lia.
Qed.

Lemma cstr_no_nul l : 0 ∉ l → cstr l = l.
Proof. intros H. unfold cstr. by rewrite (proj2 (index_of_eqb_None 0 l) H). Qed.

Definition blank_tail (rest : bytes) : Prop := Forall (λ c, c = 0 ∨ isspace c = true) rest.
Definition public_text (key : bytes) : bytes := key_base64 (x25519 key (9 :: replicate 31 0)) ++ newline.

Lemma take_drop_key k (r : bytes) : take 44 (key_base64 k ++ r) = key_base64 k ∧ drop 44 (key_base64 k ++ r) = r.
Proof. rewrite <- (key_base64_length k). by rewrite take_app_length, drop_app_length. Qed.

Lemma print_public int128 key :
  key_ok key = true → cstr (key_to_base64 (generate_public int128 key)) ++ newline = public_text key.
Proof.
  intros [Hkl Hkb]%key_ok_spec. rewrite generate_public_x25519 by done. unfold public_text.
  destruct (x25519_key key (9 :: replicate 31 0)) as [Hxb _].
  revert Hxb. generalize (x25519 key (9 :: replicate 31 0)). intros pub Hpub. by rewrite <- (print_key_eq pub).
Qed.

Lemma pubkey_accepts int128 key0 cmd key rest :
  length key0 = WG_KEY_LEN → key_ok key = true → all_bytes rest = true → blank_tail rest →
  pubkey_main int128 key0 [cmd] (key_base64 key ++ rest) = (0, public_text key).
Proof.
  intros Hk Hok Hr Ht. apply key_ok_spec in Hok as Hok'. destruct Hok' as [_ Hkb].
  unfold pubkey_main. change (WG_KEY_LEN_BASE64 - 1)%nat with 44%nat.
  destruct (take_drop_key key rest) as [-> ->]. rewrite key_base64_length, Nat.eqb_refl.
  rewrite (proj2 (only_space_spec rest Hr) Ht), (cstr_no_nul (key_base64 key)) by (by apply key_base64_no_nul). cbn [negb].
  rewrite (proj2 (key_from_base64_accepts key0 (key_base64 key) key Hk (key_base64_bytes key Hkb)))
    by (split; [done|by rewrite key_to_base64_key]).
  cbn [negb]. by rewrite print_public.
Qed.

Lemma pubkey_cases int128 key0 cmd stdin :
  length key0 = WG_KEY_LEN → all_bytes stdin = true →
  (∃ key rest, key_ok key = true ∧ stdin = key_base64 key ++ rest ∧ blank_tail rest) ∨
  pubkey_main int128 key0 [cmd] stdin = (1, []).
Proof.
  intros Hk Hin. unfold pubkey_main. change (WG_KEY_LEN_BASE64 - 1)%nat with 44%nat.
  assert (Hbt : all_bytes (take 44 stdin) = true ∧ all_bytes (drop 44 stdin) = true)
    by (rewrite <- andb_true_iff, <- all_bytes_app, take_drop; done).
  destruct Hbt as [Hbt Hbd]. destruct (Nat.eqb_spec (length (take 44 stdin)) 44) as [Hlen|]; cbn [negb]; [|by right].
  destruct (only_space (drop 44 stdin)) eqn:Hsp; cbn [negb]; [|by right].
  destruct (key_from_base64 key0 (cstr (take 44 stdin))) as [ok key] eqn:Hd. destruct ok; cbn [negb]; [left|by right].
  assert (Hbc : all_bytes (cstr (take 44 stdin)) = true).
  { unfold all_bytes in *. rewrite forallb_forall in *. intros x Hx. apply Hbt.
    rewrite <- list_elem_of_In in *. by apply (cstr_sub (take 44 stdin)). }
  apply key_from_base64_accepts in Hd as [Hok Ht]; [|done..]. rewrite key_to_base64_key in Ht. apply (inj (.++ [0])) in Ht.
  exists key, (drop 44 stdin). split_and!; [done| |by apply only_space_spec].
  destruct (cstr_split (take 44 stdin)) as [_ [Hc|[r Hr]]].
  - by rewrite Ht, <- Hc, take_drop.
  - exfalso. apply (f_equal length) in Hr. rewrite length_app, <- Ht, key_base64_length in Hr. simpl in Hr. lia.
Qed.

(** [wg pubkey] succeeds exactly on the base64 text of a key followed by nothing
    but white space and NULs, and prints the base64 text of the X25519 public
    key at the base point 9; on any other input it prints nothing and fails. *)
Theorem pubkey_main_correct int128 key0 cmd stdin (Hk : length key0 = WG_KEY_LEN) (Hin : all_bytes stdin = true) :
  (∃ key rest, key_ok key = true ∧ stdin = key_base64 key ++ rest ∧ blank_tail rest ∧
    pubkey_main int128 key0 [cmd] stdin = (0, public_text key)) ∨
  ((∀ key rest, key_ok key = true → stdin = key_base64 key ++ rest → ¬ blank_tail rest) ∧
    pubkey_main int128 key0 [cmd] stdin = (1, [])).
Proof.
  assert (Hr : ∀ key rest, stdin = key_base64 key ++ rest → all_bytes rest = true).
  { intros key rest ->. rewrite all_bytes_app, andb_true_iff in Hin. apply Hin. }
  destruct (pubkey_cases int128 key0 cmd stdin Hk Hin) as [(key & rest & Hok & Hs & Ht)|H]; [left|right].
  - exists key, rest. split_and!; [done..|]. specialize (Hr _ _ Hs). subst stdin. by apply pubkey_accepts.
  - split; [|done]. intros key rest Hok Hs Ht. specialize (Hr _ _ Hs). subst stdin.
    rewrite (pubkey_accepts int128 key0 cmd key rest Hk Hok Hr Ht) in H. discriminate (f_equal fst H).
Qed.

(** What [genkey_main] prints. *)
Lemma genkey_prints R (laws : randomness_laws R) key0 cmd :
  length key0 = WG_KEY_LEN →
  (∃ key, key_ok key = true ∧ get_random_bytes R key0 WG_KEY_LEN = Done (true, key) ∧
    genkey_main R key0 [cmd] =
      Done (0, key_base64 (if strcmp_eq cmd (str "genkey") then curve25519_clamp_secret key else key) ++ newline)) ∨
  genkey_main R key0 [cmd] = Done (1, []).
Proof.
  intros Hk. unfold genkey_main.
  destruct (get_random_bytes_ok R laws WG_KEY_LEN key0 Hk) as (b & key & -> & Hl & Hb). destruct b; [left|by right].
  destruct (Hb eq_refl) as [Hkb _]. exists key. split; [by apply key_ok_spec|]. split; [done|]. do 3 f_equal.
  apply print_key_eq. destruct (strcmp_eq _ _); [by apply clamp_bytes|done].
Qed.

(** [wg genkey | wg pubkey]: when [genkey] succeeds, [pubkey] succeeds on what it
    printed, with the X25519 public key of the random secret, whatever the two
    buffers held and whichever implementation of the curve is built in. *)
Theorem genkey_pubkey_pipe R (laws : randomness_laws R) int128 key0 key1 cmd out
    (Hk0 : length key0 = WG_KEY_LEN) (Hk1 : length key1 = WG_KEY_LEN)
    (Hgen : genkey_main R key0 [str "genkey"] = Done (0, out)) :
  ∃ secret, key_ok secret = true ∧ get_random_bytes R key0 WG_KEY_LEN = Done (true, secret) ∧
    pubkey_main int128 key1 [cmd] out = (0, public_text secret).
Proof.
  destruct (genkey_prints R laws key0 (str "genkey") Hk0) as [(key & Hok & Hr & Hp)|Hp]; rewrite Hp in Hgen; [|done].
  rewrite strcmp_eq_refl in Hgen. assert (out = key_base64 (curve25519_clamp_secret key) ++ newline) as -> by congruence.
  exists key. split_and!; [done..|]. apply key_ok_spec in Hok as [Hl Hb].
  rewrite pubkey_accepts; [|done| |done|].
  - unfold public_text. by rewrite x25519_clamped.
  - apply key_ok_spec. split; [by rewrite clamp_length|by apply clamp_bytes].
  - constructor; [by right|constructor].
Qed.
End KeyClaims.

Lemma pubkey_main_correct_witness :
  ∃ key rest, key_ok key = true ∧ key_base64 (replicate 32 7) ++ [10; 0] = key_base64 key ++ rest ∧ blank_tail rest ∧
    pubkey_main (plat := arm64) true (replicate 32 0) [str "pubkey"] (key_base64 (replicate 32 7) ++ [10; 0]) = (0, public_text key).
Proof.
  destruct (pubkey_main_correct (plat := arm64) true (replicate 32 0) (str "pubkey")
    (key_base64 (replicate 32 7) ++ [10; 0]) eq_refl eq_refl) as [H|[H _]]; [exact H|].
  exfalso. apply (H (replicate 32 7) [10; 0] eq_refl eq_refl). apply Forall_cons_2; [by right|]. apply Forall_cons_2; [by left|apply Forall_nil_2].
Defined.

Lemma genkey_pubkey_pipe_witness :
  ∃ out, genkey_main halting (replicate 32 0) [str "genkey"] = Done (0, out) ∧
    pubkey_main (plat := arm64) true (replicate 32 0) [str "pubkey"] out = (0, public_text (replicate 20 1 ++ replicate 12 2)).
Proof.
  eexists. split; [vm_compute; reflexivity|].
  destruct (genkey_pubkey_pipe (plat := arm64) halting halting_laws true (replicate 32 0) (replicate 32 0) (str "pubkey") _
    eq_refl eq_refl ltac:(vm_compute; reflexivity)) as (secret & _ & Hs & Hp).
  assert (E : get_random_bytes halting (replicate 32 0) WG_KEY_LEN = Done (true, replicate 20 1 ++ replicate 12 2)) by reflexivity.
  rewrite E in Hs. injection Hs as <-. exact Hp.
Defined.
