(* ===== verification/Wg.v ===== *)
(** * Wg: wg.c

    The table of subcommands and the dispatch of [main].  Each subcommand is the
    function its file defines; what it leaves behind is what it wrote to
    standard output or the device it handed to the interface. *)

From Stdlib Require Import Ascii String.
From stdpp Require Import base numbers option sets list list_numbers strings.
From S2P Require Import Prelude CLib Ctype Encoding Containers Config Setconf Showconf Terminal Show Keys.
#[local] Open Scope c_scope.

Definition WIREGUARD_TOOLS_VERSION : bytes := str "1.0.20250521".

(** The functions the table points to; three entries share [setconf_main]. *)
Inductive function := Show_main | Showconf_main | Set_main | Setconf_main | Genkey_main | Pubkey_main.

Definition subcommands : list (bytes * function * bytes) :=
  [ (str "show", Show_main, str "Shows the current configuration and device information");
    (str "showconf", Showconf_main,
     str "Shows the current configuration of a given WireGuard interface, for use with `setconf'");
    (str "set", Set_main, str "Change the current configuration, add peers, remove peers, or change peers");
    (str "setconf", Setconf_main, str "Applies a configuration file to a WireGuard interface");
    (str "addconf", Setconf_main, str "Appends a configuration file to a WireGuard interface");
    (str "syncconf", Setconf_main, str "Synchronizes a configuration file to a WireGuard interface");
    (str "genkey", Genkey_main, str "Generates a new private key and writes it to stdout");
    (str "genpsk", Genkey_main, str "Generates a new preshared key and writes it to stdout");
    (str "pubkey", Pubkey_main, str "Reads a private key from stdin and writes a public key to stdout") ].

Definition show_usage (PROG_NAME : bytes) : bytes :=
  str "Usage: " ++ PROG_NAME ++ str " <cmd> [<args>]" ++ newline ++ newline ++
  str "Available subcommands:" ++ newline ++
  flat_map (λ e, str "  " ++ e.1.1 ++ str ": " ++ e.2 ++ newline) subcommands ++
  str "You may pass `--help' to any of these subcommands to view usage." ++ newline.

(** What a run leaves: its standard output, and the device given to the interface. *)
Record effects := { stdout : list write; configured : option wgdevice }.
Definition wrote (w : list write) : effects := {| stdout := w; configured := None |}.
Definition configures (d : option wgdevice) : effects := {| stdout := []; configured := d |}.

Section Main.
Context {plat : Platform} {net : NetLib} {ipc : Ipc} {srt : Qsort}.
Variables (R : randomness) (int128 : bool) (patience : nat) (now : Z) (gai_strerror stack_key stdin : bytes).

Definition lift {A} (x : outcome A) : M A := λ o,
  match x with Done a => Done (a, o) | Exit c => Exit c | Undefined => Undefined | NoFuel => NoFuel end.

Definition call (f : function) (argv : list bytes) : M (Z * effects) :=
  match f with
  | Show_main => r ← show_main now gai_strerror argv; mret (r.1, wrote r.2)
  | Showconf_main => r ← lift (showconf_main argv); mret (r.1, wrote [Plain r.2])
  | Set_main => r ← set_main patience argv; mret (r.1, configures r.2)
  | Setconf_main => r ← setconf_main patience argv; mret (r.1, configures r.2)
  | Genkey_main => r ← lift (genkey_main R stack_key argv); mret (r.1, wrote [Plain r.2])
  | Pubkey_main => let r := pubkey_main int128 stack_key argv stdin in mret (r.1, wrote [Plain r.2])
  end.

(** [main(argc, argv)] *)
Definition main (argv : list bytes) : M (Z * effects) :=
  let is_one s names := existsb (λ n, strcmp_eq s (str n)) names in
  match argv with
  | [] => undefined
  | [_] => call Show_main [str "show"]
  | PROG_NAME :: cmd :: rest =>
      if (match rest with [] => is_one cmd ["-v"%string; "--version"%string; "version"%string] | _ => false end) then
        mret (0, wrote [Plain (str "wireguard-tools v" ++ WIREGUARD_TOOLS_VERSION ++
                               str " - https://git.zx2c4.com/wireguard-tools/" ++ newline)])
      else if (match rest with [] => is_one cmd ["-h"%string; "--help"%string; "help"%string] | _ => false end) then
        mret (0, wrote [Plain (show_usage PROG_NAME)])
      else
        match List.find (λ e, strcmp_eq cmd e.1.1) subcommands with
        | Some (_, f, _) => call f (cmd :: rest)
        | None => mret (1, wrote [])
        end
  end.
End Main.

(** ** Properties *)

(** [main] runs exactly the table: a name of the table runs its function on the
    arguments from that name on, [setconf], [addconf] and [syncconf] with the
    same function; with further arguments any other name is an error that
    writes nothing to standard output and configures nothing. *)
Theorem main_dispatch {plat : Platform} {net : NetLib} {ipc : Ipc} {srt : Qsort} R int128 patience now gai key stdin prog cmd rest :
  (∀ f descr, (cmd, f, descr) ∈ subcommands →
    main R int128 patience now gai key stdin (prog :: cmd :: rest) = call R int128 patience now gai key stdin f (cmd :: rest)) ∧
  (cmd ∉ (λ e, e.1.1) <$> subcommands → rest ≠ [] →
    main R int128 patience now gai key stdin (prog :: cmd :: rest) = mret (1, wrote [])).
Proof.
  split.
  - intros f descr Hin. unfold subcommands in Hin.
    repeat (apply elem_of_cons in Hin as [Hin|Hin]; [simplify_eq; by destruct rest|]). by apply elem_of_nil in Hin.
  - intros Hcmd Hrest. unfold main. destruct rest as [|a rest]; [done|].
    destruct (List.find _ subcommands) as [[[n f] d]|] eqn:E; [|done]. exfalso. apply Hcmd.
    apply find_some in E as [Hin Heq]. apply strcmp_eq_spec in Heq. simpl in Heq. subst n.
    apply list_elem_of_fmap. exists (cmd, f, d). split; [done|]. by apply list_elem_of_In.
Qed.
