(* ===== verification/IpcUapi.v ===== *)
(** * IpcUapi: ipc-uapi.h, the text protocol of userspace implementations

    [userspace_set_device] writes a device as [key=value] lines and reads an
    [errno] back; [userspace_get_device] asks for the device and parses its
    lines.  The daemon at the other end is a function from the request to its
    reply; connecting to it is in IpcUapiUnix. *)

From Stdlib Require Import Ascii String.
From stdpp Require Import base numbers option sets list list_numbers strings.
From S2P Require Import Prelude CLib Ctype Encoding Containers Config Setconf Showconf Curve25519.
#[local] Open Scope c_scope.


Section Uapi.
Context {plat : Platform} {net : NetLib}.

(** ** Writing a device *)

(** [key_to_hex(hex, key); fprintf(f, "%s", hex)] *)
Definition print_hex (key : bytes) : bytes := cstr (key_to_hex key).

Definition uapi_endpoint (p : wgpeer) : bytes :=
  if has_endpoint p then
    match getnameinfo (endpoint p) with
    | Some (host, service) => str "endpoint=" ++ endpoint_text (endpoint p) host service ++ newline
    | None => []
    end
  else [].

Definition uapi_allowedip (a : wgallowedip) : bytes :=
  match allowedip_text a with
  | None => []
  | Some ip =>
      str "allowed_ip=" ++ (if has_flag (ai_flags a) WGALLOWEDIP_REMOVE_ME then str "-" else []) ++ ip ++
      str "/" ++ printf_d (cidr a) ++ newline
  end.

(** The body of [for_each_wgpeer]. *)
Definition uapi_peer (p : wgpeer) : bytes :=
  str "public_key=" ++ print_hex (p_public_key p) ++ newline ++
  (if has_flag (p_flags p) WGPEER_REMOVE_ME then str "remove=true" ++ newline
   else
     (if has_flag (p_flags p) WGPEER_HAS_PRESHARED_KEY
      then str "preshared_key=" ++ print_hex (preshared_key p) ++ newline else []) ++
     uapi_endpoint p ++
     (if has_flag (p_flags p) WGPEER_HAS_PERSISTENT_KEEPALIVE_INTERVAL
      then str "persistent_keepalive_interval=" ++ printf_u (persistent_keepalive_interval p) ++ newline else []) ++
     (if has_flag (p_flags p) WGPEER_REPLACE_ALLOWEDIPS then str "replace_allowed_ips=true" ++ newline else []) ++
     flat_map uapi_allowedip (allowedips p)).

(** Everything written to [f] between [set=1] and the empty line. *)
Definition uapi_device (d : wgdevice) : bytes :=
  (if has_flag (flags d) WGDEVICE_HAS_PRIVATE_KEY
   then str "private_key=" ++ print_hex (private_key d) ++ newline else []) ++
  (if has_flag (flags d) WGDEVICE_HAS_LISTEN_PORT
   then str "listen_port=" ++ printf_u (listen_port d) ++ newline else []) ++
  (if has_flag (flags d) WGDEVICE_HAS_FWMARK then str "fwmark=" ++ printf_u (fwmark d) ++ newline else []) ++
  (if has_flag (flags d) WGDEVICE_REPLACE_PEERS then str "replace_peers=true" ++ newline else []) ++
  flat_map uapi_peer (peers d).

Definition set_request (d : wgdevice) : bytes := str "set=1" ++ newline ++ uapi_device d ++ newline.

(** [key] and [value] of a line [getline] returned: the string ends at its first
    NUL; [None] for a line without [=] or without its newline. *)
Definition split_line (line : bytes) : option (bytes * bytes) :=
  match strchr_split line (ch "=") with
  | Some (key, rest) =>
      if bool_decide (last line = Some 10) then Some (key, take (length rest - 1) rest) else None
  | None => None
  end.

(** The loop that reads the reply; [end_errno] is the value of [errno] when it ends. *)
Fixpoint set_reply (end_errno : Z) (lines : list bytes) (set_errno : Z) : Z :=
  let protocol_error := if truthy end_errno then - end_errno else - EPROTO in
  match lines with
  | [] => protocol_error
  | line :: lines' =>
      let line := cstr line in
      if bool_decide (line = newline) then set_errno
      else match split_line line with
      | None => protocol_error
      | Some (key, value) =>
          if strcmp_eq key (str "errno") then
            if negb (at_ value 0 =? ch "-") && negb (char_is_digit (char_val (at_ value 0))) then protocol_error
            else
              let '(num, endp) := strtoll 10 value in
              if negb (is_end endp) || (INT_MAX <? num) || (num <? INT_MIN) then protocol_error
              else set_reply end_errno lines' num
          else set_reply end_errno lines' set_errno
      end
  end.

(** [userspace_set_device(dev)]: [daemon] is the open connection, or the [errno]
    of opening it. *)
Definition userspace_set_device (daemon : Z + (bytes → bytes)) (end_errno : Z) (d : wgdevice) : Z :=
  match daemon with
  | inl e => - e
  | inr reply => set_reply end_errno (getlines (reply (set_request d))) (- EPROTO)
  end.

(** ** Reading a device *)

(** [NUM(max)]: [None] where the macro breaks out of the loop. *)
Definition NUM (max : Z) (value : bytes) : option Z :=
  if negb (char_is_digit (char_val (at_ value 0))) then None
  else
    let '(num, endp) := strtoull 10 value in
    if negb (is_end endp) || (max <? num) then None else Some num.

(** The variables of the loop: [dev], [peer], [allowedip] and [ret]. *)
Record get_state := { g_dev : wgdevice; g_peer : option nat; g_ip : option nat; g_ret : Z }.
Definition put_dev d s := {| g_dev := d; g_peer := g_peer s; g_ip := g_ip s; g_ret := g_ret s |}.

(** One turn of the loop: go on, [break], or [goto err] with a value of [ret]. *)
Inductive flow := Next (s : get_state) | Break | Goto_err (ret : Z) (s : get_state).

Definition opt_next {A} (x : option A) (k : A → get_state) : M flow :=
  mret match x with Some a => Next (k a) | None => Break end.
Definition hex_next (r : bool * bytes) (k : bytes → get_state) : M flow :=
  mret (if r.1 then Next (k r.2) else Break).

(** The lines that belong to the interface. *)
Definition device_line (int128 : bool) (s : get_state) (key value : bytes) : option (M flow) :=
  let d := g_dev s in
  if strcmp_eq key (str "private_key") then
    Some (hex_next (key_from_hex (private_key d) value) (λ k,
      put_dev (set_flags (set_flag (flags d) (WGDEVICE_HAS_PRIVATE_KEY .| WGDEVICE_HAS_PUBLIC_KEY))
                (set_public_key (generate_public int128 k) (set_private_key k d))) s))
  else if strcmp_eq key (str "listen_port") then
    Some (opt_next (NUM 0xffff value) (λ n,
      put_dev (set_flags (set_flag (flags d) WGDEVICE_HAS_LISTEN_PORT) (set_listen_port n d)) s))
  else if strcmp_eq key (str "fwmark") then
    Some (opt_next (NUM 0xffffffff value) (λ n,
      put_dev (set_flags (set_flag (flags d) WGDEVICE_HAS_FWMARK) (set_fwmark n d)) s))
  else None.

Definition public_key_line (s : get_state) (value : bytes) : M flow :=
  new_peer ← alloc;
  if negb new_peer then mret (Goto_err (- ENOMEM) s)
  else
    let d := g_dev s in
    let pos := next_pos (g_peer s) in
    let linked p := {| g_dev := set_peers (link_after (peers d) (g_peer s) p) d; g_peer := Some pos; g_ip := None; g_ret := g_ret s |} in
    hex_next (key_from_hex (p_public_key wgpeer_zero) value) (λ k,
      linked (set_p_flags (set_flag 0 WGPEER_HAS_PUBLIC_KEY) (set_p_public_key k wgpeer_zero))).

Definition allowed_ip_line (s : get_state) (p : wgpeer) (put : wgpeer → option nat → get_state) (value : bytes) : M flow :=
  let '(ip, mask) := strsep value (ch "/") in
  match mask with
  | None => mret Break
  | Some mask =>
      if negb (char_is_digit (char_val (at_ mask 0))) then mret Break
      else
        new_allowedip ← alloc;
        if negb new_allowedip then mret (Goto_err (- ENOMEM) s)
        else
          let '(_, a) := parse_ip wgallowedip_zero ip in
          let '(c, endp) := strtoul 10 mask in
          let a := set_cidr (u8 c) a in
          if negb (is_end endp) || (family a =? AF_UNSPEC) || ((family a =? AF_INET6) && (128 <? cidr a))
             || ((family a =? AF_INET) && (32 <? cidr a)) then mret Break
          else mret (Next (put (set_allowedips (link_after (allowedips p) (g_ip s) a) p) (Some (next_pos (g_ip s)))))
  end.

Definition endpoint_line (s : get_state) (p : wgpeer) (put : wgpeer → get_state) (value : bytes) : flow :=
  if Nat.eqb (length value) 0 then Break
  else match split_endpoint value with
  | None => Break
  | Some (host, service) =>
      match getaddrinfo (Some host) service 0 with
      | GaiError _ => Goto_err ENETUNREACH s
      | GaiOk resolved =>
          if addrinfo_is AF_INET SIZEOF_SOCKADDR_IN resolved || addrinfo_is AF_INET6 SIZEOF_SOCKADDR_IN6 resolved
          then Next (put (set_endpoint (ai_addr resolved) p)) else Break
      end
  end.

(** The lines that belong to the peer at position [i]; other keys are ignored,
    but for [errno]. *)
Definition peer_line (s : get_state) (i : nat) (p : wgpeer) (key value : bytes) : option (M flow) :=
  let put p := put_dev (update_peer i (λ _, p) (g_dev s)) s in
  if strcmp_eq key (str "preshared_key") then
    Some (hex_next (key_from_hex (preshared_key p) value) (λ k,
      let p := set_preshared_key k p in
      put (if negb (key_is_zero k) then set_p_flags (set_flag (p_flags p) WGPEER_HAS_PRESHARED_KEY) p else p)))
  else if strcmp_eq key (str "endpoint") then Some (mret (endpoint_line s p put value))
  else if strcmp_eq key (str "persistent_keepalive_interval") then
    Some (opt_next (NUM 0xffff value) (λ n,
      put (set_p_flags (set_flag (p_flags p) WGPEER_HAS_PERSISTENT_KEEPALIVE_INTERVAL) (set_keepalive n p))))
  else if strcmp_eq key (str "allowed_ip") then
    Some (allowed_ip_line s p (λ p last, {| g_dev := update_peer i (λ _, p) (g_dev s); g_peer := g_peer s; g_ip := last; g_ret := g_ret s |}) value)
  else if strcmp_eq key (str "last_handshake_time_sec") then
    Some (opt_next (NUM 0x7fffffffffffffff value) (λ n, put (set_tv_sec n p)))
  else if strcmp_eq key (str "last_handshake_time_nsec") then
    Some (opt_next (NUM 0x7fffffffffffffff value) (λ n, put (set_tv_nsec n p)))
  else if strcmp_eq key (str "rx_bytes") then Some (opt_next (NUM 0xffffffffffffffff value) (λ n, put (set_rx_bytes n p)))
  else if strcmp_eq key (str "tx_bytes") then Some (opt_next (NUM 0xffffffffffffffff value) (λ n, put (set_tx_bytes n p)))
  else None.

(** The [else if] chain of a line. *)
Definition get_line (int128 : bool) (s : get_state) (key value : bytes) : M flow :=
  let rest :=
    if strcmp_eq key (str "errno") then
      opt_next (NUM 0x7fffffff value) (λ n, {| g_dev := g_dev s; g_peer := g_peer s; g_ip := g_ip s; g_ret := - n |})
    else mret (Next s) in
  match g_peer s with
  | None =>
      match device_line int128 s key value with
      | Some m => m
      | None => if strcmp_eq key (str "public_key") then public_key_line s value else rest
      end
  | Some i =>
      if strcmp_eq key (str "public_key") then public_key_line s value
      else match peers (g_dev s) !! i with
      | None => undefined
      | Some p => match peer_line s i p key value with Some m => m | None => rest end
      end
  end.

(** The loop over the reply: [ret] and the device when it ends. *)
Fixpoint get_loop (int128 : bool) (lines : list bytes) (s : get_state) : M (Z * wgdevice) :=
  match lines with
  | [] => mret (- EPROTO, g_dev s)
  | line :: lines' =>
      let line := cstr line in
      if bool_decide (line = newline) then mret (g_ret s, g_dev s)
      else match split_line line with
      | None => mret (- EPROTO, g_dev s)
      | Some (key, value) =>
          f ← get_line int128 s key value;
          match f with
          | Next s => get_loop int128 lines' s
          | Break => mret (- EPROTO, g_dev s)
          | Goto_err ret s => mret (ret, g_dev s)
          end
      end
  end.

Definition get_request : bytes := str "get=1" ++ newline ++ newline.

(** [userspace_get_device(&out, iface)]: the result and [*out]. *)
Definition userspace_get_device (int128 : bool) (daemon : Z + (bytes → bytes)) (iface : bytes) : M (Z * option wgdevice) :=
  dev ← alloc;
  if negb dev then mret (- ENOMEM, None)
  else match daemon with
  | inl e => mret (- e, None)
  | inr reply =>
      let d := store_name iface wgdevice_zero in
      r ← get_loop int128 (getlines (reply get_request)) {| g_dev := d; g_peer := None; g_ip := None; g_ret := - EPROTO |};
      mret (r.1, if truthy r.1 then None else Some r.2)
  end.
End Uapi.
