(* ===== verification/IpcUapiSpec.v ===== *)
(** * IpcUapiSpec: the text protocol is read safely and reads back what it writes *)

From Stdlib Require Import Ascii String.
From stdpp Require Import base numbers option sets list list_numbers strings.
From S2P Require Import Prelude CLib Ctype Encoding Containers Config NetLibModel ConfigFacts ConfigSpec Setconf SetconfSpec.
From S2P Require Import Showconf ShowconfSpec Field25519 X25519 Curve25519 IpcUapi.
#[local] Open Scope c_scope.

Section Safety.
Context {plat : Platform} {net : NetLib} {laws : NetLibLaws net}.

(** ** The state of the parser *)

(** [peer] is the last peer, [allowedip] the last address of that peer. *)
Record state_ok (s : get_state) : Prop := {
  st_dev : device_ok (g_dev s);
  st_peer : cursor_ok (peers (g_dev s)) (g_peer s);
  st_ip : ∀ i p, g_peer s = Some i → peers (g_dev s) !! i = Some p → cursor_ok (allowedips p) (g_ip s);
}.

(** A [goto err] leaves a value of [ret] that is not zero. *)
Definition flow_ok (f : flow) : Prop :=
  match f with Next s => state_ok s | Break => True | Goto_err ret _ => ret ≠ 0 end.

Lemma hex_key key value k : length key = WG_KEY_LEN → all_bytes value = true → key_from_hex key value = (true, k) → key_ok k = true.
Proof.
  intros Hk Hv E. assert (Ht : (key_from_hex key value).1 = true) by by rewrite E.
  pose proof (key_from_hex_key key value Hk Ht) as Hd. rewrite E in Hd. simpl in Hd. subst k.
  apply hex_accepts_decoded; [done|]. by apply (key_from_hex_spec key).
Qed.

Lemma hex_next_safe key value k :
  length key = WG_KEY_LEN → all_bytes value = true → (∀ x, key_ok x = true → state_ok (k x)) →
  safe (hex_next (key_from_hex key value) k) flow_ok.
Proof.
  intros Hl Hv Hk. apply safe_ret. destruct (key_from_hex key value) as [[] x] eqn:E; simpl; [|done].
  by apply Hk, (hex_key key value).
Qed.

Lemma NUM_range max value n : NUM max value = Some n → 0 <= n <= max.
Proof.
  unfold NUM. destruct (negb _); [done|]. destruct (strtoull 10 value) as [v r] eqn:E.
  apply strtou_range in E; [|unfold ULLONG_MAX; lia|lia]. case_match eqn:Hc; [done|]. intros [= <-].
  apply orb_false_iff in Hc as [_ Hc]. lia.
Qed.

Lemma opt_next_safe max value k :
  (∀ n, 0 <= n <= max → state_ok (k n)) → safe (opt_next (NUM max value) k) flow_ok.
Proof.
  intros Hk. apply safe_ret. destruct (NUM max value) as [n|] eqn:E; [|done]. by apply Hk, (NUM_range max value).
Qed.

(** A store into one field of a peer. *)
Ltac peer_fields :=
  unfold peer_ok;
  cbn [set_p_flags set_p_public_key set_preshared_key set_endpoint set_tv_sec set_tv_nsec set_rx_bytes set_tx_bytes
       set_keepalive set_allowedips peer_with p_public_key preshared_key endpoint persistent_keepalive_interval allowedips];
  split_and!; first [assumption | lia].

(** Storing into the current peer. *)
Lemma state_ok_update s i p q :
  state_ok s → g_peer s = Some i → peers (g_dev s) !! i = Some p → peer_ok q → allowedips q = allowedips p →
  state_ok (put_dev (update_peer i (λ _, q) (g_dev s)) s).
Proof.
  intros [Hd Hp Hip] Hi Hl Hq Ha. split; simpl.
  - by apply device_ok_update.
  - by apply cursor_ok_alter.
  - intros j p' Hj Hp'. simplify_eq. rewrite list_lookup_alter_eq, Hl in Hp'. simplify_eq/=. rewrite Ha. eauto.
Qed.

Lemma device_line_safe int128 s key value m :
  state_ok s → g_peer s = None → all_bytes value = true → device_line int128 s key value = Some m → safe m flow_ok.
Proof.
  intros [(Hpub & Hpriv & Hfw & Hlp & Hps) Hc Hip] Hn Hv.
  pose proof Hpriv as [Hl _]%key_ok_spec. unfold device_line.
  assert (Hput : ∀ d', device_ok d' → peers d' = peers (g_dev s) → state_ok (put_dev d' s)).
  { intros d' Hd' Hp'. split; simpl; [done|by rewrite Hp'|]. rewrite Hn. done. }
  destruct (strcmp_eq key (str "private_key")).
  { intros <-%(inj Some). apply hex_next_safe; [done..|]. intros x Hx. apply Hput; [|done].
    pose proof Hx as [Hxl Hxb]%key_ok_spec. unfold device_ok. cbn [set_flags set_public_key set_private_key device_with public_key private_key fwmark listen_port peers].
    split_and!; try done; try lia. rewrite generate_public_x25519 by done. apply key_ok_spec.
    destruct (x25519_key x (9 :: replicate 31 0)). done. }
  destruct (strcmp_eq key (str "listen_port")).
  { intros <-%(inj Some). apply opt_next_safe. intros n Hr. apply Hput; [|done]. unfold device_ok. simpl. split_and!; try done; lia. }
  destruct (strcmp_eq key (str "fwmark")); [|done].
  intros <-%(inj Some). apply opt_next_safe. intros n Hr. apply Hput; [|done]. unfold device_ok. simpl. split_and!; try done; lia.
Qed.

Lemma public_key_line_safe s value :
  state_ok s → all_bytes value = true → safe (public_key_line s value) flow_ok.
Proof.
  intros [(Hpub & Hpriv & Hfw & Hlp & Hps) Hc Hip] Hv. unfold public_key_line. safe_alloc b.
  destruct b; [|by apply safe_ret]. apply hex_next_safe; [done..|]. intros k Hk.
  assert (Hq : peer_ok (set_p_flags (set_flag 0 WGPEER_HAS_PUBLIC_KEY) (set_p_public_key k wgpeer_zero))).
  { unfold peer_ok, endpoint_ok. simpl. split_and!; try done; try lia; auto. }
  split; simpl.
  - unfold device_ok. simpl. split_and!; try done; try lia. rewrite link_after_app by done.
    apply Forall_app. split; [done|by apply Forall_singleton].
  - rewrite link_after_app by done. rewrite length_app, (cursor_ok_pos _ _ Hc). simpl. lia.
  - intros i p [= <-]. rewrite lookup_link_after by done. by intros <-%(inj Some).
Qed.

Lemma allowed_ip_line_safe s i p value :
  state_ok s → g_peer s = Some i → peers (g_dev s) !! i = Some p → peer_ok p → cursor_ok (allowedips p) (g_ip s) →
  safe (allowed_ip_line s p (λ p last,
    {| g_dev := update_peer i (λ _, p) (g_dev s); g_peer := g_peer s; g_ip := last; g_ret := g_ret s |}) value) flow_ok.
Proof.
  intros Hs Hi Hl Hp Hcur. unfold allowed_ip_line. destruct (strsep value (ch "/")) as [ipt [mask|]]; [|by apply safe_ret].
  destruct (negb _); [by apply safe_ret|]. safe_alloc b. destruct b; [|by apply safe_ret]. cbn [negb].
  destruct (parse_ip wgallowedip_zero ipt) as [ok a] eqn:Ep. destruct (strtoul 10 mask) as [c endp].
  case_match eqn:Hcond; [by apply safe_ret|]. apply safe_ret. rewrite !orb_false_iff in Hcond.
  destruct Hcond as [[[_ Hu] H6] H4]. cbn [family set_cidr cidr] in Hu, H6, H4.
  assert (ok = true) as ->.
  { destruct ok; [done|]. exfalso. unfold parse_ip in Ep. destruct (has_char ipt (ch ":")); repeat case_match; simplify_eq/=; done. }
  apply parse_ip_ok in Ep as (Hli & Hbi & _ & Hfl & Hf).
  assert (Ha : allowedip_ok (set_cidr (u8 c) a)).
  { pose proof (u8_range c). unfold allowedip_ok. cbn [ip family cidr ai_flags set_cidr]. split_and!; [done|done| |by left].
    destruct Hf as [E|E]; rewrite E in *; [left|right]; cbn in H6, H4; split; try done; lia. }
  destruct Hs as [Hd Hpc Hip]. destruct Hp as (?&?&?&?&Hips).
  assert (Hq : peer_ok (set_allowedips (link_after (allowedips p) (g_ip s) (set_cidr (u8 c) a)) p)).
  { unfold peer_ok. cbn [set_allowedips peer_with p_public_key preshared_key endpoint persistent_keepalive_interval allowedips].
    split_and!; try done; try lia. rewrite link_after_app by done. apply Forall_app. split; [done|by apply Forall_singleton]. }
  split; simpl.
  - by apply device_ok_update.
  - by apply cursor_ok_alter.
  - intros j q Hj Hq'. simplify_eq. rewrite list_lookup_alter_eq, Hl in Hq'. simplify_eq/=.
    rewrite link_after_app by done. by apply cursor_ok_next.
Qed.

Lemma endpoint_line_ok s i p value :
  state_ok s → g_peer s = Some i → peers (g_dev s) !! i = Some p → peer_ok p →
  flow_ok (endpoint_line s p (λ p, put_dev (update_peer i (λ _, p) (g_dev s)) s) value).
Proof.
  intros Hs Hi Hl (?&?&?&?&?). unfold endpoint_line. destruct (Nat.eqb _ 0); [done|].
  destruct (split_endpoint value) as [[host service]|]; [|done].
  destruct (getaddrinfo (Some host) service 0) as [r|] eqn:E; [|done]. apply gai_addr in E as [Hfam Hport].
  case_match eqn:Hc; [|done]. apply (state_ok_update s i p); try done. unfold peer_ok. cbn [set_endpoint peer_with p_public_key preshared_key endpoint persistent_keepalive_interval allowedips].
  split_and!; try done; try lia. split; [|done]. unfold addrinfo_is in Hc. rewrite Hfam.
  apply orb_true_iff in Hc as [Hc|Hc]; apply andb_true_iff in Hc as [Hc%Z.eqb_eq _]; auto.
Qed.

Lemma peer_line_safe s i p key value m :
  state_ok s → g_peer s = Some i → peers (g_dev s) !! i = Some p → all_bytes value = true →
  peer_line s i p key value = Some m → safe m flow_ok.
Proof.
  intros Hs Hi Hl Hv. pose proof (device_ok_peer _ _ _ (st_dev _ Hs) Hl) as Hp.
  pose proof (st_ip _ Hs _ _ Hi Hl) as Hcur. pose proof Hp as (?&Hpsk&?&?&?). unfold peer_line.
  assert (Hput : ∀ q, peer_ok q → allowedips q = allowedips p → state_ok (put_dev (update_peer i (λ _, q) (g_dev s)) s))
    by (intros; by apply (state_ok_update s i p)).
  destruct (strcmp_eq key (str "preshared_key")).
  { intros <-%(inj Some). apply hex_next_safe; [by apply key_ok_spec in Hpsk as [? _]|done|]. intros k Hk. cbv zeta.
    apply Hput; destruct (negb (key_is_zero k)); first [reflexivity|peer_fields]. }
  destruct (strcmp_eq key (str "endpoint")); [intros <-%(inj Some); by apply safe_ret, endpoint_line_ok|].
  destruct (strcmp_eq key (str "persistent_keepalive_interval")).
  { intros <-%(inj Some). apply opt_next_safe. intros n Hn. apply Hput; [|done]. peer_fields. }
  destruct (strcmp_eq key (str "allowed_ip")); [intros <-%(inj Some); by apply allowed_ip_line_safe|].
  repeat (case_match; [intros <-%(inj Some); apply opt_next_safe; intros n Hn; apply Hput; [|done]; peer_fields|]).
  done.
Qed.

Lemma get_line_safe int128 s key value :
  state_ok s → all_bytes value = true → safe (get_line int128 s key value) flow_ok.
Proof.
  intros Hs Hv. unfold get_line.
  set (rest := if strcmp_eq key (str "errno") then _ else _).
  assert (Hrest : safe rest flow_ok).
  { unfold rest. case_match; [|by apply safe_ret]. apply opt_next_safe. intros n _. by destruct Hs. }
  clearbody rest. destruct (g_peer s) as [i|] eqn:Hi.
  - destruct (strcmp_eq key (str "public_key")); [by apply public_key_line_safe|].
    pose proof (st_peer _ Hs) as Hc. rewrite Hi in Hc. simpl in Hc.
    destruct (lookup_lt_is_Some_2 (peers (g_dev s)) i) as [p Hp]; [lia|]. rewrite Hp.
    destruct (peer_line s i p key value) as [m|] eqn:E; [by eapply peer_line_safe|done].
  - destruct (device_line int128 s key value) as [m|] eqn:E; [by eapply device_line_safe|].
    destruct (strcmp_eq key (str "public_key")); [by apply public_key_line_safe|done].
Qed.

Lemma split_line_bytes line key value :
  all_bytes line = true → split_line line = Some (key, value) → all_bytes value = true.
Proof.
  unfold split_line. intros Hl. destruct (strchr_split line (ch "=")) as [[k rest]|] eqn:E; [|done].
  case_match; [|done]. intros [= <- <-]. apply strchr_split_Some in E as [-> _].
  rewrite all_bytes_app, all_bytes_cons, !andb_true_iff in Hl. destruct Hl as (_ & _ & Hr).
  eapply all_bytes_sub; [apply subseteq_take|done].
Qed.

Lemma get_loop_safe int128 lines s :
  Forall (λ l, all_bytes l = true) lines → state_ok s →
  safe (get_loop int128 lines s) (λ r, r.1 = 0 → device_ok r.2).
Proof.
  intros Hl. revert s. induction Hl as [|line lines Hb _ IH]; intros s Hs; simpl; [by apply safe_ret|].
  destruct (bool_decide _); [apply safe_ret; intros _; apply Hs|].
  destruct (split_line (cstr line)) as [[key value]|] eqn:E; [|by apply safe_ret].
  apply split_line_bytes in E; [|by eapply all_bytes_sub; [apply cstr_sub|]].
  eapply safe_bind; [by apply get_line_safe|]. intros [s'| |ret s'] Hf; [by apply IH|by apply safe_ret|].
  apply safe_ret. by intros ?.
Qed.

Lemma userspace_get_device_safe int128 daemon iface :
  match daemon with inl e => 0 < e | inr reply => all_bytes (reply get_request) = true end →
  safe (userspace_get_device int128 daemon iface) (λ '(ret, out),
    match out with Some d => ret = 0 ∧ device_ok d | None => ret ≠ 0 end).
Proof.
  intros Hd. unfold userspace_get_device. safe_alloc b. destruct b; [|by apply safe_ret]. cbn [negb].
  destruct daemon as [e|reply]; [apply safe_ret; lia|].
  eapply safe_bind; [apply get_loop_safe; [by apply getlines_bytes|]|].
  - split; cbn [g_dev g_peer]; [apply device_ok_zero|done|done].
  - intros [ret d] Hr. apply safe_ret. simpl in *. unfold truthy. destruct (Z.eqb_spec ret 0) as [->|]; simpl; auto.
Qed.
End Safety.

Section RoundTrip.
Context {plat : Platform} {net : NetLib} {laws : NetLibLaws net}.
Variable int128 : bool.

(** ** Lines of the reply *)

(** The parser reads the lines [k=v], each followed by a newline, one by one. *)
Inductive heard : get_state → list bytes → get_state → Prop :=
  | heard_nil s : heard s [] s
  | heard_cons s k v s1 ts s2 :
      Forall plain_char k → ch "=" ∉ k → Forall plain_char v →
      get_line int128 s k v [] = Done (Next s1, []) → heard s1 ts s2 → heard s ((k ++ str "=" ++ v) :: ts) s2.

Lemma heard_app s ts s1 us s2 : heard s ts s1 → heard s1 us s2 → heard s (ts ++ us) s2.
Proof. induction 1; [done|]. intros. econstructor; eauto. Qed.

Lemma heard_opt s b t s' :
  (b = true → heard s [t] s') → (b = false → s = s') → heard s (opt_line b t) s'.
Proof. intros H1 H2. destruct b; [by apply H1|]. rewrite H2 by done. constructor. Qed.

Lemma heard_text s ts s' : heard s ts s' → Forall (Forall plain_char) ts.
Proof. induction 1; constructor; [rewrite !Forall_app; split_and!; [done|by apply plain_by_eval|done]|done]. Qed.

Lemma split_line_kv k v : ch "=" ∉ k → split_line ((k ++ str "=" ++ v) ++ newline) = Some (k, v).
Proof.
  intros Hk. unfold split_line, newline. rewrite last_snoc, bool_decide_eq_true_2 by done.
  rewrite <- !app_assoc. change (str "=" ++ v ++ [10]) with (ch "=" :: v ++ [10]).
  rewrite strchr_split_app by done. rewrite length_app. replace (_ - 1)%nat with (length v) by (simpl; lia).
  by rewrite take_app_length.
Qed.

Lemma heard_loop s ts s' rest :
  heard s ts s' → get_loop int128 (((λ t, t ++ newline) <$> ts) ++ rest) s [] = get_loop int128 rest s' [].
Proof.
  induction 1 as [|s k v s1 ts s2 Hk He Hv Hg _ IH]; [done|]. cbn [fmap list_fmap app get_loop].
  rewrite cstr_line by (rewrite !Forall_app; split_and!; [by apply plain_line_all|by apply line_by_eval|by apply plain_line_all]).
  rewrite bool_decide_eq_false_2.
  2:{ intros Hn%(f_equal length). rewrite !length_app in Hn. simpl in Hn. lia. }
  rewrite split_line_kv by done. unfold mbind, M_bind. by rewrite Hg.
Qed.

(** ** Values *)

Lemma plain_hex key : all_bytes key = true → Forall plain_char (key_hex key).
Proof.
  intros Hk. apply Forall_forall. intros x Hx. pose proof (key_hex_chars key x Hk Hx). apply plain_between. lia.
Qed.

Lemma print_hex_eq key : all_bytes key = true → print_hex key = key_hex key.
Proof.
  intros Hk. unfold print_hex. rewrite key_to_hex_key. unfold cstr. rewrite index_of_eqb_app; [by rewrite take_app_length|].
  intros H0. pose proof (plain_hex key Hk) as Hp. rewrite Forall_forall in Hp. apply Hp in H0 as [? _]. lia.
Qed.

Lemma NUM_printed max n : 0 <= n <= max → max <= ULLONG_MAX → NUM max (printf_u n) = Some n.
Proof.
  intros Hn Hm. unfold NUM. rewrite printed_digit by lia.
  unfold strtoull. rewrite strtou_print10_end by lia. cbn [negb is_end orb]. by rewrite (proj2 (Z.ltb_ge _ _)) by lia.
Qed.

(** ** One line at a time *)

(** Evaluate the comparisons of a literal key. *)
Ltac keys :=
  repeat match goal with
  | |- context [strcmp_eq (str ?a) (str ?b)] =>
      let r := eval vm_compute in (strcmp_eq (str a) (str b)) in change (strcmp_eq (str a) (str b)) with r; cbv iota
  end.

Lemma heard_one s k v s' :
  Forall plain_char k → ch "=" ∉ k → Forall plain_char v →
  get_line int128 s k v [] = Done (Next s', []) → heard s [k ++ str "=" ++ v] s'.
Proof. intros. econstructor; [done..|constructor]. Qed.

Lemma not_elem_of_eval c l : forallb (λ x, negb (x =? c)) l = true → c ∉ l.
Proof.
  rewrite forallb_Forall_true, Forall_forall. intros H Hin. apply H in Hin. by rewrite Z.eqb_refl in Hin.
Qed.

(** A line with key [k], whose value is [v]. *)
Ltac one_line := apply heard_one; [by apply plain_by_eval|by apply not_elem_of_eval| |].

Definition dev_state (d : wgdevice) (ret : Z) : get_state :=
  {| g_dev := d; g_peer := None; g_ip := None; g_ret := ret |}.
Definition peer_state (d : wgdevice) (ps : list wgpeer) (p : wgpeer) (last : option nat) (ret : Z) : get_state :=
  {| g_dev := set_peers (ps ++ [p]) d; g_peer := Some (length ps); g_ip := last; g_ret := ret |}.

Ltac hear_device := one_line; [|unfold get_line, device_line; cbn [g_peer g_dev dev_state]; keys].

Lemma hear_private_key d ret key :
  key_ok (private_key d) = true → key_ok key = true →
  heard (dev_state d ret) [str "private_key" ++ str "=" ++ key_hex key]
    (dev_state (set_flags (set_flag (flags d) (WGDEVICE_HAS_PRIVATE_KEY .| WGDEVICE_HAS_PUBLIC_KEY))
                  (set_public_key (generate_public int128 key) (set_private_key key d))) ret).
Proof.
  intros [H0 _]%key_ok_spec Hk. pose proof Hk as [_ Hb]%key_ok_spec. hear_device; [by apply plain_hex|].
  unfold hex_next. by rewrite key_from_hex_encoded.
Qed.

Lemma hear_listen_port d ret port :
  0 <= port < 65536 →
  heard (dev_state d ret) [str "listen_port" ++ str "=" ++ printf_u port]
    (dev_state (set_flags (set_flag (flags d) WGDEVICE_HAS_LISTEN_PORT) (set_listen_port port d)) ret).
Proof. intros Hp. hear_device; [apply plain_u; lia|]. unfold opt_next. by rewrite NUM_printed by (unfold ULLONG_MAX; lia). Qed.

Lemma hear_fwmark d ret mark :
  0 <= mark < 2 ^ 32 →
  heard (dev_state d ret) [str "fwmark" ++ str "=" ++ printf_u mark]
    (dev_state (set_flags (set_flag (flags d) WGDEVICE_HAS_FWMARK) (set_fwmark mark d)) ret).
Proof. intros Hp. hear_device; [apply plain_u; lia|]. unfold opt_next. by rewrite NUM_printed by (unfold ULLONG_MAX; lia). Qed.

(** A key that only matters to [set]. *)
Lemma hear_replace_peers d ret :
  heard (dev_state d ret) [str "replace_peers" ++ str "=" ++ str "true"] (dev_state d ret).
Proof. hear_device; [by apply plain_by_eval|done]. Qed.

Definition new_peer (key : bytes) : wgpeer := set_p_flags (set_flag 0 WGPEER_HAS_PUBLIC_KEY) (set_p_public_key key wgpeer_zero).

Lemma hear_public_key d ps s key :
  g_dev s = set_peers ps d → cursor_ok ps (g_peer s) → key_ok key = true →
  heard s [str "public_key" ++ str "=" ++ key_hex key] (peer_state d ps (new_peer key) None (g_ret s)).
Proof.
  intros Hd Hc Hk. pose proof Hk as [_ Hb]%key_ok_spec. one_line; [by apply plain_hex|].
  assert (get_line int128 s (str "public_key") (key_hex key) = public_key_line s (key_hex key)) as ->.
  { unfold get_line, device_line. keys. by destruct (g_peer s). }
  unfold public_key_line, mbind, M_bind. cbn [alloc negb]. unfold hex_next. rewrite key_from_hex_encoded by done.
  cbn [fst snd mret M_ret]. rewrite Hd. cbn [peers set_peers device_with]. rewrite link_after_app, (cursor_ok_pos ps) by done. done.
Qed.

Ltac hear_peer :=
  one_line; [|unfold get_line, peer_line; cbn [g_peer g_dev peer_state peers set_peers device_with]; keys;
              rewrite list_lookup_middle by done].

Lemma hear_preshared_key d ps p last ret key :
  key_ok (preshared_key p) = true → key_ok key = true → key_is_zero key = false →
  heard (peer_state d ps p last ret) [str "preshared_key" ++ str "=" ++ key_hex key]
    (peer_state d ps (set_p_flags (set_flag (p_flags p) WGPEER_HAS_PRESHARED_KEY) (set_preshared_key key p)) last ret).
Proof.
  intros [H0 _]%key_ok_spec Hk Hz. pose proof Hk as [_ Hb]%key_ok_spec. hear_peer; [by apply plain_hex|].
  unfold hex_next. rewrite key_from_hex_encoded by done. cbn [fst snd]. rewrite Hz. cbn [negb].
  unfold put_dev. cbn [g_dev g_peer g_ip g_ret]. by rewrite update_peer_ctx.
Qed.

Lemma hear_keepalive d ps p last ret ka :
  0 <= ka < 65536 →
  heard (peer_state d ps p last ret) [str "persistent_keepalive_interval" ++ str "=" ++ printf_u ka]
    (peer_state d ps (set_p_flags (set_flag (p_flags p) WGPEER_HAS_PERSISTENT_KEEPALIVE_INTERVAL) (set_keepalive ka p)) last ret).
Proof.
  intros Hk. hear_peer; [apply plain_u; lia|]. unfold opt_next. rewrite NUM_printed by (unfold ULLONG_MAX; lia).
  unfold put_dev. cbn [g_dev g_peer g_ip g_ret]. by rewrite update_peer_ctx.
Qed.

Lemma hear_replace_ips d ps p last ret :
  heard (peer_state d ps p last ret) [str "replace_allowed_ips" ++ str "=" ++ str "true"] (peer_state d ps p last ret).
Proof. hear_peer; [by apply plain_by_eval|done]. Qed.

Lemma hear_endpoint d ps p last ret sa :
  plain_endpoint sa → ∃ host, getnameinfo sa = Some (host, printf_u (sin_port sa)) ∧
  heard (peer_state d ps p last ret) [str "endpoint" ++ str "=" ++ endpoint_text sa host (printf_u (sin_port sa))]
        (peer_state d ps (set_endpoint sa p) last ret).
Proof.
  intros Hpl. destruct (gni_gai sa Hpl) as (host & Hg & Hh & Hgai). exists host. split; [done|].
  destruct Hpl as (Hfam & _ & Hport & _).
  assert (Hf : sa_family sa = AF_INET ∨ sa_family sa = AF_INET6) by tauto.
  pose proof (split_endpoint_text sa host (sin_port sa) Hf Hh ltac:(lia)) as Hsplit.
  hear_peer; [apply endpoint_text_plain; [done|lia]|]. unfold endpoint_line.
  destruct (endpoint_text _ _ _) as [|c0 t0]; [done|]. cbn [length Nat.eqb]. rewrite Hsplit.
  destruct (Hgai 0%nat) as (r & -> & Haddr & Hfam' & Hlen). unfold addrinfo_is. rewrite Hfam', Hlen.
  unfold put_dev. destruct Hf as [Hf|Hf]; rewrite Hf; cbn; rewrite update_peer_ctx, Haddr; done.
Qed.

Lemma hear_allowed_ip d ps p last ret a :
  cursor_ok (allowedips p) last → canonical_ip a →
  heard (peer_state d ps p last ret) [str "allowed_ip" ++ str "=" ++ entry_text a]
    (peer_state d ps (set_allowedips (allowedips p ++ [a]) p) (Some (next_pos last)) ret).
Proof.
  intros Hc Ha. destruct (entry_text_ok a Ha) as (_ & _ & _ & Hpl). destruct (allowedip_text_ok a Ha) as (s & Hs & Hh & Hp).
  pose proof Ha as (Hok & Hfl & _). pose proof (cidr_range a Hok) as Hr. hear_peer; [done|].
  unfold allowed_ip_line, entry_text. rewrite Hs. cbn [from_option id].
  change (str "/" ++ printf_u (cidr a)) with (ch "/" :: printf_u (cidr a)).
  unfold strsep. rewrite strchr_split_app by (eapply host_not_in; [exact Hh|ch_norm; lia..]).
  rewrite printed_digit by lia. unfold mbind, M_bind. cbn [negb alloc]. rewrite Hp.
  pose proof ULONG_MAX_ge. unfold UINT32_MAX in *. unfold strtoul. rewrite strtou_print10_end by lia.
  rewrite u8_small by lia.
  assert (set_cidr (cidr a) (set_family (family a) (set_cidr 0 a)) = a) as -> by by destruct a.
  cbn [is_end negb orb]. destruct Hok as (_ & _ & Hf & _).
  assert ((family a =? AF_UNSPEC) || (family a =? AF_INET6) && (128 <? cidr a) || (family a =? AF_INET) && (32 <? cidr a) = false) as ->.
  { destruct Hf as [[-> ?]|[-> ?]]; cbn; lia. }
  unfold mret, M_ret. cbn [g_ip g_peer g_ret]. rewrite link_after_app, update_peer_ctx by done. done.
Qed.

Lemma hear_allowed_ips d ps p last ret l :
  cursor_ok (allowedips p) last → Forall canonical_ip l →
  ∃ last', heard (peer_state d ps p last ret) ((λ a, str "allowed_ip" ++ str "=" ++ entry_text a) <$> l)
    (peer_state d ps (set_allowedips (allowedips p ++ l) p) last' ret).
Proof.
  intros Hc Hl. revert p last Hc. induction Hl as [|a l Ha _ IH]; intros p last Hc.
  { exists last. rewrite app_nil_r. replace (set_allowedips (allowedips p) p) with p by by destruct p. constructor. }
  destruct (IH (set_allowedips (allowedips p ++ [a]) p) (Some (next_pos last))) as [last' H]; [by apply cursor_ok_next|].
  exists last'. cbn [allowedips set_allowedips peer_with] in H. rewrite <- app_assoc in H.
  eapply (heard_app _ [_]); [by apply hear_allowed_ip|exact H].
Qed.

(** ** A whole device *)

Definition has_keepalive (p : wgpeer) : bool := has_flag (p_flags p) WGPEER_HAS_PERSISTENT_KEEPALIVE_INTERVAL.

(** A peer that a daemon can report: nothing to be removed, and a preshared key
    that is not the zero key. *)
Definition reported_peer (p : wgpeer) : Prop :=
  canonical_peer p ∧ has_flag (p_flags p) WGPEER_REMOVE_ME = false ∧
  (has_psk p = true → key_is_zero (preshared_key p) = false).
Definition reported (d : wgdevice) : Prop := device_ok d ∧ Forall reported_peer (peers d).

(** What is read back: the fields whose flag is set, without the counters. *)
Definition view_peer (p : wgpeer) : wgpeer :=
  peer_with
    (WGPEER_HAS_PUBLIC_KEY .| (if has_psk p then WGPEER_HAS_PRESHARED_KEY else 0)
     .| (if has_keepalive p then WGPEER_HAS_PERSISTENT_KEEPALIVE_INTERVAL else 0))
    (p_public_key p) (if has_psk p then preshared_key p else replicate WG_KEY_LEN 0)
    (if has_endpoint p then endpoint p else sockaddr_zero) 0 0 0 0
    (if has_keepalive p then persistent_keepalive_interval p else 0) (allowedips p) None.

Definition view_device (iface : bytes) (d : wgdevice) : wgdevice :=
  let has := has_flag (flags d) in
  device_with (name (store_name iface wgdevice_zero)) 0
    ((if has WGDEVICE_HAS_PRIVATE_KEY then WGDEVICE_HAS_PRIVATE_KEY .| WGDEVICE_HAS_PUBLIC_KEY else 0)
     .| (if has WGDEVICE_HAS_LISTEN_PORT then WGDEVICE_HAS_LISTEN_PORT else 0)
     .| (if has WGDEVICE_HAS_FWMARK then WGDEVICE_HAS_FWMARK else 0))
    (if has WGDEVICE_HAS_PRIVATE_KEY then generate_public int128 (private_key d) else replicate WG_KEY_LEN 0)
    (if has WGDEVICE_HAS_PRIVATE_KEY then private_key d else replicate WG_KEY_LEN 0)
    (if has WGDEVICE_HAS_FWMARK then fwmark d else 0)
    (if has WGDEVICE_HAS_LISTEN_PORT then listen_port d else 0)
    (view_peer <$> peers d) None.

(** The lines of [uapi_peer] and [uapi_device]. *)
Definition uapi_peer_lines (p : wgpeer) : list bytes :=
  [str "public_key" ++ str "=" ++ key_hex (p_public_key p)]
  ++ opt_line (has_psk p) (str "preshared_key" ++ str "=" ++ key_hex (preshared_key p))
  ++ opt_line (has_endpoint p)
       match getnameinfo (endpoint p) with
       | Some (host, service) => str "endpoint" ++ str "=" ++ endpoint_text (endpoint p) host service
       | None => []
       end
  ++ opt_line (has_keepalive p) (str "persistent_keepalive_interval" ++ str "=" ++ printf_u (persistent_keepalive_interval p))
  ++ opt_line (has_flag (p_flags p) WGPEER_REPLACE_ALLOWEDIPS) (str "replace_allowed_ips" ++ str "=" ++ str "true")
  ++ ((λ a, str "allowed_ip" ++ str "=" ++ entry_text a) <$> allowedips p).

Definition uapi_device_lines (d : wgdevice) : list bytes :=
  let has := has_flag (flags d) in
  opt_line (has WGDEVICE_HAS_PRIVATE_KEY) (str "private_key" ++ str "=" ++ key_hex (private_key d))
  ++ opt_line (has WGDEVICE_HAS_LISTEN_PORT) (str "listen_port" ++ str "=" ++ printf_u (listen_port d))
  ++ opt_line (has WGDEVICE_HAS_FWMARK) (str "fwmark" ++ str "=" ++ printf_u (fwmark d))
  ++ opt_line (has WGDEVICE_REPLACE_PEERS) (str "replace_peers" ++ str "=" ++ str "true")
  ++ flat_map uapi_peer_lines (peers d).

Lemma hear_peer_lines d ps s p :
  g_dev s = set_peers ps d → cursor_ok ps (g_peer s) → reported_peer p →
  ∃ last, heard s (uapi_peer_lines p) (peer_state d ps (view_peer p) last (g_ret s)).
Proof.
  intros Hd Hc (((Hpub & Hpsk & _ & Hka & _) & Hcan & Hplain) & _ & Hz).
  set (q1 := new_peer (p_public_key p)).
  set (q2 := if has_psk p then set_p_flags (set_flag (p_flags q1) WGPEER_HAS_PRESHARED_KEY) (set_preshared_key (preshared_key p) q1) else q1).
  set (q3 := if has_endpoint p then set_endpoint (endpoint p) q2 else q2).
  set (q4 := if has_keepalive p then set_p_flags (set_flag (p_flags q3) WGPEER_HAS_PERSISTENT_KEEPALIVE_INTERVAL)
               (set_keepalive (persistent_keepalive_interval p) q3) else q3).
  assert (Hq4 : allowedips q4 = []).
  { unfold q4, q3, q2. by destruct (has_keepalive p), (has_endpoint p), (has_psk p). }
  destruct (hear_allowed_ips d ps q4 None (g_ret s) (allowedips p)) as [last Hips]; [by rewrite Hq4|done|].
  exists last. unfold uapi_peer_lines.
  eapply heard_app; [by apply hear_public_key|]. fold q1.
  eapply (heard_app _ _ (peer_state d ps q2 None (g_ret s))).
  { apply heard_opt; unfold q2; intros E; rewrite E; [|done]. apply (hear_preshared_key _ _ q1); auto. }
  eapply (heard_app _ _ (peer_state d ps q3 None (g_ret s))).
  { apply heard_opt; unfold q3; intros E; rewrite E; [|done].
    destruct (hear_endpoint d ps q2 None (g_ret s) (endpoint p) (Hplain E)) as (host & -> & Hr). exact Hr. }
  eapply (heard_app _ _ (peer_state d ps q4 None (g_ret s))).
  { apply heard_opt; unfold q4; intros E; rewrite E; [by apply hear_keepalive|done]. }
  eapply heard_app; [apply heard_opt; [intros _; apply hear_replace_ips|done]|].
  rewrite Hq4 in Hips. cbn [app] in Hips.
  assert (Hv : view_peer p = set_allowedips (allowedips p) q4); [|by rewrite Hv].
  unfold view_peer, q4, q3, q2. by destruct (has_keepalive p), (has_endpoint p), (has_psk p).
Qed.

Lemma hear_peers d todo ps s :
  g_dev s = set_peers ps d → cursor_ok ps (g_peer s) → Forall reported_peer todo →
  ∃ s', heard s (flat_map uapi_peer_lines todo) s' ∧ g_dev s' = set_peers (ps ++ (view_peer <$> todo)) d ∧
    cursor_ok (peers (g_dev s')) (g_peer s').
Proof.
  intros Hd Hc Ht. revert ps s Hd Hc. induction Ht as [|p todo Hp _ IH]; intros ps s Hd Hc.
  { exists s. rewrite app_nil_r, Hd. split_and!; [constructor|done..]. }
  destruct (hear_peer_lines d ps s p Hd Hc Hp) as [last H1].
  destruct (IH (ps ++ [view_peer p]) (peer_state d ps (view_peer p) last (g_ret s))) as (s' & H2 & Hs'); [done| |].
  { simpl. rewrite length_app. simpl. lia. }
  exists s'. rewrite <- app_assoc in Hs'. split; [|done]. cbn [flat_map]. by eapply heard_app.
Qed.

Lemma hear_errno s :
  cursor_ok (peers (g_dev s)) (g_peer s) →
  heard s [str "errno" ++ str "=" ++ str "0"] {| g_dev := g_dev s; g_peer := g_peer s; g_ip := g_ip s; g_ret := 0 |}.
Proof.
  intros H. one_line; [by apply plain_by_eval|]. unfold get_line, device_line, peer_line. keys.
  change (str "0") with (printf_u 0). rewrite NUM_printed by (unfold ULLONG_MAX; lia).
  destruct (g_peer s) as [i|]; simpl in H; [|done].
  destruct (lookup_lt_is_Some_2 (peers (g_dev s)) i) as [p ->]; [lia|done].
Qed.

Lemma hear_device iface d :
  reported d →
  ∃ s, heard (dev_state (store_name iface wgdevice_zero) (- EPROTO)) (uapi_device_lines d ++ [str "errno" ++ str "=" ++ str "0"]) s ∧
    g_dev s = view_device iface d ∧ g_ret s = 0.
Proof.
  intros [(_ & Hpriv & Hfw & Hlp & _) Hps]. unfold view_device, uapi_device_lines.
  set (has := has_flag (flags d)). cbv zeta.
  set (d0 := store_name iface wgdevice_zero).
  set (d1 := if has WGDEVICE_HAS_PRIVATE_KEY
    then set_flags (set_flag (flags d0) (WGDEVICE_HAS_PRIVATE_KEY .| WGDEVICE_HAS_PUBLIC_KEY))
           (set_public_key (generate_public int128 (private_key d)) (set_private_key (private_key d) d0)) else d0).
  set (d2 := if has WGDEVICE_HAS_LISTEN_PORT
    then set_flags (set_flag (flags d1) WGDEVICE_HAS_LISTEN_PORT) (set_listen_port (listen_port d) d1) else d1).
  set (d3 := if has WGDEVICE_HAS_FWMARK
    then set_flags (set_flag (flags d2) WGDEVICE_HAS_FWMARK) (set_fwmark (fwmark d) d2) else d2).
  assert (Hd3 : peers d3 = []).
  { unfold d3, d2, d1. by destruct (has WGDEVICE_HAS_FWMARK), (has WGDEVICE_HAS_LISTEN_PORT), (has WGDEVICE_HAS_PRIVATE_KEY). }
  destruct (hear_peers d3 (peers d) [] (dev_state d3 (- EPROTO))) as (s & Hs & Hdev & Hcur); [|done..|].
  { cbn [g_dev dev_state]. rewrite <- Hd3. by destruct d3. }
  exists {| g_dev := g_dev s; g_peer := g_peer s; g_ip := g_ip s; g_ret := 0 |}. split_and!; [|simpl|done].
  - eapply heard_app; [|by apply hear_errno].
    eapply (heard_app _ _ (dev_state d1 (- EPROTO))).
    { apply heard_opt; unfold d1; intros E; rewrite E; [|done]. by apply (hear_private_key d0). }
    eapply (heard_app _ _ (dev_state d2 (- EPROTO))).
    { apply heard_opt; unfold d2; intros E; rewrite E; [|done]. by apply hear_listen_port. }
    eapply (heard_app _ _ (dev_state d3 (- EPROTO))).
    { apply heard_opt; unfold d3; intros E; rewrite E; [|done]. by apply hear_fwmark. }
    eapply heard_app; [apply heard_opt; [intros _; apply hear_replace_peers|done]|done].
  - rewrite Hdev. unfold d3, d2, d1. cbn [app].
    by destruct (has WGDEVICE_HAS_FWMARK), (has WGDEVICE_HAS_LISTEN_PORT), (has WGDEVICE_HAS_PRIVATE_KEY).
Qed.

Lemma uapi_allowedip_line a :
  canonical_ip a → uapi_allowedip a = (str "allowed_ip" ++ str "=" ++ entry_text a) ++ newline.
Proof.
  intros Ha. destruct (allowedip_text_ok a Ha) as (s & Hs & _). pose proof Ha as (Hok & Hfl & _).
  pose proof (cidr_range a Hok). unfold uapi_allowedip, entry_text. rewrite Hs, Hfl, printf_d_nonneg by lia.
  cbn [from_option id]. by rewrite <- !app_assoc.
Qed.

Lemma uapi_peer_text p : reported_peer p → uapi_peer p = unlines (uapi_peer_lines p).
Proof.
  intros (((Hpub & Hpsk & _) & Hcan & Hplain) & Hrm & _).
  apply key_ok_spec in Hpub as [_ Hpub]. apply key_ok_spec in Hpsk as [_ Hpsk].
  unfold uapi_peer, uapi_peer_lines, uapi_endpoint.
  rewrite Hrm, !unlines_app, !unlines_one, !unlines_opt, !print_hex_eq by done.
  fold (has_psk p) (has_keepalive p).
  assert (unlines ((λ a, str "allowed_ip" ++ str "=" ++ entry_text a) <$> allowedips p) = flat_map uapi_allowedip (allowedips p)) as ->.
  { clear -Hcan laws. induction Hcan as [|a l Ha _ IH]; [done|]. unfold unlines in *. rewrite fmap_cons. cbn [flat_map].
    by rewrite IH, (uapi_allowedip_line a Ha). }
  assert (He : has_endpoint p = true → is_Some (getnameinfo (endpoint p))).
  { intros H. destruct (gni_gai _ (Hplain H)) as (host & -> & _). eauto. }
  destruct (has_endpoint p); [destruct (He eq_refl) as [[host service] ->]|clear He];
    destruct (has_psk p), (has_keepalive p), (has_flag (p_flags p) WGPEER_REPLACE_ALLOWEDIPS);
    rewrite <- ?app_assoc; reflexivity.
Qed.

Lemma uapi_device_text d : reported d → uapi_device d = unlines (uapi_device_lines d).
Proof.
  intros [(_ & [_ Hpriv]%key_ok_spec & _) Hps]. unfold uapi_device, uapi_device_lines. cbv zeta.
  rewrite !unlines_app, !unlines_opt, print_hex_eq by done.
  assert (unlines (flat_map uapi_peer_lines (peers d)) = flat_map uapi_peer (peers d)) as ->.
  { clear -Hps laws. induction Hps as [|p l Hp _ IH]; [done|]. cbn [flat_map].
    by rewrite unlines_app, IH, (uapi_peer_text p Hp). }
  destruct (has_flag (flags d) WGDEVICE_HAS_PRIVATE_KEY), (has_flag (flags d) WGDEVICE_HAS_LISTEN_PORT),
    (has_flag (flags d) WGDEVICE_HAS_FWMARK), (has_flag (flags d) WGDEVICE_REPLACE_PEERS);
    rewrite <- ?app_assoc; reflexivity.
Qed.

(** The reply of a daemon that reports [d]. *)
Definition report (d : wgdevice) : bytes := uapi_device d ++ str "errno=0" ++ newline ++ newline.

Lemma report_lines d :
  reported d → Forall (Forall plain_char) (uapi_device_lines d) →
  getlines (report d) = ((λ t, t ++ newline) <$> (uapi_device_lines d ++ [str "errno" ++ str "=" ++ str "0"])) ++ [newline].
Proof.
  intros Hd Hpl. unfold report. rewrite uapi_device_text by done.
  set (ts := uapi_device_lines d ++ [str "errno" ++ str "=" ++ str "0"]).
  assert (unlines (uapi_device_lines d) ++ str "errno=0" ++ newline ++ newline = flat_map (λ t, t ++ newline) (ts ++ [[]])) as ->.
  { unfold ts. rewrite !flat_map_app. cbn [flat_map]. rewrite <- !app_assoc. done. }
  rewrite getlines_lines.
  - by rewrite fmap_app.
  - unfold ts. rewrite !Forall_app. split_and!; [|by repeat constructor; apply not_elem_of_eval|by repeat constructor; apply not_elem_of_nil].
    eapply Forall_impl; [exact Hpl|]. intros t Ht Hin. rewrite Forall_forall in Ht. apply Ht in Hin as (_ & Hs & _). done.
Qed.
End RoundTrip.

(** C12: [userspace_get_device] copes with any reply of the daemon: on every
    sequence of bytes, and whichever allocation fails, it runs into no undefined
    behaviour, and it returns zero exactly when it hands out a device, which is
    then well formed (keys of 32 bytes, prefixes within their address family). *)
Theorem userspace_get_device_ok (plat : Platform) (net : NetLib) (laws : NetLibLaws net) (int128 : bool)
    (daemon : Z + (bytes → bytes)) (iface : bytes)
    (Hd : match daemon with inl e => 0 < e | inr reply => all_bytes (reply get_request) = true end) :
  safe (userspace_get_device int128 daemon iface) (λ '(ret, out),
    match out with Some d => ret = 0 ∧ device_ok d | None => ret ≠ 0 end).
Proof.
  by apply userspace_get_device_safe.
Qed.

(** C11: What [userspace_set_device] writes, [userspace_get_device] reads: when a
    daemon reports a device in the form in which [wg] itself describes one, the
    tool gets back its private key with the public key computed from it, listen
    port, fwmark, and every peer in order with its keys, endpoint, keepalive
    interval and allowed addresses. *)
Theorem uapi_roundtrip (plat : Platform) (net : NetLib) (laws : NetLibLaws net) (int128 : bool)
    (daemon : bytes → bytes) (iface : bytes) (d : wgdevice)
    (Hd : reported d) (Hreply : daemon get_request = report d) :
  run (userspace_get_device int128 (inr daemon) iface) = Done (0, Some (view_device int128 iface d)).
Proof.
  destruct (hear_device int128 iface d Hd) as (s & Hs & Hdev & Hret).
  unfold run, userspace_get_device, mbind, M_bind. cbn [alloc negb]. rewrite Hreply.
  rewrite report_lines; [|done|].
  2:{ pose proof (heard_text _ _ _ _ Hs) as Hall. by apply Forall_app in Hall as [? _]. }
  rewrite (heard_loop _ _ _ _ _ Hs). cbn [get_loop]. 
  by rewrite Hdev, Hret.
Qed.

(** A daemon that reports [sample_device]. *)
Definition sample_daemon (request : bytes) : bytes := report (net := net0) sample_device.

Lemma sample_reported : reported sample_device.
Proof.
  destruct sample_canonical as [Hok Hps]. split; [done|]. apply Forall_singleton. change (peers sample_device) with [sample_peer] in Hps.
  apply Forall_cons in Hps as [Hps _]. split; [exact Hps|]. split; [reflexivity|]. intros _. reflexivity.
Qed.

Lemma userspace_get_device_ok_witness :
  safe (userspace_get_device (plat := arm64) true (inr sample_daemon) (str "wg0")) (λ '(ret, out),
    match out with Some d => ret = 0 ∧ device_ok d | None => ret ≠ 0 end).
Proof. refine (userspace_get_device_ok arm64 net0 net0_laws true (inr sample_daemon) (str "wg0") _). vm_compute. reflexivity. Defined.

Lemma uapi_roundtrip_witness :
  run (userspace_get_device (plat := arm64) true (inr sample_daemon) (str "wg0")) =
  Done (0, Some (view_device true (str "wg0") sample_device)).
Proof. exact (uapi_roundtrip arm64 net0 net0_laws true sample_daemon (str "wg0") sample_device sample_reported eq_refl). Defined.

(** ** Errors *)

(** An endpoint that does not resolve leaves a positive error, the only one. *)
Lemma get_device_positive_error :
  run (userspace_get_device (plat := arm64) true
         (inr (λ _, str "public_key=" ++ key_hex (replicate 32 7) ++ newline ++ str "endpoint=example.com:1" ++ newline ++ newline))
         (str "wg0")) = Done (ENETUNREACH, None).
Proof. vm_compute. reflexivity. Qed.

(** A prefix length is reduced modulo 256 before it is compared with the maximum. *)
Lemma get_device_cidr_wraps :
  (λ r, match r with Done (ret, Some d) => Some (ret, flat_map (λ p, cidr <$> allowedips p) (peers d)) | _ => None end)
    (run (userspace_get_device (plat := arm64) true
         (inr (λ _, str "public_key=" ++ key_hex (replicate 32 7) ++ newline ++ str "allowed_ip=10.0.0.0/264" ++ newline
                    ++ str "errno=0" ++ newline ++ newline))
         (str "wg0"))) = Some (0, [8]).
Proof. vm_compute. reflexivity. Qed.

Lemma strto_parse_minus base s n rest :
  strto_parse base s = Some (false, n, rest) → (∀ c k, s = c :: k → isspace c = false ∧ c ≠ 45 ∧ c ≠ 43) →
  strto_parse base (ch "-" :: s) = Some (true, n, rest).
Proof.
  unfold strto_parse. intros H Hs. change (skip_sign (skip_space (ch "-" :: s))) with (true, s).
  assert (Hk : skip_sign (skip_space s) = (false, s)).
  { destruct s as [|c k]; [done|]. destruct (Hs c k eq_refl) as (Hsp & H1 & H2). simpl. rewrite Hsp. simpl.
    by rewrite (proj2 (Z.eqb_neq c 45) H1), (proj2 (Z.eqb_neq c 43) H2). }
  rewrite Hk in H. cbv iota beta. destruct (span_digits base (skip_0x base s)) as [[|d ds] r]; [done|]. congruence.
Qed.

Lemma strtoll_printed n : INT_MIN <= n <= INT_MAX → strtoll 10 (printf_d n) = (n, []).
Proof.
  unfold INT_MIN, INT_MAX. intros Hn. unfold strtoll.
  assert (Hp : ∀ m, 0 <= m → strto_parse 10 (printf_u m) = Some (false, m, [])).
  { intros m Hm. pose proof (print_base_spec 10 m ltac:(lia) Hm) as Hs.
    pose proof (strto_parse_print 10 (printf_u m) m [] ltac:(lia) ltac:(by left) Hs ltac:(done)) as H.
    by rewrite app_nil_r in H. }
  unfold printf_d. destruct (Z.ltb_spec n 0) as [Hneg|Hpos].
  - rewrite (strto_parse_minus 10 _ (- n) []); [f_equal; lia|apply Hp; lia|].
    intros c k Hc. pose proof (printf_u_digits (- n) ltac:(lia)) as Hd. rewrite Hc in Hd.
    apply Forall_cons in Hd as [Hd _]. unfold isspace. lia.
  - rewrite Hp by lia. f_equal. lia.
Qed.

Lemma printed_int_plain n : Forall plain_char (printf_d n).
Proof.
  unfold printf_d. destruct (Z.ltb_spec n 0); [|apply plain_u; lia]. apply Forall_cons. split; [|apply plain_u; lia].
  unfold COMMENT_CHAR. ch_norm. by split_and!.
Qed.

Lemma printed_int_start {plat : Platform} n :
  negb (at_ (printf_d n) 0 =? ch "-") && negb (char_is_digit (char_val (at_ (printf_d n) 0))) = false.
Proof.
  unfold printf_d. destruct (Z.ltb_spec n 0); [done|]. by rewrite printed_digit, andb_false_r by lia.
Qed.

(** [userspace_set_device] returns the error number of the daemon's reply,
    whatever its sign and whatever the device, and hands it the request that
    describes the device. *)
Theorem userspace_set_device_errno (plat : Platform) (net : NetLib) (daemon : bytes → bytes) (end_errno n : Z) (d : wgdevice)
    (Hn : INT_MIN <= n <= INT_MAX)
    (Hreply : daemon (set_request d) = str "errno=" ++ printf_d n ++ newline ++ newline) :
  userspace_set_device (inr daemon) end_errno d = n.
Proof.
  pose proof (printed_int_plain n) as Hpl. unfold userspace_set_device. rewrite Hreply.
  assert (str "errno=" ++ printf_d n ++ newline ++ newline = flat_map (λ t, t ++ newline) [str "errno" ++ str "=" ++ printf_d n; []]) as ->.
  { cbn [flat_map]. rewrite <- !app_assoc. done. }
  rewrite getlines_lines.
  2:{ repeat constructor; [|apply not_elem_of_nil]. apply not_elem_of_app; split; [by apply not_elem_of_eval|].
      apply not_elem_of_app; split; [by apply not_elem_of_eval|]. intros Hin. rewrite Forall_forall in Hpl.
      apply Hpl in Hin as (_ & Hs & _). done. }
  cbn [fmap list_fmap set_reply].
  rewrite cstr_line by (rewrite !Forall_app; split_and!; [by apply line_by_eval..|by apply plain_line_all]).
  rewrite bool_decide_eq_false_2 by (intros Hl%(f_equal length); rewrite !length_app in Hl; simpl in Hl; lia).
  rewrite split_line_kv by by apply not_elem_of_eval. change (strcmp_eq (str "errno") (str "errno")) with true. cbv iota.
  rewrite strtoll_printed by done. cbn [is_end negb orb].
  rewrite printed_int_start, (proj2 (Z.ltb_ge INT_MAX n)), (proj2 (Z.ltb_ge n INT_MIN)) by lia. done.
Qed.

Lemma userspace_set_device_errno_witness :
  userspace_set_device (plat := arm64) (net := net0) (inr (λ _, str "errno=-98" ++ newline ++ newline)) 0 sample_device = -98.
Proof. refine (userspace_set_device_errno arm64 net0 _ 0 (-98) sample_device _ _); [unfold INT_MIN, INT_MAX; lia|reflexivity]. Defined.
