(* ===== verification/Ipc.v ===== *)
(** * Ipc: ipc.c and ipc-uapi-unix.h, finding the implementation of an interface

    An interface is run either by the kernel or by a userspace daemon that
    listens on a Unix socket in a fixed directory.  This file models the list of
    interface names, the sockets of the directory with the clean-up of dead
    ones, and the choice between the two implementations.  The kernel's side is
    a record of operations; for Linux it is given in IpcLinux. *)

From Stdlib Require Import Ascii String.
From stdpp Require Import base numbers option sets list list_numbers strings gmap.
From S2P Require Import Prelude CLib Ctype Encoding Containers Config Setconf Showconf Curve25519 IpcUapi.
#[local] Open Scope c_scope.


(** ** The list of names *)

(** [struct string_list]: the cells of the buffer are unwritten until stored to;
    the null buffer has no cells. *)
Record string_list := { buffer : list (option Z); len : Z; cap : Z }.
Definition string_list_zero : string_list := {| buffer := []; len := 0; cap := 0 |}.

Section StringList.
Context {plat : Platform}.

(** [size_t] is as wide as [unsigned long]. *)
Definition SIZE_MAX : Z := ULONG_MAX.
Definition size (x : Z) : Z := x mod (SIZE_MAX + 1).

Definition realloc (buf : list (option Z)) (n : Z) : list (option Z) :=
  take (Z.to_nat n) buf ++ replicate (Z.to_nat n - length buf) None.

(** [memcpy(buf + off, src, n)]; a store past the end is undefined. *)
Definition store_cells (buf : list (option Z)) (off : Z) (src : bytes) : M (list (option Z)) :=
  if off + Z.of_nat (length src) <=? Z.of_nat (length buf)
  then mret (take (Z.to_nat off) buf ++ (Some <$> src) ++ drop (Z.to_nat off + length src) buf)
  else undefined.

(** The buffer after [if (len >= list->cap - list->len)]; [None] when [realloc] fails. *)
Definition grow (l : string_list) (n : Z) : M (option string_list) :=
  if size (cap l - len l) <=? n then
    let new_cap := size (cap l * 2) in
    let new_cap := if new_cap <? size (len l + n + 1) then size (len l + n + 1) else new_cap in
    new_buffer ← alloc;
    mret (if negb new_buffer then None
          else Some {| buffer := realloc (buffer l) new_cap; len := len l; cap := new_cap |})
  else mret (Some l).

Definition string_list_add (l : string_list) (s : bytes) : M (Z * string_list) :=
  let n := size (Z.of_nat (length s) + 1) in
  if n =? 1 then mret (0, l)
  else
    grown ← grow l n;
    match grown with
    | None => mret (- ENOMEM, l)
    | Some l =>
        b ← store_cells (buffer l) (len l) (s ++ [0]);
        let len' := size (len l + n) in
        b ← store_cells b len' [0];
        mret (0, {| buffer := b; len := len'; cap := cap l |})
    end.
End StringList.

(** ** The sockets *)

(** What a path names: a socket, with the result of connecting to it and the
    daemon behind it; something else; or a path that cannot be looked at. *)
Inductive entry := Sock (connect_errno : Z) (reply : bytes → bytes) | NotSock | Denied (e : Z).

(** The system as these functions see it: the files, what [opendir] and
    [readdir] of the directory give, and the [errno] of the calls that may fail
    (0 when they succeed). *)
Record system := {
  files : gmap bytes entry;
  directory : Z + list bytes;
  socket_errno : Z;
  fdopen_errno : Z;
  unlink_errno : Z;
}.

Definition unlink (path : bytes) (s : system) : system :=
  if truthy (unlink_errno s) then s
  else {| files := delete path (files s); directory := directory s; socket_errno := socket_errno s;
          fdopen_errno := fdopen_errno s; unlink_errno := unlink_errno s |}.

Section Unix.
Context {plat : Platform} {net : NetLib}.
(** The directory the build was configured with. *)
Variable RUNSTATEDIR : bytes.

Definition SOCK_PATH : bytes := RUNSTATEDIR ++ str "/wireguard/".
Definition SOCK_SUFFIX : bytes := str ".sock".

(** [snprintf] into [addr.sun_path], 108 bytes with the NUL. *)
Definition sun_path (iface : bytes) : bytes := take 107 (SOCK_PATH ++ iface ++ SOCK_SUFFIX).

(** The open connection, or [errno]. *)
Definition userspace_interface_file (s : system) (iface : bytes) : (Z + (bytes → bytes)) * system :=
  if has_char iface (ch "/") then (inl EINVAL, s)
  else
    let path := sun_path iface in
    match files s !! path with
    | None => (inl ENOENT, s)
    | Some (Denied e) => (inl e, s)
    | Some NotSock => (inl EBADF, s)
    | Some (Sock connect_errno reply) =>
        if truthy (socket_errno s) then (inl (socket_errno s), s)
        else if truthy connect_errno then
          if connect_errno =? ECONNREFUSED then
            (inl (if truthy (unlink_errno s) then unlink_errno s else ECONNREFUSED), unlink path s)
          else (inl connect_errno, s)
        else if truthy (fdopen_errno s) then (inl (fdopen_errno s), s)
        else (inr reply, s)
    end.

Definition userspace_has_wireguard_interface (s : system) (iface : bytes) : bool * system :=
  if has_char iface (ch "/") then (false, s)
  else
    let path := sun_path iface in
    match files s !! path with
    | Some (Sock connect_errno _) =>
        if truthy (socket_errno s) then (false, s)
        else if connect_errno =? ECONNREFUSED then (false, unlink path s)
        else (true, s)
    | _ => (false, s)
    end.

(** The interface a directory entry is the socket of. *)
Definition socket_name (d_name : bytes) : option bytes :=
  let k := (length d_name - length SOCK_SUFFIX)%nat in
  if (length d_name <=? length SOCK_SUFFIX)%nat then None
  else if negb (strcmp_eq (drop k d_name) SOCK_SUFFIX) then None
  else Some (take k d_name).

(** The [readdir] loop. *)
Fixpoint interfaces_loop (s : system) (l : string_list) (entries : list bytes) (ret : Z) : M (Z * string_list * system) :=
  match entries with
  | [] => mret (ret, l, s)
  | ent :: entries' =>
      match socket_name ent with
      | None => interfaces_loop s l entries' ret
      | Some iface =>
          let '(has, s) := userspace_has_wireguard_interface s iface in
          if negb has then interfaces_loop s l entries' ret
          else
            r ← string_list_add l iface;
            if r.1 <? 0 then mret (r.1, r.2, s) else interfaces_loop s r.2 entries' r.1
      end
  end.

Definition userspace_get_wireguard_interfaces (s : system) (l : string_list) : M (Z * string_list * system) :=
  match directory s with
  | inl e => mret (if e =? ENOENT then 0 else - e, l, s)
  | inr entries => interfaces_loop s l entries 0
  end.

(** ** The choice between the kernel and a daemon *)

(** The operations of ipc-linux.h and its relatives. *)
Record kernel := {
  kernel_get_wireguard_interfaces : string_list → M (Z * string_list);
  kernel_get_device : bytes → M (Z * option wgdevice);
  kernel_set_device : wgdevice → M Z;
}.

(** [None] where IPC_SUPPORTS_KERNEL_INTERFACE is not defined. *)
Variable K : option kernel.
Variable int128 : bool.

(** [ipc_list_devices()]: the cells of the buffer it returns. *)
Definition list_devices (s : system) : M (option (list (option Z)) * system) :=
  r ← match K with Some k => kernel_get_wireguard_interfaces k string_list_zero | None => mret (0, string_list_zero) end;
  r ← (if r.1 <? 0 then mret (r.1, r.2, s) else userspace_get_wireguard_interfaces s r.2);
  let '(ret, l, s) := r in
  if truthy ret then mret (None, s)
  else match buffer l with
  | [] => copy ← alloc; mret (if negb copy then None else Some [Some 0], s)
  | b => mret (Some b, s)
  end.

(** [userspace_get_device] opens the socket only once its [calloc] has succeeded. *)
Definition userspace_get (s : system) (iface : bytes) : M (Z * option wgdevice * system) := λ o,
  let '(daemon, s') := userspace_interface_file s iface in
  (r ← userspace_get_device int128 daemon iface;
   mret (r, if head o is Some false then s else s')) o.

Definition userspace_set (s : system) (end_errno : Z) (d : wgdevice) : M (Z * system) :=
  let '(daemon, s) := userspace_interface_file s (name d) in
  mret (userspace_set_device daemon end_errno d, s).

(** [ipc_get_device(&dev, iface)] *)
Definition get_device (s : system) (iface : bytes) : M (Z * option wgdevice * system) :=
  match K with
  | Some k =>
      let '(has, s) := userspace_has_wireguard_interface s iface in
      if has then userspace_get s iface
      else r ← kernel_get_device k iface; mret (r, s)
  | None => userspace_get s iface
  end.

(** [ipc_set_device(dev)] *)
Definition set_device (s : system) (end_errno : Z) (d : wgdevice) : M (Z * system) :=
  match K with
  | Some k =>
      let '(has, s) := userspace_has_wireguard_interface s (name d) in
      if has then userspace_set s end_errno d
      else r ← kernel_set_device k d; mret (r, s)
  | None => userspace_set s end_errno d
  end.
End Unix.
