(* ===== verification/IpcSpec.v ===== *)
(** * IpcSpec: the list of interfaces, and which implementation answers *)

From Stdlib Require Import Ascii String.
From stdpp Require Import base numbers option sets list list_numbers strings gmap.
From S2P Require Import Prelude CLib Ctype Encoding Containers Config NetLibModel ConfigFacts ConfigSpec Setconf SetconfSpec.
From S2P Require Import Showconf ShowconfSpec Terminal Show Field25519 X25519 Curve25519 IpcUapi IpcUapiSpec Ipc.
#[local] Open Scope c_scope.

(** ** The list of names *)

(** [first\0second\0...last\0]; the buffer has one more NUL. *)
Definition names_text (names : list bytes) : bytes := flat_map (λ s, s ++ [0]) names.

Definition interface_name (s : bytes) : Prop := s ≠ [] ∧ cstring s = true.

Lemma names_text_app a b : names_text (a ++ b) = names_text a ++ names_text b.
Proof. apply flat_map_app. Qed.

Section List.
Context {plat : Platform}.

(** The list stores exactly [names], terminated, within its capacity. *)
Record holds (l : string_list) (names : list bytes) : Prop := {
  h_len : len l = Z.of_nat (length (names_text names));
  h_cap : cap l = Z.of_nat (length (buffer l)) ∧ cap l <= SIZE_MAX;
  h_text : (buffer l = [] ∧ names = []) ∨
           (∃ junk, buffer l = (Some <$> names_text names ++ [0]) ++ junk);
}.

Lemma holds_zero : holds string_list_zero [].
Proof. split; simpl; [done| |by left]. split; [done|]. unfold SIZE_MAX. pose proof ULONG_MAX_ge. unfold UINT32_MAX in *. lia. Qed.

Lemma size_small x : 0 <= x <= SIZE_MAX → size x = x.
Proof. intros. apply Z.mod_small. lia. Qed.

Lemma holds_take l names :
  holds l names → take (Z.to_nat (len l)) (buffer l) = Some <$> names_text names ∧ len l <= cap l.
Proof.
  intros [Hl [Hc _] Ht]. rewrite Hl, Nat2Z.id, Hc. destruct Ht as [[Hb ->]|[junk Hb]]; rewrite Hb.
  - simpl. split; [done|lia].
  - rewrite fmap_app, <- app_assoc, !length_app, length_fmap. split; [|lia].
    by rewrite take_app_length' by by rewrite length_fmap.
Qed.

(** Storing a name and the final NUL. *)
Lemma store_name_cells buf off t s o :
  take (Z.to_nat off) buf = Some <$> t → off = Z.of_nat (length t) →
  off + Z.of_nat (length s) + 2 <= Z.of_nat (length buf) →
  ∃ b junk, (b ← store_cells buf off (s ++ [0]); store_cells b (off + Z.of_nat (length s) + 1) [0]) o = Done (b, o) ∧
    b = (Some <$> (t ++ s ++ [0]) ++ [0]) ++ junk ∧ length b = length buf.
Proof.
  intros Ht -> Hle. rewrite Nat2Z.id in Ht. unfold store_cells, mbind, M_bind.
  rewrite (proj2 (Z.leb_le _ _)) by (rewrite length_app; simpl; lia). cbn [mret M_ret].
  rewrite Nat2Z.id, Ht. set (rest := drop (length t + length (s ++ [0])) buf).
  set (b1 := (Some <$> t) ++ _ ++ rest).
  assert (Hrest : (length t + length s + 1 + length rest = length buf)%nat).
  { unfold rest. rewrite length_drop, length_app. simpl. lia. }
  assert (Hb1 : length b1 = length buf).
  { unfold b1. rewrite !length_app, !length_fmap, length_app. simpl. lia. }
  rewrite (proj2 (Z.leb_le _ _)) by (rewrite Hb1; simpl; lia). cbn [mret M_ret].
  assert (Hoff : Z.to_nat (Z.of_nat (length t) + Z.of_nat (length s) + 1) = length (Some <$> t ++ s ++ [0])).
  { rewrite length_fmap, !length_app. simpl. lia. }
  assert (Hb1' : b1 = (Some <$> t ++ s ++ [0]) ++ rest) by (unfold b1; by rewrite !fmap_app, <- !app_assoc).
  rewrite Hoff, Hb1', take_app_length. rewrite drop_app_ge by lia. rewrite Nat.add_comm, Nat.add_sub.
  eexists _, (drop 1 rest). split; [reflexivity|]. split.
  - rewrite (fmap_app _ (t ++ s ++ [0])), <- !app_assoc. done.
  - rewrite !length_app, !length_fmap, !length_app, length_drop. simpl. destruct rest; simpl in *; lia.
Qed.

Lemma length_realloc buf n : 0 <= n → Z.of_nat (length (realloc buf n)) = n.
Proof. intros. unfold realloc. rewrite length_app, length_take, length_replicate. lia. Qed.

Lemma take_realloc buf n k : (k <= length buf)%nat → Z.of_nat k <= n → take k (realloc buf n) = take k buf.
Proof.
  intros. unfold realloc. rewrite take_app_le by (rewrite length_take; lia). rewrite take_take. f_equal. lia.
Qed.

(** After [grow] there is room for a string of [n] bytes and one more. *)
Lemma grow_ok l names n o :
  holds l names → 1 <= n → len l + n + 1 <= SIZE_MAX →
  match grow l n o with
  | Done (Some l', o') => o' ⊆ o ∧ len l' = len l ∧ take (Z.to_nat (len l)) (buffer l') = Some <$> names_text names ∧
      cap l' = Z.of_nat (length (buffer l')) ∧ len l + n + 1 <= cap l' <= SIZE_MAX
  | Done (None, _) => false ∈ o
  | _ => False
  end.
Proof.
  intros Hh Hn Hmax. destruct (holds_take l names Hh) as [Ht Hle]. pose proof (h_cap _ _ Hh) as [Hc Hcm].
  pose proof (h_len _ _ Hh) as Hlen. unfold grow. rewrite (size_small (cap l - len l)), (size_small (len l + n + 1)) by lia.
  destruct (Z.leb_spec (cap l - len l) n) as [Hg|Hg].
  2:{ cbn. split_and!; try done; lia. }
  set (nc := if _ <? _ then _ else _).
  assert (Hnc : len l + n + 1 <= nc <= SIZE_MAX).
  { assert (Hpos : 0 < SIZE_MAX + 1) by lia. unfold nc, size. pose proof (Z.mod_pos_bound (cap l * 2) _ Hpos).
    destruct (Z.ltb_spec (cap l * 2 mod (SIZE_MAX + 1)) (len l + n + 1)); lia. }
  unfold mbind, M_bind, alloc. destruct o as [|[] o]; cbn [negb mret M_ret]; [..|left].
  all: cbn [len buffer cap]; rewrite length_realloc, take_realloc by lia; split_and!; try done; try lia; set_solver.
Qed.

Lemma string_list_add_cases l names s o :
  holds l names → cstring s = true → len l + Z.of_nat (length s) + 2 <= SIZE_MAX →
  match string_list_add l s o with
  | Done (r, l', o') => o' ⊆ o ∧ (r = 0 ∧ holds l' (names ++ if s is [] then [] else [s])) ∨
                        (r = - ENOMEM ∧ l' = l ∧ false ∈ o)
  | _ => False
  end.
Proof.
  intros Hh Hs Hmax. pose proof (h_len _ _ Hh) as Hlen. unfold string_list_add.
  rewrite (size_small (Z.of_nat (length s) + 1)) by lia.
  destruct (Z.eqb_spec (Z.of_nat (length s) + 1) 1) as [He|Hne].
  { destruct s; [|simpl in He; lia]. cbn. left. by rewrite app_nil_r. }
  pose proof (grow_ok l names (Z.of_nat (length s) + 1) o Hh ltac:(lia) ltac:(lia)) as Hg.
  unfold mbind at 1, M_bind at 1. destruct (grow l _ o) as [[[l'|] o']| | |]; [|by right|done..].
  destruct Hg as (Ho & Hl' & Ht & Hc & Hcap). rewrite Hl'. rewrite (size_small (len l + _)) by lia.
  destruct (store_name_cells (buffer l') (len l) (names_text names) s o' Ht Hlen ltac:(lia)) as (b & junk & Hrun & Hb & Hlb).
  rewrite Z.add_assoc. unfold mbind, M_bind in *. destruct (store_cells (buffer l') (len l) (s ++ [0]) o') as [[b1 o1]| | |]; [|done..].
  rewrite Hrun. cbn [mret M_ret]. left. split; [done|]. split; [done|].
  assert (Hname : names_text (names ++ if s is [] then [] else [s]) = names_text names ++ s ++ [0]).
  { rewrite names_text_app. destruct s; [simpl in Hne; lia|]. simpl. by rewrite app_nil_r. }
  split; cbn [len cap buffer].
  - rewrite Hname, !length_app. simpl. lia.
  - rewrite Hlb. split; [done|lia].
  - right. exists junk. by rewrite Hname.
Qed.

(** ** The directory of sockets *)

Variable RUNSTATEDIR : bytes.

(** A connection to the interface's socket is not refused: it is accepted, or it fails in another way, for which the code does not ask. *)
Definition not_refused (s : system) (iface : bytes) : bool :=
  negb (has_char iface (ch "/")) && negb (truthy (socket_errno s)) &&
  match files s !! sun_path RUNSTATEDIR iface with Some (Sock e _) => negb (e =? ECONNREFUSED) | _ => false end.

(** [t] is [s] with some dead sockets removed. *)
Definition cleaned (s t : system) : Prop :=
  directory t = directory s ∧ socket_errno t = socket_errno s ∧ fdopen_errno t = fdopen_errno s ∧ unlink_errno t = unlink_errno s ∧
  ∀ path, files t !! path = files s !! path ∨
          (files t !! path = None ∧ ∃ reply, files s !! path = Some (Sock ECONNREFUSED reply)).

Lemma cleaned_refl s : cleaned s s.
Proof. by split_and!; auto. Qed.

Lemma cleaned_trans s t u : cleaned s t → cleaned t u → cleaned s u.
Proof.
  intros (H1 & H2 & H3 & H4 & Hf) (K1 & K2 & K3 & K4 & Kf). split_and!; [congruence..|]. intros path.
  destruct (Hf path) as [E|[E [r Hr]]], (Kf path) as [F|[F [r' Hr']]]; rewrite E in *; eauto.
Qed.

Lemma cleaned_unlink s path reply :
  files s !! path = Some (Sock ECONNREFUSED reply) → cleaned s (unlink path s).
Proof.
  intros H. unfold unlink. case_match; [apply cleaned_refl|]. split_and!; try done. intros q. simpl.
  destruct (decide (q = path)) as [->|]; [rewrite lookup_delete_eq; eauto|rewrite lookup_delete_ne by done; auto].
Qed.

Lemma not_refused_cleaned s t iface : cleaned s t → not_refused t iface = not_refused s iface.
Proof.
  intros (_ & H2 & _ & _ & Hf). unfold not_refused. rewrite H2. f_equal.
  destruct (Hf (sun_path RUNSTATEDIR iface)) as [->|[-> [r ->]]]; done.
Qed.

Lemma has_interface s iface :
  (userspace_has_wireguard_interface RUNSTATEDIR s iface).1 = not_refused s iface ∧
  cleaned s (userspace_has_wireguard_interface RUNSTATEDIR s iface).2.
Proof.
  unfold userspace_has_wireguard_interface, not_refused. destruct (has_char _ _); [split; [done|apply cleaned_refl]|].
  destruct (files s !! _) as [[e r| |e]|] eqn:E; destruct (truthy (socket_errno s)); simpl;
    try (split; [done|apply cleaned_refl]).
  destruct (Z.eqb_spec e ECONNREFUSED) as [->|]; simpl; (split; [done|]); [by eapply cleaned_unlink|apply cleaned_refl].
Qed.

(** The interfaces that are listed: those whose socket is in the directory and does not refuse a connection. *)
Definition listed (s : system) (entries : list bytes) : list bytes := filter (λ n, not_refused s n = true) (omap socket_name entries).

Lemma listed_cleaned s t entries : cleaned s t → listed t entries = listed s entries.
Proof. intros H. unfold listed. apply list_filter_iff. intros n. by rewrite (not_refused_cleaned s t n H). Qed.

Lemma socket_name_Some ent iface : socket_name ent = Some iface → iface ≠ [] ∧ ent = iface ++ SOCK_SUFFIX.
Proof.
  unfold socket_name. destruct (Nat.leb_spec (length ent) (length SOCK_SUFFIX)) as [|Hl]; [done|].
  destruct (strcmp_eq _ _) eqn:E; [|done]. apply strcmp_eq_spec in E. intros [= <-]. split.
  - intros H%(f_equal length). rewrite length_take in H. simpl in H, Hl. lia.
  - rewrite <- E. by rewrite take_drop.
Qed.

Lemma interfaces_loop_ok entries s l names o :
  holds l names → Forall (λ e, cstring e = true) entries →
  len l + Z.of_nat (length (names_text (omap socket_name entries))) + 1 <= SIZE_MAX →
  match interfaces_loop RUNSTATEDIR s l entries 0 o with
  | Done (r, l', s', o') => cleaned s s' ∧ ((o' ⊆ o ∧ r = 0 ∧ holds l' (names ++ listed s entries)) ∨ (r = - ENOMEM ∧ false ∈ o))
  | _ => False
  end.
Proof.
  intros Hh He. revert s l names o Hh. induction He as [|ent entries Hent _ IH]; intros s l names o Hh Hmax.
  { cbn. split; [apply cleaned_refl|]. left. by rewrite app_nil_r. }
  cbn [interfaces_loop]. unfold listed at 1. cbn [omap list_omap] in *.
  destruct (socket_name ent) as [iface|] eqn:Hsn; [|by apply IH].
  apply socket_name_Some in Hsn as [Hne ->]. rewrite cstring_app, andb_true_iff in Hent. destruct Hent as [Hc _].
  cbn [names_text flat_map] in Hmax. fold (names_text (omap socket_name entries)) in Hmax. rewrite !length_app in Hmax. change (length [0]) with 1%nat in Hmax.
  destruct (has_interface s iface) as [Hlive Hclean].
  destruct (userspace_has_wireguard_interface RUNSTATEDIR s iface) as [has t]. simpl in Hlive, Hclean. subst has.
  fold (listed s entries) in *.
  rewrite filter_cons. fold (listed s entries). destruct (not_refused s iface); cbn [negb].
  - rewrite decide_True by done. unfold mbind, M_bind.
    pose proof (string_list_add_cases l names iface o Hh Hc ltac:(lia)) as Hadd.
    destruct (string_list_add l iface o) as [[[r l'] o']| | |]; [|done..]. cbn [fst snd].
    destruct Hadd as [[Ho [-> Hh']]|(-> & -> & Hf)]; [|by split; [|right]].
    destruct iface as [|c iface]; [done|]. cbn.
    specialize (IH t l' _ o' Hh'). rewrite (h_len _ _ Hh'), names_text_app, length_app in IH.
    cbn [names_text flat_map] in IH. rewrite app_nil_r, length_app in IH. change (length [0]) with 1%nat in IH.
    rewrite (h_len _ _ Hh) in Hmax. specialize (IH ltac:(lia)).
    destruct (interfaces_loop _ _ _ _ _ _) as [[[[r l2] t'] o2]| | |]; [|done..].
    destruct IH as [Hc2 H]. split; [by eapply cleaned_trans|].
    rewrite <- app_assoc, (listed_cleaned s t) in H by done. destruct H as [(?&?&?)|[??]]; [left|right]; split_and!; try done; set_solver.
  - rewrite decide_False by done. specialize (IH t l names o Hh ltac:(lia)).
    destruct (interfaces_loop _ _ _ _ _ _) as [[[[r l2] t'] o2]| | |]; [|done..].
    destruct IH as [Hc2 H]. split; [by eapply cleaned_trans|]. by rewrite (listed_cleaned s t) in H.
Qed.

(** ** Reading the list *)

(** The bytes a reader may see in the cells: anything in an unwritten one. *)
Definition reads_as (cells : list (option Z)) (buf : bytes) : Prop := Forall2 (λ c b, c = Some b ∨ c = None) cells buf.

Lemma reads_as_Some t junk buf : reads_as ((Some <$> t) ++ junk) buf → ∃ rest, buf = t ++ rest.
Proof.
  intros (b1 & rest & H1 & _ & ->)%Forall2_app_inv_l. exists rest. f_equal. symmetry.
  apply Forall2_fmap_l in H1. clear -H1. induction H1 as [|x y l k [[= ->]|?] _ IH]; [done|by rewrite IH|done].
Qed.

Lemma interface_names_text names rest fuel :
  Forall interface_name names → (length names < fuel)%nat → interface_names fuel (names_text names ++ [0] ++ rest) = names.
Proof.
  intros Hn. revert fuel. induction Hn as [|s names [Hne Hs] _ IH]; intros [|fuel] Hf; simpl in Hf; try lia; [done|].
  cbn [interface_names names_text flat_map]. fold (names_text names). rewrite <- !app_assoc. cbn [app].
  assert (Hc : cstr (s ++ 0 :: names_text names ++ 0 :: rest) = s).
  { unfold cstr. rewrite index_of_eqb_app; [by rewrite take_app_length|]. intros H0.
    unfold cstring in Hs. rewrite forallb_Forall_true, Forall_forall in Hs. apply Hs in H0. done. }
  rewrite Hc. destruct s as [|c s]; [done|]. f_equal.
  change (0 :: names_text names ++ 0 :: rest) with ([0] ++ names_text names ++ [0] ++ rest).
  rewrite (app_assoc _ [0]), drop_app_length' by (rewrite length_app; simpl; lia). apply IH. lia.
Qed.

Lemma names_text_length names : Forall interface_name names → (length names <= length (names_text names))%nat.
Proof.
  induction 1 as [|s names _ _ IH]; [done|]. cbn [names_text flat_map length]. rewrite !length_app. simpl. unfold names_text in IH. lia.
Qed.

(** Whoever walks the buffer meets the names. *)
Lemma cells_names l names cells buf :
  holds l names → Forall interface_name names → cells = buffer l ∧ buffer l ≠ [] ∨ buffer l = [] ∧ cells = [Some 0] →
  reads_as cells buf → interface_names (S (length buf)) buf = names.
Proof.
  intros Hh Hall Hcells Hbuf.
  assert (∃ rest, buf = names_text names ++ [0] ++ rest) as [rest ->].
  { destruct (h_text _ _ Hh) as [[Hb ->]|[junk Hb]].
    - destruct Hcells as [[_ ?]|[_ ->]]; [done|by apply (reads_as_Some [0] []) in Hbuf].
    - destruct Hcells as [[-> _]|[Hb' _]]; [|apply (f_equal length) in Hb; rewrite Hb', length_app, length_fmap, length_app in Hb; simpl in Hb; lia].
      rewrite Hb in Hbuf. apply reads_as_Some in Hbuf as [rest ->]. exists rest. by rewrite <- app_assoc. }
  apply interface_names_text; [done|]. pose proof (names_text_length _ Hall). rewrite !length_app in *. simpl in *. lia.
Qed.

Lemma listed_names s entries : Forall (λ e, cstring e = true) entries → Forall interface_name (listed s entries).
Proof.
  intros He. apply Forall_forall. intros n Hn. apply list_elem_of_filter in Hn as [_ Hn]. apply list_elem_of_omap in Hn as (e & Hin & Hs).
  rewrite Forall_forall in He. apply He in Hin. apply socket_name_Some in Hs as [Hne ->].
  rewrite cstring_app, andb_true_iff in Hin. destruct Hin. by split.
Qed.

(** The names the kernel adds, when there is memory. *)
Definition kernel_lists (K : option kernel) (names : list bytes) : Prop :=
  match K with
  | None => names = []
  | Some k => ∃ l, kernel_get_wireguard_interfaces k string_list_zero [] = Done ((0, l), []) ∧ holds l names
  end.

Lemma list_devices_names K s entries names :
  kernel_lists K names → directory s = inr entries → Forall (λ e, cstring e = true) entries →
  Z.of_nat (length (names_text (names ++ omap socket_name entries))) + 1 <= SIZE_MAX →
  ∃ cells t l, list_devices RUNSTATEDIR K s [] = Done ((Some cells, t), []) ∧ cleaned s t ∧ holds l (names ++ listed s entries) ∧
    (cells = buffer l ∧ buffer l ≠ [] ∨ buffer l = [] ∧ cells = [Some 0]).
Proof.
  intros HK Hd He Hmax. unfold list_devices.
  set (kl := match K with Some k => _ | None => _ end).
  assert (∃ l, kl [] = Done ((0, l), []) ∧ holds l names) as (l & Hkl & Hh).
  { unfold kl. destruct K as [k|]; [done|]. simpl in HK. subst names. exists string_list_zero. split; [done|apply holds_zero]. }
  clearbody kl. unfold mbind, M_bind. rewrite Hkl. cbn [fst snd Z.ltb Z.compare]. unfold userspace_get_wireguard_interfaces. rewrite Hd.
  pose proof (interfaces_loop_ok entries s l names [] Hh He) as H.
  rewrite (h_len _ _ Hh) in H. rewrite names_text_app, length_app in Hmax. specialize (H ltac:(lia)).
  destruct (interfaces_loop _ _ _ _ _ _) as [[[[r l2] t] o2]| | |]; [|done..].
  destruct H as [Hc [(Ho & -> & Hh2)|[_ H]]]; [|by apply elem_of_nil in H].
  assert (o2 = []) as -> by (destruct o2 as [|x o2]; [done|]; exfalso; specialize (Ho x); set_solver).
  cbn. destruct (buffer l2) as [|c b] eqn:Hb; cbn.
  - exists [Some 0], t, l2. rewrite Hb. split_and!; auto.
  - exists (c :: b), t, l2. rewrite Hb. split_and!; auto.
Qed.
End List.

(** C28: [wg show interfaces] lists what there is.  Given memory, a directory that can be read, and kernel interfaces with proper names
    whose list fits a size_t, the buffer [ipc_list_devices] returns holds the kernel's interfaces and then, in directory order, exactly the
    interfaces with a socket in the directory that does not refuse a connection: the name has no slash, [socket] works, the file is a socket,
    and [connect] succeeds or fails with another error than ECONNREFUSED, so that one that may not be connected to (EACCES) is listed too.
    The buffer is terminated within its allocation, whatever its unwritten bytes are, and no file is removed but sockets that refuse
    connections. *)
Theorem list_devices_complete (plat : Platform) (RUNSTATEDIR : bytes) (K : option kernel) (s : system) (entries names : list bytes)
    (HK : kernel_lists K names) (Hn : Forall interface_name names)
    (Hd : directory s = inr entries) (He : Forall (λ e, cstring e = true) entries)
    (Hmax : Z.of_nat (length (names_text (names ++ omap socket_name entries))) + 1 <= SIZE_MAX) :
  ∃ cells t, run (list_devices RUNSTATEDIR K s) = Done (Some cells, t) ∧ cleaned s t ∧
    ∀ buf, reads_as cells buf →
      interface_names (S (length buf)) buf = names ++ filter (λ n, not_refused RUNSTATEDIR s n = true) (omap socket_name entries).
Proof.
  destruct (list_devices_names RUNSTATEDIR K s entries names HK Hd He Hmax) as (cells & t & l & Hrun & Hc & Hh & Hcells).
  fold (listed RUNSTATEDIR s entries) in *. exists cells, t. unfold run. rewrite Hrun. split_and!; [done..|]. intros buf Hbuf.
  fold (listed RUNSTATEDIR s entries). apply (cells_names l _ cells); [done| |done|done].
  apply Forall_app. split; [done|by apply listed_names].
Qed.

(** ** Which implementation answers *)

Section Dispatch.
Context {plat : Platform} {net : NetLib}.
Variable RUNSTATEDIR : bytes.

(** A daemon accepts connections for the interface. *)
Definition answers (s : system) (iface : bytes) (reply : bytes → bytes) : Prop :=
  has_char iface (ch "/") = false ∧ socket_errno s = 0 ∧ fdopen_errno s = 0 ∧
  files s !! sun_path RUNSTATEDIR iface = Some (Sock 0 reply).

Lemma answers_not_refused s iface reply : answers s iface reply → not_refused RUNSTATEDIR s iface = true.
Proof. intros (H1 & H2 & _ & H4). unfold not_refused. by rewrite H1, H2, H4. Qed.

Lemma answers_file s iface reply : answers s iface reply → userspace_interface_file RUNSTATEDIR s iface = (inr reply, s).
Proof. intros (H1 & H2 & H3 & H4). unfold userspace_interface_file. by rewrite H1, H4, H2, H3. Qed.

Lemma has_not_refused s iface : not_refused RUNSTATEDIR s iface = true → userspace_has_wireguard_interface RUNSTATEDIR s iface = (true, s).
Proof.
  unfold not_refused, userspace_has_wireguard_interface. destruct (has_char _ _); [done|]. destruct (truthy (socket_errno s)); [done|].
  destruct (files s !! _) as [[e r| |e]|]; [|done..]. by destruct (e =? ECONNREFUSED).
Qed.

(** The system once a dead socket of the interface is gone. *)
Definition swept (s : system) (iface : bytes) : system := (userspace_has_wireguard_interface RUNSTATEDIR s iface).2.

Lemma has_refused s iface :
  not_refused RUNSTATEDIR s iface = false → userspace_has_wireguard_interface RUNSTATEDIR s iface = (false, swept s iface).
Proof.
  intros H. pose proof (has_interface RUNSTATEDIR s iface) as [H1 _]. rewrite H in H1. rewrite <- H1. apply surjective_pairing.
Qed.

Lemma swept_gone s iface reply :
  has_char iface (ch "/") = false → socket_errno s = 0 → unlink_errno s = 0 →
  files s !! sun_path RUNSTATEDIR iface = Some (Sock ECONNREFUSED reply) →
  files (swept s iface) !! sun_path RUNSTATEDIR iface = None.
Proof.
  intros H1 H2 H3 H4. unfold swept, userspace_has_wireguard_interface. rewrite H1, H4, H2. cbn. unfold unlink. rewrite H3. cbn.
  apply lookup_delete_eq.
Qed.
End Dispatch.

(** Exactly one implementation answers for an interface: a daemon that accepts
    connections gets the request and its reply is the result, the kernel is not
    asked and no file changes; without one that does not refuse them the kernel is asked, after
    a socket that refuses connections has been removed. *)
Theorem ipc_dispatch (plat : Platform) (net : NetLib) (RUNSTATEDIR : bytes) (k : kernel) (int128 : bool) (s : system)
    (end_errno : Z) (d : wgdevice) (o : allocs) :
  (∀ reply, answers RUNSTATEDIR s (name d) reply →
    set_device RUNSTATEDIR (Some k) s end_errno d o = Done (userspace_set_device (inr reply) end_errno d, s, o) ∧
    get_device RUNSTATEDIR (Some k) int128 s (name d) o = (r ← userspace_get_device int128 (inr reply) (name d); mret (r, s)) o) ∧
  (not_refused RUNSTATEDIR s (name d) = false → ∃ t, cleaned s t ∧
    (∀ reply, has_char (name d) (ch "/") = false → socket_errno s = 0 → unlink_errno s = 0 →
       files s !! sun_path RUNSTATEDIR (name d) = Some (Sock ECONNREFUSED reply) → files t !! sun_path RUNSTATEDIR (name d) = None) ∧
    set_device RUNSTATEDIR (Some k) s end_errno d o = (r ← kernel_set_device k d; mret (r, t)) o ∧
    get_device RUNSTATEDIR (Some k) int128 s (name d) o = (r ← kernel_get_device k (name d); mret (r, t)) o).
Proof.
  split.
  - intros reply Ha. unfold set_device, get_device, userspace_set, userspace_get.
    rewrite (has_not_refused _ _ _ (answers_not_refused _ _ _ _ Ha)), (answers_file _ _ _ _ Ha). split; [done|].
    by destruct (head o) as [[]|].
  - intros Hl. exists (swept RUNSTATEDIR s (name d)). split_and!.
    + apply has_interface.
    + intros reply. apply swept_gone.
    + unfold set_device. by rewrite (has_refused _ _ _ Hl).
    + unfold get_device. by rewrite (has_refused _ _ _ Hl).
Qed.

(** ** The interface the tools are written against *)

(** [Ipc], as the rest of the tools sees it, in a given system with memory to
    spare: the buffer's unwritten cells are read as zero. *)
Definition system_ipc {plat : Platform} {net : NetLib} (RUNSTATEDIR : bytes) (K : option kernel) (int128 : bool) (s : system) : Ipc := {|
  ipc_get_device nm := match run (get_device RUNSTATEDIR K int128 s nm) with Done (r, _) => r | _ => (- ENOMEM, None) end;
  ipc_set_device d := match run (set_device RUNSTATEDIR K s 0 d) with Done (r, _) => r | _ => - ENOMEM end;
  ipc_list_devices := match run (list_devices RUNSTATEDIR K s) with Done (Some cells, _) => Some (default 0 <$> cells) | _ => None end;
|}.

(** What a peer of the tools owes them: bytes, and every key at most once. *)
Definition sane_result (r : outcome (Z * option wgdevice)) : Prop :=
  ∀ d, r = Done (0, d) → ∃ d', d = Some d' ∧ device_ok d' ∧ NoDup (p_public_key <$> peers d').
Definition sane_system {plat : Platform} {net : NetLib} (K : option kernel) (int128 : bool) (s : system) : Prop :=
  (∀ path e reply, files s !! path = Some (Sock e reply) → all_bytes (reply get_request) = true ∧
     ∀ nm d, run (userspace_get_device int128 (inr reply) nm) = Done (0, Some d) → NoDup (p_public_key <$> peers d)) ∧
  (∀ path e, files s !! path = Some (Denied e) → 0 < e) ∧
  (∀ k nm, K = Some k → sane_result (run (kernel_get_device k nm))).

Section Laws.
Context {plat : Platform} {net : NetLib} {laws : NetLibLaws net}.
Variables (RUNSTATEDIR : bytes) (K : option kernel) (int128 : bool) (s : system).
Hypothesis Hsane : sane_system K int128 s.
Hypothesis errnos : 0 <= socket_errno s ∧ 0 <= fdopen_errno s ∧ 0 <= unlink_errno s.
Hypothesis connect_errnos : ∀ path e reply, files s !! path = Some (Sock e reply) → 0 <= e.

(** An error of [userspace_interface_file] is an error number. *)
Lemma interface_file_cases iface :
  match (userspace_interface_file RUNSTATEDIR s iface).1 with
  | inl e => 0 < e
  | inr reply => ∃ path e, files s !! path = Some (Sock e reply)
  end.
Proof.
  destruct errnos as (Hs & Hf & Hu). destruct Hsane as (_ & Hdenied & _).
  unfold userspace_interface_file, EINVAL, EBADF, ENOENT, truthy in *. destruct (has_char _ _); [done|].
  destruct (files s !! _) as [[e r| |e]|] eqn:E; simpl; [|lia|by eapply Hdenied|lia].
  pose proof (connect_errnos _ _ _ E). unfold ECONNREFUSED.
  destruct (Z.eqb_spec (socket_errno s) 0), (Z.eqb_spec e 0), (Z.eqb_spec e 111), (Z.eqb_spec (unlink_errno s) 0),
    (Z.eqb_spec (fdopen_errno s) 0); simpl; eauto; lia.
Qed.

Lemma userspace_get_sane nm r :
  userspace_get RUNSTATEDIR int128 s nm [] = Done r → sane_result (Done r.1.1).
Proof.
  unfold userspace_get. pose proof (interface_file_cases nm) as Hc. destruct (userspace_interface_file _ _ _) as [daemon t].
  cbn [fst] in Hc. intros Hr. apply M_bind_Done in Hr as (x & o & Hx & [= <-]). cbn [fst].
  intros d [= ->]. destruct Hsane as (Hrep & _).
  pose proof (userspace_get_device_safe int128 daemon nm) as Hsafe.
  assert (Hd : match daemon with inl e => 0 < e | inr reply => all_bytes (reply get_request) = true end).
  { destruct daemon as [e|reply]; [done|]. destruct Hc as (path & e & Hp). by apply (Hrep path e reply). }
  specialize (Hsafe Hd []). rewrite Hx in Hsafe. destruct d as [d|]; [|done]. exists d. split_and!; [done|apply Hsafe|].
  destruct daemon as [e|reply].
  - discriminate Hx.
  - destruct Hc as (path & e & Hp). apply (proj2 (Hrep path e reply Hp) nm). unfold run. by rewrite Hx.
Qed.

(** A device handed out with result 0 is well formed, whoever implements the
    interface: this is what setconf and show rely on. *)
Lemma system_ipc_laws : IpcLaws (system_ipc RUNSTATEDIR K int128 s).
Proof.
  split. intros nm d. cbn [ipc_get_device system_ipc]. unfold run, get_device.
  assert (Hu : ∀ r, userspace_get RUNSTATEDIR int128 s nm [] = Done r → r.1.1 = (0, d) →
    ∃ d', d = Some d' ∧ device_ok d' ∧ NoDup (p_public_key <$> peers d')).
  { intros r Hr E. by apply (userspace_get_sane nm r Hr d), f_equal. }
  destruct K as [k|] eqn:HK.
  - destruct (not_refused RUNSTATEDIR s nm) eqn:Hl; [rewrite (has_not_refused _ _ _ Hl)|rewrite (has_refused _ _ _ Hl)].
    + destruct (userspace_get _ _ _ _ _) as [[[x t] o]| | |] eqn:E; try done. intros ->. by apply (Hu _ eq_refl).
    + destruct Hsane as (_ & _ & Hk). specialize (Hk k nm eq_refl). unfold mbind, M_bind, run, sane_result in *.
      destruct (kernel_get_device k nm []) as [[x o]| | |]; try done. cbn. intros ->. by apply Hk.
  - destruct (userspace_get _ _ _ _ _) as [[[x t] o]| | |] eqn:E; try done. intros ->. by apply (Hu _ eq_refl).
Qed.
End Laws.

(** A directory with a socket that accepts connections, one that refuses them, one that may not be connected to, and another file. *)
Definition sample_run : bytes := str "/var/run".
Definition no_access : Z := 13.
Definition sample_entries : list bytes := [str "."; str "old.sock"; str "wg0.sock"; str "notes"; str "root.sock"].
Definition sample_system : system := {|
  files := list_to_map [(sun_path sample_run (str "wg0"), Sock 0 sample_daemon);
                        (sun_path sample_run (str "old"), Sock ECONNREFUSED (λ _, []));
                        (sun_path sample_run (str "root"), Sock no_access (λ _, []))];
  directory := inr sample_entries;
  socket_errno := 0; fdopen_errno := 0; unlink_errno := 0 |}.

Lemma list_devices_complete_witness :
  ∃ cells t, run (list_devices (plat := arm64) sample_run None sample_system) = Done (Some cells, t) ∧ cleaned sample_system t ∧
    ∀ buf, reads_as cells buf → interface_names (S (length buf)) buf = [str "wg0"; str "root"].
Proof.
  refine (list_devices_complete arm64 sample_run None sample_system sample_entries []
            eq_refl (Forall_nil_2 _) eq_refl _ _).
  - repeat constructor.
  - vm_compute. discriminate.
Defined.
