(* ===== verification/Highlighter.v ===== *)
(** * Highlighter: contrib/highlighter/highlighter.c

    [highlight_config] scans the text of a configuration file once and returns
    an array of typed spans for an editor to colour.  A [string_span_t] is an
    offset into the text and a length; [config] is the text without its final
    NUL, and an index just past it reads that NUL.  The array of spans is
    allocated as it grows, so the functions that append to it run in the
    monad of the tools. *)

From Stdlib Require Import Ascii String.
From stdpp Require Import base numbers option sets list list_numbers strings.
From S2P Require Import Prelude CLib Ipc.
#[local] Open Scope c_scope.

Record string_span := { s : nat; slen : nat }.

Inductive field :=
  | InterfaceSection | PrivateKey | ListenPort | Address | DNS | MTU | FwMark | Table
  | PreUp | PostUp | PreDown | PostDown | SaveConfig
  | PeerSection | PublicKey | PresharedKey | AllowedIPs | Endpoint | PersistentKeepalive
  | Invalid.

(** The value of the enumerator. *)
Definition field_value (t : field) : Z :=
  match t with
  | InterfaceSection => 0 | PrivateKey => 1 | ListenPort => 2 | Address => 3 | DNS => 4 | MTU => 5 | FwMark => 6 | Table => 7
  | PreUp => 8 | PostUp => 9 | PreDown => 10 | PostDown => 11 | SaveConfig => 12
  | PeerSection => 13 | PublicKey => 14 | PresharedKey => 15 | AllowedIPs => 16 | Endpoint => 17 | PersistentKeepalive => 18
  | Invalid => 19
  end.

Inductive highlight_type :=
  | HighlightSection | HighlightField | HighlightPrivateKey | HighlightPublicKey | HighlightPresharedKey
  | HighlightIP | HighlightCidr | HighlightHost | HighlightPort | HighlightMTU | HighlightKeepalive
  | HighlightComment | HighlightDelimiter | HighlightTable | HighlightFwMark | HighlightSaveConfig | HighlightCmd
  | HighlightError | HighlightEnd.

#[export] Instance field_eq_dec : EqDecision field.
Proof. solve_decision. Defined.
#[export] Instance highlight_type_eq_dec : EqDecision highlight_type.
Proof. solve_decision. Defined.

Definition section_for_field (t : field) : field :=
  let v := field_value t in
  if (field_value InterfaceSection <? v) && (v <? field_value PeerSection) then InterfaceSection
  else if (field_value PeerSection <? v) && (v <? field_value Invalid) then PeerSection
  else Invalid.

(** [struct highlight_span] and the array of them; [a->len] is the length of the list. *)
Record highlight_span := { type : highlight_type; start : nat; hlen : Z }.
Record highlight_span_array := { capacity : Z; spans : list highlight_span }.
Definition array_zero : highlight_span_array := {| capacity := 0; spans := [] |}.

Inductive scan_state := OnNone | OnKey | OnValue | OnComment | OnSection.

#[export] Instance scan_state_eq_dec : EqDecision scan_state.
Proof. solve_decision. Defined.

Section Highlighter.
Context {plat : Platform}.
Variable config : bytes.

(** [sp.s[i]], a plain [char]. *)
Definition char_at (sp : string_span) (i : nat) : Z := char_val (at_ config (s sp + i)).

(** ** Character classes *)

Definition is_decimal (c : Z) : bool := (ch "0" <=? c) && (c <=? ch "9").
Definition is_hexadecimal (c : Z) : bool := is_decimal c || ((ch "a" <=? (c .| 32)) && ((c .| 32) <=? ch "f")).
Definition is_alphabet (c : Z) : bool := (ch "a" <=? (c .| 32)) && ((c .| 32) <=? ch "z").

(** ** Comparison *)

Definition is_same (sp : string_span) (c : bytes) : bool :=
  if negb (Nat.eqb (length c) (slen sp)) then false
  else bool_decide (take (length c) (drop (s sp) config) = c).

(** [if ((unsigned)a - 'a' < 26) a &= 95;] *)
Definition fold_case (a : Z) : Z := if u32 (a - ch "a") <? 26 then a .& 95 else a.

Definition is_caseless_same (sp : string_span) (c : bytes) : bool :=
  if negb (Nat.eqb (length c) (slen sp)) then false
  else forallb (λ i, fold_case (char_val (at_ c i)) =? fold_case (char_at sp i)) (seq 0 (length c)).

(** ** Validation of single values *)

Definition is_valid_key (sp : string_span) : bool :=
  if negb (Nat.eqb (slen sp) 44) || negb (char_at sp 43 =? ch "=") then false
  else if negb (forallb (λ i, let c := char_at sp i in
                   is_decimal c || is_alphabet c || (c =? ch "/") || (c =? ch "+")) (seq 0 42)) then false
  else existsb (Z.eqb (char_at sp 42)) (str "AEIMQUYcgkosw480").

(** The loop over the characters: [num_digit] and [num_entity]. *)
Fixpoint hostname_loop (sp : string_span) (i n : nat) (num_digit num_entity : nat) : bool :=
  match n with
  | O => negb (Nat.eqb num_digit num_entity)
  | S n' =>
      let c := char_at sp i in
      if is_decimal c then hostname_loop sp (S i) n' (S num_digit) num_entity
      else if c =? ch "." then hostname_loop sp (S i) n' num_digit (num_entity - 1)
      else if negb (is_alphabet c) && negb (c =? ch "-") then false
      else if negb (Nat.eqb i 0) && (c =? ch ".") && (char_at sp (i - 1) =? ch ".") then false
      else hostname_loop sp (S i) n' num_digit num_entity
  end.

Definition is_valid_hostname (sp : string_span) : bool :=
  if (63 <? slen sp)%nat || Nat.eqb (slen sp) 0 then false
  else if (char_at sp 0 =? ch "-") || (char_at sp (slen sp - 1) =? ch "-") then false
  else if (char_at sp 0 =? ch ".") || (char_at sp (slen sp - 1) =? ch ".") then false
  else hostname_loop sp 0 (slen sp) 0 (slen sp).

(** [for (j = 0; j < 3 && pos + j < s.len && is_decimal(s.s[pos + j]); ++j)]: [j] and [val]. *)
Fixpoint octet_loop (sp : string_span) (pos j n : nat) (val : Z) : nat * Z :=
  match n with
  | O => (j, val)
  | S n' =>
      if (pos + j <? slen sp)%nat && is_decimal (char_at sp (pos + j))
      then octet_loop sp pos (S j) n' (u32 (10 * val + char_at sp (pos + j) - ch "0"))
      else (j, val)
  end.

(** The loop over [i < 4]; [n] is [4 - i]. *)
Fixpoint ipv4_loop (sp : string_span) (i pos n : nat) : bool :=
  match n with
  | O => false
  | S n' =>
      if negb (pos <? slen sp)%nat then false
      else
        let '(j, val) := octet_loop sp pos 0 3 0 in
        if Nat.eqb j 0 || ((1 <? j)%nat && (char_at sp pos =? ch "0")) || (255 <? val) then false
        else if Nat.eqb (pos + j) (slen sp) && Nat.eqb i 3 then true
        else if negb (char_at sp (pos + j) =? ch ".") then false
        else ipv4_loop sp (S i) (pos + j + 1) n'
  end.

Definition is_valid_ipv4 (sp : string_span) : bool := ipv4_loop sp 0 0 4.

(** [for (j = 0; j < 4 && pos + j < s.len && is_hexadecimal(s.s[pos + j]); ++j);] *)
Fixpoint group_loop (sp : string_span) (pos j n : nat) : nat :=
  match n with
  | O => j
  | S n' => if (pos + j <? slen sp)%nat && is_hexadecimal (char_at sp (pos + j)) then group_loop sp pos (S j) n' else j
  end.

(** The loop over the groups: [pos] grows in every turn, so [slen sp] turns reach the end. *)
Fixpoint ipv6_loop (sp : string_span) (fuel i pos : nat) (seen_colon : bool) : bool :=
  match fuel with
  | O => true
  | S fuel' =>
      if negb (pos <? slen sp)%nat then true
      else if (char_at sp pos =? ch ":") && negb seen_colon then
        if Nat.eqb (pos + 1) (slen sp) then true
        else if Nat.eqb i 7 then false
        else ipv6_loop sp fuel' (S i) (pos + 1) true
      else
        let j := group_loop sp pos 0 4 in
        if Nat.eqb j 0 then false
        else if Nat.eqb (pos + j) (slen sp) && (seen_colon || Nat.eqb i 7) then true
        else if Nat.eqb i 7 then false
        else if negb (char_at sp (pos + j) =? ch ":") then
          if negb (char_at sp (pos + j) =? ch ".") || ((i <? 6)%nat && negb seen_colon) then false
          else is_valid_ipv4 {| s := s sp + pos; slen := slen sp - pos |}
        else ipv6_loop sp fuel' (S i) (pos + j + 1) seen_colon
  end.

Definition is_valid_ipv6 (sp : string_span) : bool :=
  if (slen sp <? 2)%nat then false
  else
    let starts := char_at sp 0 =? ch ":" in
    if starts && negb (char_at sp 1 =? ch ":") then false
    else if (char_at sp (slen sp - 1) =? ch ":") && negb (char_at sp (slen sp - 2) =? ch ":") then false
    else ipv6_loop sp (slen sp) 0 (if starts then 1 else 0) false.

Fixpoint hex_loop (sp : string_span) (i n : nat) (val : Z) : option Z :=
  match n with
  | O => Some val
  | S n' =>
      let c := char_at sp i in
      if u32 (c - ch "0") <? 10 then hex_loop sp (S i) n' (u64 (16 * val + (c - ch "0")))
      else if u32 ((u32 c .| 32) - ch "a") <? 6 then hex_loop sp (S i) n' (u64 (16 * val + (c .| 32) - ch "a" + 10))
      else None
  end.
Fixpoint dec_loop (sp : string_span) (i n : nat) (val : Z) : option Z :=
  match n with
  | O => Some val
  | S n' =>
      let c := char_at sp i in
      if negb (is_decimal c) then None else dec_loop sp (S i) n' (u64 (10 * val + c - ch "0"))
  end.

Definition is_valid_uint (sp : string_span) (support_hex : bool) (min max : Z) : bool :=
  if (10 <? slen sp)%nat || Nat.eqb (slen sp) 0 then false
  else
    let val :=
      if support_hex && (2 <? slen sp)%nat && (char_at sp 0 =? ch "0") && (char_at sp 1 =? ch "x")
      then hex_loop sp 2 (slen sp - 2) 0
      else dec_loop sp 0 (slen sp) 0 in
    match val with None => false | Some val => (val <=? max) && (min <=? val) end.

Definition is_valid_port (sp : string_span) : bool := is_valid_uint sp false 0 65535.
Definition is_valid_mtu (sp : string_span) : bool := is_valid_uint sp false 576 65535.
Definition is_valid_persistentkeepalive (sp : string_span) : bool :=
  if is_same sp (str "off") then true else is_valid_uint sp false 0 65535.
Definition is_valid_fwmark (sp : string_span) : bool :=
  if is_same sp (str "off") then true else is_valid_uint sp true 0 4294967295.
Definition is_valid_table (sp : string_span) : bool :=
  if is_same sp (str "auto") then true
  else if is_same sp (str "off") then true
  else if (slen sp <? 512)%nat then true
  else is_valid_uint sp false 0 4294967295.
Definition is_valid_saveconfig (sp : string_span) : bool := is_same sp (str "true") || is_same sp (str "false").
Definition is_valid_prepostupdown (sp : string_span) : bool := negb (Nat.eqb (slen sp) 0).

Definition is_valid_scope (sp : string_span) : bool :=
  if (64 <? slen sp)%nat || Nat.eqb (slen sp) 0 then false
  else forallb (λ i, let c := char_at sp i in
         is_alphabet c || is_decimal c || (c =? ch "_") || (c =? ch "=") || (c =? ch "+") || (c =? ch ".") || (c =? ch "-"))
         (seq 0 (slen sp)).

(** The loop of the bracketed form, from position [i]; [n] is [s.len - i]. *)
Fixpoint bracket_loop (sp : string_span) (i n : nat) (seen_scope : bool) (hostspan : string_span) : bool :=
  match n with
  | O => false
  | S n' =>
      let c := char_at sp i in
      if c =? ch "%" then
        if seen_scope then false
        else if negb (is_valid_ipv6 hostspan) then false
        else bracket_loop sp (S i) n' true {| s := s sp + i + 1; slen := 0 |}
      else if c =? ch "]" then
        if negb (if seen_scope then is_valid_scope hostspan else is_valid_ipv6 hostspan) then false
        else if Nat.eqb i (slen sp - 1) || negb (char_at sp (i + 1) =? ch ":") then false
        else is_valid_port {| s := s sp + i + 2; slen := slen sp - i - 2 |}
      else bracket_loop sp (S i) n' seen_scope {| s := s hostspan; slen := S (slen hostspan) |}
  end.

(** The first position of [c] in the span. *)
Definition first_of (sp : string_span) (c : Z) : option nat := List.find (λ i, char_at sp i =? c) (seq 0 (slen sp)).

Definition is_valid_endpoint (sp : string_span) : bool :=
  if Nat.eqb (slen sp) 0 then false
  else if char_at sp 0 =? ch "[" then bracket_loop sp 1 (slen sp - 1) false {| s := s sp + 1; slen := 0 |}
  else match first_of sp (ch ":") with
  | Some i =>
      let host := {| s := s sp; slen := i |} in
      let port := {| s := s sp + i + 1; slen := slen sp - i - 1 |} in
      is_valid_port port && (is_valid_ipv4 host || is_valid_hostname host)
  | None => false
  end.

Fixpoint cidr_loop (sp : string_span) (j n : nat) (cidrval : Z) : option Z :=
  match n with
  | O => Some cidrval
  | S n' =>
      let c := char_at sp j in
      if negb (is_decimal c) then None else cidr_loop sp (S j) n' (u16 (10 * cidrval + c - ch "0"))
  end.

Definition is_valid_network (sp : string_span) : bool :=
  match first_of sp (ch "/") with
  | Some i =>
      let ip := {| s := s sp; slen := i |} in
      let cidr := {| s := s sp + i + 1; slen := slen sp - i - 1 |} in
      if (3 <? slen cidr)%nat || Nat.eqb (slen cidr) 0 then false
      else match cidr_loop cidr 0 (slen cidr) 0 with
      | None => false
      | Some cidrval =>
          if is_valid_ipv4 ip then cidrval <=? 32
          else if is_valid_ipv6 ip then cidrval <=? 128
          else false
      end
  | None => is_valid_ipv4 sp || is_valid_ipv6 sp
  end.

(** ** Fields and sections *)

(** The [check_enum] lines, in order. *)
Definition field_names : list (bytes * field) :=
  [(str "PrivateKey", PrivateKey); (str "ListenPort", ListenPort); (str "Address", Address); (str "DNS", DNS); (str "MTU", MTU);
   (str "PublicKey", PublicKey); (str "PresharedKey", PresharedKey); (str "AllowedIPs", AllowedIPs); (str "Endpoint", Endpoint);
   (str "PersistentKeepalive", PersistentKeepalive); (str "FwMark", FwMark); (str "Table", Table); (str "PreUp", PreUp);
   (str "PostUp", PostUp); (str "PreDown", PreDown); (str "PostDown", PostDown); (str "SaveConfig", SaveConfig)].

Definition get_field (sp : string_span) : field :=
  match List.find (λ e, is_caseless_same sp e.1) field_names with Some (_, t) => t | None => Invalid end.

Definition get_sectiontype (sp : string_span) : field :=
  if is_caseless_same sp (str "[Peer]") then PeerSection
  else if is_caseless_same sp (str "[Interface]") then InterfaceSection
  else Invalid.

(** ** The array of spans *)

(** [sizeof(struct highlight_span)]: an enum, padded, and two [size_t]. *)
Definition SIZEOF_SPAN : Z := 3 * (ulong_bits / 8).

(** Whether [realloc_array] reaches [realloc], whose argument is [size * nmemb]. *)
Definition realloc_array_fits (nmemb sz : Z) : bool :=
  let half := 2 ^ (ulong_bits / 2) in
  negb (((half <=? nmemb) || (half <=? sz)) && (0 <? nmemb) && (SIZE_MAX / nmemb <? sz)).

(** [append_highlight_span(a, o, {o + start, len}, t)]; every caller ignores the
    result.  Storing past the capacity is undefined. *)
Definition append_highlight_span (a : highlight_span_array) (st : nat) (len : Z) (t : highlight_type) : M highlight_span_array :=
  if len =? 0 then mret a
  else
    let store a :=
      if Z.of_nat (length (spans a)) <? capacity a
      then mret {| capacity := capacity a; spans := spans a ++ [{| type := t; start := st; hlen := len |}] |}
      else undefined in
    if capacity a <=? Z.of_nat (length (spans a)) then
      let cap' := if truthy (capacity a) then size (capacity a * 2) else 64 in
      if realloc_array_fits cap' SIZEOF_SPAN then
        resized ← alloc;
        if negb resized then mret array_zero
        else store {| capacity := cap'; spans := spans a |}
      else mret array_zero
    else store a.

Definition append_span (a : highlight_span_array) (sp : string_span) (t : highlight_type) : M highlight_span_array :=
  append_highlight_span a (s sp) (Z.of_nat (slen sp)) t.

(** ** Values *)

Definition highlight_multivalue_value (a : highlight_span_array) (sp : string_span) (section : field) : M highlight_span_array :=
  match section with
  | DNS =>
      append_span a sp (if is_valid_ipv4 sp || is_valid_ipv6 sp then HighlightIP
                        else if is_valid_hostname sp then HighlightHost else HighlightError)
  | Address | AllowedIPs =>
      if negb (is_valid_network sp) then append_span a sp HighlightError
      else match first_of sp (ch "/") with
      | None => append_span a sp HighlightIP
      | Some slash =>
          a ← append_span a {| s := s sp; slen := slash |} HighlightIP;
          a ← append_span a {| s := s sp + slash; slen := 1 |} HighlightDelimiter;
          append_span a {| s := s sp + slash + 1; slen := slen sp - slash - 1 |} HighlightCidr
      end
  | _ => append_span a sp HighlightError
  end.

(** [if (ret->spans[ret->len - 1].type == HighlightDelimiter) ... = HighlightError] *)
Definition reject_delimiter (a : highlight_span_array) : M highlight_span_array :=
  match last (spans a) with
  | None => undefined
  | Some sp =>
      mret (if bool_decide (type sp = HighlightDelimiter)
            then {| capacity := capacity a;
                    spans := take (length (spans a) - 1) (spans a) ++ [{| type := HighlightError; start := start sp; hlen := hlen sp |}] |}
            else a)
  end.

(** The loop of [highlight_multivalue] from [i], and what follows it. *)
Fixpoint multivalue_loop (a : highlight_span_array) (sp : string_span) (section : field) (i n : nat)
    (current_span : string_span) (len_at_last_space : nat) : M highlight_span_array :=
  match n with
  | O =>
      if negb (Nat.eqb len_at_last_space 0)
      then highlight_multivalue_value a {| s := s current_span; slen := len_at_last_space |} section
      else reject_delimiter a
  | S n' =>
      let c := char_at sp i in
      if c =? ch "," then
        a ← highlight_multivalue_value a {| s := s current_span; slen := len_at_last_space |} section;
        a ← append_span a {| s := s sp + i; slen := 1 |} HighlightDelimiter;
        multivalue_loop a sp section (S i) n' {| s := s sp + i + 1; slen := 0 |} 0
      else if (c =? ch " ") || (c =? 9) then
        let current_span :=
          if Nat.eqb (s sp + i) (s current_span) && Nat.eqb (slen current_span) 0
          then {| s := S (s current_span); slen := slen current_span |}
          else {| s := s current_span; slen := S (slen current_span) |} in
        multivalue_loop a sp section (S i) n' current_span len_at_last_space
      else
        let current_span := {| s := s current_span; slen := S (slen current_span) |} in
        multivalue_loop a sp section (S i) n' current_span (slen current_span)
  end.

Definition highlight_multivalue (a : highlight_span_array) (sp : string_span) (section : field) : M highlight_span_array :=
  multivalue_loop a sp section 0 (slen sp) {| s := s sp; slen := 0 |} 0.

(** [for (colon = s.len; colon --> 0;)]: the last colon; without one the index is
    out of range. *)
Definition last_colon (sp : string_span) : option nat :=
  List.find (λ i, char_at sp i =? ch ":") (reverse (seq 0 (slen sp))).

Definition highlight_value (a : highlight_span_array) (sp : string_span) (section : field) : M highlight_span_array :=
  let mark (ok : bool) (t : highlight_type) := append_span a sp (if ok then t else HighlightError) in
  match section with
  | PrivateKey => mark (is_valid_key sp) HighlightPrivateKey
  | PublicKey => mark (is_valid_key sp) HighlightPublicKey
  | PresharedKey => mark (is_valid_key sp) HighlightPresharedKey
  | MTU => mark (is_valid_mtu sp) HighlightMTU
  | SaveConfig => mark (is_valid_saveconfig sp) HighlightSaveConfig
  | FwMark => mark (is_valid_fwmark sp) HighlightFwMark
  | Table => mark (is_valid_table sp) HighlightTable
  | PreUp | PostUp | PreDown | PostDown => mark (is_valid_prepostupdown sp) HighlightCmd
  | ListenPort => mark (is_valid_port sp) HighlightPort
  | PersistentKeepalive => mark (is_valid_persistentkeepalive sp) HighlightKeepalive
  | Endpoint =>
      if negb (is_valid_endpoint sp) then append_span a sp HighlightError
      else match last_colon sp with
      | None => undefined
      | Some colon =>
          a ← append_span a {| s := s sp; slen := colon |} HighlightHost;
          a ← append_span a {| s := s sp + colon; slen := 1 |} HighlightDelimiter;
          append_span a {| s := s sp + colon + 1; slen := slen sp - colon - 1 |} HighlightPort
      end
  | Address | DNS | AllowedIPs => highlight_multivalue a sp section
  | InterfaceSection | PeerSection | Invalid => append_span a sp HighlightError
  end.

(** ** The scan *)

(** The variables of [highlight_config]. *)
Record scan := {
  ret : highlight_span_array;
  current_span : string_span;
  current_section : field;
  current_field : field;
  state : scan_state;
  len_at_last_space : nat;
  equals_location : nat;
}.

(** What is appended where a line or the text ends or a comment starts; the array
    and the current section. *)
Definition flush (x : scan) : M (highlight_span_array * field) :=
  let a := ret x in
  let trimmed := {| s := s (current_span x); slen := len_at_last_space x |} in
  match state x with
  | OnKey => a ← append_span a trimmed HighlightError; mret (a, current_section x)
  | OnValue =>
      let equals := {| s := equals_location x; slen := 1 |} in
      a ← (if negb (Nat.eqb (slen (current_span x)) 0) then
             a ← append_span a equals HighlightDelimiter; highlight_value a trimmed (current_field x)
           else append_span a equals HighlightError);
      mret (a, current_section x)
  | OnSection =>
      let section := get_sectiontype trimmed in
      a ← append_span a trimmed (if bool_decide (section = Invalid) then HighlightError else HighlightSection);
      mret (a, section)
  | OnComment => a ← append_span a (current_span x) HighlightComment; mret (a, current_section x)
  | OnNone => mret (a, current_section x)
  end.

(** One turn of the loop at [i < s.len]. *)
Definition scan_char (x : scan) (i : nat) : M scan :=
  let c := char_val (at_ config i) in
  let cur := current_span x in
  let on_comment := bool_decide (state x = OnComment) in
  if (c =? 10) || (negb on_comment && (c =? ch "#")) then
    r ← flush x;
    mret {| ret := r.1; current_section := r.2; current_field := Invalid; len_at_last_space := 0; equals_location := equals_location x;
            current_span := if c =? ch "#" then {| s := i; slen := 1 |} else {| s := i + 1; slen := 0 |};
            state := if c =? ch "#" then OnComment else OnNone |}
  else if on_comment then
    mret {| ret := ret x; current_section := current_section x; current_field := current_field x;
            len_at_last_space := len_at_last_space x; equals_location := equals_location x;
            current_span := {| s := s cur; slen := S (slen cur) |}; state := state x |}
  else if (c =? ch " ") || (c =? 9) then
    mret {| ret := ret x; current_section := current_section x; current_field := current_field x;
            len_at_last_space := len_at_last_space x; equals_location := equals_location x;
            current_span := if Nat.eqb i (s cur) && Nat.eqb (slen cur) 0 then {| s := S (s cur); slen := slen cur |}
                            else {| s := s cur; slen := S (slen cur) |};
            state := state x |}
  else if (c =? ch "=") && bool_decide (state x = OnKey) then
    let key := {| s := s cur; slen := len_at_last_space x |} in
    let f := get_field key in
    let section := section_for_field f in
    let bad := bool_decide (section = Invalid) || bool_decide (f = Invalid) || bool_decide (section ≠ current_section x) in
    a ← append_span (ret x) key (if bad then HighlightError else HighlightField);
    mret {| ret := a; current_section := current_section x; current_field := f; len_at_last_space := len_at_last_space x;
            equals_location := i; current_span := {| s := i + 1; slen := 0 |}; state := OnValue |}
  else
    mret {| ret := ret x; current_section := current_section x; current_field := current_field x;
            len_at_last_space := S (slen cur); equals_location := equals_location x;
            current_span := {| s := s cur; slen := S (slen cur) |};
            state := if bool_decide (state x = OnNone) then (if c =? ch "[" then OnSection else OnKey) else state x |}.

Fixpoint scan_loop (i n : nat) (x : scan) : M scan :=
  match n with
  | O => mret x
  | S n' => x ← scan_char x i; scan_loop (S i) n' x
  end.

Definition scan_zero : scan :=
  {| ret := array_zero; current_span := {| s := 0; slen := 0 |}; current_section := Invalid; current_field := Invalid;
     state := OnNone; len_at_last_space := 0; equals_location := 0 |}.

(** [highlight_config(config)]: the spans of the array it returns. *)
Definition highlight_config : M (list highlight_span) :=
  x ← scan_loop 0 (length config) scan_zero;
  r ← flush x;
  a ← append_highlight_span r.1 0 SIZE_MAX HighlightEnd;
  mret (spans a).
End Highlighter.
