(* ===== verification/HighlighterSpec.v ===== *)
(** * HighlighterSpec: the spans of the highlighter tile the text

    Every character that is not white space lies in exactly one span; the
    validator of keys is the decoder of encoding.c. *)

From Stdlib Require Import Ascii String.
From stdpp Require Import base numbers option sets list list_numbers strings.
From S2P Require Import Prelude CLib Ctype Encoding Ipc Highlighter.
#[local] Open Scope c_scope.

Section Tiles.
Context {plat : Platform}.
Variable config : bytes.

(** ** Tilings *)

Definition blank_char (c : Z) : Prop := c = ch " " ∨ c = 9 ∨ c = 10.
Definition blank (lo hi : nat) : Prop := ∀ p, (lo <= p < hi)%nat → blank_char (char_val (at_ config p)).

(** From [lo] to [hi] the spans follow each other, none is empty, and what lies
    between them is white space. *)
Fixpoint tiles (lo : nat) (l : list highlight_span) (hi : nat) : Prop :=
  match l with
  | [] => (lo <= hi)%nat ∧ blank lo hi
  | sp :: l' => (lo <= start sp)%nat ∧ blank lo (start sp) ∧ 0 < hlen sp ∧ tiles (start sp + Z.to_nat (hlen sp)) l' hi
  end.

Lemma blank_nil p : blank p p.
Proof. intros q Hq. lia. Qed.

Lemma blank_app a b c : blank a b → blank b c → blank a c.
Proof. intros H1 H2 p Hp. destruct (decide (p < b)%nat); [apply H1|apply H2]; lia. Qed.

Lemma blank_S a b : blank a b → blank_char (char_val (at_ config b)) → blank a (S b).
Proof. intros H1 H2. apply (blank_app a b); [done|]. intros p Hp. by assert (p = b) as -> by lia. Qed.

Lemma tiles_le lo l hi : tiles lo l hi → (lo + length l <= hi)%nat.
Proof. revert lo. induction l as [|sp l IH]; simpl; intros lo; [lia|]. intros (? & _ & ? & ?%IH). lia. Qed.

Lemma tiles_blank lo l a b : tiles lo l a → (a <= b)%nat → blank a b → tiles lo l b.
Proof.
  revert lo. induction l as [|sp l IH]; simpl; intros lo.
  - intros [? ?] ??. split; [lia|by eapply blank_app].
  - intros (? & ? & ? & ?) ??. split_and!; [done..|by apply IH].
Qed.

Lemma tiles_snoc lo l a t n : tiles lo l a → (0 < n)%nat → tiles lo (l ++ [{| type := t; start := a; hlen := Z.of_nat n |}]) (a + n).
Proof.
  revert lo. induction l as [|sp l IH]; simpl; intros lo.
  - intros [? ?] ?. rewrite Nat2Z.id. split_and!; try done; try lia. apply blank_nil.
  - intros (? & ? & ? & ?) ?. split_and!; [done..|by apply IH].
Qed.

(** The type of a span does not matter. *)
Lemma tiles_retype lo l sp t a : tiles lo (l ++ [sp]) a → tiles lo (l ++ [{| type := t; start := start sp; hlen := hlen sp |}]) a.
Proof. revert lo. induction l as [|x l IH]; simpl; intros lo; [done|]. intros (? & ? & ? & ?). split_and!; [done..|by apply IH]. Qed.

(** ** The array *)

(** The spans so far tile the text up to [hi], and the array has room for them. *)
Record good (a : highlight_span_array) (hi : nat) : Prop := {
  g_tiles : tiles 0 (spans a) hi;
  g_room : Z.of_nat (length (spans a)) <= capacity a;
  g_cap : capacity a <= Z.max 64 (2 * Z.of_nat (length (spans a)));
}.

(** With memory to spare, [m] takes the array [a] to one that tiles up to [hi]. *)
Definition step (m : M highlight_span_array) (a : highlight_span_array) (hi : nat) : Prop :=
  ∃ a', m [] = Done (a', []) ∧ good a' hi ∧ (spans a ≠ [] → spans a' ≠ []).

Lemma step_bind m f a mid hi :
  step m a mid → (∀ a', good a' mid → (spans a ≠ [] → spans a' ≠ []) → step (f a') a' hi) → step (m ≫= f) a hi.
Proof.
  intros (b & Hm & Hg & Hn) Hf. destruct (Hf b Hg Hn) as (c & Hc & Hgc & Hnc). exists c.
  unfold mbind, M_bind. rewrite Hm. auto.
Qed.

Lemma step_ret a hi : good a hi → step (mret a) a hi.
Proof. intros H. exists a. auto. Qed.

Lemma good_blank a lo hi : good a lo → (lo <= hi)%nat → blank lo hi → good a hi.
Proof. intros [H1 H2 H3] ??. split; [by eapply tiles_blank|done..]. Qed.

Lemma step_blank m a lo hi : step m a lo → (lo <= hi)%nat → blank lo hi → step m a hi.
Proof. intros (b & Hm & Hg & Hn) ??. exists b. split_and!; [done|by eapply good_blank|done]. Qed.

(** The text is short enough for its spans to be counted in bytes. *)
Hypothesis short : 48 * Z.of_nat (length config) + 4096 <= SIZE_MAX.

Lemma SIZEOF_SPAN_cases : SIZEOF_SPAN = 12 ∨ SIZEOF_SPAN = 24.
Proof. unfold SIZEOF_SPAN. destruct ulong_bits_ok as [->| ->]; auto. Qed.

Lemma realloc_fits n : 0 <= n <= 2 * Z.of_nat (length config) + 64 → realloc_array_fits n SIZEOF_SPAN = true.
Proof.
  intros Hn. unfold realloc_array_fits. apply negb_true_iff. destruct (Z.ltb_spec 0 n); [|by rewrite andb_false_r].
  rewrite andb_true_r. apply andb_false_iff. right. apply Z.ltb_ge, Z.div_le_lower_bound; [lia|].
  destruct SIZEOF_SPAN_cases as [->| ->]; lia.
Qed.

Lemma append_run a st z t hi :
  good a hi → (hi <= length config)%nat → z ≠ 0 →
  ∃ c, append_highlight_span a st z t [] = Done ({| capacity := c; spans := spans a ++ [{| type := t; start := st; hlen := z |}] |}, []) ∧
    Z.of_nat (length (spans a)) < c <= Z.max 64 (2 * Z.of_nat (length (spans a))).
Proof.
  intros [Ht Hr Hc] Hhi Hz. pose proof (tiles_le _ _ _ Ht) as Hlen. unfold append_highlight_span.
  rewrite (proj2 (Z.eqb_neq _ _)) by lia.
  destruct (Z.leb_spec (capacity a) (Z.of_nat (length (spans a)))) as [Hle|Hlt].
  - assert (Hcap : ∃ c, (if truthy (capacity a) then size (capacity a * 2) else 64) = c ∧
      Z.of_nat (length (spans a)) < c <= Z.max 64 (2 * Z.of_nat (length (spans a)))).
    { unfold truthy. destruct (Z.eqb_spec (capacity a) 0) as [E|E]; cbn [negb]; eexists; (split; [reflexivity|]); [lia|].
      unfold size. rewrite Z.mod_small by lia. lia. }
    destruct Hcap as (c & -> & Hc1). exists c. rewrite realloc_fits by lia. unfold mbind, M_bind. cbn [alloc negb spans capacity].
    by rewrite (proj2 (Z.ltb_lt _ _)) by lia.
  - exists (capacity a). rewrite (proj2 (Z.ltb_lt _ _)) by lia. done.
Qed.

Lemma append_cases a st n t :
  good a st → (st <= length config)%nat →
  ∃ a', append_highlight_span a st (Z.of_nat n) t [] = Done (a', []) ∧ good a' (st + n) ∧
    spans a' = spans a ++ if n is O then [] else [{| type := t; start := st; hlen := Z.of_nat n |}].
Proof.
  intros Hg Hst. destruct n as [|n]; [exists a; by rewrite Nat.add_0_r, app_nil_r|].
  destruct (append_run a st (Z.of_nat (S n)) t st Hg Hst ltac:(lia)) as (c & -> & Hc). eexists. split_and!; [reflexivity| |done].
  split; cbn [spans capacity]; [apply tiles_snoc; [apply Hg|lia]|rewrite length_app; simpl; lia..].
Qed.

Lemma append_span_good a sp t :
  good a (s sp) → (s sp <= length config)%nat → step (append_span a sp t) a (s sp + slen sp).
Proof.
  intros Hg Hs. destruct (append_cases a (s sp) (slen sp) t Hg Hs) as (a' & Ha & Hg' & Hsp). exists a'.
  split_and!; [done..|]. rewrite Hsp. by destruct (spans a).
Qed.

(** Three spans that split one at position [k]. *)
Lemma split_good a sp k t1 t2 t3 :
  good a (s sp) → (s sp + slen sp <= length config)%nat → (k < slen sp)%nat →
  step (a ← append_span a {| s := s sp; slen := k |} t1;
        a ← append_span a {| s := s sp + k; slen := 1 |} t2;
        append_span a {| s := s sp + k + 1; slen := slen sp - k - 1 |} t3) a (s sp + slen sp).
Proof.
  intros Hg Hsp Hk. eapply step_bind; [apply append_span_good; cbn [s]; [done|lia]|]. intros b Hb _.
  eapply step_bind; [apply append_span_good; cbn [s slen] in *; [done|lia]|]. intros c Hc _.
  replace (s sp + slen sp)%nat with (s sp + k + 1 + (slen sp - k - 1))%nat by lia.
  apply (append_span_good c {| s := s sp + k + 1; slen := slen sp - k - 1 |}); cbn [s slen] in *; [done|lia].
Qed.

Lemma find_index f n k : List.find f (seq 0 n) = Some k → (k < n)%nat ∧ f k = true.
Proof. intros [H1%in_seq H2]%find_some. split; [lia|done]. Qed.

Lemma multivalue_value_good a sp section :
  good a (s sp) → (s sp + slen sp <= length config)%nat →
  step (highlight_multivalue_value config a sp section) a (s sp + slen sp).
Proof.
  intros Hg Hsp. assert (Hone : ∀ t, step (append_span a sp t) a (s sp + slen sp)) by (intros; apply append_span_good; [done|lia]).
  destruct section; cbn [highlight_multivalue_value]; try apply Hone.
  all: destruct (is_valid_network config sp); cbn [negb]; [|apply Hone].
  all: destruct (first_of config sp (ch "/")) as [k|] eqn:E; [|apply Hone].
  all: apply find_index in E as [Hk _]; by apply split_good.
Qed.

Lemma reject_delimiter_good a hi : good a hi → spans a ≠ [] → step (reject_delimiter a) a hi.
Proof.
  intros [Ht Hr Hc] Hne. unfold reject_delimiter. destruct (last (spans a)) as [sp|] eqn:E.
  2:{ by apply last_None in E. }
  apply last_Some in E as [l Hl]. case_bool_decide; [|by apply step_ret].
  eexists. split; [reflexivity|]. rewrite Hl, length_app, Nat.add_sub, take_app_length in *.
  split; [split; cbn [spans capacity]; [by apply tiles_retype|rewrite !length_app in *; simpl in *; lia..]|].
  cbn. intros _. by destruct l.
Qed.

Lemma multivalue_loop_good sp section : (s sp + slen sp <= length config)%nat → ∀ n i a cur l,
  (i + n = slen sp)%nat → spans a ≠ [] → good a (s cur) → (s cur + slen cur = s sp + i)%nat → (l <= slen cur)%nat →
  blank (s cur + l) (s sp + i) → step (multivalue_loop config a sp section i n cur l) a (s sp + slen sp).
Proof.
  intros Hsp n. induction n as [|n IH]; intros i a cur l Hi Hne Hg Hcur Hl Hb; cbn [multivalue_loop].
  { replace (s sp + slen sp)%nat with (s sp + i)%nat by lia. destruct (Nat.eqb_spec l 0) as [->|Hl0]; cbn [negb].
    - apply reject_delimiter_good; [|done]. eapply good_blank; [exact Hg|lia|]. by rewrite Nat.add_0_r in Hb.
    - apply (step_blank _ _ (s cur + l)); [|lia|exact Hb].
      apply (multivalue_value_good a {| s := s cur; slen := l |}); cbn [s slen]; [done|lia]. }
  destruct (Z.eqb_spec (char_at config sp i) (ch ",")) as [_|_].
  { eapply (step_bind _ _ _ (s sp + i)).
    - apply (step_blank _ _ (s cur + l)); [|lia|exact Hb].
      apply (multivalue_value_good a {| s := s cur; slen := l |}); cbn [s slen]; [done|lia].
    - intros b Hb' Hnb. eapply step_bind; [apply (append_span_good b {| s := s sp + i; slen := 1 |}); cbn [s slen]; [done|lia]|].
      cbn [s slen]. intros c Hc Hnc. apply IH; cbn [s slen]; try lia; [by auto|done|].
      replace (s sp + i + 1 + 0)%nat with (s sp + S i)%nat by lia. apply blank_nil. }
  destruct ((char_at config sp i =? ch " ") || (char_at config sp i =? 9)) eqn:Hsp'.
  - assert (Hc : blank_char (char_val (at_ config (s sp + i)))).
    { fold (char_at config sp i). unfold blank_char. apply orb_true_iff in Hsp' as [->%Z.eqb_eq| ->%Z.eqb_eq]; auto. }
    assert (HbS : blank (s cur + l) (s sp + S i)) by (rewrite Nat.add_succ_r; by apply blank_S).
    destruct (Nat.eqb_spec (s sp + i) (s cur)) as [E1|E1], (Nat.eqb_spec (slen cur) 0) as [E2|E2]; cbn [andb];
      apply IH; cbn [s slen]; try done; try lia.
    + assert (l = 0)%nat as -> by lia. rewrite Nat.add_0_r in HbS. eapply good_blank; [exact Hg|lia|].
      by replace (S (s cur)) with (s sp + S i)%nat by lia.
    + assert (l = 0)%nat as -> by lia. replace (S (s cur) + 0)%nat with (s sp + S i)%nat by lia. apply blank_nil.
  - apply IH; cbn [s slen]; try done; try lia. replace (s cur + S (slen cur))%nat with (s sp + S i)%nat by lia. apply blank_nil.
Qed.

(** A valid endpoint has a colon, so the loop that looks for the last one finds it. *)
Lemma bracket_colon sp : ∀ n i seen host, bracket_loop config sp i n seen host = true → (i + n = slen sp)%nat →
  ∃ k, (k < slen sp)%nat ∧ char_at config sp k = ch ":".
Proof.
  intros n. induction n as [|n IH]; intros i seen host H Hi; [done|]. cbn [bracket_loop] in H.
  destruct (char_at config sp i =? ch "%").
  { destruct seen; [done|]. destruct (negb _); [done|]. apply (IH _ _ _ H). lia. }
  destruct (char_at config sp i =? ch "]"); [|apply (IH _ _ _ H); lia].
  destruct (negb (if seen then _ else _)); [done|].
  destruct (Nat.eqb_spec i (slen sp - 1)); [done|]. cbn [orb] in H.
  destruct (Z.eqb_spec (char_at config sp (i + 1)) (ch ":")) as [E|]; [|done]. exists (i + 1)%nat. split; [lia|done].
Qed.

Lemma valid_endpoint_colon sp : is_valid_endpoint config sp = true → ∃ k, last_colon config sp = Some k ∧ (k < slen sp)%nat.
Proof.
  intros H. assert (∃ k, (k < slen sp)%nat ∧ char_at config sp k = ch ":") as (k & Hk & Hc).
  { unfold is_valid_endpoint in H. destruct (Nat.eqb_spec (slen sp) 0); [done|].
    destruct (_ =? _); [by apply bracket_colon in H; [|lia]|].
    destruct (first_of config sp (ch ":")) as [k|] eqn:E; [|done]. apply find_index in E as [? ?%Z.eqb_eq]. eauto. }
  unfold last_colon. destruct (List.find _ _) as [j|] eqn:E.
  - apply find_some in E as [E _]. exists j. split; [done|].
    apply list_elem_of_In, elem_of_reverse, elem_of_seq in E. lia.
  - pose proof (find_none _ _ E k) as Hn. cbv beta in Hn. rewrite Hc, Z.eqb_refl in Hn. discriminate Hn.
    apply list_elem_of_In, elem_of_reverse, elem_of_seq. lia.
Qed.

Lemma highlight_value_good a sp f :
  good a (s sp) → spans a ≠ [] → (s sp + slen sp <= length config)%nat → step (highlight_value config a sp f) a (s sp + slen sp).
Proof.
  intros Hg Hne Hsp.
  assert (Hone : ∀ t, step (append_span a sp t) a (s sp + slen sp)) by (intros; apply append_span_good; [done|lia]).
  assert (Hmulti : step (highlight_multivalue config a sp f) a (s sp + slen sp)).
  { apply multivalue_loop_good; cbn [s slen]; try done; try lia. rewrite Nat.add_0_r. apply blank_nil. }
  destruct f; cbn [highlight_value]; try exact Hmulti; try apply Hone.
  destruct (is_valid_endpoint config sp) eqn:E; cbn [negb]; [|apply Hone].
  apply valid_endpoint_colon in E as (k & -> & Hk). by apply split_good.
Qed.

(** ** The scan *)

(** Where the region that is not yet in a span starts: it ends at [i], and past
    [len_at_last_space] it is white space. *)
Record scan_ok (x : scan) (i : nat) : Prop := {
  x_end : (s (current_span x) + slen (current_span x) = i)%nat;
  x_text : (i <= length config)%nat;
  x_none : state x = OnNone → slen (current_span x) = 0%nat;
  x_good : good (ret x) (if bool_decide (state x = OnValue) then equals_location x else s (current_span x));
  x_equals : state x = OnValue → (equals_location x < s (current_span x))%nat ∧ blank (S (equals_location x)) (s (current_span x));
  x_space : state x = OnComment ∨ slen (current_span x) = 0%nat ∨
    (len_at_last_space x <= slen (current_span x))%nat ∧ blank (s (current_span x) + len_at_last_space x) i;
  x_key : state x = OnKey ∨ state x = OnSection → slen (current_span x) ≠ 0%nat;
}.

Lemma flush_good x i :
  scan_ok x i → ∃ a sec, flush config x [] = Done ((a, sec), []) ∧ good a i.
Proof.
  intros [Hend Htext Hnone Hgood Heq Hspace Hkey].
  assert (Hstep : ∀ m sec, step m (ret x) i → ∃ a sec', (a ← m; mret (a, sec : field)) [] = Done ((a, sec'), []) ∧ good a i).
  { intros m sec (a & Hm & Hg & _). exists a, sec. unfold mbind, M_bind. by rewrite Hm. }
  set (trimmed := {| s := s (current_span x); slen := len_at_last_space x |}).
  assert (Htrim : ∀ m b, state x ≠ OnComment → slen (current_span x) ≠ 0%nat → step m b (s trimmed + slen trimmed) → step m b i).
  { intros m b Hs Hl Hm. destruct Hspace as [?|[?|[H1 H2]]]; [done..|]. apply (step_blank _ _ (s trimmed + slen trimmed)); [done|simpl; lia|done]. }
  unfold flush. fold trimmed. destruct (state x) eqn:Est; cbn [bool_decide decide_rel] in Hgood.
  - exists (ret x), (current_section x). split; [done|]. rewrite <- Hend, Hnone, Nat.add_0_r by done. exact Hgood.
  - apply Hstep, Htrim; [done|by auto|]. apply append_span_good; simpl; [exact Hgood|lia].
  - apply Hstep. destruct (Heq eq_refl) as [H1 H2].
    assert (He : ∀ t, ∃ b, append_span (ret x) {| s := equals_location x; slen := 1 |} t [] = Done (b, []) ∧
      good b (s (current_span x)) ∧ spans b ≠ []).
    { intros t. destruct (append_cases (ret x) (equals_location x) 1 t Hgood ltac:(lia)) as (b & Hb & Hg & Hsp).
      exists b. split_and!; [done| |rewrite Hsp; by destruct (spans (ret x))].
      eapply good_blank; [exact Hg|lia|by rewrite Nat.add_1_r]. }
    destruct (Nat.eqb_spec (slen (current_span x)) 0) as [E|E]; cbn [negb].
    + destruct (He HighlightError) as (b & Hb & Hg & Hn). exists b. replace i with (s (current_span x)) by lia. auto.
    + destruct (He HighlightDelimiter) as (b & Hb & Hg & Hn). unfold step, mbind, M_bind. rewrite Hb.
      destruct (Htrim (highlight_value config b trimmed (current_field x)) b) as (c & Hc & Hgc & Hnc); [done..| |].
      { apply highlight_value_good; simpl; [done..|]. destruct Hspace as [?|[?|[? _]]]; [done..|lia]. }
      exists c. auto.
  - apply Hstep. rewrite <- Hend. apply append_span_good; simpl; [exact Hgood|lia].
  - pose proof (Hkey (or_intror eq_refl)). apply (Hstep (append_span (ret x) trimmed _)), Htrim; [done..|].
    apply append_span_good; simpl; [exact Hgood|lia].
Qed.

Ltac scan_fields := cbn [ret current_span current_section current_field state len_at_last_space equals_location s slen].

Lemma scan_char_good x i :
  scan_ok x i → (i < length config)%nat → ∃ x', scan_char config x i [] = Done (x', []) ∧ scan_ok x' (S i).
Proof.
  intros Hx Hi. pose proof (flush_good x i Hx) as (a & sec & Hf & Hg).
  destruct Hx as [Hend Htext Hnone Hgood Heq Hspace Hkey].
  unfold scan_char. set (c := char_val (at_ config i)). cbv zeta.
  destruct ((c =? 10) || (negb (bool_decide (state x = OnComment)) && (c =? ch "#"))) eqn:E1.
  { unfold mbind, M_bind. rewrite Hf. eexists. split; [reflexivity|]. cbn [fst snd].
    destruct (Z.eqb_spec c (ch "#")) as [Hc|Hc]; (split; scan_fields; try done; try lia; auto; try naive_solver).
    rewrite bool_decide_eq_false_2, Nat.add_1_r by done. apply (good_blank _ i); [done|lia|].
    apply blank_S; [apply blank_nil|]. unfold blank_char. fold c. right. right.
    apply orb_true_iff in E1 as [E1%Z.eqb_eq|E1]; [done|]. rewrite andb_false_r in E1. done. }
  destruct (bool_decide_reflect (state x = OnComment)) as [Ec|Ec].
  { eexists. split; [reflexivity|]. split; scan_fields; try lia; try done; auto; rewrite Ec in *; try done; naive_solver. }
  destruct ((c =? ch " ") || (c =? 9)) eqn:E2.
  { assert (Hbc : blank_char c).
    { unfold blank_char. apply orb_true_iff in E2 as [->%Z.eqb_eq| ->%Z.eqb_eq]; auto. }
    eexists. split; [reflexivity|].
    destruct (Nat.eqb_spec i (s (current_span x))) as [F1|F1], (Nat.eqb_spec (slen (current_span x)) 0) as [F2|F2]; cbn [andb]; try lia.
    - split; scan_fields; try lia; auto.
      + case_bool_decide; [done|]. rewrite <- F1 in *. apply (good_blank _ i); [done|lia|]. by apply blank_S; [apply blank_nil|].
      + intros Hv. destruct (Heq Hv) as [H1 H2]. rewrite <- F1 in *. split; [lia|]. by apply blank_S.
    - split; scan_fields; try lia; auto; [naive_solver|].
      right. right. destruct Hspace as [?|[?|[H1 H2]]]; [done..|]. split; [lia|]. by apply blank_S. }
  destruct ((c =? ch "=") && bool_decide (state x = OnKey)) eqn:E3.
  { apply andb_true_iff in E3 as [_ E3%bool_decide_eq_true]. rewrite E3 in *. rewrite bool_decide_eq_false_2 in Hgood by done.
    pose proof (Hkey (or_introl eq_refl)) as Hk.
    destruct Hspace as [?|[?|[H1 H2]]]; [done..|].
    set (key := {| s := s (current_span x); slen := len_at_last_space x |}).
    match goal with |- context [append_span (ret x) key ?ty] => set (kty := ty) end.
    destruct (append_cases (ret x) (s key) (slen key) kty Hgood) as (b & Hb & Hgb & _); [simpl; lia|].
    change (append_span (ret x) key kty [] = Done (b, [])) in Hb. unfold mbind, M_bind. rewrite Hb.
    eexists. split; [reflexivity|].
    split; scan_fields; [lia|lia|done| | |by right; left|by intros [?|?]].
    - rewrite bool_decide_eq_true_2 by done. eapply good_blank; [exact Hgb|simpl; lia|done].
    - intros _. split; [lia|]. rewrite Nat.add_1_r. apply blank_nil. }
  eexists. split; [reflexivity|].
  assert (Hst : ∀ y, (if bool_decide (state x = OnNone) then if c =? ch "[" then OnSection else OnKey else state x) = y →
    state x = OnNone ∧ (y = OnSection ∨ y = OnKey) ∨ state x ≠ OnNone ∧ y = state x).
  { intros y <-. destruct (bool_decide_reflect (state x = OnNone)) as [En|En]; [left; split; [exact En|]; destruct (c =? ch "["); auto|right; auto]. }
  set (st := if bool_decide (state x = OnNone) then _ else _) in *. specialize (Hst st eq_refl).
  split; scan_fields; [lia|lia| | | | |lia].
  - intros Es. rewrite Es in Hst. destruct Hst as [[_ [?|?]]|[? ?]]; congruence.
  - destruct Hst as [[Hn [-> | ->]]|[_ ->]]; [..|done]; rewrite Hn in Hgood; exact Hgood.
  - intros Es. rewrite Es in Hst. destruct Hst as [[_ [?|?]]|[_ Hv]]; [congruence..|]. by apply Heq.
  - right. right. split; [lia|]. replace (s (current_span x) + S (slen (current_span x)))%nat with (S i) by lia. apply blank_nil.
Qed.

Lemma scan_loop_good : ∀ n i x, scan_ok x i → (i + n = length config)%nat →
  ∃ x', scan_loop config i n x [] = Done (x', []) ∧ scan_ok x' (length config).
Proof.
  intros n. induction n as [|n IH]; intros i x Hx Hi; cbn [scan_loop].
  - exists x. split; [done|]. by replace (length config) with i by lia.
  - destruct (scan_char_good x i Hx) as (x1 & H1 & Hx1); [lia|]. unfold mbind, M_bind. rewrite H1.
    apply (IH (S i)); [done|lia].
Qed.

Lemma scan_zero_ok : scan_ok scan_zero 0.
Proof.
  split; cbn [scan_zero current_span s slen state]; try done; try lia; auto.
  - split; [|simpl; lia..]. split; [done|apply blank_nil].
  - by intros [?|?].
Qed.

Lemma highlight_config_good :
  ∃ body, highlight_config config [] = Done (body ++ [{| type := HighlightEnd; start := 0; hlen := SIZE_MAX |}], []) ∧
    tiles 0 body (length config).
Proof.
  destruct (scan_loop_good (length config) 0 scan_zero scan_zero_ok ltac:(lia)) as (x & Hx & Hok).
  destruct (flush_good x _ Hok) as (a & sec & Hf & Hg).
  destruct (append_run a 0 SIZE_MAX HighlightEnd (length config) Hg ltac:(lia) ltac:(lia)) as (c & Ha & _).
  exists (spans a). split; [|apply Hg]. unfold highlight_config, mbind, M_bind. rewrite Hx, Hf. cbn [fst]. by rewrite Ha.
Qed.

(** ** From the tiling to the characters *)

Definition covers (sp : highlight_span) (p : nat) : Prop := (start sp <= p < start sp + Z.to_nat (hlen sp))%nat.

Lemma tiles_covers lo l hi p :
  tiles lo l hi → (lo <= p < hi)%nat → blank_char (char_val (at_ config p)) ∨ ∃ i sp, l !! i = Some sp ∧ covers sp p.
Proof.
  revert lo. induction l as [|sp l IH]; intros lo; simpl.
  - intros [_ Hb] Hp. left. by apply Hb.
  - intros (H1 & H2 & H3 & H4) Hp. destruct (decide (p < start sp)%nat); [left; apply H2; lia|].
    destruct (decide (p < start sp + Z.to_nat (hlen sp))%nat); [right; exists 0%nat, sp; split; [done|unfold covers; lia]|].
    destruct (IH _ H4 ltac:(lia)) as [?|(i & sp' & Hi & Hc)]; [by left|]. right. by exists (S i), sp'.
Qed.

Lemma tiles_from lo l hi i sp p : tiles lo l hi → l !! i = Some sp → covers sp p → (lo <= p < hi)%nat.
Proof.
  revert lo i. induction l as [|x l IH]; intros lo [|i]; simpl; try done.
  - intros (H1 & H2 & H3 & H4) [= ->] Hc. pose proof (tiles_le _ _ _ H4). unfold covers in Hc. lia.
  - intros (H1 & H2 & H3 & H4) Hi Hc. pose proof (IH _ _ H4 Hi Hc). lia.
Qed.

Lemma tiles_once lo l hi i j sp sp' p :
  tiles lo l hi → l !! i = Some sp → l !! j = Some sp' → covers sp p → covers sp' p → i = j.
Proof.
  revert lo i j. induction l as [|x l IH]; intros lo [|i] [|j]; simpl; try done.
  - intros (H1 & H2 & H3 & H4) [= ->] Hj Hp Hp'. pose proof (tiles_from _ _ _ _ _ _ H4 Hj Hp'). unfold covers in Hp. lia.
  - intros (H1 & H2 & H3 & H4) Hi [= ->] Hp Hp'. pose proof (tiles_from _ _ _ _ _ _ H4 Hi Hp). unfold covers in Hp'. lia.
  - intros (_ & _ & _ & H4) Hi Hj Hp Hp'. f_equal. by eapply IH.
Qed.
End Tiles.

(** C33: The highlighter colours the whole text: given memory, [highlight_config]
    returns spans that lie in the text in order without overlapping, none of
    them empty, followed by the end marker; every character that is not a
    space, a tab or a newline lies in exactly one of them. *)
Theorem highlight_config_tiles (plat : Platform) (config : bytes)
    (Hshort : 48 * Z.of_nat (length config) + 4096 <= SIZE_MAX) :
  ∃ body, run (highlight_config config) = Done (body ++ [{| type := HighlightEnd; start := 0; hlen := SIZE_MAX |}]) ∧
    tiles config 0 body (length config) ∧
    ∀ p, (p < length config)%nat → ¬ blank_char (char_val (at_ config p)) →
      ∃ i sp, body !! i = Some sp ∧ covers sp p ∧ ∀ j sp', body !! j = Some sp' → covers sp' p → j = i.
Proof.
  destruct (highlight_config_good config Hshort) as (body & Hrun & Ht). exists body. unfold run. rewrite Hrun.
  split_and!; [done..|]. intros p Hp Hb. destruct (tiles_covers config 0 body _ p Ht ltac:(lia)) as [?|(i & sp & Hi & Hc)]; [done|].
  exists i, sp. split_and!; [done..|]. intros j sp' Hj Hc'. by eapply tiles_once.
Qed.

Definition sample_config : bytes :=
  str "[Interface]" ++ [10] ++ str "DNS = 1.1.1.1, ::1 # x" ++ [10] ++ str "Oops" ++ [10].

Lemma highlight_config_tiles_witness :
  ∃ body, run (highlight_config (plat := arm64) sample_config) =
      Done (body ++ [{| type := HighlightEnd; start := 0; hlen := SIZE_MAX (plat := arm64) |}]) ∧
    tiles (plat := arm64) sample_config 0 body (length sample_config) ∧
    ∀ p, (p < length sample_config)%nat → ¬ blank_char (char_val (H := arm64) (at_ sample_config p)) →
      ∃ i sp, body !! i = Some sp ∧ covers sp p ∧ ∀ j sp', body !! j = Some sp' → covers sp' p → j = i.
Proof. refine (highlight_config_tiles arm64 sample_config _). vm_compute. discriminate. Defined.

(** An allocation that fails loses the spans so far; a value that ends in a comma
    then reads the entry before the first. *)
Lemma multivalue_no_memory :
  highlight_config (plat := arm64) (str "DNS=,") (replicate 9 false) = Undefined.
Proof. vm_compute. reflexivity. Qed.

(** The test for two dots in a row comes after the dots have been dealt with. *)
Lemma hostname_two_dots :
  is_valid_hostname (plat := arm64) (str "a..b") {| s := 0; slen := 4 |} = true.
Proof. vm_compute. reflexivity. Qed.

(** ** Keys *)

Section Key.
Context {plat : Platform}.
Variable config : bytes.
Hypothesis Hbytes : all_bytes config = true.

Definition text_of (sp : string_span) : bytes := take (slen sp) (drop (s sp) config).

Lemma at_text sp i : (i < slen sp)%nat → at_ (text_of sp) i = at_ config (s sp + i).
Proof. intros Hi. unfold at_, text_of. by rewrite lookup_take_lt, lookup_drop by done. Qed.

(** The classes of the highlighter, on both kinds of [char]. *)
Lemma char_class (f g : Z → bool) :
  forallb (λ b, Bool.eqb (f b) (g b)) (seqZ 0 256) = true →
  forallb (λ b, Bool.eqb (f (b - 256)) (g b)) (seqZ 128 128) = true →
  ∀ b, 0 <= b < 256 → f (char_val b) = g b.
Proof.
  intros H1 H2 b Hb. apply eqb_prop. destruct (char_val_cases b Hb) as [->|[Hh ->]].
  - by apply (Z_range_check _ 0 256 H1).
  - by apply (Z_range_check (λ b, Bool.eqb (f (b - 256)) (g b)) 128 128 H2); lia.
Qed.

Lemma key_char b : 0 <= b < 256 →
  (let c := char_val b in is_decimal c || is_alphabet c || (c =? ch "/") || (c =? ch "+")) = if b64_val b is Some _ then true else false.
Proof.
  apply (char_class (λ c, is_decimal c || is_alphabet c || (c =? ch "/") || (c =? ch "+")) (λ b, if b64_val b is Some _ then true else false));
    vm_compute; reflexivity.
Qed.

Lemma last_key_char b : 0 <= b < 256 →
  existsb (Z.eqb (char_val b)) (str "AEIMQUYcgkosw480") = match b64_val b with Some v => v mod 4 =? 0 | None => false end.
Proof.
  apply (char_class (λ c, existsb (Z.eqb c) (str "AEIMQUYcgkosw480")) (λ b, match b64_val b with Some v => v mod 4 =? 0 | None => false end));
    vm_compute; reflexivity.
Qed.

(** The digits of a key: 42 of the alphabet, and one whose low bits are zero. *)
Lemma b64_accepts_digits t : all_bytes t = true →
  b64_accepts t ↔ length t = 44%nat ∧ at_ t 43 = ch "=" ∧ (∀ i, (i < 42)%nat → is_Some (b64_val (at_ t i))) ∧
    match b64_val (at_ t 42) with Some v => v mod 4 = 0 | None => False end.
Proof.
  intros Ht. unfold b64_accepts, group_val, last_val.
  assert (Hg : ∀ a b c d, all_bytes [at_ t a; at_ t b; at_ t c; at_ t d] = true) by (intros; by apply all_bytes_4; apply all_bytes_at).
  assert (HA : all_bytes [at_ t 40; at_ t 41; at_ t 42; ch "A"] = true) by (apply all_bytes_4; try (by apply all_bytes_at); ch_norm; lia).
  split.
  - intros (Hl & He & Hj & Hn & Hz). split_and!; [done..| |].
    + intros i Hi. destruct (decide (i < 40)%nat) as [H40|H40].
      * pose proof (Hj (i / 4)%nat ltac:(apply Nat.Div0.div_lt_upper_bound; lia)) as Hd.
        apply decode_base64_nonneg in Hd as (v0 & v1 & v2 & v3 & H0 & H1 & H2 & H3); [|done].
        pose proof (Nat.div_mod_eq i 4). pose proof (Nat.mod_upper_bound i 4 ltac:(lia)).
        assert (i = i / 4 * 4 ∨ i = i / 4 * 4 + 1 ∨ i = i / 4 * 4 + 2 ∨ i = i / 4 * 4 + 3)%nat as [E|[E|[E|E]]] by lia; rewrite E; eauto.
      * apply decode_base64_nonneg in Hn as (v0 & v1 & v2 & v3 & H0 & H1 & _); [|done].
        assert (i = 40 ∨ i = 41)%nat as [-> | ->] by lia; eauto.
    + pose proof Hn as Hd. apply decode_base64_nonneg in Hd as (v0 & v1 & v2 & v3 & H0 & H1 & H2 & H3); [|done]. rewrite H2.
      rewrite (decode_base64_Some _ _ _ _ _ _ _ _ H0 H1 H2 H3), land_255 in Hz.
      assert (v3 = 0) as -> by (vm_compute in H3; congruence).
      pose proof (b64_val_range _ _ H2). bit_lia.
  - intros (Hl & He & Hi & H42). destruct (b64_val (at_ t 42)) as [v2|] eqn:E2; [|done].
    destruct (Hi 40%nat ltac:(lia)) as [v0 E0], (Hi 41%nat ltac:(lia)) as [v1 E1].
    assert (E3 : b64_val (ch "A") = Some 0) by reflexivity. split_and!; [done..| | |].
    + intros j Hj. apply decode_base64_nonneg; [done|].
      destruct (Hi (j * 4)%nat ltac:(lia)), (Hi (j * 4 + 1)%nat ltac:(lia)), (Hi (j * 4 + 2)%nat ltac:(lia)), (Hi (j * 4 + 3)%nat ltac:(lia)). eauto 10.
    + apply decode_base64_nonneg; [done|]. eauto 10.
    + rewrite (decode_base64_Some _ _ _ _ _ _ _ _ E0 E1 E2 E3), land_255. pose proof (b64_val_range _ _ E2). bit_lia.
Qed.

Lemma valid_key_accepts sp :
  (s sp + slen sp <= length config)%nat → is_valid_key config sp = true ↔ b64_accepts (text_of sp).
Proof.
  intros Hsp. assert (Ht : all_bytes (text_of sp) = true).
  { unfold all_bytes, text_of in *. rewrite forallb_Forall_true in *. by apply Forall_take, Forall_drop. }
  assert (Hlen : length (text_of sp) = slen sp) by (unfold text_of; rewrite length_take, length_drop; lia).
  rewrite (b64_accepts_digits _ Ht), Hlen. unfold is_valid_key.
  destruct (Nat.eqb_spec (slen sp) 44) as [El|El]; cbn [negb orb]; [|split; [done|by intros []]].
  assert (Hat : ∀ i, (i < 44)%nat → char_at config sp i = char_val (at_ (text_of sp) i)) by (intros; unfold char_at; rewrite at_text by lia; done).
  assert (Hb : ∀ i, 0 <= at_ (text_of sp) i < 256) by (intros; by apply all_bytes_at).
  rewrite !Hat by lia. rewrite last_key_char by done.
  assert (Heq : (char_val (at_ (text_of sp) 43) =? ch "=") = (at_ (text_of sp) 43 =? ch "=")).
  { apply (char_class (λ c, c =? ch "=") (λ c, c =? ch "=")); [vm_compute; reflexivity..|done]. }
  rewrite Heq. destruct (Z.eqb_spec (at_ (text_of sp) 43) (ch "=")) as [Ee|Ee]; cbn [negb orb]; [|split; [done|by intros (_ & ? & _)]].
  assert (Hall : forallb (λ i, let c := char_at config sp i in is_decimal c || is_alphabet c || (c =? ch "/") || (c =? ch "+")) (seq 0 42) = true ↔
    ∀ i, (i < 42)%nat → is_Some (b64_val (at_ (text_of sp) i))).
  { rewrite forallb_forall. split.
    - intros H i Hi. specialize (H i ltac:(apply in_seq; lia)). rewrite Hat, key_char in H by (done || lia). by destruct (b64_val _).
    - intros H i Hi%in_seq. rewrite Hat, key_char by (done || lia). destruct (H i ltac:(lia)) as [v ->]. done. }
  destruct (forallb _ _); cbn [negb].
  - destruct (b64_val (at_ (text_of sp) 42)) as [v|]; [rewrite Z.eqb_eq|]; split; try done; [|tauto..].
    intros Hv. split_and!; try done. by apply Hall.
  - split; [done|]. intros (_ & _ & H & _). apply Hall in H. done.
Qed.
End Key.

(** The highlighter's test for keys is the decoder's: [is_valid_key] accepts a
    span of a text exactly when [key_from_base64] accepts its characters, whether
    plain [char] is signed or not. *)
Theorem is_valid_key_decodes (plat : Platform) (config key0 : bytes) (sp : string_span)
    (Hc : all_bytes config = true) (Hsp : (s sp + slen sp <= length config)%nat) (Hk : length key0 = WG_KEY_LEN) :
  is_valid_key config sp = (key_from_base64 key0 (text_of config sp)).1.
Proof.
  assert (Ht : all_bytes (text_of config sp) = true).
  { unfold all_bytes, text_of in *. rewrite forallb_Forall_true in *. by apply Forall_take, Forall_drop. }
  apply Bool.eq_iff_eq_true. rewrite (valid_key_accepts config Hc sp Hsp). symmetry. by apply key_from_base64_spec.
Qed.

Lemma is_valid_key_decodes_witness :
  is_valid_key (plat := x86_64) (str "k=" ++ key_base64 (replicate 32 7)) {| s := 2; slen := 44 |} =
  (key_from_base64 (plat := x86_64) (replicate 32 0) (text_of (str "k=" ++ key_base64 (replicate 32 7)) {| s := 2; slen := 44 |})).1.
Proof.
  refine (is_valid_key_decodes x86_64 (str "k=" ++ key_base64 (replicate 32 7)) (replicate 32 0) {| s := 2; slen := 44 |} _ _ _);
    [vm_compute; reflexivity| |reflexivity]. vm_compute. lia.
Defined.

(** [realloc_array] refuses exactly the sizes that do not fit: it calls
    [realloc] if and only if the product it passes on does not overflow, although
    it looks at the product only when a factor is at least half as wide as
    [size_t]. *)
Theorem realloc_array_exact (plat : Platform) (nmemb sz : Z) (Hn : 0 <= nmemb <= SIZE_MAX) (Hs : 0 <= sz <= SIZE_MAX) :
  realloc_array_fits nmemb sz = true ↔ nmemb * sz <= SIZE_MAX.
Proof.
  unfold realloc_array_fits. set (half := 2 ^ (ulong_bits / 2)).
  assert (Hsq : half * half = SIZE_MAX + 1 ∧ 0 < half).
  { unfold half, SIZE_MAX, ULONG_MAX. destruct ulong_bits_ok as [->| ->]; done. }
  destruct (Z.eq_dec nmemb 0) as [->|Hz]; [rewrite andb_false_r; simpl; split; [lia|done]|].
  rewrite (proj2 (Z.ltb_lt 0 nmemb)), andb_true_r by lia.
  assert (Hdiv : (SIZE_MAX / nmemb <? sz) = negb (nmemb * sz <=? SIZE_MAX)).
  { destruct (Z.leb_spec (nmemb * sz) SIZE_MAX) as [H|H]; simpl.
    - apply Z.ltb_ge, Z.div_le_lower_bound; lia.
    - apply Z.ltb_lt, Z.div_lt_upper_bound; lia. }
  rewrite Hdiv, negb_andb, negb_involutive, orb_true_iff, Z.leb_le, negb_true_iff, orb_false_iff, !Z.leb_gt.
  split; [|by right]. intros [[H1 H2]|H]; [nia|done].
Qed.

Lemma realloc_array_exact_witness :
  realloc_array_fits (plat := armv7) 0x20000000 24 = true ↔ 0x20000000 * 24 <= SIZE_MAX (plat := armv7).
Proof. refine (realloc_array_exact armv7 0x20000000 24 _ _); vm_compute; split; discriminate. Defined.
