(* ===== verification/Netlink.v ===== *)
(** * Netlink: netlink.h, the messages of the Linux transport

    A message that is being built is the list of its bytes after the
    [struct nlmsghdr], so [nlmsg_len] is 16 more than its length; every store
    adds a multiple of four bytes, so [MNL_ALIGN] of the length is the length.
    A position in it stands for a [struct nlattr *].  A message that was
    received is read from the bytes of its datagram; integers are in the order
    of the machine, which is little-endian on every Android ABI. *)

From Stdlib Require Import Ascii String.
From stdpp Require Import base numbers option sets list list_numbers strings.
From S2P Require Import Prelude CLib Ctype Encoding Containers Field25519.
#[local] Open Scope c_scope.

(** ** Constants *)

Definition MNL_ALIGN (n : nat) : nat := ((n + 3) / 4 * 4)%nat.
Definition NLMSG_HDRLEN : nat := 16.
Definition ATTR_HDRLEN : nat := 4.
Definition NLA_F_NESTED : Z := 0x8000.
Definition NLA_TYPE_MASK : Z := 0x3fff.
Definition NLMSG_NOOP : Z := 1.
Definition NLMSG_ERROR : Z := 2.
Definition NLMSG_DONE : Z := 3.
Definition NLMSG_OVERRUN : Z := 4.
Definition NLMSG_MIN_TYPE : Z := 0x10.
Definition NLM_F_REQUEST : Z := 1.
Definition NLM_F_MULTI : Z := 2.
Definition NLM_F_ACK : Z := 4.
Definition NLM_F_DUMP_INTR : Z := 0x10.
Definition NLM_F_DUMP : Z := 0x300.
Definition MNL_CB_ERROR : Z := -1.
Definition MNL_CB_STOP : Z := 0.
Definition MNL_CB_OK : Z := 1.

(** [(size_t)sysconf(_SC_PAGESIZE)], at most 8192. *)
Definition mnl_ideal_socket_buffer_size (pagesize : Z) : Z := if 8192 <? pagesize then 8192 else pagesize.

(** ** Building a message *)

Section Build.
(** [buflen], the size of the buffer. *)
Variable buflen : Z.

Definition nlmsg_len (nlh : bytes) : Z := Z.of_nat (NLMSG_HDRLEN + length nlh).

(** [mnl_nlmsg_put_header] and [__mnlg_msg_prepare]: a [struct genlmsghdr] follows
    the header. *)
Definition mnlg_msg_prepare (cmd version : Z) : bytes := [u8 cmd; u8 version; 0; 0].

(** Callers put a key, an address, a number or a name: less than the 65532 bytes for which the 16-bit
    length, by which the message grows in the code, has room. *)
Definition mnl_attr_put (nlh : bytes) (type : Z) (data : bytes) : bytes :=
  nlh ++ le_bytes 2 (u16 (Z.of_nat (ATTR_HDRLEN + length data))) ++ le_bytes 2 (u16 type) ++ data
      ++ replicate (MNL_ALIGN (length data) - length data) 0.
Definition mnl_attr_put_u16 (nlh : bytes) (type x : Z) : bytes := mnl_attr_put nlh type (le_bytes 2 (u16 x)).
Definition mnl_attr_put_u32 (nlh : bytes) (type x : Z) : bytes := mnl_attr_put nlh type (le_bytes 4 (u32 x)).
Definition mnl_attr_put_strz (nlh : bytes) (type : Z) (s : bytes) : bytes := mnl_attr_put nlh type (s ++ [0]).

(** The message, and the position of the attribute; its length is stored by
    [mnl_attr_nest_end]. *)
Definition mnl_attr_nest_start (nlh : bytes) (type : Z) : bytes * nat :=
  (nlh ++ [0; 0] ++ le_bytes 2 (NLA_F_NESTED .| u16 type), length nlh).

Definition mnl_attr_put_check (nlh : bytes) (type : Z) (data : bytes) : option bytes :=
  if buflen <? nlmsg_len nlh + Z.of_nat ATTR_HDRLEN + Z.of_nat (MNL_ALIGN (length data)) then None
  else Some (mnl_attr_put nlh type data).
Definition mnl_attr_put_u8_check (nlh : bytes) (type x : Z) : option bytes := mnl_attr_put_check nlh type (le_bytes 1 (u8 x)).
Definition mnl_attr_put_u16_check (nlh : bytes) (type x : Z) : option bytes := mnl_attr_put_check nlh type (le_bytes 2 (u16 x)).
Definition mnl_attr_put_u32_check (nlh : bytes) (type x : Z) : option bytes := mnl_attr_put_check nlh type (le_bytes 4 (u32 x)).

Definition mnl_attr_nest_start_check (nlh : bytes) (type : Z) : option (bytes * nat) :=
  if buflen <? nlmsg_len nlh + Z.of_nat ATTR_HDRLEN then None else Some (mnl_attr_nest_start nlh type).

(** [start->nla_len = tail - start] *)
Definition mnl_attr_nest_end (nlh : bytes) (start : nat) : bytes :=
  take start nlh ++ le_bytes 2 (u16 (Z.of_nat (length nlh - start))) ++ drop (start + 2) nlh.

(** [nlh->nlmsg_len -= tail - start] *)
Definition mnl_attr_nest_cancel (nlh : bytes) (start : nat) : bytes := take start nlh.
End Build.

(** The bytes that [mnlg_socket_send] hands to [sendto]. *)
Definition message_bytes (type flags seq pid : Z) (nlh : bytes) : bytes :=
  le_bytes 4 (u32 (nlmsg_len nlh)) ++ le_bytes 2 (u16 type) ++ le_bytes 2 (u16 flags) ++ le_bytes 4 (u32 seq) ++ le_bytes 4 (u32 pid) ++ nlh.

(** ** Reading attributes *)

(** A [struct nlattr *] is the rest of the datagram from it on. *)
Definition nla_len (attr : bytes) : Z := le_value (take 2 attr).
Definition nla_type (attr : bytes) : Z := le_value (take 2 (drop 2 attr)).
Definition mnl_attr_get_type (attr : bytes) : Z := nla_type attr .& NLA_TYPE_MASK.
Definition mnl_attr_get_payload_len (attr : bytes) : Z := u16 (nla_len attr - Z.of_nat ATTR_HDRLEN).
Definition mnl_attr_get_payload (attr : bytes) : bytes := drop ATTR_HDRLEN attr.
(** [memcpy] of a payload of [n] bytes. *)
Definition payload (attr : bytes) (n : nat) : bytes := take n (mnl_attr_get_payload attr).

Definition mnl_attr_ok (attr : bytes) (len : Z) : bool :=
  (Z.of_nat ATTR_HDRLEN <=? len) && (Z.of_nat ATTR_HDRLEN <=? nla_len attr) && (nla_len attr <=? len).
Definition attr_step (attr : bytes) : nat := MNL_ALIGN (Z.to_nat (nla_len attr)).
Definition mnl_attr_next (attr : bytes) : bytes := drop (attr_step attr) attr.

Inductive mnl_attr_data_type :=
  | MNL_TYPE_UNSPEC | MNL_TYPE_U8 | MNL_TYPE_U16 | MNL_TYPE_U32 | MNL_TYPE_U64 | MNL_TYPE_STRING | MNL_TYPE_FLAG | MNL_TYPE_MSECS
  | MNL_TYPE_NESTED | MNL_TYPE_NESTED_COMPAT | MNL_TYPE_NUL_STRING | MNL_TYPE_BINARY.

(** [mnl_attr_data_type_len] *)
Definition data_type_len (t : mnl_attr_data_type) : Z :=
  match t with MNL_TYPE_U8 => 1 | MNL_TYPE_U16 => 2 | MNL_TYPE_U32 => 4 | MNL_TYPE_U64 => 8 | MNL_TYPE_MSECS => 8 | _ => 0 end.

(** [mnl_attr_validate]: 0, or the [errno] it fails with. *)
Definition mnl_attr_validate (attr : bytes) (type : mnl_attr_data_type) : Z :=
  let attr_len := mnl_attr_get_payload_len attr in
  let attr_data := mnl_attr_get_payload attr in
  let exp_len := data_type_len type in
  let rest := if truthy exp_len && (exp_len <? attr_len) then ERANGE else 0 in
  if attr_len <? exp_len then ERANGE
  else match type with
  | MNL_TYPE_FLAG => if 0 <? attr_len then ERANGE else rest
  | MNL_TYPE_NUL_STRING =>
      if attr_len =? 0 then ERANGE
      else if negb (at_ attr_data (Z.to_nat (attr_len - 1)) =? 0) then EINVAL
      else rest
  | MNL_TYPE_STRING => if attr_len =? 0 then ERANGE else rest
  | MNL_TYPE_NESTED =>
      if attr_len =? 0 then rest else if attr_len <? Z.of_nat ATTR_HDRLEN then ERANGE else rest
  | _ => rest
  end.

Definition mnl_attr_get_u8 (attr : bytes) : Z := le_value (payload attr 1).
Definition mnl_attr_get_u16 (attr : bytes) : Z := le_value (payload attr 2).
Definition mnl_attr_get_u32 (attr : bytes) : Z := le_value (payload attr 4).
Definition mnl_attr_get_u64 (attr : bytes) : Z := le_value (payload attr 8).
(** A string ends at its NUL, wherever the payload ends. *)
Definition mnl_attr_get_str (attr : bytes) : bytes := cstr (mnl_attr_get_payload attr).

(** [mnl_attr_for_each...] with a callback that may stop it: [len] is what is left
    of the payload.  An attribute takes at least four bytes, so the length of the
    datagram is enough fuel. *)
Fixpoint attr_loop {St} (fuel : nat) (cb : bytes → St → M (Z * St)) (attr : bytes) (len : Z) (ret : Z) (st : St) : M (Z * St) :=
  match fuel with
  | O => mret (ret, st)
  | S fuel' =>
      if negb (mnl_attr_ok attr len) then mret (ret, st)
      else
        r ← cb attr st;
        if r.1 <=? MNL_CB_STOP then mret r
        else attr_loop fuel' cb (mnl_attr_next attr) (len - Z.of_nat (attr_step attr)) r.1 r.2
  end.

Definition mnl_attr_parse_nested {St} (nested : bytes) (cb : bytes → St → M (Z * St)) (st : St) : M (Z * St) :=
  attr_loop (S (length nested)) cb (mnl_attr_get_payload nested) (mnl_attr_get_payload_len nested) MNL_CB_OK st.

(** ** Reading messages *)

(** The fields of the [struct nlmsghdr] at the start of the rest of a datagram. *)
Definition msg_len (nlh : bytes) : Z := le_value (take 4 nlh).
Definition msg_type (nlh : bytes) : Z := le_value (take 2 (drop 4 nlh)).
Definition msg_flags (nlh : bytes) : Z := le_value (take 2 (drop 6 nlh)).
Definition msg_seq (nlh : bytes) : Z := le_value (take 4 (drop 8 nlh)).
Definition msg_pid (nlh : bytes) : Z := le_value (take 4 (drop 12 nlh)).
Definition mnl_nlmsg_get_payload (nlh : bytes) : bytes := drop NLMSG_HDRLEN nlh.

(** [mnl_attr_parse(nlh, offset, cb, data)] *)
Definition mnl_attr_parse {St} (nlh : bytes) (offset : nat) (cb : bytes → St → M (Z * St)) (st : St) : M (Z * St) :=
  let start := (NLMSG_HDRLEN + MNL_ALIGN offset)%nat in
  attr_loop (S (length nlh)) cb (drop start nlh) (Z.of_nat (MNL_ALIGN (Z.to_nat (msg_len nlh))) - Z.of_nat start) MNL_CB_OK st.

Definition mnl_nlmsg_ok (nlh : bytes) (len : Z) : bool :=
  (Z.of_nat NLMSG_HDRLEN <=? len) && (Z.of_nat NLMSG_HDRLEN <=? msg_len nlh) && (s32 (msg_len nlh) <=? len).
Definition mnl_nlmsg_seq_ok (nlh : bytes) (seq : Z) : bool :=
  if truthy (msg_seq nlh) && truthy seq then msg_seq nlh =? seq else true.
Definition mnl_nlmsg_portid_ok (nlh : bytes) (portid : Z) : bool :=
  if truthy (msg_pid nlh) && truthy portid then msg_pid nlh =? portid else true.

(** The control callbacks return a value and a new [errno]. *)
Definition int_at (b : bytes) : Z := s32 (le_value (take 4 b)).

Definition error_cb (nlh : bytes) (errno : Z) : Z * Z :=
  if msg_len nlh <? Z.of_nat (NLMSG_HDRLEN + 20) then (MNL_CB_ERROR, EBADMSG)
  else
    let error := int_at (mnl_nlmsg_get_payload nlh) in
    (if error =? 0 then MNL_CB_STOP else MNL_CB_ERROR, Z.abs error).

(** [mnlg_cb_stop] *)
Definition mnlg_cb_stop (nlh : bytes) (errno : Z) : Z * Z :=
  if truthy (msg_flags nlh .& NLM_F_MULTI) && (msg_len nlh =? Z.of_nat (NLMSG_HDRLEN + 4)) then
    let error := int_at (mnl_nlmsg_get_payload nlh) in
    (if error =? 0 then MNL_CB_STOP else MNL_CB_ERROR, Z.abs error)
  else (MNL_CB_STOP, errno).

(** [mnlg_cb_array] for generic netlink, [default_cb_array] otherwise; [None] where
    no callback is registered. *)
Definition control_cb (generic : bool) (nlh : bytes) (errno : Z) : option (Z * Z) :=
  let t := msg_type nlh in
  if (t =? NLMSG_NOOP) || (t =? NLMSG_OVERRUN) then Some (MNL_CB_OK, errno)
  else if t =? NLMSG_ERROR then Some (error_cb nlh errno)
  else if t =? NLMSG_DONE then Some (if generic then mnlg_cb_stop nlh errno else (MNL_CB_STOP, errno))
  else None.

(** [__mnl_cb_run]: the result and the state, [errno] and the data of the callback. *)
Fixpoint cb_run {X} (fuel : nat) (generic : bool) (cb : option (bytes → Z * X → M (Z * (Z * X)))) (seq portid : Z)
    (nlh : bytes) (len ret : Z) (st : Z * X) : M (Z * (Z * X)) :=
  match fuel with
  | O => mret (ret, st)
  | S fuel' =>
      if negb (mnl_nlmsg_ok nlh len) then mret (ret, st)
      else if negb (mnl_nlmsg_portid_ok nlh portid) then mret (-1, (ESRCH, st.2))
      else if negb (mnl_nlmsg_seq_ok nlh seq) then mret (-1, (EPROTO, st.2))
      else if truthy (msg_flags nlh .& NLM_F_DUMP_INTR) then mret (-1, (EINTR, st.2))
      else
        r ← (if NLMSG_MIN_TYPE <=? msg_type nlh then
               match cb with Some cb => cb nlh st | None => mret (ret, st) end
             else mret (match control_cb generic nlh st.1 with Some (r, e) => (r, (e, st.2)) | None => (ret, st) end));
        if r.1 <=? MNL_CB_STOP then mret r
        else
          let step := MNL_ALIGN (Z.to_nat (msg_len nlh)) in
          cb_run fuel' generic cb seq portid (drop step nlh) (len - Z.of_nat step) r.1 r.2
  end.

Definition mnl_cb_run {X} (generic : bool) (cb : option (bytes → Z * X → M (Z * (Z * X)))) (seq portid : Z)
    (buf : bytes) (st : Z * X) : M (Z * (Z * X)) :=
  cb_run (S (length buf)) generic cb seq portid buf (Z.of_nat (length buf)) MNL_CB_OK st.

(** [mnlg_socket_recv_run] over the results of [mnl_socket_recvfrom] to come, a
    datagram or an [errno]; with none to come the call blocks. *)
Fixpoint mnlg_socket_recv_run {X} (cb : option (bytes → Z * X → M (Z * (Z * X)))) (seq portid : Z)
    (datagrams : list (Z + bytes)) (st : Z * X) : M (Z * (Z * X)) :=
  match datagrams with
  | [] => out_of_fuel
  | inl e :: _ => mret (-1, (e, st.2))
  | inr [] :: _ => mret (0, st)
  | inr buf :: rest =>
      r ← mnl_cb_run true cb seq portid buf st;
      if 0 <? r.1 then mnlg_socket_recv_run cb seq portid rest r.2 else mret r
  end.

(** ** Sockets *)

(** [mnl_socket_open]: 0, or the [errno] of [calloc] or of [socket]. *)
Definition mnl_socket_open (socket_errno : Z) : M Z :=
  nl ← alloc;
  mret (if negb nl then ENOMEM else socket_errno).

Definition CTRL_CMD_GETFAMILY : Z := 3.
Definition CTRL_ATTR_FAMILY_ID : Z := 1.
Definition CTRL_ATTR_FAMILY_NAME : Z := 2.

Section Open.
(** The highest attribute that linux/genetlink.h names. *)
Variable CTRL_ATTR_MAX : Z.

(** Of the attributes it stores only that of the family's number is read: its header
    and payload stand for the pointer to it. *)
Definition attr_bytes (attr : bytes) : bytes := take (Z.to_nat (nla_len attr)) attr.
Definition get_family_id_attr_cb (attr : bytes) (st : Z * option bytes) : M (Z * (Z * option bytes)) :=
  let type := mnl_attr_get_type attr in
  if CTRL_ATTR_MAX <? type then mret (MNL_CB_ERROR, (EOPNOTSUPP, st.2))
  else if (type =? CTRL_ATTR_FAMILY_ID) && truthy (mnl_attr_validate attr MNL_TYPE_U16)
  then mret (MNL_CB_ERROR, (mnl_attr_validate attr MNL_TYPE_U16, st.2))
  else mret (MNL_CB_OK, (st.1, if type =? CTRL_ATTR_FAMILY_ID then Some (attr_bytes attr) else st.2)).

Definition get_family_id_cb (nlh : bytes) (st : Z * Z) : M (Z * (Z * Z)) :=
  r ← mnl_attr_parse nlh 4 get_family_id_attr_cb (st.1, None);
  match r.2.2 with
  | None => mret (MNL_CB_ERROR, (r.2.1, st.2))
  | Some attr => mret (MNL_CB_OK, (r.2.1, mnl_attr_get_u16 attr))
  end.

(** The errors of the calls, and the answer to the question for the family. *)
Variables socket_errno bind_errno : Z.
Variables seq portid : Z.
Variable transact : bytes → Z * list (Z + bytes).

(** [mnlg_socket_open]: the [errno], or the number of the family. *)
Definition mnlg_socket_open (family_name : bytes) : M (Z + Z) :=
  nlg ← alloc;
  if negb nlg then mret (inl ENOMEM)
  else
    buf ← alloc;
    if negb buf then mret (inl ENOMEM)
    else
      err ← mnl_socket_open socket_errno;
      if truthy err then mret (inl err)
      else if truthy bind_errno then mret (inl bind_errno)
      else
        let '(send_errno, answer) := transact (mnl_attr_put_strz (mnlg_msg_prepare CTRL_CMD_GETFAMILY 1) CTRL_ATTR_FAMILY_NAME family_name) in
        if truthy send_errno then mret (inl send_errno)
        else
          r ← mnlg_socket_recv_run (Some get_family_id_cb) seq portid answer (0, 0);
          if r.1 <? 0 then
            let errno := if r.2.1 =? ENOENT then EPROTONOSUPPORT else r.2.1 in
            mret (inl (if truthy errno then errno else ENOSYS))
          else mret (inr r.2.2).
End Open.
