(* ===== verification/NetlinkSpec.v ===== *)
(** * NetlinkSpec: attributes are read the way they are written *)

From Stdlib Require Import Ascii String.
From stdpp Require Import base numbers option sets list list_numbers strings.
From S2P Require Import Prelude CLib Ctype Encoding Containers Field25519 X25519 Netlink.
#[local] Open Scope c_scope.

(** ** The form of an attribute *)

Definition pad (data : bytes) : bytes := replicate (MNL_ALIGN (length data) - length data) 0.
(** An attribute with a value, and one that holds attributes. *)
Definition leaf (t : Z) (data : bytes) : bytes :=
  le_bytes 2 (Z.of_nat (4 + length data)) ++ le_bytes 2 t ++ data ++ pad data.
Definition nest (t : Z) (body : bytes) : bytes :=
  le_bytes 2 (Z.of_nat (4 + length body)) ++ le_bytes 2 (NLA_F_NESTED .| t) ++ body.

#[global] Arguments leaf : simpl never.
#[global] Arguments nest : simpl never.

Definition aligned (b : bytes) : Prop := (length b mod 4 = 0)%nat.

Lemma MNL_ALIGN_spec n : (n <= MNL_ALIGN n < n + 4)%nat ∧ (MNL_ALIGN n mod 4 = 0)%nat.
Proof.
  unfold MNL_ALIGN. pose proof (Nat.div_mod_eq (n + 3) 4). pose proof (Nat.mod_upper_bound (n + 3) 4 ltac:(lia)).
  split; [lia|]. apply Nat.Div0.mod_mul.
Qed.
Lemma MNL_ALIGN_id n : (n mod 4 = 0)%nat → MNL_ALIGN n = n.
Proof.
  intros H. pose proof (MNL_ALIGN_spec n) as [? H']. pose proof (Nat.div_mod_eq n 4). pose proof (Nat.div_mod_eq (MNL_ALIGN n) 4). lia.
Qed.
Lemma MNL_ALIGN_4 n : MNL_ALIGN (4 + n) = (4 + MNL_ALIGN n)%nat.
Proof. unfold MNL_ALIGN. replace (4 + n + 3)%nat with (1 * 4 + (n + 3))%nat by lia. rewrite Nat.div_add_l by lia. lia. Qed.

Lemma pad_length data : length (data ++ pad data) = MNL_ALIGN (length data).
Proof. unfold pad. rewrite length_app, length_replicate. pose proof (MNL_ALIGN_spec (length data)). lia. Qed.

Lemma leaf_length t data : length (leaf t data) = (4 + MNL_ALIGN (length data))%nat.
Proof. unfold leaf. rewrite 2!length_app, !le_bytes_length, pad_length. lia. Qed.
Lemma nest_length t body : length (nest t body) = (4 + length body)%nat.
Proof. unfold nest. rewrite !length_app, !le_bytes_length. lia. Qed.

Lemma leaf_aligned t data : aligned (leaf t data).
Proof. unfold aligned. rewrite leaf_length. destruct (MNL_ALIGN_spec (length data)) as [_ H]. rewrite Nat.add_comm, <- Nat.Div0.add_mod_idemp_l, H. done. Qed.
Lemma nest_aligned t body : aligned body → aligned (nest t body).
Proof. unfold aligned. rewrite nest_length. intros H. by rewrite Nat.add_comm, <- Nat.Div0.add_mod_idemp_l, H. Qed.
Lemma aligned_app a b : aligned a → aligned b → aligned (a ++ b).
Proof. unfold aligned. rewrite length_app. intros Ha Hb. by rewrite Nat.Div0.add_mod, Ha, Hb. Qed.
Lemma aligned_concat l : Forall aligned l → aligned (concat l).
Proof. induction 1; [done|by apply aligned_app]. Qed.

(** ** Writing *)

Lemma put_leaf nlh t data :
  Z.of_nat (4 + length data) < 65536 → 0 <= t < 65536 → mnl_attr_put nlh t data = nlh ++ leaf t data.
Proof. intros. unfold mnl_attr_put, leaf, ATTR_HDRLEN. by rewrite !u16_small by lia. Qed.

Lemma nest_end_spec nlh t body :
  Z.of_nat (4 + length body) < 65536 → 0 <= t < 65536 →
  mnl_attr_nest_end ((mnl_attr_nest_start nlh t).1 ++ body) (mnl_attr_nest_start nlh t).2 = nlh ++ nest t body.
Proof.
  intros Hl Ht. unfold mnl_attr_nest_start, mnl_attr_nest_end, nest. cbn [fst snd]. rewrite (u16_small t) by lia.
  rewrite <- !app_assoc, take_app_length. f_equal.
  rewrite !length_app, !le_bytes_length. cbn [length]. rewrite u16_small by lia. f_equal; [f_equal; lia|].
  replace (length nlh + 2)%nat with (length (nlh ++ [0; 0])) by (rewrite length_app; done).
  rewrite app_assoc. change ([0; 0] ++ ?k) with ([0; 0] ++ k). by rewrite drop_app_length.
Qed.

Lemma nest_cancel_spec nlh t body : mnl_attr_nest_cancel ((mnl_attr_nest_start nlh t).1 ++ body) (mnl_attr_nest_start nlh t).2 = nlh.
Proof. unfold mnl_attr_nest_start, mnl_attr_nest_cancel. cbn [fst snd]. by rewrite <- app_assoc, take_app_length. Qed.

Section Puts.
Variable buflen : Z.
Hypothesis Hbuf : buflen < 65536.

(** A row of checked stores succeeds exactly when all of it fits. *)
Fixpoint put_all (nlh : bytes) (l : list (Z * bytes)) : option bytes :=
  match l with
  | [] => Some nlh
  | (t, data) :: l' => nlh ← mnl_attr_put_check buflen nlh t data; put_all nlh l'
  end.
Definition leaves (l : list (Z * bytes)) : bytes := flat_map (λ x, leaf x.1 x.2) l.

Lemma put_all_app nlh l k : put_all nlh (l ++ k) = (nlh ← put_all nlh l; put_all nlh k).
Proof. revert nlh. induction l as [|[t data] l IH]; intros nlh; [done|]. cbn. destruct (mnl_attr_put_check _ _ _ _); [apply IH|done]. Qed.

Lemma put_check_spec nlh t data :
  0 <= t < 65536 →
  mnl_attr_put_check buflen nlh t data =
    if buflen <? nlmsg_len (nlh ++ leaf t data) then None else Some (nlh ++ leaf t data).
Proof.
  intros Ht. unfold mnl_attr_put_check, nlmsg_len, ATTR_HDRLEN. rewrite length_app, leaf_length.
  replace (_ + Z.of_nat 4 + _) with (Z.of_nat (NLMSG_HDRLEN + (length nlh + (4 + MNL_ALIGN (length data))))) by lia.
  destruct (Z.ltb_spec buflen (Z.of_nat (NLMSG_HDRLEN + (length nlh + (4 + MNL_ALIGN (length data)))))); [done|].
  rewrite put_leaf; [done| |done]. pose proof (MNL_ALIGN_spec (length data)). lia.
Qed.

Lemma put_all_spec nlh l :
  Forall (λ x, 0 <= x.1 < 65536) l → nlmsg_len nlh <= buflen →
  put_all nlh l = if buflen <? nlmsg_len (nlh ++ leaves l) then None else Some (nlh ++ leaves l).
Proof.
  intros Hl. revert nlh. induction Hl as [|[t data] l Ht _ IH]; intros nlh Hn; cbn [put_all].
  { unfold leaves. cbn [flat_map]. rewrite app_nil_r. by rewrite (proj2 (Z.ltb_ge _ _)) by lia. }
  rewrite put_check_spec by done. change (leaves ((t, data) :: l)) with (leaf t data ++ leaves l). rewrite app_assoc.
  destruct (Z.ltb_spec buflen (nlmsg_len (nlh ++ leaf t data))) as [H|H]; cbn [mbind option_bind].
  - rewrite (proj2 (Z.ltb_lt buflen (nlmsg_len ((nlh ++ leaf t data) ++ leaves l)))); [done|].
    unfold nlmsg_len in *. rewrite (length_app _ (leaves l)). lia.
  - by apply IH.
Qed.
End Puts.

(** ** Reading *)

(** Whatever follows it, [x] reads as one attribute of type [t] with this payload. *)
Record is_attr (x : bytes) (t : Z) (data : bytes) : Prop := {
  a_type tail : mnl_attr_get_type (x ++ tail) = t;
  a_len tail : nla_len (x ++ tail) = Z.of_nat (4 + length data);
  a_payload tail : ∃ rest, mnl_attr_get_payload (x ++ tail) = data ++ rest;
  a_align : length x = (4 + MNL_ALIGN (length data))%nat;
  a_small : Z.of_nat (4 + length data) < 65536;
}.

Lemma le2_value x : 0 <= x < 65536 → le_value (le_bytes 2 x) = x.
Proof. intros Hx. cbn. Z.to_euclidean_division_equations. lia. Qed.

Lemma type_mask t : 0 <= t < 2 ^ 14 → t .& NLA_TYPE_MASK = t ∧ (NLA_F_NESTED .| t) .& NLA_TYPE_MASK = t.
Proof.
  intros Ht. assert (H : t .& NLA_TYPE_MASK = t).
  { change NLA_TYPE_MASK with (Z.ones 14). rewrite Z.land_ones by lia. by apply Z.mod_small. }
  split; [done|]. by rewrite Z.land_lor_distr_l, H.
Qed.

Lemma nested_add t : 0 <= t < 2 ^ 14 → NLA_F_NESTED .| t = NLA_F_NESTED + t.
Proof.
  intros Ht. assert (H : NLA_F_NESTED .& t = 0).
  { apply Z.bits_inj'. intros i Hi. rewrite Z.land_spec, Z.bits_0. unfold NLA_F_NESTED. change 0x8000 with (2 ^ 15).
    destruct (decide (i = 15)) as [->|Hne]; [|by rewrite Z.pow2_bits_false by lia].
    rewrite <- (Z.mod_small t (2 ^ 14)), (Z.mod_pow2_bits_high t 14) by lia.
    apply andb_false_r. }
  by rewrite <- Z.lxor_lor, Z.add_nocarry_lxor by done.
Qed.

(** Both forms are attributes: [body] is the payload with its padding. *)
Lemma header_is_attr t t' n data body rest :
  body = data ++ rest → length data = n → length body = MNL_ALIGN n →
  Z.of_nat (4 + n) < 65536 → 0 <= t' < 65536 → t' .& NLA_TYPE_MASK = t →
  is_attr (le_bytes 2 (Z.of_nat (4 + n)) ++ le_bytes 2 t' ++ body) t data.
Proof.
  intros -> <- Hb Hn Ht' Ht. split; intros; unfold mnl_attr_get_type, nla_len, nla_type, mnl_attr_get_payload, ATTR_HDRLEN.
  - by rewrite <- !app_assoc, (drop_app_length' _ _ 2), take_app_length', le2_value.
  - rewrite <- !app_assoc, take_app_length', le2_value by (done || lia). done.
  - rewrite app_assoc, <- (app_assoc _ (data ++ rest)), drop_app_length' by done. rewrite <- app_assoc. by eexists.
  - rewrite 2!length_app, !le_bytes_length, Hb. lia.
  - done.
Qed.

Lemma leaf_is_attr t data : 0 <= t < 2 ^ 14 → Z.of_nat (4 + length data) < 65536 → is_attr (leaf t data) t data.
Proof. intros Ht Hl. eapply header_is_attr; try done; [apply pad_length|lia|by apply type_mask]. Qed.
Lemma nest_is_attr t body : 0 <= t < 2 ^ 14 → Z.of_nat (4 + length body) < 65536 → aligned body → is_attr (nest t body) t body.
Proof.
  intros Ht Hl Ha. eapply header_is_attr; try done; [by rewrite app_nil_r|by rewrite MNL_ALIGN_id| |by apply type_mask].
  rewrite nested_add by done. unfold NLA_F_NESTED. lia.
Qed.

Section Attr.
Context (x : bytes) (t : Z) (data : bytes) (A : is_attr x t data).

Lemma a_payload_len tail : mnl_attr_get_payload_len (x ++ tail) = Z.of_nat (length data).
Proof.
  unfold mnl_attr_get_payload_len. rewrite (a_len _ _ _ A). pose proof (a_small _ _ _ A). rewrite u16_small; unfold ATTR_HDRLEN; lia.
Qed.
Lemma a_step tail : attr_step (x ++ tail) = length x.
Proof. unfold attr_step. by rewrite (a_len _ _ _ A), Nat2Z.id, MNL_ALIGN_4, (a_align _ _ _ A). Qed.
Lemma a_next tail : mnl_attr_next (x ++ tail) = tail.
Proof. unfold mnl_attr_next. by rewrite a_step, drop_app_length. Qed.
Lemma a_ok tail len : Z.of_nat (length x) <= len → mnl_attr_ok (x ++ tail) len = true.
Proof.
  intros Hl. unfold mnl_attr_ok, ATTR_HDRLEN. rewrite (a_len _ _ _ A). pose proof (a_align _ _ _ A). pose proof (MNL_ALIGN_spec (length data)).
  rewrite !andb_true_iff, !Z.leb_le. lia.
Qed.
Lemma a_take tail n : (n <= length data)%nat → payload (x ++ tail) n = take n data.
Proof. intros Hn. unfold payload. destruct (a_payload _ _ _ A tail) as [rest ->]. by rewrite take_app_le. Qed.
Lemma a_all tail n : n = length data → payload (x ++ tail) n = data.
Proof. intros ->. rewrite a_take by done. by apply take_ge. Qed.
End Attr.

(** ** Loops over attributes

    [reads cb b st st']: with allocations that succeed, the loop passes over the
    attributes [b] and takes the state from [st] to [st']. *)
Definition reads {St} (cb : bytes → St → M (Z * St)) (b : bytes) (st st' : St) : Prop :=
  ∃ k, (k <= length b)%nat ∧ ∀ fuel tail n,
    0 <= n → attr_loop (k + fuel) cb (b ++ tail) (Z.of_nat (length b) + n) MNL_CB_OK st [] = attr_loop fuel cb tail n MNL_CB_OK st' [].

Section Reads.
Context {St : Type} (cb : bytes → St → M (Z * St)).

Lemma reads_nil st : reads cb [] st st.
Proof. by exists O. Qed.

Lemma read_app b1 b2 st st1 st2 : reads cb b1 st st1 → reads cb b2 st1 st2 → reads cb (b1 ++ b2) st st2.
Proof.
  intros (k1 & Hk1 & H1) (k2 & Hk2 & H2). exists (k1 + k2)%nat. rewrite length_app. split; [lia|]. intros fuel tail n Hn.
  rewrite <- Nat.add_assoc, <- app_assoc, Nat2Z.inj_add, <- Z.add_assoc, H1, H2 by lia. done.
Qed.

Lemma reads_attr x t data st st' :
  is_attr x t data → (∀ tail, cb (x ++ tail) st [] = Done ((MNL_CB_OK, st'), [])) → reads cb x st st'.
Proof.
  intros A Hcb. exists 1%nat. split; [rewrite (a_align _ _ _ A); lia|]. intros fuel tail n Hn. cbn [Nat.add attr_loop].
  rewrite (a_ok _ _ _ A) by lia. cbn [negb]. unfold mbind, M_bind. rewrite Hcb. cbn [fst snd].
  change (MNL_CB_OK <=? MNL_CB_STOP) with false. cbn iota.
  rewrite (a_next _ _ _ A), (a_step _ _ _ A). f_equal. lia.
Qed.

Lemma reads_if (b : bool) x st st' : (b = true → reads cb x st st') → (b = false → st' = st) → reads cb (if b then x else []) st st'.
Proof. destruct b; intros H1 H2; [by apply H1|rewrite H2 by done; apply reads_nil]. Qed.

(** A list of attributes, with an invariant of the state. *)
Lemma reads_list {A} (enc : A → bytes) (step : A → St → St) (P : A → Prop) (Inv : St → Prop) l st :
  (∀ a st, P a → Inv st → reads cb (enc a) st (step a st) ∧ Inv (step a st)) →
  Forall P l → Inv st → reads cb (flat_map enc l) st (fold_left (flip step) l st) ∧ Inv (fold_left (flip step) l st).
Proof.
  intros H Hl. revert st. induction Hl as [|a l Ha _ IH]; intros st Hst; [split; [apply reads_nil|done]|]. cbn.
  destruct (H a st Ha Hst) as [Hr Hi]. destruct (IH _ Hi) as [Hr' Hi']. split; [|done]. by eapply read_app.
Qed.

Lemma loop_end fuel b n st : n < 4 → attr_loop fuel cb b n MNL_CB_OK st [] = Done ((MNL_CB_OK, st), []).
Proof.
  intros Hn. destruct fuel; [done|]. cbn [attr_loop]. unfold mnl_attr_ok, ATTR_HDRLEN.
  by rewrite (proj2 (Z.leb_gt (Z.of_nat 4) n)) by lia.
Qed.

Lemma read_run b st st' fuel tail :
  reads cb b st st' → (length b <= fuel)%nat →
  attr_loop fuel cb (b ++ tail) (Z.of_nat (length b)) MNL_CB_OK st [] = Done ((MNL_CB_OK, st'), []).
Proof.
  intros (k & Hk & H) Hf. replace fuel with (k + (fuel - k))%nat by lia.
  rewrite <- (Z.add_0_r (Z.of_nat (length b))), H by done. by apply loop_end.
Qed.

Lemma reads_nested x t data tail st st' :
  is_attr x t data → reads cb data st st' → mnl_attr_parse_nested (x ++ tail) cb st [] = Done ((MNL_CB_OK, st'), []).
Proof.
  intros A H. unfold mnl_attr_parse_nested. rewrite (a_payload_len _ _ _ A). destruct (a_payload _ _ _ A tail) as [rest ->].
  apply read_run; [done|]. rewrite length_app, (a_align _ _ _ A). pose proof (MNL_ALIGN_spec (length data)). lia.
Qed.
End Reads.

(** ** Any datagram *)

(** [cb], except that an attribute that reaches into the last [stop] bytes of the
    datagram is an error. *)
Definition guarded {St} (stop : Z) (cb : bytes → St → M (Z * St)) (attr : bytes) (st : St) : M (Z * St) :=
  if (Z.of_nat ATTR_HDRLEN <=? nla_len attr) && (nla_len attr + stop <=? Z.of_nat (length attr)) then cb attr st else undefined.

Lemma attr_loop_guarded {St} stop (cb : bytes → St → M (Z * St)) fuel fuel' attr len ret st o :
  len + stop <= Z.of_nat (length attr) → 0 <= stop → (length attr < fuel)%nat → (length attr < fuel')%nat →
  attr_loop fuel (guarded stop cb) attr len ret st o = attr_loop fuel' cb attr len ret st o.
Proof.
  intros Hlen Hstop. revert fuel' attr len ret st o Hlen. induction fuel as [|fuel IH]; intros fuel' attr len ret st o Hlen Hf Hf'; [lia|].
  destruct fuel' as [|fuel']; [lia|]. cbn [attr_loop]. destruct (mnl_attr_ok attr len) eqn:Hok; cbn [negb]; [|done].
  unfold mnl_attr_ok, ATTR_HDRLEN in Hok. rewrite !andb_true_iff, !Z.leb_le in Hok. destruct Hok as [[H4 Hh] Hl].
  unfold mbind, M_bind. unfold guarded at 1. unfold ATTR_HDRLEN.
  rewrite (proj2 (Z.leb_le _ (nla_len attr))), (proj2 (Z.leb_le (nla_len attr + stop) _)) by lia. cbn [andb].
  destruct (cb attr st o) as [[[r st'] o']| | |]; [|done..]. cbn [fst snd]. destruct (r <=? MNL_CB_STOP); [done|].
  assert (Hstep : (4 <= attr_step attr)%nat) by (unfold attr_step; pose proof (MNL_ALIGN_spec (Z.to_nat (nla_len attr))); lia).
  apply IH; unfold mnl_attr_next; rewrite length_drop; lia.
Qed.

(** On any bytes, [mnl_attr_parse_nested] hands its callback only attributes whose
    header and payload lie within the attribute that is parsed, and it ends: more
    steps than bytes make no difference. *)
Theorem attr_parse_in_bounds {St} (cb : bytes → St → M (Z * St)) (nested : bytes) (st : St) (o : allocs) (fuel : nat)
    (Hhdr : Z.of_nat ATTR_HDRLEN <= nla_len nested < 65536) (Hlen : nla_len nested <= Z.of_nat (length nested))
    (Hf : (length nested < fuel)%nat) :
  attr_loop fuel (guarded (Z.of_nat (length nested) - nla_len nested) cb)
    (mnl_attr_get_payload nested) (mnl_attr_get_payload_len nested) MNL_CB_OK st o = mnl_attr_parse_nested nested cb st o.
Proof.
  unfold mnl_attr_parse_nested, mnl_attr_get_payload, mnl_attr_get_payload_len. unfold ATTR_HDRLEN in *.
  apply attr_loop_guarded; rewrite ?length_drop; [|lia..]. rewrite u16_small by lia. lia.
Qed.

(** Two attributes, the second of which claims more bytes than are left. *)
Lemma attr_parse_in_bounds_witness :
  attr_loop 20 (guarded 2 (λ attr st, mret (MNL_CB_OK, st ++ [mnl_attr_get_type attr])))
    [4; 0; 1; 0; 9; 0; 2; 0; 7; 7] 8 MNL_CB_OK [] [] = Done ((MNL_CB_OK, [1]), []).
Proof.
  rewrite (attr_parse_in_bounds (λ attr st, mret (MNL_CB_OK, st ++ [mnl_attr_get_type attr]))
             [12; 0; 3; 128; 4; 0; 1; 0; 9; 0; 2; 0; 7; 7] [] [] 20); [reflexivity|by vm_compute|by vm_compute|cbn; lia].
Defined.
