(* ===== verification/IpcLinux.v ===== *)
(** * IpcLinux: ipc-linux.h, the Linux kernel's side

    [kernel_set_device] writes a device as netlink messages, splitting it where
    the buffer is full; [kernel_get_device] reads one back and joins the pieces
    of a peer; [kernel_get_wireguard_interfaces] asks for the names. *)

From Stdlib Require Import Ascii String.
From stdpp Require Import base numbers option sets list list_numbers strings.
From S2P Require Import Prelude CLib Ctype Encoding Containers Config Setconf Field25519 Ipc Netlink.
#[local] Open Scope c_scope.

(** ** linux/wireguard.h *)

Definition WG_GENL_NAME : bytes := str "wireguard".
Definition WG_GENL_VERSION : Z := 1.
Definition WG_CMD_GET_DEVICE : Z := 0.
Definition WG_CMD_SET_DEVICE : Z := 1.
Definition WGDEVICE_F_REPLACE_PEERS : Z := 1 .<< 0.
Definition WGDEVICE_A_IFINDEX : Z := 1.
Definition WGDEVICE_A_IFNAME : Z := 2.
Definition WGDEVICE_A_PRIVATE_KEY : Z := 3.
Definition WGDEVICE_A_PUBLIC_KEY : Z := 4.
Definition WGDEVICE_A_FLAGS : Z := 5.
Definition WGDEVICE_A_LISTEN_PORT : Z := 6.
Definition WGDEVICE_A_FWMARK : Z := 7.
Definition WGDEVICE_A_PEERS : Z := 8.
Definition WGPEER_F_REMOVE_ME : Z := 1 .<< 0.
Definition WGPEER_F_REPLACE_ALLOWEDIPS : Z := 1 .<< 1.
Definition WGPEER_A_PUBLIC_KEY : Z := 1.
Definition WGPEER_A_PRESHARED_KEY : Z := 2.
Definition WGPEER_A_FLAGS : Z := 3.
Definition WGPEER_A_ENDPOINT : Z := 4.
Definition WGPEER_A_PERSISTENT_KEEPALIVE_INTERVAL : Z := 5.
Definition WGPEER_A_LAST_HANDSHAKE_TIME : Z := 6.
Definition WGPEER_A_RX_BYTES : Z := 7.
Definition WGPEER_A_TX_BYTES : Z := 8.
Definition WGPEER_A_ALLOWEDIPS : Z := 9.
Definition WGALLOWEDIP_A_FAMILY : Z := 1.
Definition WGALLOWEDIP_A_IPADDR : Z := 2.
Definition WGALLOWEDIP_A_CIDR_MASK : Z := 3.
Definition WGALLOWEDIP_A_FLAGS : Z := 4.

(** ** Socket addresses in memory

    The port is in network order; an empty [sin6_extra] stands for flow
    information and scope zero. *)

Definition be16 (x : Z) : bytes := [x / 256; x mod 256].
Definition extra_bytes (sa : sockaddr) : bytes := if sin6_extra sa is [] then replicate 8 0 else sin6_extra sa.
Definition sockaddr_bytes (sa : sockaddr) : bytes :=
  le_bytes 2 (sa_family sa) ++ be16 (sin_port sa) ++
  (if sa_family sa =? AF_INET then sin_addr sa ++ replicate 8 0
   else take 4 (extra_bytes sa) ++ sin_addr sa ++ drop 4 (extra_bytes sa)).

Definition sockaddr_family (b : bytes) : Z := le_value (take 2 b).
Definition sockaddr_of (b : bytes) : sockaddr :=
  let port := at_ b 2 * 256 + at_ b 3 in
  if sockaddr_family b =? AF_INET
  then {| sa_family := AF_INET; sin_port := port; sin_addr := take 4 (drop 4 b); sin6_extra := [] |}
  else
    let extra := take 4 (drop 4 b) ++ take 4 (drop 24 b) in
    {| sa_family := sockaddr_family b; sin_port := port; sin_addr := take 16 (drop 8 b);
       sin6_extra := if bool_decide (extra = replicate 8 0) then [] else extra |}.

Section Set_.
(** SOCKET_BUFFER_SIZE *)
Variable SBS : Z.

Abbreviation put := (mnl_attr_put_check SBS).
Abbreviation put_u8 := (mnl_attr_put_u8_check SBS).
Abbreviation put_u16 := (mnl_attr_put_u16_check SBS).
Abbreviation put_u32 := (mnl_attr_put_u32_check SBS).

(** ** kernel_set_device *)

(** The attributes of an allowed address, between the two ends of its nest. *)
Definition put_ip_attrs (nlh : bytes) (a : wgallowedip) : option bytes :=
  nlh ← put_u16 nlh WGALLOWEDIP_A_FAMILY (family a);
  nlh ← (if family a =? AF_INET then put nlh WGALLOWEDIP_A_IPADDR (ip4 a)
         else if family a =? AF_INET6 then put nlh WGALLOWEDIP_A_IPADDR (ip6 a)
         else Some nlh);
  nlh ← put_u8 nlh WGALLOWEDIP_A_CIDR_MASK (cidr a);
  if truthy (ai_flags a) then put_u32 nlh WGALLOWEDIP_A_FLAGS (ai_flags a) else Some nlh.

(** The loop over the allowed addresses: the message, without a piece of an address
    that did not fit, and the addresses that are left. *)
Fixpoint put_ips (nlh : bytes) (ips : list wgallowedip) : bytes * list wgallowedip :=
  match ips with
  | [] => (nlh, [])
  | a :: rest =>
      match mnl_attr_nest_start_check SBS nlh 0 with
      | None => (nlh, ips)
      | Some (nlh1, allowedip_nest) =>
          (* a failed store leaves the stores before it, which the cancellation removes *)
          match put_ip_attrs nlh1 a with
          | None => (mnl_attr_nest_cancel nlh1 allowedip_nest, ips)
          | Some nlh2 => put_ips (mnl_attr_nest_end nlh2 allowedip_nest) rest
          end
      end
  end.

(** The attributes of a peer before its addresses; [allowedip] is not empty when the
    peer is continued. *)
Definition put_peer_attrs (nlh : bytes) (p : wgpeer) (allowedip : list wgallowedip) : option bytes :=
  nlh ← put nlh WGPEER_A_PUBLIC_KEY (p_public_key p);
  let fl := if has_flag (p_flags p) WGPEER_REMOVE_ME then WGPEER_F_REMOVE_ME else 0 in
  r ← (if negb (Nat.eqb (length allowedip) 0) then Some (nlh, fl)
       else
         let fl := if has_flag (p_flags p) WGPEER_REPLACE_ALLOWEDIPS then fl .| WGPEER_F_REPLACE_ALLOWEDIPS else fl in
         nlh ← (if has_flag (p_flags p) WGPEER_HAS_PRESHARED_KEY then put nlh WGPEER_A_PRESHARED_KEY (preshared_key p) else Some nlh);
         nlh ← (if sa_family (endpoint p) =? AF_INET then put nlh WGPEER_A_ENDPOINT (sockaddr_bytes (endpoint p))
                else if sa_family (endpoint p) =? AF_INET6 then put nlh WGPEER_A_ENDPOINT (sockaddr_bytes (endpoint p))
                else Some nlh);
         nlh ← (if has_flag (p_flags p) WGPEER_HAS_PERSISTENT_KEEPALIVE_INTERVAL
                then put_u16 nlh WGPEER_A_PERSISTENT_KEEPALIVE_INTERVAL (persistent_keepalive_interval p) else Some nlh);
         Some (nlh, fl));
  if truthy r.2 then put_u32 r.1 WGPEER_A_FLAGS r.2 else Some r.1.

(** One peer: it did not fit at all ([toobig_peers]), or the message with its nest
    ended and the addresses that are left. *)
Definition put_peer (nlh : bytes) (p : wgpeer) (allowedip : list wgallowedip) : bytes + bytes * list wgallowedip :=
  match mnl_attr_nest_start_check SBS nlh 0 with
  | None => inl nlh
  | Some (nlh1, peer_nest) =>
      match put_peer_attrs nlh1 p allowedip with
      | None => inl (mnl_attr_nest_cancel nlh1 peer_nest)
      | Some nlh2 =>
          match allowedips p with
          | [] => inr (mnl_attr_nest_end nlh2 peer_nest, [])
          | _ =>
              let allowedip := if negb (Nat.eqb (length allowedip) 0) then allowedip else allowedips p in
              match mnl_attr_nest_start_check SBS nlh2 WGPEER_A_ALLOWEDIPS with
              | None => inr (mnl_attr_nest_end nlh2 peer_nest, allowedip)
              | Some (nlh3, allowedips_nest) =>
                  let '(nlh4, rest) := put_ips nlh3 allowedip in
                  inr (mnl_attr_nest_end (mnl_attr_nest_end nlh4 allowedips_nest) peer_nest, rest)
              end
          end
      end
  end.

(** The loop over the peers: the message, and the values of [peer] and [allowedip]
    when it is sent. *)
Fixpoint put_peers (nlh : bytes) (ps : list wgpeer) (allowedip : list wgallowedip) : bytes * list wgpeer * list wgallowedip :=
  match ps with
  | [] => (nlh, [], allowedip)
  | p :: next =>
      match put_peer nlh p allowedip with
      | inl nlh => (nlh, ps, allowedip)
      | inr (nlh, []) => put_peers nlh next []
      | inr (nlh, rest) => (nlh, ps, rest)
      end
  end.

Definition put_device_attrs (nlh : bytes) (d : wgdevice) : bytes :=
  let nlh := if has_flag (flags d) WGDEVICE_HAS_PRIVATE_KEY then mnl_attr_put nlh WGDEVICE_A_PRIVATE_KEY (private_key d) else nlh in
  let nlh := if has_flag (flags d) WGDEVICE_HAS_LISTEN_PORT then mnl_attr_put_u16 nlh WGDEVICE_A_LISTEN_PORT (listen_port d) else nlh in
  let nlh := if has_flag (flags d) WGDEVICE_HAS_FWMARK then mnl_attr_put_u32 nlh WGDEVICE_A_FWMARK (fwmark d) else nlh in
  if has_flag (flags d) WGDEVICE_REPLACE_PEERS then mnl_attr_put_u32 nlh WGDEVICE_A_FLAGS WGDEVICE_F_REPLACE_PEERS else nlh.

(** From [again] to [send]: [peer] is [None] the first time. *)
Definition set_message (d : wgdevice) (peer : option (list wgpeer)) (allowedip : list wgallowedip)
    : bytes * list wgpeer * list wgallowedip :=
  let nlh := mnl_attr_put_strz (mnlg_msg_prepare WG_CMD_SET_DEVICE WG_GENL_VERSION) WGDEVICE_A_IFNAME (name d) in
  let nlh := if peer is None then put_device_attrs nlh d else nlh in
  match peers d with
  | [] => (nlh, [], allowedip)
  | _ =>
      let '(nlh, peers_nest) := mnl_attr_nest_start nlh WGDEVICE_A_PEERS in
      let '(nlh, rest, allowedip) := put_peers nlh (default (peers d) peer) allowedip in
      (mnl_attr_nest_end nlh peers_nest, rest, allowedip)
  end.

(** The socket: [mnlg_socket_open], which ends in an [errno] or the number of the
    family; for the [n]-th message the [errno] of sending it, 0 when it was sent, and
    the datagrams that answer it. *)
Variable socket_open : M (Z + Z).
Variables seq portid : Z.
Variable transact : nat → bytes → Z * list (Z + bytes).

(** From [send] on: the value of [ret]. *)
Definition set_send (n : nat) (nlh : bytes) : M Z :=
  let '(send_errno, answer) := transact n nlh in
  if truthy send_errno then mret (- send_errno)
  else
    r ← mnlg_socket_recv_run None seq portid answer (0, ());
    mret (if r.1 <? 0 then if truthy r.2.1 then - r.2.1 else - EINVAL else 0).

(** The messages sent, and the result. *)
Fixpoint set_loop (fuel : nat) (n : nat) (d : wgdevice) (peer : option (list wgpeer)) (allowedip : list wgallowedip)
    : M (list bytes * Z) :=
  match fuel with
  | O => out_of_fuel
  | S fuel' =>
      let '(nlh, rest, allowedip) := set_message d peer allowedip in
      ret ← set_send n nlh;
      if truthy ret then mret ([nlh], ret)
      else match rest with
      | [] => mret ([nlh], ret)
      | _ => r ← set_loop fuel' (S n) d (Some rest) allowedip; mret (nlh :: r.1, r.2)
      end
  end.

(** A message moves on by a peer or by an address. *)
Definition set_fuel (d : wgdevice) : nat := S (length (peers d) + length (flat_map allowedips (peers d))).
Definition kernel_set_device (d : wgdevice) : M (list bytes * Z) :=
  nlg ← socket_open;
  match nlg with
  | inl errno => mret ([], - errno)
  | inr _ => set_loop (set_fuel d) 0 d None []
  end.
End Set_.

(** ** kernel_get_device

    The callbacks run on [errno] and the object they fill in. *)

Definition with_errno {X} (e : Z) (st : Z * X) : Z * X := (e, st.2).

(** [if (!mnl_attr_validate(attr, type)) store]: a failed validation sets [errno]. *)
Definition validated {X} (attr : bytes) (t : mnl_attr_data_type) (st : Z * X) (store : X → X) : M (Z * (Z * X)) :=
  let err := mnl_attr_validate attr t in
  mret (MNL_CB_OK, if negb (truthy err) then (st.1, store st.2) else with_errno err st).

Definition parse_allowedip (attr : bytes) (st : Z * wgallowedip) : M (Z * (Z * wgallowedip)) :=
  let t := mnl_attr_get_type attr in
  let len := mnl_attr_get_payload_len attr in
  if t =? WGALLOWEDIP_A_FAMILY then validated attr MNL_TYPE_U16 st (set_family (mnl_attr_get_u16 attr))
  else if t =? WGALLOWEDIP_A_IPADDR then
    mret (MNL_CB_OK, (st.1, if len =? 4 then store_ip (payload attr 4) st.2
                            else if len =? 16 then store_ip (payload attr 16) st.2 else st.2))
  else if t =? WGALLOWEDIP_A_CIDR_MASK then validated attr MNL_TYPE_U8 st (set_cidr (mnl_attr_get_u8 attr))
  else mret (MNL_CB_OK, st).

(** [last_allowedip] is the position of the last node. *)
Definition add_allowedip (a : wgallowedip) (p : wgpeer) : wgpeer :=
  set_last_allowedip (Some (next_pos (last_allowedip p))) (set_allowedips (link_after (allowedips p) (last_allowedip p) a) p).
(** What [peer->last_allowedip] points to has been filled in. *)
Definition put_last_allowedip (a : wgallowedip) (p : wgpeer) : wgpeer :=
  set_allowedips (alter (λ _, a) (length (allowedips p) - 1)%nat (allowedips p)) p.

Definition parse_allowedips (attr : bytes) (st : Z * wgpeer) : M (Z * (Z * wgpeer)) :=
  new_allowedip ← alloc;
  if negb new_allowedip then mret (MNL_CB_ERROR, with_errno ENOMEM st)
  else
    let p := add_allowedip wgallowedip_zero st.2 in
    r ← mnl_attr_parse_nested attr parse_allowedip (st.1, wgallowedip_zero);
    let a := r.2.2 in
    let st := (r.2.1, put_last_allowedip a p) in
    if r.1 =? 0 then mret (r.1, st)
    else if negb (((family a =? AF_INET) && (cidr a <=? 32)) || ((family a =? AF_INET6) && (cidr a <=? 128)))
    then mret (MNL_CB_ERROR, st)
    else mret (MNL_CB_OK, st).

(** An [int64_t] in memory. *)
Definition s64_at (b : bytes) : Z := let x := le_value (take 8 b) in if 2 ^ 63 <=? x then x - 2 ^ 64 else x.

Definition parse_peer (attr : bytes) (st : Z * wgpeer) : M (Z * (Z * wgpeer)) :=
  let t := mnl_attr_get_type attr in
  let len := mnl_attr_get_payload_len attr in
  let ok (p : wgpeer) : M (Z * (Z * wgpeer)) := mret (MNL_CB_OK, (st.1, p)) in
  let p := st.2 in
  if t =? WGPEER_A_PUBLIC_KEY then
    ok (if len =? 32 then set_p_flags (set_flag (p_flags p) WGPEER_HAS_PUBLIC_KEY) (set_p_public_key (payload attr 32) p) else p)
  else if t =? WGPEER_A_PRESHARED_KEY then
    ok (if len =? 32 then
          let p := set_preshared_key (payload attr 32) p in
          if negb (key_is_zero (preshared_key p)) then set_p_flags (set_flag (p_flags p) WGPEER_HAS_PRESHARED_KEY) p else p
        else p)
  else if t =? WGPEER_A_ENDPOINT then
    ok (if len <? 16 then p
        else
          let addr := payload attr (Z.to_nat len) in
          if (sockaddr_family addr =? AF_INET) && (len =? SIZEOF_SOCKADDR_IN) then set_endpoint (sockaddr_of addr) p
          else if (sockaddr_family addr =? AF_INET6) && (len =? SIZEOF_SOCKADDR_IN6) then set_endpoint (sockaddr_of addr) p
          else p)
  else if t =? WGPEER_A_PERSISTENT_KEEPALIVE_INTERVAL then validated attr MNL_TYPE_U16 st (set_keepalive (mnl_attr_get_u16 attr))
  else if t =? WGPEER_A_LAST_HANDSHAKE_TIME then
    ok (if len =? 16 then set_tv_nsec (s64_at (drop 8 (payload attr 16))) (set_tv_sec (s64_at (payload attr 16)) p) else p)
  else if t =? WGPEER_A_RX_BYTES then validated attr MNL_TYPE_U64 st (set_rx_bytes (mnl_attr_get_u64 attr))
  else if t =? WGPEER_A_TX_BYTES then validated attr MNL_TYPE_U64 st (set_tx_bytes (mnl_attr_get_u64 attr))
  else if t =? WGPEER_A_ALLOWEDIPS then mnl_attr_parse_nested attr parse_allowedips st
  else ok p.

Definition add_peer (p : wgpeer) (d : wgdevice) : wgdevice :=
  set_last_peer (Some (next_pos (last_peer d))) (set_peers (link_after (peers d) (last_peer d) p) d).
Definition put_last_peer (p : wgpeer) (d : wgdevice) : wgdevice := update_peer (length (peers d) - 1)%nat (λ _, p) d.

Definition parse_peers (attr : bytes) (st : Z * wgdevice) : M (Z * (Z * wgdevice)) :=
  new_peer ← alloc;
  if negb new_peer then mret (MNL_CB_ERROR, with_errno ENOMEM st)
  else
    let d := add_peer wgpeer_zero st.2 in
    r ← mnl_attr_parse_nested attr parse_peer (st.1, wgpeer_zero);
    let st := (r.2.1, put_last_peer r.2.2 d) in
    if r.1 =? 0 then mret (r.1, st)
    else if negb (has_flag (p_flags r.2.2) WGPEER_HAS_PUBLIC_KEY) then mret (MNL_CB_ERROR, st)
    else mret (MNL_CB_OK, st).

Definition parse_device (attr : bytes) (st : Z * wgdevice) : M (Z * (Z * wgdevice)) :=
  let t := mnl_attr_get_type attr in
  let len := mnl_attr_get_payload_len attr in
  let ok (d : wgdevice) : M (Z * (Z * wgdevice)) := mret (MNL_CB_OK, (st.1, d)) in
  let d := st.2 in
  if t =? WGDEVICE_A_IFINDEX then validated attr MNL_TYPE_U32 st (set_ifindex (mnl_attr_get_u32 attr))
  else if t =? WGDEVICE_A_IFNAME then validated attr MNL_TYPE_STRING st (store_name (mnl_attr_get_str attr))
  else if t =? WGDEVICE_A_PRIVATE_KEY then
    ok (if len =? 32 then set_flags (set_flag (flags d) WGDEVICE_HAS_PRIVATE_KEY) (set_private_key (payload attr 32) d) else d)
  else if t =? WGDEVICE_A_PUBLIC_KEY then
    ok (if len =? 32 then set_flags (set_flag (flags d) WGDEVICE_HAS_PUBLIC_KEY) (set_public_key (payload attr 32) d) else d)
  else if t =? WGDEVICE_A_LISTEN_PORT then validated attr MNL_TYPE_U16 st (set_listen_port (mnl_attr_get_u16 attr))
  else if t =? WGDEVICE_A_FWMARK then validated attr MNL_TYPE_U32 st (set_fwmark (mnl_attr_get_u32 attr))
  else if t =? WGDEVICE_A_PEERS then mnl_attr_parse_nested attr parse_peers st
  else ok d.

Definition read_device_cb (nlh : bytes) (st : Z * wgdevice) : M (Z * (Z * wgdevice)) := mnl_attr_parse nlh 4 parse_device st.

(** [coalesce_peers], from [peer] on: a peer takes over the addresses of the next one
    with the same key.  Its [last_allowedip] is dereferenced when it has addresses. *)
Fixpoint coalesce (peer : wgpeer) (next : list wgpeer) : M (list wgpeer) :=
  match next with
  | [] => mret [peer]
  | q :: next' =>
      if truthy (memcmp (p_public_key peer) (p_public_key q) WG_KEY_LEN)
      then l ← coalesce q next'; mret (peer :: l)
      else match allowedips peer with
      | [] => coalesce (set_last_allowedip (last_allowedip q) (set_allowedips (allowedips q) peer)) next'
      | _ =>
          match last_allowedip peer with
          | None => undefined
          | Some i =>
              coalesce (set_last_allowedip ((λ j, S i + j)%nat <$> last_allowedip q)
                          (set_allowedips (take (S i) (allowedips peer) ++ allowedips q) peer)) next'
          end
      end
  end.
Definition coalesce_peers (d : wgdevice) : M wgdevice :=
  match peers d with
  | [] => mret d
  | p :: next => l ← coalesce p next; mret (set_peers l d)
  end.

Section Get.
(** The transport: [mnlg_socket_open]; the [errno] of [sendto], 0 when the request was
    sent, the same in every attempt; then the datagrams of the answer, one list per attempt,
    to a request whose bytes are not looked at. *)
Variable socket_open : M (Z + Z).
Variable send_errno : Z.
Variables seq portid : Z.
Variable answers : nat → list (Z + bytes).

(** [kernel_get_device(&device, iface)]: an interrupted dump is asked for again. *)
Fixpoint get_attempt (fuel : nat) (n : nat) : M (Z * option wgdevice) :=
  match fuel with
  | O => out_of_fuel
  | S fuel' =>
      device ← alloc;
      if negb device then mret (- ENOMEM, None)
      else
        nlg ← socket_open;
        match nlg with
        | inl errno => mret (- errno, None)
        | inr _ =>
            r ← (if truthy send_errno then mret (- send_errno, wgdevice_zero)
                 else
                   r ← mnlg_socket_recv_run (Some read_device_cb) seq portid (answers n) (0, wgdevice_zero);
                   if r.1 <? 0 then mret (if truthy r.2.1 then - r.2.1 else - EINVAL, r.2.2)
                   else d ← coalesce_peers r.2.2; mret (0, d));
            if truthy r.1 then
              if r.1 =? - EINTR then get_attempt fuel' (S n) else mret (r.1, None)
            else mret (0, Some r.2)
        end
  end.

Definition kernel_get_device (fuel : nat) (iface : bytes) : M (Z * option wgdevice) :=
  if (IFNAMSIZ <=? length iface)%nat then mret (- ENAMETOOLONG, None) else get_attempt fuel 0.
End Get.

(** ** kernel_get_wireguard_interfaces *)

Definition IFLA_IFNAME : Z := 3.
Definition IFLA_LINKINFO : Z := 18.
Definition IFLA_INFO_KIND : Z := 1.
(** [sizeof(struct ifinfomsg)] *)
Definition SIZEOF_IFINFOMSG : nat := 16.

Record interface := { ifname : option bytes; is_wireguard : bool }.
Definition interface_zero : interface := {| ifname := None; is_wireguard := false |}.

Definition parse_linkinfo (attr : bytes) (i : interface) : M (Z * interface) :=
  mret (MNL_CB_OK, if (mnl_attr_get_type attr =? IFLA_INFO_KIND) && strcmp_eq WG_GENL_NAME (mnl_attr_get_str attr)
                   then {| ifname := ifname i; is_wireguard := true |} else i).

Definition parse_infomsg (attr : bytes) (i : interface) : M (Z * interface) :=
  let t := mnl_attr_get_type attr in
  if t =? IFLA_LINKINFO then mnl_attr_parse_nested attr parse_linkinfo i
  else if t =? IFLA_IFNAME then mret (MNL_CB_OK, {| ifname := Some (mnl_attr_get_str attr); is_wireguard := is_wireguard i |})
  else mret (MNL_CB_OK, i).

Section Interfaces.
Context {plat : Platform}.

Definition read_devices_cb (nlh : bytes) (st : Z * string_list) : M (Z * (Z * string_list)) :=
  r ← mnl_attr_parse nlh SIZEOF_IFINFOMSG parse_infomsg interface_zero;
  if negb (r.1 =? MNL_CB_OK) then mret (r.1, st)
  else
    s ← (match ifname r.2 with
         | Some nm =>
             if is_wireguard r.2 then
               s ← string_list_add st.2 nm;
               mret (s.1, (if s.1 <? 0 then ENOMEM else st.1, s.2))
             else mret (MNL_CB_OK, st)
         | None => mret (MNL_CB_OK, st)
         end);
    if s.1 <? 0 then mret s
    else if negb (msg_type nlh =? NLMSG_DONE) then mret (MNL_CB_OK + 1, s.2)
    else mret (MNL_CB_OK, s.2).

(** The errors of the calls, 0 for none. *)
Variables socket_errno bind_errno send_errno : Z.
Variables seq portid : Z.

(** The receiving loop, from [another] on. *)
Fixpoint receive_links (datagrams : list (Z + bytes)) (st : Z * string_list) : M (Z * string_list) :=
  match datagrams with
  | [] => out_of_fuel
  | inl e :: _ => mret (- e, st.2)
  | inr buf :: rest =>
      r ← mnl_cb_run false (Some read_devices_cb) seq portid buf st;
      if (r.1 <? 0) && negb (r.2.1 =? EINTR) then mret (- r.2.1, r.2.2)
      else if r.1 =? MNL_CB_OK + 1 then receive_links rest r.2
      else mret (0, r.2.2)
  end.

Definition kernel_get_wireguard_interfaces (datagrams : list (Z + bytes)) (l : string_list) : M (Z * string_list) :=
  rtnl_buffer ← alloc;
  if negb rtnl_buffer then mret (- ENOMEM, l)
  else
    err ← mnl_socket_open socket_errno;
    if truthy err then mret (- err, l)
    else if truthy bind_errno then mret (- bind_errno, l)
    else if truthy send_errno then mret (- send_errno, l)
    else receive_links datagrams (0, l).
End Interfaces.

(** ** The kernel's side of ipc.c *)

(** The sockets: the errors of the calls, the numbers that mark the messages of a
    request, the answer to the question for the family, the dump of links, and the
    answers to the attempts to get an interface and to the messages that set one. *)
Record netlink := {
  nl_pagesize : Z;
  nl_ctrl_attr_max : Z;
  nl_socket_errno : Z;
  nl_bind_errno : Z;
  nl_send_errno : Z;
  nl_seq : Z;
  nl_portid : Z;
  nl_family : bytes → Z * list (Z + bytes);
  nl_links : list (Z + bytes);
  nl_attempts : nat;
  nl_answers : bytes → nat → list (Z + bytes);
  nl_transact : nat → bytes → Z * list (Z + bytes);
}.

(** [mnlg_socket_open(WG_GENL_NAME, WG_GENL_VERSION)] *)
Definition open_wireguard (N : netlink) : M (Z + Z) :=
  mnlg_socket_open (nl_ctrl_attr_max N) (nl_socket_errno N) (nl_bind_errno N) (nl_seq N) (nl_portid N) (nl_family N) WG_GENL_NAME.

Definition linux_kernel `{Platform} (N : netlink) : Ipc.kernel := {|
  Ipc.kernel_get_wireguard_interfaces l :=
    kernel_get_wireguard_interfaces (nl_socket_errno N) (nl_bind_errno N) (nl_send_errno N) (nl_seq N) (nl_portid N) (nl_links N) l;
  Ipc.kernel_get_device iface :=
    kernel_get_device (open_wireguard N) (nl_send_errno N) (nl_seq N) (nl_portid N) (nl_answers N iface) (nl_attempts N) iface;
  Ipc.kernel_set_device d :=
    r ← kernel_set_device (mnl_ideal_socket_buffer_size (nl_pagesize N)) (open_wireguard N) (nl_seq N) (nl_portid N) (nl_transact N) d;
    mret r.2;
|}.
