(* ===== verification/IpcLinuxSpec.v ===== *)
(** * IpcLinuxSpec: the messages of the Linux transport

    The pieces [kernel_set_device] cuts a device into, and their encoding; every
    message fits the buffer, and the pieces are the device; what the reading side
    makes of them. *)

From Stdlib Require Import Ascii String.
From stdpp Require Import base numbers option sets list list_numbers strings.
From S2P Require Import Prelude CLib Ctype Encoding Containers Setconf Field25519 X25519 Netlink NetlinkSpec IpcLinux.
#[local] Open Scope c_scope.

(** ** Encodings *)

(** What [kernel_set_device] relies on: the ranges of the C types, a NUL-terminated
    name, and addresses of the size of their family. *)
Definition memory_endpoint (sa : sockaddr) : Prop :=
  sa_family sa = AF_UNSPEC ∨
  (sa_family sa = AF_INET ∧ length (sin_addr sa) = 4%nat ∧ sin6_extra sa = []) ∨
  (sa_family sa = AF_INET6 ∧ length (sin_addr sa) = 16%nat ∧
   (sin6_extra sa = [] ∨ (length (sin6_extra sa) = 8%nat ∧ sin6_extra sa ≠ replicate 8 0))).
Definition sendable_peer (p : wgpeer) : Prop := peer_ok p ∧ memory_endpoint (endpoint p).
Record sendable (d : wgdevice) : Prop := {
  s_ok : device_ok d;
  s_name : (length (name d) < IFNAMSIZ)%nat ∧ cstring (name d) = true;
  s_endpoints : Forall (λ p, memory_endpoint (endpoint p)) (peers d);
}.

Definition opt {A} (b : bool) (x : A) : list A := if b then [x] else [].

Definition address_attr (a : wgallowedip) : list (Z * bytes) :=
  if family a =? AF_INET then [(WGALLOWEDIP_A_IPADDR, ip4 a)]
  else if family a =? AF_INET6 then [(WGALLOWEDIP_A_IPADDR, ip6 a)] else [].
Definition ip_attrs (a : wgallowedip) : list (Z * bytes) :=
  (WGALLOWEDIP_A_FAMILY, le_bytes 2 (u16 (family a))) ::
  address_attr a ++
  (WGALLOWEDIP_A_CIDR_MASK, le_bytes 1 (u8 (cidr a))) ::
  opt (truthy (ai_flags a)) (WGALLOWEDIP_A_FLAGS, le_bytes 4 (u32 (ai_flags a))).
Definition enc_ip (a : wgallowedip) : bytes := nest 0 (leaves (ip_attrs a)).

(** A peer begins with its settings; where it is continued only its key is repeated. *)
Definition has_endpoint (p : wgpeer) : bool := (sa_family (endpoint p) =? AF_INET) || (sa_family (endpoint p) =? AF_INET6).
Definition settings (p : wgpeer) : list (Z * bytes) :=
  opt (has_flag (p_flags p) WGPEER_HAS_PRESHARED_KEY) (WGPEER_A_PRESHARED_KEY, preshared_key p) ++
  opt (has_endpoint p) (WGPEER_A_ENDPOINT, sockaddr_bytes (endpoint p)) ++
  opt (has_flag (p_flags p) WGPEER_HAS_PERSISTENT_KEEPALIVE_INTERVAL)
    (WGPEER_A_PERSISTENT_KEEPALIVE_INTERVAL, le_bytes 2 (u16 (persistent_keepalive_interval p))).
Definition sent_flags (p : wgpeer) (first : bool) : Z :=
  let fl := if has_flag (p_flags p) WGPEER_REMOVE_ME then WGPEER_F_REMOVE_ME else 0 in
  if first && has_flag (p_flags p) WGPEER_REPLACE_ALLOWEDIPS then fl .| WGPEER_F_REPLACE_ALLOWEDIPS else fl.
Definition peer_attrs (p : wgpeer) (first : bool) : list (Z * bytes) :=
  (WGPEER_A_PUBLIC_KEY, p_public_key p) :: (if first then settings p else []) ++
  opt (truthy (sent_flags p first)) (WGPEER_A_FLAGS, le_bytes 4 (u32 (sent_flags p first))).

(** The part of a peer in one message: its beginning or a continuation, with some of
    its addresses; [None] when there is no list of addresses. *)
Record piece := { pc_peer : wgpeer; pc_first : bool; pc_list : option (list wgallowedip) }.
Definition pc_ips (x : piece) : list wgallowedip := default [] (pc_list x).
Definition enc_piece (x : piece) : bytes :=
  nest 0 (leaves (peer_attrs (pc_peer x) (pc_first x)) ++
          if pc_list x is Some l then nest WGPEER_A_ALLOWEDIPS (flat_map enc_ip l) else []).

Definition device_attrs (d : wgdevice) : list (Z * bytes) :=
  opt (has_flag (flags d) WGDEVICE_HAS_PRIVATE_KEY) (WGDEVICE_A_PRIVATE_KEY, private_key d) ++
  opt (has_flag (flags d) WGDEVICE_HAS_LISTEN_PORT) (WGDEVICE_A_LISTEN_PORT, le_bytes 2 (u16 (listen_port d))) ++
  opt (has_flag (flags d) WGDEVICE_HAS_FWMARK) (WGDEVICE_A_FWMARK, le_bytes 4 (u32 (fwmark d))) ++
  opt (has_flag (flags d) WGDEVICE_REPLACE_PEERS) (WGDEVICE_A_FLAGS, le_bytes 4 (u32 WGDEVICE_F_REPLACE_PEERS)).
Definition enc_head (d : wgdevice) (first : bool) : bytes :=
  mnlg_msg_prepare WG_CMD_SET_DEVICE WG_GENL_VERSION ++
  leaves ((WGDEVICE_A_IFNAME, name d ++ [0]) :: if first then device_attrs d else []).
Definition enc_message (d : wgdevice) (first : bool) (l : list piece) : bytes :=
  enc_head d first ++ if peers d is [] then [] else nest WGDEVICE_A_PEERS (flat_map enc_piece l).
(** A row of messages; the device's own attributes are in the first message of a
    device. *)
Definition enc_messages (d : wgdevice) (first : bool) (ms : list (list piece)) : list bytes :=
  match ms with
  | [] => []
  | m :: ms' => enc_message d first m :: (enc_message d false <$> ms')
  end.

(** A continuation carries some addresses; a peer is its beginning and its
    continuations, which carry its addresses in order. *)
Definition continues (p : wgpeer) (x : piece) : Prop := pc_peer x = p ∧ pc_first x = false ∧ pc_ips x ≠ [].
Definition rest_of (p : wgpeer) (ips : list wgallowedip) (l : list piece) : Prop :=
  Forall (continues p) l ∧ flat_map pc_ips l = ips.
Definition pieces_of (p : wgpeer) (l : list piece) : Prop :=
  ∃ x l', l = x :: l' ∧ pc_peer x = p ∧ pc_first x = true ∧ Forall (continues p) l' ∧ flat_map pc_ips l = allowedips p.

(** Messages that are sent one after the other until one is not accepted. *)
Fixpoint send_all (seq portid : Z) (transact : nat → bytes → Z * list (Z + bytes)) (n : nat) (msgs : list bytes) : M (list bytes * Z) :=
  match msgs with
  | [] => mret ([], 0)
  | m :: msgs' =>
      ret ← set_send seq portid transact n m;
      if truthy ret then mret ([m], ret) else r ← send_all seq portid transact (S n) msgs'; mret (m :: r.1, r.2)
  end.

(** ** Sizes *)

Definition types_ok (l : list (Z * bytes)) : Prop := Forall (λ x, 0 <= x.1 < 2 ^ 14) l.
Lemma leaves_cons x l : leaves (x :: l) = leaf x.1 x.2 ++ leaves l.
Proof. done. Qed.
Lemma leaves_app l k : leaves (l ++ k) = leaves l ++ leaves k.
Proof. apply flat_map_app. Qed.
Lemma leaves_aligned l : aligned (leaves l).
Proof. induction l as [|x l IH]; [done|]. rewrite leaves_cons. apply aligned_app; [apply leaf_aligned|done]. Qed.
Lemma flat_map_aligned {A} (f : A → bytes) l : (∀ x, aligned (f x)) → aligned (flat_map f l).
Proof. intros H. induction l; [done|]. cbn. by apply aligned_app. Qed.
Lemma enc_ip_aligned a : aligned (enc_ip a).
Proof. apply nest_aligned, leaves_aligned. Qed.
Lemma enc_piece_aligned x : aligned (enc_piece x).
Proof.
  apply nest_aligned, aligned_app; [apply leaves_aligned|]. destruct (pc_list x); [|done].
  apply nest_aligned, flat_map_aligned, enc_ip_aligned.
Qed.

Lemma leaves_opt_length b t data : length (leaves (opt b (t, data))) = if b then (4 + MNL_ALIGN (length data))%nat else O.
Proof. destruct b; [|done]. cbn [opt]. rewrite leaves_cons. cbn [leaves flat_map fst snd]. by rewrite app_nil_r, leaf_length. Qed.
Lemma leaves_cons_length t data l : length (leaves ((t, data) :: l)) = (4 + MNL_ALIGN (length data) + length (leaves l))%nat.
Proof. rewrite leaves_cons, length_app. cbn [fst snd]. by rewrite leaf_length. Qed.
Lemma leaves_app_length l k : length (leaves (l ++ k)) = (length (leaves l) + length (leaves k))%nat.
Proof. by rewrite leaves_app, length_app. Qed.

Lemma sockaddr_bytes_length sa :
  memory_endpoint sa →
  (sa_family sa = AF_INET → length (sockaddr_bytes sa) = 16%nat) ∧ (sa_family sa = AF_INET6 → length (sockaddr_bytes sa) = 28%nat).
Proof.
  intros H. unfold sockaddr_bytes, extra_bytes.
  destruct H as [Hf|[(Hf & Hl & He)|(Hf & Hl & He)]]; rewrite Hf; split; intros Hf'; try discriminate.
  - change (AF_INET =? AF_INET) with true. cbn iota. rewrite !length_app, le_bytes_length, Hl. done.
  - change (AF_INET6 =? AF_INET) with false. cbn iota. rewrite !length_app, le_bytes_length, Hl, length_take, length_drop.
    destruct He as [->|[He _]]; [done|]. destruct (sin6_extra sa); [done|]. rewrite He. done.
Qed.

Lemma key_ok_length k : key_ok k = true → length k = 32%nat.
Proof. intros H. by apply key_ok_spec in H as [? _]. Qed.

Lemma allowedip_ip_length a : allowedip_ok a → length (ip4 a) = 4%nat ∧ length (ip6 a) = 16%nat.
Proof. intros (Hl & _). unfold ip4, ip6. rewrite length_take. lia. Qed.

Lemma enc_ip_length a : allowedip_ok a → (length (enc_ip a) <= 48)%nat.
Proof.
  intros Ha. destruct (allowedip_ip_length a Ha) as [H4 H6]. unfold enc_ip, ip_attrs.
  rewrite nest_length, leaves_cons_length, leaves_app_length, leaves_cons_length, leaves_opt_length, !le_bytes_length.
  assert (length (leaves (address_attr a)) <= 20)%nat.
  { unfold address_attr. repeat case_match; rewrite ?leaves_cons_length, ?H4, ?H6; cbn; lia. }
  change (MNL_ALIGN 2) with 4%nat. change (MNL_ALIGN 1) with 4%nat. change (MNL_ALIGN 4) with 4%nat. case_match; lia.
Qed.

Lemma settings_length p : sendable_peer p → (length (leaves (settings p)) <= 76)%nat.
Proof.
  intros [(_ & Hk & _ & _) He]. unfold settings. rewrite !leaves_app_length, !leaves_opt_length, le_bytes_length, (key_ok_length _ Hk).
  change (MNL_ALIGN 32) with 32%nat. change (MNL_ALIGN 2) with 4%nat.
  assert (has_endpoint p = true → MNL_ALIGN (length (sockaddr_bytes (endpoint p))) <= 28)%nat.
  { unfold has_endpoint. destruct (sockaddr_bytes_length _ He) as [H4 H6].
    destruct (Z.eqb_spec (sa_family (endpoint p)) AF_INET) as [E4|_]; [rewrite (H4 E4); cbn; lia|].
    destruct (Z.eqb_spec (sa_family (endpoint p)) AF_INET6) as [E6|_]; [rewrite (H6 E6); cbn; lia|done]. }
  destruct (has_endpoint p); repeat case_match; lia.
Qed.

Lemma peer_attrs_length p first : sendable_peer p → (length (leaves (peer_attrs p first)) <= 120)%nat.
Proof.
  intros Hp. pose proof (settings_length p Hp). unfold peer_attrs.
  rewrite leaves_cons_length, leaves_app_length, leaves_opt_length, le_bytes_length, (key_ok_length (p_public_key p)) by apply Hp.
  change (MNL_ALIGN 32) with 32%nat. change (MNL_ALIGN 4) with 4%nat.
  destruct first, (truthy _); try (cbn [leaves flat_map length]; lia).
Qed.

Lemma enc_head_length d first : sendable d → (length (enc_head d first) <= 84)%nat.
Proof.
  intros [(_ & Hk & _) [Hn _] _]. unfold enc_head, device_attrs. rewrite length_app. cbn [mnlg_msg_prepare length].
  rewrite leaves_cons_length, length_app. cbn [length].
  assert (MNL_ALIGN (length (name d) + 1) <= 16)%nat.
  { destruct (MNL_ALIGN_spec (length (name d) + 1)) as [? Hm]. pose proof (Nat.div_mod_eq (MNL_ALIGN (length (name d) + 1)) 4). unfold IFNAMSIZ in Hn. lia. }
  destruct first; [|cbn [leaves flat_map length]; lia].
  rewrite !leaves_app_length, !leaves_opt_length, !le_bytes_length, (key_ok_length _ Hk).
  change (MNL_ALIGN 32) with 32%nat. change (MNL_ALIGN 2) with 4%nat. change (MNL_ALIGN 4) with 4%nat. repeat case_match; lia.
Qed.

(** ** Writing *)

Section Sending.
Variable SBS : Z.
Hypothesis Hsbs : 512 <= SBS < 65536.

Lemma types_ip a : Forall (λ x, 0 <= x.1 < 65536) (ip_attrs a).
Proof. unfold ip_attrs, address_attr, opt. repeat case_match; repeat first [apply Forall_nil; done | apply Forall_cons; split; [done|]]. Qed.
Lemma types_peer p first : Forall (λ x, 0 <= x.1 < 65536) (peer_attrs p first).
Proof. unfold peer_attrs, settings, opt. destruct first; repeat case_match; repeat first [apply Forall_nil; done | apply Forall_cons; split; [done|]]. Qed.

Lemma put_one nlh t data : put_all SBS nlh [(t, data)] = mnl_attr_put_check SBS nlh t data.
Proof. cbn. by destruct (mnl_attr_put_check _ _ _ _). Qed.
Lemma put_opt nlh b t data : put_all SBS nlh (opt b (t, data)) = if b then mnl_attr_put_check SBS nlh t data else Some nlh.
Proof. destruct b; [apply put_one|done]. Qed.

Lemma put_ip_attrs_all nlh a : put_ip_attrs SBS nlh a = put_all SBS nlh (ip_attrs a).
Proof.
  unfold put_ip_attrs, ip_attrs, mnl_attr_put_u16_check, mnl_attr_put_u8_check, mnl_attr_put_u32_check. cbn [put_all].
  apply option_bind_ext_fun. intros nlh1. rewrite put_all_app.
  apply option_bind_ext; [|unfold address_attr; repeat case_match; rewrite ?put_one; done].
  intros nlh2. cbn [put_all]. apply option_bind_ext_fun. intros nlh3. by rewrite put_opt.
Qed.

Lemma put_peer_attrs_all nlh p allowedip : put_peer_attrs SBS nlh p allowedip = put_all SBS nlh (peer_attrs p (Nat.eqb (length allowedip) 0)).
Proof.
  unfold put_peer_attrs, peer_attrs, sent_flags, mnl_attr_put_u16_check, mnl_attr_put_u32_check. cbn [put_all].
  apply option_bind_ext_fun. intros nlh1. rewrite put_all_app. destruct (Nat.eqb (length allowedip) 0); cbn [negb andb].
  - unfold settings. rewrite !put_all_app, !put_opt, !option_bind_assoc. apply option_bind_ext_fun. intros nlh2. unfold compose.
    rewrite put_all_app, !option_bind_assoc. apply option_bind_ext.
    + intros nlh3. unfold compose. rewrite put_opt, option_bind_assoc. apply option_bind_ext_fun. intros nlh4. by rewrite put_opt.
    + rewrite put_opt. unfold has_endpoint. by destruct (sa_family (endpoint p) =? AF_INET).
  - cbn [put_all mbind option_bind fst snd]. by rewrite put_opt.
Qed.

(** A nest that is opened, filled and ended. *)
Lemma nest_fits nlh t body :
  0 <= t < 65536 → nlmsg_len (nlh ++ nest t body) <= SBS →
  mnl_attr_nest_end ((mnl_attr_nest_start nlh t).1 ++ body) (mnl_attr_nest_start nlh t).2 = nlh ++ nest t body.
Proof.
  intros Ht Hl. apply nest_end_spec; [|done]. unfold nlmsg_len in Hl. rewrite length_app, nest_length in Hl. lia.
Qed.

Lemma start_check nlh t :
  mnl_attr_nest_start_check SBS nlh t = if SBS <? nlmsg_len nlh + 4 then None else Some (mnl_attr_nest_start nlh t).
Proof. done. Qed.
Lemma start_len nlh t : nlmsg_len (mnl_attr_nest_start nlh t).1 = nlmsg_len nlh + 4.
Proof. unfold nlmsg_len. cbn. rewrite length_app. cbn. lia. Qed.
Lemma nlmsg_len_app a b : nlmsg_len (a ++ b) = nlmsg_len a + Z.of_nat (length b).
Proof. unfold nlmsg_len. rewrite length_app. lia. Qed.

(** The loop over the addresses stops where the next one does not fit. *)
Lemma put_ips_spec nlh ips :
  Forall allowedip_ok ips → nlmsg_len nlh <= SBS →
  ∃ part rest, ips = part ++ rest ∧ put_ips SBS nlh ips = (nlh ++ flat_map enc_ip part, rest) ∧
    nlmsg_len (nlh ++ flat_map enc_ip part) <= SBS ∧ (rest = [] ∨ SBS < nlmsg_len (nlh ++ flat_map enc_ip part) + 48).
Proof.
  intros H. revert nlh. induction H as [|a ips Ha _ IH]; intros nlh Hn.
  { exists [], []. cbn. rewrite app_nil_r. auto. }
  pose proof (enc_ip_length a Ha) as Hlen. cbn [put_ips]. rewrite start_check.
  assert (Hstop : SBS < nlmsg_len nlh + 48 → ∃ part rest, a :: ips = part ++ rest ∧ (nlh, a :: ips) = (nlh ++ flat_map enc_ip part, rest) ∧
    nlmsg_len (nlh ++ flat_map enc_ip part) <= SBS ∧ (rest = [] ∨ SBS < nlmsg_len (nlh ++ flat_map enc_ip part) + 48)).
  { intros Hs. exists [], (a :: ips). cbn. rewrite app_nil_r. auto. }
  destruct (Z.ltb_spec SBS (nlmsg_len nlh + 4)) as [Hs|Hs]; [apply Hstop; lia|].
  destruct (mnl_attr_nest_start nlh 0) as [nlh1 st] eqn:E. pose proof (start_len nlh 0) as Hl1. rewrite E in Hl1. cbn [fst] in Hl1.
  rewrite put_ip_attrs_all, put_all_spec by (apply types_ip || lia).
  unfold enc_ip in Hlen. rewrite nest_length in Hlen. rewrite nlmsg_len_app, Hl1.
  destruct (Z.ltb_spec SBS (nlmsg_len nlh + 4 + Z.of_nat (length (leaves (ip_attrs a))))) as [Hs'|Hs'].
  - pose proof (nest_cancel_spec nlh 0 []) as Hc. rewrite E, app_nil_r in Hc. cbn [fst snd] in Hc. rewrite Hc. apply Hstop. lia.
  - pose proof (nest_fits nlh 0 (leaves (ip_attrs a)) ltac:(lia)) as He. rewrite E in He. cbn [fst snd] in He.
    assert (Hfit : nlmsg_len (nlh ++ enc_ip a) <= SBS) by (rewrite nlmsg_len_app; unfold enc_ip; rewrite nest_length; lia).
    rewrite He by done. destruct (IH (nlh ++ enc_ip a) Hfit) as (part & rest & -> & Hp & Hl & Hr).
    exists (a :: part), rest. cbn [flat_map]. rewrite app_assoc. auto.
Qed.

(** What is left to send of the first of [ps], [ai] being not empty when it is
    continued. *)
Definition todo (p : wgpeer) (ai : list wgallowedip) : list wgallowedip := if Nat.eqb (length ai) 0 then allowedips p else ai.

Lemma peer_list_spec nlh2 nlh p ai :
  sendable_peer p → Forall allowedip_ok ai → nlmsg_len nlh2 <= SBS → nlmsg_len nlh2 <= nlmsg_len nlh + 124 →
  ∃ o rest, match mnl_attr_nest_start_check SBS nlh2 WGPEER_A_ALLOWEDIPS with
            | None => (nlh2, ai)
            | Some (nlh3, nst) => let '(nlh4, rest) := put_ips SBS nlh3 ai in (mnl_attr_nest_end nlh4 nst, rest)
            end = (nlh2 ++ (if o is Some l then nest WGPEER_A_ALLOWEDIPS (flat_map enc_ip l) else []), rest) ∧
    ai = default [] o ++ rest ∧
    nlmsg_len (nlh2 ++ (if o is Some l then nest WGPEER_A_ALLOWEDIPS (flat_map enc_ip l) else [])) <= SBS ∧
    (rest = [] ∨ default [] o ≠ [] ∨ SBS < nlmsg_len nlh + 176).
Proof.
  intros Hp Hai Hl Hl'. rewrite start_check. destruct (Z.ltb_spec SBS (nlmsg_len nlh2 + 4)) as [Hs|Hs].
  { exists None, ai. rewrite app_nil_r. split_and!; [done..|]. right. right. lia. }
  destruct (mnl_attr_nest_start nlh2 WGPEER_A_ALLOWEDIPS) as [nlh3 nst] eqn:E.
  pose proof (start_len nlh2 WGPEER_A_ALLOWEDIPS) as Hl3. rewrite E in Hl3. cbn [fst] in Hl3.
  destruct (put_ips_spec nlh3 ai Hai ltac:(lia)) as (part & rest & -> & -> & Hfit & Hr).
  exists (Some part), rest. cbn [default].
  assert (Hlen : nlmsg_len (nlh2 ++ nest WGPEER_A_ALLOWEDIPS (flat_map enc_ip part)) <= SBS).
  { rewrite nlmsg_len_app in Hfit |- *. rewrite nest_length. lia. }
  pose proof (nest_fits nlh2 WGPEER_A_ALLOWEDIPS (flat_map enc_ip part) ltac:(done) Hlen) as He. rewrite E in He. cbn [fst snd] in He.
  rewrite He. split_and!; [done..|]. destruct Hr as [Hr|Hr]; [by left|right]. destruct part; [right|by left].
  cbn in Hr. rewrite app_nil_r in Hr. lia.
Qed.

Lemma put_peer_shape nlh nlh1 nst p ai nlh2 :
  mnl_attr_nest_start_check SBS nlh 0 = Some (nlh1, nst) → put_peer_attrs SBS nlh1 p ai = Some nlh2 → (ai ≠ [] → allowedips p ≠ []) →
  put_peer SBS nlh p ai =
    if allowedips p is [] then inr (mnl_attr_nest_end nlh2 nst, [])
    else let '(b, rest) := match mnl_attr_nest_start_check SBS nlh2 WGPEER_A_ALLOWEDIPS with
                           | None => (nlh2, todo p ai)
                           | Some (nlh3, nst') => let '(nlh4, rest) := put_ips SBS nlh3 (todo p ai) in (mnl_attr_nest_end nlh4 nst', rest)
                           end in inr (mnl_attr_nest_end b nst, rest).
Proof.
  intros H1 H2 Hne. unfold put_peer, todo. rewrite H1, H2. destruct (allowedips p) as [|a l]; [done|].
  destruct (Nat.eqb (length ai) 0); cbn [negb];
  (destruct (mnl_attr_nest_start_check SBS nlh2 WGPEER_A_ALLOWEDIPS) as [[nlh3 nst']|]; [|done]); by destruct (put_ips _ _ _).
Qed.

(** One peer: it does not fit, or a piece of it is added; the piece carries an address
    of those that are left when there is room for one. *)
Lemma put_peer_spec nlh p ai :
  sendable_peer p → Forall allowedip_ok ai → (ai ≠ [] → allowedips p ≠ []) → nlmsg_len nlh <= SBS →
  (put_peer SBS nlh p ai = inl nlh ∧ SBS < nlmsg_len nlh + 176) ∨
  ∃ x rest, put_peer SBS nlh p ai = inr (nlh ++ enc_piece x, rest) ∧ pc_peer x = p ∧ pc_first x = Nat.eqb (length ai) 0 ∧
    todo p ai = pc_ips x ++ rest ∧ nlmsg_len (nlh ++ enc_piece x) <= SBS ∧ (rest = [] ∨ pc_ips x ≠ [] ∨ SBS < nlmsg_len nlh + 176).
Proof.
  intros Hp Hai Hne Hn. pose proof (peer_attrs_length p (Nat.eqb (length ai) 0) Hp) as Hla.
  destruct (mnl_attr_nest_start_check SBS nlh 0) as [[nlh1 nst]|] eqn:E; pose proof E as E'; rewrite start_check in E';
    destruct (Z.ltb_spec SBS (nlmsg_len nlh + 4)) as [Hs|Hs]; try discriminate E'.
  2: { left. unfold put_peer. rewrite E. split; [done|lia]. }
  apply (inj Some) in E'. pose proof (start_len nlh 0) as Hl1. rewrite E' in Hl1. cbn [fst] in Hl1.
  destruct (put_peer_attrs SBS nlh1 p ai) as [nlh2|] eqn:Ea; pose proof Ea as Ea';
    rewrite put_peer_attrs_all, put_all_spec in Ea' by (apply types_peer || lia);
    match type of Ea' with context [if SBS <? ?b then _ else _] => destruct (Z.ltb_spec SBS b) as [Hs'|Hs'] end; try discriminate Ea';
    rewrite nlmsg_len_app, Hl1 in Hs'.
  2: { left. unfold put_peer. rewrite E, Ea. pose proof (nest_cancel_spec nlh 0 []) as Hc. rewrite E', app_nil_r in Hc. cbn [fst snd] in Hc.
       rewrite Hc. split; [done|lia]. }
  apply (inj Some) in Ea' as <-. right. rewrite (put_peer_shape _ _ _ _ _ _ E Ea Hne).
  set (attrs := leaves (peer_attrs p (Nat.eqb (length ai) 0))) in *.
  assert (Hend : ∀ b, nlmsg_len ((nlh1 ++ attrs) ++ b) <= SBS →
    mnl_attr_nest_end ((nlh1 ++ attrs) ++ b) nst = nlh ++ nest 0 (attrs ++ b) ∧ nlmsg_len (nlh ++ nest 0 (attrs ++ b)) <= SBS).
  { intros b Hb. assert (Hb' : nlmsg_len (nlh ++ nest 0 (attrs ++ b)) <= SBS).
    { rewrite <- app_assoc, nlmsg_len_app in Hb. rewrite nlmsg_len_app, nest_length. lia. }
    split; [|done]. pose proof (nest_fits nlh 0 (attrs ++ b) ltac:(lia) Hb') as He. rewrite E' in He. cbn [fst snd] in He. by rewrite <- app_assoc. }
  assert (Htodo : Forall allowedip_ok (todo p ai)) by (unfold todo; case_match; [apply Hp|done]).
  destruct (allowedips p) as [|a0 l0] eqn:Eips.
  - assert (ai = []) as -> by (destruct ai; [done|by destruct Hne]).
    exists {| pc_peer := p; pc_first := true; pc_list := None |}, []. cbn [pc_peer pc_first pc_ips pc_list default].
    destruct (Hend []) as [He Hl]; [rewrite app_nil_r, nlmsg_len_app; lia|]. rewrite app_nil_r in He. unfold enc_piece. cbn [pc_peer pc_first pc_list].
    rewrite He. unfold todo, attrs in *. cbn [length Nat.eqb] in *. rewrite Eips.
    split_and!; [done..|by left].
  - destruct (peer_list_spec (nlh1 ++ attrs) nlh p (todo p ai) Hp Htodo) as (o & rest & -> & Hsplit & Hl & Hr);
      [rewrite nlmsg_len_app; lia..|].
    exists {| pc_peer := p; pc_first := Nat.eqb (length ai) 0; pc_list := o |}, rest. cbn [pc_peer pc_first pc_ips pc_list].
    destruct (Hend _ Hl) as [He Hl']. unfold enc_piece. cbn [pc_peer pc_first pc_list]. fold attrs. rewrite He. split_and!; done.
Qed.

(** What one message takes from the peers that are left. *)
Inductive split : list wgpeer → list wgallowedip → list piece → list wgpeer → list wgallowedip → Prop :=
  | split_stop ps ai : split ps ai [] ps ai
  | split_part p next ai x rest :
      pc_peer x = p → pc_first x = Nat.eqb (length ai) 0 → todo p ai = pc_ips x ++ rest → rest ≠ [] → (ai ≠ [] → pc_ips x ≠ []) →
      split (p :: next) ai [x] (p :: next) rest
  | split_peer p next ai x l ps' ai' :
      pc_peer x = p → pc_first x = Nat.eqb (length ai) 0 → todo p ai = pc_ips x → split next [] l ps' ai' →
      split (p :: next) ai (x :: l) ps' ai'.

(** How much is left. *)
Definition left_size (ps : list wgpeer) (ai : list wgallowedip) : nat :=
  match ps with
  | [] => 0
  | p :: next => S (length next) + length (todo p ai) + length (flat_map allowedips next)
  end.
Definition left_ok (ps : list wgpeer) (ai : list wgallowedip) : Prop :=
  Forall sendable_peer ps ∧ Forall allowedip_ok ai ∧ (ai ≠ [] → ∃ p next, ps = p :: next ∧ allowedips p ≠ []).

Lemma left_size_nil ps : left_size ps [] = (length ps + length (flat_map allowedips ps))%nat.
Proof. destruct ps; [done|]. cbn. rewrite length_app. lia. Qed.
Lemma todo_rest p rest : rest ≠ [] → todo p rest = rest.
Proof. by destruct rest. Qed.

Lemma split_le ps ai l ps' ai' : split ps ai l ps' ai' → (left_size ps' ai' <= left_size ps ai)%nat.
Proof.
  induction 1 as [|p next ai x rest _ _ Ht Hr _|p next ai x l ps' ai' _ _ _ _ IH]; [done|..]; cbn [left_size].
  - rewrite Ht, todo_rest, length_app by done. lia.
  - rewrite left_size_nil in IH. lia.
Qed.

Lemma put_peers_spec nlh ps ai :
  left_ok ps ai → nlmsg_len nlh <= SBS → (ai ≠ [] → nlmsg_len nlh + 176 <= SBS) →
  ∃ l ps' ai', put_peers SBS nlh ps ai = (nlh ++ flat_map enc_piece l, ps', ai') ∧ split ps ai l ps' ai' ∧ left_ok ps' ai' ∧
    nlmsg_len (nlh ++ flat_map enc_piece l) <= SBS ∧
    (ps ≠ [] → nlmsg_len nlh + 176 <= SBS → (left_size ps' ai' < left_size ps ai)%nat).
Proof.
  revert nlh ai. induction ps as [|p next IH]; intros nlh ai Hok Hn Hroom.
  { exists [], [], ai. cbn. rewrite app_nil_r. split; [done|]. by split; [apply split_stop|]. }
  destruct Hok as ([Hp Hnext]%Forall_cons & Hai & Hne). cbn [put_peers].
  assert (Hne' : ai ≠ [] → allowedips p ≠ []) by (intros Hx; destruct (Hne Hx) as (? & ? & [= <- <-] & ?); done).
  destruct (put_peer_spec nlh p ai Hp Hai Hne' Hn) as [[-> Hs]|(x & rest & -> & Hx1 & Hx2 & Hx3 & Hl & Hr)].
  { exists [], (p :: next), ai. cbn [flat_map]. rewrite app_nil_r. split; [done|]. split; [apply split_stop|]. split; [split; [by constructor|done]|]. split; [done|lia]. }
  destruct rest as [|a rest].
  - rewrite app_nil_r in Hx3. destruct (IH (nlh ++ enc_piece x) []) as (l & ps' & ai' & -> & Hsp & Hok' & Hl' & _); [by split_and!|done|done|].
    exists (x :: l), ps', ai'. cbn [flat_map]. rewrite app_assoc. split_and!; [done|by constructor|done..|].
    intros _ _. apply split_le in Hsp. rewrite left_size_nil in Hsp. cbn [left_size]. lia.
  - exists [x], (p :: next), (a :: rest). cbn [flat_map]. rewrite app_nil_r.
    assert (Hsub : Forall allowedip_ok (pc_ips x ++ a :: rest)) by (rewrite <- Hx3; unfold todo; case_match; [apply Hp|done]).
    assert (Hx4 : nlmsg_len nlh + 176 <= SBS → pc_ips x ≠ []) by (intros; destruct Hr as [Hr|[Hr|Hr]]; [done|done|lia]).
    assert (Hips : allowedips p ≠ []).
    { intros Hnil. unfold todo in Hx3. rewrite Hnil in Hx3, Hne'. destruct ai; [by destruct (pc_ips x)|by apply Hne']. }
    split_and!; [done|constructor; auto| |done|].
    + split_and!; [by constructor|by apply Forall_app in Hsub as [_ ?]|by eexists _, _].
    + intros _ Hrm. cbn [left_size]. rewrite Hx3, todo_rest, length_app by done. specialize (Hx4 Hrm). destruct (pc_ips x); [done|]. cbn [length]. lia.
Qed.

(** The pieces of what is left. *)
Definition pieces (ps : list wgpeer) (ai : list wgallowedip) (l : list piece) : Prop :=
  match ai with
  | [] => ∃ ls, l = concat ls ∧ Forall2 pieces_of ps ls
  | _ => ∃ p next l1 ls, ps = p :: next ∧ l = l1 ++ concat ls ∧ rest_of p ai l1 ∧ Forall2 pieces_of next ls
  end.

Lemma split_pieces ps ai l ps' ai' k : split ps ai l ps' ai' → pieces ps' ai' k → pieces ps ai (l ++ k).
Proof.
  intros H Hk. induction H as [|p next ai x rest Hx1 Hx2 Hx3 Hr Hx4|p next ai x l ps' ai' Hx1 Hx2 Hx3 _ IH]; [done|..].
  - destruct rest as [|r rest]; [done|]. destruct Hk as (? & ? & l1 & ls & [= <- <-] & -> & [Hc Hi] & Hls).
    destruct ai as [|a ai]; cbn in Hx2, Hx3.
    + exists ((x :: l1) :: ls). split; [done|]. constructor; [|done]. exists x, l1. split_and!; try done. cbn. by rewrite Hi, Hx3.
    + exists p, next, (x :: l1), ls. split_and!; try done. split; [constructor; [|done]; split_and!; auto|]. cbn. by rewrite Hi, Hx3.
  - destruct (IH Hk) as (ls & Hl & Hls). cbn [app]. rewrite Hl. destruct ai as [|a ai]; cbn in Hx2, Hx3.
    + exists ([x] :: ls). split; [done|]. constructor; [|done]. exists x, []. split_and!; try done. cbn. by rewrite app_nil_r.
    + exists p, next, [x], ls. split_and!; try done. split; [constructor; [|done]; split_and!; auto; by rewrite <- Hx3|]. cbn. by rewrite app_nil_r.
Qed.

Lemma put_device_attrs_spec nlh d : sendable d → put_device_attrs nlh d = nlh ++ leaves (device_attrs d).
Proof.
  intros Hd. pose proof (key_ok_length _ (proj1 (proj2 (s_ok _ Hd)))) as Hk.
  unfold put_device_attrs, device_attrs, opt, mnl_attr_put_u16, mnl_attr_put_u32.
  repeat case_match; cbn [app leaves flat_map fst snd]; rewrite ?put_leaf, <- ?app_assoc, ?app_nil_r; try done;
    rewrite ?Hk, ?le_bytes_length; done.
Qed.

Lemma put_name d : sendable d → mnl_attr_put_strz (mnlg_msg_prepare WG_CMD_SET_DEVICE WG_GENL_VERSION) WGDEVICE_A_IFNAME (name d) = enc_head d false.
Proof.
  intros Hd. destruct (s_name _ Hd) as [Hn _]. unfold mnl_attr_put_strz, enc_head. rewrite put_leaf; [|rewrite length_app; cbn [length]; unfold IFNAMSIZ in Hn; lia|done].
  by rewrite leaves_cons, app_nil_r.
Qed.

Lemma head_spec d (first : bool) :
  sendable d → (if first then put_device_attrs (mnl_attr_put_strz (mnlg_msg_prepare WG_CMD_SET_DEVICE WG_GENL_VERSION) WGDEVICE_A_IFNAME (name d)) d
                else mnl_attr_put_strz (mnlg_msg_prepare WG_CMD_SET_DEVICE WG_GENL_VERSION) WGDEVICE_A_IFNAME (name d)) = enc_head d first.
Proof.
  intros Hd. rewrite put_name by done. destruct first; [|done]. rewrite put_device_attrs_spec by done.
  unfold enc_head. rewrite !leaves_cons, app_nil_r, <- !app_assoc. done.
Qed.

(** One message. *)
Lemma set_message_spec d peer ai :
  sendable d → left_ok (default (peers d) peer) ai → (peers d = [] → peer = None ∧ ai = []) →
  ∃ l ps' ai', set_message SBS d peer ai = (enc_message d (if peer is None then true else false) l, ps', ai') ∧
    split (default (peers d) peer) ai l ps' ai' ∧ left_ok ps' ai' ∧
    nlmsg_len (enc_message d (if peer is None then true else false) l) <= SBS ∧
    (default (peers d) peer ≠ [] → (left_size ps' ai' < left_size (default (peers d) peer) ai)%nat).
Proof.
  intros Hd Hok Hnil. unfold set_message, enc_message. set (first := if peer is None then true else false).
  pose proof (enc_head_length d first Hd) as Hh. pose proof (head_spec d first Hd) as He.
  replace (match peer with Some _ => _ | None => _ end) with (enc_head d first) by (rewrite <- He; by destruct peer). clear He.
  assert (Hh' : nlmsg_len (enc_head d first) <= 100) by (unfold nlmsg_len, NLMSG_HDRLEN; lia).
  destruct (peers d) as [|p0 ps0] eqn:Ep.
  { destruct (Hnil eq_refl) as [-> ->]. exists [], [], []. rewrite app_nil_r. cbn [default] in *.
    split_and!; [done|apply split_stop|done..|lia|done]. }
  set (ps := default (p0 :: ps0) peer) in *. clear Hnil.
  destruct (mnl_attr_nest_start (enc_head d first) WGDEVICE_A_PEERS) as [nlh1 nst] eqn:E.
  pose proof (start_len (enc_head d first) WGDEVICE_A_PEERS) as Hl1. rewrite E in Hl1. cbn [fst] in Hl1.
  destruct (put_peers_spec nlh1 ps ai Hok ltac:(lia) ltac:(lia)) as (l & ps' & ai' & -> & Hsp & Hok' & Hl & Hsize).
  assert (Hfit : nlmsg_len (enc_head d first ++ nest WGDEVICE_A_PEERS (flat_map enc_piece l)) <= SBS).
  { rewrite nlmsg_len_app in Hl |- *. rewrite nest_length. lia. }
  pose proof (nest_fits (enc_head d first) WGDEVICE_A_PEERS (flat_map enc_piece l) ltac:(done) Hfit) as He. rewrite E in He. cbn [fst snd] in He.
  exists l, ps', ai'. rewrite He. split_and!; try done; [apply Hok'..|]. intros Hne. apply Hsize; [done|lia].
Qed.

Lemma set_loop_spec fuel d peer ai :
  sendable d → left_ok (default (peers d) peer) ai → (peers d = [] → peer = None ∧ ai = []) →
  (left_size (default (peers d) peer) ai < fuel)%nat →
  ∃ ms, (∀ seq portid transact n o, set_loop SBS seq portid transact fuel n d peer ai o =
                                    send_all seq portid transact n (enc_messages d (if peer is None then true else false) ms) o) ∧
    pieces (default (peers d) peer) ai (concat ms) ∧
    Forall (λ m, nlmsg_len m <= SBS) (enc_messages d (if peer is None then true else false) ms) ∧ ms ≠ [].
Proof.
  intros Hd. revert peer ai. induction fuel as [|fuel IH]; intros peer ai Hok Hnil Hf; [lia|]. cbn [set_loop].
  destruct (set_message_spec d peer ai Hd Hok Hnil) as (l & ps' & ai' & -> & Hsp & Hok' & Hl & Hsize).
  assert (Hstop : ps' = [] → ai' = []) by (intros ->; destruct ai'; [done|]; by destruct Hok' as (_ & _ & (? & ? & ? & _))).
  destruct ps' as [|p' ps'].
  { exists [l]. rewrite Hstop in Hsp by done. split_and!; [|apply (split_pieces _ _ _ [] []); [done|by exists []]|by constructor|done].
    intros seq portid transact n o. cbn [enc_messages send_all]. unfold mbind, M_bind, fmap, mret, M_ret. cbn [list_fmap send_all].
    destruct (set_send _ _ _ _ _ _) as [[ret o']| | |] eqn:Es; [|done..]. destruct (truthy ret) eqn:Et; [done|].
    by apply negb_false_iff, Z.eqb_eq in Et as ->. }
  assert (Hps : default (peers d) peer ≠ []) by (intros Hx; rewrite Hx in Hsp; inversion Hsp).
  destruct (IH (Some (p' :: ps')) ai') as (ms & Hrun & Hpc & Hfit & Hne); [done| |specialize (Hsize Hps); change (default (peers d) (Some ?x)) with x; lia|].
  { intros Hx. destruct (Hnil Hx) as [-> ->]. by rewrite Hx in Hps. }
  exists (l :: ms). destruct ms as [|m ms]; [done|]. cbn [default enc_messages] in *.
  split_and!; [|by eapply split_pieces|by constructor|done].
  intros seq portid transact n o. cbn [send_all]. rewrite fmap_cons. unfold mbind at 1 3, M_bind. destruct (set_send _ _ _ _ _ _) as [[ret o']| | |]; [|done..].
  destruct (truthy ret); [done|]. unfold mbind, M_bind. by rewrite Hrun.
Qed.

Lemma set_device_messages d :
  sendable d →
  ∃ ms, (∀ socket_open seq portid transact o,
           kernel_set_device SBS socket_open seq portid transact d o =
             (nlg ← socket_open; match nlg with inl e => mret ([], - e) | inr _ => send_all seq portid transact 0 (enc_messages d true ms) end) o) ∧
    Forall (λ m, nlmsg_len m <= SBS) (enc_messages d true ms) ∧
    ms ≠ [] ∧ ∃ ls, concat ms = concat ls ∧ Forall2 pieces_of (peers d) ls.
Proof.
  intros Hd. destruct (set_loop_spec (set_fuel d) d None [] Hd) as (ms & Hrun & Hpc & Hfit & Hms); [|done|cbn [default]; rewrite left_size_nil; unfold set_fuel; lia|].
  - destruct Hd as [(_ & _ & _ & _ & Hp) _ He]. split_and!; [|done..]. apply Forall_forall. intros p Hin.
    rewrite Forall_forall in Hp, He. split; auto.
  - exists ms. split_and!; [|done..]. intros socket_open seq portid transact o. unfold kernel_set_device, mbind, M_bind. destruct (socket_open o) as [[[e|id] o']| | |]; [done|apply Hrun|done..].
Qed.

(** C8: [kernel_set_device] cuts a device into messages that fit the socket's buffer
    of 512 bytes or more.  Once the socket is open, and whatever the kernel answers, it sends these messages in
    order until one is not accepted, and returns that error or 0; the fuel is enough.
    Their pieces are the peers of the device: each begins once, with its settings,
    and its pieces carry all its addresses in order; a continuation is never empty. *)
Theorem kernel_set_device_messages d :
  sendable d →
  ∃ ms, (∀ socket_open seq portid transact o,
           kernel_set_device SBS socket_open seq portid transact d o =
             (nlg ← socket_open; match nlg with inl e => mret ([], - e) | inr _ => send_all seq portid transact 0 (enc_messages d true ms) end) o) ∧
    Forall (λ m, nlmsg_len m <= SBS) (enc_messages d true ms) ∧
    ∃ ls, concat ms = concat ls ∧ Forall2 pieces_of (peers d) ls.
Proof. intros Hd. destruct (set_device_messages d Hd) as (ms & H1 & H2 & _ & H3). eauto. Qed.
End Sending.

(** ** A device *)

Definition sample_ip (n : Z) : wgallowedip := {| family := AF_INET6; ip := 253 :: replicate 14 0 ++ [n]; cidr := 128; ai_flags := 0 |}.
Definition sample_peer (n : Z) (ips : list wgallowedip) : wgpeer :=
  {| p_flags := WGPEER_HAS_PUBLIC_KEY .| WGPEER_HAS_PRESHARED_KEY .| WGPEER_REPLACE_ALLOWEDIPS .| WGPEER_HAS_PERSISTENT_KEEPALIVE_INTERVAL;
     p_public_key := replicate 32 n; preshared_key := replicate 32 (n + 1);
     endpoint := {| sa_family := AF_INET; sin_port := 51820; sin_addr := [192; 0; 2; n]; sin6_extra := [] |};
     tv_sec := 0; tv_nsec := 0; rx_bytes := 0; tx_bytes := 0; persistent_keepalive_interval := 25; allowedips := ips; last_allowedip := None |}.
Definition sample_device : wgdevice :=
  {| name := str "wg0"; ifindex := 0; flags := WGDEVICE_HAS_PRIVATE_KEY .| WGDEVICE_HAS_LISTEN_PORT .| WGDEVICE_REPLACE_PEERS;
     public_key := replicate 32 0; private_key := replicate 32 7; fwmark := 0; listen_port := 51820;
     peers := [sample_peer 1 (sample_ip <$> [1; 2; 3; 4; 5; 6; 7; 8; 9; 10; 11; 12]); sample_peer 2 [sample_ip 13]]; last_peer := None |}.

Lemma sample_ip_ok n : 0 <= n < 256 → allowedip_ok (sample_ip n).
Proof.
  intros Hn. split; [done|]. split; [|split; [right; cbn; unfold AF_INET6; lia|by left]].
  cbn. rewrite andb_true_r. unfold is_byte. lia.
Qed.
Lemma sample_peer_ok n ips : 0 <= n < 255 → Forall allowedip_ok ips → sendable_peer (sample_peer n ips).
Proof.
  intros Hn Hi. assert (Hk : ∀ x, 0 <= x < 256 → key_ok (replicate 32 x) = true).
  { intros x Hx. apply key_ok_spec. split; [apply length_replicate|]. unfold all_bytes. apply forallb_forall. intros y Hy%list_elem_of_In.
    apply elem_of_replicate in Hy as [-> _]. unfold is_byte. lia. }
  split; [|right; left; done]. split_and!; cbn [sample_peer p_public_key preshared_key endpoint persistent_keepalive_interval allowedips]; try done.
  - apply Hk. lia.
  - apply Hk. lia.
  - split; [by right; left|cbn; lia].
Qed.
Lemma sample_sendable : sendable sample_device.
Proof.
  assert (Hp : Forall sendable_peer (peers sample_device)).
  { cbn [sample_device peers]. constructor; [|constructor; [|constructor]]; apply sample_peer_ok; try lia.
    - apply Forall_fmap. repeat (constructor; [apply sample_ip_ok; lia|]). constructor.
    - constructor; [apply sample_ip_ok; lia|constructor]. }
  split.
  - split_and!; try done. eapply Forall_impl; [exact Hp|]. by intros p [? _].
  - split; [apply Nat.ltb_lt; reflexivity|reflexivity].
  - eapply Forall_impl; [exact Hp|]. by intros p [_ ?].
Qed.

(** The buffer of 512 bytes takes two messages. *)
Example sample_messages :
  match run (kernel_set_device 512 (mret (inr 33)) 1 2 (λ _ _, (0, [inr (message_bytes NLMSG_ERROR 0 1 2 (replicate 20 0))])) sample_device) with
  | Done (msgs, ret) => Some (map (@length Z) msgs, ret)
  | _ => None
  end = Some ([464; 416]%nat, 0).
Proof. vm_compute. reflexivity. Qed.

Lemma kernel_set_device_messages_witness :
  ∃ ms, (∀ socket_open seq portid transact o,
           kernel_set_device 512 socket_open seq portid transact sample_device o =
             (nlg ← socket_open; match nlg with inl e => mret ([], - e) | inr _ => send_all seq portid transact 0 (enc_messages sample_device true ms) end) o) ∧
    Forall (λ m, nlmsg_len m <= 512) (enc_messages sample_device true ms) ∧
    ∃ ls, concat ms = concat ls ∧ Forall2 pieces_of (peers sample_device) ls.
Proof. apply (kernel_set_device_messages 512 ltac:(lia)). exact sample_sendable. Defined.
