(* ===== verification/IpcLinuxGetSpec.v ===== *)
(** * IpcLinuxGetSpec: what the Linux transport reads is what it wrote

    The callbacks of [kernel_get_device] run over the encodings of [IpcLinuxSpec],
    and [coalesce_peers] joins the pieces of a peer. *)

From Stdlib Require Import Ascii String Sorted.
From stdpp Require Import base numbers option sets list list_numbers strings.
From S2P Require Import Prelude CLib Ctype Encoding Containers Setconf Field25519 X25519 Netlink NetlinkSpec IpcLinux IpcLinuxSpec.
#[local] Open Scope c_scope.

(** ** What is read *)

Definition ip_view (a : wgallowedip) : wgallowedip :=
  {| family := family a; ip := if family a =? AF_INET then ip4 a ++ replicate 12 0 else ip a; cidr := cidr a; ai_flags := 0 |}.

Definition last_pos {A} (l : list A) : option nat := if l is [] then None else Some (length l - 1)%nat.

(** The peer that a piece becomes, and the one that the pieces of a peer become. *)
Definition settings_view (p : wgpeer) (first : bool) : wgpeer :=
  let psk := first && has_flag (p_flags p) WGPEER_HAS_PRESHARED_KEY in
  {| p_flags := if psk && negb (key_is_zero (preshared_key p)) then WGPEER_HAS_PUBLIC_KEY .| WGPEER_HAS_PRESHARED_KEY else WGPEER_HAS_PUBLIC_KEY;
     p_public_key := p_public_key p;
     preshared_key := if psk then preshared_key p else replicate WG_KEY_LEN 0;
     endpoint := if first && has_endpoint p then endpoint p else sockaddr_zero;
     tv_sec := 0; tv_nsec := 0; rx_bytes := 0; tx_bytes := 0;
     persistent_keepalive_interval :=
       if first && has_flag (p_flags p) WGPEER_HAS_PERSISTENT_KEEPALIVE_INTERVAL then persistent_keepalive_interval p else 0;
     allowedips := []; last_allowedip := None |}.
Definition with_ips (ips : list wgallowedip) (p : wgpeer) : wgpeer := set_last_allowedip (last_pos ips) (set_allowedips ips p).
Definition piece_view (x : piece) : wgpeer := with_ips (ip_view <$> pc_ips x) (settings_view (pc_peer x) (pc_first x)).
Definition peer_view (p : wgpeer) : wgpeer := with_ips (ip_view <$> allowedips p) (settings_view p true).

Definition device_view (d : wgdevice) (first : bool) (ps : list wgpeer) : wgdevice :=
  let key := first && has_flag (flags d) WGDEVICE_HAS_PRIVATE_KEY in
  {| name := name d; ifindex := 0; flags := if key then WGDEVICE_HAS_PRIVATE_KEY else 0; public_key := replicate WG_KEY_LEN 0;
     private_key := if key then private_key d else replicate WG_KEY_LEN 0;
     fwmark := if first && has_flag (flags d) WGDEVICE_HAS_FWMARK then fwmark d else 0;
     listen_port := if first && has_flag (flags d) WGDEVICE_HAS_LISTEN_PORT then listen_port d else 0;
     peers := ps; last_peer := last_pos ps |}.

(** ** Values *)

Lemma le_value_bytes n v : 0 <= v < 256 ^ Z.of_nat n → le_value (le_bytes n v) = v.
Proof.
  revert v. induction n as [|n IH]; intros v Hv; [cbn in *; lia|]. rewrite Nat2Z.inj_succ, Z.pow_succ_r in Hv by lia.
  cbn [le_bytes le_value]. rewrite IH; [|split; [apply Z.div_pos; lia|apply Z.div_lt_upper_bound; lia]].
  pose proof (Z.div_mod v 256). lia.
Qed.

Section Values.
Context (x : bytes) (t : Z) (data : bytes) (A : is_attr x t data).

Lemma a_u8 tail : length data = 1%nat → mnl_attr_get_u8 (x ++ tail) = le_value data.
Proof. intros H. unfold mnl_attr_get_u8. by rewrite (a_all _ _ _ A). Qed.
Lemma a_u16 tail : length data = 2%nat → mnl_attr_get_u16 (x ++ tail) = le_value data.
Proof. intros H. unfold mnl_attr_get_u16. by rewrite (a_all _ _ _ A). Qed.
Lemma a_u32 tail : length data = 4%nat → mnl_attr_get_u32 (x ++ tail) = le_value data.
Proof. intros H. unfold mnl_attr_get_u32. by rewrite (a_all _ _ _ A). Qed.
Lemma a_valid tail ty : data_type_len ty = Z.of_nat (length data) → data ≠ [] → mnl_attr_validate (x ++ tail) ty = 0.
Proof.
  intros H Hne. unfold mnl_attr_validate. rewrite (a_payload_len _ _ _ A), H, Z.ltb_irrefl, andb_false_r.
  destruct data; [done|]. destruct ty; done.
Qed.
Lemma a_valid_string tail : data ≠ [] → mnl_attr_validate (x ++ tail) MNL_TYPE_STRING = 0.
Proof. intros Hne. unfold mnl_attr_validate. rewrite (a_payload_len _ _ _ A). by destruct data. Qed.
End Values.

(** Decide the comparisons of constants. *)
Ltac eqb_consts :=
  repeat match goal with
  | |- context [?a =? ?b] =>
      let v := eval vm_compute in (a =? b) in
      match v with true => idtac | false => idtac end; change (a =? b) with v; cbn iota
  end.

(** One attribute with a value. *)
Ltac read_leaf :=
  match goal with
  | |- reads _ (leaf ?t ?data) _ _ =>
      let A := fresh "A" in
      assert (A : is_attr (leaf t data) t data) by (apply leaf_is_attr; [done|rewrite ?le_bytes_length; try lia]);
      eapply reads_attr; [exact A|]; intros tail
  end.

Ltac side := first [done | lia | rewrite ?le_bytes_length; done | rewrite ?le_bytes_length; lia].

Lemma cstr_app s rest : cstring s = true → cstr (s ++ 0 :: rest) = s.
Proof.
  intros Hs. unfold cstr. rewrite index_of_eqb_app; [by rewrite take_app_length|].
  unfold cstring in Hs. rewrite forallb_forall in Hs. intros H%list_elem_of_In%Hs. done.
Qed.

Lemma a_str x t s tail : is_attr x t (s ++ [0]) → cstring s = true → mnl_attr_get_str (x ++ tail) = s.
Proof.
  intros A Hs. unfold mnl_attr_get_str. destruct (a_payload _ _ _ A tail) as [rest ->]. rewrite <- app_assoc. by apply cstr_app.
Qed.

(** ** Allowed addresses *)

Lemma reads_address e a a0 :
  allowedip_ok a → ip a0 = replicate 16 0 →
  reads parse_allowedip (leaves (address_attr a)) (e, a0)
    (e, {| family := family a0; ip := ip (ip_view a); cidr := cidr a0; ai_flags := ai_flags a0 |}).
Proof.
  intros Ha H0. pose proof (allowedip_ip_length a Ha) as [H4 H6]. destruct Ha as (_ & _ & Hf & _). unfold address_attr, ip_view. cbn [ip].
  destruct Hf as [[-> _]|[-> _]]; eqb_consts; rewrite leaves_cons, app_nil_r; cbn [fst snd]; read_leaf;
    unfold parse_allowedip; rewrite (a_type _ _ _ A), (a_payload_len _ _ _ A), ?H4, ?H6; eqb_consts.
  - rewrite (a_all _ _ _ A) by done. cbn [fst snd]. unfold store_ip. by rewrite H0, H4.
  - rewrite (a_all _ _ _ A) by done. cbn [fst snd]. unfold store_ip. rewrite H0, H6. cbn [drop replicate]. by rewrite app_nil_r.
Qed.

Lemma reads_ip e a : allowedip_ok a → reads parse_allowedip (leaves (ip_attrs a)) (e, wgallowedip_zero) (e, ip_view a).
Proof.
  intros Ha. pose proof Ha as (Hl & Hb & Hf & Hg). unfold ip_attrs.
  assert (Hfam : 0 <= family a < 65536 ∧ 0 <= cidr a < 256).
  { unfold AF_INET, AF_INET6 in Hf. lia. }
  rewrite leaves_cons, leaves_app, leaves_cons. cbn [fst snd].
  apply (read_app _ _ _ _ (e, set_family (family a) wgallowedip_zero)); [|eapply read_app; [by apply reads_address|eapply read_app]].
  - read_leaf. unfold parse_allowedip, validated. rewrite (a_type _ _ _ A). eqb_consts.
    rewrite (a_valid _ _ _ A), (a_u16 _ _ _ A), u16_small, le2_value by side. done.
  - read_leaf. unfold parse_allowedip, validated. rewrite (a_type _ _ _ A). eqb_consts.
    rewrite (a_valid _ _ _ A), (a_u8 _ _ _ A), u8_small, le_value_bytes by side. done.
  - unfold opt. case_match; [|apply reads_nil]. rewrite leaves_cons, app_nil_r. cbn [fst snd]. read_leaf.
    unfold parse_allowedip. rewrite (a_type _ _ _ A). eqb_consts. done.
Qed.

Lemma last_pos_cursor {A} (l : list A) : cursor_ok l (last_pos l).
Proof. destruct l; [done|]. cbn. lia. Qed.
Lemma last_pos_snoc {A} (l : list A) x : last_pos (l ++ [x]) = Some (length l).
Proof. destruct l; [done|]. cbn. rewrite length_app. cbn. f_equal. lia. Qed.
Lemma with_ips_twice k l p : with_ips k (with_ips l p) = with_ips k p.
Proof. done. Qed.

Lemma link_last {A} (l : list A) x y :
  alter (λ _, y) (length (link_after l (last_pos l) x) - 1)%nat (link_after l (last_pos l) x) = l ++ [y].
Proof.
  rewrite link_after_app by apply last_pos_cursor. rewrite length_app. cbn [length].
  rewrite alter_app_r_alt by lia. replace (length l + 1 - 1 - length l)%nat with O by lia. done.
Qed.
Lemma next_last {A} (l : list A) x : Some (next_pos (last_pos l)) = last_pos (l ++ [x]).
Proof. by rewrite last_pos_snoc, (cursor_ok_pos l) by apply last_pos_cursor. Qed.

Lemma fill_allowedip x y k p : put_last_allowedip y (add_allowedip x (with_ips k p)) = with_ips (k ++ [y]) p.
Proof.
  unfold put_last_allowedip, add_allowedip, with_ips, set_allowedips, set_last_allowedip, peer_with. cbn. by rewrite link_last, (next_last k y).
Qed.

Lemma allowedip_bound a :
  allowedip_ok a → ((family a =? AF_INET) && (cidr a <=? 32)) || ((family a =? AF_INET6) && (cidr a <=? 128)) = true.
Proof.
  intros (_ & _ & Hf & _). destruct Hf as [[-> Hc]|[-> Hc]]; eqb_consts; cbn [andb orb]; [rewrite orb_true_iff; left|]; apply Z.leb_le; lia.
Qed.

Lemma enc_ip_is_attr a : allowedip_ok a → is_attr (enc_ip a) 0 (leaves (ip_attrs a)).
Proof.
  intros Ha. pose proof (enc_ip_length a Ha) as Hl. unfold enc_ip in Hl. rewrite nest_length in Hl.
  apply nest_is_attr; [done|lia|apply leaves_aligned].
Qed.

Lemma reads_ips e l k p :
  Forall allowedip_ok l → reads parse_allowedips (flat_map enc_ip l) (e, with_ips k p) (e, with_ips (k ++ (ip_view <$> l)) p).
Proof.
  intros Hl. revert k. induction Hl as [|a l Ha _ IH]; intros k; [rewrite app_nil_r; apply reads_nil|]. cbn [flat_map].
  eapply read_app; [|rewrite fmap_cons, cons_middle, app_assoc; apply IH].
  eapply reads_attr; [by apply enc_ip_is_attr|]. intros tail. unfold parse_allowedips. unfold mbind at 1, M_bind. cbn [alloc negb].
  unfold mbind at 1, M_bind. rewrite (reads_nested _ _ _ _ _ _ _ (enc_ip_is_attr a Ha) (reads_ip e a Ha)). cbn [fst snd].
  change (MNL_CB_OK =? 0) with false. cbn iota. change (family (ip_view a)) with (family a). change (cidr (ip_view a)) with (cidr a).
  rewrite allowedip_bound by done. cbn [negb]. unfold mret, M_ret. by rewrite fill_allowedip.
Qed.

(** ** Peers *)

Lemma sockaddr_roundtrip sa :
  memory_endpoint sa → 0 <= sin_port sa < 65536 → sa_family sa = AF_INET ∨ sa_family sa = AF_INET6 →
  sockaddr_family (sockaddr_bytes sa) = sa_family sa ∧ sockaddr_of (sockaddr_bytes sa) = sa.
Proof.
  intros He Hp Hf. assert (Hfam : sockaddr_family (sockaddr_bytes sa) = sa_family sa).
  { unfold sockaddr_family, sockaddr_bytes. rewrite take_app_length' by done. destruct Hf as [->| ->]; reflexivity. }
  split; [done|]. unfold sockaddr_of. rewrite Hfam. unfold sockaddr_bytes, be16. unfold memory_endpoint in He.
  assert (Hport : sin_port sa / 256 * 256 + sin_port sa mod 256 = sin_port sa) by (pose proof (Z.div_mod (sin_port sa) 256); lia).
  assert (Hx : sa_family sa = AF_INET6 → length (sin_addr sa) = 16%nat ∧ length (extra_bytes sa) = 8%nat ∧
    (if bool_decide (extra_bytes sa = replicate 8 0) then [] else extra_bytes sa) = sin6_extra sa).
  { intros E. unfold extra_bytes. destruct He as [He|[[He _]|(_ & Hl & Hx)]]; [rewrite E in He; discriminate He..|]. split; [done|].
    destruct Hx as [->|[Hlx Hne]]; [by rewrite bool_decide_true|]. destruct (sin6_extra sa); [done|]. by rewrite bool_decide_false. }
  destruct sa as [fam port addr extra]. cbn [sa_family sin_port sin_addr sin6_extra] in *.
  destruct Hf as [->| ->]; eqb_consts; cbn [le_bytes app];
    change (at_ (?a :: ?b :: ?c :: ?d :: ?r) 2) with c; change (at_ (?a :: ?b :: ?c :: ?d :: ?r) 3) with d; rewrite ?Hport.
  - destruct He as [He|[(_ & Hl & ->)|[He _]]]; [discriminate He| |discriminate He]. f_equal. cbn [drop]. by apply take_app_length'.
  - destruct (Hx eq_refl) as (Hl & Hle & Hex). clear Hx He. set (E := extra_bytes _) in *.
    change (drop 4 (?a :: ?b :: ?c :: ?d :: ?r)) with r. change (drop 8 (?a :: ?b :: ?c :: ?d :: ?r)) with (drop 4 r).
    change (drop 24 (?a :: ?b :: ?c :: ?d :: ?r)) with (drop 20 r).
    rewrite (take_app_length' (take 4 E)), (drop_app_length' (take 4 E)), take_app_length' by (rewrite ?length_take; lia).
    rewrite app_assoc, drop_app_length' by (rewrite length_app, length_take; lia).
    rewrite (take_ge (drop 4 E)), take_drop, Hex by (rewrite length_drop; lia). done.
Qed.

Lemma read_opt {X} (cb : bytes → Z * X → M (Z * (Z * X))) b t data e x x' :
  (b = true → reads cb (leaf t data) (e, x) (e, x')) → reads cb (leaves (opt b (t, data))) (e, x) (e, if b then x' else x).
Proof. destruct b; intros H; [|apply reads_nil]. cbn [opt]. rewrite leaves_cons, app_nil_r. by apply H. Qed.
Lemma reads_eq {St} (cb : bytes → St → M (Z * St)) b st st1 st2 : reads cb b st st1 → st1 = st2 → reads cb b st st2.
Proof. by intros H <-. Qed.

Section Peer_attrs.
Context (e : Z) (q : wgpeer).

Lemma reads_public_key k : key_ok k = true →
  reads parse_peer (leaf WGPEER_A_PUBLIC_KEY k) (e, q) (e, set_p_flags (set_flag (p_flags q) WGPEER_HAS_PUBLIC_KEY) (set_p_public_key k q)).
Proof.
  intros Hk%key_ok_length. read_leaf. unfold parse_peer. rewrite (a_type _ _ _ A), (a_payload_len _ _ _ A), Hk. eqb_consts.
  by rewrite (a_all _ _ _ A).
Qed.
Lemma reads_preshared_key k : key_ok k = true →
  reads parse_peer (leaf WGPEER_A_PRESHARED_KEY k) (e, q)
    (e, if negb (key_is_zero k) then set_p_flags (set_flag (p_flags q) WGPEER_HAS_PRESHARED_KEY) (set_preshared_key k q) else set_preshared_key k q).
Proof.
  intros Hk%key_ok_length. read_leaf. unfold parse_peer. rewrite (a_type _ _ _ A), (a_payload_len _ _ _ A), Hk. eqb_consts.
  by rewrite (a_all _ _ _ A).
Qed.
Lemma reads_endpoint p : memory_endpoint (endpoint p) → endpoint_ok (endpoint p) → has_endpoint p = true →
  reads parse_peer (leaf WGPEER_A_ENDPOINT (sockaddr_bytes (endpoint p))) (e, q) (e, set_endpoint (endpoint p) q).
Proof.
  intros He [_ Hport] Hh. destruct (sockaddr_bytes_length _ He) as [H4 H6]. unfold has_endpoint in Hh.
  apply orb_true_iff in Hh. rewrite !Z.eqb_eq in Hh. destruct (sockaddr_roundtrip _ He Hport Hh) as [Hf Hs].
  assert (Z.of_nat (length (sockaddr_bytes (endpoint p))) <= 28) by (destruct Hh as [E|E]; [rewrite (H4 E)|rewrite (H6 E)]; lia).
  read_leaf. unfold parse_peer. rewrite (a_type _ _ _ A), (a_payload_len _ _ _ A), Nat2Z.id. eqb_consts.
  rewrite (a_all _ _ _ A), Hf, Hs by done.
  destruct Hh as [E|E]; [rewrite E, (H4 E)|rewrite E, (H6 E)]; reflexivity.
Qed.
Lemma reads_keepalive k : 0 <= k < 65536 →
  reads parse_peer (leaf WGPEER_A_PERSISTENT_KEEPALIVE_INTERVAL (le_bytes 2 (u16 k))) (e, q) (e, set_keepalive k q).
Proof.
  intros Hk. read_leaf. unfold parse_peer, validated. rewrite (a_type _ _ _ A). eqb_consts.
  rewrite (a_valid _ _ _ A), (a_u16 _ _ _ A), u16_small, le2_value by side. done.
Qed.
Lemma reads_flags v : reads parse_peer (leaf WGPEER_A_FLAGS (le_bytes 4 v)) (e, q) (e, q).
Proof. read_leaf. unfold parse_peer. rewrite (a_type _ _ _ A). eqb_consts. done. Qed.
End Peer_attrs.

Lemma reads_peer_attrs e p first :
  sendable_peer p → reads parse_peer (leaves (peer_attrs p first)) (e, wgpeer_zero) (e, settings_view p first).
Proof.
  intros [(Hk & Hpsk & He & Hka & _) Hm]. unfold peer_attrs. rewrite leaves_cons, leaves_app. cbn [fst snd].
  eapply read_app; [by apply reads_public_key|]. eapply read_app; [|eapply reads_eq; [apply read_opt; intros _; apply reads_flags|by case_match]].
  destruct first; [|apply reads_nil]. unfold settings. rewrite !leaves_app. eapply reads_eq.
  - eapply read_app; [apply read_opt; intros _; by apply reads_preshared_key|].
    eapply read_app; [apply read_opt; intros Hh; by apply reads_endpoint|apply read_opt; intros _; by apply reads_keepalive].
  - unfold settings_view. by destruct (has_flag _ WGPEER_HAS_PRESHARED_KEY), (key_is_zero _), (has_endpoint p),
      (has_flag _ WGPEER_HAS_PERSISTENT_KEEPALIVE_INTERVAL).
Qed.

(** The body of a piece. *)
Lemma reads_piece_body e x :
  sendable_peer (pc_peer x) → Forall allowedip_ok (pc_ips x) → Z.of_nat (length (enc_piece x)) < 65536 →
  reads parse_peer (leaves (peer_attrs (pc_peer x) (pc_first x)) ++ if pc_list x is Some l then nest WGPEER_A_ALLOWEDIPS (flat_map enc_ip l) else [])
    (e, wgpeer_zero) (e, piece_view x).
Proof.
  intros Hp Hi Hl. eapply read_app; [by apply reads_peer_attrs|]. unfold piece_view. unfold pc_ips in *.
  unfold enc_piece in Hl. rewrite nest_length, length_app in Hl.
  destruct (pc_list x) as [l|]; [|apply reads_nil]. cbn [default from_option id] in *. rewrite nest_length in Hl.
  assert (A : is_attr (nest WGPEER_A_ALLOWEDIPS (flat_map enc_ip l)) WGPEER_A_ALLOWEDIPS (flat_map enc_ip l)).
  { apply nest_is_attr; [done|lia|apply flat_map_aligned, enc_ip_aligned]. }
  eapply reads_attr; [exact A|]. intros tail. unfold parse_peer. rewrite (a_type _ _ _ A). eqb_consts.
  apply (reads_nested _ _ _ _ _ _ _ A). apply (reads_ips e l [] (settings_view _ _)). done.
Qed.

Lemma fill_peer x y d k : peers d = k → last_peer d = last_pos k →
  put_last_peer y (add_peer x d) = set_last_peer (last_pos (k ++ [y])) (set_peers (k ++ [y]) d).
Proof.
  intros Hk Hl. unfold put_last_peer, add_peer, update_peer, set_peers, set_last_peer, device_with. cbn. by rewrite Hk, Hl, link_last, (next_last k y).
Qed.

Lemma piece_view_flags x : has_flag (p_flags (piece_view x)) WGPEER_HAS_PUBLIC_KEY = true.
Proof. unfold piece_view, with_ips, settings_view. cbn. by case_match. Qed.

Definition piece_ok (x : piece) : Prop := sendable_peer (pc_peer x) ∧ Forall allowedip_ok (pc_ips x) ∧ Z.of_nat (length (enc_piece x)) < 65536.

Lemma enc_piece_is_attr x : piece_ok x → 
  is_attr (enc_piece x) 0 (leaves (peer_attrs (pc_peer x) (pc_first x)) ++ if pc_list x is Some l then nest WGPEER_A_ALLOWEDIPS (flat_map enc_ip l) else []).
Proof.
  intros (_ & _ & Hl). unfold enc_piece in *. rewrite nest_length in Hl. apply nest_is_attr; [done|lia|].
  apply aligned_app; [apply leaves_aligned|]. case_match; [|done]. apply nest_aligned, flat_map_aligned, enc_ip_aligned.
Qed.

(** [with_peers k d]: the peers read so far. *)
Definition with_peers (k : list wgpeer) (d : wgdevice) : wgdevice := set_last_peer (last_pos k) (set_peers k d).

Lemma reads_pieces e l k d : Forall piece_ok l →
  reads parse_peers (flat_map enc_piece l) (e, with_peers k d) (e, with_peers (k ++ (piece_view <$> l)) d).
Proof.
  intros Hl. revert k. induction Hl as [|x l Hx _ IH]; intros k; [rewrite app_nil_r; apply reads_nil|]. cbn [flat_map].
  eapply read_app; [|rewrite fmap_cons, cons_middle, app_assoc; apply IH].
  eapply reads_attr; [by apply enc_piece_is_attr|]. intros tail. unfold parse_peers. unfold mbind at 1, M_bind. cbn [alloc negb].
  unfold mbind at 1, M_bind. destruct Hx as (Hp & Hi & Hs).
  rewrite (reads_nested _ _ _ _ _ _ _ (enc_piece_is_attr x ltac:(done)) (reads_piece_body e x Hp Hi Hs)). cbn [fst snd].
  change (MNL_CB_OK =? 0) with false. cbn iota. rewrite piece_view_flags. cbn [negb]. unfold mret, M_ret.
  by rewrite (fill_peer _ _ _ k).
Qed.

(** ** Devices *)

Section Device_attrs.
Context (e : Z) (q : wgdevice).

Lemma reads_name n : (length n < IFNAMSIZ)%nat → cstring n = true → reads parse_device (leaf WGDEVICE_A_IFNAME (n ++ [0])) (e, q) (e, set_name n q).
Proof.
  intros Hn Hc. assert (A : is_attr (leaf WGDEVICE_A_IFNAME (n ++ [0])) WGDEVICE_A_IFNAME (n ++ [0])).
  { apply leaf_is_attr; [done|]. rewrite length_app. cbn [length]. unfold IFNAMSIZ in Hn. lia. }
  eapply reads_attr; [exact A|]. intros tail. unfold parse_device, validated. rewrite (a_type _ _ _ A). eqb_consts.
  rewrite (a_valid_string _ _ _ A), (a_str _ _ _ _ A Hc) by (by destruct n). unfold store_name. rewrite take_ge by (unfold IFNAMSIZ in *; lia). done.
Qed.
Lemma reads_private_key k : key_ok k = true →
  reads parse_device (leaf WGDEVICE_A_PRIVATE_KEY k) (e, q) (e, set_flags (set_flag (flags q) WGDEVICE_HAS_PRIVATE_KEY) (set_private_key k q)).
Proof.
  intros Hk%key_ok_length. read_leaf. unfold parse_device. rewrite (a_type _ _ _ A), (a_payload_len _ _ _ A), Hk. eqb_consts.
  by rewrite (a_all _ _ _ A).
Qed.
Lemma reads_listen_port v : 0 <= v < 65536 → reads parse_device (leaf WGDEVICE_A_LISTEN_PORT (le_bytes 2 (u16 v))) (e, q) (e, set_listen_port v q).
Proof.
  intros Hv. read_leaf. unfold parse_device, validated. rewrite (a_type _ _ _ A). eqb_consts.
  rewrite (a_valid _ _ _ A), (a_u16 _ _ _ A), u16_small, le2_value by side. done.
Qed.
Lemma reads_fwmark v : 0 <= v < 2 ^ 32 → reads parse_device (leaf WGDEVICE_A_FWMARK (le_bytes 4 (u32 v))) (e, q) (e, set_fwmark v q).
Proof.
  intros Hv. read_leaf. unfold parse_device, validated. rewrite (a_type _ _ _ A). eqb_consts.
  rewrite (a_valid _ _ _ A), (a_u32 _ _ _ A), u32_small, le_value_bytes by side. done.
Qed.
Lemma reads_device_flags v : reads parse_device (leaf WGDEVICE_A_FLAGS (le_bytes 4 v)) (e, q) (e, q).
Proof. read_leaf. unfold parse_device. rewrite (a_type _ _ _ A). eqb_consts. done. Qed.

Lemma reads_peers l : Forall piece_ok l → Z.of_nat (length (nest WGDEVICE_A_PEERS (flat_map enc_piece l))) < 65536 →
  ∀ k, reads parse_device (nest WGDEVICE_A_PEERS (flat_map enc_piece l)) (e, with_peers k q) (e, with_peers (k ++ (piece_view <$> l)) q).
Proof.
  intros Hl Hs k. rewrite nest_length in Hs.
  assert (A : is_attr (nest WGDEVICE_A_PEERS (flat_map enc_piece l)) WGDEVICE_A_PEERS (flat_map enc_piece l)).
  { apply nest_is_attr; [done|lia|apply flat_map_aligned, enc_piece_aligned]. }
  eapply reads_attr; [exact A|]. intros tail. unfold parse_device. rewrite (a_type _ _ _ A). eqb_consts.
  apply (reads_nested _ _ _ _ _ _ _ A). by apply reads_pieces.
Qed.
End Device_attrs.

(** What follows the [struct genlmsghdr] of a message. *)
Definition body (d : wgdevice) (first : bool) (l : list piece) : bytes :=
  leaves ((WGDEVICE_A_IFNAME, name d ++ [0]) :: if first then device_attrs d else []) ++
  if peers d is [] then [] else nest WGDEVICE_A_PEERS (flat_map enc_piece l).
Lemma enc_message_body d first l : enc_message d first l = mnlg_msg_prepare WG_CMD_SET_DEVICE WG_GENL_VERSION ++ body d first l.
Proof. unfold enc_message, enc_head, body. by rewrite app_assoc. Qed.

Definition message_ok (d : wgdevice) (first : bool) (l : list piece) : Prop :=
  Forall piece_ok l ∧ nlmsg_len (enc_message d first l) < 65536 ∧ (peers d = [] → l = []).

Lemma message_nest d first l :
  message_ok d first l → Forall piece_ok l ∧ (peers d ≠ [] → Z.of_nat (length (nest WGDEVICE_A_PEERS (flat_map enc_piece l))) < 65536).
Proof.
  intros (Hl & Hs & _). split; [done|]. intros Hne. unfold enc_message, nlmsg_len in Hs. rewrite length_app in Hs. destruct (peers d); [done|lia].
Qed.

Lemma reads_peers_opt e d first l q k :
  message_ok d first l →
  reads parse_device (if peers d is [] then [] else nest WGDEVICE_A_PEERS (flat_map enc_piece l)) (e, with_peers k q)
    (e, with_peers (k ++ (piece_view <$> l)) q).
Proof.
  intros Hm. destruct (message_nest _ _ _ Hm) as [Hl Hs]. destruct Hm as (_ & _ & Hnil). destruct (peers d).
  - rewrite Hnil by done. rewrite app_nil_r. apply reads_nil.
  - by apply reads_peers, Hs.
Qed.

Lemma reads_first e d l : sendable d → message_ok d true l →
  reads parse_device (body d true l) (e, wgdevice_zero) (e, device_view d true (piece_view <$> l)).
Proof.
  intros [(_ & Hk & Hfw & Hport & _) [Hn Hc] _] Hm. unfold body, device_attrs. rewrite leaves_cons, !leaves_app. cbn [fst snd].
  eapply read_app; [|apply (reads_peers_opt e d true l (device_view d true []) []); done].
  eapply read_app; [by apply reads_name|]. eapply reads_eq.
  - eapply read_app; [apply read_opt; intros _; by apply reads_private_key|].
    eapply read_app; [apply read_opt; intros _; by apply reads_listen_port|].
    eapply read_app; [apply read_opt; intros _; by apply reads_fwmark|]. apply read_opt. intros _. apply reads_device_flags.
  - unfold device_view, with_peers. by destruct (has_flag _ WGDEVICE_HAS_PRIVATE_KEY), (has_flag _ WGDEVICE_HAS_LISTEN_PORT),
      (has_flag _ WGDEVICE_HAS_FWMARK), (has_flag _ WGDEVICE_REPLACE_PEERS).
Qed.

Lemma reads_next e d l k : sendable d → message_ok d false l →
  reads parse_device (body d false l) (e, device_view d true k) (e, device_view d true (k ++ (piece_view <$> l))).
Proof.
  intros [_ [Hn Hc] _] Hm. unfold body. rewrite leaves_cons. cbn [fst snd leaves flat_map]. rewrite app_nil_r.
  eapply read_app; [by apply reads_name|]. apply (reads_peers_opt e d false l (device_view d true k) k Hm).
Qed.

(** ** Messages in their datagrams *)

Section Frames.
(** The family's number, the flags, the sequence number and the port of the answer. *)
Context (type fl seq pid : Z).
Hypothesis Htype : NLMSG_MIN_TYPE <= type < 65536.
Hypothesis Hfl : 0 <= fl < 65536 ∧ fl .& NLM_F_DUMP_INTR = 0.
Hypothesis Hseq : 0 <= seq < 2 ^ 32.
Hypothesis Hpid : 0 <= pid < 2 ^ 32.

Lemma frame_fields_app t f m tail : nlmsg_len m < 65536 → 0 <= t < 65536 → 0 <= f < 65536 →
  let b := message_bytes t f seq pid m ++ tail in
  msg_len b = nlmsg_len m ∧ msg_type b = t ∧ msg_flags b = f ∧ msg_seq b = seq ∧ msg_pid b = pid ∧ mnl_nlmsg_get_payload b = m ++ tail.
Proof.
  intros Hm Ht Hf b. unfold b, message_bytes, msg_len, msg_type, msg_flags, msg_seq, msg_pid, mnl_nlmsg_get_payload.
  assert (Hm0 : 0 <= nlmsg_len m) by (unfold nlmsg_len; lia). rewrite <- !app_assoc. generalize (m ++ tail). intros k.
  rewrite (take_app_length' (le_bytes 4 _)) by done.
  rewrite (drop_app_length' _ _ 4), (take_app_length' (le_bytes 2 _)) by done.
  rewrite !app_assoc, <- (app_assoc _ (le_bytes 4 (u32 pid)) k), <- (app_assoc _ (le_bytes 4 (u32 seq))), <- (app_assoc _ (le_bytes 2 (u16 f))).
  rewrite (drop_app_length' _ _ 6), (take_app_length' (le_bytes 2 _)) by done.
  rewrite (app_assoc _ (le_bytes 2 (u16 f))), (drop_app_length' _ _ 8), (take_app_length' (le_bytes 4 _)) by done.
  rewrite (app_assoc _ (le_bytes 4 (u32 seq))), (drop_app_length' _ _ 12), (take_app_length' (le_bytes 4 _)) by done.
  rewrite (app_assoc _ (le_bytes 4 (u32 pid))), (drop_app_length' _ k) by done.
  rewrite !u32_small, !u16_small, !le_value_bytes by (try done; lia).
  split_and!; done.
Qed.

Lemma frame_fields t f m : nlmsg_len m < 65536 → 0 <= t < 65536 → 0 <= f < 65536 →
  let b := message_bytes t f seq pid m in
  msg_len b = nlmsg_len m ∧ msg_type b = t ∧ msg_flags b = f ∧ msg_seq b = seq ∧ msg_pid b = pid ∧
  mnl_nlmsg_get_payload b = m ∧ Z.of_nat (length b) = nlmsg_len m.
Proof.
  intros Hm Ht Hf. pose proof (frame_fields_app t f m [] Hm Ht Hf) as H. cbn zeta in H. rewrite !app_nil_r in H.
  destruct H as (? & ? & ? & ? & ? & ?). by split_and!.
Qed.

Lemma frame_accepted_app t f m tail n : nlmsg_len m < 65536 → 0 <= t < 65536 → 0 <= f < 65536 → nlmsg_len m <= n →
  let b := message_bytes t f seq pid m ++ tail in
  mnl_nlmsg_ok b n = true ∧ mnl_nlmsg_portid_ok b pid = true ∧ mnl_nlmsg_seq_ok b seq = true.
Proof.
  intros Hm Ht Hf Hn b. destruct (frame_fields_app t f m tail Hm Ht Hf) as (Hl & _ & _ & Hs & Hp & _). fold b in Hl, Hs, Hp.
  unfold mnl_nlmsg_ok, mnl_nlmsg_portid_ok, mnl_nlmsg_seq_ok. rewrite Hl, Hs, Hp, !Z.eqb_refl.
  assert (16 <= nlmsg_len m) by (unfold nlmsg_len, NLMSG_HDRLEN; lia).
  split; [|by split; case_match]. rewrite !andb_true_iff, !Z.leb_le. unfold NLMSG_HDRLEN, s32 in *.
  rewrite Z.mod_small by lia. lia.
Qed.

Lemma frame_accepted t f m : nlmsg_len m < 65536 → 0 <= t < 65536 → 0 <= f < 65536 →
  let b := message_bytes t f seq pid m in
  mnl_nlmsg_ok b (Z.of_nat (length b)) = true ∧ mnl_nlmsg_portid_ok b pid = true ∧ mnl_nlmsg_seq_ok b seq = true.
Proof.
  intros Hm Ht Hf b. pose proof (frame_fields t f m Hm Ht Hf) as (_ & _ & _ & _ & _ & _ & Hlen).
  pose proof (frame_accepted_app t f m [] (Z.of_nat (length b)) Hm Ht Hf ltac:(unfold b; lia)) as H. cbn zeta in H. by rewrite app_nil_r in H.
Qed.

(** The attributes of a message after a header of its protocol. *)
Lemma attr_parse_loop {St} (cb : bytes → St → M (Z * St)) t f hdr attrs tail st o :
  nlmsg_len (hdr ++ attrs) < 65536 → 0 <= t < 65536 → 0 <= f < 65536 → aligned hdr → aligned attrs →
  mnl_attr_parse (message_bytes t f seq pid (hdr ++ attrs) ++ tail) (length hdr) cb st o =
  attr_loop (S (length (message_bytes t f seq pid (hdr ++ attrs) ++ tail))) cb (attrs ++ tail) (Z.of_nat (length attrs)) MNL_CB_OK st o.
Proof.
  intros Hs Ht Hf Hh Ha. unfold mnl_attr_parse. destruct (frame_fields_app t f (hdr ++ attrs) tail Hs Ht Hf) as (Hl & _ & _ & _ & _ & Hp).
  rewrite (MNL_ALIGN_id (length hdr)) by done. unfold mnl_nlmsg_get_payload in Hp. rewrite <- drop_drop, Hp, Hl, <- app_assoc, drop_app_length.
  unfold nlmsg_len. rewrite Nat2Z.id, MNL_ALIGN_id by (rewrite Nat.Div0.add_mod, (aligned_app _ _ Hh Ha); done).
  by replace (Z.of_nat (NLMSG_HDRLEN + length (hdr ++ attrs)) - Z.of_nat (NLMSG_HDRLEN + length hdr)) with (Z.of_nat (length attrs)) by (rewrite length_app; lia).
Qed.
Lemma attr_parse_frame {St} (cb : bytes → St → M (Z * St)) t f hdr attrs tail st st' :
  nlmsg_len (hdr ++ attrs) < 65536 → 0 <= t < 65536 → 0 <= f < 65536 → aligned hdr → aligned attrs → reads cb attrs st st' →
  mnl_attr_parse (message_bytes t f seq pid (hdr ++ attrs) ++ tail) (length hdr) cb st [] = Done ((MNL_CB_OK, st'), []).
Proof.
  intros Hs Ht Hf Hh Ha Hr. rewrite attr_parse_loop by done. apply read_run; [done|]. unfold message_bytes. rewrite !length_app. lia.
Qed.

Lemma cb_run_end {X} fuel g (cb : option (bytes → Z * X → M (Z * (Z * X)))) sq pt b n ret st o :
  n < 16 → cb_run fuel g cb sq pt b n ret st o = Done ((ret, st), o).
Proof.
  intros Hn. destruct fuel; [done|]. cbn [cb_run]. unfold mnl_nlmsg_ok. by rewrite (proj2 (Z.leb_gt (Z.of_nat NLMSG_HDRLEN) n)) by (unfold NLMSG_HDRLEN; lia).
Qed.

(** One message for the callback, and the rest of the datagram. *)
Lemma cb_run_step {X} g (cb : bytes → Z * X → M (Z * (Z * X))) m tail fuel n ret st o :
  nlmsg_len m < 65536 → aligned m → 0 <= n →
  cb_run (S fuel) g (Some cb) seq pid (message_bytes type fl seq pid m ++ tail) (nlmsg_len m + n) ret st o =
  (r ← cb (message_bytes type fl seq pid m ++ tail) st;
   if r.1 <=? MNL_CB_STOP then mret r else cb_run fuel g (Some cb) seq pid tail n r.1 r.2) o.
Proof.
  intros Hs Ha Hn. assert (Ht : 0 <= type < 65536) by (unfold NLMSG_MIN_TYPE in Htype; lia).
  destruct (frame_accepted_app type fl m tail (nlmsg_len m + n) Hs Ht (proj1 Hfl) ltac:(lia)) as (Hok & Hport & Hsq).
  destruct (frame_fields_app type fl m tail Hs Ht (proj1 Hfl)) as (Hl & Hty & Hf & _).
  destruct (frame_fields type fl m Hs Ht (proj1 Hfl)) as (_ & _ & _ & _ & _ & _ & Hlen).
  assert (Hstep : MNL_ALIGN (Z.to_nat (nlmsg_len m)) = length (message_bytes type fl seq pid m)).
  { rewrite <- Hlen, Nat2Z.id, MNL_ALIGN_id; [done|]. apply Nat2Z.inj in Hlen as ->. rewrite Nat.Div0.add_mod, Ha. done. }
  cbn [cb_run]. rewrite Hok, Hport, Hsq, Hty, Hf, (proj2 Hfl), Hl. rewrite (proj2 (Z.leb_le NLMSG_MIN_TYPE type)) by lia.
  cbn [negb truthy Z.eqb]. rewrite Hstep, drop_app_length, Hlen. by replace (nlmsg_len m + n - nlmsg_len m) with n by lia.
Qed.
Lemma cb_run_data {X} g (cb : bytes → Z * X → M (Z * (Z * X))) m tail fuel n ret st r :
  nlmsg_len m < 65536 → aligned m → 0 <= n → cb (message_bytes type fl seq pid m ++ tail) st [] = Done (r, []) → MNL_CB_STOP < r.1 →
  cb_run (S fuel) g (Some cb) seq pid (message_bytes type fl seq pid m ++ tail) (nlmsg_len m + n) ret st [] =
  cb_run fuel g (Some cb) seq pid tail n r.1 r.2 [].
Proof.
  intros Hs Ha Hn Hcb Hr. rewrite cb_run_step by done. unfold mbind, M_bind. rewrite Hcb. by rewrite (proj2 (Z.leb_gt r.1 MNL_CB_STOP)) by done.
Qed.

(** A datagram of one message. *)
Lemma cb_run_one {X} (cb : bytes → Z * X → M (Z * (Z * X))) m st o r o' :
  nlmsg_len m < 65536 → aligned m → cb (message_bytes type fl seq pid m) st o = Done (r, o') →
  mnl_cb_run true (Some cb) seq pid (message_bytes type fl seq pid m) st o = Done (r, o').
Proof.
  intros Hs Ha Hcb. assert (Ht : 0 <= type < 65536) by (unfold NLMSG_MIN_TYPE in Htype; lia).
  destruct (frame_fields type fl m Hs Ht (proj1 Hfl)) as (_ & _ & _ & _ & _ & _ & Hlen). unfold mnl_cb_run. rewrite Hlen.
  pose proof (cb_run_step true cb m [] (length (message_bytes type fl seq pid m)) 0 MNL_CB_OK st o Hs Ha ltac:(lia)) as H.
  rewrite app_nil_r, Z.add_0_r in H. rewrite H. unfold mbind, M_bind. rewrite Hcb. case_match; [done|]. rewrite cb_run_end by lia. by destruct r.
Qed.

Lemma body_aligned d first l : aligned (body d first l).
Proof.
  unfold body. apply aligned_app; [apply leaves_aligned|]. case_match; [done|]. apply nest_aligned, flat_map_aligned, enc_piece_aligned.
Qed.

Lemma cb_run_frame e d first l st st' :
  message_ok d first l → reads parse_device (body d first l) (e, st) (e, st') →
  mnl_cb_run true (Some read_device_cb) seq pid (message_bytes type fl seq pid (enc_message d first l)) (e, st) [] =
    Done ((MNL_CB_OK, (e, st')), []).
Proof.
  intros (_ & Hs & _) Hr. rewrite enc_message_body in *. apply cb_run_one; [done|apply aligned_app; [done|apply body_aligned]|].
  pose proof (attr_parse_frame parse_device type fl (mnlg_msg_prepare WG_CMD_SET_DEVICE WG_GENL_VERSION) (body d first l) [] (e, st) (e, st') Hs
    ltac:(unfold NLMSG_MIN_TYPE in Htype; lia) (proj1 Hfl) ltac:(done) (body_aligned d first l) Hr) as H. by rewrite app_nil_r in H.
Qed.

(** The end of the dump. *)
Definition done_frame : bytes := message_bytes NLMSG_DONE NLM_F_MULTI seq pid (le_bytes 4 0).

Lemma cb_run_done {X} (cb : option (bytes → Z * X → M (Z * (Z * X)))) e st o :
  mnl_cb_run true cb seq pid done_frame (e, st) o = Done ((MNL_CB_STOP, (0, st)), o).
Proof.
  destruct (frame_accepted NLMSG_DONE NLM_F_MULTI (le_bytes 4 0)) as (Hok & Hport & Hsq); [done..|].
  destruct (frame_fields NLMSG_DONE NLM_F_MULTI (le_bytes 4 0)) as (Hl & Hty & Hf & _ & _ & Hp & Hlen); [done..|].
  unfold mnl_cb_run. fold done_frame in *. cbn [cb_run]. rewrite Hok, Hport, Hsq, Hty, Hf.
  change (truthy (NLM_F_MULTI .& NLM_F_DUMP_INTR)) with false. change (NLMSG_MIN_TYPE <=? NLMSG_DONE) with false. cbn [negb].
  unfold control_cb. rewrite Hty. eqb_consts. unfold mnlg_cb_stop. rewrite Hf, Hl, Hp. reflexivity.
Qed.

(** The answer with an error number, and the header of the message; 0 acknowledges it. *)
Definition error_frame (error : Z) : bytes := message_bytes NLMSG_ERROR 0 seq pid (le_bytes 4 (u32 error) ++ replicate 16 0).
Definition ack_frame : bytes := error_frame 0.

Lemma int_at_bytes error rest : - 2 ^ 31 <= error < 2 ^ 31 → int_at (le_bytes 4 (u32 error) ++ rest) = error.
Proof.
  intros He. unfold int_at. rewrite take_app_length' by done. rewrite le_value_bytes by (apply Z.mod_pos_bound; lia).
  unfold s32, u32. rewrite Zplus_mod_idemp_l, Z.mod_small by lia. lia.
Qed.

Lemma cb_run_error {X} g (cb : option (bytes → Z * X → M (Z * (Z * X)))) error st o :
  - 2 ^ 31 <= error < 2 ^ 31 →
  mnl_cb_run g cb seq pid (error_frame error) st o = Done ((if error =? 0 then MNL_CB_STOP else MNL_CB_ERROR, (Z.abs error, st.2)), o).
Proof.
  intros He. destruct (frame_accepted NLMSG_ERROR 0 (le_bytes 4 (u32 error) ++ replicate 16 0)) as (Hok & Hport & Hsq); [done..|].
  destruct (frame_fields NLMSG_ERROR 0 (le_bytes 4 (u32 error) ++ replicate 16 0)) as (Hl & Hty & Hf & _ & _ & Hp & Hlen); [done..|].
  fold (error_frame error) in Hok, Hport, Hsq, Hl, Hty, Hf, Hp, Hlen. unfold mnl_cb_run. cbn [cb_run]. rewrite Hok, Hport, Hsq, Hty, Hf.
  change (truthy (0 .& NLM_F_DUMP_INTR)) with false. change (NLMSG_MIN_TYPE <=? NLMSG_ERROR) with false. cbn [negb].
  unfold control_cb. rewrite Hty. eqb_consts. unfold error_cb. rewrite Hl, Hp, int_at_bytes by done.
  change (nlmsg_len (le_bytes 4 (u32 error) ++ replicate 16 0) <? _) with false. cbn iota. destruct (error =? 0); reflexivity.
Qed.

Lemma ack_accepted n m o : set_send seq pid (λ _ _, (0, [inr ack_frame])) n m o = Done (0, o).
Proof.
  unfold set_send. change (truthy 0) with false. cbn iota. cbn [mnlg_socket_recv_run].
  pose proof (cb_run_error true (None : option (bytes → Z * () → M (Z * (Z * ())))) 0 (0, ()) o ltac:(lia)) as Hr. fold ack_frame in Hr.
  destruct ack_frame; [done|]. unfold mbind, M_bind. rewrite Hr. reflexivity.
Qed.

Lemma send_all_acked n msgs : send_all seq pid (λ _ _, (0, [inr ack_frame])) n msgs [] = Done ((msgs, 0), []).
Proof.
  revert n. induction msgs as [|b msgs IH]; intros n; [done|]. cbn [send_all]. unfold mbind, M_bind. rewrite ack_accepted.
  change (truthy 0) with false. cbn beta iota. by rewrite IH.
Qed.

(** The answer to [kernel_get_device] made of the messages [ms] of [d]. *)
Definition answer (d : wgdevice) (ms : list (list piece)) : list (Z + bytes) :=
  (inr ∘ message_bytes type fl seq pid <$> enc_messages d true ms) ++ [inr done_frame].

Lemma frame_not_nil t f m : message_bytes t f seq pid m ≠ [].
Proof. done. Qed.

Lemma recv_frame {X} (cb : option (bytes → Z * X → M (Z * (Z * X)))) t f m rest st o r o' :
  mnl_cb_run true cb seq pid (message_bytes t f seq pid m) st o = Done (r, o') →
  mnlg_socket_recv_run cb seq pid (inr (message_bytes t f seq pid m) :: rest) st o =
    if 0 <? r.1 then mnlg_socket_recv_run cb seq pid rest r.2 o' else Done (r, o').
Proof.
  intros H. cbn [mnlg_socket_recv_run]. destruct (message_bytes t f seq pid m) eqn:E; [by apply frame_not_nil in E|].
  unfold mbind, M_bind. rewrite H. by case_match.
Qed.

Lemma recv_next e d ms k : sendable d → Forall (message_ok d false) ms →
  mnlg_socket_recv_run (Some read_device_cb) seq pid
    ((inr ∘ message_bytes type fl seq pid <$> (enc_message d false <$> ms)) ++ [inr done_frame]) (e, device_view d true k) [] =
  Done ((MNL_CB_STOP, (0, device_view d true (k ++ (piece_view <$> concat ms)))), []).
Proof.
  intros Hd Hms. revert k. induction Hms as [|m ms Hm _ IH]; intros k.
  - rewrite app_nil_r. apply (recv_frame _ _ _ _ _ _ _ _ _ (cb_run_done (Some read_device_cb) e (device_view d true k) [])).
  - rewrite !fmap_cons. cbn [app compose]. erewrite recv_frame; [|by apply cb_run_frame; [|apply reads_next]]. cbn [fst snd].
    change (0 <? MNL_CB_OK) with true. cbn iota. rewrite IH. cbn [concat]. by rewrite fmap_app, app_assoc.
Qed.

Lemma recv_answer d m ms : sendable d → message_ok d true m → Forall (message_ok d false) ms →
  mnlg_socket_recv_run (Some read_device_cb) seq pid (answer d (m :: ms)) (0, wgdevice_zero) [] =
  Done ((MNL_CB_STOP, (0, device_view d true (piece_view <$> concat (m :: ms)))), []).
Proof.
  intros Hd Hm Hms. unfold answer. cbn [enc_messages]. rewrite fmap_cons. cbn [app compose].
  erewrite recv_frame; [|by apply cb_run_frame; [|apply reads_first]]. cbn [fst snd]. change (0 <? MNL_CB_OK) with true. cbn iota.
  rewrite recv_next by done. cbn [concat]. by rewrite fmap_app.
Qed.
End Frames.


(** ** coalesce_peers *)

Lemma last_pos_app {A} (l k : list A) : l ≠ [] → k ≠ [] → last_pos (l ++ k) = (λ j, S (length l - 1) + j)%nat <$> last_pos k.
Proof.
  intros Hl Hk. destruct l as [|x l]; [done|]. destruct k as [|y k]; [done|]. cbn. f_equal. rewrite length_app. cbn. lia.
Qed.

(** A peer takes over the addresses of its continuations. *)
Lemma coalesce_rest p ips xs k o :
  key_ok (p_public_key p) = true → Forall (continues p) xs →
  coalesce (with_ips (ip_view <$> ips) (settings_view p true)) ((piece_view <$> xs) ++ k) o =
  coalesce (with_ips (ip_view <$> ips ++ flat_map pc_ips xs) (settings_view p true)) k o.
Proof.
  intros Hk Hxs. revert ips. induction Hxs as [|x xs (Hx & _ & Hne) _ IH]; intros ips; [cbn; by rewrite app_nil_r|].
  rewrite fmap_cons. cbn [app coalesce flat_map]. rewrite app_assoc, <- IH.
  change (p_public_key (with_ips _ _)) with (p_public_key p). change (p_public_key (piece_view x)) with (p_public_key (pc_peer x)).
  rewrite Hx, (proj2 (memcmp_eq _ _ WG_KEY_LEN (key_ok_length _ Hk) (key_ok_length _ Hk)) eq_refl). change (truthy 0) with false. cbn iota.
  change (allowedips (with_ips ?k _)) with k. change (last_allowedip (with_ips ?k _)) with (last_pos k).
  change (allowedips (piece_view x)) with (ip_view <$> pc_ips x). change (last_allowedip (piece_view x)) with (last_pos (ip_view <$> pc_ips x)).
  destruct ips as [|a ips]; [done|]. cbn [fmap list_fmap last_pos].
  f_equal. rewrite take_ge by (cbn; lia). unfold with_ips. rewrite fmap_app.
  rewrite last_pos_app by (try done; by destruct (pc_ips x)). done.
Qed.

(** Neighbouring peers have different keys. *)
Definition distinct_keys : list wgpeer → Prop := Sorted (λ p q, p_public_key p ≠ p_public_key q).

Lemma coalesce_pieces p next l ls o :
  Forall sendable_peer (p :: next) → distinct_keys (p :: next) → pieces_of p l → Forall2 pieces_of next ls →
  ∃ x rest, piece_view <$> concat (l :: ls) = x :: rest ∧ coalesce x rest o = Done (peer_view <$> p :: next, o).
Proof.
  intros Hp Hd (x & l' & -> & Hx & Hf & Hc & Hips) Hls. exists (piece_view x), ((piece_view <$> l') ++ (piece_view <$> concat ls)).
  cbn [concat]. split; [cbn; by rewrite fmap_app|].
  revert p l' x Hp Hd Hx Hf Hc Hips. induction Hls as [|q m next ls (y & m' & -> & Hy & Hyf & Hyc & Hyi) _ IH]; intros p l' x Hp Hd Hx Hf Hc Hips;
    pose proof Hp as [[(Hkp & _) _] Hp']%Forall_cons;
    assert (Hv : piece_view x = with_ips (ip_view <$> pc_ips x) (settings_view p true)) by (unfold piece_view; by rewrite Hx, Hf);
    rewrite Hv, coalesce_rest by done; cbn [flat_map] in Hips; rewrite Hips; fold (peer_view p).
  - done.
  - cbn [concat]. rewrite fmap_app. cbn [fmap list_fmap app coalesce]. change (p_public_key (peer_view p)) with (p_public_key p).
    change (p_public_key (piece_view y)) with (p_public_key (pc_peer y)). rewrite Hy.
    apply Sorted_inv in Hd as [Hd Hpq]. apply HdRel_inv in Hpq. pose proof Hp' as [[(Hkq & _) _] _]%Forall_cons.
    destruct (truthy (memcmp (p_public_key p) (p_public_key q) WG_KEY_LEN)) eqn:E.
    + unfold mbind, M_bind. by rewrite (IH q m' y).
    + apply negb_false_iff, Z.eqb_eq, memcmp_eq in E; [done|by apply key_ok_length..].
Qed.

Lemma coalesce_device d ps ls o :
  Forall sendable_peer ps → distinct_keys ps → Forall2 pieces_of ps ls →
  coalesce_peers (device_view d true (piece_view <$> concat ls)) o =
    Done (set_peers (peer_view <$> ps) (device_view d true (piece_view <$> concat ls)), o).
Proof.
  intros Hp Hd Hls. destruct Hls as [|p l next ls Hl Hls]; [done|]. destruct (coalesce_pieces p next l ls o Hp Hd Hl Hls) as (x & rest & E & H).
  unfold coalesce_peers. rewrite E. cbn [peers device_view]. unfold mbind, M_bind. by rewrite H.
Qed.

(** ** The round trip *)

Lemma enc_piece_small d first m x : x ∈ m → peers d ≠ [] → nlmsg_len (enc_message d first m) < 65536 → Z.of_nat (length (enc_piece x)) < 65536.
Proof.
  intros Hin Hne Hl. assert (Hx : (length (enc_piece x) <= length (flat_map enc_piece m))%nat).
  { induction m as [|y m IH]; [by apply not_elem_of_nil in Hin|]. cbn. rewrite length_app. apply elem_of_cons in Hin as [->|Hin]; [lia|].
    transitivity (length (flat_map enc_piece m)); [|lia]. apply IH; [done|]. unfold enc_message, nlmsg_len in *. destruct (peers d); [done|].
    rewrite !length_app, !nest_length in *. cbn [flat_map] in Hl. rewrite length_app in Hl. lia. }
  unfold enc_message, nlmsg_len in Hl. rewrite length_app in Hl. destruct (peers d); [done|]. rewrite nest_length in Hl. lia.
Qed.

Lemma pieces_sub ps ls x : Forall2 pieces_of ps ls → x ∈ concat ls → pc_peer x ∈ ps ∧ pc_ips x ⊆ allowedips (pc_peer x).
Proof.
  induction 1 as [|p l ps ls (y & l' & -> & Hy & _ & Hc & Hi) _ IH]; [by intros ?%not_elem_of_nil|]. cbn [concat].
  intros [Hin|Hin]%elem_of_app; [|destruct (IH Hin); split; [by right|done]].
  assert (Hp : pc_peer x = p) by (apply elem_of_cons in Hin as [->|Hin]; [done|]; rewrite Forall_forall in Hc; by apply Hc).
  rewrite Hp. split; [left|]. intros a Ha. rewrite <- Hi. apply list_elem_of_In, in_flat_map. exists x. by rewrite <- !list_elem_of_In.
Qed.

Lemma messages_ok SBS d m ms ls :
  SBS < 65536 → sendable d → Forall (λ b, nlmsg_len b <= SBS) (enc_messages d true (m :: ms)) → concat (m :: ms) = concat ls → Forall2 pieces_of (peers d) ls →
  message_ok d true m ∧ Forall (message_ok d false) ms.
Proof.
  intros Hs Hd [Hm Hms]%Forall_cons Hcat Hls.
  assert (Hok : ∀ first l, l ∈ m :: ms → nlmsg_len (enc_message d first l) <= SBS → message_ok d first l).
  { intros first l Hin Hl. assert (Hsub : ∀ x, x ∈ l → pc_peer x ∈ peers d ∧ pc_ips x ⊆ allowedips (pc_peer x)).
    { intros x Hx. apply (pieces_sub _ _ _ Hls). rewrite <- Hcat. apply list_elem_of_In, in_concat. exists l. by rewrite <- !list_elem_of_In. }
    split_and!; [|lia|].
    - apply Forall_forall. intros x Hx. destruct (Hsub x Hx) as [Hp Hi]. destruct Hd as [(_ & _ & _ & _ & Hps) _ He]. rewrite Forall_forall in Hps, He.
      split; [split; auto|]. split.
      + apply Forall_forall. intros a Ha%Hi. destruct (Hps _ Hp) as (_ & _ & _ & _ & Ha'). rewrite Forall_forall in Ha'. by apply Ha'.
      + apply (enc_piece_small d first l x); [done| |lia]. intros Hnil. rewrite Hnil in Hp. by apply not_elem_of_nil in Hp.
    - intros Hnil. destruct l as [|x l]; [done|]. destruct (Hsub x) as [Hp _]; [left|]. rewrite Hnil in Hp. by apply not_elem_of_nil in Hp. }
  split; [apply Hok; [left|done]|]. apply Forall_forall. intros l Hl. apply Hok; [by right|].
  rewrite Forall_fmap, Forall_forall in Hms. by apply Hms.
Qed.

(** C7: What [kernel_set_device] sends, [kernel_get_device] reads back: answered with
    the messages of a device, however they were cut, it returns that device with the
    fields that were sent, every peer joined from its pieces with all its addresses in
    order.  Neighbouring peers have different keys. *)
Theorem kernel_device_roundtrip SBS type fl seq pid d iface :
  512 <= SBS < 65536 → NLMSG_MIN_TYPE <= type < 65536 → 0 <= fl < 65536 ∧ fl .& NLM_F_DUMP_INTR = 0 →
  0 <= seq < 2 ^ 32 → 0 <= pid < 2 ^ 32 → sendable d → distinct_keys (peers d) → (length iface < IFNAMSIZ)%nat →
  ∃ msgs lp,
    kernel_set_device SBS (mret (inr type)) seq pid (λ _ _, (0, [inr (ack_frame seq pid)])) d [] = Done ((msgs, 0), []) ∧
    kernel_get_device (mret (inr type)) 0 seq pid (λ _, (inr ∘ message_bytes type fl seq pid <$> msgs) ++ [inr (done_frame seq pid)]) 1 iface [] =
      Done ((0, Some (set_last_peer lp (device_view d true (peer_view <$> peers d)))), []).
Proof.
  intros Hs Ht Hfl Hseq Hpid Hd Hk Hi. destruct (set_device_messages SBS Hs d Hd) as (ms & Hrun & Hfit & Hne & ls & Hcat & Hls).
  destruct ms as [|m ms]; [done|]. exists (enc_messages d true (m :: ms)). eexists. split.
  - rewrite Hrun. unfold mbind, M_bind, mret, M_ret. by apply send_all_acked.
  - destruct (messages_ok SBS d m ms ls ltac:(lia) Hd Hfit Hcat Hls) as [Hm Hms]. unfold kernel_get_device.
    rewrite (proj2 (Nat.leb_gt IFNAMSIZ (length iface))) by done. cbn [get_attempt]. unfold mbind at 1, M_bind. cbn [alloc negb].
    unfold mbind at 1, M_bind. cbn [mret M_ret]. change (truthy 0) with false. cbn iota. unfold mbind at 1, M_bind. unfold mbind at 1, M_bind.
    pose proof (recv_answer type fl seq pid Ht Hfl Hseq Hpid d m ms Hd Hm Hms) as Hrecv. unfold answer in Hrecv. rewrite Hrecv. cbn [fst snd].
    change (MNL_CB_STOP <? 0) with false. cbn iota. rewrite Hcat. unfold mbind, M_bind.
    rewrite (coalesce_device d (peers d) ls) by (try done; apply Forall_forall; intros p Hp; destruct Hd as [(_ & _ & _ & _ & Hps) _ He];
      rewrite Forall_forall in Hps, He; split; auto). reflexivity.
Qed.

Lemma kernel_device_roundtrip_witness :
  ∃ msgs lp,
    kernel_set_device 512 (mret (inr 33)) 1 2 (λ _ _, (0, [inr (ack_frame 1 2)])) sample_device [] = Done ((msgs, 0), []) ∧
    kernel_get_device (mret (inr 33)) 0 1 2 (λ _, (inr ∘ message_bytes 33 NLM_F_MULTI 1 2 <$> msgs) ++ [inr (done_frame 1 2)]) 1 (str "wg0") [] =
      Done ((0, Some (set_last_peer lp (device_view sample_device true (peer_view <$> peers sample_device)))), []).
Proof.
  apply (kernel_device_roundtrip 512 33 NLM_F_MULTI 1 2 sample_device (str "wg0")); try lia; try done; [exact sample_sendable| |apply Nat.ltb_lt; reflexivity].
  repeat constructor. discriminate.
Defined.

(** An answer with one peer of two addresses, the first of which has this prefix length. *)
Definition two_ips (bits : Z) : wgpeer := sample_peer 1 [{| family := AF_INET; ip := replicate 16 0; cidr := bits; ai_flags := 0 |}; sample_ip 2].
Definition two_ips_answer (bits : Z) : nat → list (Z + bytes) := λ _,
  [inr (message_bytes 33 NLM_F_MULTI 1 2 (mnlg_msg_prepare WG_CMD_GET_DEVICE WG_GENL_VERSION ++
     nest WGDEVICE_A_PEERS (enc_piece {| pc_peer := two_ips bits; pc_first := true; pc_list := Some (allowedips (two_ips bits)) |})));
   inr (done_frame 1 2)].

(** Pieces of one key of which the middle one has no addresses: [last_allowedip] is NULL
    when the third is joined. *)
Example coalesce_null :
  let pc l := piece_view {| pc_peer := sample_peer 1 []; pc_first := false; pc_list := l |} in
  run (coalesce_peers (with_peers [pc (Some [sample_ip 1]); pc None; pc (Some [sample_ip 2])] wgdevice_zero)) = Undefined.
Proof. reflexivity. Qed.
