(* ===== verification/IpcLinuxDropsSpec.v ===== *)
(** * IpcLinuxDropsSpec: errors below a peer

    [parse_peers] goes on when its nested parse ends in [MNL_CB_ERROR].  Here [kernel_get_device] runs over an answer whose allowed
    addresses may be invalid, with memory that may run out anywhere. *)

From Stdlib Require Import Ascii String Sorted.
From stdpp Require Import base numbers option sets list list_numbers strings.
From S2P Require Import Prelude CLib Ctype Encoding Containers Setconf Field25519 X25519 Netlink NetlinkSpec IpcLinux IpcLinuxSpec IpcLinuxGetSpec.
#[local] Open Scope c_scope.

(** ** Loops that may stop *)

(** [passes cb b st o r o']: over the attributes [b], with the allocations [o], the loop comes to [r] and [o'], and stops there if [r] says so. *)
Definition passes {St} (cb : bytes → St → M (Z * St)) (b : bytes) (st : St) (o : allocs) (r : Z * St) (o' : allocs) : Prop :=
  (r.1 = MNL_CB_OK ∨ r.1 <= MNL_CB_STOP) ∧
  ∃ k, (k <= length b)%nat ∧ ∀ fuel tail n, 0 <= n →
    attr_loop (k + fuel) cb (b ++ tail) (Z.of_nat (length b) + n) MNL_CB_OK st o =
    if r.1 <=? MNL_CB_STOP then Done (r, o') else attr_loop fuel cb tail n r.1 r.2 o'.

Section Passes.
Context {St : Type} (cb : bytes → St → M (Z * St)).

Lemma passes_nil st o : passes cb [] st o (MNL_CB_OK, st) o.
Proof. split; [by left|]. by exists O. Qed.

Lemma passes_app b1 b2 st o st1 o1 r o' : passes cb b1 st o (MNL_CB_OK, st1) o1 → passes cb b2 st1 o1 r o' → passes cb (b1 ++ b2) st o r o'.
Proof.
  intros [_ (k1 & Hk1 & H1)] [Hr (k2 & Hk2 & H2)]. split; [done|]. exists (k1 + k2)%nat. rewrite length_app. split; [lia|]. intros fuel tail n Hn.
  rewrite <- Nat.add_assoc, <- app_assoc, Nat2Z.inj_add, <- Z.add_assoc, H1 by lia. by apply H2.
Qed.
Lemma passes_stop b1 b2 st o r o' : r.1 <= MNL_CB_STOP → passes cb b1 st o r o' → passes cb (b1 ++ b2) st o r o'.
Proof.
  intros Hle [Hr (k1 & Hk1 & H1)]. split; [done|]. exists k1. rewrite length_app. split; [lia|]. intros fuel tail n Hn.
  rewrite <- app_assoc, Nat2Z.inj_add, <- Z.add_assoc, H1 by lia. by rewrite (proj2 (Z.leb_le _ _) Hle).
Qed.

Lemma passes_attr x t data st o r o' :
  is_attr x t data → r.1 = MNL_CB_OK ∨ r.1 <= MNL_CB_STOP → (∀ tail, cb (x ++ tail) st o = Done (r, o')) → passes cb x st o r o'.
Proof.
  intros A Hr Hcb. split; [done|]. exists 1%nat. split; [rewrite (a_align _ _ _ A); lia|]. intros fuel tail n Hn. cbn [Nat.add attr_loop].
  rewrite (a_ok _ _ _ A) by lia. cbn [negb]. unfold mbind, M_bind. rewrite Hcb. case_match; [done|].
  rewrite (a_next _ _ _ A), (a_step _ _ _ A). f_equal. lia.
Qed.

Lemma passes_run b st o r o' fuel tail :
  passes cb b st o r o' → (length b <= fuel)%nat → attr_loop fuel cb (b ++ tail) (Z.of_nat (length b)) MNL_CB_OK st o = Done (r, o').
Proof.
  intros [Hr (k & Hk & H)] Hf. replace fuel with (k + (fuel - k))%nat by lia. rewrite <- (Z.add_0_r (Z.of_nat (length b))), H by done.
  case_match; [done|]. destruct Hr as [Hr|Hr]; [|by apply Z.leb_le in Hr; congruence]. destruct r as [ret st']. cbn in *. rewrite Hr.
  by destruct (fuel - k)%nat.
Qed.

Lemma passes_nested x t data tail st o r o' :
  is_attr x t data → passes cb data st o r o' → mnl_attr_parse_nested (x ++ tail) cb st o = Done (r, o').
Proof.
  intros A H. unfold mnl_attr_parse_nested. rewrite (a_payload_len _ _ _ A). destruct (a_payload _ _ _ A tail) as [rest ->].
  apply passes_run; [done|]. rewrite length_app, (a_align _ _ _ A). pose proof (MNL_ALIGN_spec (length data)). lia.
Qed.

(** A callback that allocates for attributes of type [t] only, and is content with all the others. *)
Definition allocates_for (t : Z) : Prop := ∀ x st, mnl_attr_get_type x ≠ t → ∃ st', ∀ o, cb x st o = Done ((MNL_CB_OK, st'), o).

(** What is read with memory to spare is then read in the same way without. *)
Lemma reads_passes t l st st' o :
  allocates_for t → Forall (λ a, 0 <= a.1 < 2 ^ 14 ∧ a.1 ≠ t ∧ Z.of_nat (length a.2) < 60000) l →
  reads cb (leaves l) st st' → passes cb (leaves l) st o (MNL_CB_OK, st') o.
Proof.
  intros Hcb Hl (k & Hk & Hr). split; [by left|].
  assert (Hall : ∀ tail, ∃ st1, ∀ fuel n o, 0 <= n →
    attr_loop (length l + fuel) cb (leaves l ++ tail) (Z.of_nat (length (leaves l)) + n) MNL_CB_OK st o = attr_loop fuel cb tail n MNL_CB_OK st1 o).
  { clear -Hcb Hl. intros tail. revert st. induction Hl as [|[t' data] l (Ht & Hne & Hd) _ IH]; intros st; [by exists st|]. cbn [fst snd] in *.
    assert (A : is_attr (leaf t' data) t' data) by (apply leaf_is_attr; lia).
    destruct (Hcb (leaf t' data ++ leaves l ++ tail) st) as [st1 H1]; [by rewrite (a_type _ _ _ A)|]. destruct (IH st1) as [st2 H2]. exists st2. intros fuel n o Hn.
    rewrite leaves_cons, <- app_assoc, length_app. cbn [fst snd length Nat.add attr_loop]. rewrite (a_ok _ _ _ A) by lia. cbn [negb]. unfold mbind, M_bind. rewrite H1.
    cbn [fst snd]. change (MNL_CB_OK <=? MNL_CB_STOP) with false. cbn iota. rewrite (a_next _ _ _ A), (a_step _ _ _ A), <- H2 by done. f_equal. lia. }
  exists (length l). split.
  - clear. induction l as [|a l IH]; [done|]. rewrite leaves_cons, length_app, leaf_length. cbn [length]. lia.
  - intros fuel tail n Hn. destruct (Hall tail) as [st1 H1]. rewrite H1 by done. change (MNL_CB_OK <=? MNL_CB_STOP) with false. cbn iota. cbn [fst snd].
    specialize (H1 k 0 [] ltac:(lia)). specialize (Hr (length l) tail 0 ltac:(lia)). rewrite Nat.add_comm, Hr, !loop_end in H1 by lia. by injection H1 as ->.
Qed.
End Passes.

Lemma parse_allowedip_allocates t : allocates_for parse_allowedip t.
Proof. intros x st _. unfold parse_allowedip, validated. repeat case_match; by eexists. Qed.
Lemma parse_peer_allocates : allocates_for parse_peer WGPEER_A_ALLOWEDIPS.
Proof. intros x st Hx%Z.eqb_neq. unfold parse_peer, validated. cbv zeta. rewrite Hx. repeat case_match; by eexists. Qed.
Lemma parse_device_allocates : allocates_for parse_device WGDEVICE_A_PEERS.
Proof. intros x st Hx%Z.eqb_neq. unfold parse_device, validated. cbv zeta. rewrite Hx. repeat case_match; by eexists. Qed.

(** ** Addresses *)

(** An address as it may stand in an answer: of any family and any prefix length that their attributes have room for. *)
Definition ip_fits (a : wgallowedip) : Prop := length (ip a) = 16%nat ∧ 0 <= family a < 65536 ∧ 0 <= cidr a < 256.
Definition ip_valid (a : wgallowedip) : bool := ((family a =? AF_INET) && (cidr a <=? 32)) || ((family a =? AF_INET6) && (cidr a <=? 128)).
(** The address that is read: only these families have one. *)
Definition ip_read (a : wgallowedip) : wgallowedip :=
  {| family := family a; ip := if family a =? AF_INET then ip4 a ++ replicate 12 0 else if family a =? AF_INET6 then ip a else replicate 16 0;
     cidr := cidr a; ai_flags := 0 |}.

(** The addresses of a peer that are read: all until one is not allocated, or one is invalid, which is kept; and the allocations left. *)
Fixpoint ips_kept (l : list wgallowedip) (o : allocs) : list wgallowedip * allocs :=
  match l with
  | [] => ([], o)
  | a :: l' =>
      match o with
      | false :: o' => ([], o')
      | _ => if ip_valid a then let '(k, o') := ips_kept l' (tail o) in (a :: k, o') else ([a], tail o)
      end
  end.

Lemma ip_fits_length a : ip_fits a → length (ip4 a) = 4%nat ∧ length (ip6 a) = 16%nat.
Proof. intros (Hl & _). unfold ip4, ip6. rewrite length_take. lia. Qed.

Lemma reads_any_address e a a0 : ip_fits a → ip a0 = replicate 16 0 →
  reads parse_allowedip (leaves (address_attr a)) (e, a0) (e, {| family := family a0; ip := ip (ip_read a); cidr := cidr a0; ai_flags := ai_flags a0 |}).
Proof.
  intros Ha H0. pose proof (ip_fits_length a Ha) as [H4 H6]. unfold address_attr, ip_read. cbn [ip].
  destruct (family a =? AF_INET); [|destruct (family a =? AF_INET6)]; [rewrite leaves_cons, app_nil_r; cbn [fst snd]; read_leaf;
    unfold parse_allowedip; rewrite (a_type _ _ _ A), (a_payload_len _ _ _ A), ?H4, ?H6; eqb_consts..|].
  - rewrite (a_all _ _ _ A) by done. cbn [fst snd]. unfold store_ip. by rewrite H0, H4.
  - rewrite (a_all _ _ _ A) by done. cbn [fst snd]. unfold store_ip. rewrite H0, H6. cbn [drop replicate]. by rewrite app_nil_r.
  - eapply reads_eq; [apply reads_nil|]. destruct a0. cbn in *. by subst.
Qed.

Lemma reads_any_ip e a : ip_fits a → reads parse_allowedip (leaves (ip_attrs a)) (e, wgallowedip_zero) (e, ip_read a).
Proof.
  intros Ha. pose proof Ha as (Hl & Hf & Hc). unfold ip_attrs. rewrite leaves_cons, leaves_app, leaves_cons. cbn [fst snd].
  apply (read_app _ _ _ _ (e, set_family (family a) wgallowedip_zero)); [|eapply read_app; [by apply reads_any_address|eapply read_app]].
  - read_leaf. unfold parse_allowedip, validated. rewrite (a_type _ _ _ A). eqb_consts.
    rewrite (a_valid _ _ _ A), (a_u16 _ _ _ A), u16_small, le2_value by side. done.
  - read_leaf. unfold parse_allowedip, validated. rewrite (a_type _ _ _ A). eqb_consts.
    rewrite (a_valid _ _ _ A), (a_u8 _ _ _ A), u8_small, le_value_bytes by side. done.
  - unfold opt. case_match; [|apply reads_nil]. rewrite leaves_cons, app_nil_r. cbn [fst snd]. read_leaf.
    unfold parse_allowedip. rewrite (a_type _ _ _ A). eqb_consts. done.
Qed.

Lemma any_ip_attrs a : ip_fits a → Forall (λ x, 0 <= x.1 < 2 ^ 14 ∧ x.1 ≠ - 1 ∧ Z.of_nat (length x.2) < 60000) (ip_attrs a) ∧ (length (leaves (ip_attrs a)) <= 44)%nat.
Proof.
  intros Ha. destruct (ip_fits_length a Ha) as [H4 H6]. unfold ip_attrs, address_attr, opt.
  split; [repeat case_match; repeat first [apply Forall_nil_2 | apply Forall_cons_2 | apply Forall_app_2]; cbn [fst snd]; rewrite ?le_bytes_length, ?H4, ?H6; done|].
  repeat case_match; cbn [app]; rewrite !leaves_cons_length, ?le_bytes_length, ?H4, ?H6; cbn; lia.
Qed.
Lemma any_ip_is_attr a : ip_fits a → is_attr (enc_ip a) 0 (leaves (ip_attrs a)).
Proof. intros Ha. destruct (any_ip_attrs a Ha) as [_ Hl]. apply nest_is_attr; [done|lia|apply leaves_aligned]. Qed.

Lemma passes_ips l k p e o : Forall ip_fits l →
  ∃ ret e', passes parse_allowedips (flat_map enc_ip l) (e, with_ips k p) o (ret, (e', with_ips (k ++ (ip_read <$> (ips_kept l o).1)) p)) (ips_kept l o).2 ∧ ret ≠ 0.
Proof.
  intros Hl. revert k e o. induction Hl as [|a l Ha _ IH]; intros k e o; [exists MNL_CB_OK, e; rewrite app_nil_r; split; [apply passes_nil|done]|]. cbn [flat_map ips_kept].
  assert (Hfail : ∀ o', o = false :: o' → passes parse_allowedips (enc_ip a) (e, with_ips k p) o (MNL_CB_ERROR, (ENOMEM, with_ips k p)) o').
  { intros o' ->. eapply passes_attr; [by apply any_ip_is_attr|by right|]. done. }
  assert (Hstep : ∀ o', alloc o = Done (true, o') → passes parse_allowedips (enc_ip a) (e, with_ips k p) o
    (if ip_valid a then MNL_CB_OK else MNL_CB_ERROR, (e, with_ips (k ++ [ip_read a]) p)) o').
  { intros o' Ho. eapply passes_attr; [by apply any_ip_is_attr|case_match; [by left|by right]|]. intros tail. unfold parse_allowedips. unfold mbind at 1, M_bind. rewrite Ho.
    cbn [negb]. unfold mbind at 1, M_bind. destruct (any_ip_attrs a Ha) as [Hat _].
    rewrite (passes_nested _ _ _ _ _ _ _ _ _ (any_ip_is_attr a Ha) (reads_passes _ (-1) _ _ _ o' (parse_allowedip_allocates _) Hat (reads_any_ip e a Ha))). cbn [fst snd].
    change (MNL_CB_OK =? 0) with false. cbn iota. fold (ip_valid (ip_read a)). change (ip_valid (ip_read a)) with (ip_valid a). rewrite fill_allowedip. by destruct (ip_valid a). }
  assert (Hgo : alloc o = Done (true, tail o) → ∃ ret e', passes parse_allowedips (enc_ip a ++ flat_map enc_ip l) (e, with_ips k p) o
    (ret, (e', with_ips (k ++ (ip_read <$> (if ip_valid a then let '(m, o') := ips_kept l (tail o) in (a :: m, o') else ([a], tail o)).1)) p))
    (if ip_valid a then let '(m, o') := ips_kept l (tail o) in (a :: m, o') else ([a], tail o)).2 ∧ ret ≠ 0).
  { intros Ho. specialize (Hstep _ Ho). destruct (ip_valid a).
    - destruct (IH (k ++ [ip_read a]) e (tail o)) as (ret & e' & Hp & Hne). exists ret, e'. split; [|done]. destruct (ips_kept l (tail o)) as [m o']. cbn [fst snd] in *.
      rewrite fmap_cons, cons_middle, app_assoc. by eapply passes_app.
    - exists MNL_CB_ERROR, e. split; [by apply passes_stop|done]. }
  destruct o as [|[] o]; [by apply Hgo|by apply Hgo|]. exists MNL_CB_ERROR, ENOMEM. cbn [fst snd]. rewrite app_nil_r. split; [|done]. apply passes_stop; [done|]. by apply Hfail.
Qed.

(** ** Peers *)

(** The peer in one piece. *)
Definition whole (p : wgpeer) : piece := {| pc_peer := p; pc_first := true; pc_list := Some (allowedips p) |}.
(** A peer as it may stand in an answer: whatever its addresses are, it has the size of an attribute. *)
Definition peer_fits (p : wgpeer) : Prop := sendable_peer (set_allowedips [] p) ∧ Forall ip_fits (allowedips p) ∧ Z.of_nat (length (enc_piece (whole p))) < 65536.
Definition peer_read (p : wgpeer) (ips : list wgallowedip) : wgpeer := with_ips (ip_read <$> ips) (settings_view p true).

(** The peers that are read, or none when one of them is not allocated; and the allocations left. *)
Fixpoint peers_read (ps : list wgpeer) (o : allocs) : option (list wgpeer) * allocs :=
  match ps with
  | [] => (Some [], o)
  | p :: ps' =>
      match o with
      | false :: o' => (None, o')
      | _ =>
          let '(ips, o1) := ips_kept (allowedips p) (tail o) in
          let '(qs, o2) := peers_read ps' o1 in
          (cons (peer_read p ips) <$> qs, o2)
      end
  end.

Lemma any_peer_attrs p : peer_fits p →
  Forall (λ x, 0 <= x.1 < 2 ^ 14 ∧ x.1 ≠ WGPEER_A_ALLOWEDIPS ∧ Z.of_nat (length x.2) < 60000) (peer_attrs p true).
Proof.
  intros [Hp _]. pose proof Hp as [(Hk & Hpsk & _) Hm]. apply key_ok_length in Hk, Hpsk. destruct (sockaddr_bytes_length _ Hm) as [H4 H6].
  cbn [p_public_key preshared_key endpoint set_allowedips peer_with] in *.
  assert (He : has_endpoint p = true → (length (sockaddr_bytes (endpoint p)) <= 28)%nat).
  { unfold has_endpoint. rewrite orb_true_iff, !Z.eqb_eq. intros [E|E]; [rewrite (H4 E)|rewrite (H6 E)]; lia. }
  unfold peer_attrs, settings, opt. repeat case_match; cbn [app]; repeat first [apply Forall_nil_2 | apply Forall_cons_2 | apply Forall_app_2]; cbn [fst snd];
    rewrite ?le_bytes_length, ?Hk, ?Hpsk; (done || (split; [done|]; split; [done|]; specialize (He eq_refl); lia)).
Qed.
Lemma any_ips_is_attr p : peer_fits p → is_attr (nest WGPEER_A_ALLOWEDIPS (flat_map enc_ip (allowedips p))) WGPEER_A_ALLOWEDIPS (flat_map enc_ip (allowedips p)).
Proof.
  intros (_ & _ & Hl). unfold enc_piece in Hl. cbn [whole pc_peer pc_first pc_list] in Hl. rewrite nest_length, length_app, nest_length in Hl.
  apply nest_is_attr; [done|lia|apply flat_map_aligned, enc_ip_aligned].
Qed.
Lemma whole_is_attr p : peer_fits p →
  is_attr (enc_piece (whole p)) 0 (leaves (peer_attrs p true) ++ nest WGPEER_A_ALLOWEDIPS (flat_map enc_ip (allowedips p))).
Proof.
  intros (_ & _ & Hl). unfold enc_piece in *. rewrite nest_length in Hl. apply nest_is_attr; [done|cbn [whole pc_peer pc_first pc_list] in Hl; lia|].
  apply aligned_app; [apply leaves_aligned|]. apply nest_aligned, flat_map_aligned, enc_ip_aligned.
Qed.

Lemma passes_peer p e o : peer_fits p →
  ∃ ret e', passes parse_peer (leaves (peer_attrs p true) ++ nest WGPEER_A_ALLOWEDIPS (flat_map enc_ip (allowedips p))) (e, wgpeer_zero) o
    (ret, (e', peer_read p (ips_kept (allowedips p) o).1)) (ips_kept (allowedips p) o).2 ∧ ret ≠ 0.
Proof.
  intros Hp. pose proof (any_peer_attrs p Hp) as Hat. pose proof Hp as (Hs & Hi & _). pose proof (reads_peer_attrs e _ true Hs) as Hr.
  apply (reads_passes _ _ _ _ _ o parse_peer_allocates Hat) in Hr. change (settings_view (set_allowedips [] p) true) with (settings_view p true) in Hr.
  destruct (passes_ips (allowedips p) [] (settings_view p true) e o Hi) as (ret & e' & Hips & Hne). exists ret, e'. split; [|done].
  eapply passes_app; [exact Hr|]. eapply passes_attr; [by apply any_ips_is_attr|apply Hips|]. intros tail. unfold parse_peer.
  rewrite (a_type _ _ _ (any_ips_is_attr p Hp)). eqb_consts. by apply (passes_nested _ _ _ _ _ _ _ _ _ (any_ips_is_attr p Hp)).
Qed.

Lemma peer_read_flags p ips : has_flag (p_flags (peer_read p ips)) WGPEER_HAS_PUBLIC_KEY = true.
Proof. unfold peer_read, with_ips, settings_view. cbn. by case_match. Qed.

(** An error in a peer is forgotten; only the allocation of a peer is reported. *)
Lemma passes_peers ps k d e o : Forall peer_fits ps →
  ∃ ret e' qs, passes parse_peers (flat_map enc_piece (whole <$> ps)) (e, with_peers k d) o (ret, (e', with_peers (k ++ qs) d)) (peers_read ps o).2 ∧
    match (peers_read ps o).1 with Some l => ret = MNL_CB_OK ∧ qs = l | None => ret = MNL_CB_ERROR ∧ e' = ENOMEM end.
Proof.
  intros Hps. revert k e o. induction Hps as [|p ps Hp _ IH]; intros k e o.
  { exists MNL_CB_OK, e, []. rewrite app_nil_r. split; [apply passes_nil|done]. }
  rewrite fmap_cons. cbn [flat_map peers_read].
  assert (Hstep : alloc o = Done (true, tail o) → ∃ e', passes parse_peers (enc_piece (whole p)) (e, with_peers k d) o
    (MNL_CB_OK, (e', with_peers (k ++ [peer_read p (ips_kept (allowedips p) (tail o)).1]) d)) (ips_kept (allowedips p) (tail o)).2).
  { intros Ho. destruct (passes_peer p e (tail o) Hp) as (ret & e' & Hb & Hne%Z.eqb_neq). exists e'. eapply passes_attr; [by apply whole_is_attr|by left|].
    intros tail'. unfold parse_peers. unfold mbind at 1, M_bind. rewrite Ho. cbn [negb]. unfold mbind at 1, M_bind.
    rewrite (passes_nested _ _ _ _ _ _ _ _ _ (whole_is_attr p Hp) Hb). cbn [fst snd]. rewrite Hne, peer_read_flags. cbn [negb]. by rewrite (fill_peer _ _ _ k). }
  assert (Hgo : alloc o = Done (true, tail o) → ∃ ret e' qs, passes parse_peers (enc_piece (whole p) ++ flat_map enc_piece (whole <$> ps)) (e, with_peers k d) o
    (ret, (e', with_peers (k ++ qs) d)) (peers_read ps (ips_kept (allowedips p) (tail o)).2).2 ∧
    match cons (peer_read p (ips_kept (allowedips p) (tail o)).1) <$> (peers_read ps (ips_kept (allowedips p) (tail o)).2).1 with
    | Some l => ret = MNL_CB_OK ∧ qs = l | None => ret = MNL_CB_ERROR ∧ e' = ENOMEM end).
  { intros Ho. destruct (Hstep Ho) as [e1 H1]. destruct (ips_kept (allowedips p) (tail o)) as [ips o1]. cbn [fst snd] in *.
    destruct (IH (k ++ [peer_read p ips]) e1 o1) as (ret & e' & qs & H2 & Hres). rewrite <- app_assoc in H2. exists ret, e', (peer_read p ips :: qs).
    split; [by eapply passes_app|]. destruct (peers_read ps o1).1; cbn [fmap option_fmap option_map]; [|done]. by destruct Hres as [-> ->]. }
  destruct o as [|[] o]; cbn [tail] in *; cbv beta iota.
  1,2: destruct (ips_kept (allowedips p) _) as [ips o1]; cbn [fst snd] in Hgo; destruct (peers_read ps o1) as [qs o2]; by apply Hgo.
  exists MNL_CB_ERROR, ENOMEM, []. rewrite app_nil_r. split; [|done]. apply passes_stop; [done|].
  eapply passes_attr; [by apply whole_is_attr|by right|]. done.
Qed.

(** The keys stay, so there is nothing to join. *)
Lemma peers_read_keys ps o qs : (peers_read ps o).1 = Some qs → p_public_key <$> qs = p_public_key <$> ps.
Proof.
  revert o qs. induction ps as [|p ps IH]; intros o qs H; [by injection H as <-|]. cbn [peers_read] in H. destruct o as [|[] o]; [..|done].
  all: destruct (ips_kept _ _) as [ips o1]; specialize (IH o1); destruct (peers_read ps o1) as [[l|] o2]; [|done]; injection H as <-; rewrite !fmap_cons; f_equal; by apply IH.
Qed.
Lemma distinct_keys_same ps qs : p_public_key <$> qs = p_public_key <$> ps → distinct_keys ps → distinct_keys qs.
Proof.
  revert qs. induction ps as [|p ps IH]; intros [|q qs] E H; try done. rewrite !fmap_cons in E. injection E as Eq E. apply Sorted_inv in H as [H Hd].
  constructor; [by apply IH|]. destruct qs as [|q' qs], ps as [|p' ps]; try done. rewrite !fmap_cons in E. injection E as Eq' _.
  apply HdRel_inv in Hd. constructor. by rewrite Eq, Eq'.
Qed.
Lemma coalesce_distinct p next o :
  Forall (λ q, length (p_public_key q) = WG_KEY_LEN) (p :: next) → distinct_keys (p :: next) → coalesce p next o = Done (p :: next, o).
Proof.
  revert p. induction next as [|q next IH]; intros p Hl Hd; [done|]. cbn [coalesce]. apply Forall_cons in Hl as [Hp Hl]. apply Sorted_inv in Hd as [Hd Hpq]. apply HdRel_inv in Hpq.
  pose proof Hl as [Hq _]%Forall_cons. destruct (truthy (memcmp (p_public_key p) (p_public_key q) WG_KEY_LEN)) eqn:E.
  - unfold mbind, M_bind. by rewrite IH.
  - apply negb_false_iff, Z.eqb_eq, memcmp_eq in E; done.
Qed.

(** ** Devices *)

(** The device without its peers. *)
Definition bare (d : wgdevice) : wgdevice := set_last_peer None (set_peers [] d).
(** A device as it may stand in an answer of one message: its settings and the keys of its peers are proper, the addresses need not be. *)
Record device_fits (d : wgdevice) : Prop := {
  df_settings : sendable (bare d);
  df_peers : Forall (λ p, sendable_peer (set_allowedips [] p) ∧ Forall ip_fits (allowedips p)) (peers d);
  df_keys : distinct_keys (peers d);
  df_message : nlmsg_len (enc_message d true (whole <$> peers d)) < 65536;
}.

Lemma fits_peers d : device_fits d → Forall peer_fits (peers d).
Proof.
  intros [_ Hp _ Hm]. apply Forall_forall. intros p Hin. rewrite Forall_forall in Hp. destruct (Hp p Hin) as [H1 H2]. split; [done|]. split; [done|].
  apply (enc_piece_small d true (whole <$> peers d)); [by apply list_elem_of_fmap_2| |done]. intros E. rewrite E in Hin. by apply not_elem_of_nil in Hin.
Qed.

Lemma any_device_attrs d : device_fits d →
  Forall (λ x, 0 <= x.1 < 2 ^ 14 ∧ x.1 ≠ WGDEVICE_A_PEERS ∧ Z.of_nat (length x.2) < 60000) ((WGDEVICE_A_IFNAME, name d ++ [0]) :: device_attrs d).
Proof.
  intros [[(_ & Hk%key_ok_length & _) [Hn _] _] _ _ _]. change (name (bare d)) with (name d) in Hn. change (private_key (bare d)) with (private_key d) in Hk.
  unfold IFNAMSIZ in Hn. unfold device_attrs, opt.
  repeat case_match; cbn [app]; repeat first [apply Forall_nil_2 | apply Forall_cons_2]; cbn [fst snd]; rewrite ?le_bytes_length, ?Hk, ?length_app; try done;
    (split; [done|]; split; [done|]; cbn [length]; lia).
Qed.

Lemma passes_device d e o : device_fits d →
  ∃ ret e' qs, passes parse_device (body d true (whole <$> peers d)) (e, wgdevice_zero) o (ret, (e', device_view d true qs)) (peers_read (peers d) o).2 ∧
    match (peers_read (peers d) o).1 with Some l => ret = MNL_CB_OK ∧ qs = l | None => ret = MNL_CB_ERROR ∧ e' = ENOMEM end.
Proof.
  intros Hd. assert (Hr : reads parse_device (leaves ((WGDEVICE_A_IFNAME, name d ++ [0]) :: device_attrs d)) (e, wgdevice_zero) (e, device_view d true [])).
  { pose proof (reads_first e (bare d) [] (df_settings _ Hd)) as H. unfold body in H. cbn [peers bare set_last_peer set_peers device_with] in H. rewrite app_nil_r in H. apply H.
    split; [done|]. split; [|done]. pose proof (df_message _ Hd) as Hm. change (enc_message (bare d) true []) with (enc_head d true ++ []).
    unfold enc_message in Hm. unfold nlmsg_len in *. rewrite length_app in *. cbn [length]. lia. }
  apply (reads_passes _ _ _ _ _ o parse_device_allocates (any_device_attrs d Hd)) in Hr.
  destruct (passes_peers (peers d) [] (device_view d true []) e o (fits_peers d Hd)) as (ret & e' & qs & Hp & Hres). unfold body. cbn [app] in Hp.
  destruct (peers d) as [|p ps] eqn:E; [exists MNL_CB_OK, e, []; by rewrite app_nil_r|]. exists ret, e', qs. split; [|done]. eapply passes_app; [exact Hr|].
  assert (A : is_attr (nest WGDEVICE_A_PEERS (flat_map enc_piece (whole <$> p :: ps))) WGDEVICE_A_PEERS (flat_map enc_piece (whole <$> p :: ps))).
  { pose proof (df_message _ Hd) as Hm. unfold enc_message, nlmsg_len in Hm. rewrite E, length_app, nest_length in Hm.
    apply nest_is_attr; [done|lia|apply flat_map_aligned, enc_piece_aligned]. }
  eapply passes_attr; [exact A|apply Hp|]. intros tail. unfold parse_device. rewrite (a_type _ _ _ A). eqb_consts. by apply (passes_nested _ _ _ _ _ _ _ _ _ A).
Qed.

(** The message, and then its end: only the allocation of a peer is an error. *)
Lemma run_device_message type fl seq pid d o :
  NLMSG_MIN_TYPE <= type < 65536 → 0 <= fl < 65536 ∧ fl .& NLM_F_DUMP_INTR = 0 → 0 <= seq < 2 ^ 32 → 0 <= pid < 2 ^ 32 → device_fits d →
  ∃ ret e' qs, mnl_cb_run true (Some read_device_cb) seq pid (message_bytes type fl seq pid (enc_message d true (whole <$> peers d))) (0, wgdevice_zero) o =
      Done ((ret, (e', device_view d true qs)), (peers_read (peers d) o).2) ∧
    match (peers_read (peers d) o).1 with Some l => ret = MNL_CB_OK ∧ qs = l | None => ret = MNL_CB_ERROR ∧ e' = ENOMEM end.
Proof.
  intros Ht Hfl Hseq Hpid Hd. destruct (passes_device d 0 o Hd) as (ret & e' & qs & Hp & Hres). exists ret, e', qs. split; [|done].
  pose proof (df_message _ Hd) as Hm. rewrite enc_message_body in *. apply (cb_run_one type fl seq pid Ht Hfl Hseq Hpid); [done|apply aligned_app; [done|apply body_aligned]|].
  pose proof (attr_parse_loop seq pid Hseq Hpid parse_device type fl (mnlg_msg_prepare WG_CMD_SET_DEVICE WG_GENL_VERSION) (body d true (whole <$> peers d)) []
    (0, wgdevice_zero) o Hm ltac:(unfold NLMSG_MIN_TYPE in Ht; lia) (proj1 Hfl) ltac:(done) (body_aligned _ _ _)) as H.
  rewrite (passes_run _ _ _ _ _ _ _ [] Hp), app_nil_r in H; [exact H|]. unfold message_bytes. rewrite !length_app. lia.
Qed.
Lemma coalesce_read d o qs : device_fits d → (peers_read (peers d) o).1 = Some qs → ∀ o', coalesce_peers (device_view d true qs) o' = Done (device_view d true qs, o').
Proof.
  intros Hd Hkeys%peers_read_keys o'. pose proof (distinct_keys_same _ _ Hkeys (df_keys _ Hd)) as Hdist.
  assert (Hlen : Forall (λ q, length (p_public_key q) = WG_KEY_LEN) qs).
  { assert (H : Forall (λ k, length k = WG_KEY_LEN) (p_public_key <$> qs)); [|by apply Forall_fmap in H]. rewrite Hkeys. apply Forall_fmap. eapply Forall_impl; [apply Hd|]. intros p [[(Hk & _) _] _]. by apply key_ok_length in Hk. }
  destruct qs as [|q qs]; [done|]. unfold coalesce_peers. cbn [peers device_view]. unfold mbind, M_bind. by rewrite coalesce_distinct.
Qed.

(** With memory to spare the addresses behind the first invalid one are missing; with valid ones, those behind the first that is not allocated. *)
Lemma ips_kept_spec l1 a l2 o : Forall (λ x, ip_valid x = true) l1 →
  (ip_valid a = false → (ips_kept (l1 ++ a :: l2) []).1 = l1 ++ [a]) ∧ ips_kept (l1 ++ a :: l2) (replicate (length l1) true ++ false :: o) = (l1, o) ∧
  (ips_kept l1 []).1 = l1.
Proof.
  induction 1 as [|x l1 Hx _ (IH1 & IH2 & IH3)].
  - split_and!; [|done..]. intros Ha. cbn. by rewrite Ha.
  - cbn [app ips_kept length replicate tail]. rewrite Hx, IH2. split; [|split; [done|]].
    + intros Ha. specialize (IH1 Ha). destruct (ips_kept (l1 ++ a :: l2) []). cbn in *. by rewrite IH1.
    + destruct (ips_kept l1 []). cbn in *. by rewrite IH3.
Qed.

(** C35: What [kernel_get_device] makes of errors, for an answer of one message below 64 KiB (and the end of the dump, at the first attempt) with a device whose settings
    are proper, whose peers have keys that differ between neighbours, and whose allowed addresses may be of any family and prefix length, and for
    any memory.  It returns -ENOMEM when there is no memory for the device or for a peer.  In all other cases it returns 0 and the device with
    all its peers: errors below a peer are dropped, as [parse_peers] goes on when its nested parse ends in [MNL_CB_ERROR].  A peer has its
    addresses up to the first invalid one, which is handed out too, or up to the first one there was no memory for; those behind it are
    missing without an error. *)
Theorem kernel_get_device_drops_errors type fl seq pid d iface o :
  NLMSG_MIN_TYPE <= type < 65536 → 0 <= fl < 65536 ∧ fl .& NLM_F_DUMP_INTR = 0 → 0 <= seq < 2 ^ 32 → 0 <= pid < 2 ^ 32 →
  device_fits d → (length iface < IFNAMSIZ)%nat →
  kernel_get_device (mret (inr type)) 0 seq pid
    (λ _, [inr (message_bytes type fl seq pid (enc_message d true (whole <$> peers d))); inr (done_frame seq pid)]) 1 iface o =
  match o with
  | false :: o' => Done ((- ENOMEM, None), o')
  | _ =>
      let '(qs, o') := peers_read (peers d) (tail o) in
      Done (match qs with Some qs => (0, Some (device_view d true qs)) | None => (- ENOMEM, None) end, o')
  end.
Proof.
  intros Ht Hfl Hseq Hpid Hd Hi. unfold kernel_get_device. rewrite (proj2 (Nat.leb_gt IFNAMSIZ (length iface))) by done. cbn [get_attempt]. unfold mbind at 1, M_bind.
  assert (Hrest : ∀ o1, (let '(qs, o') := peers_read (peers d) o1 in
      Done (match qs with Some qs => (0, Some (device_view d true qs)) | None => (- ENOMEM, None) end, o')) =
    (r ← (r ← mnlg_socket_recv_run (Some read_device_cb) seq pid
                [inr (message_bytes type fl seq pid (enc_message d true (whole <$> peers d))); inr (done_frame seq pid)] (0, wgdevice_zero);
          if r.1 <? 0 then mret (if truthy r.2.1 then - r.2.1 else - EINVAL, r.2.2) else d ← coalesce_peers r.2.2; mret (0, d));
     if truthy r.1 then if r.1 =? - EINTR then out_of_fuel else mret (r.1, None) else mret (0, Some r.2)) o1).
  { intros o1. destruct (run_device_message type fl seq pid d o1 Ht Hfl Hseq Hpid Hd) as (ret & e' & qs & Hcb & Hres).
    unfold mbind at 1, M_bind at 1. unfold mbind at 1, M_bind at 1. erewrite recv_frame by exact Hcb. pose proof (coalesce_read d o1) as Hco.
    destruct (peers_read (peers d) o1) as [[l|] o2]; cbn [fst snd] in *; destruct Hres as [-> Hq]; [subst l|by rewrite Hq].
    change (0 <? MNL_CB_OK) with true. cbn iota. unfold done_frame. erewrite recv_frame by apply (cb_run_done seq pid Hseq Hpid). cbn [fst snd].
    change (0 <? MNL_CB_STOP) with false. cbv beta iota. cbn [fst snd]. change (MNL_CB_STOP <? 0) with false. cbv beta iota. unfold mbind, M_bind. by rewrite (Hco qs Hd eq_refl). }
  destruct o as [|[] o]; [..|done]; symmetry; apply Hrest.
Qed.

(** Two peers: the first begins with an address of 33 prefix bits, the second has three addresses, and there is no memory for its second one. *)
Definition bad_ip : wgallowedip := {| family := AF_INET; ip := replicate 16 0; cidr := 33; ai_flags := 0 |}.
Definition troubled_device : wgdevice :=
  {| name := str "wg0"; ifindex := 0; flags := WGDEVICE_HAS_LISTEN_PORT; public_key := replicate 32 0; private_key := replicate 32 0; fwmark := 0; listen_port := 51820;
     peers := [sample_peer 1 [bad_ip; sample_ip 1]; sample_peer 2 (sample_ip <$> [2; 3; 4])]; last_peer := None |}.

Lemma troubled_fits : device_fits troubled_device.
Proof.
  assert (Hip : ∀ n, ip_fits (sample_ip n)) by (intros n; split_and!; done). assert (Hbad : ip_fits bad_ip) by (split_and!; done). split.
  - split; [|split; [apply Nat.ltb_lt; reflexivity|reflexivity]|constructor]. split_and!; done.
  - cbn [troubled_device peers]. constructor; [split; [by apply (sample_peer_ok 1 [])|by repeat constructor]|]. constructor; [split; [by apply (sample_peer_ok 2 [])|by repeat constructor]|done].
  - repeat constructor. discriminate.
  - vm_compute. done.
Qed.

Lemma kernel_get_device_drops_errors_witness :
  ∃ d, kernel_get_device (mret (inr 33)) 0 1 2
      (λ _, [inr (message_bytes 33 NLM_F_MULTI 1 2 (enc_message troubled_device true (whole <$> peers troubled_device))); inr (done_frame 1 2)]) 1 (str "wg0")
      [true; true; true; true; true; false] = Done ((0, Some d), []) ∧
    map (λ p, map cidr (allowedips p)) (peers d) = [[33]; [128]].
Proof.
  eexists. split.
  - apply (kernel_get_device_drops_errors 33 NLM_F_MULTI 1 2 troubled_device (str "wg0") [true; true; true; true; true; false]);
      [done|done|done|done|exact troubled_fits|apply Nat.ltb_lt; reflexivity].
  - reflexivity.
Defined.
