(* ===== verification/IpcLinuxLinksSpec.v ===== *)
(** * IpcLinuxLinksSpec: the interfaces the kernel reports

    A dump of links, each a name, a kind and attributes the tools do not look at, in
    any number of datagrams: [kernel_get_wireguard_interfaces] lists the names of the
    links of kind "wireguard", in order.  This discharges what [IpcSpec] assumes of
    the kernel's list of interfaces. *)

From Stdlib Require Import Ascii String.
From stdpp Require Import base numbers option sets list list_numbers strings.
From S2P Require Import Prelude CLib Ctype Encoding Containers Setconf Field25519 X25519 Ipc IpcSpec Netlink NetlinkSpec IpcLinux IpcLinuxSpec IpcLinuxGetSpec.
#[local] Open Scope c_scope.

(** ** Links *)

(** The fixed header, the name, attributes that are skipped, the kind with its data,
    and more attributes that are skipped. *)
Record link := {
  l_header : bytes;
  l_name : bytes;
  l_before : list (Z * bytes);
  l_info : option (bytes * list (Z * bytes));
  l_after : list (Z * bytes);
}.

Definition enc_info (i : bytes * list (Z * bytes)) : bytes := nest IFLA_LINKINFO (leaf IFLA_INFO_KIND (i.1 ++ [0]) ++ leaves i.2).
Definition link_attrs (l : link) : bytes :=
  leaf IFLA_IFNAME (l_name l ++ [0]) ++ leaves (l_before l) ++ (if l_info l is Some i then enc_info i else []) ++ leaves (l_after l).
Definition enc_link (l : link) : bytes := l_header l ++ link_attrs l.

Definition skipped (ts : list Z) (l : list (Z * bytes)) : Prop :=
  Forall (λ x, 0 <= x.1 < 2 ^ 14 ∧ (x.1 ∉ ts) ∧ Z.of_nat (4 + length x.2) < 65536) l.
Record link_ok (l : link) : Prop := {
  lk_header : length (l_header l) = SIZEOF_IFINFOMSG;
  lk_name : interface_name (l_name l);
  lk_before : skipped [IFLA_IFNAME; IFLA_LINKINFO] (l_before l);
  lk_after : skipped [IFLA_IFNAME; IFLA_LINKINFO] (l_after l);
  lk_info i : l_info l = Some i → cstring i.1 = true ∧ skipped [IFLA_INFO_KIND] i.2;
  lk_small : nlmsg_len (enc_link l) < 65536;
}.

Definition is_wg (l : link) : bool := if l_info l is Some i then strcmp_eq WG_GENL_NAME i.1 else false.
Definition wg_names (ls : list link) : list bytes := l_name <$> filter (λ l, is_wg l = true) ls.

(** ** One message *)

Lemma skip_leaves {St} (cb : bytes → St → M (Z * St)) ts l st :
  (∀ attr, mnl_attr_get_type attr ∉ ts → cb attr st [] = Done ((MNL_CB_OK, st), [])) → skipped ts l → reads cb (leaves l) st st.
Proof.
  intros Hcb Hl. induction Hl as [|[t data] l (Ht & Hn & Hs) _ IH]; [apply reads_nil|]. rewrite leaves_cons. cbn [fst snd] in *.
  eapply read_app; [|exact IH]. eapply reads_attr; [by apply leaf_is_attr|]. intros tail. apply Hcb.
  by rewrite (a_type _ _ _ (leaf_is_attr t data Ht Hs)).
Qed.

Lemma infomsg_skips attr i : mnl_attr_get_type attr ∉ [IFLA_IFNAME; IFLA_LINKINFO] → parse_infomsg attr i [] = Done ((MNL_CB_OK, i), []).
Proof.
  intros H. unfold parse_infomsg. rewrite (proj2 (Z.eqb_neq _ IFLA_LINKINFO)), (proj2 (Z.eqb_neq _ IFLA_IFNAME)) by set_solver. done.
Qed.
Lemma linkinfo_skips attr i : mnl_attr_get_type attr ∉ [IFLA_INFO_KIND] → parse_linkinfo attr i [] = Done ((MNL_CB_OK, i), []).
Proof. intros H. unfold parse_linkinfo. by rewrite (proj2 (Z.eqb_neq _ IFLA_INFO_KIND)) by set_solver. Qed.

Lemma reads_str {St} (cb : bytes → St → M (Z * St)) t s st st' :
  0 <= t < 2 ^ 14 → cstring s = true → Z.of_nat (5 + length s) < 65536 →
  (∀ attr, mnl_attr_get_type attr = t → mnl_attr_get_str attr = s → cb attr st [] = Done ((MNL_CB_OK, st'), [])) →
  reads cb (leaf t (s ++ [0])) st st'.
Proof.
  intros Ht Hs Hl Hcb. assert (A : is_attr (leaf t (s ++ [0])) t (s ++ [0])) by (apply leaf_is_attr; [done|rewrite length_app; cbn [length]; lia]).
  eapply reads_attr; [exact A|]. intros tail. apply Hcb; [apply (a_type _ _ _ A)|by apply (a_str _ _ _ _ A)].
Qed.

Lemma reads_info i ifn :
  cstring i.1 = true → skipped [IFLA_INFO_KIND] i.2 → Z.of_nat (length (enc_info i)) < 65536 →
  reads parse_infomsg (enc_info i) {| ifname := ifn; is_wireguard := false |} {| ifname := ifn; is_wireguard := strcmp_eq WG_GENL_NAME i.1 |}.
Proof.
  intros Hc Hs Hl. unfold enc_info in *. rewrite nest_length, length_app, leaf_length, length_app in Hl. cbn [length] in Hl.
  pose proof (MNL_ALIGN_spec (length i.1 + 1)) as [HA _].
  assert (A : is_attr (nest IFLA_LINKINFO (leaf IFLA_INFO_KIND (i.1 ++ [0]) ++ leaves i.2)) IFLA_LINKINFO (leaf IFLA_INFO_KIND (i.1 ++ [0]) ++ leaves i.2)).
  { apply nest_is_attr; [done| |apply aligned_app; [apply leaf_aligned|apply leaves_aligned]].
    rewrite length_app, leaf_length, length_app. cbn [length]. lia. }
  eapply reads_attr; [exact A|]. intros tail. unfold parse_infomsg. rewrite (a_type _ _ _ A). eqb_consts. apply (reads_nested _ _ _ _ _ _ _ A).
  eapply read_app; [apply (reads_str _ _ _ _ {| ifname := ifn; is_wireguard := strcmp_eq WG_GENL_NAME i.1 |}); [done|done|lia|]|].
  - intros attr Ht Hstr. unfold parse_linkinfo. rewrite Ht, Hstr. eqb_consts. cbn [andb]. by destruct (strcmp_eq _ _).
  - apply (skip_leaves _ [IFLA_INFO_KIND]); [|done]. intros attr Ht. by apply linkinfo_skips.
Qed.

Lemma reads_link l : link_ok l →
  reads parse_infomsg (link_attrs l) interface_zero {| ifname := Some (l_name l); is_wireguard := is_wg l |}.
Proof.
  intros [Hh [_ Hn] Hb Ha Hi Hs]. unfold enc_link, link_attrs, nlmsg_len in *. rewrite !length_app, leaf_length, length_app in Hs. cbn [length] in Hs.
  pose proof (MNL_ALIGN_spec (length (l_name l) + 1)) as [HA _].
  eapply read_app; [apply (reads_str _ _ _ _ {| ifname := Some (l_name l); is_wireguard := false |}); [done|done|lia|]|].
  { intros attr Ht Hstr. unfold parse_infomsg. rewrite Ht, Hstr. eqb_consts. done. }
  eapply read_app; [by eapply skip_leaves; [intros; by apply infomsg_skips|]|].
  eapply read_app; [|by eapply skip_leaves; [intros; by apply infomsg_skips|]].
  unfold is_wg. destruct (l_info l) as [i|]; [|apply reads_nil]. destruct (Hi i eq_refl). apply reads_info; [done|done|lia].
Qed.

(** ** Datagrams *)

Section Dump.
Context {plat : Platform} (type fl seq pid : Z).
Hypothesis Htype : NLMSG_MIN_TYPE <= type < 65536.
Hypothesis Hfl : 0 <= fl < 65536 ∧ fl .& NLM_F_DUMP_INTR = 0.
Hypothesis Hseq : 0 <= seq < 2 ^ 32.
Hypothesis Hpid : 0 <= pid < 2 ^ 32.

Definition frame (l : link) : bytes := message_bytes type fl seq pid (enc_link l).

Lemma enc_link_aligned l : link_ok l → aligned (enc_link l) ∧ aligned (link_attrs l).
Proof.
  intros Hl. assert (Ha : aligned (link_attrs l)).
  { apply aligned_app; [apply leaf_aligned|]. apply aligned_app; [apply leaves_aligned|]. apply aligned_app; [|apply leaves_aligned].
    destruct (l_info l); [|done]. apply nest_aligned, aligned_app; [apply leaf_aligned|apply leaves_aligned]. }
  split; [|done]. apply aligned_app; [|done]. unfold aligned. by rewrite (lk_header _ Hl).
Qed.

Lemma parse_link l tail : link_ok l →
  mnl_attr_parse (frame l ++ tail) SIZEOF_IFINFOMSG parse_infomsg interface_zero [] =
    Done ((MNL_CB_OK, {| ifname := Some (l_name l); is_wireguard := is_wg l |}), []).
Proof.
  intros Hl. destruct (enc_link_aligned l Hl) as [_ Ha]. rewrite <- (lk_header _ Hl). unfold frame, enc_link.
  apply (attr_parse_frame seq pid Hseq Hpid); [apply (lk_small _ Hl)|unfold NLMSG_MIN_TYPE in Htype; lia|apply Hfl| |done|by apply reads_link].
  unfold aligned. by rewrite (lk_header _ Hl).
Qed.

(** A link of kind "wireguard" is added, another is skipped. *)
Lemma read_link e l tail sl names : link_ok l → holds sl names →
  Z.of_nat (length (names_text names)) + Z.of_nat (length (l_name l)) + 2 <= SIZE_MAX →
  ∃ sl', read_devices_cb (frame l ++ tail) (e, sl) [] = Done ((MNL_CB_OK + 1, (e, sl')), []) ∧ holds sl' (names ++ wg_names [l]).
Proof.
  intros Hl Hh Hmax. unfold read_devices_cb, mbind, M_bind. rewrite parse_link by done. cbn [fst snd ifname is_wireguard].
  change (MNL_CB_OK =? MNL_CB_OK) with true. cbn [negb].
  destruct (frame_fields_app seq pid Hseq Hpid type fl (enc_link l) tail) as (_ & Ht & _); [apply (lk_small _ Hl)|unfold NLMSG_MIN_TYPE in Htype; lia|apply Hfl|].
  fold (frame l) in Ht. rewrite Ht, (proj2 (Z.eqb_neq type NLMSG_DONE)) by (unfold NLMSG_MIN_TYPE, NLMSG_DONE in *; lia). cbn [negb].
  unfold wg_names. rewrite filter_cons, filter_nil. destruct (is_wg l) eqn:E; cbn [negb].
  - rewrite decide_True by done. destruct (lk_name _ Hl) as [Hne Hc].
    pose proof (string_list_add_cases sl names (l_name l) [] Hh Hc ltac:(rewrite (h_len _ _ Hh); lia)) as H.
    destruct (string_list_add sl (l_name l) []) as [[[r sl'] o']| | |]; [|done..].
    destruct H as [(Ho & -> & Hh')|(_ & _ & Hin)]; [|by apply not_elem_of_nil in Hin].
    assert (o' = []) as -> by (destruct o' as [|x o']; [done|]; exfalso; specialize (Ho x); set_solver).
    exists sl'. split; [done|]. cbn. by destruct (l_name l).
  - rewrite decide_False by done. exists sl. split; [done|]. by rewrite app_nil_r.
Qed.

Lemma frame_length l : link_ok l → Z.of_nat (length (frame l)) = nlmsg_len (enc_link l).
Proof.
  intros Hl. apply (frame_fields seq pid Hseq Hpid type fl); [apply (lk_small _ Hl)|unfold NLMSG_MIN_TYPE in Htype; lia|apply Hfl].
Qed.

Lemma cb_run_link e l fuel tail n ret sl names : link_ok l → holds sl names → 0 <= n →
  Z.of_nat (length (names_text names)) + Z.of_nat (length (l_name l)) + 2 <= SIZE_MAX →
  ∃ sl', cb_run (S fuel) false (Some read_devices_cb) seq pid (frame l ++ tail) (Z.of_nat (length (frame l)) + n) ret (e, sl) [] =
         cb_run fuel false (Some read_devices_cb) seq pid tail n (MNL_CB_OK + 1) (e, sl') [] ∧ holds sl' (names ++ wg_names [l]).
Proof.
  intros Hl Hh Hn Hmax. destruct (read_link e l tail sl names Hl Hh Hmax) as (sl' & Hcb & Hh'). exists sl'. split; [|done].
  rewrite frame_length by done.
  apply (cb_run_data type fl seq pid Htype Hfl Hseq Hpid false read_devices_cb (enc_link l) tail fuel n ret (e, sl) (MNL_CB_OK + 1, (e, sl')));
    [apply (lk_small _ Hl)|by apply enc_link_aligned|done|done|done].
Qed.

Lemma wg_names_app a b : wg_names (a ++ b) = wg_names a ++ wg_names b.
Proof. unfold wg_names. by rewrite filter_app, fmap_app. Qed.

(** Room for the names of the links. *)
Definition fits (names : list bytes) (ls : list link) : Prop :=
  Z.of_nat (length (names_text names)) + Z.of_nat (length (names_text (l_name <$> ls))) + 1 <= SIZE_MAX.

Lemma names_text_cons s l : length (names_text (s :: l)) = (length s + 1 + length (names_text l))%nat.
Proof. cbn. rewrite !length_app. cbn. unfold names_text. lia. Qed.
Lemma wg_names_le ls : (length (names_text (wg_names ls)) <= length (names_text (l_name <$> ls)))%nat.
Proof.
  induction ls as [|l ls IH]; [done|]. rewrite fmap_cons, names_text_cons. unfold wg_names. rewrite filter_cons.
  case_decide; [rewrite fmap_cons, names_text_cons|]; unfold wg_names in IH; lia.
Qed.
Lemma fits_cons names l ls : fits names (l :: ls) →
  Z.of_nat (length (names_text names)) + Z.of_nat (length (l_name l)) + 2 <= SIZE_MAX ∧ fits (names ++ wg_names [l]) ls.
Proof.
  unfold fits. rewrite fmap_cons, names_text_cons, names_text_app, length_app. pose proof (wg_names_le [l]) as H.
  rewrite fmap_cons, names_text_cons in H. cbn [fmap list_fmap names_text flat_map length] in H. lia.
Qed.

Lemma cb_run_links e ls fuel ret sl names : Forall link_ok ls → holds sl names → fits names ls → (length ls < fuel)%nat →
  ∃ sl', cb_run fuel false (Some read_devices_cb) seq pid (flat_map frame ls) (Z.of_nat (length (flat_map frame ls))) ret (e, sl) [] =
         Done ((if ls is [] then ret else MNL_CB_OK + 1, (e, sl')), []) ∧ holds sl' (names ++ wg_names ls).
Proof.
  intros Hls. revert fuel ret sl names. induction Hls as [|l ls Hl _ IH]; intros fuel ret sl names Hh Hfit Hf.
  { exists sl. rewrite cb_run_end by (cbn; lia). split; [done|]. by rewrite app_nil_r. }
  destruct fuel as [|fuel]; [lia|]. cbn [flat_map]. rewrite length_app, Nat2Z.inj_add. destruct (fits_cons _ _ _ Hfit) as [H1 H2].
  destruct (cb_run_link e l fuel (flat_map frame ls) (Z.of_nat (length (flat_map frame ls))) ret sl names Hl Hh ltac:(lia) H1) as (sl1 & -> & Hh1).
  destruct (IH fuel (MNL_CB_OK + 1) sl1 _ Hh1 H2 ltac:(cbn in Hf; lia)) as (sl2 & -> & Hh2).
  exists sl2. change (l :: ls) with ([l] ++ ls). rewrite wg_names_app, app_assoc. split; [by case_match|done].
Qed.

Lemma links_length ls : (length ls <= length (flat_map frame ls))%nat.
Proof. induction ls as [|l ls IH]; [done|]. cbn [flat_map]. rewrite length_app. change (length (l :: ls)) with (1 + length ls)%nat.
  assert (1 <= length (frame l))%nat by (cbn; lia). lia.
Qed.

Lemma cb_run_links_done e sl :
  mnl_cb_run false (Some read_devices_cb) seq pid (done_frame seq pid) (e, sl) [] = Done ((MNL_CB_STOP, (e, sl)), []).
Proof.
  destruct (frame_accepted seq pid Hseq Hpid NLMSG_DONE NLM_F_MULTI (le_bytes 4 0)) as (Hok & Hport & Hsq); [done..|].
  destruct (frame_fields seq pid Hseq Hpid NLMSG_DONE NLM_F_MULTI (le_bytes 4 0)) as (Hl & Hty & Hf & _); [done..|].
  unfold mnl_cb_run. fold (done_frame seq pid) in *. cbn [cb_run]. rewrite Hok, Hport, Hsq, Hty, Hf.
  change (truthy (NLM_F_MULTI .& NLM_F_DUMP_INTR)) with false. change (NLMSG_MIN_TYPE <=? NLMSG_DONE) with false. cbn [negb].
  unfold control_cb. rewrite Hty. eqb_consts. reflexivity.
Qed.

(** A dump of links in datagrams of one or more messages, and its end. *)
Definition dump (lss : list (list link)) : list (Z + bytes) := (inr ∘ flat_map frame <$> lss) ++ [inr (done_frame seq pid)].

Lemma receive_dump e lss sl names : Forall (Forall link_ok) lss → Forall (λ ls, ls ≠ []) lss → holds sl names → fits names (concat lss) →
  ∃ sl', receive_links seq pid (dump lss) (e, sl) [] = Done ((0, sl'), []) ∧ holds sl' (names ++ wg_names (concat lss)).
Proof.
  intros Hls. revert e sl names. induction Hls as [|ls lss Hl _ IH]; intros e sl names Hne Hh Hfit.
  { exists sl. cbn [dump fmap list_fmap app receive_links]. unfold mbind, M_bind. rewrite cb_run_links_done. split; [done|]. by rewrite app_nil_r. }
  apply Forall_cons in Hne as [Hn Hne]. cbn [concat] in *.
  assert (Hfit1 : fits names ls ∧ fits (names ++ wg_names ls) (concat lss)).
  { unfold fits in *. rewrite fmap_app, names_text_app, length_app in Hfit. rewrite names_text_app, length_app. pose proof (wg_names_le ls). lia. }
  destruct Hfit1 as [Hf1 Hf2]. unfold dump. rewrite fmap_cons. cbn [app compose receive_links].
  destruct (cb_run_links e ls (S (length (flat_map frame ls))) MNL_CB_OK sl names Hl Hh Hf1) as (sl1 & Hrun & Hh1);
    [pose proof (links_length ls); lia|].
  unfold mbind, M_bind, mnl_cb_run. rewrite Hrun. destruct ls as [|l ls]; [done|]. cbn [fst snd].
  change (MNL_CB_OK + 1 <? 0) with false. change (MNL_CB_OK + 1 =? MNL_CB_OK + 1) with true. cbn [andb].
  destruct (IH e sl1 _ Hne Hh1 Hf2) as (sl2 & Hr & Hh2). exists sl2. fold (dump lss). rewrite wg_names_app, app_assoc. by split.
Qed.
End Dump.

(** ** The family *)

Section Family.
Context (CTRL_ATTR_MAX seq pid id : Z).
Hypothesis Hmax : CTRL_ATTR_FAMILY_ID <= CTRL_ATTR_MAX.
Hypothesis Hseq : 0 <= seq < 2 ^ 32.
Hypothesis Hpid : 0 <= pid < 2 ^ 32.
Hypothesis Hid : 0 <= id < 65536.

(** The answer: the number of the family among other attributes. *)
Definition family_attrs (before after : list (Z * bytes)) : bytes := leaves (before ++ (CTRL_ATTR_FAMILY_ID, le_bytes 2 id) :: after).
Definition family_body (before after : list (Z * bytes)) : bytes := mnlg_msg_prepare 1 2 ++ family_attrs before after.
Definition known (l : list (Z * bytes)) : Prop := Forall (λ x, 0 <= x.1 <= CTRL_ATTR_MAX) l.

Lemma skip_known e o l : skipped [CTRL_ATTR_FAMILY_ID] l → known l → reads (get_family_id_attr_cb CTRL_ATTR_MAX) (leaves l) (e, o) (e, o).
Proof.
  intros Hs Hk. induction Hs as [|[t data] l (Ht & Hn & Hl) _ IH]; [apply reads_nil|]. apply Forall_cons in Hk as [Hk Hks]. rewrite leaves_cons. cbn [fst snd] in *.
  eapply read_app; [|by apply IH]. pose proof (leaf_is_attr t data Ht Hl) as A. eapply reads_attr; [exact A|]. intros tail.
  unfold get_family_id_attr_cb. rewrite (a_type _ _ _ A), (proj2 (Z.ltb_ge CTRL_ATTR_MAX t)), (proj2 (Z.eqb_neq t CTRL_ATTR_FAMILY_ID)) by (lia || set_solver). done.
Qed.

Lemma reads_family e before after :
  skipped [CTRL_ATTR_FAMILY_ID] before → known before → skipped [CTRL_ATTR_FAMILY_ID] after → known after →
  ∃ attr, reads (get_family_id_attr_cb CTRL_ATTR_MAX) (family_attrs before after) (e, None) (e, Some attr) ∧ mnl_attr_get_u16 attr = id.
Proof.
  intros Hb Kb Ha Ka. exists (take 6 (leaf CTRL_ATTR_FAMILY_ID (le_bytes 2 id))). split.
  - unfold family_attrs. rewrite leaves_app, leaves_cons. cbn [fst snd].
    eapply read_app; [by apply skip_known|]. eapply read_app; [|by apply skip_known]. read_leaf.
    unfold get_family_id_attr_cb. rewrite (a_type _ _ _ A), (proj2 (Z.ltb_ge CTRL_ATTR_MAX _)) by lia. eqb_consts.
    rewrite (a_valid _ _ _ A) by side. change (truthy 0) with false. cbn [andb]. unfold attr_bytes. rewrite (a_len _ _ _ A), Nat2Z.id, le_bytes_length.
    rewrite take_app_le by (rewrite leaf_length, le_bytes_length; cbn; lia). done.
  - unfold mnl_attr_get_u16. change (payload _ 2) with (le_bytes 2 id). by apply le2_value.
Qed.

Lemma run_family type fl before after :
  NLMSG_MIN_TYPE <= type < 65536 → 0 <= fl < 65536 ∧ fl .& NLM_F_DUMP_INTR = 0 → nlmsg_len (family_body before after) < 65536 →
  skipped [CTRL_ATTR_FAMILY_ID] before → known before → skipped [CTRL_ATTR_FAMILY_ID] after → known after →
  mnl_cb_run true (Some (get_family_id_cb CTRL_ATTR_MAX)) seq pid (message_bytes type fl seq pid (family_body before after)) (0, 0) [] =
    Done ((MNL_CB_OK, (0, id)), []).
Proof.
  intros Ht Hfl Hs Hb Kb Ha Ka. destruct (reads_family 0 before after Hb Kb Ha Ka) as (attr & Hr & Hu).
  apply (cb_run_one type fl seq pid Ht Hfl Hseq Hpid); [done|apply aligned_app; [done|apply leaves_aligned]|].
  unfold get_family_id_cb, mbind, M_bind. unfold family_body in *.
  pose proof (attr_parse_frame seq pid Hseq Hpid (get_family_id_attr_cb CTRL_ATTR_MAX) type fl (mnlg_msg_prepare 1 2) (family_attrs before after) []
    (0, None) (0, Some attr) Hs ltac:(unfold NLMSG_MIN_TYPE in Ht; lia) (proj1 Hfl) ltac:(done) ltac:(apply leaves_aligned) Hr) as H.
  rewrite app_nil_r in H. cbn [fst snd]. change (length (mnlg_msg_prepare 1 2)) with 4%nat in H. rewrite H. cbn [fst snd]. by rewrite Hu.
Qed.
End Family.

Lemma open_allocated CTRL_ATTR_MAX seq pid answer :
  mnlg_socket_open CTRL_ATTR_MAX 0 0 seq pid (λ _, (0, answer)) WG_GENL_NAME [] =
  (r ← mnlg_socket_recv_run (Some (get_family_id_cb CTRL_ATTR_MAX)) seq pid answer (0, 0);
   if r.1 <? 0 then
     let errno := if r.2.1 =? ENOENT then EPROTONOSUPPORT else r.2.1 in
     mret (inl (if truthy errno then errno else ENOSYS))
   else mret (inr r.2.2)) [].
Proof. done. Qed.

(** Opening the generic netlink socket finds the number of the family in the
    kernel's answer, whatever other known attributes it has; a kernel without the
    family is reported as [EPROTONOSUPPORT], and a failed allocation as [ENOMEM]. *)
Theorem mnlg_socket_open_family CTRL_ATTR_MAX seq pid id type fl before after
    (Hmax : CTRL_ATTR_FAMILY_ID <= CTRL_ATTR_MAX) (Hseq : 0 <= seq < 2 ^ 32) (Hpid : 0 <= pid < 2 ^ 32) (Hid : 0 <= id < 65536)
    (Htype : NLMSG_MIN_TYPE <= type < 65536) (Hfl : 0 <= fl < 65536 ∧ fl .& NLM_F_DUMP_INTR = 0)
    (Hs : nlmsg_len (family_body id before after) < 65536)
    (Hb : skipped [CTRL_ATTR_FAMILY_ID] before) (Kb : known CTRL_ATTR_MAX before)
    (Ha : skipped [CTRL_ATTR_FAMILY_ID] after) (Ka : known CTRL_ATTR_MAX after) :
  let open answer o := mnlg_socket_open CTRL_ATTR_MAX 0 0 seq pid (λ _, (0, answer)) WG_GENL_NAME o in
  let found := [inr (message_bytes type fl seq pid (family_body id before after)); inr (ack_frame seq pid)] in
  open found [] = Done (inr id, []) ∧
  open [inr (error_frame seq pid (- ENOENT))] [] = Done (inl EPROTONOSUPPORT, []) ∧
  (∀ o o', o = [false] ∨ o = [true; false] ∨ o = [true; true; false] → open found (o ++ o') = Done (inl ENOMEM, o')).
Proof.
  cbn zeta. split_and!.
  - rewrite open_allocated. unfold mbind at 1, M_bind. erewrite recv_frame; [|by eapply run_family]. cbn [fst snd].
    change (0 <? MNL_CB_OK) with true. cbn iota. unfold ack_frame, error_frame. erewrite recv_frame; [|by apply (cb_run_error seq pid Hseq Hpid)]. reflexivity.
  - rewrite open_allocated. unfold mbind at 1, M_bind. unfold error_frame. erewrite recv_frame; [|by apply (cb_run_error seq pid Hseq Hpid)]. reflexivity.
  - intros o o' [->|[->| ->]]; reflexivity.
Qed.


Lemma skipped_sample t data ts : 0 <= t < 2 ^ 14 → forallb (λ x, negb (t =? x)) ts = true → (length data <= 10)%nat → skipped ts [(t, data)].
Proof.
  intros Ht Hts Hl. constructor; [|constructor]. cbn [fst snd]. split_and!; [lia|lia| |lia].
  intros Hin%list_elem_of_In. rewrite forallb_forall in Hts. apply Hts in Hin. by rewrite Z.eqb_refl in Hin.
Qed.

Lemma mnlg_socket_open_family_witness :
  mnlg_socket_open 10 0 0 1 2
    (λ _, (0, [inr (message_bytes 16 0 1 2 (family_body 33 [(2, str "wireguard" ++ [0])] [(3, [1; 0; 0; 0])])); inr (ack_frame 1 2)])) WG_GENL_NAME []
  = Done (inr 33, []).
Proof.
  refine (proj1 (mnlg_socket_open_family 10 1 2 33 16 0 [(2, str "wireguard" ++ [0])] [(3, [1; 0; 0; 0])] _ _ _ _ _ _ _ _ _ _ _)); try done; try lia.
  - apply skipped_sample; [lia|done|vm_compute; lia].
  - constructor; [cbn; lia|constructor].
  - apply skipped_sample; [lia|done|cbn; lia].
  - constructor; [cbn; lia|constructor].
Defined.

(** C34: On a dump of links, in any number of datagrams and with any other attributes,
    [kernel_get_wireguard_interfaces] collects exactly the names of the links whose
    kind is "wireguard", in the order of the dump: the Linux kernel lists its
    interfaces as [ipc_list_devices] assumes. *)
Theorem linux_lists_interfaces (plat : Platform) N type fl lss
    (Htype : NLMSG_MIN_TYPE <= type < 65536) (Hfl : 0 <= fl < 65536 ∧ fl .& NLM_F_DUMP_INTR = 0)
    (Hseq : 0 <= nl_seq N < 2 ^ 32) (Hpid : 0 <= nl_portid N < 2 ^ 32)
    (Hopen : nl_socket_errno N = 0 ∧ nl_bind_errno N = 0 ∧ nl_send_errno N = 0)
    (Hdump : nl_links N = dump type fl (nl_seq N) (nl_portid N) lss)
    (Hok : Forall (Forall link_ok) lss) (Hne : Forall (λ ls, ls ≠ []) lss)
    (Hmax : Z.of_nat (length (names_text (l_name <$> concat lss))) + 1 <= SIZE_MAX) :
  kernel_lists (Some (linux_kernel N)) (wg_names (concat lss)).
Proof.
  destruct (receive_dump type fl (nl_seq N) (nl_portid N) Htype Hfl Hseq Hpid 0 lss string_list_zero [] Hok Hne holds_zero) as (sl & Hr & Hh); [done|].
  exists sl. split; [|done]. cbn [linux_kernel Ipc.kernel_get_wireguard_interfaces]. unfold kernel_get_wireguard_interfaces, mnl_socket_open.
  destruct Hopen as (-> & -> & ->). unfold mbind, M_bind. cbn [alloc negb mret M_ret]. change (truthy 0) with false. cbn iota. by rewrite Hdump.
Qed.

Definition sample_link (n kind : bytes) : link :=
  {| l_header := replicate 16 0; l_name := n; l_before := [(13, [0; 0; 0; 0])]; l_info := Some (kind, []); l_after := [(26, [1])] |}.
Definition sample_links : list (list link) := [[sample_link (str "lo") (str "veth"); sample_link (str "wg0") (str "wireguard")]; [sample_link (str "wg1") (str "wireguard")]].
Definition sample_netlink : netlink :=
  {| nl_pagesize := 4096; nl_ctrl_attr_max := 10; nl_socket_errno := 0; nl_bind_errno := 0; nl_send_errno := 0; nl_seq := 1; nl_portid := 2;
     nl_family := λ _, (0, []);
     nl_links := dump 16 NLM_F_MULTI 1 2 sample_links; nl_attempts := 1; nl_answers := λ _ _, []; nl_transact := λ _ _, (0, []) |}.

Lemma sample_link_ok n kind :
  n ≠ [] → cstring n = true → cstring kind = true → nlmsg_len (enc_link (sample_link n kind)) < 65536 → link_ok (sample_link n kind).
Proof.
  intros Hne Hn Hk Hs. split; try done; [apply skipped_sample; (done || cbn; lia)..|]. intros i [= <-]. split; [done|constructor].
Qed.

Lemma linux_lists_interfaces_witness : kernel_lists (plat := arm64) (Some (linux_kernel (H := arm64) sample_netlink)) [str "wg0"; str "wg1"].
Proof.
  apply (linux_lists_interfaces arm64 sample_netlink 16 NLM_F_MULTI sample_links); try done.
  - constructor; [constructor; [|constructor; [|constructor]]|constructor; [constructor; [|constructor]|constructor]].
    all: apply sample_link_ok; (done || by vm_compute).
  - constructor; [|constructor; [|constructor]]; done.
Defined.
