(* ===== verification/Regex.v ===== *)
(** * Regex: regcomp and regexec, for the expressions of wg-quick

    POSIX extended regular expressions without REG_NEWLINE: literals, [.],
    bracket expressions, groups, the repetitions [* + ? {m,n}], alternatives and
    the anchors.  A subject is matched with a mark before and after it, which
    only the anchors match.  Matching is by derivatives; RegexSpec compares it with
    the language of an expression. *)

From Stdlib Require Import Ascii String.
From stdpp Require Import base numbers option sets list list_numbers strings.
From S2P Require Import Prelude CLib.
#[local] Open Scope c_scope.

(** ** Expressions *)

Inductive re :=
  | Void
  | Eps
  | Chars (P : Z → bool)
  | Cat (r s : re)
  | Alt (r s : re)
  | Star (r : re)
  | Group (r : re).

(** The marks at the two ends of the subject. *)
Definition BOS : Z := -1.
Definition EOS : Z := -2.

Definition lit (c : Z) : re := Chars (Z.eqb c).
Definition any : re := Chars (λ c, 0 <=? c).
Definition cats (l : list re) : re := foldr Cat Eps l.

Fixpoint repeat (r : re) (m n : nat) : re :=
  match n with
  | O => Eps
  | S n' => match m with O => Alt Eps (Cat r (repeat r 0 n')) | S m' => Cat r (repeat r m' n') end
  end.

(** ** regcomp *)

(** The characters of a bracket expression up to its end; [first] where a "]" is
    still a character. *)
Fixpoint brackets (first : bool) (s : bytes) : option ((Z → bool) * bytes) :=
  match s with
  | [] => None
  | c :: s' =>
      if (c =? ch "]") && negb first then Some (λ _, false, s')
      else
        match s' with
        | d :: (e :: s'') as s1 =>
            if (d =? ch "-") && negb (e =? ch "]")
            then '(P, rest) ← brackets false s''; Some (λ x, ((c <=? x) && (x <=? e)) || P x, rest)
            else '(P, rest) ← brackets false s'; Some (λ x, (x =? c) || P x, rest)
        | _ => '(P, rest) ← brackets false s'; Some (λ x, (x =? c) || P x, rest)
        end
  end.
Definition bracket (s : bytes) : option (re * bytes) :=
  match s with
  | 94 :: s' => '(P, rest) ← brackets true s'; Some (Chars (λ x, (0 <=? x) && negb (P x)), rest)
  | _ => '(P, rest) ← brackets true s; Some (Chars P, rest)
  end.

Definition repetition (c : Z) : bool := (c =? ch "*") || (c =? ch "+") || (c =? ch "?") || (c =? ch "{").

(** The repetition after an atom; a second one is an error. *)
Definition quantify (r : re) (s : bytes) : option (re * bytes) :=
  q ← match s with
      | c :: s' =>
          if c =? ch "*" then Some (Star r, s')
          else if c =? ch "+" then Some (Cat r (Star r), s')
          else if c =? ch "?" then Some (Alt r Eps, s')
          else if c =? ch "{" then
            match span_digits 10 s' with
            | (m, 44 :: s1) =>
                match span_digits 10 s1 with
                | (n, 125 :: s2) => Some (repeat r (Z.to_nat (digits_value 10 m)) (Z.to_nat (digits_value 10 n)), s2)
                | _ => None
                end
            | _ => None
            end
          else Some (r, s)
      | [] => Some (r, s)
      end;
  match q.2 with
  | c :: _ => if repetition c && negb (Nat.eqb (length q.2) (length s)) then None else Some q
  | [] => Some q
  end.

(** Alternatives, each a row of pieces, up to a closing parenthesis or the end. *)
Fixpoint parse (fuel : nat) (s : bytes) (branch : list re) (done : list (list re)) : option (list (list re) * bytes) :=
  match fuel with
  | O => None
  | S fuel' =>
      let piece (r : re) (s : bytes) := '(r, s) ← quantify r s; parse fuel' s (branch ++ [r]) done in
      match s with
      | [] => Some (done ++ [branch], [])
      | c :: s' =>
          if c =? ch ")" then Some (done ++ [branch], s)
          else if c =? ch "|" then parse fuel' s' [] (done ++ [branch])
          else if repetition c then None
          else if c =? ch "^" then parse fuel' s' (branch ++ [lit BOS]) done
          else if c =? ch "$" then parse fuel' s' (branch ++ [lit EOS]) done
          else if c =? ch "." then piece any s'
          else if c =? ch "[" then '(r, s) ← bracket s'; piece r s
          else if c =? ch "\" then match s' with d :: s'' => piece (lit d) s'' | [] => None end
          else if c =? ch "(" then
            '(alts, rest) ← parse fuel' s' [] [];
            match rest with
            | 41 :: s'' => piece (Group (foldr (λ b r, Alt (cats b) r) Void alts)) s''
            | _ => None
            end
          else piece (lit c) s'
      end
  end.

(** [regcomp]: the alternatives, or [None] for an expression it rejects. *)
Definition regcomp (pattern : bytes) : option (list (list re)) :=
  match parse (S (length pattern)) pattern [] [] with
  | Some (alts, []) => Some alts
  | _ => None
  end.
Definition whole (alts : list (list re)) : re := foldr (λ b r, Alt (cats b) r) Void alts.

(** ** Matching *)

Fixpoint nullable (r : re) : bool :=
  match r with
  | Void => false
  | Eps => true
  | Chars _ => false
  | Cat r s => nullable r && nullable s
  | Alt r s => nullable r || nullable s
  | Star _ => true
  | Group r => nullable r
  end.

Definition cat (r s : re) : re := match r with Void => Void | Eps => s | _ => Cat r s end.
Definition alt (r s : re) : re := match r, s with Void, _ => s | _, Void => r | _, _ => Alt r s end.

Fixpoint deriv (c : Z) (r : re) : re :=
  match r with
  | Void | Eps => Void
  | Chars P => if P c then Eps else Void
  | Cat r s => if nullable r then alt (cat (deriv c r) s) (deriv c s) else cat (deriv c r) s
  | Alt r s => alt (deriv c r) (deriv c s)
  | Star r => cat (deriv c r) (Star r)
  | Group r => deriv c r
  end.

Fixpoint matches (r : re) (s : bytes) : bool :=
  match s with
  | [] => nullable r
  | c :: s' => matches (deriv c r) s'
  end.

(** The length of the longest prefix of [s] that matches. *)
Fixpoint longest (r : re) (s : bytes) (i : nat) (best : option nat) : option nat :=
  let best := if nullable r then Some i else best in
  match s with
  | [] => best
  | c :: s' => match r with Void => best | _ => longest (deriv c r) s' (S i) best end
  end.

(** The leftmost, longest match: its start and length. *)
Fixpoint search (r : re) (s : bytes) (i : nat) : option (nat * nat) :=
  match longest r s 0 None with
  | Some n => Some (i, n)
  | None => match s with [] => None | _ :: s' => search r s' (S i) end
  end.

(** The largest [k <= n] with [P k]. *)
Fixpoint last_such (P : nat → bool) (n : nat) : option nat :=
  if P n then Some n else match n with O => None | S n' => last_such P n' end.

(** The first group of a branch: what is before it, and its text, each the longest
    that lets the rest match. *)
Fixpoint split_group (b : list re) : option (list re * re * list re) :=
  match b with
  | [] => None
  | Group r :: b' => Some ([], r, b')
  | r :: b' => '(pre, g, post) ← split_group b'; Some (r :: pre, g, post)
  end.
Definition group_end (g : re) (post : list re) (s : bytes) : option nat :=
  last_such (λ k, matches g (take k s) && matches (cats post) (drop k s)) (length s).
Definition group_span (b : list re) (s : bytes) : option (nat * nat) :=
  '(pre, g, post) ← split_group b;
  i ← last_such (λ k, matches (cats pre) (take k s) && bool_decide (is_Some (group_end g post (drop k s)))) (length s);
  j ← group_end g post (drop i s);
  Some (i, (i + j)%nat).

(** [regexec]: [None] for no match, else the text of the first group, if there is one:
    [matches[1]] as its start and end in the subject. *)
Definition marked (s : bytes) : bytes := BOS :: s ++ [EOS].
Definition regexec (alts : list (list re)) (s : bytes) : option (option (nat * nat)) :=
  '(i, n) ← search (whole alts) (marked s) 0;
  let m := take n (drop i (marked s)) in
  Some (head (omap (λ b, if matches (cats b) m then (λ x, (i + x.1 - 1, i + x.2 - 1)%nat) <$> group_span b m else None) alts)).
Definition regmatch (alts : list (list re)) (s : bytes) : bool := bool_decide (is_Some (regexec alts s)).
(** The text of the first group, with the end written over by NUL. *)
Definition group_text (alts : list (list re)) (s : bytes) : option bytes :=
  match regexec alts s with
  | Some (Some (i, j)) => Some (take (j - i) (drop i s))
  | _ => None
  end.

Definition ere (pattern : bytes) : list (list re) := default [] (regcomp pattern).
