(* ===== verification/RegexSpec.v ===== *)
(** * RegexSpec: what a match is

    [lang] is the language of an expression; the derivatives decide it, [search]
    finds the leftmost match there is, and the text of the first group is a word
    of the language of the group. *)

From Stdlib Require Import Ascii String.
From stdpp Require Import base numbers option sets list list_numbers strings.
From S2P Require Import Prelude CLib Regex.
#[local] Open Scope c_scope.

Inductive lang : re → bytes → Prop :=
  | lang_eps : lang Eps []
  | lang_chars P c : P c = true → lang (Chars P) [c]
  | lang_cat r s x y : lang r x → lang s y → lang (Cat r s) (x ++ y)
  | lang_alt_l r s x : lang r x → lang (Alt r s) x
  | lang_alt_r r s x : lang s x → lang (Alt r s) x
  | lang_star_nil r : lang (Star r) []
  | lang_star_cons r x y : lang r x → lang (Star r) y → lang (Star r) (x ++ y)
  | lang_group r x : lang r x → lang (Group r) x.

Create HintDb lang.
#[export] Hint Constructors lang : lang.

Lemma lang_inv r x :
  lang r x →
  match r with
  | Void => False
  | Eps => x = []
  | Chars P => ∃ c, x = [c] ∧ P c = true
  | Cat r s => ∃ y z, x = y ++ z ∧ lang r y ∧ lang s z
  | Alt r s => lang r x ∨ lang s x
  | Star r => x = [] ∨ ∃ y z, x = y ++ z ∧ lang r y ∧ lang (Star r) z
  | Group r => lang r x
  end.
Proof. destruct 1; eauto 6. Qed.

(** ** Derivatives *)

Lemma nullable_lang r : nullable r = true ↔ lang r [].
Proof.
  split.
  - induction r; cbn [nullable]; intros Hn; try done; auto with lang.
    + apply andb_true_iff in Hn as [??]. apply (lang_cat _ _ [] []); auto.
    + apply orb_true_iff in Hn as [?|?]; auto with lang.
  - intros Hl. remember [] as x eqn:Hx. induction Hl; cbn [nullable]; simplify_eq/=; try done.
    + apply app_eq_nil in Hx as [-> ->]. rewrite IHHl1, IHHl2 by done. done.
    + by rewrite IHHl.
    + rewrite IHHl by done. apply orb_true_r.
    + auto.
Qed.

Lemma lang_cat_smart r s x : lang (cat r s) x ↔ lang (Cat r s) x.
Proof.
  destruct r; cbn [cat]; try done.
  - split; intros Hl%lang_inv; [done|]. by destruct Hl as (y & z & _ & Hy%lang_inv & _).
  - split; intros Hl.
    + apply (lang_cat _ _ [] x); auto with lang.
    + apply lang_inv in Hl as (y & z & -> & Hy%lang_inv & Hz). by subst.
Qed.

Lemma lang_alt_smart r s x : lang (alt r s) x ↔ lang (Alt r s) x.
Proof.
  assert (H0 : ∀ y, ¬ lang Void y) by (intros y Hy%lang_inv; done).
  split; intros Hl.
  - destruct r, s; cbn [alt] in Hl; auto with lang; by apply H0 in Hl.
  - apply lang_inv in Hl as [Hl|Hl]; destruct r, s; cbn [alt]; auto with lang; by apply H0 in Hl.
Qed.

Lemma deriv_lang c r x : lang (deriv c r) x ↔ lang r (c :: x).
Proof.
  revert x. induction r as [| |P|r IHr s IHs|r IHr s IHs|r IHr|r IHr]; intros x; cbn [deriv].
  - split; intros Hl%lang_inv; done.
  - split; intros Hl%lang_inv; done.
  - split; intros Hl.
    + destruct (P c) eqn:E; apply lang_inv in Hl; [|done]. subst. auto with lang.
    + apply lang_inv in Hl as (d & Hd & HP). simplify_eq. rewrite HP. auto with lang.
  - assert (Hcat : lang (Cat r s) (c :: x) ↔
      lang (cat (deriv c r) s) x ∨ (nullable r = true ∧ lang (deriv c s) x)).
    { rewrite lang_cat_smart. setoid_rewrite IHs. rewrite nullable_lang. split.
      - intros (y & z & Hx & Hy & Hz)%lang_inv. destruct y as [|d y]; simplify_eq/=; [by right|].
        left. apply lang_cat; [by apply IHr|done].
      - intros [(y & z & -> & Hy%IHr & Hz)%lang_inv|[Hn Hs]].
        + by apply (lang_cat _ _ (c :: y)).
        + by apply (lang_cat _ _ [] (c :: x)). }
    rewrite Hcat. destruct (nullable r); [rewrite lang_alt_smart|]; split.
    + intros [?|?]%lang_inv; auto.
    + intros [?|[_ ?]]; auto with lang.
    + auto.
    + by intros [?|[? _]].
  - rewrite lang_alt_smart. split; intros [Hl|Hl]%lang_inv.
    all: first [by apply lang_alt_l, IHr | by apply lang_alt_r, IHs].
  - rewrite lang_cat_smart. split.
    + intros (y & z & -> & Hy%IHr & Hz)%lang_inv. by apply (lang_star_cons _ (c :: y)).
    + intros Hl. remember (Star r) as t eqn:Et. remember (c :: x) as w eqn:Ew. revert x Ew.
      induction Hl; intros w' Ew; simplify_eq.
      destruct x as [|d x]; simplify_eq/=; [by apply IHHl2|].
      apply lang_cat; [by apply IHr|done].
  - rewrite IHr. split; [auto with lang|]. by intros ?%lang_inv.
Qed.

Lemma matches_lang r x : matches r x = true ↔ lang r x.
Proof.
  revert r. induction x as [|c x IH]; intros r; cbn [matches]; [apply nullable_lang|].
  by rewrite IH, deriv_lang.
Qed.

(** ** Searching *)

Lemma longest_spec r s i best :
  match longest r s i best with
  | Some n => (∃ k, n = (i + k)%nat ∧ lang r (take k s)) ∨ best = Some n
  | None => best = None
  end ∧ (∀ k, lang r (take k s) → is_Some (longest r s i best)) ∧
  (is_Some best → is_Some (longest r s i best)).
Proof.
  revert r i best. induction s as [|c s IH]; intros r i best; cbn [longest].
  - split_and!.
    + destruct (nullable r) eqn:E; [|by destruct best; auto].
      left. exists O. apply nullable_lang in E. split; [lia|done].
    + intros k Hk. rewrite take_nil in Hk. apply nullable_lang in Hk. rewrite Hk. eauto.
    + destruct (nullable r); eauto.
  - assert (Hgo :
      match longest (deriv c r) s (S i) (if nullable r then Some i else best) with
      | Some n => (∃ k, n = (i + k)%nat ∧ lang r (take k (c :: s))) ∨ best = Some n
      | None => best = None
      end ∧ (∀ k, lang r (take k (c :: s)) → is_Some (longest (deriv c r) s (S i) (if nullable r then Some i else best))) ∧
      (is_Some best → is_Some (longest (deriv c r) s (S i) (if nullable r then Some i else best)))).
    { destruct (IH (deriv c r) (S i) (if nullable r then Some i else best)) as (H1 & H2 & H3).
      split_and!.
      - destruct (longest _ s _ _) as [n|].
        + destruct H1 as [(k & -> & Hk%deriv_lang)|H1].
          * left. exists (S k). split; [lia|done].
          * destruct (nullable r) eqn:E; [|by right]. simplify_eq. left. exists O. split; [lia|].
            by apply nullable_lang.
        + by destruct (nullable r).
      - intros [|k] Hk.
        + apply H3. apply nullable_lang in Hk. rewrite Hk. eauto.
        + apply (H2 k). by apply deriv_lang.
      - intros Hb. apply H3. destruct (nullable r); eauto. }
    destruct r; [|exact Hgo..].
    cbn [nullable]. split_and!; [by destruct best; auto| |done].
    intros k Hk%lang_inv. done.
Qed.

Lemma search_Some r s i j n :
  search r s i = Some (j, n) →
  (i <= j)%nat ∧ lang r (take n (drop (j - i) s)) ∧
  ∀ k l, (k < j - i)%nat → ¬ lang r (take l (drop k s)).
Proof.
  revert i. induction s as [|c s IH]; intros i; cbn [search];
    destruct (longest_spec r [] 0 None) as (_ & _ & _).
  - destruct (longest r [] 0 None) as [m|] eqn:E; [|done]. intros [= <- <-].
    destruct (longest_spec r [] 0 None) as (H1 & _ & _). rewrite E in H1.
    destruct H1 as [(k & -> & Hk)|]; [|done]. rewrite Nat.sub_diag. split_and!; [done|done|lia].
  - destruct (longest r (c :: s) 0 None) as [m|] eqn:E.
    + intros [= <- <-]. destruct (longest_spec r (c :: s) 0 None) as (H1 & _ & _). rewrite E in H1.
      destruct H1 as [(k & -> & Hk)|]; [|done]. rewrite Nat.sub_diag. split_and!; [done|done|lia].
    + intros (Hle & Hm & Hleft)%IH. destruct (j - i)%nat as [|d] eqn:Ed; [lia|].
      split_and!; [lia| |].
      * cbn [drop]. by replace d with (j - S i)%nat by lia.
      * intros [|k] l Hk Hl.
        -- destruct (longest_spec r (c :: s) 0 None) as (_ & H2 & _).
           rewrite E in H2. destruct (H2 l Hl). done.
        -- apply (Hleft k l); [lia|done].
Qed.

Lemma search_complete r s i k l : lang r (take l (drop k s)) → is_Some (search r s i).
Proof.
  revert i k. induction s as [|c s IH]; intros i k Hl; cbn [search].
  - destruct (longest_spec r [] 0 None) as (_ & H2 & _). rewrite drop_nil in Hl.
    destruct (H2 l Hl) as [n ->]. eauto.
  - destruct (longest r (c :: s) 0 None) eqn:E; [eauto|]. destruct k as [|k].
    + destruct (longest_spec r (c :: s) 0 None) as (_ & H2 & _). rewrite E in H2. by destruct (H2 l Hl).
    + by apply (IH _ k).
Qed.

(** ** Groups *)

Lemma last_such_Some P n k : last_such P n = Some k → (k <= n)%nat ∧ P k = true.
Proof.
  induction n as [|n IH]; cbn [last_such].
  - destruct (P O) eqn:E; [|done]. intros [= <-]. auto.
  - destruct (P (S n)) eqn:E; [intros [= <-]; auto|]. intros [??]%IH. auto with lia.
Qed.
Lemma last_such_complete P n k : (k <= n)%nat → P k = true → is_Some (last_such P n).
Proof.
  induction n as [|n IH]; cbn [last_such]; intros Hk HP.
  - replace k with O in HP by lia. rewrite HP. eauto.
  - destruct (P (S n)) eqn:E; [eauto|]. apply IH; [|done].
    destruct (decide (k = S n)); [congruence|lia].
Qed.

Lemma lang_cats_app b1 b2 x : lang (cats (b1 ++ b2)) x ↔ ∃ y z, x = y ++ z ∧ lang (cats b1) y ∧ lang (cats b2) z.
Proof.
  revert x. induction b1 as [|r b1 IH]; intros x; cbn [app cats foldr].
  - split; [intros; exists [], x; auto with lang|]. by intros (y & z & -> & ->%lang_inv & ?).
  - split.
    + intros (y & z & -> & Hy & (u & v & -> & Hu & Hv)%IH)%lang_inv.
      exists (y ++ u), v. rewrite <- app_assoc. split; [done|]. split; [by apply lang_cat|done].
    + intros (y & z & -> & (u & v & -> & Hu & Hv)%lang_inv & Hz). rewrite <- app_assoc.
      apply lang_cat; [done|]. apply IH. eauto.
Qed.

Lemma split_group_spec b pre g post : split_group b = Some (pre, g, post) → b = pre ++ Group g :: post.
Proof.
  revert pre. induction b as [|r b IH]; intros pre; cbn [split_group]; [done|].
  assert (Hrec : (('(pre, g, post) ← split_group b; Some (r :: pre, g, post)) = Some (pre, g, post)) →
                 r :: b = pre ++ Group g :: post).
  { intros Hs. apply bind_Some in Hs as ([[pre' g'] post'] & Hs & Heq). simplify_eq.
    by rewrite (IH pre') at 1. }
  destruct r; try done. by intros [= <- <- <-].
Qed.

Lemma group_span_Some b s i j :
  group_span b s = Some (i, j) →
  ∃ pre g post, split_group b = Some (pre, g, post) ∧ (i <= j <= length s)%nat ∧
    lang (cats pre) (take i s) ∧ lang g (take (j - i) (drop i s)) ∧ lang (cats post) (drop j s).
Proof.
  unfold group_span. intros ([[pre g] post] & Hb & Hs)%bind_Some.
  apply bind_Some in Hs as (i' & Hi & (k & Hk & Heq)%bind_Some). simplify_eq.
  apply last_such_Some in Hi as [Hle [Hpre _]%andb_true_iff].
  apply last_such_Some in Hk as [Hkle [Hg Hpost]%andb_true_iff].
  rewrite length_drop in Hkle. rewrite drop_drop in Hpost.
  exists pre, g, post. rewrite matches_lang in *. replace (i + k - i)%nat with k by lia. split_and!; [done|lia..|done|done|].
  done.
Qed.

Lemma group_span_complete b s pre g post :
  split_group b = Some (pre, g, post) → lang (cats b) s → is_Some (group_span b s).
Proof.
  intros Hb Hl. rewrite (split_group_spec _ _ _ _ Hb) in Hl.
  apply lang_cats_app in Hl as (x & w & -> & Hx & (y & z & -> & Hy%lang_inv & Hz)%lang_inv).
  assert (Hend : ∀ v, lang g (take (length y) v) → lang (cats post) (drop (length y) v) → (length y <= length v)%nat →
                 is_Some (group_end g post v)).
  { intros v Hg Hp Hv. apply (last_such_complete _ _ (length y)); [done|].
    apply andb_true_iff. by rewrite !matches_lang. }
  unfold group_span. rewrite Hb. cbn [mbind option_bind].
  destruct (last_such_complete (λ k, matches (cats pre) (take k (x ++ y ++ z)) &&
    bool_decide (is_Some (group_end g post (drop k (x ++ y ++ z))))) (length (x ++ y ++ z)) (length x)) as [i Hi].
  - rewrite length_app. lia.
  - rewrite take_app_length, drop_app_length. apply andb_true_iff. rewrite matches_lang, bool_decide_eq_true.
    split; [done|]. apply Hend; rewrite ?take_app_length, ?drop_app_length; [done|done|]. rewrite length_app. lia.
  - rewrite Hi. cbn [mbind option_bind].
    apply last_such_Some in Hi as [_ [_ [k Hk]%bool_decide_eq_true]%andb_true_iff].
    rewrite Hk. cbn [mbind option_bind]. eauto.
Qed.

(** ** Words of a class of characters *)

Lemma lang_repeat P m n x :
  (m <= n)%nat →
  lang (repeat (Chars P) m n) x ↔ Forall (λ c, P c = true) x ∧ (m <= length x <= n)%nat.
Proof.
  revert m x. induction n as [|n IH]; intros m x Hmn.
  - replace m with O by lia. cbn [repeat]. split.
    + intros ->%lang_inv. split; [done|]. cbn [length]. lia.
    + intros [_ Hx]. destruct x; [auto with lang|cbn [length] in Hx; lia].
  - assert (Hcat : ∀ m', (m' <= n)%nat → lang (Cat (Chars P) (repeat (Chars P) m' n)) x ↔
               Forall (λ c, P c = true) x ∧ (S m' <= length x <= S n)%nat).
    { intros m' Hm'. split.
      - intros (y & z & -> & (c & -> & Hc)%lang_inv & [Hz Hlen]%IH)%lang_inv; [|lia].
        split; [by constructor|]. cbn [app length]. lia.
      - intros [Hx Hlen]. destruct x as [|c x]; cbn [length] in Hlen; [lia|].
        apply Forall_cons in Hx as [Hc Hx]. apply (lang_cat _ _ [c]); [auto with lang|]. apply IH; [lia|].
        split; [done|lia]. }
    destruct m as [|m]; cbn [repeat]; [|apply Hcat; lia]. split.
    + intros [->%lang_inv|Hl%Hcat]%lang_inv; [split; [done|cbn [length]; lia]| |lia].
      split; [tauto|lia].
    + intros [Hx Hlen]. destruct x as [|c x]; [auto with lang|].
      apply lang_alt_r, Hcat; [lia|]. split; [done|]. cbn [length] in *. lia.
Qed.

Lemma lang_star_chars P x : lang (Star (Chars P)) x ↔ Forall (λ c, P c = true) x.
Proof.
  split.
  - intros Hl. remember (Star (Chars P)) as r eqn:Er. induction Hl; simplify_eq; [done|].
    apply lang_inv in Hl1 as (c & -> & Hc). constructor; auto.
  - induction 1 as [|c x Hc Hx IH]; [auto with lang|]. apply (lang_star_cons _ [c]); auto with lang.
Qed.

Lemma lang_cats_lits l x : lang (cats (lit <$> l)) x ↔ x = l.
Proof.
  revert x. induction l as [|c l IH]; intros x; csimpl.
  - split; [apply lang_inv|]. intros ->. constructor.
  - split.
    + intros (y & z & -> & (d & -> & Hd%Z.eqb_eq)%lang_inv & Hz)%lang_inv. subst. f_equal. by apply IH.
    + intros ->. apply (lang_cat _ _ [c] l); [|by apply IH]. constructor. apply Z.eqb_refl.
Qed.

(** ** regexec, for an expression without alternatives at the top *)

(** The characters of a subject are no marks. *)
Abbreviation plain x := (Forall (λ c, 0 <= c) x).

Lemma whole_single b x : lang (whole [b]) x ↔ lang (cats b) x.
Proof.
  cbn [whole foldr]. split; [|auto with lang]. by intros [?|[]%lang_inv]%lang_inv.
Qed.

Lemma take_before_mark q s t rest :
  drop q (s ++ [EOS]) = t ++ rest → plain t → take (length t) (drop q s) = t.
Proof.
  intros Heq Ht. destruct (decide (q <= length s)%nat) as [Hq|Hq].
  - rewrite drop_app_le in Heq by done.
    apply app_eq_inv in Heq as [(k & Hs & _)|(k & Ht' & Hk)].
    + rewrite Hs. apply take_app_length.
    + destruct k as [|e k]; [rewrite app_nil_r in Ht'; subst; apply firstn_all|].
      cbn [app] in Hk. simplify_eq. apply Forall_app in Ht as [_ Ht]. apply Forall_cons in Ht as [Ht _].
      unfold EOS in Ht. lia.
  - rewrite drop_ge in Heq by (rewrite length_app; cbn [length]; lia).
    symmetry in Heq. apply app_eq_nil in Heq as [-> _]. done.
Qed.

(** A match: where it is, and that there is none further to the left. *)
Definition first_match (b : list re) (s u m v : bytes) : Prop :=
  marked s = u ++ m ++ v ∧ lang (cats b) m ∧
  ∀ k l, (k < length u)%nat → ¬ lang (cats b) (take l (drop k (marked s))).

Lemma regexec_Some b s r : regexec [b] s = Some r → ∃ u m v, first_match b s u m v.
Proof.
  unfold regexec. intros ([i n] & Hs & _)%bind_Some.
  apply search_Some in Hs as (_ & Hm & Hleft). rewrite Nat.sub_0_r in Hm, Hleft.
  exists (take i (marked s)), (take n (drop i (marked s))), (drop n (drop i (marked s))).
  split; [|split].
  - by rewrite !take_drop.
  - by apply whole_single.
  - intros k l Hk Hl. apply (Hleft k l); [|by apply whole_single].
    rewrite length_take in Hk. lia.
Qed.

Lemma group_text_Some b s pre g post t :
  split_group b = Some (pre, g, post) → (∀ x, lang g x → plain x) →
  group_text [b] s = Some t →
  ∃ u x y v, first_match b s u (x ++ t ++ y) v ∧ lang (cats pre) x ∧ lang g t ∧ lang (cats post) y.
Proof.
  intros Hb Hg. unfold group_text, regexec.
  destruct (search (whole [b]) (marked s) 0) as [[i n]|] eqn:Hs; cbn [mbind option_bind]; [|done].
  pose proof Hs as (_ & Hm & Hleft)%search_Some. rewrite Nat.sub_0_r in Hm, Hleft.
  apply whole_single in Hm. set (m := take n (drop i (marked s))) in *.
  cbn [omap list_omap]. pose proof Hm as Hm'%matches_lang. rewrite Hm'.
  destruct (group_span b m) as [[i' j']|] eqn:Hsp; cbn [fmap option_fmap option_map head fst snd]; [|done].
  intros [= Ht]. apply group_span_Some in Hsp as (pre' & g' & post' & Hb' & [Hij Hj] & Hx & Ht0 & Hy).
  rewrite Hb in Hb'. injection Hb' as <- <- <-.
  set (t0 := take (j' - i') (drop i' m)) in *.
  assert (Hdec : m = take i' m ++ t0 ++ drop j' m).
  { unfold t0. rewrite <- (take_drop i' m) at 1. f_equal. rewrite <- (take_drop (j' - i') (drop i' m)) at 1.
    f_equal. rewrite drop_drop. f_equal. lia. }
  assert (Hlen : length t0 = (j' - i')%nat) by (unfold t0; rewrite length_take, length_drop; lia).
  assert (Hmk : marked s = take i (marked s) ++ m ++ drop n (drop i (marked s))) by (unfold m; by rewrite !take_drop).
  assert (Hpos : drop (i + i') (marked s) = t0 ++ drop j' m ++ drop n (drop i (marked s))).
  { rewrite <- drop_drop. rewrite <- (take_drop n (drop i (marked s))) at 1. fold m. rewrite Hdec at 1.
    rewrite <- !app_assoc, drop_app_le by (rewrite length_take; lia).
    by rewrite drop_ge by (rewrite length_take; lia). }
  assert (t = t0) as ->.
  { pose proof (Hg t0 Ht0) as Hpl. destruct (i + i')%nat as [|q] eqn:Ep.
    - replace i with O in * by lia. replace i' with O in * by lia.
      rewrite drop_0 in Hpos. unfold marked in Hpos. destruct t0 as [|c t1].
      + cbn [length] in Hlen. assert (j' = O) as -> by lia. by rewrite <- Ht.
      + cbn [app] in Hpos. simplify_eq. apply Forall_cons in Hpl as [Hc _]. unfold BOS in Hc. lia.
    - unfold marked in Hpos. cbn [drop] in Hpos. rewrite <- Ht.
      replace (i + j' - 1 - (S q - 1))%nat with (length t0) by lia.
      replace (S q - 1)%nat with q by lia. by eapply take_before_mark. }
  exists (take i (marked s)), (take i' m), (drop j' m), (drop n (drop i (marked s))).
  rewrite <- Hdec. split_and!; [|done..]. split; [done|split; [done|]].
  intros k l Hk Hl. apply (Hleft k l); [|by apply whole_single]. rewrite length_take in Hk. lia.
Qed.

Lemma group_text_complete b s pre g post k l :
  split_group b = Some (pre, g, post) → lang (cats b) (take l (drop k (marked s))) → is_Some (group_text [b] s).
Proof.
  intros Hb Hl. unfold group_text, regexec. apply whole_single in Hl.
  destruct (search_complete (whole [b]) (marked s) 0 k l Hl) as [[i n] Hs].
  rewrite Hs. cbn [mbind option_bind]. apply search_Some in Hs as (_ & Hm & _). rewrite Nat.sub_0_r in Hm.
  apply whole_single in Hm. cbn [omap list_omap]. pose proof Hm as Hm'%matches_lang. rewrite Hm'.
  destruct (group_span_complete b _ _ _ _ Hb Hm) as [[i' j'] ->].
  cbn [fmap option_fmap option_map head]. eauto.
Qed.

(** ** The characters of the words *)

Fixpoint alphabet (r : re) (c : Z) : bool :=
  match r with
  | Void | Eps => false
  | Chars P => P c
  | Cat r s | Alt r s => alphabet r c || alphabet s c
  | Star r | Group r => alphabet r c
  end.

Lemma lang_alphabet r x : lang r x → Forall (λ c, alphabet r c = true) x.
Proof.
  assert (Himp : ∀ (P R : Z → bool) y, (∀ c, P c = true → R c = true) → Forall (λ c, P c = true) y → Forall (λ c, R c = true) y).
  { intros P R y HPR Hy. eapply Forall_impl; [exact Hy|]. auto. }
  induction 1; cbn [alphabet]; rewrite ?Forall_app, ?Forall_cons; auto.
  - split; [eapply Himp; [|exact IHlang1]|eapply Himp; [|exact IHlang2]]; intros c ->; auto using orb_true_r.
  - eapply Himp; [|exact IHlang]. by intros c ->.
  - eapply Himp; [|exact IHlang]. intros c ->. apply orb_true_r.
Qed.

(** A match is a part of the subject between its marks. *)
Lemma marked_last s u v : plain s → marked s = u ++ EOS :: v → v = [].
Proof.
  intros Hs Heq. destruct v as [|e v _] using rev_ind; [done|]. exfalso.
  unfold marked in Heq. destruct u as [|b u]; cbn [app] in Heq; [done|]. injection Heq as _ Heq'.
  rewrite app_comm_cons, app_assoc in Heq'. apply app_inj_tail in Heq' as [-> _].
  rewrite Forall_app, Forall_cons in Hs. destruct Hs as (_ & He & _). unfold EOS in He. lia.
Qed.

(** A match with both anchors is the whole subject. *)
Lemma marked_whole s u x v : plain s → marked s = u ++ (BOS :: x ++ [EOS]) ++ v → x = s.
Proof.
  intros Hs Heq. assert (v = []) as ->.
  { apply (marked_last s (u ++ BOS :: x)); [done|]. rewrite Heq, <- !app_assoc. cbn [app]. by rewrite <- app_assoc. }
  rewrite app_nil_r in Heq. unfold marked in Heq. destruct u as [|b u]; cbn [app] in Heq.
  - injection Heq as Heq. by apply app_inj_tail in Heq as [<- _].
  - injection Heq as _ Heq. rewrite (app_comm_cons x), app_assoc in Heq. apply app_inj_tail in Heq as [-> _].
    apply Forall_app in Hs as [_ Hs]. apply Forall_cons in Hs as [Hb _]. unfold BOS in Hb. lia.
Qed.

Definition anchored (mid : list re) : list re := [lit BOS] ++ mid ++ [lit EOS].

Lemma lang_anchored mid x : lang (cats (anchored mid)) x ↔ ∃ y, x = BOS :: y ++ [EOS] ∧ lang (cats mid) y.
Proof.
  assert (H1 : ∀ c z, lang (cats [lit c]) z ↔ z = [c]) by (intros c; apply (lang_cats_lits [c])).
  unfold anchored. split.
  - intros (y & z & -> & ->%H1 & (y' & z' & -> & Hn & ->%H1)%lang_cats_app)%lang_cats_app. eauto.
  - intros (y & -> & Hn). apply lang_cats_app. exists [BOS], (y ++ [EOS]). split; [done|].
    split; [by apply H1|]. apply lang_cats_app. exists y, [EOS]. split_and!; [done..|by apply H1].
Qed.

Lemma regmatch_anchored mid s : plain s → regmatch [anchored mid] s = true ↔ lang (cats mid) s.
Proof.
  intros Hpl. unfold regmatch. rewrite bool_decide_eq_true. split.
  - intros [r (u & m & v & Hm & (y & -> & Hn)%lang_anchored & _)%regexec_Some]. by apply marked_whole in Hm as <-.
  - intros Hv. assert (Hl : lang (whole [anchored mid]) (take (length (marked s)) (drop 0 (marked s)))).
    { rewrite drop_0, firstn_all. apply whole_single, lang_anchored. by exists s. }
    destruct (search_complete _ _ 0 _ _ Hl) as [[i n] Hs]. unfold regexec. rewrite Hs. cbn [mbind option_bind]. eauto.
Qed.

Lemma group_text_regmatch alts s t : group_text alts s = Some t → regmatch alts s = true.
Proof.
  unfold group_text, regmatch. intros Hg. apply bool_decide_eq_true. destruct (regexec alts s) as [r|]; [eauto|done].
Qed.
