(* ===== verification/Quick.v ===== *)
(** * Quick: how wg-quick for Android talks to the system

    wg-quick/android.c is "a shell script written in C": it runs external
    programs, reads their output and stops at the first failure.  A function of
    it is a computation in [Q], over the actions taken so far, the text written
    to standard output, and the program's globals; [exit] ends a computation, and
    [at_exit] is what the C library does then.  The outside world is a [host]: the
    status of every command, the output of every pipe, the files and the
    environment, each an arbitrary function of the actions before it.  Running
    out of memory is left out. *)

From Stdlib Require Import Ascii String.
From stdpp Require Import base numbers option sets list list_numbers strings.
From S2P Require Import Prelude CLib Regex.
#[local] Open Scope c_scope.

Definition EIO : Z := 5.
Definition EEXIST : Z := 17.
Definition EBADR : Z := 53.
Definition ENONET : Z := 64.
Definition ELIBACC : Z := 79.
Definition EMEDIUMTYPE : Z := 124.

(** ** C library *)

(** [strtol], of the width of [long], and [atoi]. *)
Definition strtol `{Platform} (base : Z) (s : bytes) : Z :=
  match strto_parse base s with
  | None => 0
  | Some (neg, v, _) =>
      if neg then Z.max (- 2 ^ (ulong_bits - 1)) (- v) else Z.min (2 ^ (ulong_bits - 1) - 1) v
  end.
Definition atoi `{Platform} (s : bytes) : Z := s32 (strtol 10 s).

(** [strtok] over a whole string: the tokens between delimiters, none of them
    empty; [tok] is the token being read. *)
Fixpoint strtok_from (delims : bytes) (s tok : bytes) : list bytes :=
  match s with
  | [] => if is_end tok then [] else [tok]
  | c :: s' =>
      if has_char delims c
      then if is_end tok then strtok_from delims s' [] else tok :: strtok_from delims s' []
      else strtok_from delims s' (tok ++ [c])
  end.
Definition strtok_all (delims s : bytes) : list bytes := strtok_from delims s [].

(** [snprintf(buf, size, ...)] keeps at most [size - 1] characters. *)
Definition snprintf (size : nat) (text : bytes) : bytes := take (size - 1) text.

Definition WIFEXITED (status : Z) : bool := (status .& 127) =? 0.
Definition WEXITSTATUS (status : Z) : Z := (status .& 65280) .>> 8.

(** ** Actions and the host *)

(** What is written into a parcel for the resolver service. *)
Inductive parcel_op :=
  | WriteInt32 (value : Z)
  | WriteString (s : option bytes) (len : Z)
  | WriteStringArray (elems : list (option bytes * Z)) (len : Z)
  | SetDataPosition (position : Z).

Inductive action :=
  | System (cmd : bytes)
  | Popen (cmd : bytes)
  | PopenWrite (cmd input : bytes)
  | Execvp (file : bytes) (args : list bytes)
  | Transact (code : Z) (parcel : list parcel_op).

(** The answer of a service, as [AStatus] gives it. *)
Record AStatus := {
  AStatus_isOk : bool;
  AStatus_getExceptionCode : Z;
  AStatus_getStatus : Z;
}.

(** libbinder_ndk.so; a status is 0 for success. *)
Record binder := {
  dlsym : bytes → bool;
  AServiceManager_getService : bytes → bool;
  AIBinder_Class_define : bytes → bool;
  AIBinder_associateClass : bool;
  AIBinder_prepareTransaction : list action → Z;
  AParcel_write : list parcel_op → parcel_op → Z;
  AParcel_getDataPosition : list parcel_op → Z;
  AIBinder_transact : list action → Z;
  AParcel_readStatusHeader : list action → Z + AStatus;
}.

Record host := {
  system_status : list action → bytes → Z;
  (** [popen(cmd, "r")]: an error number, or the lines [getline] gives and the
      error number it stops with, 0 at the end of the output. *)
  popen_read : list action → bytes → Z + list bytes * Z;
  (** [popen(cmd, "w")], [fputs] and [pclose]: an error number or the status. *)
  popen_write : list action → bytes → bytes → Z + Z;
  (** [execvp]: an error number, or the status of the program that runs instead. *)
  execvp_status : list bytes → Z + Z;
  (** [fopen(path, "r")] and the lines read, and [fstat]: an error number or 0. *)
  fopen_read : bytes → Z + list bytes;
  fstat_errno : bytes → Z;
  getuid : Z;
  calling_package : option bytes;
  sdk_property : option bytes;
  random : nat → Z;
  (** The bytes of memory behind the string of selected applications. *)
  heap_after : bytes;
  libbinder : option binder;
}.

(** ** Computations *)

Record qstate := {
  trace : list action;
  stdout : bytes;
  is_exiting : bool;
  atexit_cleanup : bool;
  cleanup_iface : option bytes;
}.
Definition qinit : qstate :=
  {| trace := []; stdout := []; is_exiting := false; atexit_cleanup := false; cleanup_iface := None |}.

Definition Q (A : Type) : Type := qstate → outcome A * qstate.

#[export] Instance Q_ret : MRet Q := λ A a s, (Done a, s).
#[export] Instance Q_bind : MBind Q := λ A B f m s,
  match m s with
  | (Done a, s') => f a s'
  | (Exit c, s') => (Exit c, s')
  | (Undefined, s') => (Undefined, s')
  | (NoFuel, s') => (NoFuel, s')
  end.

Definition q_exit {A} (code : Z) : Q A := λ s, (Exit code, s).
Definition q_undefined {A} : Q A := λ s, (Undefined, s).
Definition q_no_fuel {A} : Q A := λ s, (NoFuel, s).
Definition q_get : Q qstate := λ s, (Done s, s).
Definition q_put (s : qstate) : Q unit := λ _, (Done tt, s).

Definition set_trace (t : list action) (s : qstate) : qstate :=
  {| trace := t; stdout := stdout s; is_exiting := is_exiting s; atexit_cleanup := atexit_cleanup s;
     cleanup_iface := cleanup_iface s |}.
Definition act (a : action) : Q unit := λ s, (Done tt, set_trace (trace s ++ [a]) s).
Definition printf (text : bytes) : Q unit := λ s,
  (Done tt, {| trace := trace s; stdout := stdout s ++ text; is_exiting := is_exiting s;
               atexit_cleanup := atexit_cleanup s; cleanup_iface := cleanup_iface s |}).
Definition set_exiting : Q unit := λ s,
  (Done tt, {| trace := trace s; stdout := stdout s; is_exiting := true;
               atexit_cleanup := atexit_cleanup s; cleanup_iface := cleanup_iface s |}).
Definition set_cleanup_iface (i : option bytes) : Q unit := λ s,
  (Done tt, {| trace := trace s; stdout := stdout s; is_exiting := is_exiting s;
               atexit_cleanup := atexit_cleanup s; cleanup_iface := i |}).
Definition atexit_ : Q unit := λ s,
  (Done tt, {| trace := trace s; stdout := stdout s; is_exiting := is_exiting s;
               atexit_cleanup := true; cleanup_iface := cleanup_iface s |}).

(** A pointer that is used without a test for NULL. *)
Definition deref {A} (p : option A) : Q A := match p with Some a => mret a | None => q_undefined end.

(** A program ends in [exit], of the value [main] returns if it does; the handler
    registered with [atexit] runs then, and an [exit] in the handler replaces the
    code, as in Android's C library. *)
Definition at_exit (handler : Q unit) (main : Q Z) : Q Z := λ s,
  let finish (code : Z) (s' : qstate) : outcome Z * qstate :=
    if atexit_cleanup s'
    then match handler s' with (Done _, s'') => (Exit code, s'') | (Exit c, s'') => (Exit c, s'')
                             | (Undefined, s'') => (Undefined, s'') | (NoFuel, s'') => (NoFuel, s'') end
    else (Exit code, s') in
  match main s with
  | (Done code, s') => finish code s'
  | (Exit code, s') => finish code s'
  | r => r
  end.

Section Commands.
Context `{plat : Platform} (H : host).

Definition xregcomp (pattern : bytes) : Q (list (list re)) :=
  match regcomp pattern with Some r => mret r | None => q_exit EBADR end.

(** [concat(first, ..., NULL)] *)
Definition concat (parts : list bytes) : bytes := mjoin parts.
Definition concat_and_free (orig : option bytes) (delim new_line : bytes) : bytes :=
  match orig with None => new_line | Some o => concat [o; delim; new_line] end.

(** [struct command_buffer]: the lines its stream still holds and the error number
    it ends with. *)
Definition command_buffer : Type := option (list bytes * Z).
Definition DEFINE_CMD : command_buffer := None.

(** [getline] on the stream; a line is used as a string. *)
Definition next_line (stream : list bytes * Z) : Q (option bytes * command_buffer) :=
  match stream with
  | (line :: rest, e) => mret (Some (cstr line), Some (rest, e))
  | ([], e) => if truthy e then q_exit e else mret (None, Some ([], e))
  end.

(** With a command the buffer's stream is a new one. *)
Definition vcmd_ret (c : command_buffer) (cmd_fmt : option bytes) : Q (option bytes * command_buffer) :=
  match cmd_fmt, c with
  | None, None => mret (None, c)
  | None, Some stream => next_line stream
  | Some cmd, _ =>
      s ← q_get;
      act (Popen cmd);;
      match popen_read H (trace s) cmd with
      | inl e => q_exit e
      | inr stream => next_line stream
      end
  end.
Definition cmd_ret (c : command_buffer) (cmd_fmt : option bytes) : Q (option bytes * command_buffer) :=
  vcmd_ret c cmd_fmt.

(** [for (line = cmd_ret(&c, cmd); line; line = cmd_ret(&c, NULL))]; the body says
    whether to go on.  Each round takes a line off the stream. *)
Fixpoint lines_loop {A} (fuel : nat) (body : A → bytes → Q (A * bool)) (a : A)
    (line : option bytes) (c : command_buffer) : Q A :=
  match line with
  | None => mret a
  | Some l =>
      match fuel with
      | O => q_no_fuel
      | S f =>
          '(a', go) ← body a l;
          if (go : bool) then '(line', c') ← cmd_ret c None; lines_loop f body a' line' c' else mret a'
      end
  end.
Definition lines_left (c : command_buffer) : nat := match c with Some (ls, _) => length ls | None => O end.
Definition for_lines {A} (cmd : bytes) (body : A → bytes → Q (A * bool)) (a : A) : Q A :=
  '(line, c) ← cmd_ret DEFINE_CMD (Some cmd);
  lines_loop (S (lines_left c)) body a line c.

(** [cmd(fmt, ...)], of the formatted command. *)
Definition cmd (command : bytes) : Q unit :=
  printf (str "[#] " ++ command ++ [10]);;
  s ← q_get;
  act (System command);;
  let ret := system_status H (trace s) command in
  let ret := if ret <? 0 then ESRCH
             else if 0 <? ret then (if WIFEXITED ret then WEXITSTATUS ret else EIO) else ret in
  if truthy ret && negb (is_exiting s) then q_exit ret else mret tt.

(** [cndc(fmt, ...)], of the formatted arguments. *)
Definition cndc (args : bytes) : Q unit :=
  let ndc := concat [str "ndc "; args] in
  printf (str "[#] " ++ ndc ++ [10]);;
  '(ret, _) ← vcmd_ret DEFINE_CMD (Some ndc);
  match ret with
  | None => q_exit ENOSYS
  | Some line =>
      let error_code := atoi line in
      if (400 <=? error_code) && (error_code <? 600) then q_exit ENONET else mret tt
  end.

End Commands.
