(* ===== verification/QuickBinder.v ===== *)
(** * QuickBinder: the resolver service, wg-quick/android.c lines 238 to 610

    The parcels that are written for android.net.IDnsResolver, one write at a time
    with its status, and the reading of the answer.  libbinder_ndk.so is the
    parameter [binder] of the host. *)

From Stdlib Require Import Ascii String.
From stdpp Require Import base numbers option sets list list_numbers strings.
From S2P Require Import Prelude CLib Regex Quick.
#[local] Open Scope c_scope.

Definition STATUS_OK : Z := 0.
Definition STATUS_UNKNOWN_ERROR : Z := -2147483647 - 1.
Definition STATUS_FAILED_TRANSACTION : Z := STATUS_UNKNOWN_ERROR + 2.
Definition EX_TRANSACTION_FAILED : Z := -129.
Definition FIRST_CALL_TRANSACTION : Z := 1.

Definition DNSRESOLVER_SAMPLE_VALIDITY : Z := 1800.
Definition DNSRESOLVER_SUCCESS_THRESHOLD : Z := 25.
Definition DNSRESOLVER_MIN_SAMPLES : Z := 8.
Definition DNSRESOLVER_MAX_SAMPLES : Z := 8.
Definition DNSRESOLVER_BASE_TIMEOUT : Z := 5000.
Definition DNSRESOLVER_RETRY_COUNT : Z := 2.

(** The functions of the library; [load_symbols] runs before [main], and a library
    that lacks one of them ends the program. *)
Definition symbols : list bytes :=
  [str "AIBinder_Class_define"; str "AIBinder_associateClass"; str "AIBinder_decStrong"; str "AIBinder_prepareTransaction";
   str "AIBinder_transact"; str "AIBinder_ping"; str "AIBinder_dump"; str "AParcel_readStatusHeader"; str "AParcel_readBool";
   str "AParcel_delete"; str "AParcel_setDataPosition"; str "AParcel_getDataPosition"; str "AParcel_writeInt32";
   str "AParcel_writeStringArray"; str "AParcel_writeString"; str "AStatus_isOk"; str "AStatus_delete";
   str "AStatus_getExceptionCode"; str "AStatus_getServiceSpecificError"; str "AStatus_getMessage"; str "AStatus_getStatus";
   str "AServiceManager_getService"].
Definition load_symbols (handle : option binder) : Q unit :=
  match handle with
  | None => mret tt
  | Some B => if forallb (dlsym B) symbols then mret tt else q_exit ELIBACC
  end.

(** A NULL terminated array is the list of its strings; [None] is a NULL array. *)
Definition string_size (s : option bytes) : Z := match s with Some s => Z.of_nat (length s) | None => -1 end.
Definition string_array_size (a : option (list bytes)) : Z :=
  match a with None => -1 | Some l => Z.of_nat (length l) end.
(** The element and its length; the NULL at the end has length -1. *)
Definition string_array_getter (a : list bytes) (index : nat) : option bytes * Z :=
  (a !! index, string_size (a !! index)).

Definition meaningful_binder_status (status_out : AStatus) : Z :=
  if AStatus_isOk status_out then STATUS_OK
  else if AStatus_getExceptionCode status_out =? EX_TRANSACTION_FAILED then AStatus_getStatus status_out
  else STATUS_FAILED_TRANSACTION.

Record dnsresolver_params := {
  netid : Z;
  sample_validity_seconds : Z;
  success_threshold : Z;
  min_samples : Z;
  max_samples : Z;
  base_timeout_msec : Z;
  retry_count : Z;
  servers : option (list bytes);
  domains : option (list bytes);
  tls_name : option bytes;
  tls_servers : option (list bytes);
  tls_fingerprints : option (list bytes);
}.

(** [AParcel_writeStringArray(parcel, a, string_array_size(a), &string_array_getter)]:
    the elements the library asks the getter for. *)
Definition write_strings (a : option (list bytes)) : parcel_op :=
  let len := string_array_size a in
  WriteStringArray (string_array_getter (default [] a) <$> seq 0 (Z.to_nat len)) len.

Section Service.
Context (B : binder).

(** A row of writes, each checked: the parcel, or the first bad status. *)
Fixpoint write_all (parcel : list parcel_op) (ops : list parcel_op) : Z + list parcel_op :=
  match ops with
  | [] => inr parcel
  | op :: ops' =>
      let status := AParcel_write B parcel op in
      if negb (status =? STATUS_OK) then inl status else write_all (parcel ++ [op]) ops'
  end.

Definition dnsresolver_get_handle : bool :=
  AServiceManager_getService B (str "dnsresolver") &&
  AIBinder_Class_define B (str "android.net.IDnsResolver") && AIBinder_associateClass B.

(** [AIBinder_transact] and [AParcel_readStatusHeader]: the status, or the answer. *)
Definition call (code : Z) (parcel : list parcel_op) : Q (Z + AStatus) :=
  s ← q_get;
  act (Transact code parcel);;
  let status := AIBinder_transact B (trace s ++ [Transact code parcel]) in
  if negb (status =? STATUS_OK) then mret (inl status)
  else
    match AParcel_readStatusHeader B (trace s ++ [Transact code parcel]) with
    | inl status => if negb (status =? STATUS_OK) then mret (inl status) else q_undefined
    | inr status_out => mret (inr status_out)
    end.

Definition dnsresolver_create_network_cache (netid : Z) : Q Z :=
  s ← q_get;
  let status := AIBinder_prepareTransaction B (trace s) in
  if negb (status =? STATUS_OK) then mret status
  else
    match write_all [] [WriteInt32 netid] with
    | inl status => mret status
    | inr parcel_in =>
        r ← call (FIRST_CALL_TRANSACTION + 7) parcel_in;
        match r with
        | inl status => mret status
        | inr status_out =>
            if negb (AStatus_isOk status_out) then mret (meaningful_binder_status status_out)
            else mret STATUS_OK
        end
    end.

(** The fields of the parameters, in the order they are written. *)
Definition params_ops (p : dnsresolver_params) : list parcel_op :=
  [WriteInt32 (netid p); WriteInt32 (sample_validity_seconds p); WriteInt32 (success_threshold p);
   WriteInt32 (min_samples p); WriteInt32 (max_samples p); WriteInt32 (base_timeout_msec p);
   WriteInt32 (retry_count p); write_strings (servers p); write_strings (domains p);
   WriteString (tls_name p) (string_size (tls_name p)); write_strings (tls_servers p);
   write_strings (tls_fingerprints p)].

(** The length of the parameters is written in front of them when it is known. *)
Definition params_parcel (p : dnsresolver_params) : Z + list parcel_op :=
  match write_all [] [WriteInt32 1] with
  | inl status => inl status
  | inr parcel =>
      let start_position := AParcel_getDataPosition B parcel in
      match write_all parcel (WriteInt32 0 :: params_ops p) with
      | inl status => inl status
      | inr parcel =>
          let end_position := AParcel_getDataPosition B parcel in
          write_all parcel [SetDataPosition start_position; WriteInt32 (end_position - start_position);
                            SetDataPosition end_position]
      end
  end.

Definition dnsresolver_set_resolver_configuration (p : dnsresolver_params) : Q Z :=
  s ← q_get;
  let status := AIBinder_prepareTransaction B (trace s) in
  if negb (status =? STATUS_OK) then mret status
  else
    match params_parcel p with
    | inl status => mret status
    | inr parcel_in =>
        r ← call (FIRST_CALL_TRANSACTION + 2) parcel_in;
        match r with
        | inl status => mret status
        | inr status_out => mret (meaningful_binder_status status_out)
        end
    end.

End Service.

(** ** Parcels as words and strings

    What a parcel holds after its writes, with one word an integer and one item a
    string: positions count items, as a service reads them back. *)
Inductive item :=
  | I32 (v : Z)
  | Str (s : option bytes)
  | Strs (l : list (option bytes)).
Definition op_item (op : parcel_op) : option item :=
  match op with
  | WriteInt32 v => Some (I32 v)
  | WriteString s _ => Some (Str s)
  | WriteStringArray l _ => Some (Strs l.*1)
  | SetDataPosition _ => None
  end.
Definition apply_op (data : list item * nat) (op : parcel_op) : list item * nat :=
  let '(items, at_) := data in
  match op, op_item op with
  | SetDataPosition p, _ => (items, Z.to_nat p)
  | _, Some i => (if (at_ <? length items)%nat then <[at_ := i]> items else items ++ [i], S at_)
  | _, None => data
  end.
Definition contents (parcel : list parcel_op) : list item * nat := foldl apply_op ([], O) parcel.

(** A library that keeps every write, for running the model. *)
Definition plain_binder (answer : AStatus) : binder := {|
  dlsym := λ _, true;
  AServiceManager_getService := λ _, true;
  AIBinder_Class_define := λ _, true;
  AIBinder_associateClass := true;
  AIBinder_prepareTransaction := λ _, STATUS_OK;
  AParcel_write := λ _ _, STATUS_OK;
  AParcel_getDataPosition := λ parcel, Z.of_nat (contents parcel).2;
  AIBinder_transact := λ _, STATUS_OK;
  AParcel_readStatusHeader := λ _, inr answer;
|}.
