(* ===== verification/Android.v ===== *)
(** * Android: wg-quick for Android, wg-quick/android.c from line 612

    Bringing an interface up and down: one definition for every function, with the
    commands it runs in the order it runs them.  A string another part may hand
    over as NULL is an [option].  Selected applications are looked for in memory
    as the code does it, so that a read behind the string is [Undefined] unless
    [heap_after] gives the bytes there. *)

From Stdlib Require Import Ascii String.
From stdpp Require Import base numbers option sets list list_numbers sorting strings.
From S2P Require Import Prelude CLib Regex Quick QuickBinder.
#[local] Open Scope c_scope.

Section Android.
Context `{plat : Platform} (H : host) (WG_PACKAGE_NAME : bytes) (patience : nat).

Definition WG_CONFIG_SEARCH_PATHS : bytes :=
  str "/data/misc/wireguard /data/data/" ++ WG_PACKAGE_NAME ++ str "/files".

(** ** Becoming root *)

Definition auto_su (argv : list bytes) : Q unit :=
  if getuid H =? 0 then mret tt
  else
    let args := str "su" :: str "-p" :: str "-c" :: argv in
    printf (str "[$] su -p -c ");;
    printf (mjoin (imap (λ i a, a ++ [if Nat.eqb i (length argv - 1) then 10 else 32]) argv));;
    act (Execvp (str "su") args);;
    match execvp_status H args with inl e => q_exit e | inr status => q_exit status end.

(** ** The interface *)

Definition add_if (iface : bytes) : Q unit :=
  cmd H (str "ip link add " ++ iface ++ str " type wireguard").

Definition rule_regex (iface : bytes) : bytes := concat [str "0xc([0-9a-f]+)/0xcffff lookup "; iface].
Definition iptables_regex (iface : bytes) : bytes :=
  concat [str "^-A (.* --comment " ++ [34] ++ str "wireguard rule "; iface; [34] ++ str "[^" ++ [10] ++ str "]*)" ++ [10] ++ str "*$"].

(** The rules of one table that name the interface are deleted one by one. *)
Definition delete_rules (reg : list (list re)) (save delete : bytes) : Q unit :=
  for_lines H save
    (λ _ rule, match regexec reg rule with
               | Some _ => cmd H (delete ++ default [] (group_text reg rule));; mret (tt, true)
               | None => mret (tt, true)
               end) tt.

(** The network of the first routing rule that names the interface. *)
Definition find_netid (reg : list (list re)) : Q (option bytes) :=
  for_lines H (str "ip rule show")
    (λ _ rule, match regexec reg rule with
               | Some _ => mret (Some (default [] (group_text reg rule)), false)
               | None => mret (None, true)
               end) None.

Definition del_if (iface : bytes) : Q unit :=
  rule_reg ← xregcomp (rule_regex iface);
  iptables_reg ← xregcomp (iptables_regex iface);
  cmd H (str "ip link del " ++ iface);;
  delete_rules iptables_reg (str "iptables-save") (str "iptables -D ");;
  delete_rules iptables_reg (str "ip6tables-save") (str "ip6tables -D ");;
  netid ← find_netid rule_reg;
  match netid with
  | Some n => cndc H (str "network destroy " ++ printf_u (strtoul 16 n).1)
  | None => mret tt
  end.

Definition should_block_ipv6 (iface : bytes) : Q bool :=
  '(has_ipv6, has_all_none) ←
    for_lines H (str "wg show " ++ iface ++ str " endpoints")
      (λ '(has_ipv6, has_all_none) endpoint,
         match strchr_split endpoint 9 with
         | None => mret (has_ipv6, has_all_none, true)
         | Some (_, start) =>
             let has_all_none := if negb (at_ start 0 =? ch "(") then false else has_all_none in
             let has_ipv6 := if at_ start 0 =? ch "[" then true else has_ipv6 in
             mret (has_ipv6, has_all_none, true)
         end) (false, true);
  mret (negb has_ipv6 && negb has_all_none).

Definition UINT16_MAX : Z := 65535.

Definition determine_listen_port (iface : bytes) : Q Z :=
  cmd H (str "ip link set up dev " ++ iface);;
  '(value, _) ← cmd_ret H DEFINE_CMD (Some (str "wg show " ++ iface ++ str " listen-port"));
  let listen_port :=
    match value with
    | None => 0
    | Some value =>
        let listen_port := (strtoul 10 value).1 in
        if (UINT16_MAX <? listen_port) || (listen_port =? 0) then 0 else listen_port
    end in
  cmd H (str "ip link set down dev " ++ iface);;
  mret (u16 listen_port).

(** [while ( *netid < 4096) *netid = random() & 0xfffe], from the [k]-th number. *)
Fixpoint pick_netid (fuel k : nat) (netid : Z) : Q Z :=
  if netid <? 4096
  then match fuel with
       | O => q_no_fuel
       | S f => pick_netid f (S k) (random H k .& 65534)
       end
  else mret netid.

Definition rule_comment (iface : bytes) : bytes := str " -m comment --comment " ++ [34] ++ str "wireguard rule " ++ iface ++ [34].

Definition up_if (sdk_version : Z) (iface : bytes) (listen_port : Z) : Q Z :=
  netid ← pick_netid patience 0 0;
  cmd H (str "wg set " ++ iface ++ str " fwmark 0x20000");;
  cmd H (str "iptables -I OUTPUT 1 -m mark --mark 0x20000 -j ACCEPT" ++ rule_comment iface);;
  cmd H (str "ip6tables -I OUTPUT 1 -m mark --mark 0x20000 -j ACCEPT" ++ rule_comment iface);;
  (if truthy listen_port
   then
     cmd H (str "iptables -I INPUT 1 -p udp --dport " ++ printf_u listen_port ++ str " -j ACCEPT" ++ rule_comment iface);;
     block ← should_block_ipv6 iface;
     cmd H (str "ip6tables -I INPUT 1 -p udp --dport " ++ printf_u listen_port ++ str " -j " ++
            (if (block : bool) then str "DROP" else str "ACCEPT") ++ rule_comment iface)
   else mret tt);;
  cmd H (str "ip link set up dev " ++ iface);;
  cndc H (str "network create " ++ printf_u netid ++ (if sdk_version <? 31 then str " vpn 1 1" else str " vpn 1"));;
  cndc H (str "network interface add " ++ printf_u netid ++ str " " ++ iface);;
  mret netid.

(** ** Users *)

(** [uid_t] is unsigned; the difference is returned as an [int]. *)
Definition compare_uid (a b : Z) : Z := s32 (a - b).
Definition uid_le (a b : Z) : Prop := compare_uid a b <= 0.
#[export] Instance uid_le_dec a b : Decision (uid_le a b).
Proof. unfold uid_le. apply _. Defined.
Definition qsort_uids (l : list Z) : list Z := merge_sort uid_le l.

(** The offset of the first comma or NUL of the memory from a pointer on; [None]
    when there is none before the end of what may be read. *)
Definition comma_or_nul (m : bytes) : option nat := index_of (λ c, (c =? ch ",") || (c =? 0)) m.

(** [for (i = 1, comma = s; comma; comma = strchr(comma + 1, ','), ++i);] from a
    pointer that is not NULL. *)
Fixpoint count_selected (fuel i : nat) (m : bytes) : outcome nat :=
  match fuel with
  | O => NoFuel
  | S f =>
      match comma_or_nul (drop 1 m) with
      | None => Undefined
      | Some k =>
          let comma := drop k (drop 1 m) in
          if at_ comma 0 =? 0 then Done (S i) else count_selected f (S i) comma
      end
  end.

(** The loop over the names of the selection, for one package; [cap] elements were
    allocated for the users. *)
Fixpoint match_tokens (fuel cap : nat) (m package_name : bytes) (package_uid : Z) (uids : list Z) : outcome (list Z) :=
  match fuel with
  | O => NoFuel
  | S f =>
      match comma_or_nul m with
      | None => Undefined
      | Some k =>
          if at_ m 0 =? 0 then Done uids
          else
            let next := drop (S k) m in
            if negb (Nat.eqb k 0) && Nat.eqb (length package_name) k && strcmp_eq (take k m) package_name
            then if (length uids <? cap)%nat then match_tokens f cap next package_name package_uid (uids ++ [package_uid])
                 else Undefined
            else match_tokens f cap next package_name package_uid uids
      end
  end.

(** The name and the user of a line of packages.list. *)
Definition package_line (line : bytes) : option (bytes * Z) :=
  match strchr_split line 32 with
  | None => None
  | Some (package_name, rest) =>
      let package_uid_str := match strchr_split rest 32 with Some (u, _) => u | None => rest end in
      let '(v, endptr) := strtoul 10 package_uid_str in
      let package_uid := u32 v in
      if (package_uid =? 0) || is_end package_uid_str || negb (is_end endptr) then None
      else Some (package_name, package_uid)
  end.

Fixpoint match_packages (cap : nat) (m : bytes) (lines : list bytes) (uids : list Z) : outcome (list Z) :=
  match lines with
  | [] => Done uids
  | line :: lines' =>
      match package_line (cstr line) with
      | None => match_packages cap m lines' uids
      | Some (name, uid) =>
          match match_tokens (S (length m)) cap m name uid uids with
          | Done uids' => match_packages cap m lines' uids'
          | r => r
          end
      end
  end.

Definition lift {A} (x : outcome A) : Q A := λ s, (x, s).

(** The array: the users in order, then zeros. *)
Definition get_uid_list (selected_applications : option bytes) : Q (list Z) :=
  match selected_applications with
  | None => mret [0]
  | Some sel =>
      let m := sel ++ [0] ++ heap_after H in
      cap ← lift (count_selected (length m) 1 m);
      match fopen_read H (str "/data/system/packages.list") with
      | inl e => q_exit e
      | inr lines =>
          uids ← lift (match_packages cap m lines []);
          mret (qsort_uids uids ++ replicate (cap - length uids) 0)
      end
  end.

(** One more range; every 18 are a command. *)
Definition add_range (netid : Z) (st : option bytes * Z) (text : bytes) : Q (option bytes * Z) :=
  let range := snprintf 22 text in
  let ranges := concat_and_free st.1 (str " ") range in
  let args_per_command := u32 (st.2 + 1) in
  if args_per_command mod 18 =? 0
  then cndc H (str "network users add " ++ printf_u netid ++ str " " ++ ranges);; mret (None, args_per_command)
  else mret (Some ranges, args_per_command).

Fixpoint excluded_loop (netid : Z) (uids : list Z) (start : Z) (st : option bytes * Z) : Q (Z * (option bytes * Z)) :=
  match uids with
  | [] => q_undefined
  | uid :: uids' =>
      if uid =? 0 then mret (start, st)
      else
        st' ← (if u32 (uid - 1) <? start then mret st
               else if start =? u32 (uid - 1) then add_range netid st (printf_u start)
               else add_range netid st (printf_u start ++ str "-" ++ printf_u (u32 (uid - 1))));
        excluded_loop netid uids' (u32 (uid + 1)) st'
  end.

Fixpoint included_loop (netid : Z) (uids : list Z) (st : option bytes * Z) : Q (option bytes * Z) :=
  match uids with
  | [] => q_undefined
  | uid :: uids' =>
      if uid =? 0 then mret st
      else st' ← add_range netid st (printf_u uid); included_loop netid uids' st'
  end.

Definition set_users (netid : Z) (excluded_applications included_applications : option bytes) : Q unit :=
  ranges ← match excluded_applications, included_applications with
           | Some _, Some _ => q_exit EEXIST
           | None, Some _ =>
               uids ← get_uid_list included_applications;
               st ← included_loop netid uids (None, 0);
               mret st.1
           | _, None =>
               uids ← get_uid_list excluded_applications;
               '(start, st) ← excluded_loop netid uids 0 (None, 0);
               mret (if start <? 99999
                     then Some (concat_and_free st.1 (str " ") (snprintf 22 (printf_u start ++ str "-99999")))
                     else st.1)
           end;
  match ranges with
  | Some r => cndc H (str "network users add " ++ printf_u netid ++ str " " ++ r)
  | None => mret tt
  end.

(** ** Name servers *)

Definition DELIMS : bytes := [ch ","; 32; 9; 10].
Definition regex_ipnothost : list (list re) := ere (str "(^[0-9.]+$)|(^.*:.*$)").

(** A name with a quote or a backslash is left out. *)
Definition unquotable (s : bytes) : bool := has_char s 39 || has_char s 92.
Definition is_ip (dns : bytes) : bool := regmatch regex_ipnothost dns.

(** [strncat] onto a string in a buffer of [size] bytes. *)
Definition strncat (size : nat) (dst src : bytes) (n : nat) : outcome bytes :=
  let r := dst ++ take n src in
  if (length r <? size)%nat then Done r else Undefined.

(** The argument lists for the shell and for the log, and the arrays of names. *)
Record dns_args := {
  shell_arglist : bytes;
  function_arglist : bytes;
  name_list : list bytes;
}.
Definition no_args : dns_args := {| shell_arglist := []; function_arglist := []; name_list := [] |}.

(** A name appended to its lists; the array has room for [count] names. *)
Definition add_dns (len count : nat) (a : dns_args) (dns : bytes) : outcome dns_args :=
  match strncat (len * 4 + 1) (shell_arglist a) (snprintf (len + 3) ([39] ++ dns ++ [39; 32])) (len * 4 - 1) with
  | Done shell =>
      let arg := snprintf (len + 2) (if is_end (function_arglist a) then dns else str ", " ++ dns) in
      match strncat (len * 4 + 1) (function_arglist a) arg (len * 4 - 1) with
      | Done func =>
          if (length (name_list a) <? count)%nat
          then Done {| shell_arglist := shell; function_arglist := func; name_list := name_list a ++ [dns] |}
          else Undefined
      | _ => Undefined
      end
  | _ => Undefined
  end.

(** The second pass over the names: addresses and search domains. *)
Fixpoint collect_dns (len dns_count search_count : nat) (tokens : list bytes) (dns search : dns_args) : outcome (dns_args * dns_args) :=
  match tokens with
  | [] => Done (dns, search)
  | t :: tokens' =>
      if unquotable t then collect_dns len dns_count search_count tokens' dns search
      else if is_ip t
      then match add_dns len dns_count dns t with
           | Done dns' => collect_dns len dns_count search_count tokens' dns' search
           | _ => Undefined
           end
      else match add_dns len search_count search t with
           | Done search' => collect_dns len dns_count search_count tokens' dns search'
           | _ => Undefined
           end
  end.

Definition setnetdns_args (netid : Z) (search dns : bytes) : bytes :=
  str "resolver setnetdns " ++ printf_u netid ++ str " '" ++ search ++ str "' " ++ dns.

Definition resolver_log (netid : Z) (dns search : bytes) : bytes :=
  str "[#] <binder>::dnsResolver->setResolverConfiguration(" ++ printf_u netid ++ str ", [" ++ dns ++ str "], [" ++
  search ++ str "], " ++ printf_d DNSRESOLVER_SAMPLE_VALIDITY ++ str ", " ++ printf_d DNSRESOLVER_SUCCESS_THRESHOLD ++
  str ", " ++ printf_d DNSRESOLVER_MIN_SAMPLES ++ str ", " ++ printf_d DNSRESOLVER_MAX_SAMPLES ++ str ", " ++
  printf_d DNSRESOLVER_BASE_TIMEOUT ++ str ", " ++ printf_d DNSRESOLVER_RETRY_COUNT ++ str ", [], [])" ++ [10].

Definition dns_params (n : Z) (dns search : list bytes) : dnsresolver_params := {|
  netid := s32 n;
  sample_validity_seconds := DNSRESOLVER_SAMPLE_VALIDITY;
  success_threshold := DNSRESOLVER_SUCCESS_THRESHOLD;
  min_samples := DNSRESOLVER_MIN_SAMPLES;
  max_samples := DNSRESOLVER_MAX_SAMPLES;
  base_timeout_msec := DNSRESOLVER_BASE_TIMEOUT;
  retry_count := DNSRESOLVER_RETRY_COUNT;
  servers := Some dns;
  domains := Some search;
  tls_name := Some [];
  tls_servers := Some [];
  tls_fingerprints := Some [];
|}.

(** The names go to the resolver service where there is one, else to ndc. *)
Definition apply_dns (netid : Z) (dns search : dns_args) : Q unit :=
  match libbinder H with
  | Some B =>
      if dnsresolver_get_handle B
      then
        printf (str "[#] <binder>::dnsResolver->createNetworkCache(" ++ printf_u netid ++ str ")" ++ [10]);;
        status ← dnsresolver_create_network_cache B (s32 netid);
        if negb (status =? 0) then q_exit ENONET
        else
          printf (resolver_log netid (function_arglist dns) (function_arglist search));;
          status ← dnsresolver_set_resolver_configuration B (dns_params netid (name_list dns) (name_list search));
          if negb (status =? 0) then q_exit ENONET else mret tt
      else cndc H (setnetdns_args netid (shell_arglist search) (shell_arglist dns))
  | None => cndc H (setnetdns_args netid (shell_arglist search) (shell_arglist dns))
  end.

Definition set_dnses (netid : Z) (dnses : option bytes) : Q unit :=
  dnses ← deref dnses;
  let len := length dnses in
  if 65536 <? Z.of_nat len then mret tt
  else if Nat.eqb len 0 then mret tt
  else
    let tokens := strtok_all DELIMS dnses in
    let usable := filter (λ t, unquotable t = false) tokens in
    let dns_list_size := length (filter (λ t, is_ip t = true) usable) in
    let dns_search_list_size := length (filter (λ t, is_ip t = false) usable) in
    if Nat.eqb dns_list_size 0 then mret tt
    else
      '(dns, search) ← lift (collect_dns len dns_list_size dns_search_list_size tokens no_args no_args);
      apply_dns netid dns search.

(** ** Addresses, MTU and routes *)

Definition add_addr (iface addr : bytes) : Q unit :=
  if has_char addr (ch ":")
  then
    cndc H (str "interface ipv6 " ++ iface ++ str " enable");;
    cmd H (str "ip -6 addr add '" ++ addr ++ str "' dev " ++ iface)
  else
    let '(mut_addr, mask) :=
      match strchr_split addr (ch "/") with
      | Some (a, m) => (a, u8 (atoi m))
      | None => (addr, 32)
      end in
    cndc H (str "interface setcfg " ++ iface ++ str " '" ++ mut_addr ++ str "' " ++ printf_u mask).

Fixpoint add_addrs (iface : bytes) (addrs : list bytes) : Q unit :=
  match addrs with
  | [] => mret tt
  | addr :: addrs' =>
      if unquotable addr then add_addrs iface addrs'
      else add_addr iface addr;; add_addrs iface addrs'
  end.
Definition set_addr (iface : bytes) (addrs : option bytes) : Q unit :=
  addrs ← deref addrs;
  add_addrs iface (strtok_all DELIMS addrs).

Definition regex_mtu : list (list re) := ere (str "mtu ([0-9]+)").
Definition regex_dev : list (list re) := ere (str "dev ([^ ]+)").

Definition get_route_mtu (endpoint : bytes) : Q Z :=
  '(route, _) ←
    (if negb (strcmp_eq endpoint (str "default"))
     then cmd_ret H DEFINE_CMD (Some (str "ip -o route get " ++ endpoint))
     else cmd_ret H DEFINE_CMD (Some (str "ip -o route show " ++ endpoint)));
  match route with
  | None => mret (-1)
  | Some route =>
      match group_text regex_mtu route with
      | Some mtu => mret (atoi mtu)
      | None =>
          match group_text regex_dev route with
          | Some dev =>
              '(route, _) ← cmd_ret H DEFINE_CMD (Some (str "ip -o link show dev " ++ dev));
              match route with
              | None => mret (-1)
              | Some route =>
                  match group_text regex_mtu route with
                  | Some mtu => mret (atoi mtu)
                  | None => mret (-1)
                  end
              end
          | None => mret (-1)
          end
      end
  end.

Definition regex_endpoint : list (list re) := ere (str "^\[?([a-z0-9:.]+)\]?:[0-9]+$").

Definition set_mtu (iface : bytes) (mtu : Z) : Q unit :=
  if truthy mtu then cndc H (str "interface setmtu " ++ iface ++ str " " ++ printf_u mtu)
  else
    default_mtu ← get_route_mtu (str "default");
    let endpoint_mtu := if default_mtu =? -1 then 1500 else default_mtu in
    endpoint_mtu ←
      for_lines H (str "wg show " ++ iface ++ str " endpoints")
        (λ endpoint_mtu endpoint,
           match group_text regex_endpoint endpoint with
           | None => mret (endpoint_mtu, true)
           | Some endpoint =>
               next_mtu ← get_route_mtu endpoint;
               mret (if (0 <? next_mtu) && (next_mtu <? endpoint_mtu) then next_mtu else endpoint_mtu, true)
           end) endpoint_mtu;
    cndc H (str "interface setmtu " ++ iface ++ str " " ++ printf_d (endpoint_mtu - 80)).

Definition add_route (iface : bytes) (netid : Z) (route : bytes) : Q unit :=
  cndc H (str "network route add " ++ printf_u netid ++ str " " ++ iface ++ str " " ++ route).

Fixpoint add_routes (iface : bytes) (netid : Z) (routes : list bytes) : Q unit :=
  match routes with
  | [] => mret tt
  | r :: routes' =>
      if strcmp_eq r (str "(none)") then add_routes iface netid routes'
      else add_route iface netid r;; add_routes iface netid routes'
  end.
Definition set_routes (iface : bytes) (netid : Z) : Q unit :=
  for_lines H (str "wg show " ++ iface ++ str " allowed-ips")
    (λ _ allowedips,
       match strchr_split allowedips 9 with
       | None => mret (tt, true)
       | Some (_, start) => add_routes iface netid (strtok_all [32; 10] start);; mret (tt, true)
       end) tt.

(** ** The configuration and the application *)

Definition set_config (iface : bytes) (config : option bytes) : Q unit :=
  let cmd := concat [str "wg setconf "; iface; str " /proc/self/fd/0"] in
  printf (str "[#] " ++ cmd ++ [10]);;
  config ← deref config;
  s ← q_get;
  act (PopenWrite cmd config);;
  match popen_write H (trace s) cmd config with
  | inl e => q_exit e
  | inr ret => if truthy ret then q_exit (if WIFEXITED ret then WEXITSTATUS ret else EIO) else mret tt
  end.

Definition broadcast_change : Q unit :=
  if match calling_package H with Some pkg => strcmp_eq pkg WG_PACKAGE_NAME | None => false end
  then mret tt
  else cmd H (str "am broadcast -a com.wireguard.android.action.REFRESH_TUNNEL_STATES " ++ WG_PACKAGE_NAME).

Definition print_search_paths (prefix : bytes) : Q unit :=
  printf (mjoin ((λ path, prefix ++ path ++ [10]) <$> strtok_all [32] WG_CONFIG_SEARCH_PATHS)).

Definition usage_head : list bytes :=
  [str " [ up | down ] [ CONFIG_FILE | INTERFACE ]"; [];
   str "  CONFIG_FILE is a configuration file, whose filename is the interface name";
   str "  followed by `.conf'. Otherwise, INTERFACE is an interface name, with";
   str "  configuration found at:"; []].
Definition usage_tail : list bytes :=
  [[]; str "  It is to be readable by wg(8)'s `setconf' sub-command, with the exception";
   str "  of the following additions to the [Interface] section, which are handled by";
   str "  this program:"; [];
   str "  - Address: may be specified one or more times and contains one or more";
   str "    IP addresses (with an optional CIDR mask) to be set for the interface.";
   str "  - MTU: an optional MTU for the interface; if unspecified, auto-calculated.";
   str "  - DNS: an optional DNS server to use while the device is up.";
   str "  - ExcludedApplications: optional blacklist of applications to exclude from the tunnel."; [];
   str "  - IncludedApplications: optional whitelist of applications to include in the tunnel."; [];
   str "  See wg-quick(8) for more info and examples."].
Definition unlines (l : list bytes) : bytes := mjoin ((λ t, t ++ [10]) <$> l).
Definition cmd_usage (program : bytes) : Q unit :=
  printf (str "Usage: " ++ program ++ unlines usage_head);;
  print_search_paths (str "  - ");;
  printf (unlines usage_tail).

(** ** Up and down *)

Definition cmd_up_cleanup : Q unit :=
  set_exiting;;
  s ← q_get;
  match cleanup_iface s with Some iface => del_if iface | None => mret tt end.

Record options := {
  o_iface : option bytes;
  o_config : option bytes;
  o_mtu : Z;
  o_addrs : option bytes;
  o_dnses : option bytes;
  o_excluded : option bytes;
  o_included : option bytes;
}.

Definition cmd_up_steps (sdk_version : Z) (iface : bytes) (o : options) : Q unit :=
  add_if iface;;
  set_config iface (o_config o);;
  listen_port ← determine_listen_port iface;
  netid ← up_if sdk_version iface listen_port;
  set_addr iface (o_addrs o);;
  set_dnses netid (o_dnses o);;
  set_routes iface netid;;
  set_mtu iface (o_mtu o);;
  set_users netid (o_excluded o) (o_included o);;
  broadcast_change.

Definition cmd_up (sdk_version : Z) (o : options) : Q Z :=
  iface ← deref (o_iface o);
  '(shown, _) ← cmd_ret H DEFINE_CMD (Some (str "ip link show dev " ++ iface ++ str " 2>/dev/null"));
  match shown with
  | Some _ => q_exit EEXIST
  | None =>
      set_cleanup_iface (Some iface);;
      atexit_;;
      cmd_up_steps sdk_version iface o;;
      set_cleanup_iface None;;
      q_exit 0
  end.

Definition cmd_down (o : options) : Q Z :=
  iface ← deref (o_iface o);
  '(ifaces, _) ← cmd_ret H DEFINE_CMD (Some (str "wg show interfaces"));
  let found := match ifaces with
               | Some l => existsb (strcmp_eq iface) (strtok_all [32; 10] l)
               | None => false
               end in
  if negb found then q_exit EMEDIUMTYPE
  else del_if iface;; broadcast_change;; q_exit 0.

(** ** The configuration file *)

Definition regex_iface : list (list re) := ere (str "^[a-zA-Z0-9_=+.-]{1,15}$").
Definition regex_conf : list (list re) := ere (str "/?([a-zA-Z0-9_=+.-]{1,15})\.conf$").

(** The first search path with the file; the error is the one of the last. *)
Fixpoint open_config (paths : list bytes) (arg : bytes) (e : Z) : Z + bytes * list bytes :=
  match paths with
  | [] => inl e
  | path :: paths' =>
      let filename := path ++ str "/" ++ arg ++ str ".conf" in
      match fopen_read H filename with
      | inl e' => open_config paths' arg e'
      | inr lines => inr (filename, lines)
      end
  end.

(** The line without its white space. *)
Definition clean (line : bytes) : bytes := filter (λ c, isspace c = false) line.

Definition starts_with (key line : bytes) (longer : nat) : bool :=
  strncasecmp_eq line key (length key) && (longer <? length line)%nat.

(** One line; a line of the Interface section that sets something for this
    program is kept from the configuration of the interface. *)
Definition option_line (line : bytes) (in_interface_section : bool) (o : options) : options * bool :=
  let c := clean line in
  let s := if at_ c 0 =? ch "[" then false else in_interface_section in
  let s := if strcasecmp_eq c (str "[Interface]") then true else s in
  let keep := {| o_iface := o_iface o; o_config := Some (concat_and_free (o_config o) [] line); o_mtu := o_mtu o;
                 o_addrs := o_addrs o; o_dnses := o_dnses o; o_excluded := o_excluded o; o_included := o_included o |} in
  (if s then
     if starts_with (str "Address=") c 8 then
       {| o_iface := o_iface o; o_config := o_config o; o_mtu := o_mtu o;
          o_addrs := Some (concat_and_free (o_addrs o) (str ",") (drop 8 c)); o_dnses := o_dnses o;
          o_excluded := o_excluded o; o_included := o_included o |}
     else if starts_with (str "DNS=") c 4 then
       {| o_iface := o_iface o; o_config := o_config o; o_mtu := o_mtu o;
          o_addrs := o_addrs o; o_dnses := Some (concat_and_free (o_dnses o) (str ",") (drop 4 c));
          o_excluded := o_excluded o; o_included := o_included o |}
     else if starts_with (str "ExcludedApplications=") c 4 then
       {| o_iface := o_iface o; o_config := o_config o; o_mtu := o_mtu o;
          o_addrs := o_addrs o; o_dnses := o_dnses o;
          o_excluded := Some (concat_and_free (o_excluded o) (str ",") (drop 21 c)); o_included := o_included o |}
     else if starts_with (str "IncludedApplications=") c 4 then
       {| o_iface := o_iface o; o_config := o_config o; o_mtu := o_mtu o;
          o_addrs := o_addrs o; o_dnses := o_dnses o;
          o_excluded := o_excluded o; o_included := Some (concat_and_free (o_included o) (str ",") (drop 21 c)) |}
     else if starts_with (str "MTU=") c 4 then
       {| o_iface := o_iface o; o_config := o_config o; o_mtu := u32 (atoi (drop 4 c));
          o_addrs := o_addrs o; o_dnses := o_dnses o; o_excluded := o_excluded o; o_included := o_included o |}
     else keep
   else keep, s).

Definition or_empty (p : option bytes) : option bytes := Some (default [] p).

(** All lines; a line of more than 65536 bytes ends the reading at once, with the
    strings that are not there yet left NULL. *)
Fixpoint option_lines (lines : list bytes) (in_interface_section : bool) (o : options) : options :=
  match lines with
  | [] => {| o_iface := or_empty (o_iface o); o_config := or_empty (o_config o); o_mtu := o_mtu o;
             o_addrs := or_empty (o_addrs o); o_dnses := or_empty (o_dnses o);
             o_excluded := o_excluded o; o_included := o_included o |}
  | line :: lines' =>
      let line := cstr line in
      if 65536 <? Z.of_nat (length line) then o
      else let '(o', s) := option_line line in_interface_section o in option_lines lines' s o'
  end.

Definition parse_options (arg : bytes) : Q options :=
  '(filename, lines) ←
    (if regmatch regex_iface arg
     then match open_config (strtok_all [32] WG_CONFIG_SEARCH_PATHS) arg 0 with
          | inl e => q_exit e
          | inr r => mret r
          end
     else match fopen_read H arg with
          | inl e => q_exit e
          | inr lines => mret (arg, lines)
          end);
  match group_text regex_conf filename with
  | None => q_exit EINVAL
  | Some iface =>
      if truthy (fstat_errno H filename) then q_exit (fstat_errno H filename)
      else mret (option_lines lines false
                   {| o_iface := Some iface; o_config := None; o_mtu := 0; o_addrs := None; o_dnses := None;
                      o_excluded := None; o_included := None |})
  end.

(** ** main *)

Definition main (argv : list bytes) : Q Z :=
  let sdk_version := match sdk_property H with Some prop => u32 (atoi prop) | None => 0 end in
  match argv with
  | [program; a1] =>
      if strcmp_eq a1 (str "help") || strcmp_eq a1 (str "--help") || strcmp_eq a1 (str "-h")
      then cmd_usage program;; mret 0
      else cmd_usage program;; mret 1
  | [program; a1; a2] =>
      if strcmp_eq a1 (str "up") then auto_su argv;; o ← parse_options a2; cmd_up sdk_version o
      else if strcmp_eq a1 (str "down") then auto_su argv;; o ← parse_options a2; cmd_down o
      else cmd_usage program;; mret 1
  | program :: _ => cmd_usage program;; mret 1
  | [] => q_undefined
  end.

(** The whole program: the constructor, [main], then the handler. *)
Definition wg_quick (argv : list bytes) : outcome Z * qstate :=
  at_exit cmd_up_cleanup (load_symbols (libbinder H);; main argv) qinit.

End Android.
