(* ===== verification/AndroidSpec.v ===== *)
(** * AndroidSpec: interface names, failure and the MTU in wg-quick for Android

    Every function only adds to the actions taken and leaves the globals alone
    ([keeps]); on that rests what happens when a step of bringing an interface up
    fails.  A name that comes out of the configuration's file name is always an
    interface name, but the name is also used as a regular expression. *)

From Stdlib Require Import Ascii String.
From stdpp Require Import base numbers option sets list list_numbers strings.
From S2P Require Import Prelude CLib Regex RegexSpec Quick QuickBinder Android.
#[local] Open Scope c_scope.

(** ** Computations *)

Lemma Q_bind_eq {A B} (m : Q A) (f : A → Q B) s :
  (m ≫= f) s = match m s with
               | (Done a, s') => f a s'
               | (Exit c, s') => (Exit c, s')
               | (Undefined, s') => (Undefined, s')
               | (NoFuel, s') => (NoFuel, s')
               end.
Proof. reflexivity. Qed.

Lemma Q_bind_ext {A B} (m : Q A) (f g : A → Q B) s :
  (∀ a s', f a s' = g a s') → (m ≫= f) s = (m ≫= g) s.
Proof. intros Hfg. rewrite !Q_bind_eq. by destruct (m s) as [[| | |] s']. Qed.

Lemma Q_bind_assoc {A B C} (m : Q A) (f : A → Q B) (g : B → Q C) s :
  ((m ≫= f) ≫= g) s = (m ≫= (λ a, f a ≫= g)) s.
Proof. rewrite !Q_bind_eq. by destruct (m s) as [[| | |] s']. Qed.

(** ** Strings that grow *)

(** Values separated by a delimiter; no value is no string. *)
Definition joined (delim : bytes) (vs : list bytes) : option bytes :=
  match vs with [] => None | v :: vs => Some (v ++ mjoin ((λ w, delim ++ w) <$> vs)) end.

Lemma joined_snoc delim vs v : joined delim (vs ++ [v]) = Some (concat_and_free (joined delim vs) delim v).
Proof.
  destruct vs as [|w vs]; cbn [joined app concat_and_free].
  - csimpl. by rewrite app_nil_r.
  - rewrite fmap_app, join_app. unfold concat. csimpl. by rewrite !app_nil_r, <- !app_assoc.
Qed.

(** ** What no step changes *)

Definition globals (s : qstate) : bool * bool * option bytes := (is_exiting s, atexit_cleanup s, cleanup_iface s).
Definition keeps {A} (m : Q A) : Prop :=
  ∀ s, globals (m s).2 = globals s ∧ trace s `prefix_of` trace (m s).2.

Lemma keeps_ret {A} (a : A) : keeps (mret a : Q A).
Proof. by intros s. Qed.
Lemma keeps_exit {A} c : keeps (q_exit c : Q A).
Proof. by intros s. Qed.
Lemma keeps_undefined {A} : keeps (q_undefined : Q A).
Proof. by intros s. Qed.
Lemma keeps_no_fuel {A} : keeps (q_no_fuel : Q A).
Proof. by intros s. Qed.
Lemma keeps_get : keeps q_get.
Proof. by intros s. Qed.
Lemma keeps_lift {A} (x : outcome A) : keeps (lift x).
Proof. by intros s. Qed.
Lemma keeps_act a : keeps (act a).
Proof. intros s. split; [done|]. by eexists. Qed.
Lemma keeps_printf t : keeps (printf t).
Proof. by intros s. Qed.
Lemma keeps_bind {A B} (m : Q A) (f : A → Q B) : keeps m → (∀ a, keeps (f a)) → keeps (m ≫= f).
Proof.
  intros Hm Hf s. rewrite Q_bind_eq. specialize (Hm s). destruct (m s) as [[a|c| |] s']; [|done..].
  cbn [snd] in Hm. destruct (Hf a s') as [Hg Hp], Hm as [Hg' Hp']. split; [congruence|by etrans].
Qed.

Create HintDb keeps.
#[export] Hint Resolve keeps_ret keeps_exit keeps_undefined keeps_no_fuel keeps_get keeps_lift keeps_act keeps_printf : keeps.

(** Go through the binds and the tests of a computation. *)
Ltac keeps :=
  repeat first
    [ progress cbv beta zeta
    | progress auto with keeps
    | apply keeps_bind; [|intros ?]
    | match goal with
      | |- keeps (match ?x with _ => _ end) => destruct x
      | |- keeps (match ?x with _ => _ end _) => destruct x
      end ].

Section Spec.
Context `{plat : Platform} (H : host) (WG_PACKAGE_NAME : bytes) (patience : nat).

Lemma keeps_deref {A} (p : option A) : keeps (deref p).
Proof. destruct p; apply keeps_ret || apply keeps_undefined. Qed.
Lemma keeps_next_line st : keeps (next_line st).
Proof. unfold next_line. keeps. Qed.
#[local] Hint Resolve keeps_deref keeps_next_line : keeps.
Lemma keeps_cmd_ret c f : keeps (cmd_ret H c f).
Proof. unfold cmd_ret, vcmd_ret. keeps. Qed.
Lemma keeps_cmd c : keeps (cmd H c).
Proof. unfold cmd. cbv zeta. keeps. Qed.
#[local] Hint Resolve keeps_cmd_ret keeps_cmd : keeps.
Lemma keeps_cndc c : keeps (cndc H c).
Proof. unfold cndc. cbv zeta. change (vcmd_ret H) with (cmd_ret H). keeps. Qed.
#[local] Hint Resolve keeps_cndc : keeps.

Lemma keeps_lines_loop {A} fuel (body : A → bytes → Q (A * bool)) a line c :
  (∀ a l, keeps (body a l)) → keeps (lines_loop H fuel body a line c).
Proof.
  intros Hb. revert a line c. induction fuel as [|f IH]; intros a line c; cbn [lines_loop]; keeps.
Qed.
Lemma keeps_for_lines {A} cmd (body : A → bytes → Q (A * bool)) a :
  (∀ a l, keeps (body a l)) → keeps (for_lines H cmd body a).
Proof. intros Hb. unfold for_lines. keeps. by apply keeps_lines_loop. Qed.

Lemma keeps_delete_rules r a b : keeps (delete_rules H r a b).
Proof. unfold delete_rules. apply keeps_for_lines. intros. keeps. Qed.
Lemma keeps_find_netid r : keeps (find_netid H r).
Proof. unfold find_netid. apply keeps_for_lines. intros. keeps. Qed.
#[local] Hint Resolve keeps_delete_rules keeps_find_netid : keeps.

Lemma keeps_should_block_ipv6 i : keeps (should_block_ipv6 H i).
Proof.
  unfold should_block_ipv6. apply keeps_bind; [|intros; keeps].
  apply keeps_for_lines. intros. keeps.
Qed.
Lemma keeps_pick_netid f k n : keeps (pick_netid H f k n).
Proof. revert k n. induction f as [|f IH]; intros k n; cbn [pick_netid]; keeps. Qed.
#[local] Hint Resolve keeps_should_block_ipv6 keeps_pick_netid : keeps.
Lemma keeps_up_if sdk i p : keeps (up_if H patience sdk i p).
Proof. unfold up_if. keeps. Qed.
Lemma keeps_determine_listen_port i : keeps (determine_listen_port H i).
Proof. unfold determine_listen_port. cbv zeta. keeps. Qed.
Lemma keeps_set_config i c : keeps (set_config H i c).
Proof. unfold set_config. cbv zeta. keeps. Qed.

Lemma keeps_add_range n st t : keeps (add_range H n st t).
Proof. unfold add_range. cbv zeta. keeps. Qed.
#[local] Hint Resolve keeps_add_range : keeps.
Lemma keeps_excluded_loop n l b st : keeps (excluded_loop H n l b st).
Proof. revert b st. induction l as [|u l IH]; intros b st; cbn [excluded_loop]; keeps. Qed.
Lemma keeps_included_loop n l st : keeps (included_loop H n l st).
Proof. revert st. induction l as [|u l IH]; intros st; cbn [included_loop]; keeps. Qed.
Lemma keeps_get_uid_list a : keeps (get_uid_list H a).
Proof. unfold get_uid_list. cbv zeta. keeps. Qed.
#[local] Hint Resolve keeps_excluded_loop keeps_included_loop keeps_get_uid_list : keeps.
Lemma keeps_set_users n e i : keeps (set_users H n e i).
Proof. unfold set_users. keeps. Qed.

Lemma keeps_call B code p : keeps (call B code p).
Proof. unfold call. cbv zeta. keeps. Qed.
#[local] Hint Resolve keeps_call : keeps.
Lemma keeps_create_network_cache B n : keeps (dnsresolver_create_network_cache B n).
Proof. unfold dnsresolver_create_network_cache. cbv zeta. keeps. Qed.
Lemma keeps_set_resolver_configuration B p : keeps (dnsresolver_set_resolver_configuration B p).
Proof. unfold dnsresolver_set_resolver_configuration. cbv zeta. keeps. Qed.
#[local] Hint Resolve keeps_create_network_cache keeps_set_resolver_configuration : keeps.
Lemma keeps_apply_dns n d e : keeps (apply_dns H n d e).
Proof. unfold apply_dns. keeps. Qed.
#[local] Hint Resolve keeps_apply_dns : keeps.
Lemma keeps_set_dnses n d : keeps (set_dnses H n d).
Proof. unfold set_dnses. cbv zeta. keeps. Qed.

Lemma keeps_add_addrs i l : keeps (add_addrs H i l).
Proof. induction l as [|a l IH]; cbn [add_addrs]; unfold add_addr; keeps. Qed.
#[local] Hint Resolve keeps_add_addrs : keeps.
Lemma keeps_set_addr i a : keeps (set_addr H i a).
Proof. unfold set_addr. keeps. Qed.
Lemma keeps_get_route_mtu e : keeps (get_route_mtu H e).
Proof. unfold get_route_mtu. keeps. Qed.
#[local] Hint Resolve keeps_get_route_mtu : keeps.
Lemma keeps_set_mtu i m : keeps (set_mtu H i m).
Proof. unfold set_mtu. cbv zeta. keeps. apply keeps_lines_loop. intros. keeps. Qed.
Lemma keeps_add_routes i n l : keeps (add_routes H i n l).
Proof. induction l as [|a l IH]; cbn [add_routes]; unfold add_route; keeps. Qed.
#[local] Hint Resolve keeps_add_routes : keeps.
Lemma keeps_set_routes i n : keeps (set_routes H i n).
Proof. unfold set_routes. apply keeps_for_lines. intros. keeps. Qed.

#[local] Hint Resolve keeps_up_if keeps_determine_listen_port keeps_set_config keeps_set_users keeps_set_dnses
  keeps_set_addr keeps_set_mtu keeps_set_routes : keeps.

Lemma keeps_cmd_up_steps sdk i o : keeps (cmd_up_steps H WG_PACKAGE_NAME patience sdk i o).
Proof. unfold cmd_up_steps, add_if, broadcast_change. keeps. Qed.

(** ** Reading the lines of a command

    [for_lines] is the fold of its body over the lines of the output; the fuel of
    the loop is enough for all of them. *)
Fixpoint each_line {A} (body : A → bytes → Q (A * bool)) (a : A) (ls : list bytes) (e : Z) : Q A :=
  match ls with
  | [] => if truthy e then q_exit e else mret a
  | l :: ls' =>
      '(a', go) ← body a (cstr l);
      if (go : bool) then each_line body a' ls' e else mret a'
  end.

Lemma lines_loop_each {A} fuel (body : A → bytes → Q (A * bool)) a ls e s :
  (length ls <= fuel)%nat →
  ('(line, c) ← next_line (ls, e); lines_loop H fuel body a line c) s = each_line body a ls e s.
Proof.
  revert a ls s. induction fuel as [|f IH]; intros a [|l ls] s Hf; cbn [length] in Hf; [|lia| |].
  - cbn [next_line each_line]. destruct (truthy e); [done|]. cbn. done.
  - cbn [next_line each_line]. destruct (truthy e); [done|]. done.
  - cbn [next_line each_line]. rewrite (Q_bind_eq (mret _)).
    cbn [lines_loop mret Q_ret]. apply Q_bind_ext. intros [a' go] s'.
    destruct go; [|done]. rewrite <- IH by lia. done.
Qed.

Lemma cmd_ret_run c cmd s :
  cmd_ret H c (Some cmd) s =
  match popen_read H (trace s) cmd with inl e => q_exit e | inr st => next_line st end (set_trace (trace s ++ [Popen cmd]) s).
Proof. reflexivity. Qed.

Lemma for_lines_each {A} cmd (body : A → bytes → Q (A * bool)) a s :
  for_lines H cmd body a s =
  match popen_read H (trace s) cmd with
  | inl e => q_exit e
  | inr (ls, e) => each_line body a ls e
  end (set_trace (trace s ++ [Popen cmd]) s).
Proof.
  unfold for_lines. rewrite Q_bind_eq, cmd_ret_run.
  destruct (popen_read H (trace s) cmd) as [e|[ls e]]; [done|].
  destruct ls as [|l ls].
  - cbn [next_line each_line]. destruct (truthy e); [done|]. done.
  - rewrite <- (lines_loop_each (S (length ls)) body a (l :: ls) e) by done. done.
Qed.

(** ** Computations that end *)

Definition ends {A} (m : Q A) : Prop :=
  ∀ s, match (m s).1 with Done _ | Exit _ => True | Undefined | NoFuel => False end.

Lemma ends_bind {A B} (m : Q A) (f : A → Q B) : ends m → (∀ a, ends (f a)) → ends (m ≫= f).
Proof.
  intros Hm Hf s. rewrite Q_bind_eq. specialize (Hm s). destruct (m s) as [[a|c| |] s']; [|done..]. apply Hf.
Qed.
Lemma ends_each_line {A} (body : A → bytes → Q (A * bool)) a ls e :
  (∀ a l, ends (body a l)) → ends (each_line body a ls e).
Proof.
  intros Hb. revert a. induction ls as [|l ls IH]; intros a; cbn [each_line].
  - by destruct (truthy e).
  - apply ends_bind; [done|]. intros [a' []]; [done|]. by intros s.
Qed.
Lemma ends_for_lines {A} cmd (body : A → bytes → Q (A * bool)) a :
  (∀ a l, ends (body a l)) → ends (for_lines H cmd body a).
Proof.
  intros Hb s. rewrite for_lines_each. destruct (popen_read H (trace s) cmd) as [e|[ls e]]; [done|].
  by apply ends_each_line.
Qed.
Lemma ends_cmd c : ends (cmd H c).
Proof.
  unfold cmd. do 3 (apply ends_bind; [by intros s|]; intros ?). cbv zeta. by destruct (_ && _).
Qed.
Lemma ends_cndc c : ends (cndc H c).
Proof.
  unfold cndc. cbv zeta. apply ends_bind; [by intros s|]. intros _. change (vcmd_ret H) with (cmd_ret H).
  apply ends_bind.
  - intros s. rewrite cmd_ret_run. destruct (popen_read H _ _) as [e|[[|l ls] e]]; [done| |done].
    cbn [next_line]. by destruct (truthy e).
  - intros [[l|] c']; [by destruct (_ && _)|by intros s].
Qed.
Lemma ends_del_if i : ends (del_if H i).
Proof.
  assert (Hreg : ∀ p, ends (xregcomp p)) by (intros p; unfold xregcomp; by destruct (regcomp p)).
  unfold del_if. do 2 (apply ends_bind; [done|]; intros ?).
  assert (Hdel : ∀ r a b, ends (delete_rules H r a b)).
  { intros r x y. apply ends_for_lines. intros _ rule. destruct (regexec r rule); [|by intros s].
    apply ends_bind; [apply ends_cmd|]. by intros _ s. }
  apply ends_bind; [apply ends_cmd|]. intros _. apply ends_bind; [done|]. intros _. apply ends_bind; [done|]. intros _.
  apply ends_bind; [|intros [n|]; [apply ends_cndc|by intros s]].
  apply ends_for_lines. intros _ rule. destruct (regexec _ rule); by intros s.
Qed.

(** ** The network's number

    The loop that draws it ends at the first number that is large enough, if the
    patience reaches that far; the result is even and of 16 bits. *)
Lemma land_fffe x : 0 <= x .& 65534 <= 65534 ∧ Z.even (x .& 65534) = true.
Proof.
  assert (Heq : x .& 65534 = 2 * ((x .>> 1) .& 32767)).
  { change 65534 with (32767 .<< 1).
    replace (2 * ((x .>> 1) .& 32767)) with (((x .>> 1) .& 32767) .<< 1) by (rewrite Z.shiftl_mul_pow2 by lia; lia).
    apply Z.bits_inj'. intros n Hn. destruct (Z.eq_dec n 0) as [->|].
    - rewrite Z.land_spec, Z.shiftl_spec_low, andb_false_r by lia. symmetry. by rewrite Z.shiftl_spec_low by lia.
    - rewrite Z.land_spec, !Z.shiftl_spec, Z.land_spec, Z.shiftr_spec by lia. by replace (n - 1 + 1) with n by lia. }
  pose proof (Z.land_ones (x .>> 1) 15 ltac:(lia)) as Hl. change (Z.ones 15) with 32767 in Hl.
  pose proof (Z.mod_pos_bound (x .>> 1) (2 ^ 15) ltac:(lia)). rewrite Heq, Hl. pow_norm. split; [lia|].
  by rewrite Z.even_mul.
Qed.

Lemma pick_netid_ends fuel k netid j s :
  netid < 4096 → (j < fuel)%nat → 4096 <= random H (k + j) .& 65534 →
  ∃ n, pick_netid H fuel k netid s = (Done n, s) ∧ 4096 <= n <= 65534 ∧ Z.even n = true.
Proof.
  revert k netid j. induction fuel as [|f IH]; intros k netid j Hn Hj Hr; [lia|]. cbn [pick_netid].
  rewrite (proj2 (Z.ltb_lt _ _)) by done. destruct (Z.lt_ge_cases (random H k .& 65534) 4096) as [Hlt|Hge].
  - destruct j as [|j]; [rewrite Nat.add_0_r in Hr; lia|]. apply (IH (S k) _ j); [done|lia|].
    by replace (S k + j)%nat with (k + S j)%nat by lia.
  - destruct (land_fffe (random H k)) as [Hb He]. exists (random H k .& 65534). split; [|by auto with lia].
    destruct f; cbn [pick_netid]; by rewrite (proj2 (Z.ltb_ge _ _)) by done.
Qed.

(** ** A step that fails takes the interface down again *)

(** The state in which the steps of [cmd_up] run. *)
Definition registered (iface : bytes) (s : qstate) : qstate :=
  {| trace := trace s; stdout := stdout s; is_exiting := is_exiting s; atexit_cleanup := true;
     cleanup_iface := Some iface |}.

Lemma cmd_exiting c s :
  is_exiting s = true →
  cmd H c s = (Done tt, {| trace := trace s ++ [System c]; stdout := stdout s ++ str "[#] " ++ c ++ [10];
                           is_exiting := true; atexit_cleanup := atexit_cleanup s; cleanup_iface := cleanup_iface s |}).
Proof.
  intros He. unfold cmd. rewrite !Q_bind_eq. cbn [printf act q_get].
  rewrite !Q_bind_eq. cbn [q_get is_exiting]. rewrite Q_bind_eq. cbn [act]. rewrite He, andb_false_r. done.
Qed.

Lemma del_if_first iface s :
  is_exiting s = true → is_Some (regcomp (rule_regex iface)) → is_Some (regcomp (iptables_regex iface)) →
  ∃ later, trace (del_if H iface s).2 = trace s ++ System (str "ip link del " ++ iface) :: later.
Proof.
  intros He [r Hr] [i Hi].
  set (rest := delete_rules H i (str "iptables-save") (str "iptables -D ");;
      delete_rules H i (str "ip6tables-save") (str "ip6tables -D ");; n ← find_netid H r;
      match n with Some n => cndc H (str "network destroy " ++ printf_u (strtoul 16 n).1) | None => mret tt end).
  assert (Hrest : keeps rest) by (unfold rest; keeps).
  assert (del_if H iface s = (cmd H (str "ip link del " ++ iface);; rest) s) as ->.
  { unfold del_if, xregcomp. by rewrite Hr, Hi. }
  rewrite Q_bind_eq, cmd_exiting by done.
  edestruct Hrest as [_ [later Hl]]. exists later. rewrite Hl. cbn [trace]. by rewrite <- app_assoc.
Qed.

(** *** The whole cleanup *)

(** What the lines that match give to the command for them: the text of the group. *)
Definition rule_texts (reg : list (list re)) (ls : list bytes) : list bytes :=
  omap (λ l, match regexec reg (cstr l) with Some _ => Some (default [] (group_text reg (cstr l))) | None => None end) ls.

Lemma set_trace_app s t u : set_trace u (set_trace t s) = set_trace u s.
Proof. done. Qed.

(** While the program exits, every rule that matches is deleted, whatever the commands before it have answered. *)
Lemma delete_rules_exiting reg save delete s ls :
  is_exiting s = true → popen_read H (trace s) save = inr (ls, 0) →
  ∃ s', delete_rules H reg save delete s = (Done tt, s') ∧ globals s' = globals s ∧
    trace s' = trace s ++ Popen save :: ((λ t, System (delete ++ t)) <$> rule_texts reg ls).
Proof.
  intros He Hread. unfold delete_rules. rewrite for_lines_each, Hread. set (body := λ (_ : unit) (rule : bytes), _).
  assert (Heach : ∀ ls s, is_exiting s = true → ∃ s', each_line body tt ls 0 s = (Done tt, s') ∧ globals s' = globals s ∧
    trace s' = trace s ++ ((λ t, System (delete ++ t)) <$> rule_texts reg ls)).
  { clear. induction ls as [|l ls IH]; intros s He; [exists s; rewrite app_nil_r; done|]. cbn [each_line]. rewrite Q_bind_eq. unfold body at 1.
    unfold rule_texts. cbn [omap list_omap]. fold (rule_texts reg ls). destruct (regexec reg (cstr l)) as [m|].
    - rewrite Q_bind_eq, cmd_exiting by done. cbn [mret Q_ret]. edestruct IH as (s' & -> & Hg & Ht); [|exists s'; split; [done|]; split; [by rewrite Hg; unfold globals; cbn; rewrite He|]]; [done|].
      rewrite Ht. cbn [trace]. csimpl. by rewrite <- app_assoc.
    - cbn [mret Q_ret]. apply IH. done. }
  destruct (Heach ls (set_trace (trace s ++ [Popen save]) s) He) as (s' & -> & Hg & Ht). exists s'. split; [done|]. split; [done|].
  rewrite Ht. cbn [trace set_trace]. by rewrite <- app_assoc.
Qed.

Lemma find_netid_first reg s ls :
  popen_read H (trace s) (str "ip rule show") = inr (ls, 0) →
  find_netid H reg s = (Done (head (rule_texts reg ls)), set_trace (trace s ++ [Popen (str "ip rule show")]) s).
Proof.
  intros Hread. unfold find_netid. rewrite for_lines_each, Hread. generalize (set_trace (trace s ++ [Popen (str "ip rule show")]) s) as s1. clear.
  induction ls as [|l ls IH]; intros s1; [done|]. cbn [each_line]. rewrite Q_bind_eq. unfold rule_texts. cbn [omap list_omap]. fold (rule_texts reg ls).
  destruct (regexec reg (cstr l)) as [m|]; [done|]. apply IH.
Qed.

(** What the answer of ndc makes of the exit status. *)
Definition ndc_status (code : Z) (r : Z + list bytes * Z) : Z :=
  match r with
  | inl e => e
  | inr ([], e) => if truthy e then e else ENOSYS
  | inr (l :: _, _) => if (400 <=? atoi (cstr l)) && (atoi (cstr l) <? 600) then ENONET else code
  end.
Lemma cndc_runs args s :
  ∃ s', trace s' = trace s ++ [Popen (str "ndc " ++ args)] ∧
    cndc H args s = (let r := popen_read H (trace s) (str "ndc " ++ args) in
                     match r with inr (l :: _, _) => if (400 <=? atoi (cstr l)) && (atoi (cstr l) <? 600) then Exit ENONET else Done tt
                                | _ => Exit (ndc_status 0 r) end, s').
Proof.
  unfold cndc. cbv zeta. assert (concat [str "ndc "; args] = str "ndc " ++ args) as -> by (unfold concat; cbn [mjoin list_join]; by rewrite app_nil_r).
  change (vcmd_ret H) with (cmd_ret H). rewrite Q_bind_eq. cbn [printf]. rewrite Q_bind_eq, cmd_ret_run.
  cbn [trace]. destruct (popen_read H (trace s) (str "ndc " ++ args)) as [e|[[|l ls] e]]; cbn [next_line ndc_status mret Q_ret];
    [|destruct (truthy e)|destruct (_ && _)]; (eexists; split; [|reflexivity]; reflexivity).
Qed.

(** The actions of the cleanup after those of [t], and the exit status, when the step exited with [code]: the link is deleted; then every rule of both
    tables that names the interface; and then the network of the first routing rule that does. *)
Definition cleans_up (iface : bytes) (code : Z) (t : list action) (result : outcome Z * qstate) : Prop :=
  ∃ rule_reg iptables_reg v4 v6 rules,
    regcomp (rule_regex iface) = Some rule_reg ∧ regcomp (iptables_regex iface) = Some iptables_reg ∧
    let t1 := t ++ [System (str "ip link del " ++ iface)] in
    popen_read H t1 (str "iptables-save") = inr (v4, 0) ∧
    let t2 := t1 ++ Popen (str "iptables-save") :: ((λ x, System (str "iptables -D " ++ x)) <$> rule_texts iptables_reg v4) in
    popen_read H t2 (str "ip6tables-save") = inr (v6, 0) ∧
    let t3 := t2 ++ Popen (str "ip6tables-save") :: ((λ x, System (str "ip6tables -D " ++ x)) <$> rule_texts iptables_reg v6) in
    popen_read H t3 (str "ip rule show") = inr (rules, 0) ∧
    let t4 := t3 ++ [Popen (str "ip rule show")] in
    match head (rule_texts rule_reg rules) with
    | None => trace result.2 = t4 ∧ result.1 = Exit code
    | Some n =>
        let destroy := str "ndc " ++ str "network destroy " ++ printf_u (strtoul 16 n).1 in
        trace result.2 = t4 ++ [Popen destroy] ∧ result.1 = Exit (ndc_status code (popen_read H t4 destroy))
    end.

(** The tables and the routing rules can be read. *)
Definition rules_readable : Prop :=
  ∀ t c, c ∈ [str "iptables-save"; str "ip6tables-save"; str "ip rule show"] → ∃ ls, popen_read H t c = inr (ls, 0).

(** The exit handler, from the state in which a step has exited with [code]. *)
Definition handled (code : Z) (s : qstate) : outcome Z * qstate :=
  match cmd_up_cleanup H s with
  | (Done _, s') => (Exit code, s') | (Exit c, s') => (Exit c, s') | (Undefined, s') => (Undefined, s') | (NoFuel, s') => (NoFuel, s')
  end.
Lemma cleanup_complete iface code s :
  cleanup_iface s = Some iface → is_Some (regcomp (rule_regex iface)) → is_Some (regcomp (iptables_regex iface)) → rules_readable →
  cleans_up iface code (trace s) (handled code s).
Proof.
  intros Hc [r Hr] [i Hi] Hread. unfold handled, cmd_up_cleanup. rewrite Q_bind_eq. cbn [set_exiting]. rewrite Q_bind_eq. cbn [q_get cleanup_iface]. rewrite Hc.
  set (s0 := {| trace := trace s |}). unfold del_if, xregcomp. rewrite Hr, Hi. rewrite !Q_bind_eq. cbn [mret Q_ret]. rewrite !Q_bind_eq. cbn [mret Q_ret].
  rewrite Q_bind_eq, cmd_exiting by done. set (s1 := {| trace := _ ++ [_] |}).
  destruct (Hread (trace s1) (str "iptables-save")) as [v4 H4]; [set_solver|].
  destruct (delete_rules_exiting i (str "iptables-save") (str "iptables -D ") s1 v4 eq_refl H4) as (s2 & Hd2 & Hg2 & Ht2). rewrite Q_bind_eq, Hd2.
  assert (He2 : is_exiting s2 = true) by (unfold globals in Hg2; by injection Hg2).
  destruct (Hread (trace s2) (str "ip6tables-save")) as [v6 H6]; [set_solver|].
  destruct (delete_rules_exiting i (str "ip6tables-save") (str "ip6tables -D ") s2 v6 He2 H6) as (s3 & Hd3 & _ & Ht3). rewrite Q_bind_eq, Hd3.
  destruct (Hread (trace s3) (str "ip rule show")) as [rules Hrules]; [set_solver|]. rewrite Q_bind_eq, (find_netid_first r s3 rules Hrules).
  exists r, i, v4, v6, rules. rewrite Ht3, Ht2 in Hrules. rewrite Ht2 in H6. split_and!; [done..|].
  destruct (head (rule_texts r rules)) as [n|]; [|cbn [fst snd mret Q_ret trace set_trace]; by rewrite Ht3, Ht2].
  destruct (cndc_runs (str "network destroy " ++ printf_u (strtoul 16 n).1) (set_trace (trace s3 ++ [Popen (str "ip rule show")]) s3)) as (s4 & Ht4 & ->).
  cbn [trace set_trace] in *. rewrite Ht3, Ht2 in *. cbv zeta.
  destruct (popen_read H _ (str "ndc " ++ _)) as [e|[[|l ls] e]]; [done|done|]. cbn [ndc_status]. by destruct (_ && _).
Qed.

(** C16: when any step of bringing an interface up exits, the run does not just stop.  The exit handler deletes the interface as its next
    action; and when the tables and the routing rules can be read it finishes, whatever the commands it runs answer: it deletes every rule of
    the IPv4 and the IPv6 table that matches the pattern for the interface, in order, and destroys the network of the first
    routing rule that does; there are no other actions, and the exit status is that of the step that failed, unless ndc fails.  When every
    step succeeds, the handler runs no command and the exit status is 0.  The interface must not exist before, and its name must
    be a valid regular expression. *)
Theorem cmd_up_fails_clean sdk o iface s c s1 :
  o_iface o = Some iface →
  is_Some (regcomp (rule_regex iface)) → is_Some (regcomp (iptables_regex iface)) →
  cmd_ret H DEFINE_CMD (Some (str "ip link show dev " ++ iface ++ str " 2>/dev/null")) s = (Done (None, c), s1) →
  let result := at_exit (cmd_up_cleanup H) (cmd_up H WG_PACKAGE_NAME patience sdk o) s in
  match cmd_up_steps H WG_PACKAGE_NAME patience sdk iface o (registered iface s1) with
  | (Done _, s2) => result.1 = Exit 0 ∧ trace result.2 = trace s2
  | (Exit code, s2) =>
      (∃ later code', result.1 = Exit code' ∧ trace result.2 = trace s2 ++ System (str "ip link del " ++ iface) :: later) ∧
      (rules_readable → cleans_up iface code (trace s2) result)
  | _ => True
  end.
Proof.
  intros Ho Hr Hi Hshow result. subst result.
  assert (Hup : cmd_up H WG_PACKAGE_NAME patience sdk o s =
    (cmd_up_steps H WG_PACKAGE_NAME patience sdk iface o;; set_cleanup_iface None;; q_exit 0) (registered iface s1)).
  { unfold cmd_up. rewrite Ho. cbn [deref]. rewrite Q_bind_eq. cbn [mret Q_ret]. rewrite Q_bind_eq, Hshow. done. }
  unfold at_exit. rewrite Hup, Q_bind_eq.
  pose proof (keeps_cmd_up_steps sdk iface o (registered iface s1)) as [Hg _].
  destruct (cmd_up_steps _ _ _ _ _ _ _) as [[[]|code| |] s2]; [| |done|done]; cbn [snd] in Hg; unfold globals in Hg;
    cbn [registered is_exiting atexit_cleanup cleanup_iface] in Hg; injection Hg as He Ha Hc.
  - rewrite Q_bind_eq. cbn [set_cleanup_iface]. unfold q_exit. cbn [atexit_cleanup]. rewrite Ha. done.
  - rewrite Ha. split; [|by apply cleanup_complete]. unfold cmd_up_cleanup. rewrite Q_bind_eq. cbn [set_exiting]. rewrite Q_bind_eq. cbn [q_get cleanup_iface].
    rewrite Hc. set (s3 := {| trace := trace s2 |}).
    destruct (del_if_first iface s3) as [later Hl]; [done..|]. exists later.
    pose proof (ends_del_if iface s3) as Hend. cbn [trace s3] in Hl.
    destruct (del_if H iface s3) as [[[]|code'| |] s4]; [..|done|done]; cbn [fst snd] in *; eauto.
Qed.

End Spec.

(** ** A phone

    A host with one configuration, "wg0", on which every command works but those
    that [fails] says. *)
Definition phone_output (c : bytes) : list bytes :=
  if bool_decide (take 4 c = str "ndc ") then [str "200 0 success" ++ [10]]
  else if bool_decide (c = str "wg show wg0 endpoints") then [str "KEY" ++ [9] ++ str "192.0.2.1:51820" ++ [10]]
  else if bool_decide (c = str "wg show wg0 allowed-ips") then [str "KEY" ++ [9] ++ str "0.0.0.0/0 ::/0" ++ [10]]
  else if bool_decide (c = str "wg show wg0 listen-port") then [str "51820" ++ [10]]
  else if bool_decide (c = str "wg show interfaces") then [str "wg0 wg1" ++ [10]]
  else if bool_decide (c = str "iptables-save") then
    [str "-A INPUT -j ACCEPT" ++ [10];
     str "-A OUTPUT -m mark --mark 0x20000 -m comment --comment " ++ [34] ++ str "wireguard rule wg0" ++ [34] ++ str " -j ACCEPT" ++ [10]]
  else if bool_decide (c = str "ip rule show") then [str "13000: from all fwmark 0xc1234/0xcffff lookup wg0 " ++ [10]]
  else if bool_decide (c = str "ip -o route show default") then [str "default via 10.0.0.1 dev wlan0 mtu 1400 " ++ [10]]
  else [].
Definition phone_config : list bytes :=
  (λ l, l ++ [10]) <$>
    [str "[Interface]"; str "PrivateKey = x"; str "Address = 10.0.0.2/24, fd00::1"; str "DNS = 1.1.1.1, example.com, ::1";
     str "ExcludedApplications = com.b, com.a"; str "[Peer]"; str "Address = kept"].
Definition phone_packages : list bytes :=
  (λ l, l ++ [10]) <$> [str "com.a 10001 0 /data/a"; str "com.b 10005 0 /data/b"; str "com.c 10002 1 /data/c"].
Definition phone (fails : bytes) : host := {|
  system_status := λ _ c, if bool_decide (c = fails) then 256 else 0;
  popen_read := λ _ c, inr (phone_output c, 0);
  popen_write := λ _ _ _, inr 0;
  execvp_status := λ _, inl ENOENT;
  fopen_read := λ f, if bool_decide (f = str "/data/misc/wireguard/wg0.conf") then inr phone_config
                     else if bool_decide (f = str "/data/system/packages.list") then inr phone_packages else inl ENOENT;
  fstat_errno := λ _, 0;
  getuid := 0;
  calling_package := None;
  sdk_property := Some (str "30");
  random := λ k, Z.of_nat k * 4321;
  heap_after := [0];
  libbinder := None;
|}.
Definition phone_options : options := {|
  o_iface := Some (str "wg0"); o_config := Some []; o_mtu := 0; o_addrs := Some []; o_dnses := Some [];
  o_excluded := None; o_included := None |}.

Lemma regcomp_Some p : bool_decide (is_Some (regcomp p)) = true → is_Some (regcomp p).
Proof. apply bool_decide_eq_true. Qed.

(** The phone on which the interface cannot be set up, and on which every command of the cleanup fails. *)
Definition broken_phone : host := {|
  system_status := λ _ c, if bool_decide (c = str "ip link add wg0 type wireguard") then 0 else 256;
  popen_read := popen_read (phone []); popen_write := popen_write (phone []); execvp_status := execvp_status (phone []);
  fopen_read := fopen_read (phone []); fstat_errno := fstat_errno (phone []); getuid := 0; calling_package := None;
  sdk_property := sdk_property (phone []); random := random (phone []); heap_after := [0]; libbinder := None;
|}.
Lemma cmd_up_fails_clean_witness :
  let result := at_exit (cmd_up_cleanup (plat := arm64) broken_phone) (cmd_up (plat := arm64) broken_phone (str "pkg") 9 30 phone_options) qinit in
  result.1 = Exit 1 ∧
  trace result.2 =
    [Popen (str "ip link show dev wg0 2>/dev/null"); System (str "ip link add wg0 type wireguard");
     PopenWrite (str "wg setconf wg0 /proc/self/fd/0") []; System (str "ip link set up dev wg0"); System (str "ip link del wg0");
     Popen (str "iptables-save");
     System (str "iptables -D OUTPUT -m mark --mark 0x20000 -m comment --comment " ++ [34] ++ str "wireguard rule wg0" ++ [34] ++ str " -j ACCEPT");
     Popen (str "ip6tables-save"); Popen (str "ip rule show"); Popen (str "ndc network destroy 4660")].
Proof.
  pose proof (cmd_up_fails_clean (plat := arm64) broken_phone (str "pkg") 9 30 phone_options (str "wg0")
    qinit (Some ([], 0)) (set_trace [Popen (str "ip link show dev wg0 2>/dev/null")] qinit) eq_refl
    (regcomp_Some (rule_regex (str "wg0")) eq_refl) (regcomp_Some (iptables_regex (str "wg0")) eq_refl) eq_refl) as Hall.
  cbv zeta in Hall. set (result := at_exit _ _ _) in *. clearbody result.
  destruct (cmd_up_steps (plat := arm64) broken_phone (str "pkg") 9 30 (str "wg0") phone_options _) as [x s2] eqn:Es. vm_compute in Es. injection Es as <- <-.
  destruct Hall as [_ Hall]. destruct Hall as (r & i & v4 & v6 & rules & Hr & Hi & H4 & H6 & Hrules & Hres).
  - intros t c _. exists (phone_output c). reflexivity.
  - vm_compute in Hr, Hi. injection Hr as <-. injection Hi as <-. vm_compute in H4. injection H4 as <-. vm_compute in H6. injection H6 as <-.
    vm_compute in Hrules. injection Hrules as <-. vm_compute in Hres. destruct Hres as [Ht Hc]. split; [exact Hc|exact Ht].
Defined.
