(* ===== verification/AndroidNamesSpec.v ===== *)
(** * AndroidNamesSpec: interface names, the options of a file, and the MTU

    The regular expressions of wg-quick for Android as languages, and what follows:
    which interface an argument stands for, that a deletion reads the name as an
    expression, and that no endpoint ever reaches the calculation of the MTU. *)

From Stdlib Require Import Ascii String.
From stdpp Require Import base numbers option sets list list_numbers strings.
From S2P Require Import Prelude CLib Regex RegexSpec Quick QuickBinder Android AndroidSpec.
#[local] Open Scope c_scope.

(** ** Interface names *)

Definition name_char (c : Z) : bool :=
  ((97 <=? c) && (c <=? 122)) || ((65 <=? c) && (c <=? 90)) || ((48 <=? c) && (c <=? 57)) ||
  has_char (str "_=+.-") c.
Definition valid_iface (name : bytes) : Prop :=
  Forall (λ c, name_char c = true) name ∧ (1 <= length name <= 15)%nat.

(** The bracket expression both patterns have. *)
Definition name_class : Z → bool :=
  match brackets true (str "a-zA-Z0-9_=+.-]") with Some (P, _) => P | None => λ _, false end.
Lemma name_class_char c : name_class c = name_char c.
Proof.
  change (name_class c) with
    (((97 <=? c) && (c <=? 122)) || (((65 <=? c) && (c <=? 90)) || (((48 <=? c) && (c <=? 57)) ||
     ((c =? 95) || ((c =? 61) || ((c =? 43) || ((c =? 46) || ((c =? 45) || false)))))))).
  unfold name_char, has_char. cbn [existsb str list_fmap fmap list_ascii_of_string]. ch_norm.
  rewrite !(Z.eqb_sym c). by rewrite !orb_assoc.
Qed.

Definition conf_pre : list re := [Alt (lit 47) Eps].
Definition conf_name : re := Alt (Cat (repeat (Chars name_class) 1 15) Eps) Void.
Definition conf_post : list re := lit <$> str ".conf" ++ [EOS].
Definition conf_branch : list re := conf_pre ++ Group conf_name :: conf_post.

Lemma regex_conf_eq : regex_conf = [conf_branch].
Proof. reflexivity. Qed.
Lemma split_conf : split_group conf_branch = Some (conf_pre, conf_name, conf_post).
Proof. reflexivity. Qed.

Lemma lang_conf_name x : lang conf_name x ↔ valid_iface x.
Proof.
  unfold valid_iface. assert (Hr : lang (repeat (Chars name_class) 1 15) x ↔
    Forall (λ c, name_char c = true) x ∧ (1 <= length x <= 15)%nat).
  { rewrite lang_repeat by lia. setoid_rewrite name_class_char. done. }
  rewrite <- Hr. unfold conf_name. split.
  - intros [(y & z & -> & Hy & ->%lang_inv)%lang_inv|[]%lang_inv]%lang_inv. by rewrite app_nil_r.
  - intros Hx. apply lang_alt_l. rewrite <- (app_nil_r x). auto with lang.
Qed.

Lemma name_char_range c : name_char c = true → 43 <= c <= 122 ∧ c ≠ 47.
Proof.
  unfold name_char, has_char. cbn [existsb str list_fmap fmap list_ascii_of_string]. ch_norm.
  intros Hc. lia.
Qed.
Lemma valid_iface_plain x : valid_iface x → plain x.
Proof.
  intros [Hx _]. eapply Forall_impl; [exact Hx|]. intros c Hc%name_char_range. lia.
Qed.

Lemma lang_conf_pre x : lang (cats conf_pre) x ↔ x = [] ∨ x = [47].
Proof.
  split.
  - intros (y & z & -> & [(c & -> & Hc)%lang_inv| ->%lang_inv]%lang_inv & ->%lang_inv)%lang_inv; [right|by left].
    apply Z.eqb_eq in Hc as <-. done.
  - intros [-> | ->]; [apply (lang_cat _ _ [] [])|apply (lang_cat _ _ [47] [])]; auto with lang.
    apply lang_alt_l. by constructor.
Qed.
Lemma lang_conf_branch name : valid_iface name → lang (cats conf_branch) ([47] ++ name ++ str ".conf" ++ [EOS]).
Proof.
  intros Hname. apply lang_cats_app. exists [47], (name ++ str ".conf" ++ [EOS]). split; [done|]. split.
  - apply lang_conf_pre. by right.
  - apply lang_cat; [constructor; by apply lang_conf_name|]. by apply lang_cats_lits.
Qed.

(** The name in a file name: the characters before ".conf" up to the directory, at
    most 15 of them. *)
Lemma regex_conf_text filename t :
  plain filename → group_text regex_conf filename = Some t →
  valid_iface t ∧ (t ++ str ".conf") `suffix_of` filename ∧
  ∀ dir name, filename = dir ++ [47] ++ name ++ str ".conf" → valid_iface name → t = name.
Proof.
  intros Hpl. rewrite regex_conf_eq. intros Hg.
  apply (group_text_Some _ _ _ _ _ _ split_conf) in Hg as (u & x & y & v & (Hm & _ & Hleft) & Hx & Ht & Hy).
  2: { intros z Hz%lang_conf_name. by apply valid_iface_plain. }
  apply lang_conf_name in Ht. apply lang_conf_pre in Hx. unfold conf_post in Hy. rewrite fmap_app in Hy.
  apply lang_cats_app in Hy as (y1 & y2 & -> & ->%lang_cats_lits & Hy2).
  change [lit EOS] with (lit <$> [EOS]) in Hy2. apply lang_cats_lits in Hy2 as ->.
  assert (v = []) as ->.
  { apply (marked_last filename (u ++ x ++ t ++ str ".conf")); [done|]. rewrite Hm. by rewrite <- !app_assoc. }
  rewrite app_nil_r in Hm. rewrite !app_assoc in Hm. unfold marked in Hm.
  rewrite app_comm_cons in Hm. apply app_inj_tail in Hm as [Hm _].
  assert (∃ w, u = BOS :: w) as [w ->].
  { destruct u as [|b u]; cbn [app] in Hm; [exfalso|injection Hm as <- _; eauto].
    destruct Hx as [-> | ->]; cbn [app] in Hm; [|done].
    destruct Ht as [Ht1 Ht2]. destruct t as [|b t]; [cbn [length] in Ht2; lia|]. cbn [app] in Hm.
    injection Hm as <- _. apply Forall_cons in Ht1 as [Hb _]. by vm_compute in Hb. }
  cbn [app] in Hm. injection Hm as Hm. rewrite <- !app_assoc in Hm.
  split; [done|]. split; [exists (w ++ x); by rewrite <- app_assoc|].
  intros dir name Hdir Hname.
  (* the match that starts at the slash before the name *)
  assert (Hlen : (length w <= length dir)%nat).
  { destruct (decide (length w <= length dir)%nat) as [|Hlt]; [done|]. exfalso.
    apply (Hleft (S (length dir)) (length ([47] ++ name ++ str ".conf" ++ [EOS]))); [cbn [length]; lia|].
    unfold marked. rewrite Hdir. cbn [drop]. rewrite <- !app_assoc, drop_app_length.
    rewrite (firstn_all2 _ (le_n _)). by apply lang_conf_branch. }
  rewrite Hdir in Hm. rewrite !app_assoc in Hm. apply app_inv_tail in Hm. rewrite <- !app_assoc in Hm.
  apply app_eq_inv in Hm as [(k & Hk & Hkt)|(k & -> & Hkt)].
  - assert (47 ∈ t → False) as Hno by (intros Hin; destruct Ht as [Ht1 _]; eapply Forall_forall in Ht1; [|exact Hin]; done).
    destruct Hx as [-> | ->]; cbn [app] in Hkt.
    + destruct Hno. rewrite Hkt. set_solver.
    + destruct k as [|c k]; cbn [app] in Hkt; [by injection Hkt|]. injection Hkt as _ Hkt. destruct Hno. rewrite Hkt. set_solver.
  - rewrite length_app in Hlen. assert (k = []) as -> by (destruct k; [done|cbn [length] in Hlen; lia]).
    cbn [app] in Hkt. destruct Hx as [-> | ->]; cbn [app] in Hkt.
    + destruct Ht as [Ht1 _]. rewrite <- Hkt in Ht1. apply Forall_cons in Ht1 as [Hb _]. by vm_compute in Hb.
    + by injection Hkt as ->.
Qed.

Lemma regex_iface_match arg : plain arg → regmatch regex_iface arg = true ↔ valid_iface arg.
Proof.
  intros Hpl. change regex_iface with [anchored [repeat (Chars name_class) 1 15]].
  rewrite regmatch_anchored by done. rewrite <- lang_conf_name.
  split; [by apply lang_alt_l|]. by intros [?|[]%lang_inv]%lang_inv.
Qed.

(** ** The options of a configuration file *)

Section Options.
Context `{plat : Platform} (H : host) (WG_PACKAGE_NAME : bytes).

Lemma option_line_iface line b o : o_iface (option_line line b o).1 = o_iface o.
Proof.
  unfold option_line. cbn [fst]. destruct (if strcasecmp_eq _ _ then true else _); [|done].
  by repeat (destruct (starts_with _ _ _); [done|]).
Qed.
Lemma option_lines_iface lines b o i : o_iface o = Some i → o_iface (option_lines lines b o) = Some i.
Proof.
  revert b o. induction lines as [|l lines IH]; intros b o Ho; cbn [option_lines].
  - cbn [o_iface]. by rewrite Ho.
  - destruct (_ <? _); [done|]. pose proof (option_line_iface (cstr l) b o) as Hl.
    destruct (option_line (cstr l) b o) as [o' b']. cbn [fst] in Hl. apply IH. congruence.
Qed.

Lemma strtok_from_elem delims s tok c t : c ∈ t → t ∈ strtok_from delims s tok → c ∈ s ∨ c ∈ tok.
Proof.
  revert tok. induction s as [|d s IH]; intros tok Hc Ht; cbn [strtok_from] in Ht.
  - destruct (is_end tok); set_solver.
  - destruct (has_char delims d); [destruct (is_end tok)|].
    + apply IH in Ht; set_solver.
    + apply elem_of_cons in Ht as [->|Ht]; [set_solver|]. apply IH in Ht; set_solver.
    + apply IH in Ht; set_solver.
Qed.

Lemma strtok_all_elem delims s c t : c ∈ t → t ∈ strtok_all delims s → c ∈ s.
Proof. intros Hc Ht. destruct (strtok_from_elem delims s [] c t Hc Ht); set_solver. Qed.

Lemma open_config_found paths arg e filename lines :
  open_config H paths arg e = inr (filename, lines) →
  ∃ path, path ∈ paths ∧ filename = path ++ str "/" ++ arg ++ str ".conf".
Proof.
  revert e. induction paths as [|p paths IH]; intros e; cbn [open_config]; [done|].
  destruct (fopen_read H _) as [e'|ls].
  - intros (path & ? & ?)%IH. exists path. set_solver.
  - intros [= <- _]. exists p. set_solver.
Qed.

(** C29: the interface that [parse_options] finds for an argument is always a valid
    interface name, of 1 to 15 of the allowed characters; it is the argument
    itself when that is one (and the file is found under a search path), and the
    end of the argument before ".conf" otherwise. *)
Theorem parse_options_iface arg s o s' :
  plain arg → plain WG_PACKAGE_NAME →
  parse_options H WG_PACKAGE_NAME arg s = (Done o, s') →
  ∃ iface, o_iface o = Some iface ∧ valid_iface iface ∧ (valid_iface arg → iface = arg) ∧
    (¬ valid_iface arg → (iface ++ str ".conf") `suffix_of` arg).
Proof.
  intros Harg Hpkg Hp. unfold parse_options in Hp. rewrite Q_bind_eq in Hp.
  destruct (regmatch regex_iface arg) eqn:Hr.
  - apply regex_iface_match in Hr; [|done].
    destruct (open_config H _ arg 0) as [e|[filename lines]] eqn:Ho; [done|]. cbn [mret Q_ret] in Hp.
    apply open_config_found in Ho as (path & Hpath & ->).
    assert (Hpl : plain (path ++ str "/" ++ arg ++ str ".conf")).
    { rewrite !Forall_app. split_and!; [|by apply (bool_decide_eq_true _)|done|by apply (bool_decide_eq_true _)].
      apply Forall_forall. intros c Hc.
      pose proof (strtok_all_elem _ _ _ _ Hc Hpath) as Hin.
      unfold WG_CONFIG_SEARCH_PATHS in Hin. rewrite !elem_of_app in Hin.
      destruct Hin as [Hin|[Hin|Hin]]; eapply Forall_forall; try exact Hin; [|exact Hpkg|]; by apply (bool_decide_eq_true _). }
    destruct (group_text regex_conf _) as [iface|] eqn:Hg; [|done].
    destruct (truthy _); [done|]. injection Hp as <- _.
    apply regex_conf_text in Hg as (Hv & _ & Hdir); [|done].
    exists iface. split; [by apply option_lines_iface|]. split_and!; [done| |done].
    intros _. by apply (Hdir path).
  - assert (Hnv : ¬ valid_iface arg) by (intros Hv; apply regex_iface_match in Hv; [congruence|done]).
    destruct (fopen_read H arg) as [e|lines]; [done|]. cbn [mret Q_ret] in Hp.
    destruct (group_text regex_conf _) as [iface|] eqn:Hg; [|done].
    destruct (truthy _); [done|]. injection Hp as <- _.
    apply regex_conf_text in Hg as (Hv & Hsuf & _); [|done].
    exists iface. split; [by apply option_lines_iface|]. done.
Qed.
End Options.

Lemma parse_options_iface_witness :
  ∃ o, (parse_options (plat := arm64) (phone []) (str "com.wireguard.android") (str "wg0") qinit).1 = Done o ∧
    ∃ iface, o_iface o = Some iface ∧ valid_iface iface ∧ (valid_iface (str "wg0") → iface = str "wg0") ∧
    (¬ valid_iface (str "wg0") → (iface ++ str ".conf") `suffix_of` str "wg0").
Proof.
  eexists. split; [vm_compute; reflexivity|].
  eapply (parse_options_iface (plat := arm64) (phone []) (str "com.wireguard.android") (str "wg0") qinit);
    [by apply (bool_decide_eq_true _)|by apply (bool_decide_eq_true _)|vm_compute; reflexivity].
Defined.

(** ** Every line of a file is either for the interface or for this program *)

Inductive setting :=
  | Address (v : bytes)
  | Dns (v : bytes)
  | Excluded (v : bytes)
  | Included (v : bytes)
  | Mtu (v : bytes)
  | ForInterface (line : bytes).

(** Whether the lines from this one on are in an Interface section. *)
Definition section_after (b : bool) (line : bytes) : bool :=
  strcasecmp_eq (clean line) (str "[Interface]") || (b && negb (at_ (clean line) 0 =? ch "[")).

Definition setting_of (b : bool) (line : bytes) : setting :=
  let c := clean line in
  if negb b then ForInterface line
  else if starts_with (str "Address=") c 8 then Address (drop 8 c)
  else if starts_with (str "DNS=") c 4 then Dns (drop 4 c)
  else if starts_with (str "ExcludedApplications=") c 4 then Excluded (drop 21 c)
  else if starts_with (str "IncludedApplications=") c 4 then Included (drop 21 c)
  else if starts_with (str "MTU=") c 4 then Mtu (drop 4 c)
  else ForInterface line.

Fixpoint settings (b : bool) (lines : list bytes) : list setting :=
  match lines with
  | [] => []
  | l :: lines' => let b' := section_after b l in setting_of b' l :: settings b' lines'
  end.

Definition address (s : setting) : option bytes := match s with Address v => Some v | _ => None end.
Definition dns (s : setting) : option bytes := match s with Dns v => Some v | _ => None end.
Definition excluded (s : setting) : option bytes := match s with Excluded v => Some v | _ => None end.
Definition included (s : setting) : option bytes := match s with Included v => Some v | _ => None end.
Definition mtu_value (s : setting) : option bytes := match s with Mtu v => Some v | _ => None end.
Definition for_interface (s : setting) : option bytes := match s with ForInterface l => Some l | _ => None end.

Definition summary `{Platform} (iface : bytes) (l : list setting) : options := {|
  o_iface := Some iface;
  o_config := joined [] (omap for_interface l);
  o_mtu := match last (omap mtu_value l) with Some v => u32 (atoi v) | None => 0 end;
  o_addrs := joined (str ",") (omap address l);
  o_dnses := joined (str ",") (omap dns l);
  o_excluded := joined (str ",") (omap excluded l);
  o_included := joined (str ",") (omap included l);
|}.

Lemma summary_snoc `{Platform} iface l b line :
  option_line line b (summary iface l) =
  (summary iface (l ++ [setting_of (section_after b line) line]), section_after b line).
Proof.
  unfold option_line. cbv zeta.
  assert ((if strcasecmp_eq (clean line) (str "[Interface]") then true
           else if at_ (clean line) 0 =? ch "[" then false else b) = section_after b line) as ->.
  { unfold section_after. destruct (strcasecmp_eq _ _); [done|]. destruct (_ =? _), b; done. }
  f_equal. unfold setting_of, summary. rewrite !omap_app.
  destruct (section_after b line); cbn [negb];
    repeat (destruct (starts_with _ _ _)); cbn [omap list_omap address dns excluded included mtu_value for_interface];
    rewrite ?app_nil_r, ?last_snoc, ?joined_snoc; done.
Qed.

Definition finished (o : options) : options := {|
  o_iface := or_empty (o_iface o); o_config := or_empty (o_config o); o_mtu := o_mtu o; o_addrs := or_empty (o_addrs o);
  o_dnses := or_empty (o_dnses o); o_excluded := o_excluded o; o_included := o_included o |}.

Lemma option_lines_summary `{Platform} iface lines b l :
  Forall (λ x, Z.of_nat (length (cstr x)) <= 65536) lines →
  option_lines lines b (summary iface l) = finished (summary iface (l ++ settings b (cstr <$> lines))).
Proof.
  intros Hl. revert b l. induction Hl as [|x lines Hx Hl IH]; intros b l; cbn [option_lines].
  - csimpl. by rewrite app_nil_r.
  - rewrite (proj2 (Z.ltb_ge _ _)) by done. rewrite summary_snoc, IH, <- app_assoc. done.
Qed.



(** ** Endpoints and the MTU *)

Definition endpoint_mid : list re := removelast (drop 1 (hd [] regex_endpoint)).
Lemma regex_endpoint_eq : regex_endpoint = [anchored endpoint_mid].
Proof. reflexivity. Qed.

(** A line that "wg show" prints has a tab between the key and the endpoint. *)
Lemma regex_endpoint_tab line : plain line → 9 ∈ line → group_text regex_endpoint line = None.
Proof.
  intros Hpl Htab. destruct (group_text regex_endpoint line) eqn:Hg; [exfalso|done].
  apply group_text_regmatch in Hg. rewrite regex_endpoint_eq in Hg. apply regmatch_anchored in Hg; [|done].
  apply lang_alphabet in Hg. eapply Forall_forall in Hg; [|exact Htab]. by vm_compute in Hg.
Qed.

Section Mtu.
Context `{plat : Platform} (H : host).

(** With no MTU configured, [set_mtu] takes the MTU of the default route (1500 when
    there is none), less 80: on every line of "wg show endpoints" in the format
    it is printed in, the key, a tab and the endpoint, the pattern fails, so the
    routes to the endpoints are never asked for. *)
Theorem set_mtu_ignores_endpoints iface s :
  (∀ t, ∃ ls, popen_read H t (str "wg show " ++ iface ++ str " endpoints") = inr (ls, 0) ∧
              Forall (λ l, plain (cstr l) ∧ 9 ∈ cstr l) ls) →
  set_mtu H iface 0 s =
  (default_mtu ← get_route_mtu H (str "default");
   act (Popen (str "wg show " ++ iface ++ str " endpoints"));;
   cndc H (str "interface setmtu " ++ iface ++ str " " ++ printf_d ((if default_mtu =? -1 then 1500 else default_mtu) - 80))) s.
Proof.
  intros Hout. unfold set_mtu. cbn [truthy negb Z.eqb]. apply Q_bind_ext. intros d s'. cbv zeta.
  rewrite Q_bind_eq, for_lines_each. destruct (Hout (trace s')) as (ls & -> & Hls).
  rewrite Q_bind_eq. cbn [act]. set (s2 := set_trace _ s').
  enough (Heach : ∀ a, each_line (λ endpoint_mtu endpoint,
      match group_text regex_endpoint endpoint with
      | Some endpoint => next_mtu ← get_route_mtu H endpoint;
                         mret (if (0 <? next_mtu) && (next_mtu <? endpoint_mtu) then next_mtu else endpoint_mtu, true)
      | None => mret (endpoint_mtu, true)
      end) a ls 0 s2 = (Done a, s2)) by by rewrite Heach.
  intros a. induction Hls as [|l ls [Hpl Htab] Hls IH]; cbn [each_line]; [done|].
  rewrite Q_bind_eq, regex_endpoint_tab by done. done.
Qed.
End Mtu.

Lemma set_mtu_ignores_endpoints_witness :
  trace (set_mtu (plat := arm64) (phone []) (str "wg0") 0 qinit).2 =
  Popen <$> [str "ip -o route show default"; str "wg show wg0 endpoints"; str "ndc interface setmtu wg0 1320"].
Proof.
  rewrite (set_mtu_ignores_endpoints (plat := arm64) (phone []) (str "wg0") qinit).
  - vm_compute. reflexivity.
  - intros t. eexists. split; [vm_compute; reflexivity|]. by apply (bool_decide_eq_true _).
Defined.

(** ** Names as expressions *)

(** The name of the interface is put into the expressions of [del_if] as it is.
    For the valid name "wg++" they do not compile, and the deletion exits before
    it runs a command, so such an interface can be brought up but not down; and
    the deletion of "wg1" takes the routing rule of "wg10" for its own, and
    destroys that network. *)
Theorem del_if_name_as_expression `{plat : Platform} :
  valid_iface (str "wg++") ∧ (∀ H s, del_if H (str "wg++") s = (Exit EBADR, s)) ∧
  (∀ H s ls, (∀ t, popen_read H t (str "ip rule show") = inr (ls, 0)) →
     head ls = Some (str "13000: from all fwmark 0xc1234/0xcffff lookup wg10 " ++ [10]) →
     find_netid H (ere (rule_regex (str "wg1"))) s = (Done (Some (str "1234")), set_trace (trace s ++ [Popen (str "ip rule show")]) s)).
Proof.
  split; [|split].
  - split; [by apply (bool_decide_eq_true _)|]. cbn. lia.
  - intros H s. reflexivity.
  - intros H s ls Hls Hhd. unfold find_netid. rewrite for_lines_each, Hls.
    destruct ls as [|l ls]; [done|]. injection Hhd as ->. vm_compute. reflexivity.
Qed.
