(* ===== verification/AndroidUsersSpec.v ===== *)
(** * AndroidUsersSpec: which users a tunnel is for

    The users of the selected applications as a list, compared with what
    [get_uid_list] reads out of memory, and the ranges of users [set_users] hands
    to ndc, compared with the set they are meant to cover. *)

From Stdlib Require Import Ascii String.
From stdpp Require Import base numbers option sets list list_numbers sorting strings.
From S2P Require Import Prelude CLib Regex Quick QuickBinder Android AndroidSpec.
#[local] Open Scope c_scope.

Definition comma : Z := ch ",".

(** ** Tokens *)

Lemma strtok_from_app delims x s tok :
  Forall (λ c, has_char delims c = false) x → strtok_from delims (x ++ s) tok = strtok_from delims s (tok ++ x).
Proof.
  intros Hx. revert tok. induction Hx as [|c x Hc Hx IH]; intros tok; cbn [app strtok_from]; [by rewrite app_nil_r|].
  rewrite Hc, IH, <- app_assoc. done.
Qed.

Definition names (sel : bytes) : list bytes := strtok_all [comma] sel.

Lemma no_comma x : comma ∉ x → Forall (λ c, has_char [comma] c = false) x.
Proof.
  intros Hx. apply Forall_forall. intros c Hc. destruct (has_char [comma] c) eqn:E; [|done].
  apply has_char_spec in E. set_solver.
Qed.
Definition token (x : bytes) : list bytes := if is_end x then [] else [x].
Lemma names_comma x s : comma ∉ x → names (x ++ comma :: s) = token x ++ names s.
Proof.
  intros Hx. unfold names, strtok_all. rewrite strtok_from_app by by apply no_comma. cbn [app strtok_from].
  unfold token. by destruct (is_end x).
Qed.
Lemma names_single x : comma ∉ x → names x = token x.
Proof.
  intros Hx. unfold names, strtok_all. rewrite <- (app_nil_r x) at 1. by rewrite strtok_from_app by by apply no_comma.
Qed.

Definition occurrences (x : bytes) (l : list bytes) : nat := length (filter (x =.) l).
Definition commas (s : bytes) : nat := length (filter (comma =.) s).

Lemma strtok_from_length s tok : (length (strtok_from [comma] s tok) <= S (commas s))%nat.
Proof.
  revert tok. induction s as [|c s IH]; intros tok; cbn [strtok_from].
  - destruct (is_end tok); cbn [length]; lia.
  - unfold commas. rewrite filter_cons. destruct (has_char [comma] c) eqn:E.
    + apply has_char_spec, list_elem_of_singleton in E as ->. rewrite decide_True by done. cbn [length].
      destruct (is_end tok); cbn [length]; specialize (IH []); unfold commas in IH; lia.
    + case_decide; subst; [by rewrite (proj2 (has_char_spec [comma] comma)) in E by set_solver|]. apply IH.
Qed.
Lemma names_length c s : (length (names (c :: s)) <= S (commas s))%nat.
Proof.
  unfold names, strtok_all. cbn [strtok_from is_end]. destruct (has_char [comma] c); apply strtok_from_length.
Qed.

(** ** The scan of the memory *)

Lemma comma_or_nul_app x c m :
  comma ∉ x → 0 ∉ x → c = comma ∨ c = 0 → comma_or_nul (x ++ c :: m) = Some (length x).
Proof.
  intros Hc H0 Hend. unfold comma_or_nul. induction x as [|b x IH]; cbn [app index_of length].
  - by destruct Hend as [-> | ->].
  - destruct (Z.eqb_spec b (ch ",")) as [->|_]; [set_solver|]. destruct (Z.eqb_spec b 0) as [->|_]; [set_solver|].
    cbn [orb]. rewrite IH by set_solver. done.
Qed.

(** A string is a comma-free part, and the rest from its first comma on. *)
Lemma first_comma (s : bytes) : (∃ x r, s = x ++ comma :: r ∧ comma ∉ x) ∨ comma ∉ s.
Proof.
  destruct (strchr_split s comma) as [[x r]|] eqn:E; [left|right].
  - apply strchr_split_Some in E as [-> ?]. eauto.
  - by apply strchr_split_None.
Qed.

Lemma commas_app x s : commas (x ++ s) = (commas x + commas s)%nat.
Proof. unfold commas. by rewrite filter_app, length_app. Qed.
Lemma commas_none x : comma ∉ x → commas x = O.
Proof.
  intros Hx. unfold commas. induction x as [|c x IH]; [done|]. rewrite filter_cons_False by set_solver.
  apply IH. set_solver.
Qed.

Lemma count_selected_spec fuel i c sel after :
  0 ∉ sel → (length sel < fuel)%nat → count_selected fuel i (c :: sel ++ 0 :: after) = Done (S i + commas sel)%nat.
Proof.
  revert i c sel. induction fuel as [|f IH]; intros i c sel H0 Hf; [lia|]. cbn [count_selected drop]. rewrite drop_0.
  destruct (first_comma sel) as [(x & r & -> & Hx)|Hn].
  - rewrite <- app_assoc. cbn [app]. rewrite (comma_or_nul_app x) by set_solver. rewrite drop_app_length.
    change (at_ (comma :: _) 0) with comma. change (comma =? 0) with false. cbv iota. rewrite length_app in Hf. cbn [length] in Hf.
    rewrite IH by (set_solver || lia).
    rewrite commas_app, (commas_none x) by done. change (commas (comma :: r)) with (S (commas r)). f_equal. lia.
  - rewrite comma_or_nul_app by auto. rewrite drop_app_length. change (at_ (0 :: after) 0 =? 0) with true. cbv iota.
    rewrite commas_none by done. f_equal. lia.
Qed.

(** What one package adds to the users. *)
Definition selected_times (sel name : bytes) : nat := occurrences name (names sel).

Lemma occurrences_token x name r :
  occurrences name (token x ++ r) =
  ((if negb (Nat.eqb (length x) 0) && Nat.eqb (length name) (length x) && strcmp_eq x name then 1 else 0) + occurrences name r)%nat.
Proof.
  unfold token, occurrences. destruct x as [|c x]; cbn [is_end app]; [done|]. rewrite filter_cons. cbn [length Nat.eqb negb andb].
  unfold strcmp_eq. case_decide as E.
  - rewrite E. cbn [length]. by rewrite Nat.eqb_refl, bool_decide_eq_true_2.
  - rewrite (bool_decide_eq_false_2 (_ = _)) by congruence. by rewrite andb_false_r.
Qed.

(** The loop over the names stops at the end of the selection: after a comma it finds the NUL of the string, otherwise it has to find a
    zero byte in the memory behind it. *)
Definition stops (sel rest : bytes) : Prop := sel = [] ∨ last sel = Some comma ∨ head rest = Some 0.

Lemma stops_next x r rest : stops (x ++ comma :: r) rest → stops r rest.
Proof.
  intros [Hs|[Hs|Hs]]; [by destruct x| |by right; right]. destruct r as [|b r]; [by left|]. right. left. by rewrite last_app_cons, last_cons_cons in Hs.
Qed.

Lemma match_tokens_spec fuel cap sel name uid uids rest :
  0 ∉ sel → stops sel rest → (S (length sel) < fuel)%nat → (length uids + selected_times sel name <= cap)%nat →
  match_tokens fuel cap (sel ++ 0 :: rest) name uid uids = Done (uids ++ replicate (selected_times sel name) uid).
Proof.
  revert sel uids. induction fuel as [|f IH]; intros sel uids H0 Hstop Hf Hcap; [lia|]. cbn [match_tokens].
  unfold selected_times in *.
  destruct (first_comma sel) as [(x & r & -> & Hx)|Hn].
  - rewrite <- app_assoc. cbn [app]. rewrite comma_or_nul_app by set_solver.
    apply stops_next in Hstop. replace (at_ (x ++ comma :: r ++ 0 :: rest) 0 =? 0) with false.
    2: { destruct x as [|b x]; [done|]. symmetry. apply Z.eqb_neq. change (at_ _ 0) with b. set_solver. }
    rewrite take_app_length, drop_app_cons. rewrite length_app in Hf. cbn [length] in Hf.
    rewrite names_comma, occurrences_token in * by done.
    destruct (negb _ && _ && _).
    + rewrite (proj2 (Nat.ltb_lt _ _)) by lia. rewrite IH; [|set_solver|done|lia|rewrite length_app; cbn [length]; lia].
      by rewrite <- app_assoc.
    + rewrite IH by (set_solver || done || lia). done.
  - destruct sel as [|b sel]; [cbn; by rewrite app_nil_r|].
    rewrite comma_or_nul_app by auto. change (at_ _ 0) with b. rewrite (proj2 (Z.eqb_neq b 0)) by set_solver.
    rewrite take_app_length, drop_app_cons. rewrite names_single in * by done.
    rewrite <- (app_nil_r (token _)), occurrences_token in *. change (occurrences name []) with O in *.
    destruct Hstop as [Hs|[Hs|Hs]]; [done|apply last_Some_elem_of in Hs; set_solver|]. destruct rest as [|z after]; [done|]. injection Hs as ->.
    assert (Hend : ∀ l, match_tokens f cap (0 :: after) name uid l = Done l).
    { intros l. destruct f; [cbn [length] in Hf; lia|]. done. }
    destruct (negb _ && _ && _).
    + rewrite (proj2 (Nat.ltb_lt _ _)) by lia. by rewrite Hend.
    + by rewrite Hend, app_nil_r.
Qed.

(** Past the last name the loop goes on behind the string. *)
Lemma match_tokens_overread fuel cap sel name uid uids :
  0 ∉ sel → sel ≠ [] → last sel ≠ Some comma → (S (length sel) < fuel)%nat →
  match_tokens fuel cap (sel ++ [0]) name uid uids = Undefined.
Proof.
  revert sel uids. induction fuel as [|f IH]; intros sel uids H0 Hne Hlast Hf; [lia|]. cbn [match_tokens].
  destruct (first_comma sel) as [(x & r & -> & Hx)|Hn].
  - rewrite <- app_assoc. cbn [app]. rewrite comma_or_nul_app by set_solver.
    replace (at_ (x ++ comma :: r ++ [0]) 0 =? 0) with false.
    2: { destruct x as [|b x]; [done|]. symmetry. apply Z.eqb_neq. change (at_ _ 0) with b. set_solver. }
    rewrite drop_app_cons. rewrite length_app in Hf. cbn [length] in Hf. destruct r as [|b r]; [by rewrite last_snoc in Hlast|].
    rewrite last_app_cons, last_cons_cons in Hlast.
    assert (Hr0 : 0 ∉ b :: r) by (intros Hin; apply H0; set_solver).
    destruct (negb _ && _ && _); [destruct (_ <? _)%nat; [|done]|]; (apply IH; [done|done|done|cbn [length] in *; lia]).
  - destruct sel as [|b sel]; [done|]. rewrite comma_or_nul_app by auto. change (at_ _ 0) with b.
    rewrite (proj2 (Z.eqb_neq b 0)) by set_solver. rewrite drop_app_cons.
    assert (Hstop : ∀ l, match_tokens f cap [] name uid l = Undefined).
    { intros l. destruct f; [cbn [length] in Hf; lia|]. done. }
    destruct (negb _ && _ && _); [destruct (_ <? _)%nat; [|done]|]; apply Hstop.
Qed.

(** ** The users of a selection *)

Section Users.
Context `{plat : Platform} (H : host).

Definition packages (lines : list bytes) : list (bytes * Z) := omap (package_line ∘ cstr) lines.
Definition selected_uids (pk : list (bytes * Z)) (sel : bytes) : list Z :=
  flat_map (λ p, replicate (selected_times sel p.1) p.2) pk.

Lemma match_packages_spec cap sel lines uids rest :
  0 ∉ sel → stops sel rest → (length uids + length (selected_uids (packages lines) sel) <= cap)%nat →
  match_packages cap (sel ++ 0 :: rest) lines uids = Done (uids ++ selected_uids (packages lines) sel).
Proof.
  intros H0 Hstop. revert uids. induction lines as [|l lines IH]; intros uids Hcap; cbn [match_packages].
  { cbn. by rewrite app_nil_r. }
  unfold packages, selected_uids in *. cbn [omap list_omap] in *.
  change ((package_line ∘ cstr) l) with (package_line (cstr l)) in *.
  destruct (package_line (cstr l)) as [[name uid]|]; [|by apply IH].
  cbn [flat_map] in *. rewrite length_app, length_replicate in Hcap. cbn [fst snd] in *.
  rewrite match_tokens_spec; [|done|done|rewrite length_app; cbn [length]; lia|lia].
  rewrite IH; [by rewrite <- app_assoc|]. rewrite length_app, length_replicate. lia.
Qed.

(** A name that is listed once is selected at most as often as it is named. *)
Lemma occurrences_sum (ns l : list bytes) :
  NoDup ns → (sum_list_with (λ n, occurrences n l) ns <= length l)%nat.
Proof.
  intros Hnd. induction l as [|x l IH]; cbn [length].
  - clear. induction ns; cbn [sum_list_with]; [done|]. unfold occurrences at 1. cbn. done.
  - enough (Hone : (sum_list_with (λ n, occurrences n (x :: l)) ns <= S (sum_list_with (λ n, occurrences n l) ns))%nat) by lia.
    assert (Hnot : ∀ ns, x ∉ ns → sum_list_with (λ n, occurrences n (x :: l)) ns = sum_list_with (λ n, occurrences n l) ns).
    { clear. induction ns as [|n ns IH]; intros Hx; cbn [sum_list_with]; [done|]. rewrite IH by set_solver.
      unfold occurrences. rewrite filter_cons_False by set_solver. done. }
    clear IH. induction Hnd as [|n ns Hn Hnd IH]; cbn [sum_list_with]; [lia|].
    destruct (decide (n = x)) as [->|Hnx].
    + rewrite Hnot by done. unfold occurrences at 1. rewrite filter_cons_True by done. cbn [length]. fold (occurrences x l). lia.
    + unfold occurrences at 1. rewrite filter_cons_False by done. fold (occurrences n l). lia.
Qed.

Lemma selected_uids_length pk sel :
  NoDup pk.*1 → (length (selected_uids pk sel) <= length (names sel))%nat.
Proof.
  intros Hnd. etrans; [|by apply (occurrences_sum pk.*1)]. clear Hnd.
  induction pk as [|[n u] pk IH]; cbn [selected_uids flat_map]; [done|]. csimpl.
  rewrite length_app, length_replicate. cbn [fst]. unfold selected_times at 1. unfold selected_uids in IH. lia.
Qed.

Lemma count_selected_string c sel after :
  0 ∉ c :: sel →
  count_selected (length ((c :: sel) ++ 0 :: after)) 1 ((c :: sel) ++ 0 :: after) = Done (2 + commas sel)%nat.
Proof.
  intros H0. cbn [app]. rewrite count_selected_spec; [done|set_solver|]. cbn [length]. rewrite length_app. cbn [length]. lia.
Qed.

Lemma get_uid_list_stops sel lines s :
  sel ≠ [] → 0 ∉ sel → stops sel (heap_after H) → fopen_read H (str "/data/system/packages.list") = inr lines →
  NoDup (packages lines).*1 →
  ∃ k, get_uid_list H (Some sel) s = (Done (qsort_uids (selected_uids (packages lines) sel) ++ replicate (S k) 0), s).
Proof.
  intros Hne H0 Hstop Hf Hnd. destruct sel as [|c sel]; [done|].
  pose proof (names_length c sel) as Hn. pose proof (selected_uids_length (packages lines) (c :: sel) Hnd) as Hlen.
  unfold get_uid_list. change ([0] ++ heap_after H) with (0 :: heap_after H). rewrite Q_bind_eq. unfold lift at 1.
  rewrite count_selected_string, Hf by done. rewrite Q_bind_eq. unfold lift.
  rewrite (match_packages_spec (2 + commas sel) (c :: sel) lines [] (heap_after H) H0 Hstop) by (cbn [length]; lia).
  cbn [app]. destruct (2 + commas sel - length (selected_uids (packages lines) (c :: sel)))%nat as [|k] eqn:Ek; [lia|].
  exists k. done.
Qed.

(** When the loop does not stop and nothing behind the string may be read, it runs into that for the first package of the system. *)
Lemma get_uid_list_overread sel lines s :
  sel ≠ [] → 0 ∉ sel → last sel ≠ Some comma → heap_after H = [] →
  fopen_read H (str "/data/system/packages.list") = inr lines → packages lines ≠ [] → get_uid_list H (Some sel) s = (Undefined, s).
Proof.
  intros Hne H0 Hlast Hafter Hf Hpk. destruct sel as [|c sel]; [done|]. unfold get_uid_list. rewrite Hafter. change ([0] ++ []) with [0].
  rewrite Q_bind_eq. unfold lift at 1. rewrite count_selected_string, Hf, Q_bind_eq by done. unfold lift.
  enough (match_packages (2 + commas sel) ((c :: sel) ++ [0]) lines [] = Undefined) as -> by done.
  clear Hf. induction lines as [|l lines IH]; [done|]. cbn [match_packages].
  unfold packages in *. cbn [omap list_omap] in *. change ((package_line ∘ cstr) l) with (package_line (cstr l)) in *.
  destruct (package_line (cstr l)) as [[name uid]|]; [|by apply IH].
  rewrite match_tokens_overread; [done..|]. rewrite length_app. cbn [length]. lia.
Qed.
End Users.

(** ** Ranges of users *)

(** ndc answers every command, with no error. *)
Definition ndc_works `{Platform} (H : host) : Prop :=
  ∀ t c, ∃ l ls e, popen_read H t (str "ndc " ++ c) = inr (l :: ls, e) ∧ ¬ 400 <= atoi (cstr l) < 600.

Definition range_text (r : Z * Z) : bytes :=
  if r.1 =? r.2 then printf_u r.1 else printf_u r.1 ++ str "-" ++ printf_u r.2.
Definition users_cmd (netid : Z) (chunk : list bytes) : bytes :=
  str "ndc network users add " ++ printf_u netid ++ str " " ++ default [] (joined (str " ") chunk).

(** The users between the excluded ones, from [start] on. *)
Fixpoint gaps (start : Z) (uids : list Z) : list (Z * Z) :=
  match uids with
  | [] => []
  | u :: us => (if start <=? u - 1 then [(start, u - 1)] else []) ++ gaps (u + 1) us
  end.
Definition last_start (start : Z) (uids : list Z) : Z := match last uids with Some u => u + 1 | None => start end.
Definition excluding (uids : list Z) : list (Z * Z) :=
  gaps 0 uids ++ (if last_start 0 uids <? 99999 then [(last_start 0 uids, 99999)] else []).

Definition covers (rs : list (Z * Z)) (x : Z) : Prop := ∃ r, r ∈ rs ∧ r.1 <= x <= r.2.

Lemma covers_app rs rs' x : covers (rs ++ rs') x ↔ covers rs x ∨ covers rs' x.
Proof. unfold covers. setoid_rewrite elem_of_app. naive_solver. Qed.
Lemma covers_one lo hi x : covers [(lo, hi)] x ↔ lo <= x <= hi.
Proof. unfold covers. setoid_rewrite list_elem_of_singleton. naive_solver. Qed.
Lemma covers_nil x : ¬ covers [] x.
Proof. intros (r & Hr & _). set_solver. Qed.

Lemma gaps_cover start uids x :
  StronglySorted Z.le uids → Forall (λ u, start <= u + 1) uids →
  covers (gaps start uids) x ↔ start <= x ∧ (x ∉ uids) ∧ (∃ u, u ∈ uids ∧ x < u).
Proof.
  intros Hs. revert start. induction Hs as [|u us Hs IH Hu]; intros start Hst; cbn [gaps].
  - split; [by intros ?%covers_nil|]. intros (_ & _ & u & Hu & _). set_solver.
  - apply Forall_cons in Hst as [Hsu Hst]. rewrite covers_app, IH by (eapply Forall_impl; [exact Hu|]; cbn; lia).
    rewrite List.Forall_forall in Hu. setoid_rewrite <- list_elem_of_In in Hu.
    assert (Hone : covers (if start <=? u - 1 then [(start, u - 1)] else []) x ↔ start <= x < u).
    { destruct (Z.leb_spec start (u - 1)); [rewrite covers_one; lia|].
      split; [by intros ?%covers_nil|lia]. }
    rewrite Hone, not_elem_of_cons. setoid_rewrite elem_of_cons. split.
    + intros [Hx|(Hx & Hnin & v & Hv & Hlt)].
      * split_and!; [lia|lia| |exists u; split; [by left|lia]]. intros Hin. apply Hu in Hin. lia.
      * split_and!; [lia|lia|done|]. exists v. auto.
    + intros (Hx & [Hne Hnin] & v & [-> |Hv] & Hlt); [left; lia|].
      destruct (Z.lt_ge_cases x u); [left; lia|right]. split_and!; [lia|done|]. eauto.
Qed.

Lemma last_start_spec start uids :
  StronglySorted Z.le uids → ∀ u, u ∈ uids → u < last_start start uids.
Proof.
  unfold last_start. destruct uids as [|v us _] using rev_ind; [set_solver|].
  rewrite last_snoc. intros Hs u Hu. apply elem_of_app in Hu as [Hu|Hu].
  - enough (u <= v) by lia. eapply (StronglySorted_app_1_elem_of _ _ _ u v Hs); set_solver.
  - assert (u = v) as -> by set_solver. lia.
Qed.

Lemma excluding_covers uids x :
  StronglySorted Z.le uids → Forall (λ u, 0 < u <= 99999) uids →
  covers (excluding uids) x ↔ 0 <= x <= 99999 ∧ (x ∉ uids) ∧ ¬ (x = 99999 ∧ 99998 ∈ uids).
Proof.
  intros Hs Hu. pose proof Hu as Hu'. rewrite List.Forall_forall in Hu. setoid_rewrite <- list_elem_of_In in Hu.
  unfold excluding. rewrite covers_app, gaps_cover; [|done|eapply Forall_impl; [exact Hu'|]; cbn; lia].
  pose proof (last_start_spec 0 uids Hs) as Hls.
  assert (Hlast : last_start 0 uids = 0 ∧ uids = [] ∨ last_start 0 uids - 1 ∈ uids).
  { unfold last_start. destruct uids as [|v us _] using rev_ind; [by left|right]. rewrite last_snoc.
    replace (v + 1 - 1) with v by lia. set_solver. }
  assert (Hend : covers (if last_start 0 uids <? 99999 then [(last_start 0 uids, 99999)] else []) x ↔
                 last_start 0 uids < 99999 ∧ last_start 0 uids <= x <= 99999).
  { destruct (Z.ltb_spec (last_start 0 uids) 99999); [rewrite covers_one; lia|]. split; [by intros ?%covers_nil|lia]. }
  rewrite Hend. split.
  - intros [(Hx & Hnin & u & Hin & Hlt)|[Hlt Hx]].
    + pose proof (Hu u Hin). split_and!; [lia|lia|done|lia].
    + assert (0 <= last_start 0 uids) by (destruct Hlast as [[-> _]|Hin]; [lia|apply Hu in Hin; lia]).
      split_and!; [lia|lia| |]; [intros Hin%Hls; lia|intros [_ Hin%Hls]; lia].
  - intros (Hx & Hnin & Hexc). destruct (Z.lt_ge_cases x (last_start 0 uids)) as [Hlt|Hge].
    + left. split_and!; [lia|done|]. destruct Hlast as [[Hz _]|Hin]; [lia|].
      exists (last_start 0 uids - 1). split; [done|].
      destruct (decide (x = last_start 0 uids - 1)) as [->|]; [done|lia].
    + right. split; [|lia]. destruct Hlast as [[-> _]|Hin]; [lia|].
      pose proof (Hu _ Hin). destruct (decide (last_start 0 uids = 99999)) as [E|]; [|destruct (decide (last_start 0 uids = 100000)); lia].
      exfalso. apply Hexc. split; [lia|]. by replace 99998 with (last_start 0 uids - 1) by lia.
Qed.

(** ** The commands *)

Section Ranges.
Context `{plat : Platform} (H : host) (Hndc : ndc_works H) (netid : Z).

Lemma cndc_works args s :
  ∃ s', cndc H args s = (Done tt, s') ∧ trace s' = trace s ++ [Popen (str "ndc " ++ args)].
Proof.
  unfold cndc. change (concat [str "ndc "; args]) with (str "ndc " ++ args ++ []). rewrite app_nil_r. cbv zeta.
  rewrite Q_bind_eq. cbn [printf]. change (vcmd_ret H) with (cmd_ret H). rewrite Q_bind_eq, cmd_ret_run. cbn [trace].
  destruct (Hndc (trace s) args) as (l & ls & e & -> & Hcode). cbn [next_line mret Q_ret].
  replace ((400 <=? atoi (cstr l)) && (atoi (cstr l) <? 600)) with false by (symmetry; lia). eexists. done.
Qed.

(** After [T] ranges from the state [s0]: the full commands, and what is left. *)
Definition filled (s0 : qstate) (T : list bytes) (st : option bytes * Z) (s : qstate) : Prop :=
  ∃ chunks rem, T = mjoin chunks ++ rem ∧ Forall (λ c, length c = 18%nat) chunks ∧ (length rem < 18)%nat ∧
    st = (joined (str " ") rem, Z.of_nat (length T)) ∧
    trace s = trace s0 ++ (Popen ∘ users_cmd netid <$> chunks).

Lemma filled_nil s : filled s [] (None, 0) s.
Proof. exists [], []. split_and!; [done|constructor|cbn; lia|done|]. cbn. by rewrite app_nil_r. Qed.

Lemma mjoin_length (chunks : list (list bytes)) :
  Forall (λ c, length c = 18%nat) chunks → length (mjoin chunks) = (length chunks * 18)%nat.
Proof. induction 1 as [|c cs Hc Hcs IH]; csimpl; [done|]. rewrite length_app. lia. Qed.

Lemma add_range_filled s0 T st s text :
  filled s0 T st s → (length text <= 21)%nat → Z.of_nat (S (length T)) < 2 ^ 32 →
  ∃ st' s', add_range H netid st text s = (Done st', s') ∧ filled s0 (T ++ [text]) st' s'.
Proof.
  intros (chunks & rem & -> & Hfull & Hrem & -> & Htr) Htext HT. unfold add_range, snprintf. cbn [fst snd].
  rewrite take_ge by lia. rewrite length_app, mjoin_length in * by done.
  rewrite u32_small by lia.
  assert (Hjoin : joined (str " ") (rem ++ [text]) = Some (concat_and_free (joined (str " ") rem) (str " ") text)) by apply joined_snoc.
  destruct (Z.eqb_spec ((Z.of_nat (length chunks * 18 + length rem) + 1) mod 18) 0) as [Hz|Hz].
  - assert (Hr : length rem = 17%nat) by bit_lia.
    rewrite Q_bind_eq. destruct (cndc_works (str "network users add " ++ printf_u netid ++ str " " ++
      concat_and_free (joined (str " ") rem) (str " ") text) s) as (s' & -> & Htr').
    eexists _, s'. split; [reflexivity|]. exists (chunks ++ [rem ++ [text]]), []. split_and!.
    + rewrite join_app. csimpl. by rewrite !app_nil_r, <- app_assoc.
    + apply Forall_app. split; [done|]. apply Forall_singleton. rewrite length_app. cbn [length]. lia.
    + cbn [length]. lia.
    + rewrite !length_app, mjoin_length by done. cbn [length joined]. f_equal. lia.
    + rewrite Htr', Htr, fmap_app, <- app_assoc. csimpl. unfold users_cmd. rewrite Hjoin. done.
  - exists (Some (concat_and_free (joined (str " ") rem) (str " ") text), Z.of_nat (length chunks * 18 + length rem) + 1), s.
    split; [done|]. exists chunks, (rem ++ [text]). split_and!; [by rewrite <- app_assoc|done| | |done].
    + rewrite length_app. cbn [length]. bit_lia.
    + rewrite Hjoin, !length_app, mjoin_length by done. cbn [length]. f_equal. lia.
Qed.

Lemma printf_uid_length n : 0 <= n < 2 ^ 32 → (length (printf_u n) <= 10)%nat.
Proof. intros Hn. apply printf_u_length. cbn. lia. Qed.

Lemma excluded_loop_filled s0 uids rest start T st s :
  Forall (λ u, 0 < u < 2 ^ 32 - 1) uids → 0 <= start < 2 ^ 32 → Z.of_nat (length T + length uids) < 2 ^ 32 →
  filled s0 T st s →
  ∃ st' s', excluded_loop H netid (uids ++ 0 :: rest) start st s = (Done (last_start start uids, st'), s') ∧
    filled s0 (T ++ (range_text <$> gaps start uids)) st' s'.
Proof.
  intros Hu. revert start T st s. induction Hu as [|u us Hu Hus IH]; intros start T st s Hst HT Hfill.
  { exists st, s. split; [done|]. csimpl. by rewrite app_nil_r. }
  cbn [app excluded_loop]. rewrite (proj2 (Z.eqb_neq u 0)) by lia. rewrite !u32_small by lia.
  assert (Hlast : last_start (u + 1) us = last_start start (u :: us)).
  { unfold last_start. rewrite last_cons. by destruct (last us). }
  cbn [length] in HT. cbn [gaps]. rewrite Q_bind_eq.
  destruct (Z.ltb_spec (u - 1) start) as [Hlt|Hge].
  - rewrite (proj2 (Z.leb_gt start (u - 1))) by lia. cbn [mret Q_ret app].
    destruct (IH (u + 1) T st s) as (st' & s' & Hrun & Hf); [lia|lia|done|]. exists st', s'. by rewrite Hrun, Hlast.
  - rewrite (proj2 (Z.leb_le start (u - 1))) by lia.
    assert (Hrange : (if start =? u - 1 then add_range H netid st (printf_u start)
                      else add_range H netid st (printf_u start ++ str "-" ++ printf_u (u - 1))) =
                     add_range H netid st (range_text (start, u - 1))).
    { unfold range_text. cbn [fst snd]. by destruct (start =? u - 1). }
    rewrite Hrange.
    destruct (add_range_filled s0 T st s (range_text (start, u - 1)) Hfill) as (st1 & s1 & -> & Hf1); [|lia|].
    { unfold range_text. cbn [fst snd]. pose proof (printf_uid_length start ltac:(lia)). pose proof (printf_uid_length (u - 1) ltac:(lia)).
      destruct (start =? u - 1); rewrite ?length_app; [lia|]. change (length (str "-")) with 1%nat. lia. }
    destruct (IH (u + 1) (T ++ [range_text (start, u - 1)]) st1 s1) as (st' & s' & Hrun & Hf);
      [lia|rewrite length_app; cbn [length]; lia|done|].
    exists st', s'. rewrite Hrun, Hlast. split; [done|]. rewrite fmap_app. csimpl. by rewrite <- app_assoc in Hf.
Qed.

(** The commands of a list of ranges: at most 18 in each. *)
Definition adds_users (s s' : qstate) (T : list bytes) : Prop :=
  ∃ chunks, mjoin chunks = T ∧ Forall (λ c, (1 <= length c <= 18)%nat) chunks ∧
    trace s' = trace s ++ (Popen ∘ users_cmd netid <$> chunks).

(** What is left becomes the last command. *)
Lemma filled_adds s0 T chunks rem (s : qstate) :
  T = mjoin chunks ++ rem → Forall (λ c, length c = 18%nat) chunks → (length rem <= 18)%nat →
  trace s = trace s0 ++ (Popen ∘ users_cmd netid <$> chunks) →
  ∃ s', match joined (str " ") rem with
        | Some r => cndc H (str "network users add " ++ printf_u netid ++ str " " ++ r)
        | None => mret tt
        end s = (Done tt, s') ∧ adds_users s0 s' T.
Proof.
  intros -> Hfull Hrem Htr. assert (Hle : Forall (λ c, (1 <= length c <= 18)%nat) chunks).
  { eapply Forall_impl; [exact Hfull|]. cbn. lia. }
  destruct rem as [|t rem]; cbn [joined].
  - exists s. split; [done|]. exists chunks. by rewrite app_nil_r.
  - edestruct cndc_works as (s' & -> & Htr'). exists s'. split; [done|]. exists (chunks ++ [t :: rem]). split_and!.
    + rewrite join_app. csimpl. by rewrite app_nil_r.
    + apply Forall_app. split; [done|]. apply Forall_singleton. cbn [length] in *. lia.
    + rewrite Htr', Htr, fmap_app, <- app_assoc. done.
Qed.

Lemma set_users_excluding excluded uids rest s :
  get_uid_list H excluded s = (Done (uids ++ 0 :: rest), s) →
  Forall (λ u, 0 < u < 2 ^ 32 - 1) uids → Z.of_nat (length uids) < 2 ^ 32 →
  ∃ s', set_users H netid excluded None s = (Done tt, s') ∧ adds_users s s' (range_text <$> excluding uids).
Proof.
  intros Hget Hu Hlen.
  destruct (excluded_loop_filled s uids rest 0 [] (None, 0) s) as (st & s1 & Hrun & chunks & rem & HT & Hfull & Hrem & -> & Htr);
    [done|lia|done|apply filled_nil|].
  cbn [app] in HT. set (start := last_start 0 uids) in *.
  assert (Heq : set_users H netid excluded None s =
    match (if start <? 99999 then Some (concat_and_free (joined (str " ") rem) (str " ") (snprintf 22 (printf_u start ++ str "-99999")))
           else joined (str " ") rem) with
    | Some r => cndc H (str "network users add " ++ printf_u netid ++ str " " ++ r)
    | None => mret tt
    end s1).
  { unfold set_users. destruct excluded; rewrite Q_bind_eq, Q_bind_eq, Hget, Q_bind_eq, Hrun; done. }
  rewrite Heq. unfold excluding. rewrite fmap_app. fold start. rewrite HT.
  destruct (Z.ltb_spec start 99999) as [Hlt|Hge].
  - assert (Hst : 0 <= start < 2 ^ 32).
    { split; [|lia]. unfold start, last_start. destruct (last uids) eqn:E; [|done].
      apply last_Some_elem_of in E. eapply Forall_forall in Hu; [|exact E]. cbn in Hu. lia. }
    pose proof (printf_uid_length start Hst). unfold snprintf. rewrite take_ge.
    2: { rewrite length_app. change (length (str "-99999")) with 6%nat. lia. }
    pose proof (joined_snoc (str " ") rem (printf_u start ++ str "-99999")) as Hj.
    assert ([range_text (start, 99999)] = [printf_u start ++ str "-99999"]) as Htext.
    { unfold range_text. cbn [fst snd]. by rewrite (proj2 (Z.eqb_neq start 99999)) by lia. }
    csimpl. rewrite Htext. rewrite <- app_assoc.
    edestruct (filled_adds s _ chunks (rem ++ [printf_u start ++ str "-99999"]) s1 eq_refl) as (s' & Hs' & Hadds); [done| |done|].
    { rewrite length_app. cbn [length]. lia. }
    rewrite Hj in Hs'. eauto.
  - csimpl. rewrite app_nil_r. apply (filled_adds s _ chunks rem); [done|done|lia|done].
Qed.

Lemma included_loop_filled s0 uids rest T st s :
  Forall (λ u, 0 < u < 2 ^ 32 - 1) uids → Z.of_nat (length T + length uids) < 2 ^ 32 → filled s0 T st s →
  ∃ st' s', included_loop H netid (uids ++ 0 :: rest) st s = (Done st', s') ∧ filled s0 (T ++ (printf_u <$> uids)) st' s'.
Proof.
  intros Hu. revert T st s. induction Hu as [|u us Hu Hus IH]; intros T st s HT Hfill.
  { exists st, s. split; [done|]. csimpl. by rewrite app_nil_r. }
  cbn [app included_loop]. rewrite (proj2 (Z.eqb_neq u 0)) by lia. cbn [length] in HT. rewrite Q_bind_eq.
  pose proof (printf_uid_length u ltac:(lia)).
  destruct (add_range_filled s0 T st s (printf_u u) Hfill) as (st1 & s1 & -> & Hf1); [lia|lia|].
  destruct (IH (T ++ [printf_u u]) st1 s1) as (st' & s' & Hrun & Hf); [rewrite length_app; cbn [length]; lia|done|].
  exists st', s'. split; [done|]. csimpl. by rewrite <- app_assoc in Hf.
Qed.

Lemma set_users_including sel uids rest s :
  get_uid_list H (Some sel) s = (Done (uids ++ 0 :: rest), s) →
  Forall (λ u, 0 < u < 2 ^ 32 - 1) uids → Z.of_nat (length uids) < 2 ^ 32 →
  ∃ s', set_users H netid None (Some sel) s = (Done tt, s') ∧ adds_users s s' (printf_u <$> uids).
Proof.
  intros Hget Hu Hlen.
  destruct (included_loop_filled s uids rest [] (None, 0) s) as (st & s1 & Hrun & chunks & rem & HT & Hfull & Hrem & -> & Htr);
    [done|done|apply filled_nil|].
  unfold set_users. rewrite Q_bind_eq, Q_bind_eq, Hget, Q_bind_eq, Hrun. cbn [mret Q_ret fst].
  apply (filled_adds s _ chunks rem); [done|done|lia|done].
Qed.
End Ranges.

(** ** The users in order *)

#[local] Instance uid_le_total : Total uid_le.
Proof. intros a b. unfold uid_le, compare_uid, s32. pow_norm. destruct (Z.le_gt_cases ((a - b + 2147483648) mod 4294967296) 2147483648); [left; lia|right]. bit_lia. Qed.

Lemma qsort_uids_perm l : qsort_uids l ≡ₚ l.
Proof. apply merge_sort_Permutation. Qed.
Lemma qsort_uids_sorted l : Forall (λ u, 0 < u <= 99999) l → StronglySorted Z.le (qsort_uids l).
Proof.
  intros Hl. assert (Hl' : Forall (λ u, 0 < u <= 99999) (qsort_uids l)) by by rewrite qsort_uids_perm.
  pose proof (Sorted_merge_sort uid_le l) as Hs. fold (qsort_uids l) in Hs.
  apply Sorted_StronglySorted; [intros ???; lia|].
  induction Hs as [|u us Hs IH Hhd]; [constructor|]. apply Forall_cons in Hl' as [Hu Hus].
  constructor; [by apply IH|]. destruct Hhd as [|v us Huv]; constructor.
  apply Forall_cons in Hus as [Hv _]. unfold uid_le, compare_uid, s32 in Huv. pow_norm. bit_lia.
Qed.

Lemma commas_length s : (commas s <= length s)%nat.
Proof. unfold commas. apply length_filter. Qed.

Lemma package_line_uid `{Platform} line p : package_line line = Some p → 0 < p.2.
Proof.
  unfold package_line. destruct (strchr_split line 32) as [[n r]|]; [|done]. cbv zeta.
  destruct (strtoul 10 _) as [v e]. destruct (Z.eqb_spec (u32 v) 0); [done|]. destruct (_ || _); [done|].
  intros [= <-]. cbn. pose proof (u32_range v). lia.
Qed.

Lemma selected_uids_range `{Platform} lines sel :
  Forall (λ p, p.2 <= 99999) (packages lines) → Forall (λ u, 0 < u <= 99999) (selected_uids (packages lines) sel).
Proof.
  intros Hp. apply Forall_forall. intros u Hu. unfold selected_uids in Hu.
  apply list_elem_of_In, in_flat_map in Hu as (p & Hin & Hrep). apply list_elem_of_In in Hin.
  apply list_elem_of_In, elem_of_replicate in Hrep as [-> _].
  eapply Forall_forall in Hp; [|exact Hin]. apply list_elem_of_omap in Hin as (l & _ & Hl%package_line_uid). cbn in Hp. lia.
Qed.

(** The commands that cover the users from 0 to 99999 but [uids]; user 99999 is also left out when 99998 is one of them. *)
Definition covers_all_but (netid : Z) (s s' : qstate) (uids : list Z) : Prop :=
  ∃ ranges, adds_users netid s s' (range_text <$> ranges) ∧
    ∀ x, covers ranges x ↔ 0 <= x <= 99999 ∧ (x ∉ uids) ∧ ¬ (x = 99999 ∧ 99998 ∈ uids).

(** C17: the users of a tunnel, when ndc takes every command, the list of packages can be read, names each package once and has no user
    above 99999.  Without applications the commands [set_users] gives to ndc, of at most 18 ranges each, cover the users 0 to 99999.
    For a selection of applications the code reads the byte behind the string, unless the string ends in a comma.  When it ends so or
    that byte is zero, the commands cover exactly the users from 0 to 99999 that are not those of excluded applications,
    with one exception: when user 99998 is excluded, user 99999 is left out too; and for included applications they name exactly their
    users, in order.  When nothing may be read behind the string, the behaviour is undefined as soon as there is a package. *)
Theorem set_users_ranges `{plat : Platform} (H : host) netid sel lines s :
  ndc_works H → sel ≠ [] → 0 ∉ sel → Z.of_nat (length sel) < 2 ^ 31 →
  fopen_read H (str "/data/system/packages.list") = inr lines → NoDup (packages lines).*1 →
  Forall (λ p, p.2 <= 99999) (packages lines) →
  let uids := selected_uids (packages lines) sel in
  (∃ s', set_users H netid None None s = (Done tt, s') ∧ covers_all_but netid s s' []) ∧
  (last sel = Some comma ∨ head (heap_after H) = Some 0 →
     (∃ s', set_users H netid (Some sel) None s = (Done tt, s') ∧ covers_all_but netid s s' uids) ∧
     (∃ s', set_users H netid None (Some sel) s = (Done tt, s') ∧ adds_users netid s s' (printf_u <$> qsort_uids uids))) ∧
  (last sel ≠ Some comma → heap_after H = [] → packages lines ≠ [] →
     set_users H netid (Some sel) None s = (Undefined, s) ∧ set_users H netid None (Some sel) s = (Undefined, s)).
Proof.
  intros Hndc Hne H0 Hlen Hf Hnd Hp uids. split_and!.
  - destruct (set_users_excluding H Hndc netid None [] [] s) as (s' & Hrun & Hadds); [done..|].
    exists s'. split; [done|]. exists (excluding []). split; [done|]. intros x. by rewrite excluding_covers by constructor.
  - intros Hstop. destruct (get_uid_list_stops H sel lines s) as [k Hget]; [done|done|by right|done|done|]. cbn [replicate] in Hget.
    pose proof (selected_uids_range lines sel Hp) as Hr. fold uids in Hr, Hget.
    assert (Hrq : Forall (λ u, 0 < u <= 99999) (qsort_uids uids)) by by rewrite qsort_uids_perm.
    assert (Hr' : Forall (λ u, 0 < u < 2 ^ 32 - 1) (qsort_uids uids)) by (eapply Forall_impl; [exact Hrq|]; cbn; lia).
    assert (Hshort : Z.of_nat (length (qsort_uids uids)) < 2 ^ 32).
    { rewrite qsort_uids_perm. unfold uids. pose proof (selected_uids_length (packages lines) sel Hnd).
      destruct sel as [|c sel]; [done|]. pose proof (names_length c sel). pose proof (commas_length sel). cbn [length] in *. lia. }
    split; [|by eapply set_users_including].
    edestruct (set_users_excluding H Hndc netid (Some sel) (qsort_uids uids)) as (s' & Hrun & Hadds); [done..|].
    exists s'. split; [done|]. exists (excluding (qsort_uids uids)). split; [done|]. intros x.
    rewrite excluding_covers; [|by apply qsort_uids_sorted|done]. by setoid_rewrite qsort_uids_perm.
  - intros Hlast Hafter Hpk. pose proof (get_uid_list_overread H sel lines s Hne H0 Hlast Hafter Hf Hpk) as Hget.
    unfold set_users. by rewrite !Q_bind_eq, Hget.
Qed.

Lemma set_users_ranges_witness :
  ∃ s', set_users (plat := arm64) (phone []) 5000 (Some (str "com.b,com.a")) None qinit = (Done tt, s') ∧
    covers_all_but 5000 qinit s' [10001; 10005].
Proof.
  refine (proj1 (proj1 (proj2 (set_users_ranges (plat := arm64) (phone []) 5000 (str "com.b,com.a") phone_packages qinit _ _ _ _ _ _ _)) (or_intror eq_refl)));
    [|done|by apply (bool_decide_eq_true _)|vm_compute; reflexivity|done|by apply (bool_decide_eq_true _)..].
  intros t c. exists (str "200 0 success" ++ [10]), [], 0. split; [|vm_compute; intros [H _]; by apply H].
  cbn [phone popen_read]. unfold phone_output. by rewrite bool_decide_eq_true_2.
Defined.
