(* ===== verification/AndroidDnsSpec.v ===== *)
(** * AndroidDnsSpec: name servers, buffers and quotes

    The buffers of [set_dnses] are large enough for any list of names, and what it
    builds in them; and which parts of the commands of [set_dnses] and [set_addr]
    the shell sees outside of quotes. *)

From Stdlib Require Import Ascii String.
From stdpp Require Import base numbers option sets list list_numbers strings.
From S2P Require Import Prelude CLib Regex Quick QuickBinder Android AndroidSpec.
#[local] Open Scope c_scope.

(** ** Tokens fit into the string they come from *)

Definition weight (l : list bytes) : nat := sum_list_with (λ t, S (length t)) l.

Lemma strtok_from_weight delims s tok : (weight (strtok_from delims s tok) <= length s + length tok + 1)%nat.
Proof.
  revert tok. induction s as [|c s IH]; intros tok; cbn [strtok_from length].
  - destruct (is_end tok); cbn; lia.
  - destruct (has_char delims c); [destruct (is_end tok)|].
    + specialize (IH []). cbn [length] in IH. lia.
    + specialize (IH []). cbn [weight sum_list_with length] in *. unfold weight in IH. lia.
    + specialize (IH (tok ++ [c])). rewrite length_app in IH. cbn [length] in IH. lia.
Qed.
Lemma strtok_from_nonempty delims s tok : Forall (λ t, t ≠ []) (strtok_from delims s tok).
Proof.
  revert tok. induction s as [|c s IH]; intros tok; cbn [strtok_from].
  - destruct tok; cbn [is_end]; auto.
  - destruct (has_char delims c); [destruct tok; cbn [is_end]|]; auto.
Qed.

Lemma weight_app l k : weight (l ++ k) = (weight l + weight k)%nat.
Proof. apply sum_list_with_app. Qed.

(** ** What is collected *)

Definition quoted (len : nat) (t : bytes) : bytes := snprintf (len + 3) ([39] ++ t ++ [39; 32]).
Definition args_of (len : nat) (l : list bytes) : dns_args := {|
  shell_arglist := mjoin (quoted len <$> l);
  function_arglist := default [] (joined (str ", ") l);
  name_list := l;
|}.

Lemma quoted_length len t : (length (quoted len t) <= length t + 3 ∧ length (quoted len t) <= len + 2)%nat.
Proof.
  unfold quoted, snprintf. rewrite length_take. cbn [app length]. rewrite length_app. cbn [length]. lia.
Qed.
Lemma shell_length len l : Forall (λ t, t ≠ []) l → (length (mjoin (quoted len <$> l)) <= 2 * weight l)%nat.
Proof.
  induction 1 as [|t l Ht Hl IH]; csimpl; [lia|]. rewrite length_app. pose proof (quoted_length len t).
  unfold weight in *. destruct t; [done|]. cbn [length] in *. lia.
Qed.
Lemma joined_length l : (length (default [] (joined (str ", ") l)) + 1 <= 2 * weight l)%nat ∨ l = [].
Proof.
  destruct l as [|t l]; [by right|left]. unfold weight. cbn [joined default sum_list_with].
  enough (length (mjoin ((λ w, str ", " ++ w) <$> l)) <= 2 * sum_list_with (λ t, S (length t)) l)%nat.
  { cbn [default from_option id]. rewrite length_app. lia. }
  induction l as [|w l IH]; [cbn; lia|].
  change (length ((str ", " ++ w) ++ mjoin ((λ w, str ", " ++ w) <$> l)) <= 2 * (S (length w) + sum_list_with (λ t, S (length t)) l))%nat.
  rewrite !length_app. change (length (str ", ")) with 2%nat. lia.
Qed.

Lemma add_dns_ok len count l t :
  (1 <= len)%nat → Forall (λ t, t ≠ []) (l ++ [t]) → (weight (l ++ [t]) <= len + 1)%nat → (length l < count)%nat →
  add_dns len count (args_of len l) t = Done (args_of len (l ++ [t])).
Proof.
  intros Hlen Hne Hw Hcount. pose proof (shell_length len (l ++ [t]) Hne) as Hs.
  pose proof (joined_length (l ++ [t])) as Hj. destruct Hj as [Hj|Hj]; [|by destruct l].
  assert (Ht : (S (length t) + weight l <= len + 1)%nat) by (rewrite weight_app in Hw; unfold weight in *; cbn [sum_list_with] in Hw; lia).
  rewrite fmap_app, join_app in Hs. csimpl in Hs. rewrite app_nil_r in Hs. rewrite joined_snoc in Hj. cbn [default from_option id] in Hj.
  unfold add_dns, strncat. cbn [args_of shell_arglist function_arglist name_list]. fold (quoted len t).
  rewrite (take_ge (quoted len t)) by (pose proof (quoted_length len t); lia).
  rewrite (proj2 (Nat.ltb_lt (length _) _)) by lia.
  assert (Hfun : default [] (joined (str ", ") l) ++ take (len * 4 - 1)
            (snprintf (len + 2) (if is_end (default [] (joined (str ", ") l)) then t else str ", " ++ t)) =
          concat_and_free (joined (str ", ") l) (str ", ") t).
  { unfold snprintf. destruct l as [|u l].
    - cbn [joined default from_option id is_end app concat_and_free]. rewrite (take_ge t), take_ge by lia. done.
    - apply Forall_cons in Hne as [Hu _]. cbn [joined default from_option id concat_and_free]. unfold weight in Ht. cbn [sum_list_with] in Ht.
      destruct u as [|c u]; [done|]. cbn [app is_end length] in *. rewrite (take_ge (44 :: 32 :: t)) by (cbn [length]; lia).
      unfold concat. csimpl. rewrite app_nil_r, take_ge by (cbn [length]; lia). done. }
  rewrite Hfun. rewrite (proj2 (Nat.ltb_lt (length _) _)) by lia.
  rewrite (proj2 (Nat.ltb_lt (length l) count)) by lia.
  unfold args_of. rewrite fmap_app, join_app, joined_snoc. csimpl. by rewrite app_nil_r.
Qed.

Definition usable (l : list bytes) : list bytes := filter (λ t, unquotable t = false) l.
Definition addresses (l : list bytes) : list bytes := filter (λ t, is_ip t = true) (usable l).
Definition searches (l : list bytes) : list bytes := filter (λ t, is_ip t = false) (usable l).

Lemma weight_filter (P : bytes → Prop) `{∀ x, Decision (P x)} l : (weight (filter P l) <= weight l)%nat.
Proof.
  induction l as [|t l IH]; [done|]. rewrite filter_cons. unfold weight in *. case_decide; cbn [sum_list_with]; lia.
Qed.

Lemma collect_dns_ok len nd ns done tokens :
  (1 <= len)%nat → Forall (λ t, t ≠ []) (done ++ tokens) → (weight (done ++ tokens) <= len + 1)%nat →
  nd = length (addresses (done ++ tokens)) → ns = length (searches (done ++ tokens)) →
  collect_dns len nd ns tokens (args_of len (addresses done)) (args_of len (searches done)) =
  Done (args_of len (addresses (done ++ tokens)), args_of len (searches (done ++ tokens))).
Proof.
  intros Hlen. revert done. induction tokens as [|t tokens IH]; intros done Hne Hw Hnd Hns; cbn [collect_dns].
  { by rewrite app_nil_r. }
  replace (done ++ t :: tokens) with ((done ++ [t]) ++ tokens) in * by by rewrite <- app_assoc.
  assert (Hsub : ∀ P `{∀ x : bytes, Decision (P x)}, Forall (λ t, t ≠ []) (filter P (usable (done ++ [t]))) ∧
                   (weight (filter P (usable (done ++ [t]))) <= len + 1)%nat).
  { intros P HP. split.
    - apply Forall_app in Hne as [Hne _]. eapply Forall_forall. intros x Hx.
      apply list_elem_of_filter in Hx as [_ Hx]. apply list_elem_of_filter in Hx as [_ Hx]. by eapply Forall_forall in Hne.
    - rewrite weight_app in Hw. pose proof (weight_filter P (usable (done ++ [t]))) as H1.
      pose proof (weight_filter (λ t, unquotable t = false) (done ++ [t])) as H2. unfold usable in *. lia. }
  destruct (unquotable t) eqn:Hq.
  - assert (Hu : usable (done ++ [t]) = usable done).
    { unfold usable. rewrite filter_app, filter_cons_False, filter_nil, app_nil_r by congruence. done. }
    rewrite <- IH by done. unfold addresses, searches. by rewrite Hu.
  - assert (Hu : usable (done ++ [t]) = usable done ++ [t]).
    { unfold usable. by rewrite filter_app, filter_cons_True, filter_nil by done. }
    unfold addresses, searches in *. rewrite Hu in Hsub.
    assert (Hgrow : ∀ (P : bytes → Prop) `{∀ x : bytes, Decision (P x)}, P t →
      (length (filter P (usable done)) < length (filter P (usable ((done ++ [t]) ++ tokens))))%nat).
    { intros P HP Ht. unfold usable. rewrite (filter_app _ (done ++ [t])), (filter_app P (filter _ (done ++ [t]))), length_app.
      fold (usable (done ++ [t])). rewrite Hu. rewrite filter_app, filter_cons_True, length_app by done. cbn [length]. fold (usable done). lia. }
    destruct (is_ip t) eqn:Hip.
    + destruct (Hsub (λ t, is_ip t = true) _) as [Hn1 Hw1]. rewrite filter_app, filter_cons_True, filter_nil in Hn1, Hw1 by done.
      rewrite add_dns_ok; [|done|done|done|subst nd; by apply Hgrow].
      rewrite <- IH by done. rewrite Hu, !filter_app, (filter_cons_True (λ t, is_ip t = true)), (filter_cons_False (λ t, is_ip t = false)) by congruence.
      rewrite !filter_nil, app_nil_r. done.
    + destruct (Hsub (λ t, is_ip t = false) _) as [Hn1 Hw1]. rewrite filter_app, filter_cons_True, filter_nil in Hn1, Hw1 by done.
      rewrite add_dns_ok; [|done|done|done|subst ns; by apply Hgrow].
      rewrite <- IH by done. rewrite Hu, !filter_app, (filter_cons_True (λ t, is_ip t = false)), (filter_cons_False (λ t, is_ip t = true)) by congruence.
      rewrite !filter_nil, app_nil_r. done.
Qed.

(** ** Quotes

    The characters of a command that the shell reads outside of single quotes. *)
Fixpoint outside (q : bool) (s : bytes) : bytes :=
  match s with
  | [] => []
  | c :: s' => if c =? 39 then outside (negb q) s' else if q then outside q s' else c :: outside q s'
  end.
Fixpoint quote_after (q : bool) (s : bytes) : bool :=
  match s with
  | [] => q
  | c :: s' => quote_after (if c =? 39 then negb q else q) s'
  end.

Lemma outside_app q x y : outside q (x ++ y) = outside q x ++ outside (quote_after q x) y.
Proof.
  revert q. induction x as [|c x IH]; intros q; cbn [app outside quote_after]; [done|].
  destruct (c =? 39); [apply IH|]. destruct q; cbn [app]; by rewrite IH.
Qed.
Lemma quote_after_app q x y : quote_after q (x ++ y) = quote_after (quote_after q x) y.
Proof. revert q. induction x as [|c x IH]; intros q; cbn [app quote_after]; [done|]. apply IH. Qed.

Lemma quote_after_plain q x : 39 ∉ x → quote_after q x = q.
Proof.
  revert q. induction x as [|c x IH]; intros q Hx; cbn [quote_after]; [done|].
  rewrite (proj2 (Z.eqb_neq c 39)) by set_solver. apply IH. set_solver.
Qed.
Lemma outside_plain x : 39 ∉ x → outside false x = x.
Proof.
  induction x as [|c x IH]; intros Hx; cbn [outside]; [done|].
  rewrite (proj2 (Z.eqb_neq c 39)) by set_solver. by rewrite IH by set_solver.
Qed.
Lemma inside_plain x : 39 ∉ x → outside true x = [].
Proof.
  induction x as [|c x IH]; intros Hx; cbn [outside]; [done|].
  rewrite (proj2 (Z.eqb_neq c 39)) by set_solver. by rewrite IH by set_solver.
Qed.

(** A quoted word, from outside and from inside of quotes. *)
Lemma outside_quoted x : 39 ∉ x → outside false ([39] ++ x ++ [39]) = [] ∧ quote_after false ([39] ++ x ++ [39]) = false.
Proof.
  intros Hx. cbn [app outside quote_after]. change (39 =? 39) with true. cbn [negb].
  by rewrite outside_app, quote_after_app, inside_plain, !quote_after_plain by done.
Qed.
Lemma outside_requoted x : 39 ∉ x → outside true ([39] ++ x ++ [39]) = x ∧ quote_after true ([39] ++ x ++ [39]) = true.
Proof.
  intros Hx. cbn [app outside quote_after]. change (39 =? 39) with true. cbn [negb].
  rewrite outside_app, quote_after_app, outside_plain, !quote_after_plain by done. cbn. by rewrite app_nil_r.
Qed.

Definition nospace (s : bytes) : bytes := filter (λ c, c ≠ 32) s.
Lemma nospace_app x y : nospace (x ++ y) = nospace x ++ nospace y.
Proof. apply filter_app. Qed.
Lemma nospace_plain x : 32 ∉ x → nospace x = x.
Proof.
  unfold nospace. induction x as [|c x IH]; intros Hx; [done|]. rewrite filter_cons_True by set_solver. by rewrite IH by set_solver.
Qed.

Lemma quoted_cases len t : (length t <= len)%nat → ∃ sp, (sp = [32] ∨ sp = []) ∧ quoted len t = ([39] ++ t ++ [39]) ++ sp.
Proof.
  intros Ht. unfold quoted, snprintf. destruct (decide (length t < len)%nat).
  - exists [32]. split; [by left|]. rewrite take_ge; [by rewrite <- !app_assoc|].
    cbn [app length]. rewrite length_app. cbn [length]. lia.
  - exists []. split; [by right|]. rewrite app_nil_r.
    replace ([39] ++ t ++ [39; 32]) with (([39] ++ t ++ [39]) ++ [32]) by by rewrite <- !app_assoc.
    rewrite take_app_le, take_ge; [done|..]; cbn [app length]; rewrite length_app; cbn [length]; lia.
Qed.

(** A list of quoted words: nothing but spaces is seen from outside, and every
    word is seen when the list stands in quotes itself. *)
Lemma outside_words len l :
  Forall (λ t, (39 ∉ t) ∧ (32 ∉ t) ∧ (length t <= len)%nat) l →
  nospace (outside false (mjoin (quoted len <$> l))) = [] ∧ quote_after false (mjoin (quoted len <$> l)) = false ∧
  nospace (outside true (mjoin (quoted len <$> l))) = mjoin l ∧ quote_after true (mjoin (quoted len <$> l)) = true.
Proof.
  induction 1 as [|t l (Hq & Hs & Hlen) Hl (IH1 & IH2 & IH3 & IH4)]; csimpl; [done|].
  destruct (quoted_cases len t Hlen) as (sp & Hsp & ->).
  destruct (outside_quoted t Hq) as [H1 H2], (outside_requoted t Hq) as [H3 H4].
  assert (Hsp39 : 39 ∉ sp) by (destruct Hsp as [-> | ->]; set_solver).
  remember ([39] ++ t ++ [39]) as w eqn:Ew. clear Ew.
  rewrite !outside_app, !quote_after_app, H1, H2, H3, H4, !nospace_app.
  rewrite !(quote_after_plain _ sp) by done. rewrite outside_plain, inside_plain by done.
  rewrite IH1, IH2, IH3, IH4, (nospace_plain t) by done.
  rewrite ?app_nil_r. split_and!; [|done..]. by destruct Hsp as [-> | ->].
Qed.

Section Dns.
Context `{plat : Platform} (H : host).

Lemma set_dnses_collects netid dnses s :
  let tokens := strtok_all DELIMS dnses in
  Z.of_nat (length dnses) <= 65536 → addresses tokens ≠ [] →
  set_dnses H netid (Some dnses) s =
  apply_dns H netid (args_of (length dnses) (addresses tokens)) (args_of (length dnses) (searches tokens)) s.
Proof.
  intros tokens Hlen Hne. unfold set_dnses. cbn [deref]. rewrite Q_bind_eq. cbn [mret Q_ret].
  rewrite (proj2 (Z.ltb_ge _ _)) by done.
  destruct (Nat.eqb_spec (length dnses) 0) as [Hz|Hz].
  { destruct dnses; [|done]. by destruct Hne. }
  fold tokens. fold (usable tokens). fold (addresses tokens). fold (searches tokens).
  destruct (Nat.eqb_spec (length (addresses tokens)) 0) as [Hz'|_]; [by apply nil_length_inv in Hz'|].
  rewrite Q_bind_eq. unfold lift.
  pose proof (collect_dns_ok (length dnses) (length (addresses tokens)) (length (searches tokens)) [] tokens) as Hc.
  cbn [app] in Hc. change no_args with (args_of (length dnses) []).
  change (addresses []) with (@nil bytes) in Hc. change (searches []) with (@nil bytes) in Hc. rewrite Hc; [done|lia| | |done..].
  - apply strtok_from_nonempty.
  - unfold tokens, strtok_all. pose proof (strtok_from_weight DELIMS dnses []). cbn [length] in *. lia.
Qed.

(** C32: [set_dnses] never writes past its buffers or arrays, however the names are
    separated: on a list of at most 65536 bytes with a usable address it hands on
    exactly the usable addresses and search domains, in their order, quoted for the
    shell and separated by commas for the log; otherwise it does nothing. *)
Theorem set_dnses_fits netid dnses s :
  let tokens := strtok_all DELIMS dnses in
  set_dnses H netid (Some dnses) s =
  if (65536 <? Z.of_nat (length dnses)) || is_end (mjoin (addresses tokens)) then (Done tt, s)
  else apply_dns H netid (args_of (length dnses) (addresses tokens)) (args_of (length dnses) (searches tokens)) s.
Proof.
  intros tokens. destruct (Z.ltb_spec 65536 (Z.of_nat (length dnses))) as [Hlong|Hlen]; cbn [orb].
  { unfold set_dnses. cbn [deref]. rewrite Q_bind_eq. cbn [mret Q_ret]. by rewrite (proj2 (Z.ltb_lt _ _)) by done. }
  destruct (addresses tokens) as [|a l] eqn:Ha.
  - unfold set_dnses. cbn [deref]. rewrite Q_bind_eq. cbn [mret Q_ret]. rewrite (proj2 (Z.ltb_ge _ _)) by done.
    destruct (Nat.eqb _ 0); [done|]. fold tokens. fold (usable tokens). fold (addresses tokens). rewrite Ha. done.
  - assert (Hne : a ≠ []).
    { assert (Hin : a ∈ addresses tokens) by (rewrite Ha; set_solver).
      apply list_elem_of_filter in Hin as [_ [_ Hin]%list_elem_of_filter].
      pose proof (strtok_from_nonempty DELIMS dnses []) as Hf. by eapply Forall_forall in Hf. }
    rewrite set_dnses_collects; [|done|by fold tokens; rewrite Ha]. fold tokens. rewrite Ha. by destruct a.
Qed.

Lemma cndc_trace args s : trace (cndc H args s).2 = trace s ++ [Popen (str "ndc " ++ args)].
Proof.
  unfold cndc. change (concat [str "ndc "; args]) with (str "ndc " ++ args ++ []). rewrite app_nil_r. cbv zeta.
  rewrite Q_bind_eq. cbn [printf]. change (vcmd_ret H) with (cmd_ret H). rewrite Q_bind_eq, cmd_ret_run. cbn [trace].
  destruct (popen_read H _ _) as [e|[[|l ls] e]]; [done| |]; cbn [next_line].
  - by destruct (truthy e).
  - cbn [mret Q_ret]. by destruct (_ && _).
Qed.

Lemma strtok_from_word delims x tok t c :
  c ∈ delims → c ∉ tok → t ∈ strtok_from delims x tok → c ∉ t.
Proof.
  intros Hc. revert tok. induction x as [|d x IH]; intros tok Htok Ht; cbn [strtok_from] in Ht.
  - destruct (is_end tok); [set_solver|]. by apply list_elem_of_singleton in Ht as ->.
  - destruct (has_char delims d) eqn:Hd.
    + destruct (is_end tok); [by apply (IH []); [set_solver|]|].
      apply elem_of_cons in Ht as [->|Ht]; [done|]. by apply (IH []); [set_solver|].
    + apply (IH (tok ++ [d])); [|done]. intros [?|Hin]%elem_of_app; [done|]. apply list_elem_of_singleton in Hin as ->.
      apply has_char_spec in Hc. congruence.
Qed.

Lemma word_fits dnses t :
  t ∈ usable (strtok_all DELIMS dnses) → (39 ∉ t) ∧ (32 ∉ t) ∧ (length t <= length dnses)%nat.
Proof.
  intros [Hq Hin]%list_elem_of_filter. unfold unquotable in Hq. apply orb_false_iff in Hq as [Hq _]. split_and!.
  - intros H39. apply has_char_spec in H39. congruence.
  - apply (strtok_from_word DELIMS dnses [] t 32); [set_solver|set_solver|done].
  - pose proof (strtok_from_weight DELIMS dnses []) as Hw. fold (strtok_all DELIMS dnses) in Hw.
    apply list_elem_of_split in Hin as (l1 & l2 & Hin). rewrite Hin in Hw. unfold weight in Hw.
    rewrite sum_list_with_app in Hw. cbn [sum_list_with length] in Hw. lia.
Qed.

(** Without the resolver service the names go through the shell, in one command.
    Outside of its quotes stand the words of the command itself, none of the
    addresses, and every search domain: the quotes put around each of them and the
    quotes around their list cancel, so that a domain is read as shell text. *)
Theorem set_dnses_quotes netid dnses s :
  let tokens := strtok_all DELIMS dnses in
  0 <= netid → libbinder H = None → Z.of_nat (length dnses) <= 65536 → addresses tokens ≠ [] →
  ∃ command, trace (set_dnses H netid (Some dnses) s).2 = trace s ++ [Popen command] ∧
    nospace (outside false command) = str "ndcresolversetnetdns" ++ printf_u netid ++ mjoin (searches tokens).
Proof.
  intros tokens Hnet Hb Hlen Hne. rewrite set_dnses_collects by done. fold tokens. unfold apply_dns. rewrite Hb, cndc_trace.
  eexists. split; [done|]. unfold setnetdns_args. cbn [args_of shell_arglist].
  assert (Hfit : ∀ (P : bytes → Prop) `{∀ x, Decision (P x)}, Forall (λ t, (39 ∉ t) ∧ (32 ∉ t) ∧ (length t <= length dnses)%nat)
                   (filter P (usable tokens))).
  { intros P HP. apply Forall_forall. intros t [_ Ht]%list_elem_of_filter. by apply word_fits. }
  destruct (outside_words (length dnses) (searches tokens) (Hfit _ _)) as (_ & _ & Hs1 & Hs2).
  destruct (outside_words (length dnses) (addresses tokens) (Hfit _ _)) as (Ha1 & _ & _ & _).
  assert (Hnum : (39 ∉ printf_u netid) ∧ (32 ∉ printf_u netid)).
  { pose proof (printf_u_digits netid Hnet) as Hd. rewrite Forall_forall in Hd.
    split; intros Hin; specialize (Hd _ Hin); cbn in Hd; lia. }
  destruct Hnum as [Hn39 Hn32].
  rewrite !outside_app, !nospace_app, ?quote_after_app.
  change (outside false (str "ndc ")) with (str "ndc "). change (quote_after false (str "ndc ")) with false.
  change (outside false (str "resolver setnetdns ")) with (str "resolver setnetdns ").
  change (quote_after false (str "resolver setnetdns ")) with false.
  rewrite (outside_plain (printf_u netid)), (quote_after_plain false (printf_u netid)), (nospace_plain (printf_u netid)) by done.
  change (outside false (str " '")) with [32]. change (quote_after false (str " '")) with true.
  rewrite Hs1, Hs2. change (outside true (str "' ")) with [32]. change (quote_after true (str "' ")) with false. rewrite Ha1.
  change (nospace [32]) with (@nil Z). rewrite app_nil_r. done.
Qed.

(** ** Addresses *)

(** Every action of a computation is of a kind. *)
Definition emits {A} (P : action → Prop) (m : Q A) : Prop := ∀ s, ∃ l, trace (m s).2 = trace s ++ l ∧ Forall P l.

Lemma emits_ret {A} P (a : A) : emits P (mret a : Q A).
Proof. intros s. exists []. by rewrite app_nil_r. Qed.
Lemma emits_bind {A B} P (m : Q A) (f : A → Q B) : emits P m → (∀ a, emits P (f a)) → emits P (m ≫= f).
Proof.
  intros Hm Hf s. rewrite Q_bind_eq. destruct (Hm s) as (l & Hl & HP). destruct (m s) as [[a|c| |] s']; [|by exists l..].
  destruct (Hf a s') as (l' & Hl' & HP'). cbn [snd] in Hl. exists (l ++ l'). rewrite Hl', Hl, <- app_assoc.
  split; [done|]. by apply Forall_app.
Qed.
Lemma emits_cndc (P : action → Prop) args : P (Popen (str "ndc " ++ args)) → emits P (cndc H args).
Proof. intros HP s. rewrite cndc_trace. eexists. split; [done|]. by apply Forall_singleton. Qed.
Lemma emits_cmd (P : action → Prop) c : P (System c) → emits P (cmd H c).
Proof.
  intros HP s. exists [System c]. split; [|by apply Forall_singleton].
  unfold cmd. rewrite Q_bind_eq. cbn [printf]. rewrite Q_bind_eq. cbn [q_get]. rewrite Q_bind_eq. cbn [act]. by destruct (_ && _).
Qed.

(** A command in whose text outside of quotes no address occurs. *)
Definition address_command (iface : bytes) (a : action) : Prop :=
  ∃ c, (a = System c ∨ a = Popen c) ∧ quote_after false c = false ∧
    (outside false c = str "ndc interface ipv6 " ++ iface ++ str " enable" ∨
     outside false c = str "ip -6 addr add  dev " ++ iface ∨
     ∃ mask, 0 <= mask < 256 ∧ outside false c = str "ndc interface setcfg " ++ iface ++ str "  " ++ printf_u mask).

Lemma outside_around pre x post :
  39 ∉ pre → 39 ∉ x → 39 ∉ post →
  outside false (pre ++ ([39] ++ x ++ [39]) ++ post) = pre ++ post ∧
  quote_after false (pre ++ ([39] ++ x ++ [39]) ++ post) = false.
Proof.
  intros Hpre Hx Hpost. destruct (outside_quoted x Hx) as [H1 H2]. remember ([39] ++ x ++ [39]) as w eqn:Ew. clear Ew.
  rewrite !outside_app, !quote_after_app. rewrite (quote_after_plain _ pre) by done. rewrite H1, H2.
  by rewrite quote_after_plain, !outside_plain by done.
Qed.

Lemma no_quote (x : bytes) : bool_decide (39 ∉ x) = true → 39 ∉ x.
Proof. apply bool_decide_eq_true. Qed.

Lemma add_addr_quotes iface addr :
  39 ∉ iface → 39 ∉ addr → emits (address_command iface) (add_addr H iface addr).
Proof.
  intros Hi Ha. unfold add_addr. destruct (has_char addr (ch ":")).
  - apply emits_bind; [apply emits_cndc|intros _; apply emits_cmd]; eexists.
    + split; [by right|].
      assert (Hc : 39 ∉ str "ndc " ++ str "interface ipv6 " ++ iface ++ str " enable").
      { rewrite !not_elem_of_app. split_and!; [by apply no_quote..|done|by apply no_quote]. }
      rewrite quote_after_plain, outside_plain by done. split; [done|]. by left.
    + split; [by left|].
      destruct (outside_around (str "ip -6 addr add ") addr (str " dev " ++ iface)) as [H1 H2];
        [by apply no_quote|done|rewrite not_elem_of_app; split; [by apply no_quote|done]|].
      replace (str "ip -6 addr add '" ++ addr ++ str "' dev " ++ iface) with
        (str "ip -6 addr add " ++ ([39] ++ addr ++ [39]) ++ str " dev " ++ iface) by (rewrite <- !app_assoc; done).
      rewrite H1, H2. split; [done|]. right; left. done.
  - set (p := match strchr_split addr (ch "/") with Some (a, m) => (a, u8 (atoi m)) | None => (addr, 32) end).
    assert (Hp : (39 ∉ p.1) ∧ 0 <= p.2 < 256).
    { unfold p. destruct (strchr_split addr (ch "/")) as [[a m]|] eqn:E; cbn [fst snd]; [|split; [done|lia]].
      apply strchr_split_Some in E as [-> _]. split; [set_solver|apply u8_range]. }
    destruct p as [a mask]. cbn [fst snd] in Hp. destruct Hp as [Hap Hm]. apply emits_cndc. eexists. split; [by right|].
    assert (H39 : 39 ∉ printf_u mask).
    { pose proof (printf_u_digits mask ltac:(lia)) as Hd. rewrite Forall_forall in Hd.
      intros Hin; specialize (Hd _ Hin); cbn in Hd; lia. }
    destruct (outside_around (str "ndc interface setcfg " ++ iface ++ str " ") a (str " " ++ printf_u mask)) as [H1 H2];
      [rewrite !not_elem_of_app; split_and!; [by apply no_quote|done|by apply no_quote]|done|
       rewrite not_elem_of_app; split; [by apply no_quote|done]|].
    replace (str "ndc " ++ str "interface setcfg " ++ iface ++ str " '" ++ a ++ str "' " ++ printf_u mask) with
      ((str "ndc interface setcfg " ++ iface ++ str " ") ++ ([39] ++ a ++ [39]) ++ str " " ++ printf_u mask)
      by (rewrite <- !app_assoc; done).
    rewrite H1, H2. split; [done|]. right; right. exists mask. split; [done|]. by rewrite <- !app_assoc.
Qed.

(** C18: no address of the configuration reaches the shell outside of quotes: every
    command that [set_addr] runs has its quotes closed, and its text outside of
    them is the command itself, the interface and a number below 256. *)
Theorem set_addr_quotes iface addrs s :
  39 ∉ iface →
  ∃ l, trace (set_addr H iface (Some addrs) s).2 = trace s ++ l ∧ Forall (address_command iface) l.
Proof.
  intros Hi. unfold set_addr. cbn [deref]. rewrite Q_bind_eq. cbn [mret Q_ret].
  generalize (strtok_all DELIMS addrs) as l. intros l. revert s. change (emits (address_command iface) (add_addrs H iface l)).
  induction l as [|a l IH]; cbn [add_addrs]; [apply emits_ret|].
  destruct (unquotable a) eqn:Hq; [done|]. apply emits_bind; [|done]. apply add_addr_quotes; [done|].
  unfold unquotable in Hq. apply orb_false_iff in Hq as [Hq _]. intros H39. apply has_char_spec in H39. congruence.
Qed.
End Dns.

Lemma set_dnses_quotes_witness :
  ∃ command, trace (set_dnses (plat := arm64) (phone []) 5000 (Some (str "1.1.1.1,;id")) qinit).2 = [Popen command] ∧
    nospace (outside false command) = str "ndcresolversetnetdns5000;id".
Proof.
  apply (set_dnses_quotes (plat := arm64) (phone []) 5000 (str "1.1.1.1,;id") qinit); [done|done|done|by vm_compute].
Defined.

Lemma set_addr_quotes_witness :
  ∃ l, trace (set_addr (plat := arm64) (phone []) (str "wg0") (Some (str "10.0.0.2/24,fd00::1;id")) qinit).2 = [] ++ l ∧
    Forall (address_command (str "wg0")) l.
Proof. apply (set_addr_quotes (plat := arm64) (phone []) (str "wg0")). by apply no_quote. Defined.

(** ** The parcel of the resolver's configuration *)

Lemma write_strings_item a : op_item (write_strings (Some a)) = Some (Strs (Some <$> a)).
Proof.
  unfold write_strings, op_item. cbn [string_array_size default from_option id]. rewrite Nat2Z.id. do 2 f_equal.
  rewrite <- list_fmap_compose. apply list_eq. intros i. rewrite !list_lookup_fmap.
  destruct (decide (i < length a)%nat) as [Hi|Hi].
  - rewrite lookup_seq_lt by done. destruct (lookup_lt_is_Some_2 a i Hi) as [x Hx]. rewrite Hx. cbn. by rewrite Hx.
  - rewrite lookup_seq_ge, (lookup_ge_None_2 a) by lia. done.
Qed.

(** What the service reads: the words in order, with the distance from the second
    word to the end of the parameters written over the zero there. *)
Lemma params_parcel_layout answer n dns search :
  ∃ parcel, params_parcel (plain_binder answer) (dns_params n dns search) = inr parcel ∧
    contents parcel =
    ([I32 1; I32 13; I32 (s32 n); I32 1800; I32 25; I32 8; I32 8; I32 5000; I32 2; Strs (Some <$> dns); Strs (Some <$> search);
      Str (Some []); Strs []; Strs []], 14%nat).
Proof.
  eexists. split; [reflexivity|]. pose proof (write_strings_item dns) as Hd. pose proof (write_strings_item search) as Hs.
  unfold write_strings in *. cbn [op_item] in Hd, Hs. injection Hd as Hd. injection Hs as Hs.
  rewrite <- Hd, <- Hs. reflexivity.
Qed.
