(* ===== verification/EmbedCurve.v ===== *)
(** * EmbedCurve: the curve of the embeddable library

    contrib/embeddable-wg-library/wireguard.c has an implementation of Curve25519 of
    its own: a field element is 16 signed limbs of 16 bits in [int64_t], and the
    public key of a private key is computed with the base point built in.  An
    array is a list, and every [int64_t] operation wraps at its width. *)

From Stdlib Require Import Ascii String.
From stdpp Require Import base numbers option sets list list_numbers strings.
From S2P Require Import Prelude.
#[local] Open Scope c_scope.

Definition s64 (x : Z) : Z := (x + 2 ^ 63) mod 2 ^ 64 - 2 ^ 63.

(** [typedef int64_t fe[16]] *)
Abbreviation fe := (list Z).
(** [(fe){ x0, ... }]: the other limbs are zero. *)
Definition fe_of (l : list Z) : fe := l ++ replicate (16 - length l) 0.

Definition carry_step (i : nat) (o : fe) : fe :=
  let j := ((i + 1) mod 16)%nat in
  let o := <[j := s64 (at_ o j + s64 ((if Nat.eqb i 15 then 38 else 1) * (at_ o i .>> 16)))]> o in
  <[i := at_ o i .& 0xffff]> o.
Definition carry (o : fe) : fe := for_upto 0 16 carry_step o.

(** The two elements, swapped when [b] is 1. *)
Definition cswap (p q : fe) (b : Z) : fe * fe :=
  let c := ~~ (b - 1) in
  let t := zip_with (λ x y, c .& (x .^ y)) p q in
  (zip_with Z.lxor p t, zip_with Z.lxor q t).

Definition sub_step (t : fe) (i : nat) (m : fe) : fe :=
  let m := <[i := s64 (s64 (at_ t i - 0xffff) - ((at_ m (i - 1) .>> 16) .& 1))]> m in
  <[(i - 1)%nat := at_ m (i - 1) .& 0xffff]> m.
(** One round: the difference to the prime, and the borrow. *)
Definition sub_round (t m : fe) : fe * Z :=
  let m := <[0%nat := s64 (at_ t 0 - 0xffed)]> m in
  let m := for_upto 1 14 (sub_step t) m in
  let m := <[15%nat := s64 (s64 (at_ t 15 - 0x7fff) - ((at_ m 14 .>> 16) .& 1))]> m in
  let b := (at_ m 15 .>> 16) .& 1 in
  (<[14%nat := at_ m 14 .& 0xffff]> m, b).
Definition pack_round (_ : nat) (tm : fe * fe) : fe * fe :=
  let '(m, b) := sub_round tm.1 tm.2 in
  cswap tm.1 m (1 - b).
Definition pack (n : fe) : bytes :=
  let t := carry (carry (carry n)) in
  let '(t, _) := for_upto 0 2 pack_round (t, replicate 16 0) in
  flat_map (λ x, [u8 (x .& 0xff); u8 (x .>> 8)]) t.

Definition add (a b : fe) : fe := zip_with (λ x y, s64 (x + y)) a b.
Definition subtract (a b : fe) : fe := zip_with (λ x y, s64 (x - y)) a b.

Definition mul_step (a b : fe) (i j : nat) (t : list Z) : list Z :=
  <[(i + j)%nat := s64 (at_ t (i + j) + s64 (at_ a i * at_ b j))]> t.
Definition mul_row (a b : fe) (i : nat) (t : list Z) : list Z := for_upto 0 16 (mul_step a b i) t.
Definition fold_step (i : nat) (t : list Z) : list Z := <[i := s64 (at_ t i + s64 (38 * at_ t (i + 16)))]> t.
Definition multmod (a b : fe) : fe :=
  let t := for_upto 0 16 (mul_row a b) (replicate 31 0) in
  let t := for_upto 0 15 fold_step t in
  carry (carry (take 16 t)).

(** [for (a = 253; a >= 0; --a)], from [a = n - 1] on. *)
Fixpoint invert_loop (n : nat) (c i : fe) : fe :=
  match n with
  | O => c
  | S a =>
      let c := multmod c c in
      let c := if negb (Nat.eqb a 2) && negb (Nat.eqb a 4) then multmod c i else c in
      invert_loop a c i
  end.
Definition invert (i : fe) : fe := invert_loop 254 i i.

Definition clamp_key (z : bytes) : bytes :=
  let z := <[31%nat := (at_ z 31 .& 127) .| 64]> z in
  <[0%nat := at_ z 0 .& 248]> z.

Record ladder_vars := { la : fe; lb : fe; lc : fe; ld : fe }.

(** One turn of the loop over the bits. *)
Definition ladder_turn (z : bytes) (i : nat) (v : ladder_vars) : ladder_vars :=
  let r := (at_ z (i / 8) .>> Z.of_nat (i mod 8)) .& 1 in
  let '(a, b) := cswap (la v) (lb v) r in
  let '(c, d) := cswap (lc v) (ld v) r in
  let e := add a c in
  let a := subtract a c in
  let c := add b d in
  let b := subtract b d in
  let d := multmod e e in
  let f := multmod a a in
  let a := multmod c a in
  let c := multmod b e in
  let e := add a c in
  let a := subtract a c in
  let b := multmod a a in
  let c := subtract d f in
  let a := multmod c (fe_of [0xdb41; 1]) in
  let a := add a d in
  let c := multmod c a in
  let a := multmod d f in
  let d := multmod b (fe_of [9]) in
  let b := multmod e e in
  let '(a, b) := cswap a b r in
  let '(c, d) := cswap c d r in
  {| la := a; lb := b; lc := c; ld := d |}.

(** [for (i = 254; i >= 0; --i)], from [i = n - 1] on. *)
Fixpoint ladder_loop (z : bytes) (n : nat) (v : ladder_vars) : ladder_vars :=
  match n with
  | O => v
  | S i => ladder_loop z i (ladder_turn z i v)
  end.

Definition wg_generate_public_key (private_key : bytes) : bytes :=
  let z := clamp_key private_key in
  let v := ladder_loop z 255 {| la := fe_of [1]; lb := fe_of [9]; lc := fe_of [0]; ld := fe_of [1] |} in
  let c := invert (lc v) in
  pack (multmod (la v) c).
