(* ===== verification/EmbedCurveSpec.v ===== *)
(** * EmbedCurveSpec: the embeddable library computes X25519

    Limbs stay far below the width of [int64_t], so nothing wraps; a list of limbs
    stands for its value, and each operation of EmbedCurve for one of the field. *)

From Stdlib Require Import Ascii String Zdiv Zpow_facts.
From stdpp Require Import base numbers option sets list list_numbers strings.
From S2P Require Import Prelude Field25519 Prime25519 X25519 Curve25519 EmbedCurve.
#[local] Open Scope c_scope.

Lemma s64_small x : - 2 ^ 63 <= x < 2 ^ 63 → s64 x = x.
Proof. intros Hx. unfold s64. rewrite Z.mod_small by lia. lia. Qed.

(** ** Values of limbs *)

Fixpoint eval (l : list Z) : Z :=
  match l with
  | [] => 0
  | x :: l' => x + 2 ^ 16 * eval l'
  end.
Definition wt (i : nat) : Z := 2 ^ (16 * Z.of_nat i).
Lemma wt_S i : wt (S i) = 2 ^ 16 * wt i.
Proof. unfold wt. rewrite Nat2Z.inj_succ. replace (16 * Z.succ (Z.of_nat i)) with (16 + 16 * Z.of_nat i) by lia. apply Z.pow_add_r; lia. Qed.
Lemma wt_add i j : wt (i + j) = wt i * wt j.
Proof. unfold wt. rewrite <- Z.pow_add_r by lia. f_equal. lia. Qed.
Lemma wt_pos i : 0 < wt i.
Proof. apply Z.pow_pos_nonneg; lia. Qed.

Lemma eval_app l k : eval (l ++ k) = eval l + wt (length l) * eval k.
Proof.
  induction l as [|x l IH]; cbn [app eval length]; [change (wt 0) with 1; lia|]. rewrite IH, wt_S. lia.
Qed.
Lemma eval_insert l i x : (i < length l)%nat → eval (<[i := x]> l) = eval l + (x - at_ l i) * wt i.
Proof.
  revert i. induction l as [|y l IH]; intros i Hi; cbn [length] in Hi; [lia|].
  destruct i as [|i]; cbn [insert list_insert eval].
  - change (at_ (y :: l) 0) with y. change (wt 0) with 1. lia.
  - change (at_ (y :: l) (S i)) with (at_ l i). change (list_insert i x l) with (<[i := x]> l). rewrite IH by lia. rewrite wt_S. lia.
Qed.

(** Every limb within [K]. *)
Definition bounded (K : Z) (l : list Z) : Prop := Forall (λ x, - K <= x <= K) l.
Lemma bounded_at K l i : 0 <= K → bounded K l → - K <= at_ l i <= K.
Proof.
  intros HK Hl. unfold at_. destruct (l !! i) as [x|] eqn:E; cbn; [|lia].
  exact (proj1 (Forall_lookup _ l) Hl i x E).
Qed.
Lemma bounded_insert K l i x : bounded K l → - K <= x <= K → bounded K (<[i := x]> l).
Proof. intros. by apply Forall_insert. Qed.
Lemma bounded_mono K L l : K <= L → bounded K l → bounded L l.
Proof. intros HKL Hl. eapply Forall_impl; [exact Hl|]. cbn. lia. Qed.

(** ** Carrying *)

Fixpoint chain (c : Z) (l : list Z) : list Z * Z :=
  match l with
  | [] => ([], c)
  | x :: l' => let r := chain ((x + c) / 2 ^ 16) l' in ((x + c) mod 2 ^ 16 :: r.1, r.2)
  end.

Lemma chain_length c l : length (chain c l).1 = length l.
Proof. revert c. induction l as [|x l IH]; intros c; cbn [chain fst length]; [done|]. by rewrite IH. Qed.
Lemma chain_eval c l : eval (chain c l).1 + wt (length l) * (chain c l).2 = eval l + c.
Proof.
  revert c. induction l as [|x l IH]; intros c; cbn [chain fst snd length eval]; [change (wt 0) with 1; lia|].
  rewrite wt_S. specialize (IH ((x + c) / 2 ^ 16)). pose proof (Z.div_mod (x + c) (2 ^ 16) ltac:(lia)). nia.
Qed.
Definition limbs (l : list Z) : Prop := Forall (λ x, 0 <= x < 2 ^ 16) l.
Lemma chain_limbs c l : limbs (chain c l).1.
Proof.
  revert c. induction l as [|x l IH]; intros c; cbn [chain fst]; [constructor|]. constructor; [|apply IH].
  apply Z.mod_pos_bound. lia.
Qed.

(** Carries stay small. *)
Lemma chain_carry_large c l : bounded (2 ^ 60) l → - 2 ^ 46 <= c <= 2 ^ 46 → - 2 ^ 46 <= (chain c l).2 <= 2 ^ 46.
Proof.
  intros Hl. revert c. induction Hl as [|x l Hx Hl IH]; intros c Hc; cbn [chain snd]; [done|]. apply IH. bit_lia.
Qed.
Lemma chain_carry_unit c l : limbs l → -1 <= c <= 1 → -1 <= (chain c l).2 <= 1.
Proof.
  intros Hl. revert c. induction Hl as [|x l Hx Hl IH]; intros c Hc; cbn [chain snd]; [done|]. apply IH. bit_lia.
Qed.
Lemma chain_carry_small c l :
  limbs l → - 2 ^ 38 <= c <= 2 ^ 38 → (3 <= length l)%nat → -1 <= (chain c l).2 <= 1.
Proof.
  intros Hl Hc Hlen. destruct Hl as [|x1 l Hx1 Hl]; [cbn in Hlen; lia|]. destruct Hl as [|x2 l Hx2 Hl]; [cbn in Hlen; lia|].
  destruct Hl as [|x3 l Hx3 Hl]; [cbn in Hlen; lia|]. cbn [chain snd]. apply chain_carry_unit; [done|].
  assert (H1 : - 2 ^ 22 - 1 <= (x1 + c) / 2 ^ 16 <= 2 ^ 22 + 1) by bit_lia.
  assert (H2 : - 2 ^ 7 <= (x2 + (x1 + c) / 2 ^ 16) / 2 ^ 16 <= 2 ^ 7) by (generalize dependent ((x1 + c) / 2 ^ 16); intros; bit_lia).
  generalize dependent ((x2 + (x1 + c) / 2 ^ 16) / 2 ^ 16). intros. bit_lia.
Qed.

Lemma land_low x : x .& 0xffff = x mod 2 ^ 16.
Proof. change 0xffff with (Z.ones 16). apply Z.land_ones. lia. Qed.
Lemma shr16 x : x .>> 16 = x / 2 ^ 16.
Proof. apply Z.shiftr_div_pow2. lia. Qed.

(** A step in the middle of the list. *)
Lemma carry_step_mid pre x y rest :
  (length pre < 15)%nat → (length pre + 2 + length rest = 16)%nat → - 2 ^ 61 <= x <= 2 ^ 61 → - 2 ^ 60 <= y <= 2 ^ 60 →
  carry_step (length pre) (pre ++ x :: y :: rest) = (pre ++ [x mod 2 ^ 16]) ++ (y + x / 2 ^ 16) :: rest.
Proof.
  intros Hpre Hlen Hx Hy. unfold carry_step. rewrite (proj2 (Nat.eqb_neq (length pre) 15)) by lia.
  rewrite Nat.mod_small by lia.
  assert (Hat : ∀ z r, at_ (pre ++ z :: r) (length pre) = z) by (intros; unfold at_; by rewrite list_lookup_middle).
  assert (Hat1 : at_ (pre ++ x :: y :: rest) (length pre + 1) = y).
  { unfold at_. rewrite lookup_app_r by lia. by replace (length pre + 1 - length pre)%nat with 1%nat by lia. }
  rewrite Hat1, Hat, shr16, Z.mul_1_l. assert (Hdiv : - 2 ^ 46 <= x / 2 ^ 16 <= 2 ^ 46) by bit_lia.
  rewrite (s64_small (x / 2 ^ 16)), s64_small by lia.
  replace (<[(length pre + 1)%nat:=y + x / 2 ^ 16]> (pre ++ x :: y :: rest)) with (pre ++ x :: (y + x / 2 ^ 16) :: rest).
  2: { rewrite insert_app_r_alt by lia. by replace (length pre + 1 - length pre)%nat with 1%nat by lia. }
  rewrite Hat, land_low, insert_app_r_alt, Nat.sub_diag by lia. cbn [insert list_insert]. by rewrite <- app_assoc.
Qed.

(** The first limb with what comes back from the last. *)
Definition add_first (k : Z) (l : list Z) : list Z := <[0%nat := at_ l 0 + k]> l.

Lemma carry_loop ys pre x c :
  (length pre + 1 + length ys = 16)%nat → limbs pre → bounded (2 ^ 60) (x :: ys) → - 2 ^ 46 <= c <= 2 ^ 46 →
  for_upto (length pre) (S (length ys)) carry_step (pre ++ (x + c) :: ys) =
  add_first (38 * (chain c (x :: ys)).2) (pre ++ (chain c (x :: ys)).1).
Proof.
  revert pre x c. induction ys as [|y ys IH]; intros pre x c Hlen Hpre Hb Hc; apply Forall_cons in Hb as [Hx Hb];
    cbn [length] in *; cbn [for_upto].
  - destruct pre as [|z pre]; [cbn [length] in Hlen; lia|]. apply Forall_cons in Hpre as [Hz Hpre].
    assert (Hl : length pre = 14%nat) by (cbn [length] in Hlen; lia). cbn [length]. rewrite Hl.
    cbn [chain fst snd]. unfold carry_step, add_first. change ((15 + 1) mod 16)%nat with 0%nat. change (Nat.eqb 15 15) with true.
    assert (Hat : ∀ w v, at_ ((w :: pre) ++ [v]) 15 = v).
    { intros w v. unfold at_. rewrite lookup_app_r by (cbn [length]; lia). cbn [length]. by rewrite Hl. }
    rewrite Hat. change (at_ ((z :: pre) ++ ?q) 0) with z. rewrite shr16.
    assert (Hdiv : - 2 ^ 46 <= (x + c) / 2 ^ 16 <= 2 ^ 46) by bit_lia.
    rewrite (s64_small (38 * _)), s64_small by lia.
    change (<[0%nat := ?v]> ((z :: pre) ++ ?q)) with ((v :: pre) ++ q). rewrite Hat, land_low.
    rewrite insert_app_r_alt by (cbn [length]; lia). cbn [length]. by rewrite Hl.
  - assert (Hy : - 2 ^ 60 <= y <= 2 ^ 60) by by apply Forall_cons in Hb as [Hy _].
    rewrite carry_step_mid by (lia || bit_lia). 
    assert (Hdiv : - 2 ^ 46 <= (x + c) / 2 ^ 16 <= 2 ^ 46) by bit_lia.
    specialize (IH (pre ++ [(x + c) mod 2 ^ 16]) y ((x + c) / 2 ^ 16)).
    rewrite length_app in IH. cbn [length] in IH. rewrite !Nat.add_1_r in IH. cbn [for_upto] in IH.
    rewrite IH; [|lia| |done|done].
    + cbn [chain fst snd]. by rewrite <- app_assoc.
    + apply Forall_app. split; [done|]. apply Forall_singleton. apply Z.mod_pos_bound. lia.
Qed.

Lemma carry_chain l :
  length l = 16%nat → bounded (2 ^ 60) l → carry l = add_first (38 * (chain 0 l).2) (chain 0 l).1.
Proof.
  intros Hlen Hb. destruct l as [|x ys]; [done|]. unfold carry. cbn [length] in Hlen.
  pose proof (carry_loop ys [] x 0) as Hl. rewrite Z.add_0_r in Hl. cbn [length app] in Hl. rewrite Hlen in Hl.
  apply Hl; [lia|constructor|done|lia].
Qed.

Lemma wt_256 : wt 16 ≡p 38.
Proof. apply (eqp_multiple _ _ 2). reflexivity. Qed.

Lemma carry_length l : length l = 16%nat → bounded (2 ^ 60) l → length (carry l) = 16%nat.
Proof. intros. rewrite carry_chain by done. unfold add_first. by rewrite length_insert, chain_length. Qed.

Lemma carry_eval l : length l = 16%nat → bounded (2 ^ 60) l → eval (carry l) ≡p eval l.
Proof.
  intros Hlen Hb. rewrite carry_chain by done. unfold add_first.
  rewrite eval_insert by (rewrite chain_length; lia). change (wt 0) with 1.
  pose proof (chain_eval 0 l) as He. rewrite Hlen, Z.add_0_r in He. rewrite <- He.
  etrans; [|apply eqp_add; [done|apply eqp_mul; [symmetry; apply wt_256|done]]]. apply eqp_eq. lia.
Qed.

(** After two rounds only the first limb may be out of its range, by little. *)
Definition norm (l : fe) : Prop :=
  length l = 16%nat ∧ ∃ x r, l = x :: r ∧ -38 <= x <= 65535 + 38 ∧ limbs r.

Lemma limbs_bounded l : limbs l → bounded (2 ^ 16) l.
Proof. intros Hl. eapply Forall_impl; [exact Hl|]. cbn. lia. Qed.
Lemma norm_bounded l : norm l → bounded 65573 l.
Proof.
  intros (_ & x & r & -> & Hx & Hr). constructor; [lia|]. eapply Forall_impl; [exact Hr|]. cbn. lia.
Qed.

Lemma carry_first l :
  length l = 16%nat → bounded (2 ^ 60) l →
  ∃ x r, carry l = x :: r ∧ limbs r ∧ 0 <= x - 38 * (chain 0 l).2 < 2 ^ 16 ∧ length r = 15%nat.
Proof.
  intros Hlen Hb. rewrite carry_chain by done. pose proof (chain_limbs 0 l) as Hl. pose proof (chain_length 0 l) as Hcl.
  destruct (chain 0 l).1 as [|y r] eqn:E; [cbn in Hcl; lia|]. apply Forall_cons in Hl as [Hy Hr].
  exists (y + 38 * (chain 0 l).2), r. split_and!; [done|done|lia|lia|]. cbn [length] in Hcl. lia.
Qed.

Lemma carry_twice l :
  length l = 16%nat → bounded (2 ^ 60) l → norm (carry (carry l)) ∧ eval (carry (carry l)) ≡p eval l.
Proof.
  intros Hlen Hb. pose proof (carry_length l Hlen Hb) as Hl1. pose proof (carry_eval l Hlen Hb) as He1.
  destruct (carry_first l Hlen Hb) as (x & r & Hc & Hr & Hx & Hlr). rewrite Hc in *.
  pose proof (chain_carry_large 0 l Hb ltac:(lia)) as Hcl.
  assert (Hb1 : bounded (2 ^ 60) (x :: r)).
  { constructor; [lia|]. eapply bounded_mono; [|by apply limbs_bounded]. lia. }
  pose proof (carry_length _ Hl1 Hb1). pose proof (carry_eval _ Hl1 Hb1) as He2. split; [|by rewrite He2].
  split; [done|]. destruct (carry_first _ Hl1 Hb1) as (x2 & r2 & Hc2 & Hr2 & Hx2 & _). exists x2, r2. split; [done|].
  enough (-1 <= (chain 0 (x :: r)).2 <= 1) by (split; [lia|done]).
  cbn [chain snd]. apply chain_carry_small; [done| |lia]. bit_lia.
Qed.

(** ** Multiplication *)

Lemma at_take_drop (l : list Z) i n : (i < length l)%nat → take (S n) (drop i l) = at_ l i :: take n (drop (S i) l).
Proof.
  intros Hi. unfold at_. destruct (lookup_lt_is_Some_2 l i Hi) as [x Hx]. rewrite Hx. by rewrite (drop_S l x i Hx).
Qed.

(** The row of [a[i]]: every step adds a product to one place. *)
Lemma mul_row_spec a b i n j t K :
  (length b = 16)%nat → (j + n <= 16)%nat → (i < 16)%nat → length t = 31%nat →
  bounded (2 ^ 20) a → bounded (2 ^ 20) b → bounded K t → 0 <= K → K + 2 ^ 40 * Z.of_nat n <= 2 ^ 60 →
  let r := for_upto j n (mul_step a b i) t in
  length r = 31%nat ∧ bounded (K + 2 ^ 40 * Z.of_nat n) r ∧
  eval r = eval t + at_ a i * wt (i + j) * eval (take n (drop j b)).
Proof.
  intros Hlb. revert j t K. induction n as [|n IH]; intros j t K Hjn Hi Hlt Ha Hb Ht HK0 HK r.
  { subst r. cbn [for_upto]. change (take 0 (drop j b)) with (@nil Z). cbn [eval]. split_and!; [done| |ring].
    by rewrite Z.mul_0_r, Z.add_0_r. }
  subst r. cbn [for_upto].
  pose proof (bounded_at (2 ^ 20) a i ltac:(lia) Ha) as Hai. pose proof (bounded_at (2 ^ 20) b j ltac:(lia) Hb) as Hbj.
  pose proof (bounded_at K t (i + j) HK0 Ht) as Htij.
  assert (Hprod : - 2 ^ 40 <= at_ a i * at_ b j <= 2 ^ 40) by nia.
  assert (Hstep : mul_step a b i j t = <[(i + j)%nat := at_ t (i + j) + at_ a i * at_ b j]> t).
  { unfold mul_step. rewrite (s64_small (at_ a i * at_ b j)), s64_small by lia. done. }
  rewrite Hstep. destruct (IH (S j) (<[(i + j)%nat := at_ t (i + j) + at_ a i * at_ b j]> t) (K + 2 ^ 40)) as (H1 & H2 & H3).
  - lia.
  - done.
  - by rewrite length_insert.
  - done.
  - done.
  - apply bounded_insert; [eapply bounded_mono; [|exact Ht]; lia|lia].
  - lia.
  - lia.
  - split_and!; [done| |].
    + by replace (K + 2 ^ 40 * Z.of_nat (S n)) with (K + 2 ^ 40 + 2 ^ 40 * Z.of_nat n) by lia.
    + rewrite H3, eval_insert by lia. rewrite (at_take_drop b j) by lia. cbn [eval].
      replace (i + S j)%nat with (S (i + j)) by lia. rewrite wt_S. ring.
Qed.

Lemma mul_rows_spec a b n i t K :
  (length a = 16)%nat → (length b = 16)%nat → (i + n <= 16)%nat → length t = 31%nat →
  bounded (2 ^ 20) a → bounded (2 ^ 20) b → bounded K t → 0 <= K → K + 2 ^ 44 * Z.of_nat n <= 2 ^ 60 →
  let r := for_upto i n (mul_row a b) t in
  length r = 31%nat ∧ bounded (K + 2 ^ 44 * Z.of_nat n) r ∧ eval r = eval t + wt i * eval (take n (drop i a)) * eval b.
Proof.
  intros Hla Hlb. revert i t K. induction n as [|n IH]; intros i t K Hin Hlt Ha Hb Ht HK0 HK r.
  { subst r. cbn [for_upto]. change (take 0 (drop i a)) with (@nil Z). cbn [eval]. split_and!; [done| |ring].
    by rewrite Z.mul_0_r, Z.add_0_r. }
  subst r. cbn [for_upto]. destruct (mul_row_spec a b i 16 0 t K) as (R1 & R2 & R3); [done|lia|lia|done..|lia|lia|].
  destruct (IH (S i) (mul_row a b i t) (K + 2 ^ 44)) as (H1 & H2 & H3); [lia|done|done|done| |lia|lia|].
  { eapply bounded_mono; [|exact R2]. lia. }
  split_and!; [done| |].
  - by replace (K + 2 ^ 44 * Z.of_nat (S n)) with (K + 2 ^ 44 + 2 ^ 44 * Z.of_nat n) by lia.
  - rewrite H3. unfold mul_row at 1. rewrite R3, Nat.add_0_r, drop_0, (take_ge b) by lia.
    rewrite (at_take_drop a i) by lia. cbn [eval]. rewrite wt_S. ring.
Qed.

(** The upper limbs come back into the lower ones, each once. *)
Lemma fold_spec n i t K :
  (i + n <= 15)%nat → length t = 31%nat → 0 <= K <= 2 ^ 50 →
  (∀ k, - 39 * K <= at_ t k <= 39 * K) → (∀ k, (i <= k)%nat → - K <= at_ t k <= K) →
  let r := for_upto i n fold_step t in
  length r = 31%nat ∧ (∀ k, - 39 * K <= at_ r k <= 39 * K) ∧ drop 16 r = drop 16 t ∧
  eval r = eval t + 38 * wt i * eval (take n (drop (16 + i) t)).
Proof.
  revert i t. induction n as [|n IH]; intros i t Hin Hlt HK Hall Hge r.
  { subst r. cbn [for_upto]. change (take 0 (drop (16 + i) t)) with (@nil Z). cbn [eval]. split_and!; [done..|ring]. }
  subst r. cbn [for_upto]. pose proof (Hge i ltac:(lia)) as Hi. pose proof (Hge (i + 16)%nat ltac:(lia)) as Hi16.
  assert (Hstep : fold_step i t = <[i := at_ t i + 38 * at_ t (i + 16)]> t).
  { unfold fold_step. rewrite (s64_small (38 * _)), s64_small by lia. done. }
  rewrite Hstep. set (t' := <[i := _]> t).
  assert (Hat : ∀ k, at_ t' k = if decide (k = i) then at_ t i + 38 * at_ t (i + 16) else at_ t k).
  { intros k. unfold t', at_ at 1. destruct (decide (k = i)) as [->|Hk].
    - by rewrite list_lookup_insert_eq by lia.
    - by rewrite list_lookup_insert_ne by done. }
  assert (Hdrop : ∀ m, (16 <= m)%nat → drop m t' = drop m t).
  { intros m Hm. unfold t'. apply drop_insert_lt. lia. }
  destruct (IH (S i) t') as (H1 & H2 & H3 & H4).
  - lia.
  - unfold t'. by rewrite length_insert.
  - done.
  - intros k. rewrite Hat. case_decide; [lia|apply Hall].
  - intros k Hk. rewrite Hat. rewrite decide_False by lia. apply Hge. lia.
  - split_and!; [done|apply H2|rewrite H3; by apply Hdrop|].
    rewrite H4. unfold t' at 1. rewrite eval_insert by lia. rewrite Hdrop by lia.
    rewrite (at_take_drop t (16 + i)) by lia. cbn [eval]. rewrite wt_S. replace (16 + i)%nat with (i + 16)%nat by lia.
    replace (16 + S i)%nat with (S (i + 16)) by lia. ring.
Qed.

Lemma wt_0 : wt 0 = 1.
Proof. reflexivity. Qed.

Lemma reduce_spec t :
  length t = 31%nat → bounded (2 ^ 48) t →
  let r := take 16 (for_upto 0 15 fold_step t) in
  eval (carry (carry r)) ≡p eval t ∧ norm (carry (carry r)).
Proof.
  intros R1 R2. cbv zeta.
  assert (Ht : ∀ k, - 2 ^ 48 <= at_ t k <= 2 ^ 48) by (intros k; by apply bounded_at).
  destruct (fold_spec 15 0 t (2 ^ 48)) as (F1 & F2 & F3 & F4); [lia|done|lia|intros k; specialize (Ht k); lia|intros k _; apply Ht|].
  rewrite wt_0, Z.mul_1_r in F4. rewrite (take_ge (drop (16 + 0) t)) in F4 by (rewrite length_drop; lia).
  rewrite Nat.add_0_r in F4.
  generalize dependent (for_upto 0 15 fold_step t). intros r F1 F2 F3 F4.
  assert (Hlr : length (take 16 r) = 16%nat) by (rewrite length_take; lia).
  assert (Hbr : bounded (2 ^ 60) (take 16 r)).
  { apply Forall_take. apply Forall_lookup. intros k x Hx. specialize (F2 k). unfold at_ in F2. rewrite Hx in F2. cbn in F2. lia. }
  destruct (carry_twice _ Hlr Hbr) as [Hn He]. split; [|exact Hn]. rewrite He.
  assert (Hsplit : eval r = eval (take 16 r) + wt 16 * eval (drop 16 r)).
  { rewrite <- (take_drop 16 r) at 1. rewrite eval_app, length_take. by replace (16 `min` length r)%nat with 16%nat by lia. }
  rewrite F3 in Hsplit.
  transitivity (eval r - wt 16 * eval (drop 16 t)); [apply eqp_eq; lia|].
  transitivity (eval r - 38 * eval (drop 16 t)); [|apply eqp_eq; lia].
  apply eqp_sub; [reflexivity|]. apply eqp_mul; [apply wt_256|reflexivity].
Qed.

Lemma multmod_spec a b :
  (length a = 16)%nat → (length b = 16)%nat → bounded (2 ^ 20) a → bounded (2 ^ 20) b →
  eval (multmod a b) ≡p eval a * eval b ∧ norm (multmod a b).
Proof.
  intros Hla Hlb Ha Hb.
  destruct (mul_rows_spec a b 16 0 (replicate 31 0) 0 Hla Hlb) as (R1 & R2 & R3); [lia|reflexivity|done|done| |lia|lia|].
  { apply Forall_replicate. lia. }
  rewrite wt_0, drop_0, (take_ge a), Z.mul_1_l in R3 by lia.
  replace (eval (replicate 31 0)) with 0 in R3 by reflexivity. rewrite Z.add_0_l in R3.
  replace (0 + 2 ^ 44 * Z.of_nat 16) with (2 ^ 48) in R2 by reflexivity.
  unfold multmod. generalize dependent (for_upto 0 16 (mul_row a b) (replicate 31 0)). intros t R1 R2 R3.
  rewrite <- R3. by apply reduce_spec.
Qed.

(** ** Sums and differences *)

Lemma add_spec K L a b :
  length a = length b → bounded K a → bounded L b → 0 <= K → 0 <= L → K + L < 2 ^ 62 →
  eval (add a b) = eval a + eval b ∧ bounded (K + L) (add a b) ∧ length (add a b) = length a.
Proof.
  intros Hlen Ha. revert b Hlen. induction Ha as [|x a Hx Ha IH]; intros [|y b] Hlen Hb HK HL HKL; cbn in Hlen; [..|].
  - split_and!; [done|constructor|done].
  - done.
  - done.
  - apply Forall_cons in Hb as [Hy Hb]. destruct (IH b ltac:(lia) Hb HK HL HKL) as (H1 & H2 & H3). unfold add in *.
    cbn [zip_with eval length]. rewrite s64_small by lia. split_and!; [lia|constructor; [lia|done]|lia].
Qed.
Lemma subtract_spec K L a b :
  length a = length b → bounded K a → bounded L b → 0 <= K → 0 <= L → K + L < 2 ^ 62 →
  eval (subtract a b) = eval a - eval b ∧ bounded (K + L) (subtract a b) ∧ length (subtract a b) = length a.
Proof.
  intros Hlen Ha. revert b Hlen. induction Ha as [|x a Hx Ha IH]; intros [|y b] Hlen Hb HK HL HKL; cbn in Hlen; [..|].
  - split_and!; [done|constructor|done].
  - done.
  - done.
  - apply Forall_cons in Hb as [Hy Hb]. destruct (IH b ltac:(lia) Hb HK HL HKL) as (H1 & H2 & H3). unfold subtract in *.
    cbn [zip_with eval length]. rewrite s64_small by lia. split_and!; [lia|constructor; [lia|done]|lia].
Qed.

Lemma cswap_spec p q b : length p = length q → EmbedCurve.cswap p q (c_bool b) = if b then (q, p) else (p, q).
Proof.
  intros Hlen. unfold EmbedCurve.cswap.
  assert (Hx : ∀ x y : Z, x .^ (x .^ y) = y) by (intros; by rewrite <- Z.lxor_assoc, Z.lxor_nilpotent, Z.lxor_0_l).
  destruct b.
  - change (~~ (c_bool true - 1)) with (-1).
    revert q Hlen. induction p as [|x p IH]; intros [|y q] Hlen; cbn in Hlen; [done..|].
    specialize (IH q ltac:(lia)). injection IH as IH1 IH2. cbn [zip_with]. rewrite IH1, IH2.
    rewrite !Z.land_m1_l, Hx, (Z.lxor_comm x y), Hx. done.
  - change (~~ (c_bool false - 1)) with 0.
    revert q Hlen. induction p as [|x p IH]; intros [|y q] Hlen; cbn in Hlen; [done..|].
    specialize (IH q ltac:(lia)). injection IH as IH1 IH2. cbn [zip_with]. rewrite IH1, IH2. by rewrite Z.land_0_l, !Z.lxor_0_r.
Qed.

(** ** Inversion *)

Lemma norm_wide l : norm l → length l = 16%nat ∧ bounded (2 ^ 20) l.
Proof. intros Hl. split; [apply Hl|]. eapply bounded_mono; [|by apply norm_bounded]. lia. Qed.

Lemma multmod_norm a b : norm a → norm b → eval (multmod a b) ≡p eval a * eval b ∧ norm (multmod a b).
Proof. intros [Ha Ha']%norm_wide [Hb Hb']%norm_wide. by apply multmod_spec. Qed.

(** The exponent that the loop reaches. *)
Fixpoint exponent (n : nat) (k : Z) : Z :=
  match n with
  | O => k
  | S a => exponent a (if negb (Nat.eqb a 2) && negb (Nat.eqb a 4) then 2 * k + 1 else 2 * k)
  end.

Lemma invert_loop_power n c i k :
  norm i → is_power eval norm (eval i) c k → is_power eval norm (eval i) (invert_loop n c i) (exponent n k).
Proof.
  intros Hi. revert c k. induction n as [|a IH]; intros c k Hc; cbn [invert_loop exponent]; [done|].
  pose proof (power_mul eval norm multmod multmod_norm _ _ _ _ _ Hc Hc) as Hsq.
  replace (k + k) with (2 * k) in Hsq by lia. apply IH.
  destruct (negb _ && negb _); [|done].
  apply (power_mul eval norm multmod multmod_norm _ _ _ _ _ Hsq). by apply power_one.
Qed.

Lemma invert_spec i : norm i → eval (invert i) ≡p eval i ^ (P25519 - 2) ∧ norm (invert i).
Proof.
  intros Hi. destruct (invert_loop_power 254 i i 1 Hi) as (H1 & H2 & _); [by apply power_one|].
  replace (exponent 254 1) with (P25519 - 2) in H1 by (vm_compute; reflexivity). done.
Qed.

(** ** The ladder *)

Definition stands (v : ladder_vars) (s : ladder_state) : Prop :=
  (norm (la v) ∧ norm (lb v) ∧ norm (lc v) ∧ norm (ld v)) ∧
  eval (la v) ≡p x_2 s ∧ eval (lc v) ≡p z_2 s ∧ eval (lb v) ≡p x_3 s ∧ eval (ld v) ≡p z_3 s.

Lemma norm_add a b : norm a → norm b → eval (add a b) = eval a + eval b ∧ length (add a b) = 16%nat ∧ bounded (2 ^ 18) (add a b).
Proof.
  intros Ha Hb. destruct (add_spec 65573 65573 a b) as (H1 & H2 & H3);
    [by rewrite (proj1 Ha), (proj1 Hb)|by apply norm_bounded..|lia|lia|lia|].
  split_and!; [done|rewrite H3; apply Ha|]. eapply bounded_mono; [|exact H2]. lia.
Qed.
Lemma norm_subtract a b : norm a → norm b → eval (subtract a b) = eval a - eval b ∧ length (subtract a b) = 16%nat ∧ bounded (2 ^ 18) (subtract a b).
Proof.
  intros Ha Hb. destruct (subtract_spec 65573 65573 a b) as (H1 & H2 & H3);
    [by rewrite (proj1 Ha), (proj1 Hb)|by apply norm_bounded..|lia|lia|lia|].
  split_and!; [done|rewrite H3; apply Ha|]. eapply bounded_mono; [|exact H2]. lia.
Qed.
Lemma multmod_18 a b :
  length a = 16%nat → length b = 16%nat → bounded (2 ^ 18) a → bounded (2 ^ 18) b →
  eval (multmod a b) ≡p eval a * eval b ∧ norm (multmod a b).
Proof. intros Ha Hb Ha' Hb'. apply multmod_spec; [done|done|eapply bounded_mono; [|done]; lia..]. Qed.
Lemma norm_18 a : norm a → length a = 16%nat ∧ bounded (2 ^ 18) a.
Proof. intros Ha. split; [apply Ha|]. eapply bounded_mono; [|by apply norm_bounded]. lia. Qed.

Definition swap_vars (b : bool) (v : ladder_vars) : ladder_vars :=
  if b then {| la := lb v; lb := la v; lc := ld v; ld := lc v |} else v.
Lemma stands_swap_vars b v s : stands v s → stands (swap_vars b v) (Field25519.cswap b s).
Proof. intros (Hn & H1 & H2 & H3 & H4). destruct b; [|done]. split; [cbn; tauto|]. cbn. tauto. Qed.

(** The turn between its swaps. *)
Definition turn (v : ladder_vars) : ladder_vars :=
  let a := la v in let b := lb v in let c := lc v in let d := ld v in
  let e := add a c in
  let a := subtract a c in
  let c := add b d in
  let b := subtract b d in
  let d := multmod e e in
  let f := multmod a a in
  let a := multmod c a in
  let c := multmod b e in
  let e := add a c in
  let a := subtract a c in
  let b := multmod a a in
  let c := subtract d f in
  let a := multmod c (fe_of [0xdb41; 1]) in
  let a := add a d in
  let c := multmod c a in
  let a := multmod d f in
  let d := multmod b (fe_of [9]) in
  let b := multmod e e in
  {| la := a; lb := b; lc := c; ld := d |}.

Lemma fe_of_wide x y : 0 <= x <= 65535 → 0 <= y <= 65535 → length (fe_of [x; y]) = 16%nat ∧ bounded (2 ^ 18) (fe_of [x; y]) ∧ eval (fe_of [x; y]) = x + 65536 * y.
Proof.
  intros Hx Hy. split_and!; [done| |cbn; lia]. unfold fe_of. apply Forall_app. split; [|apply Forall_replicate; lia].
  repeat (constructor; [lia|]). constructor.
Qed.

Lemma turn_spec v s : stands v s → stands (turn v) (ladder_step 9 s).
Proof.
  destruct v as [a b c d]. intros ((Na & Nb & Nc & Nd) & Ha & Hc & Hb & Hd). unfold turn. cbn [la lb lc ld] in *. cbv zeta.
  destruct (norm_add _ _ Na Nc) as (E1 & L1 & B1). generalize dependent (add a c). intros e1 E1 L1 B1.
  destruct (norm_subtract _ _ Na Nc) as (E2 & L2 & B2). generalize dependent (subtract a c). intros a1 E2 L2 B2.
  destruct (norm_add _ _ Nb Nd) as (E3 & L3 & B3). generalize dependent (add b d). intros c1 E3 L3 B3.
  destruct (norm_subtract _ _ Nb Nd) as (E4 & L4 & B4). generalize dependent (subtract b d). intros b1 E4 L4 B4.
  destruct (multmod_18 e1 e1 L1 L1 B1 B1) as [M1 N1]. generalize dependent (multmod e1 e1). intros aa M1 N1.
  destruct (multmod_18 a1 a1 L2 L2 B2 B2) as [M2 N2]. generalize dependent (multmod a1 a1). intros bb M2 N2.
  destruct (multmod_18 c1 a1 L3 L2 B3 B2) as [M3 N3]. generalize dependent (multmod c1 a1). intros cb M3 N3.
  destruct (multmod_18 b1 e1 L4 L1 B4 B1) as [M4 N4]. generalize dependent (multmod b1 e1). intros da M4 N4.
  destruct (norm_add _ _ N3 N4) as (E5 & L5 & B5). generalize dependent (add cb da). intros e2 E5 L5 B5.
  destruct (norm_subtract _ _ N3 N4) as (E6 & L6 & B6). generalize dependent (subtract cb da). intros a2 E6 L6 B6.
  destruct (multmod_18 a2 a2 L6 L6 B6 B6) as [M5 N5]. generalize dependent (multmod a2 a2). intros b2 M5 N5.
  destruct (norm_subtract _ _ N1 N2) as (E7 & L7 & B7). generalize dependent (subtract aa bb). intros c2 E7 L7 B7.
  destruct (fe_of_wide 0xdb41 1 ltac:(lia) ltac:(lia)) as (L8 & B8 & E8).
  destruct (multmod_18 c2 _ L7 L8 B7 B8) as [M6 N6]. generalize dependent (multmod c2 (fe_of [0xdb41; 1])). intros a3 M6 N6.
  destruct (norm_add _ _ N6 N1) as (E9 & L9 & B9). generalize dependent (add a3 aa). intros a4 E9 L9 B9.
  destruct (multmod_18 c2 a4 L7 L9 B7 B9) as [M7 N7]. generalize dependent (multmod c2 a4). intros z2 M7 N7.
  destruct (norm_18 _ N1) as [L10 B10], (norm_18 _ N2) as [L11 B11], (norm_18 _ N5) as [L12 B12].
  destruct (multmod_18 aa bb L10 L11 B10 B11) as [M8 N8]. generalize dependent (multmod aa bb). intros x2 M8 N8.
  destruct (fe_of_wide 9 0 ltac:(lia) ltac:(lia)) as (L13 & B13 & E13).
  change (fe_of [9]) with (fe_of [9; 0]).
  destruct (multmod_18 b2 _ L12 L13 B12 B13) as [M9 N9]. generalize dependent (multmod b2 (fe_of [9; 0])). intros z3 M9 N9.
  destruct (multmod_18 e2 e2 L5 L5 B5 B5) as [M10 N10]. generalize dependent (multmod e2 e2). intros x3 M10 N10.
  split; [done|]. cbn [la lb lc ld ladder_step x_2 z_2 x_3 z_3]. rewrite E8 in M6. rewrite E13 in M9.
  rewrite !eqp_mod. split_and!.
  - rewrite M8, M1, M2, E1, E2, Ha, Hc. reflexivity.
  - rewrite M7, E9, M6, E7, M1, M2, E1, E2, Ha, Hc. unfold a24. apply eqp_eq. ring.
  - rewrite M10, E5, M3, M4, E3, E2, E4, E1, Ha, Hb, Hc, Hd. apply eqp_eq. ring.
  - rewrite M9, M5, E6, M3, M4, E3, E2, E4, E1, Ha, Hb, Hc, Hd. apply eqp_eq. ring.
Qed.

Lemma private_key_bit z i :
  all_bytes z = true → (i < 8 * length z)%nat →
  (at_ z (i / 8) .>> Z.of_nat (i mod 8)) .& 1 = c_bool (Z.testbit (le_value z) (Z.of_nat i)).
Proof.
  intros Hz Hi. pose proof (Nat.div_mod_eq i 8) as Hdm. pose proof (Nat.mod_upper_bound i 8 ltac:(lia)).
  assert (Heq : Z.of_nat i = 8 * Z.of_nat (i / 8) + Z.of_nat (i mod 8)) by lia.
  assert (Hbit : Z.testbit (le_value z) (Z.of_nat i) = Z.testbit (at_ z (i / 8)) (Z.of_nat (i mod 8))).
  { rewrite Heq at 1. apply le_value_testbit; [done|apply Nat.Div0.div_lt_upper_bound; lia|lia]. }
  rewrite Hbit, (Z.land_ones _ 1), <- Z.bit0_mod, Z.shiftr_spec, Z.add_0_l by lia. by destruct (Z.testbit _ _).
Qed.

Definition swapped (r : Z) (v : ladder_vars) : ladder_vars :=
  {| la := (EmbedCurve.cswap (la v) (lb v) r).1; lb := (EmbedCurve.cswap (la v) (lb v) r).2;
     lc := (EmbedCurve.cswap (lc v) (ld v) r).1; ld := (EmbedCurve.cswap (lc v) (ld v) r).2 |}.
Lemma ladder_turn_swapped z i v :
  let r := (at_ z (i / 8) .>> Z.of_nat (i mod 8)) .& 1 in
  ladder_turn z i v = swapped r (turn (swapped r v)).
Proof.
  intros r. unfold ladder_turn, swapped, turn. fold r. cbv zeta. cbn [la lb lc ld].
  generalize (EmbedCurve.cswap (la v) (lb v) r) (EmbedCurve.cswap (lc v) (ld v) r). intros [a b] [c d]. cbn [fst snd].
  generalize EmbedCurve.cswap multmod add subtract. intros csw mul plus minus.
  repeat match goal with |- context [match csw ?x ?y r with _ => _ end] => destruct (csw x y r) as [? ?] end. reflexivity.
Qed.
Lemma swapped_spec b v s : stands v s → swapped (c_bool b) v = swap_vars b v.
Proof.
  intros ((Na & Nb & Nc & Nd) & _). unfold swapped.
  rewrite !cswap_spec by (by rewrite (proj1 Na), (proj1 Nb) || by rewrite (proj1 Nc), (proj1 Nd)). by destruct b, v.
Qed.

Lemma embed_ladder_turn z i v s :
  all_bytes z = true → (i < 8 * length z)%nat → stands v s →
  stands (ladder_turn z i v) (ladder_bit 9 (Z.testbit (le_value z) (Z.of_nat i)) s).
Proof.
  intros Hz Hi Hs. rewrite ladder_turn_swapped. cbv zeta. rewrite private_key_bit by done. set (b := Z.testbit _ _).
  rewrite (swapped_spec b v s Hs). pose proof (turn_spec _ _ (stands_swap_vars b v s Hs)) as Ht.
  rewrite (swapped_spec b _ _ Ht). apply stands_swap_vars. exact Ht.
Qed.

Lemma embed_ladder_loop z n v s :
  all_bytes z = true → (n <= 8 * length z)%nat → stands v s → stands (ladder_loop z n v) (ladder 9 (le_value z) n s).
Proof.
  intros Hz. revert v s. induction n as [|i IH]; intros v s Hn Hs; cbn [ladder_loop ladder]; [done|].
  apply IH; [lia|]. by apply embed_ladder_turn.
Qed.

(** ** Packing *)

Lemma eval_limbs l : limbs l → 0 <= eval l < wt (length l).
Proof.
  induction 1 as [|x l Hx Hl IH]; cbn [eval length]; [rewrite wt_0; lia|]. rewrite wt_S. lia.
Qed.

(** One more round brings the first limb into its range as well. *)
Lemma carry_norm l : norm l → limbs (carry l) ∧ length (carry l) = 16%nat ∧ eval (carry l) ≡p eval l.
Proof.
  intros Hn. pose proof (norm_bounded l Hn) as Hb. destruct Hn as (Hlen & x & r & -> & Hx & Hr).
  assert (Hb60 : bounded (2 ^ 60) (x :: r)) by (eapply bounded_mono; [|exact Hb]; lia).
  split_and!; [|by apply carry_length|by apply carry_eval].
  pose proof (chain_limbs 0 (x :: r)) as Hcl. pose proof (chain_eval 0 (x :: r)) as He.
  pose proof (chain_length 0 (x :: r)) as Hl. pose proof (eval_limbs r Hr) as Hre.
  rewrite carry_chain by done. rewrite Hlen, Z.add_0_r in He. rewrite Hlen in Hl.
  assert (Hu : -1 <= (chain 0 (x :: r)).2 <= 1).
  { cbn [chain snd]. apply chain_carry_unit; [done|]. bit_lia. }
  generalize dependent (chain 0 (x :: r)). intros [k c] Hcl He Hl Hu. cbn [fst snd] in *.
  destruct k as [|y k]; [done|]. apply Forall_cons in Hcl as [Hy Hk]. pose proof (eval_limbs k Hk) as Hke.
  cbn [length] in Hl, Hlen. assert (Hlk : length k = 15%nat) by lia. assert (Hlr : length r = 15%nat) by lia.
  rewrite Hlk in Hke. rewrite Hlr in Hre. cbn [eval] in He. rewrite (wt_S 15) in He. pose proof (wt_pos 15).
  unfold add_first. change (at_ (y :: k) 0) with y. cbn [insert list_insert]. constructor; [|done].
  generalize dependent (wt 15). intros w He Hre Hke Hw.
  assert (c = -1 ∨ c = 0 ∨ c = 1) as [-> | [-> | ->]] by lia; lia.
Qed.

Lemma chain_limbs_id l : limbs l → chain 0 l = (l, 0).
Proof.
  induction 1 as [|x l Hx Hl IH]; [done|]. cbn [chain]. rewrite Z.add_0_r, Z.mod_small, Z.div_small, IH by lia. done.
Qed.
Lemma carry_limbs l : length l = 16%nat → limbs l → carry l = l.
Proof.
  intros Hlen Hl. rewrite carry_chain, chain_limbs_id; [|done|done|].
  - cbn [fst snd]. unfold add_first. rewrite Z.add_0_r. destruct l as [|x l]; [done|]. done.
  - eapply bounded_mono; [|by apply limbs_bounded]. lia.
Qed.

Lemma eval_ones n : eval (replicate n 0xffff) = wt n - 1.
Proof. induction n as [|n IH]; [done|]. cbn [replicate eval]. rewrite IH, wt_S. lia. Qed.

Lemma borrow_bit x : -65536 <= x <= 65535 → (x .>> 16) .& 1 = - (x / 2 ^ 16).
Proof.
  intros Hx. rewrite shr16. assert (x / 2 ^ 16 = -1 ∨ x / 2 ^ 16 = 0) as [-> | ->] by bit_lia; reflexivity.
Qed.

(** The limbs below position [length pre] are done, and [x] is the last difference. *)
Lemma sub_loop t n pre x rest :
  length t = 16%nat → limbs t → (length pre + n < 15)%nat → (length pre + 1 + length rest = 16)%nat →
  limbs pre → -65536 <= x <= 65535 →
  ∃ pre' x' rest',
    for_upto (S (length pre)) n (sub_step t) (pre ++ x :: rest) = pre' ++ x' :: rest' ∧
    length pre' = (length pre + n)%nat ∧ length rest' = (length rest - n)%nat ∧ limbs pre' ∧ -65536 <= x' <= 65535 ∧
    eval (pre' ++ [x']) = eval (pre ++ [x]) + wt (S (length pre)) * (eval (take n (drop (S (length pre)) t)) - (wt n - 1)).
Proof.
  intros Hlt Ht. revert pre x rest. induction n as [|n IH]; intros pre x rest Hn Hlen Hpre Hx; cbn [for_upto].
  { exists pre, x, rest. change (take 0 _) with (@nil Z). cbn [eval]. rewrite wt_0. split_and!; [done|lia|lia|done|lia|lia|lia]. }
  destruct rest as [|y rest]; [cbn [length] in Hlen; lia|]. cbn [length] in Hlen.
  assert (Hti : 0 <= at_ t (S (length pre)) < 65536).
  { unfold at_. destruct (lookup_lt_is_Some_2 t (S (length pre)) ltac:(lia)) as [w Hw]. rewrite Hw. cbn.
    exact (proj1 (Forall_lookup _ t) Ht _ _ Hw). }
  set (z := at_ t (S (length pre)) - 0xffff + x / 2 ^ 16).
  assert (Hdiv : -1 <= x / 2 ^ 16 <= 0) by bit_lia.
  assert (Hstep : sub_step t (S (length pre)) (pre ++ x :: y :: rest) = (pre ++ [x mod 2 ^ 16]) ++ z :: rest).
  { unfold sub_step. replace (S (length pre) - 1)%nat with (length pre) by lia.
    assert (Hat : ∀ w r, at_ (pre ++ w :: r) (length pre) = w) by (intros; unfold at_; by rewrite list_lookup_middle).
    rewrite Hat, borrow_bit, (s64_small (at_ t _ - _)), s64_small by lia.
    replace (<[S (length pre) := _]> (pre ++ x :: y :: rest)) with (pre ++ x :: z :: rest).
    2: { rewrite insert_app_r_alt by lia. replace (S (length pre) - length pre)%nat with 1%nat by lia. unfold z. cbn [insert list_insert].
         do 3 f_equal. lia. }
    rewrite Hat, land_low, insert_app_r_alt, Nat.sub_diag by lia. cbn [insert list_insert]. by rewrite <- app_assoc. }
  rewrite Hstep. destruct (IH (pre ++ [x mod 2 ^ 16]) z rest) as (pre' & x' & rest' & H1 & H2 & H3 & H4 & H5 & H6).
  - rewrite length_app. cbn [length]. lia.
  - rewrite length_app. cbn [length]. lia.
  - apply Forall_app. split; [done|]. apply Forall_singleton. apply Z.mod_pos_bound. lia.
  - unfold z. lia.
  - rewrite length_app in *. cbn [length] in *. rewrite Nat.add_1_r in *.
    exists pre', x', rest'. split_and!; [exact H1|lia|lia|done|lia|lia|]. rewrite H6, (at_take_drop t) by lia.
    cbn [eval]. rewrite !eval_app, length_app. cbn [length eval]. rewrite Nat.add_1_r, !wt_S.
    pose proof (Z.div_mod x (2 ^ 16) ltac:(lia)) as Hdm. unfold z. 
    set (q := x / 2 ^ 16) in *. set (rm := x mod 2 ^ 16) in *. rewrite Hdm. ring.
Qed.

(** A round subtracts the prime, and borrows exactly when the value is below it. *)
Lemma sub_round_spec t m :
  length t = 16%nat → limbs t → length m = 16%nat →
  ∃ d, sub_round t m = (d, c_bool (eval t <? P25519)) ∧ length d = 16%nat ∧
    (P25519 <= eval t → limbs d ∧ eval d = eval t - P25519).
Proof.
  intros Hlt Ht Hlm. destruct t as [|t0 t]; [done|]. destruct m as [|m0 m]; [done|]. cbn [length] in Hlt, Hlm.
  pose proof Ht as Ht'. apply Forall_cons in Ht' as [Ht0 Ht1].
  unfold sub_round. cbv zeta. change (at_ (t0 :: t) 0) with t0. rewrite (s64_small (t0 - _)) by lia.
  change (<[0%nat := ?v]> (m0 :: m)) with ([] ++ v :: m).
  destruct (sub_loop (t0 :: t) 14 [] (t0 - 0xffed) m) as (pre & x & rest & H1 & H2 & H3 & H4 & H5 & H6);
    [cbn [length]; lia|done|cbn [length]; lia|cbn [length]; lia|constructor|lia|].
  cbn [length] in H1, H2, H6. change (0 + 14)%nat with 14%nat in H2. rewrite H1. clear H1. destruct rest as [|y [|? ?]]; [cbn [length] in H3; lia| |cbn [length] in H3; lia].
  change (drop 1 (t0 :: t)) with t in H6.
  destruct (lookup_lt_is_Some_2 t 14 ltac:(lia)) as [t15 Ht15].
  assert (Hlast : at_ (t0 :: t) 15 = t15) by (unfold at_; change ((t0 :: t) !! 15%nat) with (t !! 14%nat); by rewrite Ht15).
  assert (Hr15 : 0 <= t15 < 65536) by exact (proj1 (Forall_lookup _ t) Ht1 _ _ Ht15).
  assert (Heval : eval (t0 :: t) = t0 + 2 ^ 16 * (eval (take 14 t) + wt 14 * t15)).
  { cbn [eval]. do 2 f_equal. rewrite <- (take_drop_middle t 14 t15 Ht15) at 1. rewrite eval_app, length_take.
    replace (14 `min` length t)%nat with 14%nat by lia. rewrite drop_ge by lia. cbn [eval]. ring. }
  assert (Hat : ∀ w r, at_ (pre ++ w :: r) 14 = w) by (intros w r; unfold at_; rewrite <- H2; by rewrite list_lookup_middle).
  assert (Hdiv : -1 <= x / 2 ^ 16 <= 0) by bit_lia.
  rewrite Hat, Hlast, borrow_bit, (s64_small (t15 - _)), s64_small by lia. set (z := t15 - 0x7fff - - (x / 2 ^ 16)).
  assert (Hins : <[15%nat := z]> (pre ++ [x; y]) = pre ++ [x; z]).
  { rewrite insert_app_r_alt by lia. by rewrite H2. }
  rewrite Hins, Hat. assert (Hat15 : at_ (pre ++ [x; z]) 15 = z) by (unfold at_; rewrite lookup_app_r by lia; by rewrite H2).
  rewrite Hat15, borrow_bit, land_low by (unfold z; lia). rewrite insert_app_r_alt by lia. rewrite H2. cbn [Nat.sub insert list_insert].
  assert (Hd : eval (pre ++ [x mod 2 ^ 16; z]) = eval (t0 :: t) - P25519).
  { rewrite eval_app, H2. rewrite !eval_app, H2 in H6. cbn [eval app] in *. rewrite Heval. unfold z.
    pose proof (Z.div_mod x (2 ^ 16) ltac:(lia)) as Hdm. change (wt 0) with 1 in *. change (wt 1) with (2 ^ 16) in *.
    change P25519 with (2 ^ 16 * (wt 14 * (0x7fff + 1)) - 19). set (q := x / 2 ^ 16) in *. set (r := x mod 2 ^ 16) in *.
    rewrite Hdm in H6. change (wt (length [])) with 1 in H6. generalize dependent (wt 14). intros w14 H6 _. lia. }
  assert (Hz : -65536 <= z <= 65535) by (unfold z; lia).
  assert (Hlim : limbs (pre ++ [x mod 2 ^ 16])).
  { apply Forall_app. split; [done|]. apply Forall_singleton, Z.mod_pos_bound. lia. }
  assert (Hsplit : eval (pre ++ [x mod 2 ^ 16; z]) = eval (pre ++ [x mod 2 ^ 16]) + wt 15 * z).
  { change (pre ++ [x mod 2 ^ 16; z]) with (pre ++ [x mod 2 ^ 16] ++ [z]). rewrite app_assoc, eval_app, length_app, H2. cbn [eval length Nat.add]. ring. }
  pose proof (eval_limbs _ Hlim) as Hel. rewrite length_app, H2 in Hel. change (14 + length [_])%nat with 15%nat in Hel.
  exists (pre ++ [x mod 2 ^ 16; z]). rewrite length_app, H2. split_and!; [f_equal|done|].
  - rewrite Hd in Hsplit. pose proof (wt_pos 15) as Hw. destruct (Z.ltb_spec (eval (t0 :: t)) P25519) as [Hlt'|Hge]; cbn [c_bool].
    + assert (z < 0) by nia. bit_lia.
    + assert (0 <= z) by nia. bit_lia.
  - intros Hge. split; [|done]. rewrite Hd in Hsplit. pose proof (wt_pos 15) as Hw. assert (0 <= z) by nia.
    change (pre ++ [x mod 2 ^ 16; z]) with (pre ++ [x mod 2 ^ 16] ++ [z]). rewrite app_assoc. apply Forall_app. split; [done|].
    apply Forall_singleton. lia.
Qed.

Lemma pack_round_spec k t m :
  length t = 16%nat → limbs t → length m = 16%nat →
  let r := pack_round k (t, m) in
  length r.1 = 16%nat ∧ limbs r.1 ∧ length r.2 = 16%nat ∧
  eval r.1 = if eval t <? P25519 then eval t else eval t - P25519.
Proof.
  intros Hlt Ht Hlm. destruct (sub_round_spec t m Hlt Ht Hlm) as (d & Hr & Hld & Hd). unfold pack_round. cbn [fst snd]. rewrite Hr.
  replace (1 - c_bool (eval t <? P25519)) with (c_bool (negb (eval t <? P25519))) by (by destruct (eval t <? P25519)).
  rewrite cswap_spec by lia. destruct (Z.ltb_spec (eval t) P25519); cbn [negb fst snd]; [done|].
  destruct Hd as [Hd1 Hd2]; done.
Qed.

Lemma limbs_bytes l :
  limbs l → flat_map (λ x, [u8 (x .& 0xff); u8 (x .>> 8)]) l = le_bytes (2 * length l) (eval l).
Proof.
  induction 1 as [|x l Hx Hl IH]; [done|]. cbn [flat_map length eval]. replace (2 * S (length l))%nat with (S (S (2 * length l))) by lia.
  cbn [le_bytes]. rewrite IH. unfold u8. change 0xff with (Z.ones 8). rewrite Z.land_ones, Z.shiftr_div_pow2 by lia. change (2 ^ 8) with 256.
  assert (H1 : (x + 2 ^ 16 * eval l) mod 256 = x mod 256).
  { replace (x + 2 ^ 16 * eval l) with (x + (256 * eval l) * 256) by lia. by apply Z.mod_add. }
  assert (H2 : (x + 2 ^ 16 * eval l) / 256 = x / 256 + 256 * eval l).
  { replace (x + 2 ^ 16 * eval l) with (x + (256 * eval l) * 256) by lia. by apply Z.div_add. }
  rewrite H1, H2, Zmod_mod, (Z.mul_comm 256), Z.mod_add, Z.div_add by lia.
  rewrite (Z.div_small (x / 256)) by bit_lia. done.
Qed.

Lemma pack_spec n : norm n → pack n = le_bytes 32 (eval n mod P25519).
Proof.
  intros Hn. destruct (carry_norm n Hn) as (Hl & Hlen & He). unfold pack. cbv zeta.
  rewrite !(carry_limbs (carry n)) by done. apply eqp_iff in He. rewrite <- He. clear He Hn.
  generalize dependent (carry n). clear n. intros t Hl Hlen. cbn [for_upto].
  pose proof (eval_limbs t Hl) as Hr. rewrite Hlen in Hr. change (wt 16) with (2 * P25519 + 38) in Hr.
  destruct (pack_round_spec 0 t (replicate 16 0) Hlen Hl eq_refl) as (L1 & B1 & M1 & E1).
  destruct (pack_round 0 (t, replicate 16 0)) as [t1 m1]. cbn [fst snd] in *.
  destruct (pack_round_spec 1 t1 m1 L1 B1 M1) as (L2 & B2 & M2 & E2).
  destruct (pack_round 1 (t1, m1)) as [t2 m2]. cbn [fst snd] in *.
  rewrite limbs_bytes by done. rewrite L2. change (2 * 16)%nat with 32%nat. f_equal.
  assert (HP : 38 < P25519) by done.
  rewrite E2, E1. clear E1 E2 L1 L2 B1 B2 M1 M2. generalize dependent P25519. intros p Hr HP.
  destruct (Z.ltb_spec (eval t) p).
  - rewrite (proj2 (Z.ltb_lt (eval t) p)) by done. symmetry. apply Z.mod_small. lia.
  - destruct (Z.ltb_spec (eval t - p) p).
    + apply (Z.mod_unique_pos _ _ 1); lia.
    + apply (Z.mod_unique_pos _ _ 2); lia.
Qed.

(** ** The function *)

Lemma clamp_key_secret z : clamp_key z = curve25519_clamp_secret z.
Proof.
  unfold clamp_key, curve25519_clamp_secret. cbv zeta. unfold at_.
  by rewrite !list_lookup_insert_ne, list_insert_insert_ne by done.
Qed.

Lemma norm_small x : 0 <= x <= 65535 → norm (fe_of [x]).
Proof.
  intros Hx. split; [done|]. exists x, (replicate 15 0). split_and!; [done|lia|lia|]. apply Forall_replicate. lia.
Qed.

Lemma public_key_x25519 private_key :
  all_bytes private_key = true → length private_key = 32%nat →
  wg_generate_public_key private_key = x25519 private_key (9 :: replicate 31 0).
Proof.
  intros Hs Ls. unfold wg_generate_public_key, x25519, x25519_value. rewrite clamp_key_secret. cbv zeta.
  change (le_value (9 :: replicate 31 0) mod 2 ^ 255) with 9. rewrite rfc_loop_ladder. change (Field25519.cswap false ?s) with s.
  pose proof (embed_ladder_loop (curve25519_clamp_secret private_key) 255
    {| la := fe_of [1]; lb := fe_of [9]; lc := fe_of [0]; ld := fe_of [1] |} (ladder_start 9)
    (clamp_bytes _ Hs) ltac:(rewrite clamp_length; lia)) as Hl.
  generalize dependent (ladder_loop (curve25519_clamp_secret private_key) 255
    {| la := fe_of [1]; lb := fe_of [9]; lc := fe_of [0]; ld := fe_of [1] |}).
  generalize (ladder 9 (le_value (curve25519_clamp_secret private_key)) 255 (ladder_start 9)).
  intros s v Hl. destruct Hl as ((Na & _ & Nc & _) & Ha & Hc & _).
  { split; [cbn [la lb lc ld]; by split_and!; apply norm_small|]. done. }
  destruct (invert_spec _ Nc) as [Ei Ni]. generalize dependent (invert (lc v)). intros c Ei Ni.
  destruct (multmod_norm _ _ Na Ni) as [Em Nm]. generalize dependent (multmod (la v) c). intros r Em Nm.
  rewrite (pack_spec r Nm). f_equal. unfold ladder_result. apply eqp_iff. rewrite Em, Ei, Ha, Hc.
  rewrite Zpow_mod_correct by done. by rewrite eqp_mod.
Qed.

(** C4: the embeddable library's own Curve25519 (sixteen signed 16-bit limbs)
    computes the public key that the X25519 function of RFC 7748 gives at the base point 9,
    hence the key that [wg pubkey] computes with either of its implementations: no
    [int64_t] operation wraps, and [pack] stores the reduced coordinate although it
    subtracts the prime only twice. *)
Theorem embedded_public_key private_key :
  all_bytes private_key = true → length private_key = CURVE25519_KEY_SIZE →
  wg_generate_public_key private_key = x25519 private_key (9 :: replicate 31 0) ∧
  ∀ int128, wg_generate_public_key private_key = generate_public int128 private_key.
Proof.
  intros Hs Ls. split; [by apply public_key_x25519|]. intros int128. rewrite generate_public_x25519 by done. by apply public_key_x25519.
Qed.

Lemma embedded_public_key_witness :
  wg_generate_public_key (replicate 32 0x5a) = x25519 (replicate 32 0x5a) (9 :: replicate 31 0) ∧
  ∀ int128, wg_generate_public_key (replicate 32 0x5a) = generate_public int128 (replicate 32 0x5a).
Proof. exact (embedded_public_key (replicate 32 0x5a) eq_refl eq_refl). Defined.
