(* ===== verification/Embed.v ===== *)
(** * Embed: the embeddable library

    contrib/embeddable-wg-library/wireguard.c, less its curve, which is EmbedCurve.  Its
    copy of netlink.h is word for word the file that Netlink models, and what it
    has in common with ipc.c, ipc-linux.h and encoding.c is named after the
    definitions there; what it does differently is written out.  [struct wg_device] and
    its parts are those of containers.h, except that an allowed address has no
    flags: [ai_flags] is not read here. *)

From Stdlib Require Import Ascii String.
From stdpp Require Import base numbers option sets list list_numbers strings.
From S2P Require Import Prelude CLib Ctype Encoding Containers Config Setconf Show Field25519 Keys Ipc Netlink IpcLinux EmbedCurve.
#[local] Open Scope c_scope.

Definition ENXIO : Z := 6.
Definition EAFNOSUPPORT : Z := 97.

(** ** Keys *)

Definition encode_base64 (s0 s1 s2 : Z) : bytes := Encoding.encode_base64 s0 s1 s2.
Definition wg_key_to_base64 (key : bytes) : bytes := key_to_base64 key.
Definition wg_key_is_zero (key : bytes) : bool := key_is_zero key.

Section Decode.
Context {plat : Platform}.
Definition decode_base64 (c0 c1 c2 c3 : Z) : Z := Encoding.decode_base64 c0 c1 c2 c3.

(** [wg_key_from_base64(key, base64)]: the result, a negative [errno], and the key. *)
Definition wg_key_from_base64 (key : bytes) (base64 : bytes) : Z * bytes :=
  if negb (Nat.eqb (length base64) (WG_KEY_LEN_BASE64 - 1)) || negb (at_ base64 (WG_KEY_LEN_BASE64 - 2) =? ch "=")
  then (- EINVAL, key)
  else
    let '(ret, key) := for_upto 0 (WG_KEY_LEN / 3) (from_base64_step base64) (0, key) in
    let i := (WG_KEY_LEN / 3)%nat in
    let val := decode_base64 (at_ base64 (i * 4 + 0)) (at_ base64 (i * 4 + 1)) (at_ base64 (i * 4 + 2)) (ch "A") in
    let ret := u8 (ret .| ((u32 val .>> 31) .| (val .& 0xff))) in
    let key := <[(i * 3 + 1)%nat := (val .>> 8) .& 0xff]> (<[(i * 3 + 0)%nat := (val .>> 16) .& 0xff]> key) in
    let errno := EINVAL .& (~~ ((ret - 1) .>> 8)) in
    (- errno, key).
End Decode.

Section Random.
Context {plat : Platform}.
Variable R : randomness.

(** A failed [assert]. *)
Definition abort {A} : outcome A := Exit 134.

(** [for (i = 0; i < sizeof(wg_key); i += ret)] *)
Fixpoint read_urandom_loop (fuel k i : nat) (preshared_key : bytes) : outcome bytes :=
  if (i <? WG_KEY_LEN)%nat then
    match fuel with
    | O => NoFuel
    | S fuel' =>
        let '(ret, b) := read_urandom R k (WG_KEY_LEN - i) in
        let preshared_key := store_at i b preshared_key in
        if negb (0 <? ret) then abort
        else read_urandom_loop fuel' (S k) (i + Z.to_nat ret) preshared_key
    end
  else Done preshared_key.

Definition wg_generate_preshared_key (preshared_key : bytes) : outcome bytes :=
  let '(ok, preshared_key) := try_getentropy R preshared_key WG_KEY_LEN in
  if (ok : bool) then Done preshared_key
  else
    let '(ok, preshared_key) := try_getrandom R preshared_key WG_KEY_LEN in
    if (ok : bool) then Done preshared_key
    else if negb (open_urandom R) then abort
    else read_urandom_loop WG_KEY_LEN 0 0 preshared_key.

Definition wg_generate_private_key (private_key : bytes) : outcome bytes :=
  match wg_generate_preshared_key private_key with
  | Done private_key => Done (clamp_key private_key)
  | Exit c => Exit c
  | Undefined => Undefined
  | NoFuel => NoFuel
  end.
End Random.

(** ** The names of the devices *)

Section Names.
Context {plat : Platform}.
Variables socket_errno bind_errno send_errno : Z.
Variables seq portid : Z.

Definition string_list_add (l : string_list) (s : bytes) : M (Z * string_list) := Ipc.string_list_add l s.
Definition read_devices_cb (nlh : bytes) (st : Z * string_list) : M (Z * (Z * string_list)) := IpcLinux.read_devices_cb nlh st.
Definition fetch_device_names (datagrams : list (Z + bytes)) (l : string_list) : M (Z * string_list) :=
  kernel_get_wireguard_interfaces socket_errno bind_errno send_errno seq portid datagrams l.

(** [wg_list_device_names()]: the cells of the buffer it returns. *)
Definition wg_list_device_names (datagrams : list (Z + bytes)) : M (option (list (option Z))) :=
  r ← fetch_device_names datagrams string_list_zero;
  if truthy (- r.1) then mret None
  else match buffer r.2 with
  | [] => copy ← alloc; mret (if negb copy then None else Some [Some 0])
  | b => mret (Some b)
  end.
End Names.

(** The names that [wg_for_each_device_name] gives to its body, on a buffer. *)
Definition wg_for_each_device_name (names : bytes) : list bytes := interface_names (S (length names)) names.

(** ** Adding and deleting a device *)

Definition RTM_NEWLINK : Z := 16.
Definition RTM_DELLINK : Z := 17.
Definition NLM_F_EXCL : Z := 0x200.
Definition NLM_F_CREATE : Z := 0x400.

Section Link.
(** [mnl_ideal_socket_buffer_size()], the size of [rtnl_buffer]. *)
Variable SBS : Z.
Variables socket_errno bind_errno : Z.
(** [time(NULL)], and the port of the socket. *)
Variables now portid : Z.
(** The [errno] of sending, 0 for none, and the result of receiving. *)
Variable transact : bytes → Z * (Z + bytes).

(** The message after its header: a zeroed [struct ifinfomsg] and the attributes. *)
Definition link_request (ifname : bytes) : bytes :=
  let nlh := replicate SIZEOF_IFINFOMSG 0 in
  let nlh := mnl_attr_put_strz nlh IFLA_IFNAME ifname in
  let '(nlh, nest) := mnl_attr_nest_start nlh IFLA_LINKINFO in
  let nlh := mnl_attr_put_strz nlh IFLA_INFO_KIND WG_GENL_NAME in
  mnl_attr_nest_end nlh nest.

Definition link_message (ifname : bytes) (add : bool) : bytes :=
  message_bytes (if add then RTM_NEWLINK else RTM_DELLINK)
    (NLM_F_REQUEST .| NLM_F_ACK .| (if add then NLM_F_CREATE .| NLM_F_EXCL else 0)) now 0 (link_request ifname).

(** [add_del_iface(ifname, add)].  The stores go past the end of the buffer when the
    name is too long for it.  A datagram overwrites the start of the buffer, from which
    [nlh->nlmsg_seq] is then read. *)
Definition add_del_iface (ifname : bytes) (add : bool) : M Z :=
  rtnl_buffer ← alloc;
  if negb rtnl_buffer then mret (- ENOMEM)
  else
    err ← mnl_socket_open socket_errno;
    if truthy err then mret (- err)
    else if truthy bind_errno then mret (- bind_errno)
    else if SBS <? nlmsg_len (link_request ifname) then undefined
    else
      let sent := link_message ifname add in
      let '(send_errno, received) := transact sent in
      if truthy send_errno then mret (- send_errno)
      else match received with
      | inl e => mret (- e)
      | inr buf =>
          let nlh := buf ++ drop (length buf) sent in
          r ← mnl_cb_run false (None : option (bytes → Z * () → M (Z * (Z * ())))) (msg_seq nlh) portid buf (0, ());
          mret (if r.1 <? 0 then - r.2.1 else 0)
      end.

Definition wg_add_device (device_name : bytes) : M Z := add_del_iface device_name true.
Definition wg_del_device (device_name : bytes) : M Z := add_del_iface device_name false.
End Link.

(** ** wg_set_device *)

Section Set_.
Variable SBS : Z.

(** The attributes of an allowed address: unlike in ipc-linux.h, no flags. *)
Definition put_ip_attrs (nlh : bytes) (a : wgallowedip) : option bytes :=
  nlh ← mnl_attr_put_u16_check SBS nlh WGALLOWEDIP_A_FAMILY (family a);
  nlh ← (if family a =? AF_INET then mnl_attr_put_check SBS nlh WGALLOWEDIP_A_IPADDR (ip4 a)
         else if family a =? AF_INET6 then mnl_attr_put_check SBS nlh WGALLOWEDIP_A_IPADDR (ip6 a)
         else Some nlh);
  mnl_attr_put_u8_check SBS nlh WGALLOWEDIP_A_CIDR_MASK (cidr a).

(** The loop over the addresses: the message, and the addresses that are left. *)
Fixpoint put_ips (nlh : bytes) (ips : list wgallowedip) : bytes * list wgallowedip :=
  match ips with
  | [] => (nlh, [])
  | a :: rest =>
      match mnl_attr_nest_start_check SBS nlh 0 with
      | None => (nlh, ips)
      | Some (nlh1, allowedip_nest) =>
          match put_ip_attrs nlh1 a with
          | None => (mnl_attr_nest_cancel nlh1 allowedip_nest, ips)
          | Some nlh2 => put_ips (mnl_attr_nest_end nlh2 allowedip_nest) rest
          end
      end
  end.

(** One peer: it did not fit, or the message and the addresses that are left.  What comes
    before its addresses is as in ipc-linux.h. *)
Definition put_peer (nlh : bytes) (p : wgpeer) (allowedip : list wgallowedip) : bytes + bytes * list wgallowedip :=
  match mnl_attr_nest_start_check SBS nlh 0 with
  | None => inl nlh
  | Some (nlh1, peer_nest) =>
      match put_peer_attrs SBS nlh1 p allowedip with
      | None => inl (mnl_attr_nest_cancel nlh1 peer_nest)
      | Some nlh2 =>
          match allowedips p with
          | [] => inr (mnl_attr_nest_end nlh2 peer_nest, [])
          | _ =>
              let allowedip := if negb (Nat.eqb (length allowedip) 0) then allowedip else allowedips p in
              match mnl_attr_nest_start_check SBS nlh2 WGPEER_A_ALLOWEDIPS with
              | None => inr (mnl_attr_nest_end nlh2 peer_nest, allowedip)
              | Some (nlh3, allowedips_nest) =>
                  let '(nlh4, rest) := put_ips nlh3 allowedip in
                  inr (mnl_attr_nest_end (mnl_attr_nest_end nlh4 allowedips_nest) peer_nest, rest)
              end
          end
      end
  end.

Fixpoint put_peers (nlh : bytes) (ps : list wgpeer) (allowedip : list wgallowedip) : bytes * list wgpeer * list wgallowedip :=
  match ps with
  | [] => (nlh, [], allowedip)
  | p :: next =>
      match put_peer nlh p allowedip with
      | inl nlh => (nlh, ps, allowedip)
      | inr (nlh, []) => put_peers nlh next []
      | inr (nlh, rest) => (nlh, ps, rest)
      end
  end.

(** From [again] to [send]. *)
Definition set_message (d : wgdevice) (peer : option (list wgpeer)) (allowedip : list wgallowedip)
    : bytes * list wgpeer * list wgallowedip :=
  let nlh := mnl_attr_put_strz (mnlg_msg_prepare WG_CMD_SET_DEVICE WG_GENL_VERSION) WGDEVICE_A_IFNAME (name d) in
  let nlh := if peer is None then put_device_attrs nlh d else nlh in
  match peers d with
  | [] => (nlh, [], allowedip)
  | _ =>
      let '(nlh, peers_nest) := mnl_attr_nest_start nlh WGDEVICE_A_PEERS in
      let '(nlh, rest, allowedip) := put_peers nlh (default (peers d) peer) allowedip in
      (mnl_attr_nest_end nlh peers_nest, rest, allowedip)
  end.

Variable socket_open : M (Z + Z).
Variables seq portid : Z.
Variable transact : nat → bytes → Z * list (Z + bytes).

Fixpoint set_loop (fuel : nat) (n : nat) (d : wgdevice) (peer : option (list wgpeer)) (allowedip : list wgallowedip)
    : M (list bytes * Z) :=
  match fuel with
  | O => out_of_fuel
  | S fuel' =>
      let '(nlh, rest, allowedip) := set_message d peer allowedip in
      ret ← set_send seq portid transact n nlh;
      if truthy ret then mret ([nlh], ret)
      else match rest with
      | [] => mret ([nlh], ret)
      | _ => r ← set_loop fuel' (S n) d (Some rest) allowedip; mret (nlh :: r.1, r.2)
      end
  end.

(** [wg_set_device(dev)]: the messages sent, and the result. *)
Definition wg_set_device (dev : wgdevice) : M (list bytes * Z) :=
  nlg ← socket_open;
  match nlg with
  | inl errno => mret ([], - errno)
  | inr _ => set_loop (set_fuel dev) 0 dev None []
  end.
End Set_.

(** ** wg_get_device

    The callbacks set [errno] where those of ipc-linux.h leave it alone. *)

Definition parse_allowedip (attr : bytes) (st : Z * wgallowedip) : M (Z * (Z * wgallowedip)) := IpcLinux.parse_allowedip attr st.

Definition parse_allowedips (attr : bytes) (st : Z * wgpeer) : M (Z * (Z * wgpeer)) :=
  new_allowedip ← alloc;
  if negb new_allowedip then mret (MNL_CB_ERROR, with_errno ENOMEM st)
  else
    let p := add_allowedip wgallowedip_zero st.2 in
    r ← mnl_attr_parse_nested attr parse_allowedip (st.1, wgallowedip_zero);
    let a := r.2.2 in
    let st := (r.2.1, put_last_allowedip a p) in
    if r.1 =? 0 then mret (r.1, st)
    else if negb (((family a =? AF_INET) && (cidr a <=? 32)) || ((family a =? AF_INET6) && (cidr a <=? 128)))
    then mret (MNL_CB_ERROR, with_errno EAFNOSUPPORT st)
    else mret (MNL_CB_OK, st).

Definition parse_peer (attr : bytes) (st : Z * wgpeer) : M (Z * (Z * wgpeer)) :=
  let t := mnl_attr_get_type attr in
  let len := mnl_attr_get_payload_len attr in
  let ok (p : wgpeer) : M (Z * (Z * wgpeer)) := mret (MNL_CB_OK, (st.1, p)) in
  let p := st.2 in
  if t =? WGPEER_A_PUBLIC_KEY then
    ok (if len =? 32 then set_p_flags (set_flag (p_flags p) WGPEER_HAS_PUBLIC_KEY) (set_p_public_key (payload attr 32) p) else p)
  else if t =? WGPEER_A_PRESHARED_KEY then
    ok (if len =? 32 then
          let p := set_preshared_key (payload attr 32) p in
          if negb (wg_key_is_zero (preshared_key p)) then set_p_flags (set_flag (p_flags p) WGPEER_HAS_PRESHARED_KEY) p else p
        else p)
  else if t =? WGPEER_A_ENDPOINT then
    ok (if len <? 16 then p
        else
          let addr := payload attr (Z.to_nat len) in
          if (sockaddr_family addr =? AF_INET) && (len =? SIZEOF_SOCKADDR_IN) then set_endpoint (sockaddr_of addr) p
          else if (sockaddr_family addr =? AF_INET6) && (len =? SIZEOF_SOCKADDR_IN6) then set_endpoint (sockaddr_of addr) p
          else p)
  else if t =? WGPEER_A_PERSISTENT_KEEPALIVE_INTERVAL then validated attr MNL_TYPE_U16 st (set_keepalive (mnl_attr_get_u16 attr))
  else if t =? WGPEER_A_LAST_HANDSHAKE_TIME then
    ok (if len =? 16 then set_tv_nsec (s64_at (drop 8 (payload attr 16))) (set_tv_sec (s64_at (payload attr 16)) p) else p)
  else if t =? WGPEER_A_RX_BYTES then validated attr MNL_TYPE_U64 st (set_rx_bytes (mnl_attr_get_u64 attr))
  else if t =? WGPEER_A_TX_BYTES then validated attr MNL_TYPE_U64 st (set_tx_bytes (mnl_attr_get_u64 attr))
  else if t =? WGPEER_A_ALLOWEDIPS then mnl_attr_parse_nested attr parse_allowedips st
  else ok p.

Definition parse_peers (attr : bytes) (st : Z * wgdevice) : M (Z * (Z * wgdevice)) :=
  new_peer ← alloc;
  if negb new_peer then mret (MNL_CB_ERROR, with_errno ENOMEM st)
  else
    let d := add_peer wgpeer_zero st.2 in
    r ← mnl_attr_parse_nested attr parse_peer (st.1, wgpeer_zero);
    let st := (r.2.1, put_last_peer r.2.2 d) in
    if r.1 =? 0 then mret (r.1, st)
    else if negb (has_flag (p_flags r.2.2) WGPEER_HAS_PUBLIC_KEY) then mret (MNL_CB_ERROR, with_errno ENXIO st)
    else mret (MNL_CB_OK, st).

Definition parse_device (attr : bytes) (st : Z * wgdevice) : M (Z * (Z * wgdevice)) :=
  let t := mnl_attr_get_type attr in
  let len := mnl_attr_get_payload_len attr in
  let ok (d : wgdevice) : M (Z * (Z * wgdevice)) := mret (MNL_CB_OK, (st.1, d)) in
  let d := st.2 in
  if t =? WGDEVICE_A_IFINDEX then validated attr MNL_TYPE_U32 st (set_ifindex (mnl_attr_get_u32 attr))
  else if t =? WGDEVICE_A_IFNAME then validated attr MNL_TYPE_STRING st (store_name (mnl_attr_get_str attr))
  else if t =? WGDEVICE_A_PRIVATE_KEY then
    ok (if len =? 32 then set_flags (set_flag (flags d) WGDEVICE_HAS_PRIVATE_KEY) (set_private_key (payload attr 32) d) else d)
  else if t =? WGDEVICE_A_PUBLIC_KEY then
    ok (if len =? 32 then set_flags (set_flag (flags d) WGDEVICE_HAS_PUBLIC_KEY) (set_public_key (payload attr 32) d) else d)
  else if t =? WGDEVICE_A_LISTEN_PORT then validated attr MNL_TYPE_U16 st (set_listen_port (mnl_attr_get_u16 attr))
  else if t =? WGDEVICE_A_FWMARK then validated attr MNL_TYPE_U32 st (set_fwmark (mnl_attr_get_u32 attr))
  else if t =? WGDEVICE_A_PEERS then mnl_attr_parse_nested attr parse_peers st
  else ok d.

Definition read_device_cb (nlh : bytes) (st : Z * wgdevice) : M (Z * (Z * wgdevice)) := mnl_attr_parse nlh 4 parse_device st.

Definition coalesce_peers (device : wgdevice) : M wgdevice := IpcLinux.coalesce_peers device.

Section Get.
Variable SBS : Z.
Variable socket_open : M (Z + Z).
Variable send_errno : Z.
Variables seq portid : Z.
Variable answers : nat → list (Z + bytes).

(** The message after its header. *)
Definition get_request (device_name : bytes) : bytes :=
  mnl_attr_put_strz (mnlg_msg_prepare WG_CMD_GET_DEVICE WG_GENL_VERSION) WGDEVICE_A_IFNAME device_name.

(** [wg_get_device(device, device_name)], from [try_again] on: [ret] is set to 0 before
    the label and not after it.  The name is not bounded before it is stored. *)
Fixpoint get_attempt (fuel : nat) (n : nat) (ret : Z) (device_name : bytes) : M (Z * option wgdevice) :=
  match fuel with
  | O => out_of_fuel
  | S fuel' =>
      device ← alloc;
      if negb device then mret (- ENOMEM, None)
      else
        nlg ← socket_open;
        match nlg with
        | inl errno => mret (- errno, None)
        | inr _ =>
            if SBS <? nlmsg_len (get_request device_name) then undefined
            else
              r ← (if truthy send_errno then mret (- send_errno, wgdevice_zero)
                   else
                     r ← mnlg_socket_recv_run (Some read_device_cb) seq portid (answers n) (0, wgdevice_zero);
                     if r.1 <? 0 then mret (if truthy r.2.1 then - r.2.1 else - EINVAL, r.2.2)
                     else d ← coalesce_peers r.2.2; mret (ret, d));
              if truthy r.1 then
                if r.1 =? - EINTR then get_attempt fuel' (S n) r.1 device_name else mret (r.1, None)
              else mret (r.1, Some r.2)
        end
  end.
Definition wg_get_device (fuel : nat) (device_name : bytes) : M (Z * option wgdevice) := get_attempt fuel 0 0 device_name.
End Get.
