(* ===== verification/EmbedSpec.v ===== *)
(** * EmbedSpec: the embeddable library against the tools

    What [wg_set_device] sends is what [kernel_set_device] sends for the same device, and
    [wg_get_device] hands out what [kernel_get_device] reads at its first attempt: the
    theorems of the Linux transport hold for the library as well.  What the library
    does otherwise is stated here. *)

From Stdlib Require Import Ascii String.
From stdpp Require Import base numbers option sets list list_numbers strings.
From S2P Require Import Embed.
From S2P Require Import Prelude CLib Ctype Encoding Containers Config Setconf Show Field25519 Curve25519 Keys Ipc IpcSpec Netlink NetlinkSpec IpcLinux IpcLinuxSpec IpcLinuxGetSpec IpcLinuxLinksSpec EmbedCurve EmbedCurveSpec.
#[local] Open Scope c_scope.

(** ** Setting a device *)

(** The device without the flags that the library's addresses do not have. *)
Definition no_ip_flags (a : wgallowedip) : wgallowedip := {| family := family a; ip := ip a; cidr := cidr a; ai_flags := 0 |}.
Definition plain_peer (p : wgpeer) : wgpeer := set_allowedips (no_ip_flags <$> allowedips p) p.
Definition plain (d : wgdevice) : wgdevice := set_peers (plain_peer <$> peers d) d.

Section Set_.
Variable SBS : Z.

Lemma put_ip_attrs_plain nlh a : IpcLinux.put_ip_attrs SBS nlh (no_ip_flags a) = Embed.put_ip_attrs SBS nlh a.
Proof.
  unfold IpcLinux.put_ip_attrs, Embed.put_ip_attrs, ip4, ip6. cbn [family ip cidr ai_flags no_ip_flags]. change (truthy 0) with false.
  destruct (mnl_attr_put_u16_check SBS nlh WGALLOWEDIP_A_FAMILY (family a)) as [nlh1|]; [|done].
  cbn [mbind option_bind]. destruct (if family a =? AF_INET then _ else _) as [nlh2|]; [|done]. cbn [mbind option_bind].
  by destruct (mnl_attr_put_u8_check SBS nlh2 WGALLOWEDIP_A_CIDR_MASK (cidr a)).
Qed.

Lemma put_ips_plain nlh ips :
  IpcLinux.put_ips SBS nlh (no_ip_flags <$> ips) = ((Embed.put_ips SBS nlh ips).1, no_ip_flags <$> (Embed.put_ips SBS nlh ips).2).
Proof.
  revert nlh. induction ips as [|a ips IH]; intros nlh; [done|]. rewrite fmap_cons. cbn [IpcLinux.put_ips Embed.put_ips].
  destruct (mnl_attr_nest_start_check SBS nlh 0) as [[nlh1 nst]|]; [|done]. rewrite put_ip_attrs_plain.
  by destruct (Embed.put_ip_attrs SBS nlh1 a).
Qed.

Definition plain_left (x : bytes + bytes * list wgallowedip) : bytes + bytes * list wgallowedip :=
  match x with inl b => inl b | inr (b, l) => inr (b, no_ip_flags <$> l) end.

Lemma put_peer_plain nlh p ai :
  IpcLinux.put_peer SBS nlh (plain_peer p) (no_ip_flags <$> ai) = plain_left (Embed.put_peer SBS nlh p ai).
Proof.
  unfold IpcLinux.put_peer, Embed.put_peer. destruct (mnl_attr_nest_start_check SBS nlh 0) as [[nlh1 nst]|]; [|done].
  replace (put_peer_attrs SBS nlh1 (plain_peer p) (no_ip_flags <$> ai)) with (put_peer_attrs SBS nlh1 p ai)
    by (unfold put_peer_attrs; by rewrite length_fmap).
  destruct (put_peer_attrs SBS nlh1 p ai) as [nlh2|]; [|done]. rewrite length_fmap.
  change (allowedips (plain_peer p)) with (no_ip_flags <$> allowedips p).
  destruct (allowedips p) as [|a l]; [done|]. rewrite fmap_cons.
  replace (if negb (Nat.eqb (length ai) 0) then no_ip_flags <$> ai else no_ip_flags a :: (no_ip_flags <$> l))
    with (no_ip_flags <$> (if negb (Nat.eqb (length ai) 0) then ai else a :: l)) by (by case_match).
  set (todo := if negb _ then ai else a :: l). destruct (mnl_attr_nest_start_check SBS nlh2 _) as [[nlh3 nst3]|]; [|done].
  pose proof (put_ips_plain nlh3 todo) as H. destruct (Embed.put_ips SBS nlh3 todo) as [nlh4 rest]. cbn [fst snd] in H.
  by rewrite H.
Qed.

Definition plain_rest (x : bytes * list wgpeer * list wgallowedip) : bytes * list wgpeer * list wgallowedip :=
  (x.1.1, plain_peer <$> x.1.2, no_ip_flags <$> x.2).

Lemma put_peers_plain nlh ps ai :
  IpcLinux.put_peers SBS nlh (plain_peer <$> ps) (no_ip_flags <$> ai) = plain_rest (Embed.put_peers SBS nlh ps ai).
Proof.
  revert nlh ai. induction ps as [|p ps IH]; intros nlh ai; [done|]. rewrite fmap_cons. cbn [IpcLinux.put_peers Embed.put_peers].
  rewrite put_peer_plain. destruct (Embed.put_peer SBS nlh p ai) as [nlh1|[nlh1 [|a rest]]]; [done|apply (IH _ [])|done].
Qed.

Definition plain_peers (peer : option (list wgpeer)) : option (list wgpeer) := match peer with Some l => Some (plain_peer <$> l) | None => None end.

Lemma set_message_plain d (peer : option (list wgpeer)) (ai : list wgallowedip) :
  IpcLinux.set_message SBS (plain d) (plain_peers peer) (no_ip_flags <$> ai) = plain_rest (Embed.set_message SBS d peer ai).
Proof.
  unfold IpcLinux.set_message, Embed.set_message.
  change (put_device_attrs ?nlh (plain d)) with (put_device_attrs nlh d). change (name (plain d)) with (name d).
  change (peers (plain d)) with (plain_peer <$> peers d).
  replace (if plain_peers peer is None then _ else _) with
    (if peer is None then put_device_attrs (mnl_attr_put_strz (mnlg_msg_prepare WG_CMD_SET_DEVICE WG_GENL_VERSION) WGDEVICE_A_IFNAME (name d)) d
     else mnl_attr_put_strz (mnlg_msg_prepare WG_CMD_SET_DEVICE WG_GENL_VERSION) WGDEVICE_A_IFNAME (name d)) by (by destruct peer).
  set (nlh := match peer with Some _ => _ | None => _ end).
  replace (default (plain_peer <$> peers d) (plain_peers peer)) with (plain_peer <$> default (peers d) peer) by (by destruct peer).
  destruct (peers d) as [|p ps] eqn:E; [done|]. rewrite fmap_cons.
  destruct (mnl_attr_nest_start nlh WGDEVICE_A_PEERS) as [nlh1 nst]. rewrite put_peers_plain.
  by destruct (Embed.put_peers SBS nlh1 _ ai) as [[nlh2 rest] ai'].
Qed.

Lemma set_loop_plain seq portid transact fuel n d (peer : option (list wgpeer)) (ai : list wgallowedip) o :
  IpcLinux.set_loop SBS seq portid transact fuel n (plain d) (plain_peers peer) (no_ip_flags <$> ai) o =
  Embed.set_loop SBS seq portid transact fuel n d peer ai o.
Proof.
  revert n peer ai o. induction fuel as [|fuel IH]; intros n peer ai o; [done|]. cbn [IpcLinux.set_loop Embed.set_loop].
  rewrite set_message_plain. destruct (Embed.set_message SBS d peer ai) as [[nlh rest] ai']. unfold plain_rest. cbn [fst snd].
  unfold mbind at 1 3, M_bind. destruct (set_send seq portid transact n nlh o) as [[ret o']| | |]; [|done..].
  destruct (truthy ret); [done|]. destruct rest as [|p rest]; [done|]. rewrite fmap_cons. unfold mbind, M_bind.
  change (Some (plain_peer p :: (plain_peer <$> rest))) with (plain_peers (Some (p :: rest))). by rewrite IH.
Qed.

Lemma plain_fuel d : set_fuel (plain d) = set_fuel d.
Proof.
  unfold set_fuel. change (peers (plain d)) with (plain_peer <$> peers d). rewrite length_fmap. do 2 f_equal.
  induction (peers d) as [|p ps IH]; [done|]. rewrite fmap_cons. cbn [flat_map]. rewrite !length_app, IH.
  change (allowedips (plain_peer p)) with (no_ip_flags <$> allowedips p). by rewrite length_fmap.
Qed.

Lemma set_device_plain socket_open seq portid transact d o :
  wg_set_device SBS socket_open seq portid transact d o = kernel_set_device SBS socket_open seq portid transact (plain d) o.
Proof.
  unfold wg_set_device, kernel_set_device, mbind, M_bind. destruct (socket_open o) as [[[e|id] o']| | |]; [done| |done..].
  rewrite plain_fuel. symmetry. apply (set_loop_plain seq portid transact (set_fuel d) 0 d None []).
Qed.
End Set_.

Lemma plain_id d : Forall (λ p, Forall (λ a, ai_flags a = 0) (allowedips p)) (peers d) → plain d = d.
Proof.
  intros Hd. unfold plain. replace (plain_peer <$> peers d) with (peers d); [by destruct d|].
  induction Hd as [|p ps Hp _ IH]; [done|]. rewrite fmap_cons, <- IH. f_equal.
  unfold plain_peer. replace (no_ip_flags <$> allowedips p) with (allowedips p); [by destruct p|].
  induction Hp as [|a l Ha _ IHl]; [done|]. rewrite fmap_cons, <- IHl. f_equal. destruct a. cbn in Ha. by subst.
Qed.

(** C9: [wg_set_device] of the embeddable library is [kernel_set_device] of the tools:
    whatever the socket, the answers and the allocator do, it sends the same messages and returns
    the same result for the same device.  Its addresses have no flags, so where an
    address has some the device is the one without them. *)
Theorem wg_set_device_as_kernel SBS socket_open seq portid transact d o :
  wg_set_device SBS socket_open seq portid transact d o = kernel_set_device SBS socket_open seq portid transact (plain d) o ∧
  (Forall (λ p, Forall (λ a, ai_flags a = 0) (allowedips p)) (peers d) →
   wg_set_device SBS socket_open seq portid transact d o = kernel_set_device SBS socket_open seq portid transact d o).
Proof. split; [apply set_device_plain|]. intros Hd. by rewrite set_device_plain, plain_id. Qed.

(** ** Reading a device

    Two runs that may differ in [errno] only. *)

Definition same {X} (r1 r2 : outcome (Z * (Z * X) * allocs)) : Prop :=
  match r1, r2 with
  | Done (a, (_, x), o1), Done (b, (_, y), o2) => a = b ∧ x = y ∧ o1 = o2
  | Exit c1, Exit c2 => c1 = c2
  | Undefined, Undefined => True
  | NoFuel, NoFuel => True
  | _, _ => False
  end.
Definition alike {X} (cb1 cb2 : bytes → Z * X → M (Z * (Z * X))) : Prop :=
  ∀ attr e1 e2 x o, same (cb1 attr (e1, x) o) (cb2 attr (e2, x) o).

Lemma same_bind {X Y} (m1 m2 : M (Z * (Z * X))) (f1 f2 : Z * (Z * X) → M (Z * (Z * Y))) o :
  same (m1 o) (m2 o) → (∀ a e1 e2 x o', same (f1 (a, (e1, x)) o') (f2 (a, (e2, x)) o')) → same ((m1 ≫= f1) o) ((m2 ≫= f2) o).
Proof.
  intros Hm Hf. unfold mbind, M_bind. destruct (m1 o) as [[[a [e1 x]] o1]| | |], (m2 o) as [[[b [e2 y]] o2]| | |]; try done.
  destruct Hm as (-> & -> & ->). apply Hf.
Qed.
Lemma same_alloc {Y} (f1 f2 : bool → M (Z * (Z * Y))) o :
  (∀ b o', same (f1 b o') (f2 b o')) → same ((alloc ≫= f1) o) ((alloc ≫= f2) o).
Proof. intros Hf. unfold mbind, M_bind. destruct o as [|b o]; apply Hf. Qed.

Lemma attr_loop_same {X} (cb1 cb2 : bytes → Z * X → M (Z * (Z * X))) fuel attr len ret e1 e2 x o :
  alike cb1 cb2 → same (attr_loop fuel cb1 attr len ret (e1, x) o) (attr_loop fuel cb2 attr len ret (e2, x) o).
Proof.
  intros Hcb. revert attr len ret e1 e2 x o. induction fuel as [|fuel IH]; intros attr len ret e1 e2 x o; [done|]. cbn [attr_loop].
  destruct (negb (mnl_attr_ok attr len)); [done|]. apply same_bind; [apply Hcb|]. intros a f1 f2 y o'. cbn [fst snd].
  destruct (a <=? MNL_CB_STOP); [done|apply IH].
Qed.
Lemma parse_nested_same {X} (cb1 cb2 : bytes → Z * X → M (Z * (Z * X))) attr e1 e2 x o :
  alike cb1 cb2 → same (mnl_attr_parse_nested attr cb1 (e1, x) o) (mnl_attr_parse_nested attr cb2 (e2, x) o).
Proof. apply attr_loop_same. Qed.
Lemma validated_same {X} attr t (store : X → X) e1 e2 x o :
  same (validated attr t (e1, x) store o) (validated attr t (e2, x) store o).
Proof. unfold validated. by destruct (negb _). Qed.

Ltac same_cases :=
  repeat match goal with
  | |- same ((if ?b then _ else _) _) ((if ?b then _ else _) _) => destruct b
  | |- same (validated _ _ _ _ _) (validated _ _ _ _ _) => apply validated_same
  | |- same (mnl_attr_parse_nested _ _ _ _) (mnl_attr_parse_nested _ _ _ _) => apply parse_nested_same
  | |- same (mret _ _) (mret _ _) => exact (conj eq_refl (conj eq_refl eq_refl))
  end.

Lemma parse_allowedip_alike : alike parse_allowedip parse_allowedip.
Proof. intros attr e1 e2 x o. unfold parse_allowedip. cbn [fst snd]. same_cases; done. Qed.

Lemma parse_allowedips_alike : alike IpcLinux.parse_allowedips Embed.parse_allowedips.
Proof.
  intros attr e1 e2 x o. apply same_alloc. intros b o'. destruct b; [|done]. cbn [negb fst snd].
  apply same_bind; [apply parse_nested_same, parse_allowedip_alike|]. intros a f1 f2 y o''. cbn [fst snd]. same_cases; done.
Qed.
Lemma parse_peer_alike : alike IpcLinux.parse_peer Embed.parse_peer.
Proof.
  intros attr e1 e2 x o. unfold IpcLinux.parse_peer, Embed.parse_peer, wg_key_is_zero. cbn [fst snd].
  same_cases. apply parse_allowedips_alike.
Qed.
Lemma parse_peers_alike : alike IpcLinux.parse_peers Embed.parse_peers.
Proof.
  intros attr e1 e2 x o. apply same_alloc. intros b o'. destruct b; [|done]. cbn [negb fst snd].
  apply same_bind; [apply parse_nested_same, parse_peer_alike|]. intros a f1 f2 y o''. cbn [fst snd]. same_cases; done.
Qed.
Lemma read_device_alike : alike IpcLinux.read_device_cb Embed.read_device_cb.
Proof.
  intros nlh e1 e2 x o. apply attr_loop_same. clear. intros attr e1 e2 x o. unfold IpcLinux.parse_device, Embed.parse_device. cbn [fst snd].
  same_cases. apply parse_peers_alike.
Qed.

Lemma control_same generic nlh e1 e2 :
  match control_cb generic nlh e1, control_cb generic nlh e2 with Some (r1, _), Some (r2, _) => r1 = r2 | None, None => True | _, _ => False end.
Proof. unfold control_cb, mnlg_cb_stop, error_cb. repeat case_match; naive_solver. Qed.

Lemma cb_run_same {X} (cb1 cb2 : bytes → Z * X → M (Z * (Z * X))) fuel generic seq portid nlh len ret e1 e2 x o :
  alike cb1 cb2 →
  same (cb_run fuel generic (Some cb1) seq portid nlh len ret (e1, x) o) (cb_run fuel generic (Some cb2) seq portid nlh len ret (e2, x) o).
Proof.
  intros Hcb. revert nlh len ret e1 e2 x o. induction fuel as [|fuel IH]; intros nlh len ret e1 e2 x o; [done|]. cbn [cb_run].
  same_cases; try done. apply same_bind.
  - destruct (NLMSG_MIN_TYPE <=? msg_type nlh); [apply Hcb|]. cbn [fst snd]. pose proof (control_same generic nlh e1 e2) as Hc.
    destruct (control_cb generic nlh e1) as [[r1 f1]|], (control_cb generic nlh e2) as [[r2 f2]|]; done.
  - intros a f1 f2 y o'. cbn [fst snd]. destruct (a <=? MNL_CB_STOP); [done|apply IH].
Qed.

Lemma recv_run_same {X} (cb1 cb2 : bytes → Z * X → M (Z * (Z * X))) seq portid datagrams e1 e2 x o :
  alike cb1 cb2 →
  same (mnlg_socket_recv_run (Some cb1) seq portid datagrams (e1, x) o) (mnlg_socket_recv_run (Some cb2) seq portid datagrams (e2, x) o).
Proof.
  intros Hcb. revert e1 e2 x o. induction datagrams as [|[e|[|b buf]] rest IH]; intros e1 e2 x o; cbn [mnlg_socket_recv_run]; try done.
  apply same_bind; [by apply cb_run_same|]. intros a f1 f2 y o'. cbn [fst snd]. destruct (0 <? a); [apply IH|done].
Qed.

Section Get.
Context (SBS : Z) (socket_open : M (Z + Z)) (send_errno seq portid : Z) (answers : nat → list (Z + bytes)).

(** What either does between the socket and the look at [ret]. *)
Definition exchange (cb : bytes → Z * wgdevice → M (Z * (Z * wgdevice))) (n : nat) (ret : Z) : M (Z * wgdevice) :=
  if truthy send_errno then mret (- send_errno, wgdevice_zero)
  else
    r ← mnlg_socket_recv_run (Some cb) seq portid (answers n) (0, wgdevice_zero);
    if r.1 <? 0 then mret (if truthy r.2.1 then - r.2.1 else - EINVAL, r.2.2)
    else d ← coalesce_peers r.2.2; mret (ret, d).

(** The dump was read and joined to [d]. *)
Definition dump_read (cb : bytes → Z * wgdevice → M (Z * (Z * wgdevice))) (n : nat) (o : allocs) (d : wgdevice) (o' : allocs) : Prop :=
  truthy send_errno = false ∧
  ∃ r e x o1, mnlg_socket_recv_run (Some cb) seq portid (answers n) (0, wgdevice_zero) o = Done ((r, (e, x)), o1) ∧
    (r <? 0) = false ∧ coalesce_peers x o1 = Done (d, o').

Lemma opposite_truthy x : truthy (- x) = truthy x.
Proof. unfold truthy. f_equal. destruct (Z.eqb_spec x 0), (Z.eqb_spec (- x) 0); lia || done. Qed.

Lemma exchange_spec cb n ret o z d o' :
  exchange cb n ret o = Done ((z, d), o') → z = ret ∧ dump_read cb n o d o' ∨ truthy z = true.
Proof.
  unfold exchange. destruct (truthy send_errno) eqn:E; intros H.
  { unfold mret, M_ret in H. simplify_eq. right. by rewrite opposite_truthy. }
  apply M_bind_Done in H as ([r [e x]] & o1 & Hr & H). cbn [fst snd] in H. destruct (r <? 0) eqn:Er.
  - unfold mret, M_ret in H. simplify_eq. right. destruct (truthy e) eqn:Ee; [by rewrite opposite_truthy|done].
  - apply M_bind_Done in H as (d' & o2 & Hd & H). unfold mret, M_ret in H. simplify_eq. left. split; [done|]. split; [done|]. eauto 10.
Qed.
Lemma dump_exchange cb n ret o d o' : dump_read cb n o d o' → exchange cb n ret o = Done ((ret, d), o').
Proof.
  intros (E & r & e & x & o1 & Hr & Er & Hd). unfold exchange. rewrite E. unfold mbind, M_bind. rewrite Hr. cbn [fst snd]. by rewrite Er, Hd.
Qed.

Lemma dump_same n o d o' : dump_read IpcLinux.read_device_cb n o d o' ↔ dump_read Embed.read_device_cb n o d o'.
Proof.
  pose proof (recv_run_same _ _ seq portid (answers n) 0 0 wgdevice_zero o read_device_alike) as H. unfold dump_read.
  destruct (mnlg_socket_recv_run (Some IpcLinux.read_device_cb) _ _ _ _ o) as [[[a [e1 x]] o1]| | |],
           (mnlg_socket_recv_run (Some Embed.read_device_cb) _ _ _ _ o) as [[[b [e2 y]] o2]| | |]; try done;
    try destruct H as (-> & -> & ->); split; intros (Hs & r & e & x' & o3 & Hr & Hd); simplify_eq; eauto 10.
Qed.

(** A device is handed out at an attempt. *)
Definition handed_out (cb : bytes → Z * wgdevice → M (Z * (Z * wgdevice))) (n : nat) (o : allocs) (d : wgdevice) (o' : allocs) : Prop :=
  ∃ o1 id o2, alloc o = Done (true, o1) ∧ socket_open o1 = Done (inr id, o2) ∧ dump_read cb n o2 d o'.

Lemma handed_out_same n o d o' : handed_out IpcLinux.read_device_cb n o d o' ↔ handed_out Embed.read_device_cb n o d o'.
Proof.
  split; intros (o1 & id & o2 & Ha & Hs & Hd); exists o1, id, o2; (split; [exact Ha|split; [exact Hs|]]).
  - exact (proj1 (dump_same n o2 d o') Hd).
  - exact (proj2 (dump_same n o2 d o') Hd).
Qed.

Lemma kernel_attempt n o d o' :
  IpcLinux.get_attempt socket_open send_errno seq portid answers 1 n o = Done ((0, Some d), o') ↔ handed_out IpcLinux.read_device_cb n o d o'.
Proof.
  cbn [IpcLinux.get_attempt]. fold (exchange IpcLinux.read_device_cb n 0). split.
  - intros H. apply M_bind_Done in H as (b & o1 & Ha & H). destruct b; [|by unfold mret, M_ret in H; simplify_eq].
    apply M_bind_Done in H as (nlg & o2 & Hs & H). destruct nlg as [e|id]; [by unfold mret, M_ret in H; simplify_eq|].
    apply M_bind_Done in H as ([z x] & o3 & He & H). cbn [fst snd] in H. exists o1, id, o2. split_and!; [done..|].
    apply exchange_spec in He as [[-> He]|He]; [unfold mret, M_ret in H; simplify_eq/=; by simplify_eq|].
    rewrite He in H. by destruct (z =? _).
  - intros (o1 & id & o2 & Ha & Hs & Hd). unfold mbind, M_bind. rewrite Ha. cbn [negb]. rewrite Hs.
    by rewrite (dump_exchange _ _ 0 _ _ _ Hd).
Qed.

Section Name.
Context (name : bytes).
Hypothesis Hname : nlmsg_len (get_request name) <= SBS.

Lemma embed_unfold fuel n ret :
  Embed.get_attempt SBS socket_open send_errno seq portid answers (S fuel) n ret name =
    (device ← alloc;
     if negb device then mret (- ENOMEM, None)
     else
       nlg ← socket_open;
       match nlg with
       | inl errno => mret (- errno, None)
       | inr _ =>
           r ← exchange Embed.read_device_cb n ret;
           if truthy r.1 then
             if r.1 =? - EINTR then Embed.get_attempt SBS socket_open send_errno seq portid answers fuel (S n) r.1 name else mret (r.1, None)
           else mret (r.1, Some r.2)
       end).
Proof. cbn [Embed.get_attempt]. rewrite (proj2 (Z.ltb_ge SBS _)) by done. done. Qed.

(** Once an attempt was interrupted, no later one hands out a device. *)
Lemma interrupted_never fuel n z d o o' :
  Embed.get_attempt SBS socket_open send_errno seq portid answers fuel n (- EINTR) name o = Done ((z, Some d), o') → False.
Proof.
  revert n o. induction fuel as [|fuel IH]; intros n o; [done|]. rewrite embed_unfold. intros H.
  apply M_bind_Done in H as (b & o1 & Ha & H). destruct b; [|by unfold mret, M_ret in H; simplify_eq].
  apply M_bind_Done in H as (nlg & o2 & Hs & H). destruct nlg as [e|id]; [by unfold mret, M_ret in H; simplify_eq|].
  apply M_bind_Done in H as ([y x] & o3 & He & H). cbn [fst snd] in H.
  apply exchange_spec in He as [[-> _]|He]; [by apply IH in H|]. rewrite He in H.
  destruct (Z.eqb_spec y (- EINTR)) as [->|]; [by apply IH in H|done].
Qed.

Lemma embed_attempt fuel n z o d o' :
  Embed.get_attempt SBS socket_open send_errno seq portid answers (S fuel) n 0 name o = Done ((z, Some d), o') ↔
  z = 0 ∧ handed_out Embed.read_device_cb n o d o'.
Proof.
  rewrite embed_unfold. split.
  - intros H. apply M_bind_Done in H as (b & o1 & Ha & H). destruct b; [|by unfold mret, M_ret in H; simplify_eq].
    apply M_bind_Done in H as (nlg & o2 & Hs & H). destruct nlg as [e|id]; [by unfold mret, M_ret in H; simplify_eq|].
    apply M_bind_Done in H as ([y x] & o3 & He & H). cbn [fst snd] in H.
    apply exchange_spec in He as [[-> He]|He].
    + cbn in H. unfold mret, M_ret in H. simplify_eq. split; [done|]. exists o1, id, o2. done.
    + rewrite He in H. destruct (Z.eqb_spec y (- EINTR)) as [->|]; [by apply interrupted_never in H|done].
  - intros (-> & o1 & id & o2 & Ha & Hs & Hd). unfold mbind, M_bind. rewrite Ha. cbn [negb]. rewrite Hs.
    by rewrite (dump_exchange _ _ 0 _ _ _ Hd).
Qed.
End Name.
End Get.

Lemma get_request_small name SBS : (length name < IFNAMSIZ)%nat → 40 <= SBS → nlmsg_len (get_request name) <= SBS.
Proof.
  intros Hn Hs. unfold get_request, mnl_attr_put_strz. rewrite (put_leaf _ _ (name ++ [0])) by (done || (rewrite length_app; cbn [length]; unfold IFNAMSIZ in Hn; lia)).
  unfold nlmsg_len. rewrite length_app, leaf_length, length_app. cbn [length].
  destruct (MNL_ALIGN_spec (length name + 1)) as [? Hm]. pose proof (Nat.div_mod_eq (MNL_ALIGN (length name + 1)) 4). unfold IFNAMSIZ in Hn.
  change (length (mnlg_msg_prepare WG_CMD_GET_DEVICE WG_GENL_VERSION)) with 4%nat. change NLMSG_HDRLEN with 16%nat. lia.
Qed.

(** C10: [wg_get_device] hands out a device exactly when [kernel_get_device] of the tools
    reads it at its first attempt, and then it is the same device: the callbacks that set [errno]
    change no result but an error number, and however often it tries again,
    no later attempt succeeds. *)
Theorem wg_get_device_first_attempt SBS socket_open send_errno seq portid answers fuel name z d o o'
    (Hname : (length name < IFNAMSIZ)%nat) (HSBS : 40 <= SBS) :
  wg_get_device SBS socket_open send_errno seq portid answers (S fuel) name o = Done ((z, Some d), o') ↔
  z = 0 ∧ kernel_get_device socket_open send_errno seq portid answers 1 name o = Done ((0, Some d), o').
Proof.
  unfold wg_get_device, kernel_get_device. rewrite (proj2 (Nat.leb_gt IFNAMSIZ (length name))) by done.
  rewrite embed_attempt by (by apply get_request_small). rewrite kernel_attempt. by rewrite handed_out_same.
Qed.

Lemma wg_get_device_first_attempt_witness :
  let get1 := wg_get_device 4096 (mret (inr 33)) 0 1 2 (two_ips_answer 32) 3 (str "wg0") [] in
  let get2 := kernel_get_device (mret (inr 33)) 0 1 2 (two_ips_answer 32) 1 (str "wg0") [] in
  ∃ d, get2 = Done ((0, Some d), []) ∧ get1 = Done ((0, Some d), []).
Proof.
  eexists. split; [vm_compute; reflexivity|].
  apply (wg_get_device_first_attempt 4096 (mret (inr 33)) 0 1 2 (two_ips_answer 32) 2 (str "wg0")); [cbn; unfold IFNAMSIZ; lia|lia|].
  split; [reflexivity|]. vm_compute. reflexivity.
Defined.

(** ** An interrupted dump *)

Section Interrupted.
Context (type fl seq pid : Z).
Hypothesis Htype : 0 <= type < 65536.
Hypothesis Hfl : 0 <= fl < 65536 ∧ truthy (fl .& NLM_F_DUMP_INTR) = true.
Hypothesis Hseq : 0 <= seq < 2 ^ 32.
Hypothesis Hpid : 0 <= pid < 2 ^ 32.

Lemma recv_interrupted {X} (cb : option (bytes → Z * X → M (Z * (Z * X)))) m rest st o :
  nlmsg_len m < 65536 →
  mnlg_socket_recv_run cb seq pid (inr (message_bytes type fl seq pid m) :: rest) st o = Done ((-1, (EINTR, st.2)), o).
Proof.
  intros Hm. destruct (frame_accepted seq pid Hseq Hpid type fl m Hm Htype (proj1 Hfl)) as (Hok & Hport & Hsq).
  destruct (frame_fields seq pid Hseq Hpid type fl m Hm Htype (proj1 Hfl)) as (_ & _ & Hf & _).
  assert (Hrun : mnl_cb_run true cb seq pid (message_bytes type fl seq pid m) st o = Done ((-1, (EINTR, st.2)), o)).
  { unfold mnl_cb_run. cbn [cb_run]. rewrite Hok, Hport, Hsq, Hf, (proj2 Hfl). done. }
  cbn [mnlg_socket_recv_run]. destruct (message_bytes type fl seq pid m) eqn:E; [done|]. unfold mbind, M_bind. by rewrite Hrun.
Qed.
End Interrupted.

(** C30: [wg_get_device] does not survive an interrupted dump.  [ret] keeps the [-EINTR] of the
    first attempt, so when every later dump is complete it asks for ever: no number of
    attempts is enough.  [kernel_get_device] of the tools, whose [ret] is reset,
    returns the device at the second attempt. *)
Theorem wg_get_device_interrupted SBS id type fl seq portid answers m rest name (d : nat → wgdevice)
    (Hname : (length name < IFNAMSIZ)%nat) (HSBS : 40 <= SBS)
    (Htype : 0 <= type < 65536) (Hfl : 0 <= fl < 65536 ∧ truthy (fl .& NLM_F_DUMP_INTR) = true)
    (Hseq : 0 <= seq < 2 ^ 32) (Hpid : 0 <= portid < 2 ^ 32) (Hm : nlmsg_len m < 65536)
    (Hfirst : answers 0%nat = inr (message_bytes type fl seq portid m) :: rest)
    (Hlater : ∀ n, kernel_get_device (mret (inr id)) 0 seq portid (λ _, answers (S n)) 1 name [] = Done ((0, Some (d n)), [])) :
  (∀ fuel, wg_get_device SBS (mret (inr id)) 0 seq portid answers fuel name [] = NoFuel) ∧
  kernel_get_device (mret (inr id)) 0 seq portid answers 2 name [] = Done ((0, Some (d 0%nat)), []).
Proof.
  assert (Hread : ∀ n, dump_read 0 seq portid answers IpcLinux.read_device_cb (S n) [] (d n) []).
  { intros n. specialize (Hlater n). unfold kernel_get_device in Hlater. rewrite (proj2 (Nat.leb_gt IFNAMSIZ (length name))) in Hlater by done.
    apply kernel_attempt in Hlater as (o1 & id' & o2 & Ha & Hs & Hd). cbn in Ha. simplify_eq. unfold mret, M_ret in Hs. simplify_eq. done. }
  assert (Hintr : ∀ cb, exchange 0 seq portid answers cb 0 0 [] = Done ((- EINTR, wgdevice_zero), [])).
  { intros cb. unfold exchange. change (truthy 0) with false. cbn iota. rewrite Hfirst. unfold mbind, M_bind.
    by rewrite (recv_interrupted type fl seq portid Htype Hfl Hseq Hpid) by done. }
  split.
  - assert (Hspin : ∀ fuel n, Embed.get_attempt SBS (mret (inr id)) 0 seq portid answers fuel (S n) (- EINTR) name [] = NoFuel).
    { induction fuel as [|fuel IH]; intros n; [done|]. rewrite embed_unfold by by apply get_request_small.
      unfold mbind, M_bind. cbn [alloc negb]. unfold mret at 1, M_ret.
      rewrite (dump_exchange 0 seq portid answers _ (S n) (- EINTR) [] (d n) [] (proj1 (dump_same _ _ _ _ _ _ _ _) (Hread n))). cbn [fst snd].
      change (truthy (- EINTR)) with true. change (- EINTR =? - EINTR) with true. cbn iota. apply IH. }
    intros [|fuel]; [done|]. unfold wg_get_device. rewrite embed_unfold by by apply get_request_small.
    unfold mbind, M_bind. cbn [alloc negb]. unfold mret at 1, M_ret. rewrite Hintr. cbn [fst snd].
    change (truthy (- EINTR)) with true. change (- EINTR =? - EINTR) with true. cbn iota. apply Hspin.
  - unfold kernel_get_device. rewrite (proj2 (Nat.leb_gt IFNAMSIZ (length name))) by done.
    pose proof (proj2 (kernel_attempt (mret (inr id)) 0 seq portid answers 1 [] (d 0%nat) [])) as Hk.
    assert (Hsecond : IpcLinux.get_attempt (mret (inr id)) 0 seq portid answers 1 1 [] = Done ((0, Some (d 0%nat)), [])).
    { apply Hk. exists [], id, []. split_and!; [done..|]. apply Hread. }
    change (IpcLinux.get_attempt (mret (inr id)) 0 seq portid answers 2 0) with
      (device ← alloc; if negb device then mret (- ENOMEM, None) else
       nlg ← mret (inr id); match nlg : Z + Z with inl errno => mret (- errno, None) | inr _ =>
         r ← exchange 0 seq portid answers IpcLinux.read_device_cb 0 0;
         if truthy r.1 then if r.1 =? - EINTR then IpcLinux.get_attempt (mret (inr id)) 0 seq portid answers 1 1 else mret (r.1, None)
         else mret (0, Some r.2) end).
    unfold mbind, M_bind. cbn [alloc negb]. unfold mret at 1, M_ret. rewrite Hintr. cbn [fst snd].
    change (truthy (- EINTR)) with true. change (- EINTR =? - EINTR) with true. cbn iota. exact Hsecond.
Qed.

(** An answer that another change interrupts once. *)
Definition interrupted_answers (n : nat) : list (Z + bytes) :=
  match n with
  | O => [inr (message_bytes 33 (NLM_F_MULTI .| NLM_F_DUMP_INTR) 1 2 (mnlg_msg_prepare WG_CMD_GET_DEVICE WG_GENL_VERSION))]
  | S _ => two_ips_answer 32 n
  end.
Lemma wg_get_device_interrupted_witness :
  ∃ d, (∀ fuel, wg_get_device 4096 (mret (inr 33)) 0 1 2 interrupted_answers fuel (str "wg0") [] = NoFuel) ∧
       kernel_get_device (mret (inr 33)) 0 1 2 interrupted_answers 2 (str "wg0") [] = Done ((0, Some d), []).
Proof.
  eexists. apply (wg_get_device_interrupted 4096 33 33 (NLM_F_MULTI .| NLM_F_DUMP_INTR) 1 2 interrupted_answers
    (mnlg_msg_prepare WG_CMD_GET_DEVICE WG_GENL_VERSION) [] (str "wg0") (λ _, _));
    [cbn; unfold IFNAMSIZ; lia|lia|lia|vm_compute; done|lia|lia|done|done|].
  intros n. vm_compute. reflexivity.
Defined.

(** ** Keys *)

Section Keys.
Context {plat : Platform}.

Lemma from_base64_result key base64 :
  wg_key_from_base64 key base64 = (if (key_from_base64 key base64).1 then 0 else - EINVAL, (key_from_base64 key base64).2).
Proof.
  unfold wg_key_from_base64, key_from_base64. destruct (_ || _); [done|].
  destruct (for_upto 0 (WG_KEY_LEN / 3) (from_base64_step base64) (0, key)) as [ret key']. cbv zeta.
  set (r := u8 (ret .| _)). assert (Hr : 0 <= r < 256) by (apply Z.mod_pos_bound; lia). cbn [fst snd]. f_equal.
  apply (Z_range_eq (λ r, - (EINVAL .& ~~ ((r - 1) .>> 8))) (λ r, if truthy (1 .& ((r - 1) .>> 8)) then 0 else - EINVAL) 0 256); [|done].
  vm_compute. reflexivity.
Qed.
End Keys.

(** The library's [wg_key_from_base64] returns 0 exactly on the strings that [wg_key_to_base64]
    writes, and then stores the key they were written from; on every other string of
    bytes it returns [-EINVAL].  The verdict is computed without a branch. *)
Theorem wg_key_from_base64_iff (plat : Platform) (key0 s : bytes) (Hk : length key0 = WG_KEY_LEN) (Hs : all_bytes s = true) :
  (∀ key, wg_key_from_base64 key0 s = (0, key) ↔ key_ok key = true ∧ wg_key_to_base64 key = s ++ [0]) ∧
  ((wg_key_from_base64 key0 s).1 = 0 ∨ (wg_key_from_base64 key0 s).1 = - EINVAL).
Proof.
  rewrite from_base64_result. split; [|by destruct (key_from_base64 key0 s).1; auto].
  intros key. unfold wg_key_to_base64. rewrite <- (key_from_base64_accepts key0 s key Hk Hs).
  destruct (key_from_base64 key0 s) as [[] k]; cbn [fst snd]; split; intros; by simplify_eq.
Qed.

Lemma wg_key_from_base64_iff_witness :
  wg_key_from_base64 (plat := arm64) (replicate 32 0) (key_base64 (seqZ 0 32)) = (0, seqZ 0 32).
Proof.
  apply (wg_key_from_base64_iff arm64 (replicate 32 0) (key_base64 (seqZ 0 32)) eq_refl eq_refl). split; vm_compute; reflexivity.
Defined.

(** ** Randomness *)

Lemma urandom_same (R : randomness) fuel k i key :
  randomness_laws R → (i <= WG_KEY_LEN)%nat → (WG_KEY_LEN - i <= fuel)%nat →
  read_urandom_loop R fuel k i key =
    match urandom_loop R fuel k i WG_KEY_LEN key with
    | Done (n, key) => if (n =? WG_KEY_LEN)%nat then Done key else abort
    | Exit c => Exit c | Undefined => Undefined | NoFuel => NoFuel
    end.
Proof.
  intros HR. revert k i key. induction fuel as [|fuel IH]; intros k i key Hi Hf.
  - cbn [read_urandom_loop urandom_loop]. destruct (Nat.ltb_spec i WG_KEY_LEN); [lia|]. by rewrite (proj2 (Nat.eqb_eq i WG_KEY_LEN)) by lia.
  - cbn [read_urandom_loop urandom_loop]. destruct (Nat.ltb_spec i WG_KEY_LEN) as [Hlt|Hge].
    2: by rewrite (proj2 (Nat.eqb_eq i WG_KEY_LEN)) by lia.
    pose proof (read_count R HR k (WG_KEY_LEN - i)) as Hc. pose proof (read_bound R HR k (WG_KEY_LEN - i)) as Hb.
    destruct (read_urandom R k (WG_KEY_LEN - i)) as [ret b]. cbn [fst snd] in *.
    destruct (Z.ltb_spec 0 ret), (Z.leb_spec ret 0); try lia; cbn [negb].
    + apply IH; lia.
    + by rewrite (proj2 (Nat.eqb_neq i WG_KEY_LEN)) by lia.
Qed.

Lemma preshared_key_random (R : randomness) key0 :
  randomness_laws R →
  wg_generate_preshared_key R key0 =
    match get_random_bytes R key0 WG_KEY_LEN with
    | Done (true, key) => Done key
    | Done (false, _) => abort
    | Exit c => Exit c | Undefined => Undefined | NoFuel => NoFuel
    end.
Proof.
  intros HR. unfold wg_generate_preshared_key, get_random_bytes. change (256 <? WG_KEY_LEN)%nat with false. cbn iota.
  destruct (try_getentropy R key0 WG_KEY_LEN) as [[] k1]; [done|]. destruct (try_getrandom R k1 WG_KEY_LEN) as [[] k2]; [done|].
  destruct (open_urandom R); [|done]. cbn [negb]. rewrite urandom_same by (done || lia).
  destruct (urandom_loop R WG_KEY_LEN 0 0 WG_KEY_LEN k2) as [[n k]| | |]; [|done..]. by destruct (n =? WG_KEY_LEN)%nat.
Qed.

(** The library's keys come from the sources that [wg genkey] uses: it aborts exactly when
    [get_random_bytes] fails, and otherwise the preshared key is the bytes that function
    gives and the private key is that key clamped; whatever the buffer held, no byte of it is left. *)
Theorem wg_generate_key_random (R : randomness) key0 (laws : randomness_laws R) (Hk : length key0 = WG_KEY_LEN) :
  (∃ key, key_ok key = true ∧ get_random_bytes R key0 WG_KEY_LEN = Done (true, key) ∧
     wg_generate_preshared_key R key0 = Done key ∧ wg_generate_private_key R key0 = Done (curve25519_clamp_secret key)) ∨
  (∃ key, get_random_bytes R key0 WG_KEY_LEN = Done (false, key) ∧
     wg_generate_preshared_key R key0 = abort ∧ wg_generate_private_key R key0 = abort).
Proof.
  pose proof (preshared_key_random R key0 laws) as Hp. unfold wg_generate_private_key.
  destruct (get_random_bytes_ok R laws WG_KEY_LEN key0 Hk) as (b & key & E & Hl & Hb). rewrite E in Hp. rewrite Hp. destruct b.
  - left. exists key. destruct (Hb eq_refl) as [Ha _]. split_and!; [by apply key_ok_spec|done..|]. by rewrite clamp_key_secret.
  - right. by exists key.
Qed.

(** ** The list of names *)

(** The buffer [wg_list_device_names] returns for a dump of links, walked with
    [wg_for_each_device_name], gives exactly the names of the links of kind "wireguard", in the
    order of the dump, whatever the unwritten bytes of the buffer are; without such a
    link it is the empty string. *)
Theorem wg_list_device_names_complete (plat : Platform) type fl seq portid lss
    (Htype : NLMSG_MIN_TYPE <= type < 65536) (Hfl : 0 <= fl < 65536 ∧ fl .& NLM_F_DUMP_INTR = 0)
    (Hseq : 0 <= seq < 2 ^ 32) (Hpid : 0 <= portid < 2 ^ 32)
    (Hok : Forall (Forall link_ok) lss) (Hne : Forall (λ ls, ls ≠ []) lss)
    (Hmax : Z.of_nat (length (names_text (l_name <$> concat lss))) + 1 <= SIZE_MAX) :
  ∃ cells, run (wg_list_device_names 0 0 0 seq portid (dump type fl seq portid lss)) = Done (Some cells) ∧
    ∀ buf, reads_as cells buf → wg_for_each_device_name buf = wg_names (concat lss).
Proof.
  destruct (receive_dump type fl seq portid Htype Hfl Hseq Hpid 0 lss string_list_zero [] Hok Hne holds_zero) as (sl & Hr & Hh); [done|].
  cbn [app] in Hh.
  assert (Hrun : ∃ cells, run (wg_list_device_names 0 0 0 seq portid (dump type fl seq portid lss)) = Done (Some cells) ∧
    (cells = buffer sl ∧ buffer sl ≠ [] ∨ buffer sl = [] ∧ cells = [Some 0])).
  { unfold run, wg_list_device_names, fetch_device_names, kernel_get_wireguard_interfaces, mnl_socket_open, mbind, M_bind.
    cbn [alloc negb mret M_ret]. change (truthy 0) with false. cbn iota. rewrite Hr. cbn [fst snd]. change (truthy (- 0)) with false. cbn iota.
    destruct (buffer sl) as [|c b]; [exists [Some 0]|exists (c :: b)]; auto. }
  destruct Hrun as (cells & Hrun & Hcells). exists cells. split; [exact Hrun|]. intros buf Hbuf.
  apply (cells_names sl _ cells); [done| |done|done]. unfold wg_names.
  apply Forall_concat in Hok. rewrite Forall_forall in Hok. apply Forall_fmap, Forall_forall.
  intros l [_ Hl]%list_elem_of_filter. apply (lk_name _ (Hok l Hl)).
Qed.

Lemma wg_list_device_names_complete_witness :
  ∃ cells, run (wg_list_device_names (plat := arm64) 0 0 0 1 2 (dump 16 NLM_F_MULTI 1 2 sample_links)) = Done (Some cells) ∧
    ∀ buf, reads_as cells buf → wg_for_each_device_name buf = [str "wg0"; str "wg1"].
Proof.
  apply (wg_list_device_names_complete arm64 16 NLM_F_MULTI 1 2 sample_links); try done.
  - constructor; [constructor; [|constructor; [|constructor]]|constructor; [constructor; [|constructor]|constructor]].
    all: apply sample_link_ok; (done || by vm_compute).
  - constructor; [|constructor; [|constructor]]; done.
Defined.

(** ** Adding and deleting *)

(** The link that a request asks for. *)
Definition wg_link (name : bytes) : link :=
  {| l_header := replicate SIZEOF_IFINFOMSG 0; l_name := name; l_before := []; l_info := Some (WG_GENL_NAME, []); l_after := [] |}.

Lemma link_request_link name : Z.of_nat (length name) < 60000 → link_request name = enc_link (wg_link name).
Proof.
  intros Hn. unfold link_request, mnl_attr_put_strz. rewrite put_leaf by (done || (rewrite length_app; cbn [length]; lia)).
  destruct (mnl_attr_nest_start (replicate SIZEOF_IFINFOMSG 0 ++ leaf IFLA_IFNAME (name ++ [0])) IFLA_LINKINFO) as [nlh nst] eqn:E.
  rewrite put_leaf by done. pose proof (nest_end_spec (replicate SIZEOF_IFINFOMSG 0 ++ leaf IFLA_IFNAME (name ++ [0])) IFLA_LINKINFO
    (leaf IFLA_INFO_KIND (WG_GENL_NAME ++ [0])) ltac:(done) ltac:(done)) as He. rewrite E in He. cbn [fst snd] in He. rewrite He.
  unfold enc_link, link_attrs, enc_info. cbn [wg_link l_header l_name l_before l_info l_after fst snd]. 
  by rewrite <- !app_assoc, !app_nil_r.
Qed.

Lemma wg_link_ok name : interface_name name → nlmsg_len (enc_link (wg_link name)) < 65536 → link_ok (wg_link name) ∧ is_wg (wg_link name) = true.
Proof.
  intros Hn Hs. split; [|done]. split; cbn [wg_link l_header l_name l_before l_info l_after];
    [done|done|constructor|constructor|intros i [= <-]; split; [done|constructor]|done].
Qed.

Lemma error_frame_seq s portid error tail : 0 <= s < 2 ^ 32 → 0 <= portid < 2 ^ 32 → msg_seq (error_frame s portid error ++ tail) = s.
Proof.
  intros Hs Hp. destruct (frame_fields_app s portid Hs Hp NLMSG_ERROR 0 (le_bytes 4 (u32 error) ++ replicate 16 0) tail) as (_ & _ & _ & H & _); [done..|].
  exact H.
Qed.

Lemma link_request_len name : Z.of_nat (length name) < 60000 →
  nlmsg_len (link_request name) = 56 + Z.of_nat (MNL_ALIGN (length name + 1)).
Proof.
  intros Hn. rewrite link_request_link by done. unfold nlmsg_len, enc_link, link_attrs, enc_info.
  cbn [wg_link l_header l_name l_before l_info l_after fst snd].
  rewrite !length_app, leaf_length, nest_length, !length_app, leaf_length, !length_app.
  change (length (replicate SIZEOF_IFINFOMSG 0)) with 16%nat. change (length (leaves [])) with 0%nat. change NLMSG_HDRLEN with 16%nat.
  change (MNL_ALIGN (length WG_GENL_NAME + length [0])) with 12%nat. cbn [length]. lia.
Qed.
Lemma get_request_len name : Z.of_nat (length name) < 60000 →
  nlmsg_len (get_request name) = 24 + Z.of_nat (MNL_ALIGN (length name + 1)).
Proof.
  intros Hn. unfold get_request, mnl_attr_put_strz. rewrite put_leaf by (done || (rewrite length_app; cbn [length]; lia)).
  unfold nlmsg_len. rewrite length_app, leaf_length, length_app.
  change (length (mnlg_msg_prepare WG_CMD_GET_DEVICE WG_GENL_VERSION)) with 4%nat. change NLMSG_HDRLEN with 16%nat. cbn [length]. lia.
Qed.

(** Without a callback of its own a run always ends. *)
Lemma cb_run_none_ends {X} fuel g seq portid nlh len ret (st : Z * X) o :
  ∃ r, cb_run fuel g (None : option (bytes → Z * X → M (Z * (Z * X)))) seq portid nlh len ret st o = Done (r, o).
Proof.
  revert nlh len ret st. induction fuel as [|fuel IH]; intros nlh len ret st; cbn [cb_run]; [by eexists|].
  repeat (case_match; [by eexists|]).
  unfold mbind, M_bind. destruct (NLMSG_MIN_TYPE <=? msg_type nlh); unfold mret at 1, M_ret.
  - destruct (_ <=? MNL_CB_STOP); [by eexists|apply IH].
  - destruct (_ <=? MNL_CB_STOP); [by eexists|apply IH].
Qed.

(** [wg_add_device] and [wg_del_device] ask for a link of this name and of the kind that
    [wg_list_device_names] looks for, and return what the kernel answers: 0 for an acknowledgement
    and the negative error otherwise.  The answer is checked against a sequence number that is read
    from the answer itself, so one with any other number, such as the answer to
    another request, is taken for theirs. *)
Theorem add_del_iface_any_sequence SBS now portid s error name add (transact : bytes → Z * (Z + bytes))
    (Hname : interface_name name) (Hfit : nlmsg_len (enc_link (wg_link name)) <= SBS < 60000)
    (Hs : 0 <= s < 2 ^ 32) (Hpid : 0 <= portid < 2 ^ 32) (Herror : - 2 ^ 31 <= error <= 0)
    (Hanswer : transact (link_message now name add) = (0, inr (error_frame s portid error))) :
  run (add_del_iface SBS 0 0 now portid transact name add) = Done error ∧
  ∃ fl, link_message now name add = message_bytes (if add then RTM_NEWLINK else RTM_DELLINK) fl now 0 (enc_link (wg_link name)) ∧
    link_ok (wg_link name) ∧ wg_names [wg_link name] = [name].
Proof.
  destruct (wg_link_ok name Hname ltac:(lia)) as [Hok Hwg].
  assert (Hlen : Z.of_nat (length name) < 60000).
  { destruct Hfit as [Hf1 Hf2]. unfold nlmsg_len, enc_link, link_attrs in Hf1. rewrite !length_app, leaf_length, length_app in Hf1.
    cbn [wg_link l_name length] in Hf1. pose proof (MNL_ALIGN_spec (length name + 1)) as [? _]. lia. }
  split.
  - unfold run, add_del_iface, mnl_socket_open, mbind, M_bind. cbn [alloc negb mret M_ret]. change (truthy 0) with false. cbn iota.
    rewrite link_request_link, (proj2 (Z.ltb_ge SBS _)) by (done || lia). rewrite Hanswer. change (truthy 0) with false. cbn iota.
    rewrite error_frame_seq by done. rewrite (cb_run_error s portid Hs Hpid) by lia. cbn [fst snd].
    destruct (Z.eqb_spec error 0) as [->|Hne]; [done|]. change (MNL_CB_ERROR <? 0) with true. cbn iota. unfold mret, M_ret. f_equal. lia.
  - eexists. split; [unfold link_message; by rewrite link_request_link|]. split; [done|]. unfold wg_names.
    by rewrite filter_cons, Hwg, decide_True.
Qed.

(** The answer to another request, with the number 7, and one that says that the name is taken. *)
Lemma add_del_iface_any_sequence_witness :
  run (add_del_iface 4096 0 0 1 2 (λ _, (0, inr (error_frame 7 2 (-17)))) (str "wg0") true) = Done (-17) ∧
  ∃ fl, link_message 1 (str "wg0") true = message_bytes RTM_NEWLINK fl 1 0 (enc_link (wg_link (str "wg0"))) ∧
    link_ok (wg_link (str "wg0")) ∧ wg_names [wg_link (str "wg0")] = [str "wg0"].
Proof.
  apply (add_del_iface_any_sequence 4096 1 2 7 (-17) (str "wg0") true (λ _, (0, inr (error_frame 7 2 (-17))))); try done; lia.
Defined.

(** The library does not bound the name of an interface before it stores it.  [wg_add_device]
    and [wg_del_device] write past the end of their buffer exactly when the name is too long for it,
    and so does [wg_get_device], where [kernel_get_device] of the tools refuses a name of
    16 bytes or more. *)
Theorem long_name_overflows SBS now portid transact id send_errno seq answers fuel name add
    (Hlen : Z.of_nat (length name) < 60000) :
  (run (add_del_iface SBS 0 0 now portid transact name add) = Undefined ↔ SBS < 56 + Z.of_nat (MNL_ALIGN (length name + 1))) ∧
  (SBS < 24 + Z.of_nat (MNL_ALIGN (length name + 1)) →
     run (wg_get_device SBS (mret (inr id)) send_errno seq portid answers (S fuel) name) = Undefined) ∧
  ((IFNAMSIZ <= length name)%nat →
     run (kernel_get_device (mret (inr id)) send_errno seq portid answers (S fuel) name) = Done (- ENAMETOOLONG, None)).
Proof.
  split_and!.
  - unfold run, add_del_iface, mnl_socket_open, mbind, M_bind. cbn [alloc negb mret M_ret]. change (truthy 0) with false. cbn iota.
    rewrite link_request_len by done. destruct (Z.ltb_spec SBS (56 + Z.of_nat (MNL_ALIGN (length name + 1)))) as [Hlt|Hge]; [done|].
    split; [|lia]. destruct (transact (link_message now name add)) as [e r]. destruct (truthy e); [done|].
    destruct r as [e'|buf]; [done|]. unfold mnl_cb_run.
    destruct (cb_run_none_ends (S (length buf)) false (msg_seq (buf ++ drop (length buf) (link_message now name add))) portid buf
      (Z.of_nat (length buf)) MNL_CB_OK (0, ()) []) as [r ->]. done.
  - intros Hlt. unfold run, wg_get_device. cbn [Embed.get_attempt]. unfold mbind, M_bind. cbn [alloc negb]. unfold mret at 1, M_ret.
    rewrite get_request_len by done. by rewrite (proj2 (Z.ltb_lt SBS _)).
  - intros Hge. unfold kernel_get_device. by rewrite (proj2 (Nat.leb_le IFNAMSIZ (length name))).
Qed.

Lemma long_name_overflows_witness :
  run (add_del_iface 4096 0 0 1 2 (λ _, (0, inl 0)) (replicate 4096 97) true) = Undefined ∧
  run (wg_get_device 4096 (mret (inr 33)) 0 1 2 (two_ips_answer 32) 1 (replicate 4096 97)) = Undefined ∧
  run (kernel_get_device (mret (inr 33)) 0 1 2 (two_ips_answer 32) 1 (replicate 4096 97)) = Done (- ENAMETOOLONG, None).
Proof.
  destruct (long_name_overflows 4096 1 2 (λ _, (0, inl 0)) 33 0 1 (two_ips_answer 32) 0 (replicate 4096 97) true) as (H1 & H2 & H3).
  - rewrite length_replicate. lia.
  - rewrite length_replicate in *. split_and!; [apply H1; by vm_compute|apply H2; by vm_compute|apply H3; apply Nat.leb_le; by vm_compute].
Defined.

(** ** Error numbers *)

(** A dump with a peer that has no key: the tools report the [EINVAL] of last resort, the
    library the [ENXIO] of its callback. *)
Definition keyless_answer (n : nat) : list (Z + bytes) :=
  [inr (message_bytes 33 NLM_F_MULTI 1 2 (mnlg_msg_prepare WG_CMD_GET_DEVICE WG_GENL_VERSION ++ nest WGDEVICE_A_PEERS (nest 0 [])));
   inr (done_frame 1 2)].
Example keyless_peer_errors :
  run (kernel_get_device (mret (inr 33)) 0 1 2 keyless_answer 1 (str "wg0")) = Done (- EINVAL, None) ∧
  run (wg_get_device 4096 (mret (inr 33)) 0 1 2 keyless_answer 1 (str "wg0")) = Done (- ENXIO, None).
Proof. vm_compute. done. Qed.
