(* ===== verification/IpcBSD.v ===== *)
(** * IpcBSD: what ipc-openbsd.h and ipc-freebsd.h have in common

    The list of interfaces is the group "wg" of the kernel, which both files read with
    the same code; socket addresses carry their length. *)

From Stdlib Require Import Ascii String.
From stdpp Require Import base numbers option sets list list_numbers strings.
From S2P Require Import Prelude CLib Ctype Encoding Containers Setconf Ipc.
#[local] Open Scope c_scope.

(** [sa_len]: what [getaddrinfo] and the kernel store, zero in an address that was never set. *)
Definition sa_len (sa : sockaddr) : Z :=
  if sa_family sa =? AF_INET then SIZEOF_SOCKADDR_IN
  else if sa_family sa =? AF_INET6 then SIZEOF_SOCKADDR_IN6
  else 0.
(** [sizeof(struct sockaddr)] and the size of the union of the three. *)
Definition SIZEOF_SOCKADDR : Z := 16.
Definition SIZEOF_ENDPOINT : Z := 28.

(** [strlcpy(dst, src, IFNAMSIZ)] *)
Definition strlcpy_name (src : bytes) : bytes := take (IFNAMSIZ - 1) src.

Section Interfaces.
Context {plat : Platform}.
Variable SIZEOF_IFG_REQ : Z.
(** The [errno] of [socket], 0 for none. *)
Variable socket_errno : Z.
(** The two calls of SIOCGIFGMEMB: an [errno], or [ifgr_len]; the second one also fills the buffer. *)
Variable members_size : Z + Z.
Variable members : Z + Z * list bytes.

(** The loop over the members: [room] is [ifgr_len], an [unsigned int]. *)
Fixpoint add_members (l : string_list) (ret : Z) (groups : list bytes) (room : Z) : M (Z * string_list) :=
  if room =? 0 then mret (ret, l)
  else match groups with
  | [] => undefined
  | member :: groups' =>
      r ← string_list_add l member;
      if r.1 <? 0 then mret r else add_members r.2 r.1 groups' (u32 (room - SIZEOF_IFG_REQ))
  end.

Definition kernel_get_wireguard_interfaces (l : string_list) : M (Z * string_list) :=
  if truthy socket_errno then mret (- socket_errno, l)
  else match members_size with
  | inl errno => mret (if errno =? ENOENT then 0 else - errno, l)
  | inr _ =>
      ifgr_groups ← alloc;
      if negb ifgr_groups then mret (- ENOMEM, l)
      else match members with
      | inl errno => mret (- errno, l)
      | inr (ifgr_len, groups) => add_members l 0 groups ifgr_len
      end
  end.
End Interfaces.
