(* ===== verification/IpcBSDSpec.v ===== *)
(** * IpcBSDSpec: what both BSD transports keep of a device

    The device that is read back, and the list of interfaces. *)

From Stdlib Require Import Ascii String.
From stdpp Require Import base numbers option sets list list_numbers strings.
From S2P Require Import Prelude CLib Ctype Encoding Containers Setconf Ipc IpcSpec IpcLinux IpcLinuxSpec IpcLinuxGetSpec IpcLinuxLinksSpec IpcBSD.
#[local] Open Scope c_scope.

(** ** What is read back *)

(** As on Linux, but that the port, the mark and the keepalive have their flags; [keep] says which endpoints
    are kept. *)
Definition bsd_peer_view (keep : Z → bool) (p : wgpeer) : wgpeer :=
  let psk := has_flag (p_flags p) WGPEER_HAS_PRESHARED_KEY in
  let pka := has_flag (p_flags p) WGPEER_HAS_PERSISTENT_KEEPALIVE_INTERVAL in
  with_ips (ip_view <$> allowedips p)
    {| p_flags := WGPEER_HAS_PUBLIC_KEY .| (if psk && negb (key_is_zero (preshared_key p)) then WGPEER_HAS_PRESHARED_KEY else 0)
                  .| (if pka then WGPEER_HAS_PERSISTENT_KEEPALIVE_INTERVAL else 0);
       p_public_key := p_public_key p;
       preshared_key := if psk then preshared_key p else replicate WG_KEY_LEN 0;
       endpoint := if keep (sa_family (endpoint p)) then endpoint p else sockaddr_zero;
       tv_sec := 0; tv_nsec := 0; rx_bytes := 0; tx_bytes := 0;
       persistent_keepalive_interval := if pka then persistent_keepalive_interval p else 0;
       allowedips := []; last_allowedip := None |}.
Definition bsd_view (keep : Z → bool) (d : wgdevice) : wgdevice :=
  let key := has_flag (flags d) WGDEVICE_HAS_PRIVATE_KEY in
  let port := has_flag (flags d) WGDEVICE_HAS_LISTEN_PORT in
  let mark := has_flag (flags d) WGDEVICE_HAS_FWMARK in
  {| name := name d; ifindex := 0;
     flags := (if mark then WGDEVICE_HAS_FWMARK else 0) .| (if port then WGDEVICE_HAS_LISTEN_PORT else 0) .| (if key then WGDEVICE_HAS_PRIVATE_KEY else 0);
     public_key := replicate WG_KEY_LEN 0; private_key := if key then private_key d else replicate WG_KEY_LEN 0;
     fwmark := if mark then fwmark d else 0; listen_port := if port then listen_port d else 0;
     peers := bsd_peer_view keep <$> peers d; last_peer := last_pos (bsd_peer_view keep <$> peers d) |}.

(** ** Cursors *)

Lemma link_ip k p y :
  set_last_allowedip (Some (next_pos (last_allowedip (with_ips k p))))
    (set_allowedips (link_after (allowedips (with_ips k p)) (last_allowedip (with_ips k p)) y) (with_ips k p)) = with_ips (k ++ [y]) p.
Proof.
  unfold with_ips. cbn [set_last_allowedip set_allowedips peer_with last_allowedip allowedips].
  rewrite link_after_app by apply last_pos_cursor. by rewrite (next_last k y).
Qed.
Lemma link_peer k d y :
  set_last_peer (Some (next_pos (last_peer (with_peers k d))))
    (set_peers (link_after (peers (with_peers k d)) (last_peer (with_peers k d)) y) (with_peers k d)) = with_peers (k ++ [y]) d.
Proof.
  unfold with_peers. cbn [set_last_peer set_peers device_with last_peer peers].
  rewrite link_after_app by apply last_pos_cursor. by rewrite (next_last k y).
Qed.

Lemma with_ips_nil p : allowedips p = [] → last_allowedip p = None → with_ips [] p = p.
Proof. destruct p. cbn. by intros -> ->. Qed.

(** Addresses without flags, which neither system can store. *)
Definition plain_ip (a : wgallowedip) : Prop := allowedip_ok a ∧ ai_flags a = 0.
Definition plain_peer_ok (p : wgpeer) : Prop := peer_ok p ∧ Forall plain_ip (allowedips p).
Lemma plain_peers_ok d : device_ok d → Forall (λ p, Forall (λ a, ai_flags a = 0) (allowedips p)) (peers d) → Forall plain_peer_ok (peers d).
Proof.
  intros (_ & _ & _ & _ & Hps) Hplain. apply Forall_forall. intros p Hp. rewrite Forall_forall in Hps, Hplain.
  split; [by apply Hps|]. destruct (Hps p Hp) as (_ & _ & _ & _ & Hi). specialize (Hplain p Hp). apply Forall_forall. intros a Ha.
  rewrite Forall_forall in Hi, Hplain. split; auto.
Qed.

(** ** The list of interfaces *)

Section Interfaces.
Context {plat : Platform} (SIZEOF_IFG_REQ : Z).
Hypothesis Hreq : 0 < SIZEOF_IFG_REQ.

Lemma add_members_spec members l names ret :
  Forall interface_name members → SIZEOF_IFG_REQ * Z.of_nat (length members) < 2 ^ 32 → holds l names →
  Z.of_nat (length (names_text (names ++ members))) + 1 <= SIZE_MAX → ret = 0 →
  ∃ l', add_members SIZEOF_IFG_REQ l ret members (SIZEOF_IFG_REQ * Z.of_nat (length members)) [] = Done ((0, l'), []) ∧ holds l' (names ++ members).
Proof.
  intros Hm. revert l names ret. induction Hm as [|m members [Hne Hc] _ IH]; intros l names ret Hs Hh Hmax ->.
  { exists l. cbn [add_members length]. rewrite Z.mul_0_r, app_nil_r. done. }
  cbn [length] in *. rewrite Nat2Z.inj_succ in *. cbn [add_members]. rewrite (proj2 (Z.eqb_neq _ 0)) by lia.
  rewrite names_text_app, length_app, names_text_cons in Hmax.
  pose proof (string_list_add_cases l names m [] Hh Hc ltac:(rewrite (h_len _ _ Hh); lia)) as H. unfold mbind, M_bind.
  destruct (string_list_add l m []) as [[[r l'] o']| | |]; [|done..].
  destruct H as [(Ho & -> & Hh')|(_ & _ & Hin)]; [|by apply not_elem_of_nil in Hin].
  assert (o' = []) as -> by (destruct o' as [|x o']; [done|]; exfalso; specialize (Ho x); set_solver).
  cbn [fst snd]. change (0 <? 0) with false. cbn iota. destruct m as [|c m]; [done|].
  replace (u32 _) with (SIZEOF_IFG_REQ * Z.of_nat (length members)) by (rewrite u32_small by lia; lia).
  destruct (IH l' (names ++ [c :: m]) 0) as (l2 & Hr & Hh2); [lia|done| |done|].
  - rewrite <- app_assoc. cbn [app]. rewrite names_text_app, length_app, names_text_cons. lia.
  - exists l2. split; [exact Hr|]. by rewrite <- app_assoc in Hh2.
Qed.

(** On both systems the list holds the members of the group "wg", in order. *)
Theorem bsd_lists_interfaces members :
  Forall interface_name members → SIZEOF_IFG_REQ * Z.of_nat (length members) < 2 ^ 32 →
  Z.of_nat (length (names_text members)) + 1 <= SIZE_MAX →
  let len := SIZEOF_IFG_REQ * Z.of_nat (length members) in
  ∃ l, kernel_get_wireguard_interfaces SIZEOF_IFG_REQ 0 (inr len) (inr (len, members)) string_list_zero [] = Done ((0, l), []) ∧ holds l members.
Proof.
  intros Hm Hs Hmax len. destruct (add_members_spec members string_list_zero [] 0 Hm Hs holds_zero Hmax eq_refl) as (l & Hr & Hh).
  exists l. split; [|done]. unfold kernel_get_wireguard_interfaces. change (truthy 0) with false. cbn iota. unfold mbind, M_bind. cbn [alloc negb]. exact Hr.
Qed.
End Interfaces.
