(* ===== verification/IpcCells.v ===== *)
(** * IpcCells: a device in one buffer of structures

    ipc-openbsd.h and ipc-windows.h hand a device over the same way: a structure for
    the interface, then every peer followed by its addresses.  The buffer behind the
    interface is a list of cells, one for each structure, and a pointer into it is the
    rest of the list; a pointer that is used as a structure of another kind is
    undefined.  While the buffer is written the bytes that are left of it are
    counted.  The structures of the two systems are the parameters. *)

From Stdlib Require Import Ascii String.
From stdpp Require Import base numbers option sets list list_numbers strings.
From S2P Require Import Prelude CLib Ctype Encoding Containers Setconf Ipc.
#[local] Open Scope c_scope.

Inductive cell (P A : Type) := PeerCell (p : P) | AipCell (a : A).
Arguments PeerCell {P A} p.
Arguments AipCell {P A} a.

Section Read.
Context {P A : Type}.
(** The fields of an address and of a peer, and the number of its addresses. *)
Variable read_aip : A → wgallowedip.
Variable read_peer : P → wgpeer.
Variable aips_count : P → nat.

(** The loop over the addresses of a peer, from [wg_aip] on: the peer and where [wg_aip] ends,
    or [None] for the jump to [out]. *)
Fixpoint read_aips (count : nat) (wg_aip : list (cell P A)) (peer : wgpeer) : M (option (wgpeer * list (cell P A))) :=
  match count with
  | O => mret (Some (peer, wg_aip))
  | S count' =>
      aip ← alloc;
      if negb aip then mret None
      else match wg_aip with
      | AipCell a :: wg_aip' =>
          read_aips count' wg_aip'
            (set_last_allowedip (Some (next_pos (last_allowedip peer))) (set_allowedips (link_after (allowedips peer) (last_allowedip peer) (read_aip a)) peer))
      | _ => undefined
      end
  end.

Fixpoint read_peers (count : nat) (wg_peer : list (cell P A)) (dev : wgdevice) : M (option wgdevice) :=
  match count with
  | O => mret (Some dev)
  | S count' =>
      peer ← alloc;
      if negb peer then mret None
      else match wg_peer with
      | PeerCell p :: wg_aip =>
          r ← read_aips (aips_count p) wg_aip (read_peer p);
          match r with
          | None => mret None
          | Some (peer, wg_aip) =>
              read_peers count' wg_aip
                (set_last_peer (Some (next_pos (last_peer dev))) (set_peers (link_after (peers dev) (last_peer dev) peer) dev))
          end
      | _ => undefined
      end
  end.
End Read.

Section Write.
Context {P A : Type}.
(** The sizes of the structures. *)
Variables SIZEOF_INTERFACE SIZEOF_PEER SIZEOF_AIP : Z.
(** An address, and a peer with the number of its addresses and the prefix length that a skipped address
    has left in its place. *)
Variable write_aip : wgallowedip → A.
Variable write_peer : wgpeer → Z → nat → P.

(** The size of the buffer. *)
Definition data_size (d : wgdevice) : Z :=
  SIZEOF_INTERFACE + foldr (λ p n, SIZEOF_PEER + SIZEOF_AIP * Z.of_nat (length (allowedips p)) + n) 0 (peers d).

(** The loop over the addresses: the cells written, the prefix length that a skipped address left where the
    next structure will be, and the bytes that are left behind [wg_aip]; [None] is the jump to [out]. *)
Fixpoint write_aips (ips : list wgallowedip) (stale room : Z) : M (option (list (cell P A) * Z * Z)) :=
  match ips with
  | [] => mret (Some ([], stale, room))
  | aip :: ips' =>
      if truthy (ai_flags aip) then mret None
      else if room <? SIZEOF_AIP then undefined
      else if (family aip =? AF_INET) || (family aip =? AF_INET6) then
        r ← write_aips ips' 0 (room - SIZEOF_AIP);
        mret (match r with
              | None => None
              | Some (cells, stale, room) => Some (AipCell (write_aip aip) :: cells, stale, room)
              end)
      else write_aips ips' (cidr aip) room
  end.

Fixpoint write_peers (ps : list wgpeer) (stale room : Z) : M (option (list (cell P A))) :=
  match ps with
  | [] => mret (Some [])
  | peer :: ps' =>
      if room <? SIZEOF_PEER then undefined
      else
        r ← write_aips (allowedips peer) 0 (room - SIZEOF_PEER);
        match r with
        | None => mret None
        | Some (aips, stale', room) =>
            rest ← write_peers ps' stale' room;
            mret (match rest with
                  | None => None
                  | Some cells => Some (PeerCell (write_peer peer stale (length aips)) :: aips ++ cells)
                  end)
        end
  end.
End Write.
