(* ===== verification/IpcCellsSpec.v ===== *)
(** * IpcCellsSpec: what is written as cells fits the buffer and is read back

    For any structures of peers and addresses with the laws of [CellLaws]. *)

From Stdlib Require Import Ascii String.
From stdpp Require Import base numbers option sets list list_numbers strings.
From S2P Require Import Prelude CLib Ctype Encoding Containers Setconf Ipc IpcSpec IpcLinux IpcLinuxSpec IpcLinuxGetSpec IpcLinuxLinksSpec.
From S2P Require Import IpcBSD IpcBSDSpec IpcCells.
#[local] Open Scope c_scope.

(** What reading one structure promises of one that was written; [view] is what is kept of a peer. *)
Class CellLaws {P A : Type} (read_aip : A → wgallowedip) (read_peer : P → wgpeer) (aips_count : P → nat)
    (write_aip : wgallowedip → A) (write_peer : wgpeer → Z → nat → P) (view : wgpeer → wgpeer) : Prop := {
  law_aip a : allowedip_ok a → read_aip (write_aip a) = ip_view a;
  law_count p stale n : aips_count (write_peer p stale n) = n;
  law_bare io : allowedips (read_peer io) = [] ∧ last_allowedip (read_peer io) = None;
  law_peer p n : peer_ok p → with_ips (ip_view <$> allowedips p) (read_peer (write_peer p 0 n)) = view p;
}.

(** An address in a union that is large enough for both families. *)
Lemma stored_ip a :
  allowedip_ok a →
  let addr := if family a =? AF_INET then ip4 a ++ replicate 12 0 else ip6 a in
  let aip := set_family (family a) wgallowedip_zero in
  (if family a =? AF_INET then set_cidr (cidr a) (store_ip (take 4 addr) aip)
   else if family a =? AF_INET6 then set_cidr (cidr a) (store_ip (take 16 addr) aip) else aip) = ip_view a.
Proof.
  intros Ha. pose proof (allowedip_ip_length a Ha) as [H4 H6]. destruct Ha as (_ & _ & Hf & _). unfold ip_view. cbv zeta. destruct Hf as [[-> _]|[-> _]].
  - change (AF_INET =? AF_INET) with true. cbn iota. rewrite take_app_length' by done.
    unfold store_ip, set_cidr, set_family, wgallowedip_zero. cbn [family ip cidr ai_flags]. by rewrite H4.
  - change (AF_INET6 =? AF_INET) with false. change (AF_INET6 =? AF_INET6) with true. cbn iota. unfold ip6 in *. rewrite take_ge by lia.
    unfold store_ip, set_cidr, set_family, wgallowedip_zero. cbn [family ip cidr ai_flags]. rewrite H6. by rewrite app_nil_r.
Qed.

Section Cells.
Context {P A : Type} {read_aip : A → wgallowedip} {read_peer : P → wgpeer} {aips_count : P → nat}.
Context {write_aip : wgallowedip → A} {write_peer : wgpeer → Z → nat → P} {view : wgpeer → wgpeer}.
Context {laws : CellLaws read_aip read_peer aips_count write_aip write_peer view}.
Context (SIZEOF_INTERFACE SIZEOF_PEER SIZEOF_AIP : Z).
Hypothesis Hsizes : 0 < SIZEOF_INTERFACE ∧ 0 <= SIZEOF_PEER ∧ 0 <= SIZEOF_AIP.

Definition peer_cells (p : wgpeer) : list (cell P A) :=
  PeerCell (write_peer p 0 (length (allowedips p))) :: (AipCell ∘ write_aip <$> allowedips p).
Definition peers_size (ps : list wgpeer) : Z :=
  foldr (λ p n, SIZEOF_PEER + SIZEOF_AIP * Z.of_nat (length (allowedips p)) + n) 0 ps.
Lemma peers_size_nonneg ps : 0 <= peers_size ps.
Proof using Hsizes. induction ps as [|p ps IH]; cbn; [lia|]. fold (peers_size ps). lia. Qed.
Lemma data_size_peers d : data_size SIZEOF_INTERFACE SIZEOF_PEER SIZEOF_AIP d = SIZEOF_INTERFACE + peers_size (peers d).
Proof. done. Qed.

(** ** Writing *)

(** Whatever the families and flags, nothing is written past the end. *)
Lemma write_aips_safe ips stale room o :
  SIZEOF_AIP * Z.of_nat (length ips) <= room →
  ∃ r, write_aips SIZEOF_AIP write_aip ips stale room o = Done (r, o) ∧
    (∀ (cells : list (cell P A)) st room', r = Some (cells, st, room') → room - SIZEOF_AIP * Z.of_nat (length ips) <= room').
Proof using Hsizes.
  revert stale room. induction ips as [|a ips IH]; intros stale room Hr; cbn [write_aips].
  { eexists. split; [done|]. intros ??? [= <- <- <-]. cbn [length]. lia. }
  cbn [length] in *. rewrite Nat2Z.inj_succ in *. destruct (truthy (ai_flags a)); [by eexists|].
  rewrite (proj2 (Z.ltb_ge room SIZEOF_AIP)) by lia. destruct (_ || _).
  - destruct (IH 0 (room - SIZEOF_AIP) ltac:(lia)) as (r & Hw & Hs). unfold mbind, M_bind. rewrite Hw. eexists. split; [done|].
    intros cells st room' Heq. destruct r as [[[cells' st'] room'']|]; [|done]. injection Heq as <- <- <-. specialize (Hs _ _ _ eq_refl). lia.
  - destruct (IH (cidr a) room ltac:(lia)) as (r & Hw & Hs). exists r. split; [done|]. intros cells st room' Heq. specialize (Hs _ _ _ Heq). lia.
Qed.

Lemma write_peers_safe ps stale room o :
  peers_size ps <= room → ∃ r, write_peers SIZEOF_PEER SIZEOF_AIP write_aip write_peer ps stale room o = Done (r, o).
Proof using Hsizes.
  revert stale room. induction ps as [|p ps IH]; intros stale room Hr; cbn [write_peers]; [by eexists|].
  cbn [peers_size foldr] in Hr. fold (peers_size ps) in Hr.
  pose proof (peers_size_nonneg ps). rewrite (proj2 (Z.ltb_ge room SIZEOF_PEER)) by lia.
  destruct (write_aips_safe (allowedips p) 0 (room - SIZEOF_PEER) o ltac:(lia)) as (r & Hw & Hs). unfold mbind, M_bind. rewrite Hw.
  destruct r as [[[cells st] room']|]; [|by eexists]. specialize (Hs _ _ _ eq_refl).
  destruct (IH st room' ltac:(lia)) as [r' ->]. by eexists.
Qed.

Lemma write_aips_spec ips stale room o :
  Forall plain_ip ips → SIZEOF_AIP * Z.of_nat (length ips) <= room →
  ∃ stale', write_aips SIZEOF_AIP write_aip ips stale room o =
    Done (Some ((AipCell ∘ write_aip <$> ips : list (cell P A)), stale', room - SIZEOF_AIP * Z.of_nat (length ips)), o) ∧ (stale = 0 → stale' = 0).
Proof using Hsizes.
  intros Hips. revert stale room o. induction Hips as [|a ips [Ha Hfl] _ IH]; intros stale room o Hr.
  { exists stale. cbn [write_aips length]. rewrite Z.mul_0_r, Z.sub_0_r. done. }
  cbn [length] in Hr. rewrite Nat2Z.inj_succ in Hr. cbn [write_aips]. rewrite Hfl. change (truthy 0) with false. cbn iota.
  rewrite (proj2 (Z.ltb_ge room SIZEOF_AIP)) by lia.
  assert ((family a =? AF_INET) || (family a =? AF_INET6) = true) as ->.
  { destruct Ha as (_ & _ & [[-> _]|[-> _]] & _); done. }
  destruct (IH 0 (room - SIZEOF_AIP) o ltac:(lia)) as (st' & Hw & Hst). exists st'. unfold mbind, M_bind. rewrite Hw. split; [|auto].
  unfold mret, M_ret. rewrite fmap_cons. cbn [compose length]. rewrite Nat2Z.inj_succ.
  by replace (room - SIZEOF_AIP * Z.succ (Z.of_nat (length ips))) with (room - SIZEOF_AIP - SIZEOF_AIP * Z.of_nat (length ips)) by lia.
Qed.

Lemma write_peers_spec ps room o :
  Forall plain_peer_ok ps → peers_size ps <= room →
  write_peers SIZEOF_PEER SIZEOF_AIP write_aip write_peer ps 0 room o = Done (Some (flat_map peer_cells ps), o).
Proof using Hsizes.
  intros Hps. revert room o. induction Hps as [|p ps [_ Hp] _ IH]; intros room o Hr; [done|].
  cbn [peers_size foldr] in Hr. fold (peers_size ps) in Hr. pose proof (peers_size_nonneg ps). cbn [write_peers].
  rewrite (proj2 (Z.ltb_ge room SIZEOF_PEER)) by lia.
  destruct (write_aips_spec (allowedips p) 0 (room - SIZEOF_PEER) o Hp ltac:(lia)) as (st & Hw & Hst). unfold mbind, M_bind. rewrite Hw.
  rewrite Hst by done. rewrite IH by lia. unfold mret, M_ret. cbn [flat_map]. unfold peer_cells. by rewrite length_fmap.
Qed.

(** ** Reading *)

Lemma read_aips_spec ips rest k p :
  Forall allowedip_ok ips →
  read_aips read_aip (length ips) ((AipCell ∘ write_aip <$> ips : list (cell P A)) ++ rest) (with_ips k p) [] =
    Done (Some (with_ips (k ++ (ip_view <$> ips)) p, rest), []).
Proof using laws.
  intros Hips. revert k. induction Hips as [|a ips Ha _ IH]; intros k; [by rewrite app_nil_r|].
  rewrite !fmap_cons. cbn [length app compose read_aips]. unfold mbind, M_bind. cbn [alloc negb].
  rewrite link_ip, law_aip by done. rewrite IH. by rewrite <- app_assoc.
Qed.

Lemma read_peers_spec ps k d :
  Forall plain_peer_ok ps →
  read_peers read_aip read_peer aips_count (length ps) (flat_map peer_cells ps) (with_peers k d) [] = Done (Some (with_peers (k ++ (view <$> ps)) d), []).
Proof using laws.
  intros Hps. revert k. induction Hps as [|p ps [Hp Hi] _ IH]; intros k; [by rewrite app_nil_r|].
  cbn [length flat_map peer_cells app read_peers]. unfold mbind, M_bind. cbn [alloc negb]. rewrite law_count.
  destruct (law_bare (write_peer p 0 (length (allowedips p)))) as [H1 H2]. rewrite <- (with_ips_nil (read_peer _) H1 H2).
  rewrite read_aips_spec by (eapply Forall_impl; [exact Hi|]; intros a Ha; apply Ha). cbn [app].
  rewrite law_peer, link_peer, IH, <- app_assoc by done. done.
Qed.
End Cells.
