(* ===== verification/IpcOpenBSD.v ===== *)
(** * IpcOpenBSD: ipc-openbsd.h, the kernel's side on OpenBSD

    A device crosses the border in one buffer: a [struct wg_interface_io], then every
    peer followed by its addresses, as cells of IpcCells. *)

From Stdlib Require Import Ascii String.
From stdpp Require Import base numbers option sets list list_numbers strings.
From S2P Require Import Prelude CLib Ctype Encoding Containers Setconf Ipc IpcBSD IpcCells.
#[local] Open Scope c_scope.

(** ** net/if_wg.h *)

Definition WG_PEER_HAS_PUBLIC : Z := 1 .<< 0.
Definition WG_PEER_HAS_PSK : Z := 1 .<< 1.
Definition WG_PEER_HAS_PKA : Z := 1 .<< 2.
Definition WG_PEER_HAS_ENDPOINT : Z := 1 .<< 3.
Definition WG_PEER_REPLACE_AIPS : Z := 1 .<< 4.
Definition WG_PEER_REMOVE : Z := 1 .<< 5.
Definition WG_INTERFACE_HAS_PUBLIC : Z := 1 .<< 0.
Definition WG_INTERFACE_HAS_PRIVATE : Z := 1 .<< 1.
Definition WG_INTERFACE_HAS_PORT : Z := 1 .<< 2.
Definition WG_INTERFACE_HAS_RTABLE : Z := 1 .<< 3.
Definition WG_INTERFACE_REPLACE_PEERS : Z := 1 .<< 4.

Record wg_aip_io := { a_af : Z; a_cidr : Z; a_addr : bytes }.
Record wg_peer_io := {
  io_flags : Z;
  io_protocol_version : Z;
  io_public : bytes;
  io_psk : bytes;
  io_pka : Z;
  io_endpoint : sockaddr;
  io_txbytes : Z;
  io_rxbytes : Z;
  io_handshake_sec : Z;
  io_handshake_nsec : Z;
  io_aips_count : nat;
}.
Record wg_interface_io := {
  i_flags : Z;
  i_port : Z;
  i_rtable : Z;
  i_public : bytes;
  i_private : bytes;
  i_peers_count : nat;
}.
(** What [wgd_interface] points to. *)
Definition region : Type := wg_interface_io * list (cell wg_peer_io wg_aip_io).

(** ** kernel_get_device *)

(** One address: the union is filled for the two families only, and so is the prefix length. *)
Definition read_aip (a : wg_aip_io) : wgallowedip :=
  let aip := set_family (a_af a) wgallowedip_zero in
  if a_af a =? AF_INET then set_cidr (u8 (a_cidr a)) (store_ip (take 4 (a_addr a)) aip)
  else if a_af a =? AF_INET6 then set_cidr (u8 (a_cidr a)) (store_ip (take 16 (a_addr a)) aip)
  else aip.

(** The fields of a peer. *)
Definition read_peer (p : wg_peer_io) : wgpeer :=
  let peer := wgpeer_zero in
  let peer := if has_flag (io_flags p) WG_PEER_HAS_PUBLIC
              then set_p_flags (set_flag (p_flags peer) WGPEER_HAS_PUBLIC_KEY) (set_p_public_key (io_public p) peer) else peer in
  let peer := if has_flag (io_flags p) WG_PEER_HAS_PSK then
                let peer := set_preshared_key (io_psk p) peer in
                if negb (key_is_zero (preshared_key peer)) then set_p_flags (set_flag (p_flags peer) WGPEER_HAS_PRESHARED_KEY) peer else peer
              else peer in
  let peer := if has_flag (io_flags p) WG_PEER_HAS_PKA
              then set_p_flags (set_flag (p_flags peer) WGPEER_HAS_PERSISTENT_KEEPALIVE_INTERVAL) (set_keepalive (io_pka p) peer) else peer in
  let peer := if has_flag (io_flags p) WG_PEER_HAS_ENDPOINT && (sa_len (io_endpoint p) <=? SIZEOF_SOCKADDR)
              then set_endpoint (io_endpoint p) peer else peer in
  let peer := set_rx_bytes (io_rxbytes p) peer in
  let peer := set_tx_bytes (io_txbytes p) peer in
  let peer := set_tv_sec (io_handshake_sec p) peer in
  set_tv_nsec (io_handshake_nsec p) peer.

Section Get.
Variable socket_errno : Z.
(** SIOCGWG for a name, at its [n]-th call, with the size of the buffer: an [errno], or [wgd_size]
    and what the buffer holds then, if it was written. *)
Variable ioctl : bytes → nat → Z → Z + Z * option region.

(** The loop that grows the buffer: [None] is the jump to [out] with an [errno]. *)
Fixpoint fetch (fuel : nat) (name : bytes) (n : nat) (last_size : Z) : M (Z + option region) :=
  match fuel with
  | O => out_of_fuel
  | S fuel' =>
      match ioctl name n last_size with
      | inl errno => mret (inl errno)
      | inr (wgd_size, contents) =>
          if wgd_size <=? last_size then mret (inr contents)
          else
            buffer ← alloc;
            if negb buffer then mret (inl ENOMEM) else fetch fuel' name (S n) wgd_size
      end
  end.

(** The fields of the interface. *)
Definition read_interface (i : wg_interface_io) (dev : wgdevice) : wgdevice :=
  let dev := if has_flag (i_flags i) WG_INTERFACE_HAS_RTABLE
             then set_flags (set_flag (flags dev) WGDEVICE_HAS_FWMARK) (set_fwmark (u32 (i_rtable i)) dev) else dev in
  let dev := if has_flag (i_flags i) WG_INTERFACE_HAS_PORT
             then set_flags (set_flag (flags dev) WGDEVICE_HAS_LISTEN_PORT) (set_listen_port (i_port i) dev) else dev in
  let dev := if has_flag (i_flags i) WG_INTERFACE_HAS_PUBLIC
             then set_flags (set_flag (flags dev) WGDEVICE_HAS_PUBLIC_KEY) (set_public_key (i_public i) dev) else dev in
  if has_flag (i_flags i) WG_INTERFACE_HAS_PRIVATE
  then set_flags (set_flag (flags dev) WGDEVICE_HAS_PRIVATE_KEY) (set_private_key (i_private i) dev) else dev.

Definition kernel_get_device (fuel : nat) (iface : bytes) : M (Z * option wgdevice) :=
  if truthy socket_errno then mret (- socket_errno, None)
  else
    r ← fetch fuel (strlcpy_name iface) 0 0;
    match r with
    | inl errno => mret (- errno, None)
    | inr contents =>
        dev ← alloc;
        if negb dev then mret (- ENOMEM, None)
        else match contents with
        | None => undefined
        | Some (i, cells) =>
            dev ← read_peers read_aip read_peer io_aips_count (i_peers_count i) cells (read_interface i (set_name (strlcpy_name iface) wgdevice_zero));
            mret (match dev with Some dev => (0, Some dev) | None => (- ENOMEM, None) end)
        end
    end.
End Get.

(** ** kernel_set_device *)

(** The union of an address is filled for the two families only. *)
Definition write_aip (aip : wgallowedip) : wg_aip_io :=
  {| a_af := family aip; a_cidr := cidr aip; a_addr := if family aip =? AF_INET then ip4 aip ++ replicate 12 0 else ip6 aip |}.

(** A peer; a skipped address before it has left its [a_cidr] where [p_protocol_version] is. *)
Definition write_peer (peer : wgpeer) (stale : Z) (aip_count : nat) : wg_peer_io :=
  let psk := has_flag (p_flags peer) WGPEER_HAS_PRESHARED_KEY in
  let pka := has_flag (p_flags peer) WGPEER_HAS_PERSISTENT_KEEPALIVE_INTERVAL in
  let ep := ((sa_family (endpoint peer) =? AF_INET) || (sa_family (endpoint peer) =? AF_INET6)) &&
            (sa_len (endpoint peer) <=? SIZEOF_ENDPOINT) in
  let fl := WG_PEER_HAS_PUBLIC in
  let fl := if psk then set_flag fl WG_PEER_HAS_PSK else fl in
  let fl := if pka then set_flag fl WG_PEER_HAS_PKA else fl in
  let fl := if ep then set_flag fl WG_PEER_HAS_ENDPOINT else fl in
  let fl := if has_flag (p_flags peer) WGPEER_REPLACE_ALLOWEDIPS then set_flag fl WG_PEER_REPLACE_AIPS else fl in
  let fl := if has_flag (p_flags peer) WGPEER_REMOVE_ME then set_flag fl WG_PEER_REMOVE else fl in
  {| io_flags := fl; io_protocol_version := stale; io_public := p_public_key peer;
     io_psk := if psk then preshared_key peer else replicate WG_KEY_LEN 0;
     io_pka := if pka then persistent_keepalive_interval peer else 0;
     io_endpoint := if ep then endpoint peer else sockaddr_zero;
     io_txbytes := 0; io_rxbytes := 0; io_handshake_sec := 0; io_handshake_nsec := 0; io_aips_count := aip_count |}.

Definition write_interface (d : wgdevice) : wg_interface_io :=
  let key := has_flag (flags d) WGDEVICE_HAS_PRIVATE_KEY in
  let port := has_flag (flags d) WGDEVICE_HAS_LISTEN_PORT in
  let mark := has_flag (flags d) WGDEVICE_HAS_FWMARK in
  let fl := 0 in
  let fl := if key then set_flag fl WG_INTERFACE_HAS_PRIVATE else fl in
  let fl := if port then set_flag fl WG_INTERFACE_HAS_PORT else fl in
  let fl := if mark then set_flag fl WG_INTERFACE_HAS_RTABLE else fl in
  let fl := if has_flag (flags d) WGDEVICE_REPLACE_PEERS then set_flag fl WG_INTERFACE_REPLACE_PEERS else fl in
  {| i_flags := fl; i_port := if port then listen_port d else 0; i_rtable := if mark then s32 (fwmark d) else 0;
     i_public := replicate WG_KEY_LEN 0; i_private := if key then private_key d else replicate WG_KEY_LEN 0;
     i_peers_count := length (peers d) |}.

Section Set_.
Variables SIZEOF_INTERFACE SIZEOF_PEER SIZEOF_AIP : Z.
Variable socket_errno : Z.
(** The [errno] of SIOCSWG with this name and buffer, 0 for none. *)
Variable ioctl : bytes → Z → region → Z.

Definition kernel_set_device (d : wgdevice) : M Z :=
  let size := data_size SIZEOF_INTERFACE SIZEOF_PEER SIZEOF_AIP d in
  if truthy socket_errno then mret (- socket_errno)
  else
    wgd_interface ← alloc;
    if negb wgd_interface then mret (- ENOMEM)
    else
      r ← write_peers SIZEOF_PEER SIZEOF_AIP write_aip write_peer (peers d) 0 (size - SIZEOF_INTERFACE);
      mret (match r with
            | None => - EOPNOTSUPP
            | Some cells => - ioctl (strlcpy_name (name d)) size (write_interface d, cells)
            end).
End Set_.
