(* ===== verification/IpcOpenBSDSpec.v ===== *)
(** * IpcOpenBSDSpec: a device through the buffer of OpenBSD

    What [kernel_set_device] writes fits the buffer it has allocated, whatever the device, and
    [kernel_get_device] reads it back. *)

From Stdlib Require Import Ascii String.
From stdpp Require Import base numbers option sets list list_numbers strings.
From S2P Require Import Prelude CLib Ctype Encoding Containers Setconf Ipc IpcSpec IpcLinux IpcLinuxSpec IpcLinuxGetSpec IpcLinuxLinksSpec.
From S2P Require Import IpcBSD IpcBSDSpec IpcCells IpcCellsSpec IpcOpenBSD.
#[local] Open Scope c_scope.

(** An IPv6 endpoint is lost. *)
Definition openbsd_keeps (family : Z) : bool := family =? AF_INET.
Abbreviation openbsd_peer_view := (bsd_peer_view openbsd_keeps).
Abbreviation openbsd_view := (bsd_view openbsd_keeps).

(** ** The structures *)

Lemma read_write_aip a : allowedip_ok a → read_aip (write_aip a) = ip_view a.
Proof.
  intros Ha. rewrite <- stored_ip by done. unfold read_aip. cbn [a_af a_cidr a_addr write_aip]. rewrite u8_small; [done|].
  destruct Ha as (_ & _ & [[_ ?]|[_ ?]] & _); lia.
Qed.

Lemma read_write_peer p n : peer_ok p → with_ips (ip_view <$> allowedips p) (read_peer (write_peer p 0 n)) = openbsd_peer_view p.
Proof.
  intros (_ & _ & [He _] & _). unfold read_peer, write_peer, bsd_peer_view, openbsd_keeps, with_ips.
  destruct (has_flag (p_flags p) WGPEER_HAS_PRESHARED_KEY), (has_flag (p_flags p) WGPEER_HAS_PERSISTENT_KEEPALIVE_INTERVAL),
    (has_flag (p_flags p) WGPEER_REPLACE_ALLOWEDIPS), (has_flag (p_flags p) WGPEER_REMOVE_ME), (key_is_zero (preshared_key p)) eqn:Ek;
  destruct He as [He|[He|He]]; unfold sa_len; rewrite He; cbn; rewrite ?He, ?Ek; cbn; done.
Qed.

#[export] Instance openbsd_laws : CellLaws read_aip read_peer io_aips_count write_aip write_peer openbsd_peer_view.
Proof.
  split; [exact read_write_aip|done| |exact read_write_peer].
  intros io. unfold read_peer. repeat case_match; done.
Qed.

Lemma read_write_interface d :
  0 <= fwmark d < 2 ^ 32 → (length (name d) < IFNAMSIZ)%nat →
  with_peers (openbsd_peer_view <$> peers d) (read_interface (write_interface d) (set_name (strlcpy_name (name d)) wgdevice_zero)) = openbsd_view d.
Proof.
  intros Hm Hn. unfold strlcpy_name. rewrite take_ge by lia.
  assert (Hu : u32 (s32 (fwmark d)) = fwmark d).
  { unfold u32, s32. rewrite Zminus_mod_idemp_l. replace (fwmark d + 2 ^ 31 - 2 ^ 31) with (fwmark d) by lia. apply Z.mod_small. lia. }
  unfold read_interface, write_interface, bsd_view, with_peers.
  destruct (has_flag (flags d) WGDEVICE_HAS_PRIVATE_KEY), (has_flag (flags d) WGDEVICE_HAS_LISTEN_PORT),
    (has_flag (flags d) WGDEVICE_HAS_FWMARK), (has_flag (flags d) WGDEVICE_REPLACE_PEERS); cbn; rewrite ?Hu; done.
Qed.

(** ** The device *)

Abbreviation cells := (peer_cells (write_aip := write_aip) (write_peer := write_peer)).

(** A kernel that has this buffer for this name: it tells its size, and fills a buffer that is large
    enough; for another name there is an error. *)
Definition answers_with (name : bytes) (size other : Z) (r : region) (nm : bytes) (_ : nat) (given : Z) : Z + Z * option region :=
  if decide (nm = name) then inr (size, if given <? size then None else Some r) else inl other.

Section Device.
Context (SIZEOF_INTERFACE SIZEOF_PEER SIZEOF_AIP : Z).
Hypothesis Hsizes : 0 < SIZEOF_INTERFACE ∧ 0 <= SIZEOF_PEER ∧ 0 <= SIZEOF_AIP.

Lemma set_device_safe socket_errno ioctl d : safe (kernel_set_device SIZEOF_INTERFACE SIZEOF_PEER SIZEOF_AIP socket_errno ioctl d) (λ _, True).
Proof.
  unfold kernel_set_device. cbv zeta. rewrite data_size_peers. destruct (truthy socket_errno); [by apply safe_ret|].
  safe_alloc b. destruct b; [|by apply safe_ret]. cbn [negb]. intros o. unfold mbind, M_bind.
  destruct (write_peers_safe (write_aip := write_aip) (write_peer := write_peer) SIZEOF_INTERFACE SIZEOF_PEER SIZEOF_AIP Hsizes (peers d) 0
    (SIZEOF_INTERFACE + peers_size SIZEOF_PEER SIZEOF_AIP (peers d) - SIZEOF_INTERFACE) o) as [r ->]; [lia|by destruct r].
Qed.

Lemma set_device_region ioctl d o :
  Forall plain_peer_ok (peers d) → (length (name d) < IFNAMSIZ)%nat → head o ≠ Some false →
  kernel_set_device SIZEOF_INTERFACE SIZEOF_PEER SIZEOF_AIP 0 ioctl d o =
    Done (- ioctl (name d) (data_size SIZEOF_INTERFACE SIZEOF_PEER SIZEOF_AIP d) (write_interface d, flat_map cells (peers d)), tail o).
Proof.
  intros Hps Hn Ho. unfold kernel_set_device. change (truthy 0) with false. cbv zeta. cbn iota. rewrite data_size_peers. unfold mbind, M_bind.
  destruct o as [|[] o]; [..|done]; cbn [alloc negb tail];
    (rewrite (write_peers_spec SIZEOF_INTERFACE SIZEOF_PEER SIZEOF_AIP Hsizes) by (done || lia); unfold strlcpy_name; rewrite take_ge by lia; done).
Qed.

Lemma get_device_region size other d :
  0 < size → device_ok d → Forall plain_peer_ok (peers d) → (length (name d) < IFNAMSIZ)%nat →
  kernel_get_device 0 (answers_with (name d) size other (write_interface d, flat_map cells (peers d))) 2 (name d) [] = Done ((0, Some (openbsd_view d)), []).
Proof.
  intros Hs (_ & _ & Hm & _) Hps Hn. unfold kernel_get_device. change (truthy 0) with false. cbn iota. cbn [fetch].
  assert (Hname : strlcpy_name (name d) = name d) by (unfold strlcpy_name; by rewrite take_ge by lia). rewrite Hname.
  unfold answers_with. rewrite decide_True by done. cbn beta iota.
  rewrite (proj2 (Z.leb_gt size 0)) by lia. unfold mbind, M_bind. cbn [alloc negb]. rewrite decide_True by done. cbn beta iota.
  rewrite Z.leb_refl, Z.ltb_irrefl. cbn [mret M_ret]. change (i_peers_count (write_interface d)) with (length (peers d)).
  set (dev := read_interface (write_interface d) _).
  assert (Hdev : dev = with_peers [] dev).
  { unfold dev, read_interface. repeat case_match; done. }
  cbn [alloc negb]. rewrite Hdev, read_peers_spec by done. cbn [app]. unfold dev. rewrite <- Hname, read_write_interface by done. done.
Qed.
End Device.

(** C13: on OpenBSD [kernel_set_device] never writes past the buffer whose size it computed, whatever the device and
    the allocator; and what it hands to the kernel for a well-formed device without address flags,
    [kernel_get_device] reads back from a kernel that has that buffer: every field that was set, every
    peer with all its addresses in order, except that an IPv6 endpoint is lost, because its length is compared with
    the size of [struct sockaddr]. *)
Theorem openbsd_roundtrip (SIZEOF_INTERFACE SIZEOF_PEER SIZEOF_AIP other : Z) (d : wgdevice)
    (Hsizes : 0 < SIZEOF_INTERFACE ∧ 0 <= SIZEOF_PEER ∧ 0 <= SIZEOF_AIP)
    (Hd : device_ok d) (Hplain : Forall (λ p, Forall (λ a, ai_flags a = 0) (allowedips p)) (peers d)) (Hn : (length (name d) < IFNAMSIZ)%nat) :
  (∀ dev socket_errno ioctl, safe (kernel_set_device SIZEOF_INTERFACE SIZEOF_PEER SIZEOF_AIP socket_errno ioctl dev) (λ _, True)) ∧
  ∃ r, (∀ ioctl, run (kernel_set_device SIZEOF_INTERFACE SIZEOF_PEER SIZEOF_AIP 0 ioctl d) =
          Done (- ioctl (name d) (data_size SIZEOF_INTERFACE SIZEOF_PEER SIZEOF_AIP d) r)) ∧
    run (kernel_get_device 0 (answers_with (name d) (data_size SIZEOF_INTERFACE SIZEOF_PEER SIZEOF_AIP d) other r) 2 (name d)) =
      Done (0, Some (openbsd_view d)).
Proof.
  pose proof (plain_peers_ok d Hd Hplain) as Hps.
  split; [intros; by apply set_device_safe|]. exists (write_interface d, flat_map cells (peers d)). split.
  - intros ioctl. unfold run. by rewrite set_device_region.
  - unfold run. rewrite get_device_region; [done| |done..]. rewrite data_size_peers.
    pose proof (peers_size_nonneg SIZEOF_INTERFACE SIZEOF_PEER SIZEOF_AIP Hsizes (peers d)). lia.
Qed.

Lemma openbsd_roundtrip_witness :
  ∃ r, (∀ ioctl, run (kernel_set_device 80 144 24 0 ioctl sample_device) = Done (- ioctl (name sample_device) (data_size 80 144 24 sample_device) r)) ∧
    run (kernel_get_device 0 (answers_with (name sample_device) (data_size 80 144 24 sample_device) 6 r) 2 (name sample_device)) =
      Done (0, Some (openbsd_view sample_device)).
Proof.
  apply (openbsd_roundtrip 80 144 24 6 sample_device); [lia|apply sample_sendable|vm_compute; repeat constructor|vm_compute; lia].
Defined.

(** A peer with an IPv6 endpoint comes back without one. *)
Example openbsd_ipv6_endpoint :
  let sa := {| sa_family := AF_INET6; sin_port := 51820; sin_addr := replicate 16 0; sin6_extra := [] |} in
  endpoint (read_peer (write_peer (set_endpoint sa wgpeer_zero) 0 0)) = sockaddr_zero.
Proof. reflexivity. Qed.
