(* ===== verification/IpcFreeBSD.v ===== *)
(** * IpcFreeBSD: ipc-freebsd.h, the kernel's side on FreeBSD

    A device crosses the border as a packed name-value list of libnv, a library that
    is a parameter here with the laws of its manual page. *)

From Stdlib Require Import Ascii String.
From stdpp Require Import base numbers option sets list list_numbers strings.
From S2P Require Import Prelude CLib Ctype Encoding Containers Setconf Field25519 Ipc IpcLinux IpcBSD.
#[local] Open Scope c_scope.

(** ** libnv *)

Inductive nvvalue (L : Type) :=
  | NvNumber (n : Z)
  | NvBinary (b : bytes)
  | NvBool (b : bool)
  | NvNvlistArray (l : list L).
Arguments NvNumber {L} n.
Arguments NvBinary {L} b.
Arguments NvBool {L} b.
Arguments NvNvlistArray {L} l.

(** [nvlist_add_...] are one operation on values, and [nvlist_exists_...] and [nvlist_get_...] look a name up.
    [nvlist_unpack] gives an [errno] or the list. *)
Class NvLib := {
  nvlist : Type;
  packed : Type;
  nvlist_new : nvlist;
  nvlist_add : nvlist → bytes → nvvalue nvlist → nvlist;
  nvlist_find : nvlist → bytes → option (nvvalue nvlist);
  nvlist_pack : nvlist → packed;
  nvlist_unpack : packed → Z + nvlist;
}.

(** nv(9): a new list is empty, a name that is not in a list can be added, and packing and unpacking gives the list. *)
Class NvLibLaws (nv : NvLib) : Prop := {
  find_new k : nvlist_find nvlist_new k = None;
  find_add l k v : nvlist_find l k = None → nvlist_find (nvlist_add l k v) k = Some v;
  find_add_ne l k v k' : k ≠ k' → nvlist_find (nvlist_add l k v) k' = nvlist_find l k';
  unpack_pack l : nvlist_unpack (nvlist_pack l) = inr l;
}.

Section FreeBSD.
Context {nv : NvLib}.

Definition nvlist_number (l : nvlist) (k : bytes) : option Z :=
  match nvlist_find l k with Some (NvNumber n) => Some n | _ => None end.
Definition nvlist_binary (l : nvlist) (k : bytes) : option bytes :=
  match nvlist_find l k with Some (NvBinary b) => Some b | _ => None end.
Definition nvlist_array (l : nvlist) (k : bytes) : option (list nvlist) :=
  match nvlist_find l k with Some (NvNvlistArray a) => Some a | _ => None end.

(** ** Socket addresses in memory: [sa_len] and [sa_family] are a byte each. *)

Definition bsd_sockaddr_bytes (sa : sockaddr) : bytes := sa_len sa :: sa_family sa :: drop 2 (sockaddr_bytes sa).
(** A copy of 16 to 28 bytes into the zeroed union. *)
Definition bsd_sockaddr_of (b : bytes) : sockaddr :=
  sockaddr_of (le_bytes 2 (at_ b 1) ++ drop 2 b ++ replicate (28 - length b) 0).

(** ** kernel_get_device *)

(** [if (nvlist_exists_...(l, k)) { v = nvlist_get_...(l, k); store }] *)
Definition stored {A X} (o : option A) (store : A → X → X) (x : X) : X := match o with Some v => store v x | None => x end.

Definition read_device (l : nvlist) (dev : wgdevice) : wgdevice :=
  let dev := stored (nvlist_number l (str "listen-port"))
    (λ number dev, if number <=? 0xffff then set_flags (set_flag (flags dev) WGDEVICE_HAS_LISTEN_PORT) (set_listen_port number dev) else dev) dev in
  let dev := stored (nvlist_number l (str "user-cookie"))
    (λ number dev, if number <=? 0xffffffff then set_flags (set_flag (flags dev) WGDEVICE_HAS_FWMARK) (set_fwmark number dev) else dev) dev in
  let dev := stored (nvlist_binary l (str "public-key"))
    (λ binary dev, if Nat.eqb (length binary) 32 then set_flags (set_flag (flags dev) WGDEVICE_HAS_PUBLIC_KEY) (set_public_key binary dev) else dev) dev in
  stored (nvlist_binary l (str "private-key"))
    (λ binary dev, if Nat.eqb (length binary) 32 then set_flags (set_flag (flags dev) WGDEVICE_HAS_PRIVATE_KEY) (set_private_key binary dev) else dev) dev.

Definition read_peer (l : nvlist) : wgpeer :=
  let peer := wgpeer_zero in
  let peer := stored (nvlist_binary l (str "public-key"))
    (λ binary peer, if Nat.eqb (length binary) 32 then set_p_flags (set_flag (p_flags peer) WGPEER_HAS_PUBLIC_KEY) (set_p_public_key binary peer) else peer) peer in
  let peer := stored (nvlist_binary l (str "preshared-key"))
    (λ binary peer,
       if Nat.eqb (length binary) 32 then
         let peer := set_preshared_key binary peer in
         if negb (key_is_zero (preshared_key peer)) then set_p_flags (set_flag (p_flags peer) WGPEER_HAS_PRESHARED_KEY) peer else peer
       else peer) peer in
  let peer := stored (nvlist_number l (str "persistent-keepalive-interval"))
    (λ number peer,
       if number <=? 0xffff then set_p_flags (set_flag (p_flags peer) WGPEER_HAS_PERSISTENT_KEEPALIVE_INTERVAL) (set_keepalive number peer) else peer) peer in
  let peer := stored (nvlist_binary l (str "endpoint"))
    (λ b peer,
       if (Z.of_nat (length b) <=? SIZEOF_ENDPOINT) && (SIZEOF_SOCKADDR <=? Z.of_nat (length b)) && ((at_ b 1 =? AF_INET) || (at_ b 1 =? AF_INET6))
       then set_endpoint (bsd_sockaddr_of b) peer else peer) peer in
  let peer := stored (nvlist_number l (str "rx-bytes")) set_rx_bytes peer in
  let peer := stored (nvlist_number l (str "tx-bytes")) set_tx_bytes peer in
  stored (nvlist_binary l (str "last-handshake-time"))
    (λ binary peer, if Nat.eqb (length binary) 16 then set_tv_nsec (s64_at (drop 8 binary)) (set_tv_sec (s64_at binary) peer) else peer) peer.

(** [memcpy] of [n] bytes of a binary, whose length was not looked at. *)
Definition copy_address (n : nat) (binary : bytes) (fam number : Z) : M wgallowedip :=
  if (length binary <? n)%nat then undefined
  else mret (store_ip (take n binary) (set_cidr number (set_family fam wgallowedip_zero))).

(** The loop over the addresses: [inl] is the value of [ret] at [err_peer]. *)
Fixpoint read_aips (l : list nvlist) (peer : wgpeer) : M (Z + wgpeer) :=
  match l with
  | [] => mret (inr peer)
  | a :: l' =>
      match nvlist_number a (str "cidr"), nvlist_binary a (str "ipv4"), nvlist_binary a (str "ipv6") with
      | None, _, _ | Some _, None, None => read_aips l' peer
      | Some number, v4, v6 =>
          aip ← alloc;
          if negb aip then mret (inl (- ENOMEM))
          else
            r ← (match v4, v6 with
                 | Some binary, _ =>
                     if 32 <? number then mret (inl EINVAL) else aip ← copy_address 4 binary AF_INET number; mret (inr aip)
                 | None, Some binary =>
                     if 128 <? number then mret (inl EINVAL) else aip ← copy_address 16 binary AF_INET6 number; mret (inr aip)
                 | None, None => undefined
                 end);
            match r with
            | inl ret => mret (inl ret)
            | inr aip =>
                read_aips l'
                  (set_last_allowedip (Some (next_pos (last_allowedip peer))) (set_allowedips (link_after (allowedips peer) (last_allowedip peer) aip) peer))
            end
      end
  end.

Fixpoint read_peers (l : list nvlist) (dev : wgdevice) : M (Z + wgdevice) :=
  match l with
  | [] => mret (inr dev)
  | p :: l' =>
      peer ← alloc;
      if negb peer then mret (inl (- ENOMEM))
      else
        r ← (match nvlist_array p (str "allowed-ips") with
             | Some aips => read_aips aips (read_peer p)
             | None => mret (inr (read_peer p))
             end);
        match r with
        | inl ret => mret (inl ret)
        | inr peer =>
            read_peers l' (set_last_peer (Some (next_pos (last_peer dev))) (set_peers (link_after (peers dev) (last_peer dev) peer) dev))
        end
  end.

Section Get.
Variable socket_errno : Z.
(** The two calls of SIOCGWG for a name: an [errno], or nothing; the second one fills the buffer. *)
Variable ioctl_size : bytes → option Z.
Variable ioctl_data : bytes → Z + packed.

Definition kernel_get_device (ifname : bytes) : M (Z * option wgdevice) :=
  if truthy socket_errno then mret (- socket_errno, None)
  else match ioctl_size (strlcpy_name ifname) with
  | Some errno => mret (- errno, None)
  | None =>
      wgd_data ← alloc;
      if negb wgd_data then mret (- ENOMEM, None)
      else match ioctl_data (strlcpy_name ifname) with
      | inl errno => mret (- errno, None)
      | inr data =>
          dev ← alloc;
          if negb dev then mret (- ENOMEM, None)
          else match nvlist_unpack data with
          | inl errno => mret (- errno, None)
          | inr nvl_device =>
              let dev := read_device nvl_device (set_name (strlcpy_name ifname) wgdevice_zero) in
              match nvlist_array nvl_device (str "peers") with
              | None => mret (0, Some dev)
              | Some nvl_peers =>
                  r ← read_peers nvl_peers dev;
                  mret (match r with inl ret => (ret, None) | inr dev => (0, Some dev) end)
              end
          end
      end
  end.
End Get.

(** ** kernel_set_device *)

Definition add_if (b : bool) (l : nvlist) (k : bytes) (v : nvvalue nvlist) : nvlist := if b then nvlist_add l k v else l.

Definition device_nvlist (d : wgdevice) : nvlist :=
  let l := add_if (has_flag (flags d) WGDEVICE_HAS_PRIVATE_KEY) nvlist_new (str "private-key") (NvBinary (private_key d)) in
  let l := add_if (has_flag (flags d) WGDEVICE_HAS_LISTEN_PORT) l (str "listen-port") (NvNumber (listen_port d)) in
  let l := add_if (has_flag (flags d) WGDEVICE_HAS_FWMARK) l (str "user-cookie") (NvNumber (fwmark d)) in
  add_if (has_flag (flags d) WGDEVICE_REPLACE_PEERS) l (str "replace-peers") (NvBool true).

Definition peer_nvlist (p : wgpeer) : nvlist :=
  let l := nvlist_add nvlist_new (str "public-key") (NvBinary (p_public_key p)) in
  let l := add_if (has_flag (p_flags p) WGPEER_HAS_PRESHARED_KEY) l (str "preshared-key") (NvBinary (preshared_key p)) in
  let l := add_if (has_flag (p_flags p) WGPEER_HAS_PERSISTENT_KEEPALIVE_INTERVAL) l (str "persistent-keepalive-interval")
             (NvNumber (persistent_keepalive_interval p)) in
  let l := add_if ((sa_family (endpoint p) =? AF_INET) || (sa_family (endpoint p) =? AF_INET6)) l (str "endpoint")
             (NvBinary (bsd_sockaddr_bytes (endpoint p))) in
  let l := add_if (has_flag (p_flags p) WGPEER_REPLACE_ALLOWEDIPS) l (str "replace-allowedips") (NvBool true) in
  add_if (has_flag (p_flags p) WGPEER_REMOVE_ME) l (str "remove") (NvBool true).

Definition aip_nvlist (a : wgallowedip) : nvlist :=
  let l := nvlist_add nvlist_new (str "cidr") (NvNumber (cidr a)) in
  if family a =? AF_INET then nvlist_add l (str "ipv4") (NvBinary (ip4 a))
  else if family a =? AF_INET6 then nvlist_add l (str "ipv6") (NvBinary (ip6 a))
  else l.

Section Set_.
(** [errno] as the calls before left it. *)
Variable errno : Z.

(** [inl] is the [errno] at [err_peer], which replaces the [ret] that was set before it. *)
Fixpoint build_aips (ips : list wgallowedip) : M (Z + list nvlist) :=
  match ips with
  | [] => mret (inr [])
  | aip :: ips' =>
      nvl_aip ← alloc;
      if negb nvl_aip then mret (inl ENOMEM)
      else if truthy (ai_flags aip) then mret (inl errno)
      else
        r ← build_aips ips';
        mret (match r with inl e => inl e | inr l => inr (aip_nvlist aip :: l) end)
  end.

Fixpoint build_peers (ps : list wgpeer) : M (Z + list nvlist) :=
  match ps with
  | [] => mret (inr [])
  | peer :: ps' =>
      nvl_peer ← alloc;
      if negb nvl_peer then mret (inl ENOMEM)
      else
        nvl_aips ← (if allowedips peer is [] then mret true else alloc);
        if negb nvl_aips then mret (inl ENOMEM)
        else
          r ← build_aips (allowedips peer);
          match r with
          | inl e => mret (inl e)
          | inr aips =>
              let l := peer_nvlist peer in
              let l := if aips is [] then l else nvlist_add l (str "allowed-ips") (NvNvlistArray aips) in
              r ← build_peers ps';
              mret (match r with inl e => inl e | inr rest => inr (l :: rest) end)
          end
  end.

Variable socket_errno : Z.
(** Whether SIOCSWG succeeds with this name and list. *)
Variable ioctl : bytes → packed → bool.

(** An addition that has failed shows when the list is packed. *)
Definition kernel_set_device (d : wgdevice) : M Z :=
  nvl_device ← alloc;
  if negb nvl_device then mret (- ENOMEM)
  else
    nvl_peers ← (if peers d is [] then mret true else alloc);
    if negb nvl_peers then mret (- ENOMEM)
    else
      r ← build_peers (peers d);
      match r with
      | inl e => mret (- e)
      | inr ps =>
          let l := device_nvlist d in
          let l := if ps is [] then l else nvlist_add l (str "peers") (NvNvlistArray ps) in
          wgd_data ← alloc;
          if negb wgd_data then mret (- ENOMEM)
          else if truthy socket_errno then mret (- socket_errno)
          else mret (if ioctl (strlcpy_name (name d)) (nvlist_pack l) then 0 else -1)
      end.
End Set_.
End FreeBSD.
