(* ===== verification/IpcFreeBSDSpec.v ===== *)
(** * IpcFreeBSDSpec: a device through the lists of FreeBSD

    What [kernel_set_device] packs [kernel_get_device] reads back; the two
    errors of the code that its callers do not see. *)

From Stdlib Require Import Ascii String.
From stdpp Require Import base numbers option sets list list_numbers strings.
From S2P Require Import Prelude CLib Ctype Encoding Containers Setconf Field25519 Ipc IpcSpec IpcLinux IpcLinuxSpec IpcLinuxGetSpec IpcLinuxLinksSpec.
From S2P Require Import IpcBSD IpcBSDSpec IpcFreeBSD.
#[local] Open Scope c_scope.

(** ** Lists built by additions *)

Section Lists.
Context {nv : NvLib} {laws : NvLibLaws nv}.

(** Additions under a condition, as a table. *)
Definition row : Type := bool * bytes * nvvalue nvlist.
Definition build (t : list row) : nvlist := foldl (λ l r, add_if r.1.1 l r.1.2 r.2) nvlist_new t.
Fixpoint row_of (t : list row) (k : bytes) : option (nvvalue nvlist) :=
  match t with
  | [] => None
  | r :: t' => if bool_decide (r.1.2 = k) then if r.1.1 then Some r.2 else None else row_of t' k
  end.

Definition keys (t : list row) : list bytes := map (λ r : row, r.1.2) t.

Lemma find_add_if b l k v k' :
  nvlist_find l k = None → nvlist_find (add_if b l k v) k' = if bool_decide (k = k') then if b then Some v else None else nvlist_find l k'.
Proof.
  intros Hl. unfold add_if. destruct b; case_bool_decide; subst; try done; [by apply find_add|by apply find_add_ne].
Qed.

Lemma find_fold t l k :
  NoDup (keys t) → (∀ k', k' ∈ keys t → nvlist_find l k' = None) →
  nvlist_find (foldl (λ l r, add_if r.1.1 l r.1.2 r.2) l t) k = if bool_decide (k ∈ keys t) then row_of t k else nvlist_find l k.
Proof.
  revert l. induction t as [|r t IH]; intros l Hnd Hl; cbn [foldl row_of]; [done|].
  apply NoDup_cons in Hnd as [Hr Hnd]. fold (keys t) in Hr, Hnd.
  assert (H0 : nvlist_find l r.1.2 = None) by (apply Hl; left).
  rewrite IH; [|done|].
  2: { intros k' Hk'. rewrite find_add_if by done. rewrite bool_decide_false by (intros <-; done). apply Hl. by right. }
  rewrite find_add_if by done. change (keys (r :: t)) with (r.1.2 :: keys t).
  destruct (decide (r.1.2 = k)) as [<-|Hne].
  - rewrite (bool_decide_false (_ ∈ keys t)), !bool_decide_true; [done|left|done|done].
  - rewrite (bool_decide_false (r.1.2 = k)) by done.
    destruct (decide (k ∈ keys t)).
    + rewrite !bool_decide_true; [done|by right|done].
    + rewrite !bool_decide_false; [done|by intros [?|?]%elem_of_cons|done].
Qed.

Lemma find_build t k : NoDup (keys t) → nvlist_find (build t) k = row_of t k.
Proof.
  intros Hnd. unfold build. rewrite find_fold by (done || (intros; apply find_new)). case_bool_decide as Hk; [done|].
  rewrite find_new. symmetry. clear Hnd. induction t as [|r t IH]; [done|]. cbn [row_of]. change (keys (r :: t)) with (r.1.2 :: keys t) in Hk.
  apply not_elem_of_cons in Hk as [Hne Hk]. rewrite bool_decide_false by congruence. by apply IH.
Qed.

(** The tables of the three kinds of list. *)
Definition device_rows (d : wgdevice) : list row :=
  [(has_flag (flags d) WGDEVICE_HAS_PRIVATE_KEY, str "private-key", NvBinary (private_key d));
   (has_flag (flags d) WGDEVICE_HAS_LISTEN_PORT, str "listen-port", NvNumber (listen_port d));
   (has_flag (flags d) WGDEVICE_HAS_FWMARK, str "user-cookie", NvNumber (fwmark d));
   (has_flag (flags d) WGDEVICE_REPLACE_PEERS, str "replace-peers", NvBool true)].
Definition peer_rows (p : wgpeer) : list row :=
  [(true, str "public-key", NvBinary (p_public_key p));
   (has_flag (p_flags p) WGPEER_HAS_PRESHARED_KEY, str "preshared-key", NvBinary (preshared_key p));
   (has_flag (p_flags p) WGPEER_HAS_PERSISTENT_KEEPALIVE_INTERVAL, str "persistent-keepalive-interval", NvNumber (persistent_keepalive_interval p));
   ((sa_family (endpoint p) =? AF_INET) || (sa_family (endpoint p) =? AF_INET6), str "endpoint", NvBinary (bsd_sockaddr_bytes (endpoint p)));
   (has_flag (p_flags p) WGPEER_REPLACE_ALLOWEDIPS, str "replace-allowedips", NvBool true);
   (has_flag (p_flags p) WGPEER_REMOVE_ME, str "remove", NvBool true)].
Definition array_row (k : bytes) (l : list nvlist) : row := (if l is [] then false else true, k, NvNvlistArray l).

Lemma device_build d ps :
  (if ps is [] then device_nvlist d else nvlist_add (device_nvlist d) (str "peers") (NvNvlistArray ps)) = build (device_rows d ++ [array_row (str "peers") ps]).
Proof. by destruct ps. Qed.
Lemma peer_build p aips :
  (if aips is [] then peer_nvlist p else nvlist_add (peer_nvlist p) (str "allowed-ips") (NvNvlistArray aips)) =
  build (peer_rows p ++ [array_row (str "allowed-ips") aips]).
Proof. by destruct aips. Qed.

Ltac distinct_keys := apply (bool_decide_unpack _); vm_compute; exact I.
Lemma device_find d ps k : nvlist_find (build (device_rows d ++ [array_row (str "peers") ps])) k = row_of (device_rows d ++ [array_row (str "peers") ps]) k.
Proof. apply find_build. distinct_keys. Qed.
Lemma peer_find p aips k : nvlist_find (build (peer_rows p ++ [array_row (str "allowed-ips") aips])) k = row_of (peer_rows p ++ [array_row (str "allowed-ips") aips]) k.
Proof. apply find_build. distinct_keys. Qed.

(** ** Addresses *)

Lemma aip_find a : allowedip_ok a →
  nvlist_number (aip_nvlist a) (str "cidr") = Some (cidr a) ∧
  nvlist_binary (aip_nvlist a) (str "ipv4") = (if family a =? AF_INET then Some (ip4 a) else None) ∧
  nvlist_binary (aip_nvlist a) (str "ipv6") = (if family a =? AF_INET then None else Some (ip6 a)).
Proof.
  intros (_ & _ & Hf & _). unfold nvlist_number, nvlist_binary, aip_nvlist. cbv zeta.
  assert (Hc : ∀ k, k ≠ str "cidr" → nvlist_find (nvlist_add nvlist_new (str "cidr") (NvNumber (cidr a))) k = None).
  { intros k Hk. rewrite find_add_ne by congruence. apply find_new. }
  assert (H0 : nvlist_find (nvlist_add nvlist_new (str "cidr") (NvNumber (cidr a))) (str "cidr") = Some (NvNumber (cidr a))).
  { apply find_add, find_new. }
  assert (Hd : str "ipv4" ≠ str "cidr" ∧ str "ipv6" ≠ str "cidr" ∧ str "ipv4" ≠ str "ipv6") by (split_and!; discriminate).
  destruct Hd as (D1 & D2 & D3).
  destruct Hf as [[-> _]|[-> _]]; eqb_consts.
  - rewrite (find_add_ne _ (str "ipv4") _ (str "cidr")), (find_add_ne _ (str "ipv4") _ (str "ipv6")) by congruence.
    rewrite (find_add _ (str "ipv4")), H0, Hc by auto. done.
  - rewrite (find_add_ne _ (str "ipv6") _ (str "cidr")), (find_add_ne _ (str "ipv6") _ (str "ipv4")) by congruence.
    rewrite (find_add _ (str "ipv6")), H0, Hc by auto. done.
Qed.

Lemma store_view a : allowedip_ok a →
  store_ip (if family a =? AF_INET then ip4 a else ip6 a) (set_cidr (cidr a) (set_family (family a) wgallowedip_zero)) = ip_view a.
Proof.
  intros Ha. pose proof (allowedip_ip_length a Ha) as [H4 H6]. unfold ip_view, store_ip, set_cidr, set_family, wgallowedip_zero. cbn [family ip cidr ai_flags].
  destruct (family a =? AF_INET); [by rewrite H4|]. unfold ip6 in *. rewrite H6. by rewrite app_nil_r.
Qed.

Lemma nv_read_aips_spec ips k p :
  Forall allowedip_ok ips → read_aips (aip_nvlist <$> ips) (with_ips k p) [] = Done (inr (with_ips (k ++ (ip_view <$> ips)) p), []).
Proof.
  intros Hips. revert k. induction Hips as [|a ips Ha _ IH]; intros k; [by rewrite app_nil_r|].
  rewrite !fmap_cons. cbn [read_aips]. destruct (aip_find a Ha) as (H1 & H2 & H3). rewrite H1, H2, H3.
  pose proof (store_view a Ha) as Hv. pose proof (allowedip_ip_length a Ha) as [H4 H6]. destruct Ha as (_ & _ & Hf & _).
  assert (Hnext : ∀ r, r = ip_view a → read_aips (aip_nvlist <$> ips) (with_ips (k ++ [r]) p) [] =
            Done (inr (with_ips (k ++ ip_view a :: (ip_view <$> ips)) p), [])).
  { intros r ->. rewrite IH. by rewrite <- app_assoc. }
  destruct Hf as [[Hfam Hc]|[Hfam Hc]]; rewrite Hfam in *; revert Hv; eqb_consts; intros Hv.
  - unfold mbind, M_bind. cbn [alloc negb]. rewrite (proj2 (Z.ltb_ge 32 (cidr a))) by lia. unfold copy_address. rewrite H4.
    change (4 <? 4)%nat with false. cbn [mret M_ret]. rewrite link_ip. apply Hnext. by rewrite take_ge by lia.
  - unfold mbind, M_bind. cbn [alloc negb]. rewrite (proj2 (Z.ltb_ge 128 (cidr a))) by lia. unfold copy_address. rewrite H6.
    change (16 <? 16)%nat with false. cbn [mret M_ret]. rewrite link_ip. apply Hnext. by rewrite take_ge by lia.
Qed.

(** ** Endpoints *)

Lemma bsd_sockaddr_roundtrip sa :
  memory_endpoint sa → 0 <= sin_port sa < 65536 → sa_family sa = AF_INET ∨ sa_family sa = AF_INET6 →
  bsd_sockaddr_of (bsd_sockaddr_bytes sa) = sa ∧ at_ (bsd_sockaddr_bytes sa) 1 = sa_family sa ∧ Z.of_nat (length (bsd_sockaddr_bytes sa)) = sa_len sa.
Proof.
  intros He Hp Hf. destruct (sockaddr_roundtrip sa He Hp Hf) as [_ Hr].
  assert (Hlen : length (sockaddr_bytes sa) = Z.to_nat (sa_len sa)).
  { destruct (sockaddr_bytes_length sa He) as [H4 H6]. unfold sa_len. destruct Hf as [Hf|Hf]; rewrite Hf; eqb_consts; auto. }
  assert (Hsplit : sockaddr_bytes sa = le_bytes 2 (sa_family sa) ++ drop 2 (sockaddr_bytes sa)).
  { unfold sockaddr_bytes. rewrite drop_app_length' by done. done. }
  assert (Hl : length (bsd_sockaddr_bytes sa) = Z.to_nat (sa_len sa)).
  { unfold bsd_sockaddr_bytes. cbn [length]. rewrite length_drop, Hlen. unfold sa_len. destruct Hf as [Hf|Hf]; rewrite Hf; eqb_consts; done. }
  split_and!; [|done|].
  2: { rewrite Hl, Z2Nat.id; [done|]. unfold sa_len. repeat case_match; done. }
  unfold bsd_sockaddr_of. change (at_ (bsd_sockaddr_bytes sa) 1) with (sa_family sa). change (drop 2 (bsd_sockaddr_bytes sa)) with (drop 2 (sockaddr_bytes sa)).
  rewrite app_assoc, <- Hsplit, Hl. destruct Hf as [Hf|Hf].
  - unfold sa_len. rewrite Hf. eqb_consts. rewrite <- Hr at 2. unfold sockaddr_of.
    assert (Hfam : sockaddr_family (sockaddr_bytes sa ++ replicate (28 - Z.to_nat SIZEOF_SOCKADDR_IN) 0) = AF_INET ∧ sockaddr_family (sockaddr_bytes sa) = AF_INET).
    { unfold sockaddr_family. rewrite Hsplit, <- app_assoc. rewrite !take_app_length' by done. rewrite Hf. done. }
    destruct Hfam as [-> ->]. eqb_consts. unfold sa_len in Hlen. rewrite Hf in Hlen. revert Hlen. eqb_consts. intros Hlen.
    change (Z.to_nat SIZEOF_SOCKADDR_IN) with 16%nat in *.
    unfold at_. rewrite !lookup_app_l by lia. rewrite drop_app_le, take_app_le by (rewrite ?length_drop; lia). done.
  - unfold sa_len. rewrite Hf. eqb_consts. change (28 - Z.to_nat SIZEOF_SOCKADDR_IN6)%nat with 0%nat. by rewrite app_nil_r.
Qed.

(** ** Peers *)

Definition freebsd_keeps (family : Z) : bool := (family =? AF_INET) || (family =? AF_INET6).
Abbreviation freebsd_view := (bsd_view freebsd_keeps).

Lemma nv_read_write_peer p aips :
  peer_ok p → memory_endpoint (endpoint p) →
  with_ips (ip_view <$> allowedips p) (read_peer (build (peer_rows p ++ [array_row (str "allowed-ips") aips]))) = bsd_peer_view freebsd_keeps p.
Proof.
  intros (Hpub%key_ok_length & Hpsk%key_ok_length & [Hf Hport] & Hka & _) Hm. unfold read_peer, nvlist_binary, nvlist_number. cbv zeta. rewrite !peer_find.
  set (t := peer_rows p ++ _).
  change (row_of t (str "public-key")) with (Some (NvBinary (p_public_key p)) : option (nvvalue nvlist)).
  change (row_of t (str "preshared-key")) with (if has_flag (p_flags p) WGPEER_HAS_PRESHARED_KEY then Some (NvBinary (preshared_key p)) else None : option (nvvalue nvlist)).
  change (row_of t (str "persistent-keepalive-interval")) with
    (if has_flag (p_flags p) WGPEER_HAS_PERSISTENT_KEEPALIVE_INTERVAL then Some (NvNumber (persistent_keepalive_interval p)) else None : option (nvvalue nvlist)).
  change (row_of t (str "endpoint")) with (if freebsd_keeps (sa_family (endpoint p)) then Some (NvBinary (bsd_sockaddr_bytes (endpoint p))) else None : option (nvvalue nvlist)).
  change (row_of t (str "rx-bytes")) with (None : option (nvvalue nvlist)). change (row_of t (str "tx-bytes")) with (None : option (nvvalue nvlist)).
  change (row_of t (str "last-handshake-time")) with (None : option (nvvalue nvlist)). clear t. unfold stored. cbn beta iota. rewrite Hpub. change (Nat.eqb 32 32) with true. cbn iota.
  assert (He : freebsd_keeps (sa_family (endpoint p)) = true →
    bsd_sockaddr_of (bsd_sockaddr_bytes (endpoint p)) = endpoint p ∧
    (Z.of_nat (length (bsd_sockaddr_bytes (endpoint p))) <=? SIZEOF_ENDPOINT) && (SIZEOF_SOCKADDR <=? Z.of_nat (length (bsd_sockaddr_bytes (endpoint p)))) &&
      ((at_ (bsd_sockaddr_bytes (endpoint p)) 1 =? AF_INET) || (at_ (bsd_sockaddr_bytes (endpoint p)) 1 =? AF_INET6)) = true).
  { intros Hk. assert (Hf' : sa_family (endpoint p) = AF_INET ∨ sa_family (endpoint p) = AF_INET6).
    { destruct Hf as [Hf|Hf]; [by rewrite Hf in Hk|done]. }
    destruct (bsd_sockaddr_roundtrip (endpoint p) Hm Hport Hf') as (-> & -> & ->). split; [done|]. unfold sa_len. by destruct Hf' as [->| ->]. }
  unfold bsd_peer_view, with_ips.
  destruct (has_flag (p_flags p) WGPEER_HAS_PRESHARED_KEY), (has_flag (p_flags p) WGPEER_HAS_PERSISTENT_KEEPALIVE_INTERVAL),
    (freebsd_keeps (sa_family (endpoint p)));
    try (destruct (He eq_refl) as [-> ->]); rewrite ?Hpsk, ?(proj2 (Z.leb_le (persistent_keepalive_interval p) 0xffff)) by lia;
    cbn; destruct (key_is_zero (preshared_key p)); done.
Qed.

Definition no_ips (p : wgpeer) : Prop := allowedips p = [] ∧ last_allowedip p = None.
Lemma stored_no_ips {A} (o : option A) f p : (∀ a q, no_ips q → no_ips (f a q)) → no_ips p → no_ips (stored o f p).
Proof. intros Hf Hp. destruct o; [by apply Hf|done]. Qed.
Lemma nv_read_peer_ips l : no_ips (read_peer l).
Proof. unfold read_peer. cbv zeta. repeat (apply stored_no_ips; [intros a q Hq; repeat case_match; exact Hq|]). done. Qed.

Definition ready (p : wgpeer) : Prop := plain_peer_ok p ∧ memory_endpoint (endpoint p).
Definition peer_list (p : wgpeer) : nvlist := build (peer_rows p ++ [array_row (str "allowed-ips") (aip_nvlist <$> allowedips p)]).

Lemma nv_read_peers_spec ps k d :
  Forall ready ps → read_peers (peer_list <$> ps) (with_peers k d) [] = Done (inr (with_peers (k ++ (bsd_peer_view freebsd_keeps <$> ps)) d), []).
Proof.
  intros Hps. revert k. induction Hps as [|p ps [[Hp Hi] Hm] _ IH]; intros k; [by rewrite app_nil_r|].
  rewrite !fmap_cons. cbn [read_peers]. unfold mbind, M_bind. cbn [alloc negb].
  pose proof (nv_read_write_peer p (aip_nvlist <$> allowedips p) Hp Hm) as Hr. fold (peer_list p) in Hr.
  destruct (nv_read_peer_ips (peer_list p)) as [H1 H2].
  assert (Harr : nvlist_array (peer_list p) (str "allowed-ips") = if allowedips p is [] then None else Some (aip_nvlist <$> allowedips p)).
  { unfold nvlist_array, peer_list. rewrite peer_find.
    change (row_of _ (str "allowed-ips")) with (if (array_row (str "allowed-ips") (aip_nvlist <$> allowedips p)).1.1 then Some (NvNvlistArray (aip_nvlist <$> allowedips p)) else None).
    by destruct (allowedips p). }
  assert (Hread : match nvlist_array (peer_list p) (str "allowed-ips") with Some aips => read_aips aips (read_peer (peer_list p)) | None => mret (inr (read_peer (peer_list p))) end [] =
            Done (inr (bsd_peer_view freebsd_keeps p) : Z + wgpeer, [])).
  { rewrite Harr, <- Hr. destruct (allowedips p) as [|a l]; [by rewrite with_ips_nil|].
    rewrite <- (with_ips_nil (read_peer (peer_list p)) H1 H2) at 1. rewrite nv_read_aips_spec by (eapply Forall_impl; [exact Hi|]; intros x Hx; apply Hx). done. }
  rewrite Hread. rewrite link_peer, IH, <- app_assoc. done.
Qed.

(** ** The device *)

Lemma read_write_device d ps :
  device_ok d → (length (name d) < IFNAMSIZ)%nat →
  with_peers (bsd_peer_view freebsd_keeps <$> peers d) (read_device (build (device_rows d ++ [array_row (str "peers") ps])) (set_name (strlcpy_name (name d)) wgdevice_zero)) =
  freebsd_view d.
Proof.
  intros (_ & Hkey%key_ok_length & Hm & Hport & _) Hn. unfold strlcpy_name. rewrite take_ge by lia. unfold read_device, nvlist_binary, nvlist_number, stored.
  rewrite !device_find. set (t := device_rows d ++ _).
  change (row_of t (str "listen-port")) with (if has_flag (flags d) WGDEVICE_HAS_LISTEN_PORT then Some (NvNumber (listen_port d)) else None : option (nvvalue nvlist)).
  change (row_of t (str "user-cookie")) with (if has_flag (flags d) WGDEVICE_HAS_FWMARK then Some (NvNumber (fwmark d)) else None : option (nvvalue nvlist)).
  change (row_of t (str "private-key")) with (if has_flag (flags d) WGDEVICE_HAS_PRIVATE_KEY then Some (NvBinary (private_key d)) else None : option (nvvalue nvlist)).
  change (row_of t (str "public-key")) with (None : option (nvvalue nvlist)). clear t. unfold bsd_view, with_peers.
  destruct (has_flag (flags d) WGDEVICE_HAS_PRIVATE_KEY), (has_flag (flags d) WGDEVICE_HAS_LISTEN_PORT), (has_flag (flags d) WGDEVICE_HAS_FWMARK);
    rewrite ?Hkey, ?(proj2 (Z.leb_le (listen_port d) 0xffff)), ?(proj2 (Z.leb_le (fwmark d) 0xffffffff)) by lia; reflexivity.
Qed.

Lemma build_aips_spec errno ips : Forall plain_ip ips → build_aips errno ips [] = Done (inr (aip_nvlist <$> ips), []).
Proof.
  induction 1 as [|a ips [_ Ha] _ IH]; [done|]. rewrite fmap_cons. cbn [build_aips]. unfold mbind, M_bind. cbn [alloc negb]. rewrite Ha.
  change (truthy 0) with false. cbn beta iota. by rewrite IH.
Qed.
Lemma build_peers_spec errno ps : Forall ready ps → build_peers errno ps [] = Done (inr (peer_list <$> ps), []).
Proof.
  induction 1 as [|p ps [[_ Hi] _] _ IH]; [done|]. rewrite fmap_cons. cbn [build_peers]. unfold mbind, M_bind. cbn [alloc negb].
  assert (Halloc : (if allowedips p is [] then mret true else alloc) [] = Done (true, [])) by (by destruct (allowedips p)).
  rewrite Halloc. cbn [negb]. rewrite build_aips_spec, IH by done. cbv zeta. unfold mret, M_ret, peer_list. by rewrite <- peer_build.
Qed.

(** An address with flags. *)
Definition flagged (p : wgpeer) : bool := existsb (λ a, truthy (ai_flags a)) (allowedips p).
Lemma build_aips_flagged errno ips : existsb (λ a, truthy (ai_flags a)) ips = true → build_aips errno ips [] = Done (inl errno, []).
Proof.
  induction ips as [|a ips IH]; [done|]. cbn [existsb build_aips]. unfold mbind, M_bind. cbn [alloc negb].
  destruct (truthy (ai_flags a)); [done|]. intros H. cbn [orb] in H. cbn beta iota. by rewrite IH.
Qed.
Lemma build_aips_plain errno ips : existsb (λ a, truthy (ai_flags a)) ips = false → build_aips errno ips [] = Done (inr (aip_nvlist <$> ips), []).
Proof.
  induction ips as [|a ips IH]; [done|]. cbn [existsb build_aips]. unfold mbind, M_bind. cbn [alloc negb].
  destruct (truthy (ai_flags a)); [done|]. intros H. cbn [orb] in H. cbn beta iota. by rewrite IH.
Qed.
Lemma build_peers_flagged errno ps : existsb flagged ps = true → build_peers errno ps [] = Done (inl errno, []).
Proof.
  induction ps as [|p ps IH]; [done|]. cbn [existsb build_peers]. unfold mbind, M_bind. cbn [alloc negb]. intros H.
  assert (Halloc : (if allowedips p is [] then mret true else alloc) [] = Done (true, [])) by (by destruct (allowedips p)).
  rewrite Halloc. cbn [negb]. destruct (flagged p) eqn:E; [by rewrite build_aips_flagged|]. rewrite build_aips_plain by done. cbn [orb] in H. by rewrite IH.
Qed.

(** C15: on FreeBSD, what [kernel_set_device] packs for a well-formed device without address flags, [kernel_get_device]
    unpacks: every field that was set, both kinds of endpoint, and every peer with all its addresses in order.
    A list that the kernel refuses makes it return -1, not the error. *)
Theorem freebsd_roundtrip (d : wgdevice) (errno other : Z)
    (Hd : device_ok d) (Hplain : Forall (λ p, Forall (λ a, ai_flags a = 0) (allowedips p)) (peers d))
    (He : Forall (λ p, memory_endpoint (endpoint p)) (peers d)) (Hn : (length (name d) < IFNAMSIZ)%nat) :
  ∃ data, (∀ ioctl, run (kernel_set_device errno 0 ioctl d) = Done (if ioctl (name d) data then 0 else -1)) ∧
    run (kernel_get_device 0 (λ _, None) (λ nm, if decide (nm = name d) then inr data else inl other) (name d)) = Done (0, Some (freebsd_view d)).
Proof.
  assert (Hname : strlcpy_name (name d) = name d) by (unfold strlcpy_name; by rewrite take_ge by lia).
  assert (Hps : Forall ready (peers d)).
  { apply Forall_and. split; [by apply plain_peers_ok|done]. }
  exists (nvlist_pack (build (device_rows d ++ [array_row (str "peers") (peer_list <$> peers d)]))). split.
  - intros ioctl. unfold run, kernel_set_device, mbind, M_bind. cbn [alloc negb].
    assert (Halloc : (if peers d is [] then mret true else alloc) [] = Done (true, [])) by (by destruct (peers d)).
    rewrite Halloc. cbn [negb]. rewrite build_peers_spec by done. cbn [alloc negb]. change (truthy 0) with false. cbn iota. cbv zeta.
    rewrite device_build, Hname. done.
  - unfold run, kernel_get_device. change (truthy 0) with false. cbn iota. rewrite Hname, decide_True by done. unfold mbind, M_bind. cbn [alloc negb].
    rewrite unpack_pack. cbv zeta. set (L := build _).
    assert (Harr : nvlist_array L (str "peers") = if peers d is [] then None else Some (peer_list <$> peers d)).
    { unfold nvlist_array, L. rewrite device_find.
      change (row_of _ (str "peers")) with (if (array_row (str "peers") (peer_list <$> peers d)).1.1 then Some (NvNvlistArray (peer_list <$> peers d)) else None).
      by destruct (peers d). }
    pose proof (read_write_device d (peer_list <$> peers d) Hd Hn) as Hr. rewrite Hname in Hr. fold L in Hr.
    set (dev := read_device L _) in *. assert (Hdev : dev = with_peers [] dev).
    { unfold dev, read_device, stored. cbv zeta. repeat case_match; done. }
    rewrite Harr. destruct (peers d) as [|p ps] eqn:E; [by rewrite Hdev, <- Hr|].
    rewrite Hdev at 1. rewrite nv_read_peers_spec by done. cbn [app]. unfold mret, M_ret. by rewrite Hr.
Qed.

(** On FreeBSD a device with an address that has flags, which the transport cannot express, is not sent at all, and the result is not
    the [EOPNOTSUPP] that was meant: [ret] is overwritten with the [errno] of some earlier call, so when nothing has failed before,
    [kernel_set_device] returns 0 and its caller takes the device for configured. *)
Theorem freebsd_flags_not_reported (d : wgdevice) (errno socket_errno : Z) (Hf : existsb flagged (peers d) = true) :
  ∀ ioctl, run (kernel_set_device errno socket_errno ioctl d) = Done (- errno).
Proof.
  intros ioctl. unfold run, kernel_set_device, mbind, M_bind. cbn [alloc negb].
  assert (Halloc : (if peers d is [] then mret true else alloc) [] = Done (true, [])) by (by destruct (peers d)).
  rewrite Halloc. cbn [negb]. by rewrite build_peers_flagged.
Qed.

(** An IPv4 address of the kernel with more than 32 bits makes [kernel_get_device] return a positive number without a device;
    its callers look for a negative one. *)
Theorem freebsd_get_positive_error data l p ps a aips number binary ifname :
  nvlist_unpack data = inr l → nvlist_array l (str "peers") = Some (p :: ps) → nvlist_array p (str "allowed-ips") = Some (a :: aips) →
  nvlist_number a (str "cidr") = Some number → nvlist_binary a (str "ipv4") = Some binary → 32 < number →
  run (kernel_get_device 0 (λ _, None) (λ _, inr data) ifname) = Done (EINVAL, None).
Proof.
  intros Hu Hp Ha Hc Hb Hn. unfold run, kernel_get_device. change (truthy 0) with false. cbn iota. unfold mbind, M_bind. cbn [alloc negb].
  rewrite Hu. cbv zeta. rewrite Hp. cbn [read_peers]. unfold mbind, M_bind. cbn [alloc negb]. rewrite Ha. cbn [read_aips]. rewrite Hc, Hb.
  unfold mbind, M_bind. cbn [alloc negb]. rewrite (proj2 (Z.ltb_lt 32 number)) by lia. done.
Qed.
End Lists.

(** ** An implementation of libnv for which the laws hold *)

Inductive nvtree := NvTree (rows : list (bytes * nvvalue nvtree)).
Fixpoint rows_find (rows : list (bytes * nvvalue nvtree)) (k : bytes) : option (nvvalue nvtree) :=
  match rows with
  | [] => None
  | (k', v) :: rows' => if bool_decide (k' = k) then Some v else rows_find rows' k
  end.
#[local] Instance tree_lib : NvLib := {|
  nvlist := nvtree;
  packed := nvtree;
  nvlist_new := NvTree [];
  nvlist_add '(NvTree rows) k v := NvTree ((k, v) :: rows);
  nvlist_find '(NvTree rows) k := rows_find rows k;
  nvlist_pack l := l;
  nvlist_unpack p := inr p;
|}.
#[local] Instance tree_laws : NvLibLaws tree_lib.
Proof.
  split; [done| | |done].
  - intros [rows] k v _. cbn. by rewrite bool_decide_true.
  - intros [rows] k v k' Hne. cbn. by rewrite bool_decide_false.
Qed.

Lemma freebsd_roundtrip_witness :
  ∃ data, (∀ ioctl, run (kernel_set_device 0 0 ioctl sample_device) = Done (if ioctl (name sample_device) data then 0 else -1)) ∧
    run (kernel_get_device 0 (λ _, None) (λ nm, if decide (nm = name sample_device) then inr data else inl 6) (name sample_device)) =
      Done (0, Some (bsd_view freebsd_keeps sample_device)).
Proof.
  apply (freebsd_roundtrip (laws := tree_laws) sample_device 0 6);
    [apply sample_sendable|vm_compute; repeat constructor|apply sample_sendable|vm_compute; lia].
Defined.

(** A peer from which an address is to be removed. *)
Definition removing : wgdevice :=
  set_peers [sample_peer 1 [set_ai_flags WGALLOWEDIP_REMOVE_ME (sample_ip 1)]] sample_device.
Lemma freebsd_flags_not_reported_witness :
  existsb flagged (peers removing) = true ∧ run (kernel_set_device 0 0 (λ _ _, false) removing) = Done 0.
Proof. split; [reflexivity|]. exact (freebsd_flags_not_reported removing 0 0 eq_refl (λ _ _, false)). Defined.
