(* ===== verification/Hashtable.v ===== *)
(** * Hashtable: wincompat/include/hashtable.h

    A table of chains, keyed by strings.  A pointer to an entry is the number of its
    chain and its place in it; entries are appended and never removed, so it stays valid. *)

From Stdlib Require Import Ascii String.
From stdpp Require Import base numbers option sets list list_numbers strings gmap.
From S2P Require Import Prelude CLib.
#[local] Open Scope c_scope.

Definition HASHTABLE_ENTRY_BUCKETS_POW2 : Z := 1 .<< 10.

(** [struct hashtable_entry]; the value is a pointer that may be null. *)
Record hashtable_entry (V : Type) := Entry { e_key : bytes; e_value : option V }.
Arguments Entry {V} e_key e_value.
Arguments e_key {V} h.
Arguments e_value {V} h.

(** [struct hashtable] *)
Abbreviation hashtable V := (list (list (hashtable_entry V))).
Definition hashtable_zero {V} : hashtable V := replicate (Z.to_nat HASHTABLE_ENTRY_BUCKETS_POW2) [].

(** [entry->value = v] *)
Definition store_value {V} (h : hashtable V) (p : nat * nat) (v : option V) : hashtable V :=
  alter (alter (λ e, Entry (e_key e) v) p.2) p.1 h.
Definition entry_at {V} (h : hashtable V) (p : nat * nat) : option (hashtable_entry V) := h !! p.1 ≫= lookup p.2.

Section Hashtable.
Context {plat : Platform} {V : Type}.

(** The arithmetic is that of [unsigned long], which has 32 bits on Windows; [c] is converted to it from [int]. *)
Definition hashtable_bucket (s : bytes) : nat :=
  let hash := foldl (λ hash c, u32 (u32 (hash .<< 5) + hash) .^ u32 (char_val c)) 5381 s in
  Z.to_nat (hash .& (HASHTABLE_ENTRY_BUCKETS_POW2 - 1)).

(** The place of a key in a chain. *)
Fixpoint chain_find (chain : list (hashtable_entry V)) (key : bytes) : option nat :=
  match chain with
  | [] => None
  | e :: chain' => if strcmp_eq (e_key e) key then Some 0%nat else S <$> chain_find chain' key
  end.

Definition hashtable_find_entry (h : hashtable V) (key : bytes) : option (nat * nat) :=
  let b := hashtable_bucket key in
  chain ← h !! b;
  i ← chain_find chain key;
  Some (b, i).

Definition hashtable_find_or_insert_entry (h : hashtable V) (key : bytes) : M (option (nat * nat) * hashtable V) :=
  match hashtable_find_entry h key with
  | Some p => mret (Some p, h)
  | None =>
      entry ← alloc;
      if negb entry then mret (None, h)
      else
        copy ← alloc;
        if negb copy then mret (None, h)
        else
          let b := hashtable_bucket key in
          let chain := default [] (h !! b) in
          mret (Some (b, length chain), <[b := chain ++ [Entry key None]]> h)
  end.

(** ** The table as a finite map *)

(** Every key is in the chain of its hash, once. *)
Definition table_ok (h : hashtable V) : Prop :=
  length h = Z.to_nat HASHTABLE_ENTRY_BUCKETS_POW2 ∧
  ∀ b chain, h !! b = Some chain → NoDup (e_key <$> chain) ∧ ∀ e, e ∈ chain → hashtable_bucket (e_key e) = b.
Definition in_table (h : hashtable V) (e : hashtable_entry V) : Prop := ∃ b chain, h !! b = Some chain ∧ e ∈ chain.
Definition represents (h : hashtable V) (m : gmap bytes (option V)) : Prop :=
  table_ok h ∧ ∀ k v, m !! k = Some v ↔ in_table h (Entry k v).

Lemma bucket_bound s : (hashtable_bucket s < Z.to_nat HASHTABLE_ENTRY_BUCKETS_POW2)%nat.
Proof.
  unfold hashtable_bucket. cbv zeta. set (x := foldl _ _ _). change (HASHTABLE_ENTRY_BUCKETS_POW2 - 1) with (Z.ones 10).
  rewrite Z.land_ones by lia. pose proof (Z.mod_pos_bound x (2 ^ 10) ltac:(lia)).
  change HASHTABLE_ENTRY_BUCKETS_POW2 with (2 ^ 10). lia.
Qed.

Lemma chain_of (h : hashtable V) key : table_ok h → ∃ chain, h !! hashtable_bucket key = Some chain.
Proof. intros [Hl _]. apply lookup_lt_is_Some. rewrite Hl. apply bucket_bound. Qed.

Lemma chain_find_spec chain key :
  match chain_find chain key with
  | Some i => ∃ v, chain !! i = Some (Entry key v)
  | None => key ∉ (e_key <$> chain)
  end.
Proof.
  induction chain as [|[k v] chain IH]; [apply not_elem_of_nil|]. cbn [chain_find e_key]. unfold strcmp_eq.
  case_bool_decide as E; [subst; by exists v|]. destruct (chain_find chain key) as [i|].
  - destruct IH as [v' H]. by exists v'.
  - cbn [mbind fmap option_fmap option_map]. rewrite fmap_cons, not_elem_of_cons. done.
Qed.

Lemma keys_unique (chain : list (hashtable_entry V)) k v v' :
  NoDup (e_key <$> chain) → Entry k v ∈ chain → Entry k v' ∈ chain → v = v'.
Proof.
  intros Hn [i Hi]%list_elem_of_lookup [j Hj]%list_elem_of_lookup.
  assert (i = j) as ->; [|congruence]. eapply (NoDup_lookup (e_key <$> chain) i j k); [done|rewrite list_lookup_fmap..].
  - by rewrite Hi.
  - by rewrite Hj.
Qed.

Lemma zero_represents : represents hashtable_zero ∅.
Proof.
  split; [split|].
  - apply length_replicate.
  - intros b chain [-> _]%lookup_replicate. split; [constructor|]. by intros e ?%not_elem_of_nil.
  - intros k v. rewrite lookup_empty. split; [done|]. intros (b & chain & [-> _]%lookup_replicate & []%not_elem_of_nil).
Qed.

(** A key of the map is in the chain of its hash. *)
Lemma represents_lookup h m k chain v :
  represents h m → h !! hashtable_bucket k = Some chain → m !! k = Some v ↔ Entry k v ∈ chain.
Proof.
  intros [[_ Hok] Hm] Hc. rewrite Hm. split.
  - intros (b & chain' & Hb & Hin). assert (b = hashtable_bucket k) as -> by (symmetry; by apply (proj2 (Hok b chain' Hb) (Entry k v))). congruence.
  - intros He. by exists (hashtable_bucket k), chain.
Qed.

Lemma find_entry_spec h m k :
  represents h m →
  match hashtable_find_entry h k with
  | Some p => ∃ v, p.1 = hashtable_bucket k ∧ entry_at h p = Some (Entry k v) ∧ m !! k = Some v
  | None => m !! k = None
  end.
Proof.
  intros Hr. destruct (chain_of h k) as [chain Hc]; [apply Hr|]. unfold hashtable_find_entry. cbv zeta. rewrite Hc. cbn [mbind option_bind].
  pose proof (chain_find_spec chain k) as H. destruct (chain_find chain k) as [i|]; cbn [mbind option_bind].
  - destruct H as [v Hv]. exists v. split; [done|]. split; [unfold entry_at; cbn; by rewrite Hc|].
    eapply represents_lookup; [done..|]. by eapply list_elem_of_lookup_2.
  - apply eq_None_not_Some. intros [v Hv]. apply H. apply (represents_lookup h m k chain v Hr Hc) in Hv.
    by apply (list_elem_of_fmap_2 e_key) in Hv.
Qed.

(** A chain of the table is replaced. *)
Lemma replace_ok h b old new :
  table_ok h → h !! b = Some old → NoDup (e_key <$> new) → (∀ e, e ∈ new → hashtable_bucket (e_key e) = b) → table_ok (<[b := new]> h).
Proof.
  intros [Hl Hok] Hb Hnd Hin. split; [by rewrite length_insert|]. intros b' chain Hc. destruct (decide (b' = b)) as [->|Hne].
  - rewrite list_lookup_insert_eq in Hc by (by eapply lookup_lt_Some). by injection Hc as <-.
  - rewrite list_lookup_insert_ne in Hc by done. by apply Hok.
Qed.
Lemma replace_in h b old new e :
  h !! b = Some old → in_table (<[b := new]> h) e ↔ e ∈ new ∨ ∃ b' chain, b' ≠ b ∧ h !! b' = Some chain ∧ e ∈ chain.
Proof.
  intros Hb. split.
  - intros (b' & chain & Hc & He). destruct (decide (b' = b)) as [->|Hne].
    + rewrite list_lookup_insert_eq in Hc by (by eapply lookup_lt_Some). injection Hc as <-. by left.
    + rewrite list_lookup_insert_ne in Hc by done. eauto 10.
  - intros [He|(b' & chain & Hne & Hc & He)].
    + exists b, new. split; [|done]. apply list_lookup_insert_eq. by eapply lookup_lt_Some.
    + exists b', chain. by rewrite list_lookup_insert_ne.
Qed.
(** Replacing changes nothing for the keys of other chains. *)
Lemma replace_represents h m b old new k v :
  represents h m → h !! b = Some old → NoDup (e_key <$> new) → (∀ e, e ∈ new → hashtable_bucket (e_key e) = b) →
  (∀ k' v', Entry k' v' ∈ new ↔ (k' = k ∧ v' = v) ∨ (k' ≠ k ∧ Entry k' v' ∈ old)) → hashtable_bucket k = b →
  represents (<[b := new]> h) (<[k := v]> m).
Proof.
  intros Hr Hb Hnd Hin Hnew Hk. pose proof Hr as [Hok Hm]. split; [by eapply replace_ok|]. intros k' v'. rewrite (replace_in h b old new) by done.
  rewrite Hnew. destruct (decide (k' = k)) as [->|Hne].
  - rewrite lookup_insert_eq. split; [intros [= ->]; by left; left|]. intros [[[_ ->]|[? _]]|(b' & chain & Hb' & Hc & He)]; [done..|].
    apply (proj2 (proj2 Hok b' chain Hc)) in He. cbn in He. congruence.
  - rewrite lookup_insert_ne, Hm by done. split.
    + intros (b' & chain & Hc & He). destruct (decide (b' = b)) as [->|Hne']; [left; right; split; [done|congruence]|eauto 10].
    + intros [[[? _]|[_ He]]|(b' & chain & _ & Hc & He)]; [done|by exists b, old|by exists b', chain].
Qed.

Lemma insert_represents h m k chain :
  represents h m → m !! k = None → h !! hashtable_bucket k = Some chain →
  represents (<[hashtable_bucket k := chain ++ [Entry k None]]> h) (<[k := None]> m).
Proof.
  intros Hr Hk Hc. pose proof (proj2 (proj1 Hr) _ _ Hc) as [Hnd Hb].
  assert (Hfresh : k ∉ (e_key <$> chain)).
  { intros ([k' v] & Heq & Hin)%list_elem_of_fmap. cbn in Heq. subst k'. apply (represents_lookup h m k chain v Hr Hc) in Hin. congruence. }
  eapply replace_represents; [done..| | | |done].
  - rewrite fmap_app. apply NoDup_app. split; [done|]. split; [|apply NoDup_singleton].
    intros x Hx Hx2. apply list_elem_of_singleton in Hx2 as ->. done.
  - intros e [He|He%list_elem_of_singleton]%elem_of_app; [by apply Hb|by subst].
  - intros k' v'. rewrite elem_of_app, list_elem_of_singleton. split.
    + intros [Hin|[= -> ->]]; [|by left]. right. split; [|done]. intros ->. apply Hfresh. by apply (list_elem_of_fmap_2 e_key) in Hin.
    + intros [[-> ->]|[_ ?]]; auto.
Qed.

Lemma store_represents h m p e v :
  represents h m → entry_at h p = Some e → represents (store_value h p v) (<[e_key e := v]> m).
Proof.
  destruct p as [b i], e as [k v0]. intros Hr (chain & Hc & Hi)%bind_Some. cbn [fst snd] in *. pose proof (proj2 (proj1 Hr) _ _ Hc) as [Hnd Hb].
  assert (Hkey : e_key <$> alter (λ e, Entry (e_key e) v) i chain = e_key <$> chain).
  { apply list_eq. intros j. rewrite !list_lookup_fmap, list_lookup_alter. case_decide; [subst|]; by destruct (chain !! _). }
  assert (store_value h (b, i) v = <[b := alter (λ e, Entry (e_key e) v) i chain]> h) as ->.
  { unfold store_value. cbn [fst snd]. clear -Hc. revert h Hc. induction b as [|b IH]; intros [|c h] Hc; try done; [by injection Hc as ->|]. cbn. f_equal. by apply IH. }
  assert (Hbk : hashtable_bucket k = b) by (by apply (Hb (Entry k v0)), (list_elem_of_lookup_2 _ i)).
  eapply replace_represents; [done..|by rewrite Hkey| | |done].
  - intros e He. apply (list_elem_of_fmap_2 e_key) in He. rewrite Hkey in He. apply list_elem_of_fmap in He as (e' & -> & He'). by apply Hb.
  - intros k' v'. rewrite !list_elem_of_lookup. split.
    + intros [j Hj]. rewrite list_lookup_alter in Hj. case_decide as E.
      * subst j. rewrite Hi in Hj. cbn in Hj. injection Hj as <- <-. by left.
      * right. split; [|by exists j]. intros ->. apply E. eapply (NoDup_lookup (e_key <$> chain) i j k); [done|rewrite list_lookup_fmap..].
        -- by rewrite Hi.
        -- by rewrite Hj.
    + intros [[-> ->]|[Hne [j Hj]]].
      * exists i. by rewrite list_lookup_alter, decide_True, Hi by done.
      * exists j. rewrite list_lookup_alter, decide_False; [done|]. intros ->. cbn [e_key] in *. congruence.
Qed.

Lemma find_or_insert_spec h m k o :
  represents h m →
  ∃ r h' o', hashtable_find_or_insert_entry h k o = Done ((r, h'), o') ∧ o' ⊆ o ∧
    match r with
    | Some p => represents h' (<[k := default None (m !! k)]> m) ∧ entry_at h' p = Some (Entry k (default None (m !! k)))
    | None => h' = h ∧ m !! k = None ∧ false ∈ o
    end.
Proof.
  intros Hr. pose proof (find_entry_spec h m k Hr) as Hf. unfold hashtable_find_or_insert_entry. destruct (hashtable_find_entry h k) as [p|].
  { destruct Hf as (v & _ & He & Hk). exists (Some p), h, o. split; [done|]. rewrite Hk. cbn. by rewrite insert_id. }
  destruct (chain_of h k (proj1 Hr)) as [chain Hc]. rewrite Hf, Hc.
  assert (Hat : entry_at (<[hashtable_bucket k := chain ++ [Entry k None]]> h) (hashtable_bucket k, length chain) = Some (Entry k None)).
  { unfold entry_at. cbn [fst snd]. rewrite list_lookup_insert_eq by (by eapply lookup_lt_Some). cbn. by rewrite list_lookup_middle. }
  pose proof (insert_represents h m k chain Hr Hf Hc) as Hins. unfold mbind, M_bind, alloc, mret, M_ret.
  destruct o as [|[] [|[] o]]; cbn [negb default]; eexists _, _, _; (split; [done|]); cbn; (split; [set_solver|]);
    (done || (split; [done|split; [done|set_solver]])).
Qed.

(** C20: the table of hashtable.h is a finite map of strings: it starts empty; looking a key up finds the entry
    of that key exactly when the map has it; finding or inserting gives the entry of the key, new ones with a null
    value, and fails exactly when memory does, leaving the table as it was; a store through an entry updates its key. *)
Theorem hashtable_is_map (h : hashtable V) (m : gmap bytes (option V)) (k : bytes) (Hr : represents h m) :
  represents hashtable_zero ∅ ∧
  match hashtable_find_entry h k with
  | Some p => entry_at h p = Entry k <$> m !! k
  | None => m !! k = None
  end ∧
  (∀ o, ∃ r h' o', hashtable_find_or_insert_entry h k o = Done ((r, h'), o') ∧
     match r with
     | Some p => represents h' (<[k := default None (m !! k)]> m) ∧ entry_at h' p = Some (Entry k (default None (m !! k)))
     | None => h' = h ∧ m !! k = None ∧ false ∈ o
     end) ∧
  ∀ p e v, entry_at h p = Some e → represents (store_value h p v) (<[e_key e := v]> m).
Proof.
  split; [apply zero_represents|]. split; [|split; [|intros; by eapply store_represents]].
  - pose proof (find_entry_spec h m k Hr) as Hf. destruct (hashtable_find_entry h k) as [p|]; [|done]. destruct Hf as (v & _ & -> & ->). done.
  - intros o. destruct (find_or_insert_spec h m k o Hr) as (r & h' & o' & H1 & _ & H2). eauto 10.
Qed.
End Hashtable.

Lemma hashtable_is_map_witness :
  let key := str "wg0" in
  represents (plat := x86_64) (hashtable_zero : hashtable bytes) ∅ ∧
  match hashtable_find_entry (plat := x86_64) (hashtable_zero : hashtable bytes) key with
  | Some p => entry_at hashtable_zero p = Entry key <$> (∅ : gmap bytes (option bytes)) !! key
  | None => (∅ : gmap bytes (option bytes)) !! key = None
  end.
Proof.
  destruct (hashtable_is_map (plat := x86_64) (hashtable_zero : hashtable bytes) ∅ (str "wg0") (zero_represents (plat := x86_64))) as (H1 & H2 & _).
  exact (conj H1 H2).
Defined.
