(* ===== verification/WinCompat.v ===== *)
(** * WinCompat: wincompat/libc.c, the functions of libc that Windows lacks

    [strsep] and [getdelim], and that they do what CLib says of the functions of libc. *)

From Stdlib Require Import Ascii String.
From stdpp Require Import base numbers option sets list list_numbers strings.
From S2P Require Import Prelude CLib Ctype Encoding Containers Setconf Ipc IpcSpec.
#[local] Open Scope c_scope.

(** ** strsep *)

Definition strcspn (s sep : bytes) : nat := default (length s) (index_of (λ c, has_char sep c) s).

(** The token, and the new [*str]; [None] is the null pointer. *)
Definition strsep (s sep : bytes) : bytes * option bytes :=
  let end_ := strcspn s sep in
  if (end_ <? length s)%nat then (take end_ s, Some (drop (S end_) s)) else (s, None).
Definition strsep_ptr (str : option bytes) (sep : bytes) : option bytes * option bytes :=
  match str with
  | None => (None, None)
  | Some s => let r := strsep s sep in (Some r.1, r.2)
  end.

(** ** getdelim *)

Section Getdelim.
Context {plat : Platform}.
Variable BUFSIZ : Z.
Variable delimiter : Z.
(** Whether the stream ends in an error. *)
Variable stream_error : bool.

Record getdelim_result := { gd_ret : Z; gd_buf : list (option Z); gd_bufsiz : Z; gd_rest : bytes }.

(** The loop: [ptr - *buf] is [n], and [eptr - *buf] is [bufsiz]. *)
Fixpoint getdelim_loop (buf : list (option Z)) (bufsiz n : Z) (fp : bytes) : M getdelim_result :=
  match fp with
  | [] =>
      if negb stream_error && negb (n =? 0) then
        buf ← store_cells buf n [0];
        mret {| gd_ret := n; gd_buf := buf; gd_bufsiz := bufsiz; gd_rest := [] |}
      else mret {| gd_ret := -1; gd_buf := buf; gd_bufsiz := bufsiz; gd_rest := [] |}
  | c :: fp' =>
      buf ← store_cells buf n [c];
      let n := n + 1 in
      if c =? delimiter then
        buf ← store_cells buf n [0];
        mret {| gd_ret := n; gd_buf := buf; gd_bufsiz := bufsiz; gd_rest := fp' |}
      else if bufsiz <=? n + 2 then
        let nbufsiz := size (bufsiz * 2) in
        nbuf ← alloc;
        if negb nbuf then mret {| gd_ret := -1; gd_buf := buf; gd_bufsiz := bufsiz; gd_rest := fp' |}
        else getdelim_loop (realloc buf nbufsiz) nbufsiz n fp'
      else getdelim_loop buf bufsiz n fp'
  end.

(** [buf] is [None] for the null pointer, and the memory behind it otherwise. *)
Definition getdelim (buf : option (list (option Z))) (bufsiz : Z) (fp : bytes) : M getdelim_result :=
  match buf with
  | Some b =>
      if bufsiz =? 0 then
        new ← alloc;
        if negb new then mret {| gd_ret := -1; gd_buf := []; gd_bufsiz := BUFSIZ; gd_rest := fp |}
        else getdelim_loop (replicate (Z.to_nat BUFSIZ) None) BUFSIZ 0 fp
      else getdelim_loop b bufsiz 0 fp
  | None =>
      new ← alloc;
      if negb new then mret {| gd_ret := -1; gd_buf := []; gd_bufsiz := BUFSIZ; gd_rest := fp |}
      else getdelim_loop (replicate (Z.to_nat BUFSIZ) None) BUFSIZ 0 fp
  end.
End Getdelim.

Definition getline `{Platform} (BUFSIZ : Z) (stream_error : bool) : option (list (option Z)) → Z → bytes → M getdelim_result :=
  getdelim BUFSIZ 10 stream_error.

(** ** Against CLib *)

(** With one separator it is the [strsep] of libc. *)
Theorem strsep_as_libc s c : strsep s [c] = CLib.strsep s c.
Proof.
  unfold strsep, strcspn, CLib.strsep, strchr_split. cbv zeta.
  assert (Hi : index_of (λ c0, has_char [c] c0) s = index_of (Z.eqb c) s).
  { induction s as [|x s IH]; [done|]. cbn [index_of]. rewrite IH. unfold has_char. cbn. by rewrite orb_false_r, Z.eqb_sym. }
  rewrite Hi. destruct (index_of (Z.eqb c) s) as [i|] eqn:E; cbn [default from_option]; unfold id.
  - apply index_of_Some in E as (x & Hx & _). apply lookup_lt_Some in Hx. by rewrite (proj2 (Nat.ltb_lt i (length s))) by lia.
  - by rewrite Nat.ltb_irrefl.
Qed.

Section Proofs.
Context {plat : Platform} (BUFSIZ delimiter : Z) (stream_error : bool).

(** What a call should give: up to the delimiter and with it, or everything. *)
Definition first_line (fp : bytes) : bytes := match index_of (Z.eqb delimiter) fp with Some i => take (S i) fp | None => fp end.
Lemma first_line_cons c fp : first_line (c :: fp) = if c =? delimiter then [c] else c :: first_line fp.
Proof.
  unfold first_line. cbn [index_of]. rewrite (Z.eqb_sym delimiter c). destruct (c =? delimiter); [done|].
  by destruct (index_of (Z.eqb delimiter) fp).
Qed.

Lemma store_one (buf : list (option Z)) pre c o :
  take (length pre) buf = Some <$> pre → (length pre < length buf)%nat →
  ∃ buf', store_cells buf (Z.of_nat (length pre)) [c] o = Done (buf', o) ∧ length buf' = length buf ∧
    take (S (length pre)) buf' = Some <$> (pre ++ [c]).
Proof.
  intros Ht Hl. unfold store_cells. cbn [length fmap list_fmap app]. rewrite (proj2 (Z.leb_le _ _)) by lia. rewrite Nat2Z.id.
  eexists. split; [done|]. rewrite length_app, length_take. cbn [length]. rewrite length_drop. split; [lia|].
  rewrite Ht, fmap_app. change (S (length pre)) with (1 + length pre)%nat.
  replace (1 + length pre)%nat with (length (Some <$> pre) + 1)%nat by (rewrite length_fmap; lia).
  by rewrite take_app_add.
Qed.

(** A call that has read [pre] already. *)
Definition reads (pre fp : bytes) (o : allocs) (r : getdelim_result) : Prop :=
  Z.of_nat (length (gd_buf r)) = gd_bufsiz r ∧ 2 <= gd_bufsiz r ∧
  ((gd_ret r = -1 ∧ (false ∈ o ∨ stream_error = true ∨ pre ++ fp = [])) ∨
   (gd_ret r = Z.of_nat (length (pre ++ first_line fp)) ∧ pre ++ fp ≠ [] ∧
    take (S (length (pre ++ first_line fp))) (gd_buf r) = Some <$> (pre ++ first_line fp ++ [0]) ∧
    gd_rest r = drop (length (first_line fp)) fp)).

Lemma getdelim_loop_reads fp pre buf bufsiz o :
  take (length pre) buf = Some <$> pre → Z.of_nat (length buf) = bufsiz → Z.of_nat (length pre) + 2 <= bufsiz →
  2 * (Z.of_nat (length pre) + Z.of_nat (length fp) + 2) <= SIZE_MAX →
  ∃ r o', getdelim_loop delimiter stream_error buf bufsiz (Z.of_nat (length pre)) fp o = Done (r, o') ∧ reads pre fp o r.
Proof.
  revert pre buf bufsiz o. induction fp as [|c fp IH]; intros pre buf bufsiz o Ht Hl Hn Hmax; cbn [getdelim_loop].
  - destruct (negb stream_error && negb (Z.of_nat (length pre) =? 0)) eqn:E.
    + apply andb_true_iff in E as [_ E]. apply negb_true_iff, Z.eqb_neq in E. unfold mbind, M_bind.
      destruct (store_one buf pre 0 o Ht ltac:(lia)) as (buf' & -> & Hl' & Ht'). eexists _, _. split; [done|].
      split; [cbn; lia|]. split; [cbn; lia|]. right. unfold first_line. cbn [index_of gd_ret gd_buf gd_rest length drop]. rewrite app_nil_r.
      split_and!; [done| |done..]. by intros ->.
    + eexists _, _. split; [done|]. split; [done|]. split; [cbn; lia|]. left. split; [done|]. right. rewrite app_nil_r.
      apply andb_false_iff in E as [E|E]; [left; by destruct stream_error|right]. apply negb_false_iff, Z.eqb_eq in E. by destruct pre.
  - unfold mbind, M_bind. destruct (store_one buf pre c o Ht ltac:(lia)) as (buf1 & -> & Hl1 & Ht1). cbv zeta.
    assert (Hpre : Z.of_nat (length pre) + 1 = Z.of_nat (length (pre ++ [c]))) by (rewrite length_app; cbn; lia).
    assert (Ht1' : take (length (pre ++ [c])) buf1 = Some <$> (pre ++ [c])) by (rewrite length_app; cbn; by rewrite Nat.add_1_r).
    rewrite Hpre. cbn [length] in Hmax. destruct (c =? delimiter) eqn:Ec.
    + destruct (store_one buf1 (pre ++ [c]) 0 o Ht1' ltac:(lia)) as (buf' & -> & Hl' & Ht'). eexists _, _. split; [done|].
      split; [cbn; lia|]. split; [cbn; lia|]. right. rewrite first_line_cons, Ec. cbn [gd_ret gd_buf gd_rest length drop].
      split_and!; [done|by destruct pre| |done]. by rewrite app_assoc.
    + assert (Hmono : ∀ r o1, (∀ x, x ∈ o1 → x ∈ o) → reads (pre ++ [c]) fp o1 r → reads pre (c :: fp) o r).
      { intros r o1 Ho (H1 & H2 & H3). split; [done|]. split; [done|]. rewrite first_line_cons, Ec. rewrite <- !app_assoc in H3. cbn [app length drop] in *.
        destruct H3 as [[H3 [H4|[H4|H4]]]|H3]; [left; auto..|by right]. }
      destruct (bufsiz <=? Z.of_nat (length (pre ++ [c])) + 2) eqn:Eb.
      * apply Z.leb_le in Eb. assert (Hs : size (bufsiz * 2) = bufsiz * 2).
        { unfold size. apply Z.mod_small. lia. }
        rewrite Hs. assert (Hgo : ∀ o1, (∀ x, x ∈ o1 → x ∈ o) → ∃ r o', getdelim_loop delimiter stream_error (realloc buf1 (bufsiz * 2)) (bufsiz * 2) (Z.of_nat (length (pre ++ [c]))) fp o1 =
                  Done (r, o') ∧ reads pre (c :: fp) o r).
        { intros o1 Ho. destruct (IH (pre ++ [c]) (realloc buf1 (bufsiz * 2)) (bufsiz * 2) o1) as (r & o' & Hr & Hr').
          - rewrite take_realloc by lia. done.
          - rewrite length_realloc by lia. done.
          - lia.
          - lia.
          - exists r, o'. split; [done|]. by eapply Hmono. }
        destruct o as [|[] o]; cbn [alloc negb]; [apply Hgo; done|apply Hgo; set_solver|].
        eexists _, _. split; [done|]. split; [cbn; lia|]. split; [cbn; lia|]. left. split; [done|]. left. set_solver.
      * apply Z.leb_gt in Eb. destruct (IH (pre ++ [c]) buf1 bufsiz o) as (r & o' & Hr & Hr'); [done|lia..|]. exists r, o'. split; [done|]. by eapply Hmono.
Qed.
End Proofs.

Lemma getlines_first fp : fp ≠ [] → getlines fp = first_line 10 fp :: getlines (drop (length (first_line 10 fp)) fp).
Proof.
  induction fp as [|c fp IH]; [done|]. intros _. cbn [getlines]. rewrite first_line_cons. destruct (c =? 10); [done|].
  destruct fp as [|c' fp]; [done|]. by rewrite IH.
Qed.

(** The outcome of a call: -1, or the next line in the buffer. *)
Definition gives_line (stream_error : bool) (fp : bytes) (o : allocs) (r : getdelim_result) : Prop :=
  (gd_ret r = -1 ∧ (false ∈ o ∨ stream_error = true ∨ fp = [])) ∨
  ∃ line, getlines fp = line :: getlines (gd_rest r) ∧ fp = line ++ gd_rest r ∧ gd_ret r = Z.of_nat (length line) ∧
    take (S (length line)) (gd_buf r) = Some <$> (line ++ [0]) ∧ Z.of_nat (length (gd_buf r)) = gd_bufsiz r.

(** C36: [getline] of wincompat/libc.c on any stream and allocator, with no buffer or one of at least two bytes: it never writes
    past its buffer, and it returns -1 only at the end, after an error of the stream or without memory; otherwise the
    buffer holds the first line, as the function of libc gives it, with a NUL behind it, and the stream is at the next one. *)
Theorem getline_as_libc {plat : Platform} (BUFSIZ bufsiz : Z) (stream_error : bool) (buf : option (list (option Z))) (fp : bytes) (o : allocs)
    (HB : 2 <= BUFSIZ) (Hbuf : match buf with Some b => Z.of_nat (length b) = bufsiz ∧ 2 <= bufsiz | None => True end)
    (Hmax : 2 * (Z.of_nat (length fp) + 2) <= SIZE_MAX) :
  ∃ r o', getline BUFSIZ stream_error buf bufsiz fp o = Done (r, o') ∧
    gives_line stream_error fp o r.
Proof.
  assert (Hfinish : ∀ o1 m, (∀ x, x ∈ o1 → x ∈ o) → (∃ r o', m o1 = Done (r, o') ∧ reads 10 stream_error [] fp o1 r) →
    ∃ r o', (m : M getdelim_result) o1 = Done (r, o') ∧ gives_line stream_error fp o r).
  { intros o1 m Ho (r & o' & Hr & Hl & _ & H). exists r, o'. split; [done|]. cbn [app] in H. destruct H as [[H1 H2]|(H1 & Hne & H2 & H3)].
    - left. split; [done|]. destruct H2 as [H2|[H2|H2]]; auto.
    - right. exists (first_line 10 fp). rewrite H3. split_and!; [by apply getlines_first| |done..].
      unfold first_line. destruct (index_of (Z.eqb 10) fp) as [i|] eqn:Ei; [|by rewrite drop_all, app_nil_r].
      rewrite length_take. pose proof (index_of_lt _ _ _ Ei). rewrite Nat.min_l by lia. by rewrite take_drop. }
  pose proof (λ o1, getdelim_loop_reads 10 stream_error fp [] (replicate (Z.to_nat BUFSIZ) None) BUFSIZ o1) as Hnew. cbn [length fmap] in Hnew.
  change (Z.of_nat 0) with 0 in Hnew. unfold getline, getdelim. destruct buf as [b|].
  - destruct Hbuf as [Hl Hb]. rewrite (proj2 (Z.eqb_neq bufsiz 0)) by lia. apply Hfinish; [done|].
    apply (getdelim_loop_reads 10 stream_error fp [] b bufsiz o); [done|done|cbn; lia|cbn; lia].
  - unfold mbind, M_bind. destruct o as [|[] o]; cbn [alloc negb].
    + apply Hfinish; [done|]. apply Hnew; [done|rewrite length_replicate; lia|lia|lia].
    + apply Hfinish; [set_solver|]. apply Hnew; [done|rewrite length_replicate; lia|lia|lia].
    + eexists _, _. split; [done|]. left. split; [done|]. left. set_solver.
Qed.

Lemma getline_as_libc_witness :
  ∃ r o', getline (H := x86_64) 512 false None 0 [97; 10; 98] [] = Done (r, o') ∧
    gives_line false [97; 10; 98] [] r.
Proof. apply (getline_as_libc (plat := x86_64) 512 0 false None [97; 10; 98] []); [lia|exact I|vm_compute; discriminate]. Defined.

(** A buffer of one byte is too small for the NUL behind a line that is only the delimiter. *)
Example getline_one_byte : run (getline (H := x86_64) 512 false (Some [None]) 1 [10]) = Undefined.
Proof. reflexivity. Qed.
