(* ===== verification/IpcWindows.v ===== *)
(** * IpcWindows: ipc-windows.h, the kernel's side on Windows

    Adapters are found through the setup API, and their instance identifiers are
    kept in a hash table for the calls to come; a device crosses the border in one
    buffer, as cells of IpcCells.  Wide strings are lists of code units. *)

From Stdlib Require Import Ascii String.
From stdpp Require Import base numbers option sets list list_numbers strings.
From S2P Require Import Prelude CLib Ctype Encoding Containers Setconf Ipc IpcCells Hashtable.
#[local] Open Scope c_scope.

Definition EACCES : Z := 13.
Definition EOVERFLOW : Z := 132.
(** wincompat/compat.h *)
Definition WIN_IFNAMSIZ : nat := 64.

Definition wstring : Type := list Z.

(** ** Adapters *)

(** What the setup API says of a device: the type and the value of its name, the flags of
    its status, whether the size of its instance identifier can be asked for, and that identifier; a call that fails gives [None]. *)
Record device_info := {
  name_property : option (Z * wstring);
  devnode_status : option Z;
  instance_id_size : bool;
  instance_id : option wstring;
}.
Definition DEVPROP_TYPE_STRING : Z := 0x12.
Definition DN_DRIVER_LOADED : Z := 0x2.
Definition DN_STARTED : Z := 0x8.

(** [cached_kernel_interfaces] and [have_cached_kernel_interfaces]. *)
Record kernel_cache := { have_cached_kernel_interfaces : bool; cached_kernel_interfaces : hashtable wstring }.
Definition kernel_cache_zero : kernel_cache := {| have_cached_kernel_interfaces := false; cached_kernel_interfaces := hashtable_zero |}.

Section Adapters.
Context {plat : Platform}.
Variable MAX_ADAPTER_NAME : nat.
(** [WideCharToMultiByte]; both calls for a string have the same outcome. *)
Variable utf8 : wstring → option bytes.

(** The name of an adapter, or [None] for [continue].  A property of more than [MAX_ADAPTER_NAME] units with
    its NUL is not stored.  The last unit of the buffer is set to the digit 0, and where that was the NUL
    the string has no end. *)
Definition adapter_interface_name (d : device_info) : M (option bytes) :=
  match name_property d with
  | None => mret None
  | Some (prop_type, adapter_name) =>
      if (MAX_ADAPTER_NAME <=? length adapter_name)%nat then mret None
      else if negb (prop_type =? DEVPROP_TYPE_STRING) then mret None
      else if (length adapter_name =? MAX_ADAPTER_NAME - 1)%nat then undefined
      else if adapter_name is [] then mret None
      else match utf8 adapter_name with
      | None => mret None
      | Some interface_name =>
          buf ← alloc;
          mret (if negb buf then None else Some interface_name)
      end
  end.

Definition started (d : device_info) : bool :=
  match devnode_status d with
  | Some status => (status .& (DN_DRIVER_LOADED .| DN_STARTED)) =? (DN_DRIVER_LOADED .| DN_STARTED)
  | None => false
  end.

(** The loop over the devices, up to ERROR_NO_MORE_ITEMS; [None] is one that cannot be enumerated. *)
Fixpoint list_adapters (devs : list (option device_info)) (l : string_list) (h : hashtable wstring) : M (string_list * hashtable wstring) :=
  match devs with
  | [] => mret (l, h)
  | None :: devs' => list_adapters devs' l h
  | Some d :: devs' =>
      name ← adapter_interface_name d;
      match name with
      | None => list_adapters devs' l h
      | Some interface_name =>
          l ← (if started d then r ← string_list_add l interface_name; mret r.2 else mret l);
          r ← hashtable_find_or_insert_entry h interface_name;
          let '(entry, h) := r in
          match entry with
          | None => list_adapters devs' l h
          | Some p =>
              if negb (instance_id_size d) then list_adapters devs' l h
              else
                value ← alloc;
                list_adapters devs' l (store_value h p (if negb value then None else instance_id d))
          end
      end
  end.

(** [dev_info] is [None] for INVALID_HANDLE_VALUE. *)
Definition kernel_get_wireguard_interfaces (dev_info : option (list (option device_info))) (l : string_list) (c : kernel_cache) : M (Z * string_list * kernel_cache) :=
  match dev_info with
  | None => mret (- EACCES, l, c)
  | Some devs =>
      r ← list_adapters devs l (cached_kernel_interfaces c);
      mret (0, r.1, {| have_cached_kernel_interfaces := true; cached_kernel_interfaces := r.2 |})
  end.

(** ** Opening an adapter *)

Context {HANDLE : Type}.
(** The device interfaces of an instance identifier, or of the whole class for the null pointer; and
    [CreateFileW]. *)
Variable interface_list : option wstring → option (list wstring).
Variable create_file : wstring → option HANDLE.

(** The path at the front of the list, which is what its buffer reads as. *)
Definition get_interfaces (id : option wstring) : M (option wstring) :=
  match interface_list id with
  | None => mret None
  | Some paths =>
      interfaces ← alloc;
      mret (if negb interfaces then None else head paths)
  end.

(** The second loop over the devices: the first path of the first device of this name that has one. *)
Fixpoint find_adapter (devs : list (option device_info)) (iface : bytes) : M (option wstring) :=
  match devs with
  | [] => mret None
  | None :: devs' => find_adapter devs' iface
  | Some d :: devs' =>
      name ← adapter_interface_name d;
      match name with
      | None => find_adapter devs' iface
      | Some interface_name =>
          if negb (strcmp_eq interface_name iface) then find_adapter devs' iface
          else if negb (instance_id_size d) then find_adapter devs' iface
          else
            buf ← alloc;
            if negb buf then find_adapter devs' iface
            else match instance_id d with
            | None => find_adapter devs' iface
            | Some id =>
                interfaces ← get_interfaces (Some id);
                match interfaces with
                | Some path => mret (Some path)
                | None => find_adapter devs' iface
                end
            end
      end
  end.

(** [inl] is the [errno]; [errno] is what it was before, and stays so when the devices cannot be listed. *)
Definition kernel_interface_handle (errno : Z) (dev_info : option (list (option device_info))) (c : kernel_cache) (iface : bytes) : M (Z + HANDLE) :=
  let entry := if have_cached_kernel_interfaces c then hashtable_find_entry (cached_kernel_interfaces c) iface ≫= entry_at (cached_kernel_interfaces c) else None in
  match entry with
  | Some e =>
      interfaces ← get_interfaces (e_value e);
      mret (match interfaces ≫= create_file with Some handle => inr handle | None => inl EACCES end)
  | None =>
      match dev_info with
      | None => mret (inl errno)
      | Some devs =>
          interfaces ← find_adapter devs iface;
          mret (match interfaces with
                | None => inl ENOENT
                | Some path => match create_file path with Some handle => inr handle | None => inl EACCES end
                end)
      end
  end.
End Adapters.

(** ** wireguard.h *)

Definition WG_IOCTL_PEER_HAS_PUBLIC_KEY : Z := 1 .<< 0.
Definition WG_IOCTL_PEER_HAS_PRESHARED_KEY : Z := 1 .<< 1.
Definition WG_IOCTL_PEER_HAS_PERSISTENT_KEEPALIVE : Z := 1 .<< 2.
Definition WG_IOCTL_PEER_HAS_ENDPOINT : Z := 1 .<< 3.
Definition WG_IOCTL_PEER_REPLACE_ALLOWED_IPS : Z := 1 .<< 5.
Definition WG_IOCTL_PEER_REMOVE : Z := 1 .<< 6.
Definition WG_IOCTL_INTERFACE_HAS_PUBLIC_KEY : Z := 1 .<< 0.
Definition WG_IOCTL_INTERFACE_HAS_PRIVATE_KEY : Z := 1 .<< 1.
Definition WG_IOCTL_INTERFACE_HAS_LISTEN_PORT : Z := 1 .<< 2.
Definition WG_IOCTL_INTERFACE_REPLACE_PEERS : Z := 1 .<< 3.

Record WG_IOCTL_ALLOWED_IP := { Address : bytes; AddressFamily : Z; Cidr : Z }.
Record WG_IOCTL_PEER := {
  Flags : Z;
  ProtocolVersion : Z;
  PublicKey : bytes;
  PresharedKey : bytes;
  PersistentKeepalive : Z;
  Endpoint : sockaddr;
  TxBytes : Z;
  RxBytes : Z;
  LastHandshake : Z;
  AllowedIPsCount : nat;
}.
Record WG_IOCTL_INTERFACE := {
  IFlags : Z;
  ListenPort : Z;
  IPrivateKey : bytes;
  IPublicKey : bytes;
  PeersCount : nat;
}.
Definition region : Type := WG_IOCTL_INTERFACE * list (cell WG_IOCTL_PEER WG_IOCTL_ALLOWED_IP).

(** ** kernel_get_device *)

Definition read_aip (a : WG_IOCTL_ALLOWED_IP) : wgallowedip :=
  let aip := set_family (AddressFamily a) wgallowedip_zero in
  if AddressFamily a =? AF_INET then set_cidr (Cidr a) (store_ip (take 4 (Address a)) aip)
  else if AddressFamily a =? AF_INET6 then set_cidr (Cidr a) (store_ip (take 16 (Address a)) aip)
  else aip.

(** The time is in units of 100 ns since 1601; the subtraction is that of [ULONG64]. *)
Definition read_handshake (t : Z) (peer : wgpeer) : wgpeer :=
  if truthy t then
    let sec := u64 (t / 10000000 - 11644473600) in
    set_tv_nsec (t mod 10000000 * 100) (set_tv_sec (if 2 ^ 63 <=? sec then sec - 2 ^ 64 else sec) peer)
  else peer.

Definition read_peer (p : WG_IOCTL_PEER) : wgpeer :=
  let peer := wgpeer_zero in
  let peer := if has_flag (Flags p) WG_IOCTL_PEER_HAS_PUBLIC_KEY
              then set_p_flags (set_flag (p_flags peer) WGPEER_HAS_PUBLIC_KEY) (set_p_public_key (PublicKey p) peer) else peer in
  let peer := if has_flag (Flags p) WG_IOCTL_PEER_HAS_PRESHARED_KEY then
                let peer := set_preshared_key (PresharedKey p) peer in
                if negb (key_is_zero (preshared_key peer)) then set_p_flags (set_flag (p_flags peer) WGPEER_HAS_PRESHARED_KEY) peer else peer
              else peer in
  let peer := if has_flag (Flags p) WG_IOCTL_PEER_HAS_PERSISTENT_KEEPALIVE
              then set_p_flags (set_flag (p_flags peer) WGPEER_HAS_PERSISTENT_KEEPALIVE_INTERVAL) (set_keepalive (PersistentKeepalive p) peer) else peer in
  let peer := if has_flag (Flags p) WG_IOCTL_PEER_HAS_ENDPOINT &&
                 ((sa_family (Endpoint p) =? AF_INET) || (sa_family (Endpoint p) =? AF_INET6))
              then set_endpoint (Endpoint p) peer else peer in
  let peer := set_rx_bytes (RxBytes p) peer in
  let peer := set_tx_bytes (TxBytes p) peer in
  read_handshake (LastHandshake p) peer.

Definition read_interface (i : WG_IOCTL_INTERFACE) (dev : wgdevice) : wgdevice :=
  let dev := if has_flag (IFlags i) WG_IOCTL_INTERFACE_HAS_LISTEN_PORT
             then set_flags (set_flag (flags dev) WGDEVICE_HAS_LISTEN_PORT) (set_listen_port (ListenPort i) dev) else dev in
  let dev := if has_flag (IFlags i) WG_IOCTL_INTERFACE_HAS_PUBLIC_KEY
             then set_flags (set_flag (flags dev) WGDEVICE_HAS_PUBLIC_KEY) (set_public_key (IPublicKey i) dev) else dev in
  if has_flag (IFlags i) WG_IOCTL_INTERFACE_HAS_PRIVATE_KEY
  then set_flags (set_flag (flags dev) WGDEVICE_HAS_PRIVATE_KEY) (set_private_key (IPrivateKey i) dev) else dev.

(** [strncpy(dev->name, iface, sizeof(dev->name))] with a NUL at the end. *)
Definition dev_name (iface : bytes) : bytes := take (WIN_IFNAMSIZ - 1) iface.

(** The outcome of WG_IOCTL_GET: the buffer, if there was one; ERROR_MORE_DATA with the size wanted; another error. *)
Inductive get_result := Got (r : option region) | MoreData (buf_len : Z) | GetFailed.

Section Get.
Context {HANDLE : Type}.
(** [kernel_interface_handle], and WG_IOCTL_GET at its [n]-th call with the size of the buffer. *)
Variable open_handle : bytes → M (Z + HANDLE).
Variable ioctl : HANDLE → nat → Z → get_result.

Fixpoint fetch (fuel : nat) (handle : HANDLE) (n : nat) (buf_len : Z) : M (Z + option region) :=
  match fuel with
  | O => out_of_fuel
  | S fuel' =>
      match ioctl handle n buf_len with
      | Got contents => mret (inr contents)
      | GetFailed => mret (inl EACCES)
      | MoreData buf_len =>
          buf ← alloc;
          if negb buf then mret (inl ENOMEM) else fetch fuel' handle (S n) buf_len
      end
  end.

Definition kernel_get_device (fuel : nat) (iface : bytes) : M (Z * option wgdevice) :=
  handle ← open_handle iface;
  match handle with
  | inl errno => mret (- errno, None)
  | inr handle =>
      r ← fetch fuel handle 0 0;
      match r with
      | inl errno => mret (- errno, None)
      | inr contents =>
          dev ← alloc;
          if negb dev then mret (- ENOMEM, None)
          else match contents with
          | None => undefined
          | Some (i, cells) =>
              dev ← read_peers read_aip read_peer AllowedIPsCount (PeersCount i) cells (read_interface i (set_name (dev_name iface) wgdevice_zero));
              mret (match dev with Some dev => (0, Some dev) | None => (- ENOMEM, None) end)
          end
      end
  end.
End Get.

(** ** kernel_set_device *)

Definition write_aip (aip : wgallowedip) : WG_IOCTL_ALLOWED_IP :=
  {| Address := if family aip =? AF_INET then ip4 aip ++ replicate 12 0 else ip6 aip; AddressFamily := family aip; Cidr := cidr aip |}.

(** What a skipped address before the peer has left is within the public key, which is always written. *)
Definition write_peer (peer : wgpeer) (_ : Z) (aip_count : nat) : WG_IOCTL_PEER :=
  let psk := has_flag (p_flags peer) WGPEER_HAS_PRESHARED_KEY in
  let pka := has_flag (p_flags peer) WGPEER_HAS_PERSISTENT_KEEPALIVE_INTERVAL in
  let ep := (sa_family (endpoint peer) =? AF_INET) || (sa_family (endpoint peer) =? AF_INET6) in
  let fl := WG_IOCTL_PEER_HAS_PUBLIC_KEY in
  let fl := if psk then set_flag fl WG_IOCTL_PEER_HAS_PRESHARED_KEY else fl in
  let fl := if pka then set_flag fl WG_IOCTL_PEER_HAS_PERSISTENT_KEEPALIVE else fl in
  let fl := if ep then set_flag fl WG_IOCTL_PEER_HAS_ENDPOINT else fl in
  let fl := if has_flag (p_flags peer) WGPEER_REPLACE_ALLOWEDIPS then set_flag fl WG_IOCTL_PEER_REPLACE_ALLOWED_IPS else fl in
  let fl := if has_flag (p_flags peer) WGPEER_REMOVE_ME then set_flag fl WG_IOCTL_PEER_REMOVE else fl in
  {| Flags := fl; ProtocolVersion := 0; PublicKey := p_public_key peer;
     PresharedKey := if psk then preshared_key peer else replicate WG_KEY_LEN 0;
     PersistentKeepalive := if pka then persistent_keepalive_interval peer else 0;
     Endpoint := if ep then endpoint peer else sockaddr_zero;
     TxBytes := 0; RxBytes := 0; LastHandshake := 0; AllowedIPsCount := aip_count |}.

Definition write_interface (d : wgdevice) : WG_IOCTL_INTERFACE :=
  let key := has_flag (flags d) WGDEVICE_HAS_PRIVATE_KEY in
  let port := has_flag (flags d) WGDEVICE_HAS_LISTEN_PORT in
  let fl := 0 in
  let fl := if key then set_flag fl WG_IOCTL_INTERFACE_HAS_PRIVATE_KEY else fl in
  let fl := if port then set_flag fl WG_IOCTL_INTERFACE_HAS_LISTEN_PORT else fl in
  let fl := if has_flag (flags d) WGDEVICE_REPLACE_PEERS then set_flag fl WG_IOCTL_INTERFACE_REPLACE_PEERS else fl in
  {| IFlags := fl; ListenPort := if port then listen_port d else 0;
     IPrivateKey := if key then private_key d else replicate WG_KEY_LEN 0; IPublicKey := replicate WG_KEY_LEN 0;
     PeersCount := length (peers d) |}.

Section Set_.
Context {HANDLE : Type}.
Variables SIZEOF_INTERFACE SIZEOF_PEER SIZEOF_AIP : Z.
Variable open_handle : bytes → M (Z + HANDLE).
(** Whether WG_IOCTL_SET succeeds with this buffer. *)
Variable ioctl : HANDLE → Z → region → bool.

Definition DWORD_MAX : Z := 2 ^ 32 - 1.
(** [None] is the jump to [out] with EOVERFLOW. *)
Definition add_size (buf_len n : Z) : option Z := if DWORD_MAX - buf_len <? n then None else Some (buf_len + n).
Definition add_peer_size (buf_len : option Z) (p : wgpeer) : option Z :=
  buf_len ← buf_len;
  foldl (λ buf_len _, buf_len ← buf_len; add_size buf_len SIZEOF_AIP) (add_size buf_len SIZEOF_PEER) (allowedips p).
Definition buffer_size (d : wgdevice) : option Z := foldl add_peer_size (Some SIZEOF_INTERFACE) (peers d).

Definition kernel_set_device (d : wgdevice) : M Z :=
  handle ← open_handle (name d);
  match handle with
  | inl errno => mret (- errno)
  | inr handle =>
      match buffer_size d with
      | None => mret (- EOVERFLOW)
      | Some buf_len =>
          wg_iface ← alloc;
          if negb wg_iface then mret (- ENOMEM)
          else
            r ← write_peers SIZEOF_PEER SIZEOF_AIP write_aip write_peer (peers d) 0 (buf_len - SIZEOF_INTERFACE);
            mret (match r with
                  | None => - EOPNOTSUPP
                  | Some cells => if ioctl handle buf_len (write_interface d, cells) then 0 else - EACCES
                  end)
      end
  end.
End Set_.
