(* ===== verification/IpcWindowsSpec.v ===== *)
(** * IpcWindowsSpec: a device through the buffer of Windows, and the adapters

    What [kernel_set_device] writes fits the buffer and is read back by [kernel_get_device]; the
    table of identifiers that a listing leaves gives the adapter that a search would find. *)

From Stdlib Require Import Ascii String.
From stdpp Require Import base numbers option sets list list_numbers strings gmap.
From S2P Require Import Prelude CLib Ctype Encoding Containers Setconf Ipc IpcSpec IpcLinux IpcLinuxSpec IpcLinuxGetSpec IpcLinuxLinksSpec.
From S2P Require Import IpcBSD IpcBSDSpec IpcCells IpcCellsSpec Hashtable IpcWindows.
#[local] Open Scope c_scope.

(** ** The structures *)

(** Both kinds of endpoint are kept; there is no mark. *)
Definition windows_keeps (family : Z) : bool := (family =? AF_INET) || (family =? AF_INET6).
Abbreviation windows_peer_view := (bsd_peer_view windows_keeps).
Definition windows_view (d : wgdevice) : wgdevice :=
  let key := has_flag (flags d) WGDEVICE_HAS_PRIVATE_KEY in
  let port := has_flag (flags d) WGDEVICE_HAS_LISTEN_PORT in
  {| name := name d; ifindex := 0;
     flags := (if port then WGDEVICE_HAS_LISTEN_PORT else 0) .| (if key then WGDEVICE_HAS_PRIVATE_KEY else 0);
     public_key := replicate WG_KEY_LEN 0; private_key := if key then private_key d else replicate WG_KEY_LEN 0;
     fwmark := 0; listen_port := if port then listen_port d else 0;
     peers := windows_peer_view <$> peers d; last_peer := last_pos (windows_peer_view <$> peers d) |}.

Lemma win_read_write_peer p n : peer_ok p → with_ips (ip_view <$> allowedips p) (read_peer (write_peer p 0 n)) = windows_peer_view p.
Proof.
  intros (_ & _ & [He _] & _). unfold read_peer, write_peer, bsd_peer_view, windows_keeps, with_ips.
  destruct (has_flag (p_flags p) WGPEER_HAS_PRESHARED_KEY), (has_flag (p_flags p) WGPEER_HAS_PERSISTENT_KEEPALIVE_INTERVAL),
    (has_flag (p_flags p) WGPEER_REPLACE_ALLOWEDIPS), (has_flag (p_flags p) WGPEER_REMOVE_ME), (key_is_zero (preshared_key p)) eqn:Ek;
  destruct He as [He|[He|He]]; rewrite He; cbn; rewrite ?He, ?Ek; cbn; done.
Qed.

#[export] Instance windows_laws : CellLaws read_aip read_peer AllowedIPsCount write_aip write_peer windows_peer_view.
Proof.
  split; [exact stored_ip|done| |exact win_read_write_peer].
  intros io. unfold read_peer, read_handshake. repeat case_match; done.
Qed.

Lemma win_read_write_interface d :
  (length (name d) < WIN_IFNAMSIZ)%nat →
  with_peers (windows_peer_view <$> peers d) (read_interface (write_interface d) (set_name (dev_name (name d)) wgdevice_zero)) = windows_view d.
Proof.
  intros Hn. unfold dev_name. rewrite take_ge by lia. unfold read_interface, write_interface, windows_view, with_peers.
  destruct (has_flag (flags d) WGDEVICE_HAS_PRIVATE_KEY), (has_flag (flags d) WGDEVICE_HAS_LISTEN_PORT),
    (has_flag (flags d) WGDEVICE_REPLACE_PEERS); done.
Qed.

(** ** The size of the buffer *)

Section Device.
Context {HANDLE : Type} (SIZEOF_INTERFACE SIZEOF_PEER SIZEOF_AIP : Z).
Hypothesis Hsizes : 0 < SIZEOF_INTERFACE <= DWORD_MAX ∧ 0 <= SIZEOF_PEER ∧ 0 <= SIZEOF_AIP.

(** A sum that stops at an overflow. *)
Definition bounded (n : Z) : option Z := if n <=? DWORD_MAX then Some n else None.
Lemma add_size_bounded n k : 0 <= k → (m ← bounded n; add_size m k) = bounded (n + k).
Proof.
  intros Hk. unfold bounded, add_size. destruct (Z.leb_spec n DWORD_MAX); cbn.
  - destruct (Z.ltb_spec (DWORD_MAX - n) k), (Z.leb_spec (n + k) DWORD_MAX); (done || lia).
  - by rewrite (proj2 (Z.leb_gt _ _)) by lia.
Qed.
Lemma add_aips_bounded (ips : list wgallowedip) n :
  foldl (λ m _, m ← m; add_size m SIZEOF_AIP) (bounded n) ips = bounded (n + SIZEOF_AIP * Z.of_nat (length ips)).
Proof using Hsizes.
  revert n. induction ips as [|a ips IH]; intros n; cbn [foldl length]; [by rewrite Z.mul_0_r, Z.add_0_r|].
  rewrite add_size_bounded, IH by lia. f_equal. lia.
Qed.
Lemma add_peers_bounded ps n :
  foldl (add_peer_size SIZEOF_PEER SIZEOF_AIP) (bounded n) ps = bounded (n + peers_size SIZEOF_PEER SIZEOF_AIP ps).
Proof using Hsizes.
  revert n. induction ps as [|p ps IH]; intros n; cbn [foldl]; [by rewrite Z.add_0_r|].
  assert (add_peer_size SIZEOF_PEER SIZEOF_AIP (bounded n) p = bounded (n + SIZEOF_PEER + SIZEOF_AIP * Z.of_nat (length (allowedips p)))) as ->.
  { rewrite <- add_aips_bounded, <- add_size_bounded by lia. unfold add_peer_size. destruct (bounded n) as [m|]; [done|]. cbn.
    by induction (allowedips p). }
  rewrite IH. cbn [peers_size foldr]. fold (peers_size SIZEOF_PEER SIZEOF_AIP ps). f_equal. lia.
Qed.
Lemma buffer_size_exact d :
  buffer_size SIZEOF_INTERFACE SIZEOF_PEER SIZEOF_AIP d = bounded (SIZEOF_INTERFACE + peers_size SIZEOF_PEER SIZEOF_AIP (peers d)).
Proof using Hsizes. unfold buffer_size. rewrite <- add_peers_bounded. unfold bounded at 1. by rewrite (proj2 (Z.leb_le _ _)) by lia. Qed.

Lemma win_set_device_safe open_handle ioctl d :
  (∀ nm, safe (open_handle nm) (λ _ : Z + HANDLE, True)) → safe (kernel_set_device SIZEOF_INTERFACE SIZEOF_PEER SIZEOF_AIP open_handle ioctl d) (λ _, True).
Proof using Hsizes.
  intros Ho. unfold kernel_set_device. eapply safe_bind; [apply Ho|]. intros [e|handle] _; [by apply safe_ret|].
  rewrite buffer_size_exact. unfold bounded. destruct (_ <=? _); [|by apply safe_ret]. cbn beta iota.
  safe_alloc b. destruct b; [|by apply safe_ret]. cbn [negb]. intros o. unfold mbind, M_bind.
  destruct (write_peers_safe (write_aip := write_aip) (write_peer := write_peer) SIZEOF_INTERFACE SIZEOF_PEER SIZEOF_AIP ltac:(lia) (peers d) 0
    (SIZEOF_INTERFACE + peers_size SIZEOF_PEER SIZEOF_AIP (peers d) - SIZEOF_INTERFACE) o) as [r ->]; [lia|by destruct r as [?|]].
Qed.
End Device.

Abbreviation win_cells := (peer_cells (write_aip := write_aip) (write_peer := write_peer)).

(** A driver that has this buffer: it tells its size, and fills one that is large enough. *)
Definition driver_with {HANDLE} (size : Z) (r : region) (_ : HANDLE) (_ : nat) (given : Z) : get_result :=
  if given <? size then MoreData size else Got (Some r).

(** C14: on Windows [kernel_set_device] never writes past its buffer, whatever the device and the allocator. For a well-formed device
    without address flags it hands the driver the buffer of the computed size, or fails with EOVERFLOW when that does
    not fit a DWORD; and [kernel_get_device] reads it back from a driver that has that buffer: every field but the mark, and
    every peer with its endpoint and all its addresses in order. *)
Theorem windows_roundtrip {HANDLE : Type} (SIZEOF_INTERFACE SIZEOF_PEER SIZEOF_AIP : Z) (handle : HANDLE) (d : wgdevice)
    (Hsizes : 0 < SIZEOF_INTERFACE <= DWORD_MAX ∧ 0 <= SIZEOF_PEER ∧ 0 <= SIZEOF_AIP)
    (Hd : device_ok d) (Hplain : Forall (λ p, Forall (λ a, ai_flags a = 0) (allowedips p)) (peers d)) (Hn : (length (name d) < WIN_IFNAMSIZ)%nat) :
  let opens := λ _ : bytes, mret (inr handle) : M (Z + HANDLE) in
  let size := data_size SIZEOF_INTERFACE SIZEOF_PEER SIZEOF_AIP d in
  (∀ dev (open_handle : bytes → M (Z + HANDLE)) ioctl, (∀ nm, safe (open_handle nm) (λ _, True)) →
     safe (kernel_set_device SIZEOF_INTERFACE SIZEOF_PEER SIZEOF_AIP open_handle ioctl dev) (λ _, True)) ∧
  ∃ r, (∀ ioctl, run (kernel_set_device SIZEOF_INTERFACE SIZEOF_PEER SIZEOF_AIP opens ioctl d) =
          Done (if size <=? DWORD_MAX then (if ioctl handle size r then 0 else - EACCES) else - EOVERFLOW)) ∧
    run (kernel_get_device opens (driver_with size r) 2 (name d)) = Done (0, Some (windows_view d)).
Proof.
  intros opens size. assert (Hs : 0 < SIZEOF_INTERFACE ∧ 0 <= SIZEOF_PEER ∧ 0 <= SIZEOF_AIP) by lia.
  split; [intros; by apply win_set_device_safe|]. pose proof (plain_peers_ok d Hd Hplain) as Hps.
  pose proof (peers_size_nonneg SIZEOF_INTERFACE SIZEOF_PEER SIZEOF_AIP Hs (peers d)) as Hnn.
  exists (write_interface d, flat_map win_cells (peers d)). split.
  - intros ioctl. unfold run, kernel_set_device, opens, mbind, M_bind. cbn [mret M_ret].
    rewrite buffer_size_exact, <- data_size_peers by done. fold size. unfold bounded. destruct (size <=? DWORD_MAX); [|done]. cbn [alloc negb].
    rewrite (write_peers_spec SIZEOF_INTERFACE SIZEOF_PEER SIZEOF_AIP Hs) by (done || (unfold size; rewrite data_size_peers; lia)). done.
  - unfold run, kernel_get_device, opens, mbind at 1, M_bind at 1. cbn [mret M_ret fetch]. unfold driver_with.
    assert (0 < size) by (unfold size; rewrite data_size_peers; lia). rewrite (proj2 (Z.ltb_lt 0 size)) by lia. unfold mbind, M_bind. cbn [alloc negb].
    rewrite Z.ltb_irrefl. cbn [mret M_ret]. change (PeersCount (write_interface d)) with (length (peers d)).
    set (dev := read_interface (write_interface d) _). assert (Hdev : dev = with_peers [] dev).
    { unfold dev, read_interface. repeat case_match; done. }
    cbn [alloc negb]. rewrite Hdev, read_peers_spec by done. cbn [app]. unfold dev. rewrite win_read_write_interface by done. done.
Qed.

Lemma windows_roundtrip_witness :
  ∃ r, (∀ ioctl, run (kernel_set_device 80 136 24 (λ _ : bytes, mret (inr tt)) ioctl sample_device) =
          Done (if data_size 80 136 24 sample_device <=? DWORD_MAX then (if ioctl tt (data_size 80 136 24 sample_device) r then 0 else - EACCES) else - EOVERFLOW)) ∧
    run (kernel_get_device (λ _ : bytes, mret (inr tt)) (driver_with (data_size 80 136 24 sample_device) r) 2 (name sample_device)) =
      Done (0, Some (windows_view sample_device)).
Proof.
  apply (windows_roundtrip 80 136 24 tt sample_device);
    [unfold DWORD_MAX; lia|apply sample_sendable|vm_compute; repeat constructor|vm_compute; lia].
Defined.

(** ** The adapters *)

(** An adapter as the setup API describes it: its name, its identifier, and whether it runs. *)
Record adapter := { ad_name : bytes; ad_id : wstring; ad_started : bool }.

Section Adapters.
Context {plat : Platform} {HANDLE : Type} (MAX_ADAPTER_NAME : nat) (utf8 : wstring → option bytes).
Context (interface_list : option wstring → option (list wstring)) (create_file : wstring → option HANDLE).

Definition describes (dev : option device_info) (a : adapter) : Prop :=
  ∃ d w, dev = Some d ∧ name_property d = Some (DEVPROP_TYPE_STRING, w) ∧ w ≠ [] ∧ (length w < MAX_ADAPTER_NAME - 1)%nat ∧
    utf8 w = Some (ad_name a) ∧ interface_name (ad_name a) ∧ started d = ad_started a ∧ instance_id_size d = true ∧ instance_id d = Some (ad_id a).

Lemma described_name d w nm :
  name_property d = Some (DEVPROP_TYPE_STRING, w) → w ≠ [] → (length w < MAX_ADAPTER_NAME - 1)%nat → utf8 w = Some nm →
  adapter_interface_name MAX_ADAPTER_NAME utf8 d [] = Done (Some nm, []).
Proof.
  intros Hp Hw Hl Hu. unfold adapter_interface_name. rewrite Hp. rewrite (proj2 (Nat.leb_gt _ _)) by lia.
  change (negb (DEVPROP_TYPE_STRING =? DEVPROP_TYPE_STRING)) with false. cbn iota. rewrite (proj2 (Nat.eqb_neq _ _)) by lia.
  destruct w; [done|]. by rewrite Hu.
Qed.

Definition running (ads : list adapter) : list bytes := flat_map (λ a, if ad_started a then [ad_name a] else []) ads.
Definition cached (m : gmap bytes (option wstring)) (ads : list adapter) : gmap bytes (option wstring) :=
  foldl (λ m a, <[ad_name a := Some (ad_id a)]> m) m ads.
Fixpoint first_id (iface : bytes) (ads : list adapter) : option wstring :=
  match ads with
  | [] => None
  | a :: ads' => if decide (ad_name a = iface) then Some (ad_id a) else first_id iface ads'
  end.

Lemma first_id_None iface ads : iface ∉ (ad_name <$> ads) → first_id iface ads = None.
Proof. induction ads as [|a ads IH]; [done|]. rewrite fmap_cons, not_elem_of_cons. intros [Hne Hin]. cbn. rewrite decide_False by done. auto. Qed.
Lemma first_id_in iface ads id : first_id iface ads = Some id → ∃ a, a ∈ ads ∧ ad_id a = id.
Proof.
  induction ads as [|a ads IH]; [done|]. cbn. case_decide; [intros [= <-]; exists a; split; [left|done]|].
  intros (a' & ? & ?)%IH. exists a'. split; [by right|done].
Qed.

Lemma cached_lookup iface ads m :
  NoDup (ad_name <$> ads) → cached m ads !! iface = match first_id iface ads with Some id => Some (Some id) | None => m !! iface end.
Proof.
  revert m. induction ads as [|a ads IH]; intros m Hnd; [done|]. rewrite fmap_cons in Hnd. apply NoDup_cons in Hnd as [Hni Hnd].
  unfold cached in *. cbn [foldl first_id]. rewrite IH by done. case_decide as E.
  - subst iface. rewrite first_id_None by done. by rewrite lookup_insert_eq.
  - by rewrite lookup_insert_ne.
Qed.

Lemma add_running l names nm st :
  holds l names → interface_name nm → Z.of_nat (length (names_text (names ++ if st : bool then [nm] else []))) + 1 <= SIZE_MAX →
  ∃ l', (if st then r ← string_list_add l nm; mret r.2 else mret l) [] = Done (l', []) ∧ holds l' (names ++ if st then [nm] else []).
Proof.
  intros Hh [Hne Hc] Hmax. destruct st; [|exists l; by rewrite app_nil_r]. rewrite names_text_app, length_app, names_text_cons in Hmax.
  pose proof (string_list_add_cases l names nm [] Hh Hc ltac:(rewrite (h_len _ _ Hh); lia)) as H. unfold mbind, M_bind.
  destruct (string_list_add l nm []) as [[[r l'] o']| | |]; [|done..].
  destruct H as [(Ho & -> & Hh')|(_ & _ & Hin)]; [|by apply not_elem_of_nil in Hin].
  apply list_nil_subseteq in Ho as ->.
  exists l'. split; [done|]. by destruct nm.
Qed.

Lemma list_adapters_spec devs ads l names h m :
  Forall2 describes devs ads → represents h m → holds l names → Z.of_nat (length (names_text (names ++ running ads))) + 1 <= SIZE_MAX →
  ∃ l' h', list_adapters MAX_ADAPTER_NAME utf8 devs l h [] = Done ((l', h'), []) ∧ holds l' (names ++ running ads) ∧ represents h' (cached m ads).
Proof.
  intros Hds. revert l names h m. induction Hds as [|dev a devs ads Hd _ IH]; intros l names h m Hr Hh Hmax; [exists l, h; by rewrite app_nil_r|].
  destruct Hd as (d & w & -> & Hp & Hw & Hl & Hu & Hin & Hst & Hsz & Hid). cbn [list_adapters running flat_map] in *. fold (running ads) in *.
  unfold mbind at 1, M_bind at 1. rewrite (described_name d w (ad_name a)) by done. rewrite Hst. rewrite app_assoc in Hmax |- *.
  destruct (add_running l names (ad_name a) (ad_started a) Hh Hin) as (l1 & Hl1 & Hh1).
  { rewrite names_text_app, length_app in Hmax. lia. }
  unfold mbind at 1, M_bind at 1. rewrite Hl1.
  destruct (find_or_insert_spec h m (ad_name a) [] Hr) as (r & h' & o' & Hf & Ho & Hres). unfold mbind at 1, M_bind at 1. rewrite Hf.
  apply list_nil_subseteq in Ho as ->.
  destruct r as [p|]; [|destruct Hres as (_ & _ & []%not_elem_of_nil)]. destruct Hres as [Hr' He]. rewrite Hsz. cbn [negb].
  unfold mbind at 1, M_bind at 1. cbn [alloc negb]. rewrite Hid.
  pose proof (store_represents h' _ p _ (Some (ad_id a)) Hr' He) as Hr2. cbn [e_key] in Hr2. rewrite insert_insert_eq in Hr2.
  exact (IH l1 _ _ _ Hr2 Hh1 Hmax).
Qed.

Lemma find_adapter_spec devs ads iface :
  Forall2 describes devs ads → (∀ a, a ∈ ads → ∃ path paths, interface_list (Some (ad_id a)) = Some (path :: paths)) →
  find_adapter MAX_ADAPTER_NAME utf8 interface_list devs iface [] = Done (first_id iface ads ≫= λ id, interface_list (Some id) ≫= head, []).
Proof.
  intros Hds Hpaths. induction Hds as [|dev a devs ads Hd _ IH]; [done|].
  destruct Hd as (d & w & -> & Hp & Hw & Hl & Hu & Hin & Hst & Hsz & Hid). cbn [find_adapter first_id].
  unfold mbind at 1, M_bind at 1. rewrite (described_name d w (ad_name a)) by done. unfold strcmp_eq. case_decide as E.
  - rewrite bool_decide_true by done. cbn [negb]. rewrite Hsz. cbn [negb]. unfold mbind at 1, M_bind at 1. cbn [alloc negb]. rewrite Hid.
    destruct (Hpaths a) as (path & paths & Hpath); [by left|]. unfold get_interfaces. rewrite Hpath. unfold mbind, M_bind. cbn. by rewrite Hpath.
  - rewrite bool_decide_false by done. cbn [negb]. apply IH. intros a' Ha'. apply Hpaths. by right.
Qed.

(** C21: with memory, the listing of the adapters returns the names of those that run, in order, and keeps the identifiers of all of them
    in the table; from then on [kernel_interface_handle] opens for every name what it opens without the table, and for a name
    that no adapter has it searches and fails as before.  Adapters have distinct names that fit, and at least one interface. *)
Theorem windows_cache_agrees (devs : list (option device_info)) (ads : list adapter)
    (Hds : Forall2 describes devs ads) (Hnd : NoDup (ad_name <$> ads))
    (Hpaths : ∀ a, a ∈ ads → ∃ path paths, interface_list (Some (ad_id a)) = Some (path :: paths))
    (Hmax : Z.of_nat (length (names_text (running ads))) + 1 <= SIZE_MAX) :
  ∃ l c, kernel_get_wireguard_interfaces MAX_ADAPTER_NAME utf8 (Some devs) string_list_zero kernel_cache_zero [] = Done ((0, l, c), []) ∧
    holds l (running ads) ∧
    ∀ iface errno,
      run (kernel_interface_handle MAX_ADAPTER_NAME utf8 interface_list create_file errno (Some devs) c iface) =
      run (kernel_interface_handle MAX_ADAPTER_NAME utf8 interface_list create_file errno (Some devs) kernel_cache_zero iface).
Proof.
  destruct (list_adapters_spec devs ads string_list_zero [] hashtable_zero ∅ Hds zero_represents holds_zero Hmax) as (l & h & Hr & Hh & Hm).
  exists l, {| have_cached_kernel_interfaces := true; cached_kernel_interfaces := h |}. split; [|split; [done|]].
  { unfold kernel_get_wireguard_interfaces, mbind, M_bind. cbn [cached_kernel_interfaces kernel_cache_zero]. by rewrite Hr. }
  intros iface errno. unfold kernel_interface_handle. cbn [have_cached_kernel_interfaces cached_kernel_interfaces kernel_cache_zero].
  pose proof (find_entry_spec h _ iface Hm) as Hf. rewrite cached_lookup in Hf by done. rewrite lookup_empty in Hf.
  set (open := λ interfaces, match interfaces with None => inl ENOENT | Some path => match create_file path with Some handle => inr handle | None => inl EACCES end end).
  assert (Hsearch : run (interfaces ← find_adapter MAX_ADAPTER_NAME utf8 interface_list devs iface; mret (open interfaces)) =
            Done (open (first_id iface ads ≫= λ id, interface_list (Some id) ≫= head))).
  { unfold run, mbind, M_bind. by rewrite (find_adapter_spec devs ads iface Hds Hpaths). }
  etransitivity; [|symmetry; exact Hsearch]. destruct (hashtable_find_entry h iface) as [p|]; cbn [mbind option_bind].
  - destruct Hf as (v & _ & -> & Hv). destruct (first_id iface ads) as [id|] eqn:Ei; [|done]. injection Hv as <-.
    apply first_id_in in Ei as (a & Ha & <-). destruct (Hpaths a Ha) as (path & paths & Hpath).
    unfold get_interfaces. cbn [e_value]. rewrite Hpath. cbn [option_bind mbind]. rewrite Hpath. done.
  - destruct (first_id iface ads) as [id|]; [done|]. exact Hsearch.
Qed.
End Adapters.

(** ** Sample adapters *)

Definition wide : wstring → option bytes := Some.
Definition sample_adapter (nm : wstring) (id : option wstring) : device_info := {| name_property := Some (DEVPROP_TYPE_STRING, nm); devnode_status := Some 0xa; instance_id_size := true; instance_id := id |}.
(** Every identifier has one interface; the whole class begins with that of another adapter. *)
Definition sample_interfaces (id : option wstring) : option (list wstring) := Some [match id with Some id => id | None => str "ethernet" end].

Lemma windows_cache_agrees_witness :
  ∃ l c, kernel_get_wireguard_interfaces (plat := x86_64) 128 wide (Some [Some (sample_adapter (str "wg0") (Some (str "id0")))]) string_list_zero kernel_cache_zero [] =
      Done ((0, l, c), []) ∧ holds (plat := x86_64) l [str "wg0"] ∧
    ∀ iface errno, run (kernel_interface_handle (plat := x86_64) 128 wide sample_interfaces Some errno (Some [Some (sample_adapter (str "wg0") (Some (str "id0")))]) c iface) =
      run (kernel_interface_handle (plat := x86_64) 128 wide sample_interfaces Some errno (Some [Some (sample_adapter (str "wg0") (Some (str "id0")))]) kernel_cache_zero iface).
Proof.
  apply (windows_cache_agrees (plat := x86_64) 128 wide sample_interfaces Some
    [Some (sample_adapter (str "wg0") (Some (str "id0")))] [{| ad_name := str "wg0"; ad_id := str "id0"; ad_started := true |}]).
  - repeat constructor. eexists _, _. split_and!; [reflexivity|reflexivity|discriminate|vm_compute; lia|reflexivity|split; [discriminate|reflexivity]|reflexivity..].
  - apply NoDup_singleton.
  - intros a _. by eexists _, _.
  - vm_compute. discriminate.
Defined.

(** When the identifier of an adapter cannot be read, its entry stays in the table with a null value, and asking for the
    interfaces of the null pointer gives those of the whole class: another adapter is opened. *)
Example windows_null_identifier :
  let devs := Some [Some (sample_adapter (str "wg0") None)] in
  match run (kernel_get_wireguard_interfaces (plat := x86_64) 128 wide devs string_list_zero kernel_cache_zero) with
  | Done (_, _, c) => run (kernel_interface_handle (plat := x86_64) 128 wide sample_interfaces Some 0 devs c (str "wg0"))
  | _ => Undefined
  end = Done (inr (str "ethernet")).
Proof. vm_compute. reflexivity. Qed.

(** A name of 127 units loses its NUL. *)
Example windows_long_adapter_name :
  run (kernel_get_wireguard_interfaces (plat := x86_64) 128 wide (Some [Some (sample_adapter (replicate 127 97) None)]) string_list_zero kernel_cache_zero) = Undefined.
Proof. vm_compute. reflexivity. Qed.

(** When the devices cannot be listed, [errno] is not set, and 0 is returned without a device. *)
Example windows_stale_errno :
  run (kernel_get_device (kernel_interface_handle (plat := x86_64) 128 wide sample_interfaces Some 0 None kernel_cache_zero) (λ _ _ _, GetFailed) 1 (str "wg0")) = Done (0, None).
Proof. vm_compute. reflexivity. Qed.
