(* ===== verification/IpcUapiWindows.v ===== *)
(** * IpcUapiWindows: ipc-uapi-windows.h, daemons behind named pipes

    The pipes of the system are listed by their names; the names of the interfaces are
    kept in a hash table for the calls to come.  A pipe is used only when the
    local system owns it. *)

From Stdlib Require Import Ascii String.
From stdpp Require Import base numbers option sets list list_numbers strings gmap.
From S2P Require Import Prelude CLib Ctype Encoding Containers Setconf Ipc IpcSpec IpcLinux IpcLinuxSpec IpcLinuxGetSpec IpcLinuxLinksSpec IpcWindows Hashtable.
#[local] Open Scope c_scope.

Definition EIO : Z := 5.
Definition MAX_PATH : nat := 260.
Definition pipe_prefix : bytes := str "ProtectedPrefix\Administrators\WireGuard\".

(** A pipe: its owner, unless that cannot be asked for; the [errno] of making a file of it, 0 for none; and what the
    daemon behind it answers. *)
Record pipe := { pipe_owner : option bytes; osfhandle_errno : Z; fdopen_errno : Z; pipe_reply : bytes → bytes }.

Section File.
(** The identifier of the local system, unless [CreateWellKnownSid] fails, and [CreateFileA]. *)
Variable expected_sid : option bytes.
Variable create_file : bytes → option pipe.

(** [snprintf(fname, sizeof(fname), ...)] *)
Definition pipe_path (iface : bytes) : bytes := take (MAX_PATH - 1) (str "\\.\pipe\" ++ pipe_prefix ++ iface).

Definition userspace_interface_file (iface : bytes) : Z + (bytes → bytes) :=
  match expected_sid with
  | None => inl EACCES
  | Some sid =>
      match create_file (pipe_path iface) with
      | None => inl EACCES
      | Some p =>
          match pipe_owner p with
          | None => inl EACCES
          | Some owner =>
              if negb (bool_decide (sid = owner)) then inl EACCES
              else if truthy (osfhandle_errno p) then inl (osfhandle_errno p)
              else if truthy (fdopen_errno p) then inl (fdopen_errno p)
              else inr (pipe_reply p)
          end
      end
  end.
End File.

(** [have_cached_interfaces] and [cached_interfaces], whose values are never set. *)
Record pipe_cache := { have_cached_interfaces : bool; cached_interfaces : hashtable unit }.
Definition pipe_cache_zero : pipe_cache := {| have_cached_interfaces := false; cached_interfaces := hashtable_zero |}.

Section Pipes.
Context {plat : Platform}.
(** What [FindFirstFile] and [FindNextFile] give: the first name and the others, or INVALID_HANDLE_VALUE. *)
Variable pipes : option (bytes * list bytes).

(** The -EIO of a listing that fails is returned as a [bool]. *)
Definition userspace_has_wireguard_interface (c : pipe_cache) (iface : bytes) : bool :=
  if have_cached_interfaces c then bool_decide (is_Some (hashtable_find_entry (cached_interfaces c) iface))
  else
    let fname := take (MAX_PATH - 1) (pipe_prefix ++ iface) in
    match pipes with
    | None => truthy (- EIO)
    | Some (first, rest) => existsb (strcmp_eq fname) (first :: rest)
    end.

(** [find_data.cFileName + strlen(prefix)], for a name that begins with the prefix. *)
Definition pipe_iface (file : bytes) : option bytes :=
  if bool_decide (take (length pipe_prefix) file = pipe_prefix) then Some (drop (length pipe_prefix) file) else None.

Fixpoint pipes_loop (files : list bytes) (ret : Z) (l : string_list) (c : pipe_cache) : M (Z * string_list * pipe_cache) :=
  match files with
  | [] => mret (ret, l, {| have_cached_interfaces := true; cached_interfaces := cached_interfaces c |})
  | file :: files' =>
      match pipe_iface file with
      | None => pipes_loop files' ret l c
      | Some iface =>
          r ← string_list_add l iface;
          if r.1 <? 0 then mret (r.1, r.2, c)
          else
            e ← hashtable_find_or_insert_entry (cached_interfaces c) iface;
            let c := {| have_cached_interfaces := have_cached_interfaces c; cached_interfaces := e.2 |} in
            if e.1 is Some _ then pipes_loop files' r.1 r.2 c else mret (- ENOMEM, r.2, c)
      end
  end.

Definition userspace_get_wireguard_interfaces (l : string_list) (c : pipe_cache) : M (Z * string_list * pipe_cache) :=
  match pipes with
  | None => mret (- EIO, l, c)
  | Some (first, rest) => pipes_loop (first :: rest) 0 l c
  end.
End Pipes.

(** ** A listing and the search agree *)

Section Agree.
Context {plat : Platform}.

Definition pipe_ifaces (files : list bytes) : list bytes := omap pipe_iface files.
(** The empty name is not put into the list. *)
Definition listed (files : list bytes) : list bytes := flat_map (λ s, if s is [] then [] else [s]) (pipe_ifaces files).

Lemma pipe_iface_Some file iface : pipe_iface file = Some iface ↔ file = pipe_prefix ++ iface.
Proof.
  unfold pipe_iface. case_bool_decide as E; split; intros H; try done.
  - injection H as <-. by rewrite <- E, take_drop at 1.
  - subst. by rewrite drop_app_length.
  - subst. by rewrite take_app_length in E.
Qed.

Lemma pipes_loop_spec files l names c m :
  Forall (λ f, cstring f = true) files → holds l names → represents (cached_interfaces c) m →
  Z.of_nat (length (names_text (names ++ listed files))) + 2 <= SIZE_MAX →
  ∃ l' h m', pipes_loop files 0 l c [] = Done ((0, l', {| have_cached_interfaces := true; cached_interfaces := h |}), []) ∧
    holds l' (names ++ listed files) ∧ represents h m' ∧ ∀ k, is_Some (m' !! k) ↔ is_Some (m !! k) ∨ k ∈ pipe_ifaces files.
Proof.
  intros Hf. revert l names c m. induction Hf as [|f files Hc _ IH]; intros l names c m Hh Hr Hmax.
  { exists l, (cached_interfaces c), m. split; [done|]. cbn. rewrite app_nil_r. split; [done|]. split; [done|]. set_solver. }
  cbn [pipes_loop]. unfold listed, pipe_ifaces in *. cbn [omap list_omap] in *. destruct (pipe_iface f) as [iface|] eqn:Ei; [|by apply IH].
  cbn [flat_map] in *. rewrite app_assoc in Hmax |- *. apply pipe_iface_Some in Ei as ->.
  assert (Hci : cstring iface = true) by (unfold cstring in *; by rewrite forallb_app, andb_true_iff in Hc; destruct Hc).
  pose proof (string_list_add_cases l names iface [] Hh Hci) as H. rewrite (h_len _ _ Hh) in H.
  rewrite names_text_app, length_app in Hmax. specialize (H ltac:(rewrite names_text_app, length_app in Hmax; destruct iface; [cbn in *; lia|rewrite names_text_cons in Hmax; lia])).
  unfold mbind at 1, M_bind at 1. destruct (string_list_add l iface []) as [[[r l'] o']| | |]; [|done..].
  destruct H as [(Ho & -> & Hh')|(_ & _ & []%not_elem_of_nil)]. apply list_nil_subseteq in Ho as ->. cbn [fst snd]. change (0 <? 0) with false. cbn iota.
  destruct (find_or_insert_spec (cached_interfaces c) m iface [] Hr) as (e & h & o' & He & Ho & Hres). unfold mbind at 1, M_bind at 1. rewrite He.
  apply list_nil_subseteq in Ho as ->. destruct e as [p|]; [|destruct Hres as (_ & _ & []%not_elem_of_nil)]. destruct Hres as [Hr' _]. cbn [fst snd].
  destruct (IH l' _ {| have_cached_interfaces := have_cached_interfaces c; cached_interfaces := h |} _ Hh' Hr') as (l2 & h2 & m2 & Hl2 & Hh2 & Hr2 & Hm2).
  { rewrite names_text_app, length_app. lia. }
  exists l2, h2, m2. split; [exact Hl2|]. split; [done|]. split; [done|]. intros k. rewrite Hm2, elem_of_cons.
  destruct (decide (iface = k)) as [->|Hne].
  - rewrite lookup_insert_eq. split; [intros _; by right; left|intros _; left; by eexists].
  - rewrite lookup_insert_ne by done. split; [intros [?|?]; auto|intros [?|[?|?]]; [by left|congruence|by right]].
Qed.

(** With memory, the listing of the pipes returns the interfaces of all pipes below the prefix, in order, and from then on
    [userspace_has_wireguard_interface] answers from the table what the search of the pipes answers, for every name
    whose pipe has a path that fits. *)
Theorem pipe_cache_agrees (first : bytes) (rest : list bytes)
    (Hf : Forall (λ f, cstring f = true) (first :: rest))
    (Hmax : Z.of_nat (length (names_text (listed (first :: rest)))) + 2 <= SIZE_MAX) :
  ∃ l c, userspace_get_wireguard_interfaces (Some (first, rest)) string_list_zero pipe_cache_zero [] = Done ((0, l, c), []) ∧
    holds l (listed (first :: rest)) ∧
    ∀ iface, (length (pipe_prefix ++ iface) < MAX_PATH)%nat →
      userspace_has_wireguard_interface (Some (first, rest)) c iface = userspace_has_wireguard_interface (Some (first, rest)) pipe_cache_zero iface.
Proof.
  destruct (pipes_loop_spec (first :: rest) string_list_zero [] pipe_cache_zero ∅ Hf holds_zero zero_represents Hmax) as (l & h & m & Hl & Hh & Hr & Hm).
  eexists l, _. split; [exact Hl|]. split; [exact Hh|]. intros iface Hlen. unfold userspace_has_wireguard_interface.
  cbn [have_cached_interfaces cached_interfaces pipe_cache_zero]. rewrite take_ge by lia. apply eq_bool_prop_intro. rewrite bool_decide_spec.
  assert (Hfind : is_Some (hashtable_find_entry h iface) ↔ is_Some (m !! iface)).
  { pose proof (find_entry_spec h m iface Hr) as H. destruct (hashtable_find_entry h iface) as [p|].
    - destruct H as (v & _ & _ & ->). split; by eexists.
    - rewrite H. split; by intros [??]. }
  rewrite Hfind, Hm, lookup_empty. rewrite Is_true_true, existsb_exists. split.
  - intros [[? [=]]|Hin]. unfold pipe_ifaces in Hin. apply list_elem_of_omap in Hin as (f & Hin & ->%pipe_iface_Some).
    exists (pipe_prefix ++ iface). split; [by apply list_elem_of_In|]. unfold strcmp_eq. by apply bool_decide_true.
  - intros (f & Hin & Heq). unfold strcmp_eq in Heq. apply bool_decide_eq_true in Heq as <-. right. unfold pipe_ifaces. apply list_elem_of_omap.
    exists (pipe_prefix ++ iface). split; [by apply list_elem_of_In|]. by apply pipe_iface_Some.
Qed.
End Agree.

Lemma pipe_cache_agrees_witness :
  let files := (str "mojo", [pipe_prefix ++ str "wg0"]) in
  ∃ l c, userspace_get_wireguard_interfaces (plat := x86_64) (Some files) string_list_zero pipe_cache_zero [] = Done ((0, l, c), []) ∧
    holds (plat := x86_64) l (listed (files.1 :: files.2)) ∧
    ∀ iface, (length (pipe_prefix ++ iface) < MAX_PATH)%nat →
      userspace_has_wireguard_interface (plat := x86_64) (Some files) c iface =
      userspace_has_wireguard_interface (plat := x86_64) (Some files) pipe_cache_zero iface.
Proof.
  apply (pipe_cache_agrees (plat := x86_64) (str "mojo") [pipe_prefix ++ str "wg0"]); [repeat constructor|vm_compute; discriminate].
Defined.

(** A daemon is spoken to only through a pipe that the local system owns. *)
Theorem interface_file_owner expected_sid create_file iface reply :
  userspace_interface_file expected_sid create_file iface = inr reply →
  ∃ p, create_file (pipe_path iface) = Some p ∧ is_Some expected_sid ∧ pipe_owner p = expected_sid ∧ reply = pipe_reply p.
Proof.
  unfold userspace_interface_file. destruct expected_sid as [sid|]; [|done]. destruct (create_file _) as [p|]; [|done].
  destruct (pipe_owner p) as [owner|] eqn:Eo; [|done]. case_bool_decide as E; [|done]. cbn [negb]. do 2 (destruct (truthy _); [done|]).
  intros [= <-]. exists p. subst. split_and!; [done|by eexists|done|done].
Qed.

(** When the pipes cannot be listed, every interface is taken for one of a daemon. *)
Example pipes_unlisted_has : userspace_has_wireguard_interface (plat := x86_64) None pipe_cache_zero (str "wg0") = true.
Proof. reflexivity. Qed.
