(* ===== verification/ElfCleaner.v ===== *)
(** * ElfCleaner: elf-cleaner, which the build runs on libwg.so and libwg-quick.so

    elf-cleaner.cpp maps a file into memory and takes out of its headers what older versions
    of Android complain about.  The file is its bytes, fields are read and written at their
    offsets, and an access outside of the file is undefined.  The template
    [process_elf] is a function of the layout of the structures of elf.h. *)

From Stdlib Require Import Ascii String.
From stdpp Require Import base numbers option sets list list_numbers strings gmap.
From S2P Require Import Prelude CLib Ctype Encoding Containers Setconf Field25519 Ipc Quick.
#[local] Open Scope c_scope.

(** ** elf.h *)

(** The size of [ElfWord], and the offsets and sizes of the fields that are used. *)
Record elf_layout := {
  word_size : Z;
  e_phoff_at : Z; e_shoff_at : Z; e_phnum_at : Z; e_shnum_at : Z;
  phdr_size : Z; p_align_at : Z;
  shdr_size : Z; sh_offset_at : Z; sh_size_at : Z;
}.
Definition Elf32 : elf_layout :=
  {| word_size := 4; e_phoff_at := 28; e_shoff_at := 32; e_phnum_at := 44; e_shnum_at := 48;
     phdr_size := 32; p_align_at := 28; shdr_size := 40; sh_offset_at := 16; sh_size_at := 20 |}.
Definition Elf64 : elf_layout :=
  {| word_size := 8; e_phoff_at := 32; e_shoff_at := 40; e_phnum_at := 56; e_shnum_at := 60;
     phdr_size := 56; p_align_at := 48; shdr_size := 64; sh_offset_at := 24; sh_size_at := 32 |}.
Definition dyn_size (L : elf_layout) : Z := 2 * word_size L.
Definition SIZEOF_Elf32_Ehdr : Z := 52.

Definition PT_TLS : Z := 7.
Definition SHT_NULL : Z := 0.
Definition SHT_DYNAMIC : Z := 6.
Definition SHT_GNU_verdef : Z := 0x6ffffffd.
Definition SHT_GNU_verneed : Z := 0x6ffffffe.
Definition SHT_GNU_versym : Z := 0x6fffffff.
Definition DT_NULL : Z := 0.
Definition DT_RPATH : Z := 15.
Definition DT_RUNPATH : Z := 29.
Definition DT_GNU_HASH : Z := 0x6ffffef5.
Definition DT_VERSYM : Z := 0x6ffffff0.
Definition DT_FLAGS_1 : Z := 0x6ffffffb.
Definition DT_VERDEF : Z := 0x6ffffffc.
Definition DT_VERDEFNUM : Z := 0x6ffffffd.
Definition DT_VERNEEDED : Z := 0x6ffffffe.
Definition DT_VERNEEDNUM : Z := 0x6fffffff.
Definition DT_AARCH64_BTI_PLT : Z := 0x70000001.
Definition DT_AARCH64_PAC_PLT : Z := 0x70000003.
Definition DT_AARCH64_VARIANT_PCS : Z := 0x70000005.
Definition DF_1_NOW : Z := 1.
Definition DF_1_GLOBAL : Z := 2.
Definition DF_1_NODELETE : Z := 8.

(** ** Memory *)

Definition get_field (b : bytes) (off n : Z) : M Z :=
  if (0 <=? off) && (off + n <=? Z.of_nat (length b)) then mret (le_value (take (Z.to_nat n) (drop (Z.to_nat off) b))) else undefined.
Definition put_field (b : bytes) (off n v : Z) : M bytes :=
  if (0 <=? off) && (off + n <=? Z.of_nat (length b))
  then mret (take (Z.to_nat off) b ++ le_bytes (Z.to_nat n) v ++ drop (Z.to_nat (off + n)) b) else undefined.

(** [ElfDynamicSectionEntryType] *)
Record dyn := { d_tag : Z; d_val : Z }.

(** ** The dynamic section *)

(** The globals, as [main] sets them. *)
Record options := { api_level : Z; dry_run : bool }.
Definition supported_dt_flags_1 (o : options) : Z :=
  if 23 <=? api_level o then DF_1_NOW .| DF_1_GLOBAL .| DF_1_NODELETE else DF_1_NOW .| DF_1_GLOBAL.

Section Dynamic.
Variable opts : options.
Variable is_aarch64 : bool.

(** The switch: whether [removed_name] is set. *)
Definition removed (tag : Z) : bool :=
  if (tag =? DT_GNU_HASH) || (tag =? DT_VERSYM) || (tag =? DT_VERNEEDED) || (tag =? DT_VERNEEDNUM) || (tag =? DT_VERDEF) || (tag =? DT_VERDEFNUM)
  then api_level opts <? 23
  else if tag =? DT_RPATH then true
  else if tag =? DT_RUNPATH then api_level opts <? 24
  else if (tag =? DT_AARCH64_BTI_PLT) || (tag =? DT_AARCH64_PAC_PLT) || (tag =? DT_AARCH64_VARIANT_PCS)
  then is_aarch64 && (api_level opts <? 31)
  else false.

(** [std::swap(dynamic_section[j], dynamic_section[k])] *)
Definition swap (es : list dyn) (j k : nat) : option (list dyn) :=
  a ← es !! j;
  b ← es !! k;
  Some (<[j := b]> (<[k := a]> es)).

(** The first loop, from [j] down to 1. *)
Fixpoint last_nonnull_entry_idx (es : list dyn) (j : nat) : nat :=
  match j with
  | O => O
  | S j' => if d_tag (default {| d_tag := 0; d_val := 0 |} (es !! j)) =? DT_NULL then last_nonnull_entry_idx es j' else j
  end.

(** The second loop.  A removal leaves [j] where it is, as [j--] is followed by [j++], which also
    holds when [j] was 0; [last_nonnull_entry_idx] wraps around below 0. *)
Fixpoint clean_loop (fuel : nat) (es : list dyn) (j : nat) (last : Z) : M (list dyn) :=
  match fuel with
  | O => out_of_fuel
  | S fuel' =>
      match es !! j with
      | None => mret es
      | Some e =>
          if removed (d_tag e) then
            let es := if dry_run opts then es else <[j := {| d_tag := DT_NULL; d_val := d_val e |}]> es in
            if Z.of_nat (length es) <=? last then undefined
            else match swap es j (Z.to_nat last) with
            | None => undefined
            | Some es => clean_loop fuel' es j (u32 (last - 1))
            end
          else if d_tag e =? DT_FLAGS_1 then
            let v := d_val e .& supported_dt_flags_1 opts in
            clean_loop fuel' (if dry_run opts || (v =? d_val e) then es else <[j := {| d_tag := d_tag e; d_val := v |}]> es) (S j) last
          else clean_loop fuel' es (S j) last
      end
  end.

(** The body for a section of type SHT_DYNAMIC.  Without entries the first loop begins at the entry 2^32 - 1, which is not in the file. *)
Definition clean_dynamic (es : list dyn) : M (list dyn) :=
  match es with
  | [] => undefined
  | _ => clean_loop (2 * length es + 2) es 0 (Z.of_nat (last_nonnull_entry_idx es (length es - 1)))
  end.
End Dynamic.

(** ** process_elf *)

Section Process.
Context {plat : Platform}.
Variable L : elf_layout.
Variable opts : options.

Fixpoint load_dyns (b : bytes) (off : Z) (n : nat) : M (list dyn) :=
  match n with
  | O => mret []
  | S n' =>
      tag ← get_field b off (word_size L);
      val ← get_field b (off + word_size L) (word_size L);
      es ← load_dyns b (off + dyn_size L) n';
      mret ({| d_tag := tag; d_val := val |} :: es)
  end.
Fixpoint store_dyns (b : bytes) (off : Z) (es : list dyn) : M bytes :=
  match es with
  | [] => mret b
  | e :: es' =>
      b ← put_field b off (word_size L) (d_tag e);
      b ← put_field b (off + word_size L) (word_size L) (d_val e);
      store_dyns b (off + dyn_size L) es'
  end.

(** The program headers from [i] on: [e_phnum] is read again in every turn. *)
Fixpoint tls_loop (fuel : nat) (b : bytes) (e_phoff i : Z) : M bytes :=
  match fuel with
  | O => out_of_fuel
  | S fuel' =>
      e_phnum ← get_field b (e_phnum_at L) 2;
      if negb (i <? e_phnum) then mret b
      else
        let entry := e_phoff + i * phdr_size L in
        p_type ← get_field b entry 4;
        p_align ← get_field b (entry + p_align_at L) (word_size L);
        b ← (if (p_type =? PT_TLS) && (p_align <? word_size L * 8) && negb (dry_run opts)
             then put_field b (entry + p_align_at L) (word_size L) (word_size L * 8) else mret b);
        tls_loop fuel' b e_phoff (i + 1)
  end.

(** The section headers from [i] on.  The end of a dynamic section is computed in the type of its
    offset and size, which has 32 bits in a 32-bit file. *)
Fixpoint section_loop (fuel : nat) (is_aarch64 : bool) (b : bytes) (e_shoff i : Z) : M (bool * bytes) :=
  match fuel with
  | O => out_of_fuel
  | S fuel' =>
      e_shnum ← get_field b (e_shnum_at L) 2;
      if negb (i <? e_shnum) then mret (true, b)
      else
        let entry := e_shoff + i * shdr_size L in
        sh_type ← get_field b (entry + 4) 4;
        if sh_type =? SHT_DYNAMIC then
          sh_offset ← get_field b (entry + sh_offset_at L) (word_size L);
          sh_size ← get_field b (entry + sh_size_at L) (word_size L);
          if Z.of_nat (length b) <? size ((sh_offset + sh_size) mod 256 ^ word_size L) then mret (false, b)
          else
            es ← load_dyns b sh_offset (Z.to_nat (sh_size / dyn_size L));
            es ← clean_dynamic opts is_aarch64 es;
            b ← store_dyns b sh_offset es;
            section_loop fuel' is_aarch64 b e_shoff (i + 1)
        else if (api_level opts <? 23) && ((sh_type =? SHT_GNU_verdef) || (sh_type =? SHT_GNU_verneed) || (sh_type =? SHT_GNU_versym)) then
          b ← (if negb (dry_run opts) then put_field b (entry + 4) 4 SHT_NULL else mret b);
          section_loop fuel' is_aarch64 b e_shoff (i + 1)
        else section_loop fuel' is_aarch64 b e_shoff (i + 1)
  end.

(** The counts have 16 bits. *)
Definition loop_fuel : nat := Z.to_nat 65536.

Definition process_elf (b : bytes) : M (bool * bytes) :=
  if Z.of_nat (length b) <? shdr_size L then mret (false, b)
  else
    e_machine ← get_field b 18 2;
    e_phoff ← get_field b (e_phoff_at L) (word_size L);
    e_phnum ← get_field b (e_phnum_at L) 2;
    if Z.of_nat (length b) <? size (e_phoff + phdr_size L * e_phnum) then mret (false, b)
    else
      b ← tls_loop loop_fuel b e_phoff 1;
      e_shoff ← get_field b (e_shoff_at L) (word_size L);
      e_shnum ← get_field b (e_shnum_at L) 2;
      if Z.of_nat (length b) <? size (e_shoff + shdr_size L * e_shnum) then mret (false, b)
      else section_loop loop_fuel (e_machine =? 183) b e_shoff 1.
End Process.

(** ** Files and arguments *)

(** A file that can be opened: its contents, and which of the other calls fail. *)
Record file := { contents : bytes; fstat_fails : bool; mmap_fails : bool; msync_fails : bool; close_fails : bool }.

Section Main.
Context {plat : Platform}.

(** The result, and the contents that are left. *)
Definition parse_file (opts : options) (f : file) : M (Z * bytes) :=
  let b := contents f in
  let closed := if close_fails f then 1 else 0 in
  if fstat_fails f then mret (1, b)
  else if Z.of_nat (length b) <? SIZEOF_Elf32_Ehdr then mret (closed, b)
  else if mmap_fails f then mret (1, b)
  else if negb ((at_ b 0 =? 0x7f) && (at_ b 1 =? ch "E") && (at_ b 2 =? ch "L") && (at_ b 3 =? ch "F")) then mret (closed, b)
  else if negb (at_ b 5 =? 1) then mret (closed, b)
  else if (at_ b 4 =? 1) || (at_ b 4 =? 2) then
    r ← process_elf (if at_ b 4 =? 1 then Elf32 else Elf64) opts b;
    mret (if negb r.1 then 1 else if msync_fails f then 1 else 0, r.2)
  else mret (1, b).

(** The next argument is [sstr], or at least [minlen] characters of [lstr]: whether it is, the value
    stored through [valptr], and [*skipptr].  [argv[argc]] is the null pointer. *)
Definition argmatch (argv : list bytes) (sstr lstr : bytes) (minlen : nat) (valptr : bool) (skip : nat) : M (bool * option Z * nat) :=
  match argv !! (skip + 1)%nat with
  | None => mret (false, None, skip)
  | Some arg =>
      if strcmp_eq arg sstr then
        if valptr then
          match argv !! (skip + 2)%nat with
          | None => undefined
          | Some v => mret (true, Some (atoi v), (skip + 2)%nat)
          end
        else mret (true, None, (skip + 1)%nat)
      else
        let p := if valptr then index_of (Z.eqb (ch "=")) arg else None in
        let arglen := default (length arg) p in
        if (arglen <? minlen)%nat || negb (bool_decide (take arglen arg = take arglen lstr)) then mret (false, None, skip)
        else if negb valptr then mret (true, None, (skip + 1)%nat)
        else match p with
        | Some i => mret (true, Some (atoi (drop (S i) arg)), (skip + 1)%nat)
        | None =>
            match argv !! (skip + 2)%nat with
            | Some v => mret (true, Some (atoi v), (skip + 2)%nat)
            | None => mret (false, None, skip)
            end
        end
  end.

(** The files, by name; one that is missing cannot be opened. *)
Fixpoint parse_files (opts : options) (names : list bytes) (fs : gmap bytes file) : M (Z * gmap bytes file) :=
  match names with
  | [] => mret (0, fs)
  | name :: names' =>
      match fs !! name with
      | None => mret (1, fs)
      | Some f =>
          r ← parse_file opts f;
          let fs := <[name := {| contents := r.2; fstat_fails := fstat_fails f; mmap_fails := mmap_fails f;
                                 msync_fails := msync_fails f; close_fails := close_fails f |}]> fs in
          if truthy r.1 then mret (1, fs) else parse_files opts names' fs
      end
  end.

Definition main (argv : list bytes) (fs : gmap bytes file) : M (Z * gmap bytes file) :=
  '(help, _, _) ← argmatch argv (str "-help") (str "--help") 3 false 0;
  if (length argv =? 1)%nat || help then mret (0, fs)
  else
    '(version, _, _) ← argmatch argv (str "-version") (str "--version") 3 false 0;
    if (version : bool) then mret (0, fs)
    else
      '(_, api, skip) ← argmatch argv (str "-api-level") (str "--api-level") 3 true 0;
      '(dry, _, skip) ← argmatch argv (str "-dry-run") (str "--dry-run") 3 false skip;
      '(_, _, skip) ← argmatch argv (str "-quiet") (str "--quiet") 3 false skip;
      parse_files {| api_level := default 21 api; dry_run := dry |} (drop (S skip) argv) fs.
End Main.
