(* ===== verification/ElfCleanerSpec.v ===== *)
(** * ElfCleanerSpec: what elf-cleaner leaves of a dynamic section

    The loop that moves unsupported entries to the end keeps everything else. *)

From Stdlib Require Import Ascii String.
From stdpp Require Import base numbers option sets list list_numbers strings gmap.
From S2P Require Import Prelude CLib Ctype Encoding Containers Setconf Field25519 Ipc Quick ElfCleaner.
#[local] Open Scope c_scope.

Section Dynamic.
Context (opts : options) (is_aarch64 : bool).

(** What becomes of one entry. *)
Definition clean_entry (e : dyn) : dyn :=
  if removed opts is_aarch64 (d_tag e) then {| d_tag := DT_NULL; d_val := d_val e |}
  else if d_tag e =? DT_FLAGS_1 then {| d_tag := d_tag e; d_val := d_val e .& supported_dt_flags_1 opts |}
  else e.

Lemma removed_null : removed opts is_aarch64 DT_NULL = false.
Proof. reflexivity. Qed.
Lemma removed_flags : removed opts is_aarch64 DT_FLAGS_1 = false.
Proof. reflexivity. Qed.
Lemma clean_null v : clean_entry {| d_tag := DT_NULL; d_val := v |} = {| d_tag := DT_NULL; d_val := v |}.
Proof. reflexivity. Qed.
Lemma clean_masked e v : d_tag e = DT_FLAGS_1 → v = d_val e .& supported_dt_flags_1 opts →
  clean_entry {| d_tag := d_tag e; d_val := v |} = {| d_tag := d_tag e; d_val := v |}.
Proof.
  intros Ht ->. unfold clean_entry. cbn [d_tag d_val]. rewrite Ht, removed_flags, Z.eqb_refl. f_equal.
  by rewrite <- Z.land_assoc, Z.land_diag.
Qed.

(** A change of an entry that comes to the same. *)
Lemma clean_insert (es : list dyn) (j : nat) e e' : es !! j = Some e → clean_entry e' = clean_entry e → clean_entry <$> <[j := e']> es = clean_entry <$> es.
Proof. intros Hj He. rewrite list_fmap_insert, He. apply list_insert_id. by rewrite list_lookup_fmap, Hj. Qed.

Lemma swap_spec (es : list dyn) j k a b :
  es !! j = Some a → es !! k = Some b →
  ∃ es', swap es j k = Some es' ∧ es' ≡ₚ es ∧ length es' = length es ∧
    ∀ i, es' !! i = if decide (i = j) then Some b else if decide (i = k) then Some a else es !! i.
Proof.
  intros Ha Hb. unfold swap. rewrite Ha, Hb. eexists. split; [done|]. split; [by apply Permutation_insert_swap|].
  rewrite !length_insert. split; [done|]. intros i. case_decide; [subst; apply list_lookup_insert_eq; rewrite length_insert; by eapply lookup_lt_Some|].
  rewrite list_lookup_insert_ne by done. case_decide; [subst; apply list_lookup_insert_eq; by eapply lookup_lt_Some|]. by apply list_lookup_insert_ne.
Qed.

(** ** The loop *)

(** Behind [last] there is only DT_NULL, and what is before [j] is clean. *)
Definition nulls_after (last : Z) (es : list dyn) : Prop := ∀ i e, es !! i = Some e → last < Z.of_nat i → d_tag e = DT_NULL.
Definition no_nulls_to (last : Z) (es : list dyn) : Prop := ∀ i e, es !! i = Some e → Z.of_nat i <= last → d_tag e ≠ DT_NULL.
Definition clean_before (j : nat) (es : list dyn) : Prop := ∀ i e, es !! i = Some e → (i < j)%nat → clean_entry e = e.
(** Entries first, then DT_NULL: what a linker reads up to the first DT_NULL is everything. *)
Definition terminated (es : list dyn) : Prop := ∃ last, no_nulls_to last es ∧ nulls_after last es.

(** The loop is done with an entry, and has kept the order of nulls and others. *)
Definition cleaned (es es' : list dyn) (last : Z) : Prop :=
  clean_entry <$> es' = es' ∧ es' ≡ₚ clean_entry <$> es ∧ length es' = length es ∧ (no_nulls_to last es → terminated es').

Lemma u32_pred x : u32 (u32 x - 1) = u32 (x - 1).
Proof. unfold u32. apply Zminus_mod_idemp_l. Qed.

Hypothesis Hdry : dry_run opts = false.

(** One removal. *)
Lemma remove_step (es : list dyn) (j : nat) last e :
  es !! j = Some e → removed opts is_aarch64 (d_tag e) = true → nulls_after last es → clean_before j es → last < Z.of_nat (length es) →
  ∃ es', 0 <= last ∧ swap (<[j := {| d_tag := DT_NULL; d_val := d_val e |}]> es) j (Z.to_nat last) = Some es' ∧
    clean_entry <$> es' ≡ₚ clean_entry <$> es ∧ length es' = length es ∧ nulls_after (last - 1) es' ∧ clean_before j es' ∧
    (no_nulls_to last es → no_nulls_to (last - 1) es').
Proof.
  intros Hj Hrem Hna Hcb Hlast. pose proof (lookup_lt_Some _ _ _ Hj) as Hjl.
  assert (Hle : Z.of_nat j <= last).
  { destruct (Z.le_gt_cases (Z.of_nat j) last) as [?|Hgt]; [done|]. rewrite (Hna j e Hj Hgt), removed_null in Hrem. done. }
  set (null := {| d_tag := DT_NULL; d_val := d_val e |}). set (es1 := <[j := null]> es).
  assert (H1 : es1 !! j = Some null) by (by apply list_lookup_insert_eq).
  assert (Hl1 : length es1 = length es) by apply length_insert.
  destruct (lookup_lt_is_Some_2 es1 (Z.to_nat last) ltac:(lia)) as [b Hb].
  destruct (swap_spec es1 j (Z.to_nat last) null b H1 Hb) as (es' & Hsw & Hperm & Hlen & Hlook). exists es'. split; [lia|]. split; [done|].
  assert (Hother : ∀ i, i ≠ j → es1 !! i = es !! i) by (intros i Hi; by apply list_lookup_insert_ne). split; [|split; [congruence|]].
  { rewrite Hperm. unfold es1. rewrite (clean_insert es j e); [done|done|]. unfold null. rewrite clean_null. unfold clean_entry. by rewrite Hrem. }
  split_and!.
  - intros i x Hi Hlt. rewrite Hlook in Hi. destruct (decide (i = j)) as [->|Hne].
    + assert (Z.to_nat last = j) as Heq by lia. rewrite Heq, H1 in Hb. injection Hb as <-. by injection Hi as <-.
    + destruct (decide (i = Z.to_nat last)); [by injection Hi as <-|]. rewrite Hother in Hi by done. apply (Hna i x Hi). lia.
  - intros i x Hi Hlt. rewrite Hlook, decide_False in Hi by lia. rewrite decide_False, Hother in Hi by lia. by apply (Hcb i x).
  - intros Hnn i x Hi Hle'. rewrite Hlook in Hi. destruct (decide (i = j)) as [->|Hne].
    + injection Hi as <-. assert (Z.to_nat last ≠ j) by lia. rewrite Hother in Hb by done. apply (Hnn _ b Hb). lia.
    + rewrite decide_False, Hother in Hi by lia. apply (Hnn i x Hi). lia.
Qed.

Lemma clean_loop_spec fuel (es : list dyn) (j : nat) last o :
  nulls_after last es → clean_before j es → -1 <= last < Z.of_nat (length es) → Z.of_nat (length es) < 2 ^ 32 →
  (length es - j + Z.to_nat (last + 1) < fuel)%nat →
  ∃ es', clean_loop opts is_aarch64 fuel es j (u32 last) o = Done (es', o) ∧ cleaned es es' last.
Proof using Hdry.
  revert es j last. induction fuel as [|fuel IH]; intros es j last Hna Hcb Hlast Hn Hfuel; [lia|]. cbn [clean_loop].
  destruct (es !! j) as [e|] eqn:Ej.
  2:{ exists es. split; [done|]. assert (Hfix : clean_entry <$> es = es).
      { apply list_eq. intros i. rewrite list_lookup_fmap. destruct (es !! i) as [x|] eqn:Ei; [|done]. cbn. f_equal. apply (Hcb i x Ei).
        apply lookup_ge_None in Ej. apply lookup_lt_Some in Ei. lia. }
      split; [done|]. split; [by rewrite Hfix|]. split; [done|]. intros Hnn. by exists last. }
  pose proof (lookup_lt_Some _ _ _ Ej) as Hj. rewrite Hdry. cbn [orb].
  destruct (removed opts is_aarch64 (d_tag e)) eqn:Erem.
  - destruct (remove_step es j last e Ej Erem Hna Hcb ltac:(lia)) as (es1 & Hl0 & Hsw & Hperm & Hlen & Hna1 & Hcb1 & Hnn1).
    cbv zeta. rewrite length_insert. assert (u32 last = last) as -> by (unfold u32; apply Z.mod_small; lia).
    rewrite (proj2 (Z.leb_gt _ _)) by lia. rewrite Hsw.
    destruct (IH es1 j (last - 1) Hna1 Hcb1 ltac:(lia) ltac:(lia) ltac:(lia)) as (es' & Hr & H1 & H2 & H3 & H4).
    exists es'. split; [exact Hr|]. split; [done|]. split; [by rewrite H2|]. split; [congruence|]. auto.
  - assert (Hstep : ∀ e', clean_entry e' = e' → e' = clean_entry e → d_tag e' = d_tag e →
      ∃ es', clean_loop opts is_aarch64 fuel (<[j := e']> es) (S j) (u32 last) o = Done (es', o) ∧ cleaned es es' last).
    { intros e' Hfix He' Htag. destruct (IH (<[j := e']> es) (S j) last) as (es' & Hr & H1 & H2 & H3 & H4).
      - intros i x Hi Hlt. destruct (decide (i = j)) as [->|Hne].
        + rewrite list_lookup_insert_eq in Hi by done. injection Hi as <-. rewrite Htag. by apply (Hna j e).
        + rewrite list_lookup_insert_ne in Hi by done. by apply (Hna i x).
      - intros i x Hi Hlt. destruct (decide (i = j)) as [->|Hne].
        + rewrite list_lookup_insert_eq in Hi by done. by injection Hi as <-.
        + rewrite list_lookup_insert_ne in Hi by done. apply (Hcb i x Hi). lia.
      - by rewrite length_insert.
      - by rewrite length_insert.
      - rewrite length_insert. lia.
      - rewrite length_insert in H3. rewrite (clean_insert es j e e' Ej) in H2 by congruence. exists es'. split; [done|]. split; [done|]. split; [done|].
        split; [done|]. intros Hnn. apply H4. intros i x Hi Hle. destruct (decide (i = j)) as [->|Hne].
        + rewrite list_lookup_insert_eq in Hi by done. injection Hi as <-. rewrite Htag. by apply (Hnn j e).
        + rewrite list_lookup_insert_ne in Hi by done. by apply (Hnn i x). }
    assert (Hsame : clean_entry e = e → ∃ es', clean_loop opts is_aarch64 fuel es (S j) (u32 last) o = Done (es', o) ∧ cleaned es es' last).
    { intros He. destruct (Hstep e) as (es' & H1 & H2); [done..|]. rewrite list_insert_id in H1 by done. by exists es'. }
    destruct (d_tag e =? DT_FLAGS_1) eqn:Ef.
    + apply Z.eqb_eq in Ef. cbv zeta. destruct (Z.eqb_spec (d_val e .& supported_dt_flags_1 opts) (d_val e)) as [Hv|Hv].
      * apply Hsame. destruct e as [t v]. cbn [d_tag d_val] in *. rewrite <- Hv. apply (clean_masked {| d_tag := t; d_val := v |}); [done|]. cbn [d_val]. done.
      * apply Hstep; [by apply clean_masked| |done]. unfold clean_entry. by rewrite Erem, Ef, Z.eqb_refl.
    + apply Hsame. unfold clean_entry. by rewrite Erem, Ef.
Qed.

Lemma last_nonnull_spec (es : list dyn) j :
  let k := last_nonnull_entry_idx es j in
  (k <= j)%nat ∧ (∀ i e, es !! i = Some e → (k < i <= j)%nat → d_tag e = DT_NULL) ∧ (k = 0%nat ∨ ∀ e, es !! k = Some e → d_tag e ≠ DT_NULL).
Proof.
  induction j as [|j IH]; cbn [last_nonnull_entry_idx]; [split; [done|]; split; [intros; lia|by left]|].
  destruct (d_tag (default {| d_tag := 0; d_val := 0 |} (es !! S j)) =? DT_NULL) eqn:E.
  - apply Z.eqb_eq in E. destruct IH as (H1 & H2 & H3). split; [lia|]. split; [|done]. intros i e He Hi. destruct (decide (i = S j)) as [->|Hne].
    + by rewrite He in E.
    + apply (H2 i e He). lia.
  - apply Z.eqb_neq in E. split; [lia|]. split; [intros; lia|]. right. intros e He. by rewrite He in E.
Qed.

(** Nothing but nulls stays nothing but nulls. *)
Lemma all_null_terminated (es es' : list dyn) :
  (∀ i e, es !! i = Some e → d_tag e = DT_NULL) → es' ≡ₚ clean_entry <$> es → terminated es'.
Proof.
  intros Hn Hp. exists (-1). split; [intros i e _ Hi; lia|]. intros i e He _. apply list_elem_of_lookup_2 in He. rewrite Hp in He.
  apply list_elem_of_fmap in He as ([t v] & -> & [k Hk]%list_elem_of_lookup). pose proof (Hn k _ Hk) as Ht. cbn in Ht. subst t. done.
Qed.

Lemma terminated_last (es : list dyn) k :
  terminated es → (∀ e, es !! k = Some e → d_tag e ≠ DT_NULL) → (k < length es)%nat → no_nulls_to (Z.of_nat k) es.
Proof.
  intros (last & Hnn & Hna) Hk Hl. destruct (lookup_lt_is_Some_2 es k Hl) as [e He].
  assert (Z.of_nat k <= last) by (destruct (Z.le_gt_cases (Z.of_nat k) last); [done|]; exfalso; apply (Hk e He), (Hna k e He); lia).
  intros i x Hx Hi. apply (Hnn i x Hx). lia.
Qed.

(** What both loops leave of a section. *)
Lemma clean_dynamic_run (es : list dyn) (o : allocs) :
  es ≠ [] → Z.of_nat (length es) < 2 ^ 32 →
  ∃ es', clean_dynamic opts is_aarch64 es o = Done (es', o) ∧ cleaned es es' (Z.of_nat (last_nonnull_entry_idx es (length es - 1))).
Proof using Hdry.
  intros Hne Hn. pose proof (last_nonnull_spec es (length es - 1)) as (Hk & Hafter & _). set (k := last_nonnull_entry_idx es (length es - 1)) in *.
  assert (0 < length es)%nat by (by destruct es; cbn; [|lia]).
  destruct (clean_loop_spec (2 * length es + 2) es 0 (Z.of_nat k) o) as (es' & Hr & Hc); [|intros i e _ ?; lia|lia|done|lia|].
  { intros i e He Hi. apply (Hafter i e He). apply lookup_lt_Some in He. lia. }
  exists es'. rewrite u32_small in Hr by lia. split; [by destruct es|done].
Qed.

(** Nothing that is to be removed is left, and what was terminated is. *)
Lemma cleaned_removed (es es' : list dyn) last : cleaned es es' last → Forall (λ e, removed opts is_aarch64 (d_tag e) = false) es'.
Proof.
  intros (Hfix & _). apply Forall_forall. intros e He. rewrite <- Hfix in He. apply list_elem_of_fmap in He as (x & -> & _). unfold clean_entry.
  destruct (removed opts is_aarch64 (d_tag x)) eqn:E; [done|]. by destruct (d_tag x =? DT_FLAGS_1).
Qed.
Lemma cleaned_terminated (es es' : list dyn) :
  es ≠ [] → cleaned es es' (Z.of_nat (last_nonnull_entry_idx es (length es - 1))) → terminated es → terminated es'.
Proof.
  intros Hne (_ & Hp & _ & Hterm) Ht. pose proof (last_nonnull_spec es (length es - 1)) as (Hk & Hafter & Hnn).
  set (k := last_nonnull_entry_idx es (length es - 1)) in *. assert (0 < length es)%nat by (by destruct es; cbn; [|lia]).
  destruct (lookup_lt_is_Some_2 es k ltac:(lia)) as [e He]. destruct (decide (d_tag e = DT_NULL)) as [Hnull|Hnn'].
  - destruct Hnn as [Hk0|Hnn]; [|by destruct (Hnn e He)]. apply (all_null_terminated es); [|done]. intros i x Hx. destruct (decide (i = k)) as [->|]; [congruence|].
    apply (Hafter i x Hx). apply lookup_lt_Some in Hx. lia.
  - apply Hterm, terminated_last; [done| |lia]. intros x Hx. congruence.
Qed.

(** For a dynamic section with entries, elf-cleaner's two loops end within the section, without touching anything else, and leave
    each entry once: one that the API level does not support with the tag DT_NULL, DT_FLAGS_1 with the supported
    flags only, any other as it was; and when the section was entries followed by DT_NULL it still is, so
    a linker that reads up to the first DT_NULL misses none of them. *)
Theorem clean_dynamic_keeps (es : list dyn) (o : allocs) (Hne : es ≠ []) (Hn : Z.of_nat (length es) < 2 ^ 32) :
  ∃ es', clean_dynamic opts is_aarch64 es o = Done (es', o) ∧ length es' = length es ∧ es' ≡ₚ clean_entry <$> es ∧
    Forall (λ e, removed opts is_aarch64 (d_tag e) = false) es' ∧ (terminated es → terminated es').
Proof using Hdry.
  destruct (clean_dynamic_run es o Hne Hn) as (es' & Hr & Hc). pose proof Hc as (_ & Hp & Hl & _). exists es'.
  split; [done|]. split; [done|]. split; [done|]. split; [by eapply cleaned_removed|by apply cleaned_terminated].
Qed.
End Dynamic.

(** Android 21: the hash of GNU and the run path go, the flags are cut. *)
Definition sample_options : options := {| api_level := 21; dry_run := false |}.
Definition sample_section : list dyn :=
  [{| d_tag := 1; d_val := 17 |}; {| d_tag := DT_GNU_HASH; d_val := 512 |}; {| d_tag := DT_FLAGS_1; d_val := 9 |}; {| d_tag := DT_RUNPATH; d_val := 3 |};
   {| d_tag := 5; d_val := 64 |}; {| d_tag := DT_NULL; d_val := 0 |}].
Lemma clean_dynamic_keeps_witness :
  ∃ es', clean_dynamic sample_options true sample_section [] = Done (es', []) ∧ length es' = length sample_section ∧
    es' ≡ₚ clean_entry sample_options true <$> sample_section ∧
    Forall (λ e, removed sample_options true (d_tag e) = false) es' ∧ (terminated sample_section → terminated es').
Proof. apply (clean_dynamic_keeps sample_options true eq_refl sample_section []); [discriminate|vm_compute; reflexivity]. Defined.
Example sample_section_cleaned :
  run (clean_dynamic sample_options true sample_section) =
  Done [{| d_tag := 1; d_val := 17 |}; {| d_tag := 5; d_val := 64 |}; {| d_tag := DT_FLAGS_1; d_val := 1 |}; {| d_tag := DT_NULL; d_val := 3 |};
        {| d_tag := DT_NULL; d_val := 512 |}; {| d_tag := DT_NULL; d_val := 0 |}].
Proof. vm_compute. reflexivity. Qed.

(** In a dry run the entries keep their tags, so one that is swapped to the place of another removed entry is
    removed again, until the index runs below 0. *)
Example dry_run_underflows :
  run (clean_dynamic {| api_level := 21; dry_run := true |} true [{| d_tag := DT_RPATH; d_val := 1 |}; {| d_tag := DT_NULL; d_val := 0 |}]) = Undefined.
Proof. vm_compute. reflexivity. Qed.
(** [--api-level] at the end is not taken for an option, but [-api-level] reads the null pointer. *)
Example argmatch_missing_value :
  run (argmatch (plat := x86_64) [str "elf-cleaner"; str "--api-level"] (str "-api-level") (str "--api-level") 3 true 0) = Done (false, None, 0%nat) ∧
  run (argmatch (plat := x86_64) [str "elf-cleaner"; str "-api-level"] (str "-api-level") (str "--api-level") 3 true 0) = Undefined.
Proof. split; vm_compute; reflexivity. Qed.
