(* ===== verification/ElfCleanerEnds.v ===== *)
(** * ElfCleanerEnds: elf-cleaner comes to an end on any file

    Whatever the bytes of a file, [process_elf] returns or leaves the file; its loops do not run for ever, in a
    dry run neither, and it never changes the size of the file. *)

From Stdlib Require Import Ascii String.
From stdpp Require Import base numbers option sets list list_numbers strings gmap.
From S2P Require Import Prelude CLib Ctype Encoding Containers Setconf Field25519 Curve25519 Ipc Quick ElfCleaner ElfCleanerSpec.
#[local] Open Scope c_scope.

(** ** Runs that end *)

Definition ends {A} (m : M A) (Q : A → Prop) : Prop := ∀ o, match m o with Done (a, _) => Q a | NoFuel => False | Exit _ | Undefined => True end.
Lemma ends_ret {A} (a : A) (Q : A → Prop) : Q a → ends (mret a) Q.
Proof. by intros H o. Qed.
Lemma ends_undefined {A} (Q : A → Prop) : ends undefined Q.
Proof. by intros o. Qed.
Lemma elf_ends_bind {A B} (m : M A) (f : A → M B) P Q : ends m P → (∀ a, P a → ends (f a) Q) → ends (m ≫= f) Q.
Proof. intros Hm Hf o. unfold mbind, M_bind. specialize (Hm o). destruct (m o) as [[a o']| | |]; [by apply Hf|done..]. Qed.
Lemma ends_mono {A} (m : M A) P Q : ends m P → (∀ a, P a → Q a) → ends m Q.
Proof. intros Hm HPQ o. specialize (Hm o). destruct (m o) as [[a o']| | |]; auto. Qed.

(** ** Fields *)

Definition file_ok (n : nat) (b : bytes) : Prop := length b = n ∧ all_bytes b = true.

Lemma get_field_ends b off k : all_bytes b = true → 0 <= k → ends (get_field b off k) (λ v, 0 <= v < 256 ^ k ∧ 0 <= off ∧ off + k <= Z.of_nat (length b)).
Proof.
  intros Hb Hk. unfold get_field. destruct ((0 <=? off) && (off + k <=? Z.of_nat (length b))) eqn:E; [|apply ends_undefined].
  apply andb_true_iff in E as [E1%Z.leb_le E2%Z.leb_le]. apply ends_ret. split; [|done].
  assert (Hl : length (take (Z.to_nat k) (drop (Z.to_nat off) b)) = Z.to_nat k) by (rewrite length_take, length_drop; lia).
  pose proof (le_value_range (take (Z.to_nat k) (drop (Z.to_nat off) b))) as H. rewrite Hl, Z2Nat.id in H by done. apply H.
  rewrite <- (take_drop (Z.to_nat off) b) in Hb. rewrite all_bytes_app, andb_true_iff in Hb. destruct Hb as [_ Hb].
  rewrite <- (take_drop (Z.to_nat k) (drop _ b)) in Hb. rewrite all_bytes_app, andb_true_iff in Hb. apply Hb.
Qed.
Lemma put_field_ends n b off k v : file_ok n b → 0 <= k → ends (put_field b off k v) (file_ok n).
Proof.
  intros [Hn Hb] Hk. unfold put_field. destruct ((0 <=? off) && (off + k <=? Z.of_nat (length b))) eqn:E; [|apply ends_undefined].
  apply andb_true_iff in E as [E1%Z.leb_le E2%Z.leb_le]. apply ends_ret. split.
  - rewrite !length_app, length_take, length_drop, le_bytes_length. lia.
  - rewrite !all_bytes_app, !andb_true_iff, le_bytes_all. split; [|split; [done|]].
    + rewrite <- (take_drop (Z.to_nat off) b), all_bytes_app, andb_true_iff in Hb. apply Hb.
    + rewrite <- (take_drop (Z.to_nat (off + k)) b), all_bytes_app, andb_true_iff in Hb. apply Hb.
Qed.

Section Ends.
Context {plat : Platform} (L : elf_layout) (opts : options).
Hypothesis HL : 0 < word_size L.

Lemma load_dyns_ends b off n : all_bytes b = true → ends (load_dyns L b off n) (λ es, length es = n ∧ (n ≠ 0%nat → 0 <= off) ∧ (n ≠ 0%nat → off + Z.of_nat n <= Z.of_nat (length b))).
Proof using HL.
  intros Hb. revert off. induction n as [|n IH]; intros off; cbn [load_dyns]; [by apply ends_ret|].
  eapply elf_ends_bind; [apply get_field_ends; [done|lia]|]. intros tag (_ & Ho & Ho2). eapply elf_ends_bind; [apply get_field_ends; [done|lia]|]. intros val (_ & Hv & Hv2).
  eapply elf_ends_bind; [apply IH|]. intros es (Hes & _ & Hes2). apply ends_ret. cbn [length]. split; [congruence|]. split; [lia|]. intros _.
  unfold dyn_size in *. destruct n; [lia|]. specialize (Hes2 ltac:(done)). lia.
Qed.
Lemma store_dyns_ends n b off es : file_ok n b → ends (store_dyns L b off es) (file_ok n).
Proof using HL.
  revert b off. induction es as [|e es IH]; intros b off Hb; cbn [store_dyns]; [by apply ends_ret|].
  eapply elf_ends_bind; [apply put_field_ends; [done|lia]|]. intros b1 Hb1. eapply elf_ends_bind; [apply put_field_ends; [done|lia]|]. intros b2 Hb2. by apply IH.
Qed.

(** ** The loops *)

Lemma clean_loop_ends is_aarch64 fuel (es : list dyn) (j : nat) last :
  0 <= last → Z.of_nat (length es) < 2 ^ 32 →
  (length es - j + (if (last <? Z.of_nat (length es))%Z then Z.to_nat (last + 1) else 0) < fuel)%nat →
  ends (clean_loop opts is_aarch64 fuel es j last) (λ _, True).
Proof.
  revert es j last. induction fuel as [|fuel IH]; intros es j last Hlast Hn Hfuel; [lia|]. cbn [clean_loop].
  destruct (es !! j) as [e|] eqn:Ej; [|by apply ends_ret]. pose proof (lookup_lt_Some _ _ _ Ej) as Hj. destruct (removed _ _ _).
  - cbv zeta. set (es1 := if dry_run opts then es else _). assert (Hl1 : length es1 = length es) by (unfold es1; destruct (dry_run opts); [done|apply length_insert]).
    rewrite Hl1. destruct (Z.leb_spec (Z.of_nat (length es)) last) as [|Hlt]; [apply ends_undefined|].
    destruct (lookup_lt_is_Some_2 es1 j ltac:(lia)) as [a Ha]. destruct (lookup_lt_is_Some_2 es1 (Z.to_nat last) ltac:(lia)) as [b Hb].
    destruct (swap_spec es1 j (Z.to_nat last) a b Ha Hb) as (es2 & -> & _ & Hl2 & _). rewrite Hl1 in Hl2.
    rewrite (proj2 (Z.ltb_lt _ _)) in Hfuel by done. apply IH; [unfold u32; apply Z.mod_pos_bound; lia|by rewrite Hl2|]. rewrite Hl2.
    destruct (decide (last = 0)) as [->|Hne].
    + change (u32 (0 - 1)) with (2 ^ 32 - 1). rewrite (proj2 (Z.ltb_ge _ _)) by lia. lia.
    + rewrite u32_small by lia. destruct (_ <? _); lia.
  - destruct (d_tag e =? DT_FLAGS_1); [|apply IH; lia]. cbv zeta. set (es1 := if _ : bool then es else _).
    assert (Hl1 : length es1 = length es) by (unfold es1; destruct (_ || _); [done|apply length_insert]). apply IH; rewrite ?Hl1; lia.
Qed.
Lemma clean_dynamic_ends is_aarch64 es : Z.of_nat (length es) < 2 ^ 32 → ends (clean_dynamic opts is_aarch64 es) (λ _, True).
Proof.
  intros Hn. unfold clean_dynamic. destruct es as [|e es]; [apply ends_undefined|]. set (es0 := e :: es) in *.
  pose proof (last_nonnull_spec es0 (length es0 - 1)) as (Hk & _). assert (0 < length es0)%nat by (cbn; lia).
  apply clean_loop_ends; [lia|done|]. destruct (_ <? _); lia.
Qed.

Lemma tls_loop_ends n fuel b e_phoff i : file_ok n b → 1 <= i <= 65536 → 65537 <= Z.of_nat fuel + i → ends (tls_loop L opts fuel b e_phoff i) (file_ok n).
Proof using HL.
  revert b i. induction fuel as [|fuel IH]; intros b i Hb Hi Hfuel; [lia|]. cbn [tls_loop].
  eapply elf_ends_bind; [apply get_field_ends; [apply Hb|lia]|]. intros e_phnum (Hnum & _). destruct (Z.ltb_spec i e_phnum) as [Hlt|]; cbn [negb]; [|by apply ends_ret].
  cbv zeta. eapply elf_ends_bind; [apply get_field_ends; [apply Hb|lia]|]. intros p_type _. eapply elf_ends_bind; [apply get_field_ends; [apply Hb|lia]|]. intros p_align _.
  eapply (elf_ends_bind _ _ (file_ok n)); [destruct (_ && _); [apply put_field_ends; [done|lia]|by apply ends_ret]|]. intros b1 Hb1. apply IH; [done|lia..].
Qed.

Lemma section_loop_ends n is_aarch64 fuel b e_shoff i :
  Z.of_nat n < 2 ^ 32 → file_ok n b → 1 <= i <= 65536 → 65537 <= Z.of_nat fuel + i → ends (section_loop L opts fuel is_aarch64 b e_shoff i) (λ r, file_ok n r.2).
Proof using HL.
  intros Hn. revert b i. induction fuel as [|fuel IH]; intros b i Hb Hi Hfuel; [lia|]. cbn [section_loop].
  eapply elf_ends_bind; [apply get_field_ends; [apply Hb|lia]|]. intros e_shnum (Hnum & _). destruct (Z.ltb_spec i e_shnum) as [Hlt|]; cbn [negb]; [|by apply ends_ret].
  cbv zeta. eapply elf_ends_bind; [apply get_field_ends; [apply Hb|lia]|]. intros sh_type _. destruct (sh_type =? SHT_DYNAMIC).
  - eapply elf_ends_bind; [apply get_field_ends; [apply Hb|lia]|]. intros sh_offset _. eapply elf_ends_bind; [apply get_field_ends; [apply Hb|lia]|]. intros sh_size _.
    destruct (_ <? _); [by apply ends_ret|]. eapply elf_ends_bind; [apply load_dyns_ends, Hb|]. intros es (Hes & Ho & Hes2).
    eapply (elf_ends_bind _ _ (λ _, True)); [apply clean_dynamic_ends|].
    { destruct Hb as [Hl _]. rewrite Hl in Hes2. destruct (decide (length es = 0%nat)) as [->|Hne]; [lia|]. rewrite <- Hes in *. specialize (Ho Hne). specialize (Hes2 Hne). lia. }
    intros es' _. eapply elf_ends_bind; [by apply store_dyns_ends|]. intros b1 Hb1. apply IH; [done|lia..].
  - destruct (_ && _); [|apply IH; [done|lia..]].
    eapply (elf_ends_bind _ _ (file_ok n)); [destruct (negb _); [apply put_field_ends; [done|lia]|by apply ends_ret]|]. intros b1 Hb1. apply IH; [done|lia..].
Qed.

Lemma process_elf_runs b : all_bytes b = true → Z.of_nat (length b) < 2 ^ 32 → ends (process_elf L opts b) (λ r, file_ok (length b) r.2).
Proof using HL.
  intros Hb Hn. assert (Hok : file_ok (length b) b) by done. unfold process_elf. destruct (_ <? _); [by apply ends_ret|].
  eapply elf_ends_bind; [apply get_field_ends; [done|lia]|]. intros e_machine _. eapply elf_ends_bind; [apply get_field_ends; [done|lia]|]. intros e_phoff _.
  eapply elf_ends_bind; [apply get_field_ends; [done|lia]|]. intros e_phnum _. destruct (_ <? _); [by apply ends_ret|].
  eapply elf_ends_bind; [apply (tls_loop_ends (length b)); [done|lia|unfold loop_fuel; lia]|]. intros b1 Hb1.
  eapply elf_ends_bind; [apply get_field_ends; [apply Hb1|lia]|]. intros e_shoff _. eapply elf_ends_bind; [apply get_field_ends; [apply Hb1|lia]|]. intros e_shnum _.
  destruct (_ <? _); [by apply ends_ret|]. apply section_loop_ends; [done|done|lia|unfold loop_fuel; lia].
Qed.
End Ends.

(** What [parse_file] may do with a file: the result is 0 or 1, the size stays, and a file without the magic number is not changed. *)
Definition file_result (f : file) (r : Z * bytes) : Prop :=
  (r.1 = 0 ∨ r.1 = 1) ∧ length r.2 = length (contents f) ∧ (take 4 (contents f) ≠ [0x7f; ch "E"; ch "L"; ch "F"] → r.2 = contents f).

(** C37: elf-cleaner does not run for ever on any file below 4 GiB, valid or not and in a dry run too.  Unless it accesses memory outside of the
    file, as the examples below do, it returns 0 or 1; the size of the file is what it was, and a file that is not an ELF file is not
    changed. *)
Theorem parse_file_ends {plat : Platform} (opts : options) (f : file)
    (Hb : all_bytes (contents f) = true) (Hn : Z.of_nat (length (contents f)) < 2 ^ 32) : ends (parse_file opts f) (file_result f).
Proof.
  assert (Hsame : ∀ r, r = 0 ∨ r = 1 → ends (mret (r, contents f)) (file_result f)) by (intros r Hr; by apply ends_ret).
  assert (Hclosed : ends (mret (if close_fails f then 1 else 0, contents f)) (file_result f)) by (apply Hsame; destruct (close_fails f); auto).
  unfold parse_file. cbv zeta. destruct (fstat_fails f); [by apply Hsame; right|]. destruct (_ <? _); [done|].
  destruct (mmap_fails f); [by apply Hsame; right|]. destruct (negb (_ && _)) eqn:Emagic; [done|]. destruct (negb (at_ (contents f) 5 =? 1)); [done|].
  assert (Hmagic : take 4 (contents f) = [0x7f; ch "E"; ch "L"; ch "F"]).
  { apply negb_false_iff in Emagic. rewrite !andb_true_iff, !Z.eqb_eq in Emagic. destruct Emagic as [[[H0 H1] H2] H3].
    clear -H0 H1 H2 H3. destruct (contents f) as [|a [|b [|c [|d l]]]]; cbn in H0, H1, H2, H3; try discriminate. by subst. }
  destruct (_ || _); [|by apply Hsame; right].
  eapply (elf_ends_bind _ _ (λ r, file_ok (length (contents f)) r.2)).
  - apply process_elf_runs; [by destruct (at_ (contents f) 4 =? 1)|done|done].
  - intros [ok b] [Hl _]. apply ends_ret. split; [destruct ok, (msync_fails f); auto|]. split; [done|]. done.
Qed.

Definition text_file : file := {| contents := replicate 60 65; fstat_fails := false; mmap_fails := false; msync_fails := false; close_fails := false |}.
Lemma parse_file_ends_witness : ends (parse_file (plat := x86_64) sample_options text_file) (file_result text_file).
Proof. apply (parse_file_ends (plat := x86_64) sample_options text_file); [reflexivity|vm_compute; reflexivity]. Defined.

(** ** Accesses outside of the file *)

(** A 64-bit file with one section header of type SHT_DYNAMIC behind the null one, of this offset and size. *)
Definition elf64_file (sh_offset sh_size : Z) : bytes :=
  [0x7f; 0x45; 0x4c; 0x46; 2; 1; 1; 0] ++ replicate 8 0 ++ le_bytes 2 3 ++ le_bytes 2 183 ++ replicate 20 0 ++ le_bytes 8 64 ++ replicate 12 0 ++ le_bytes 2 2 ++ replicate 2 0 ++
  replicate 64 0 ++ replicate 4 0 ++ le_bytes 4 SHT_DYNAMIC ++ replicate 16 0 ++ le_bytes 8 sh_offset ++ le_bytes 8 sh_size ++ replicate 24 0 ++
  le_bytes 8 DT_RPATH ++ le_bytes 8 1 ++ replicate 16 0.
(** A section of two entries is cleaned; one of none is read at its entry 2^32 - 1; and an offset
    that wraps around passes the test of the size. *)
Example elf64_dynamic : ∃ b, run (process_elf (plat := x86_64) Elf64 sample_options (elf64_file 192 32)) = Done (true, b) ∧ drop 192 b = le_bytes 8 0 ++ le_bytes 8 1 ++ replicate 16 0.
Proof. eexists. split; vm_compute; reflexivity. Qed.
Example elf64_empty_dynamic : run (process_elf (plat := x86_64) Elf64 sample_options (elf64_file 192 0)) = Undefined.
Proof. vm_compute. reflexivity. Qed.
Example elf64_offset_wraps : run (process_elf (plat := x86_64) Elf64 sample_options (elf64_file (2 ^ 64 - 16) 32)) = Undefined.
Proof. vm_compute. reflexivity. Qed.
