(* ===== verification/ElfCleanerSafe.v ===== *)
(** * ElfCleanerSafe: what elf-cleaner makes of a well-formed file

    When the tables and the dynamic sections of a file lie in it and apart from each other, [process_elf] never leaves the file
    and changes exactly what it should: alignments of thread-local storage, types of version sections, and dynamic entries. *)

From Stdlib Require Import Ascii String.
From stdpp Require Import base numbers option sets list list_numbers strings gmap.
From S2P Require Import Prelude CLib Ctype Encoding Containers Setconf Field25519 Curve25519 Ipc Quick Netlink NetlinkSpec IpcLinux IpcLinuxSpec IpcLinuxGetSpec ElfCleaner ElfCleanerSpec.
#[local] Open Scope c_scope.

(** ** Fields and regions *)

Definition field (b : bytes) (off n : Z) : Z := le_value (take (Z.to_nat n) (drop (Z.to_nat off) b)).
Definition within (off n : Z) (k : nat) : Prop := off <= Z.of_nat k < off + n.
(** The files have the same bytes at the places of [P]. *)
Definition agrees (P : nat → Prop) (b b' : bytes) : Prop := length b' = length b ∧ ∀ k, P k → b' !! k = b !! k.

Lemma agrees_refl P b : agrees P b b.
Proof. done. Qed.
Lemma agrees_trans (P Q R : nat → Prop) b b' b'' : agrees P b b' → agrees Q b' b'' → (∀ k, R k → P k ∧ Q k) → agrees R b b''.
Proof. intros [Hl HP] [Hl' HQ] HR. split; [congruence|]. intros k [Hp Hq]%HR. by rewrite HQ, HP. Qed.
Lemma agrees_mono (P Q : nat → Prop) b b' : agrees P b b' → (∀ k, Q k → P k) → agrees Q b b'.
Proof. intros [Hl HP] HQ. split; auto. Qed.

Lemma field_agrees (P : nat → Prop) b b' off n : agrees P b b' → 0 <= off → (∀ k, within off n k → P k) → field b' off n = field b off n.
Proof.
  intros [Hl HP] Ho HPk. unfold field. f_equal. apply list_eq. intros i. destruct (decide (i < Z.to_nat n)%nat) as [Hi|Hi].
  - rewrite !lookup_take_lt, !lookup_drop by done. apply HP, HPk. unfold within. lia.
  - by rewrite !lookup_take_ge by lia.
Qed.
Lemma field_value_range b off n : all_bytes b = true → 0 <= n → 0 <= field b off n < 256 ^ n.
Proof.
  intros Hb Hn. unfold field. set (l := take _ _). assert (Hl : all_bytes l = true).
  { rewrite <- (take_drop (Z.to_nat off) b), all_bytes_app, andb_true_iff in Hb. destruct Hb as [_ Hb].
    rewrite <- (take_drop (Z.to_nat n) (drop _ b)), all_bytes_app, andb_true_iff in Hb. apply Hb. }
  pose proof (le_value_range l Hl) as [H1 H2]. split; [done|]. eapply Z.lt_le_trans; [exact H2|].
  apply Z.pow_le_mono_r; [lia|]. unfold l. rewrite length_take. lia.
Qed.

Lemma get_field_ok b off n o : 0 <= off → off + n <= Z.of_nat (length b) → get_field b off n o = Done (field b off n, o).
Proof. intros H1 H2. unfold get_field. by rewrite (proj2 (Z.leb_le _ _) H1), (proj2 (Z.leb_le _ _) H2). Qed.
Lemma put_field_ok b off n v o : 0 <= off → 0 <= n → off + n <= Z.of_nat (length b) →
  ∃ b', put_field b off n v o = Done (b', o) ∧ agrees (λ k, ¬ within off n k) b b' ∧ (0 <= v < 256 ^ n → field b' off n = v).
Proof.
  intros H1 Hn H2. unfold put_field. rewrite (proj2 (Z.leb_le _ _) H1), (proj2 (Z.leb_le _ _) H2). eexists. split; [done|].
  assert (Hlo : length (take (Z.to_nat off) b) = Z.to_nat off) by (rewrite length_take; lia).
  assert (Hlv : length (le_bytes (Z.to_nat n) v) = Z.to_nat n) by apply le_bytes_length. split; [split|].
  - rewrite !length_app, Hlo, Hlv, length_drop. lia.
  - intros k Hk. unfold within in Hk. destruct (decide (k < Z.to_nat off)%nat) as [Hlt|Hge].
    + rewrite lookup_app_l by lia. by apply lookup_take_lt.
    + rewrite lookup_app_r, Hlo by lia. rewrite lookup_app_r, Hlv, lookup_drop by lia. f_equal. lia.
  - intros Hv. unfold field. rewrite drop_app_length' by done. rewrite take_app_length' by done. apply le_value_bytes. by rewrite Z2Nat.id.
Qed.

(** ** Dynamic entries *)

Section Safe.
Context {plat : Platform} (L : elf_layout).
Hypothesis HL : L = Elf32 ∨ L = Elf64.

Fixpoint dyns (b : bytes) (off : Z) (n : nat) : list dyn :=
  match n with
  | O => []
  | S n' => {| d_tag := field b off (word_size L); d_val := field b (off + word_size L) (word_size L) |} :: dyns b (off + dyn_size L) n'
  end.
Lemma dyns_length b off n : length (dyns b off n) = n.
Proof. revert off. induction n as [|n IH]; intros off; [done|]. cbn [dyns length]. by rewrite IH. Qed.

(** The layouts are the two of elf.h: their numbers are put in. *)
Ltac layout := let E := fresh in destruct HL as [E|E]; rewrite ?E in *; unfold dyn_size, within in *; cbn [word_size e_phoff_at e_shoff_at e_phnum_at e_shnum_at phdr_size p_align_at shdr_size sh_offset_at sh_size_at Elf32 Elf64] in *; try lia.

Lemma dyns_agrees (P : nat → Prop) b b' off n :
  agrees P b b' → 0 <= off → (∀ k, within off (Z.of_nat n * dyn_size L) k → P k) → dyns b' off n = dyns b off n.
Proof using HL.
  intros Ha. revert off. induction n as [|n IH]; intros off Ho HP; [done|]. cbn [dyns]. f_equal; [f_equal|].
  - apply (field_agrees P); [done..|]. intros k Hk. apply HP. layout.
  - apply (field_agrees P); [done|layout|]. intros k Hk. apply HP. layout.
  - apply IH; [layout|]. intros k Hk. apply HP. layout.
Qed.
Lemma load_dyns_ok b off n o : 0 <= off → off + Z.of_nat n * dyn_size L <= Z.of_nat (length b) → load_dyns L b off n o = Done (dyns b off n, o).
Proof using HL.
  revert off. induction n as [|n IH]; intros off Ho Hn; [done|]. cbn [load_dyns dyns]. unfold mbind, M_bind.
  rewrite get_field_ok by layout. rewrite get_field_ok by layout. rewrite IH by layout. done.
Qed.

(** Entries whose numbers fit the fields. *)
Definition dyn_fits (e : dyn) : Prop := 0 <= d_tag e < 256 ^ word_size L ∧ 0 <= d_val e < 256 ^ word_size L.
Lemma dyns_fit b off n : all_bytes b = true → Forall dyn_fits (dyns b off n).
Proof using HL.
  intros Hb. revert off. induction n as [|n IH]; intros off; constructor; [|apply IH].
  assert (0 <= word_size L) by layout. split; by apply field_value_range.
Qed.

Lemma store_dyns_ok b off es o :
  0 <= off → off + Z.of_nat (length es) * dyn_size L <= Z.of_nat (length b) → Forall dyn_fits es →
  ∃ b', store_dyns L b off es o = Done (b', o) ∧ agrees (λ k, ¬ within off (Z.of_nat (length es) * dyn_size L) k) b b' ∧ dyns b' off (length es) = es.
Proof using HL.
  revert b off. induction es as [|e es IH]; intros b off Ho Hn Hfit; [by exists b|]. inversion_clear Hfit as [|? ? [Ht Hv] Hes]. cbn [length] in Hn.
  assert (Hw : 0 <= word_size L) by layout. cbn [store_dyns]. unfold mbind, M_bind.
  destruct (put_field_ok b off (word_size L) (d_tag e) o) as (b1 & -> & Ha1 & Hf1); [done|done|layout|].
  destruct (put_field_ok b1 (off + word_size L) (word_size L) (d_val e) o) as (b2 & -> & Ha2 & Hf2); [lia|done|rewrite (proj1 Ha1); layout|].
  destruct (IH b2 (off + dyn_size L)) as (b' & -> & Ha' & Hd); [layout|rewrite (proj1 Ha2), (proj1 Ha1); layout|done|]. exists b'. split; [done|]. split.
  - eapply agrees_trans; [eapply agrees_trans; [exact Ha1|exact Ha2|]|exact Ha'|]; [intros k Hk; exact Hk|]. cbn [length]. intros k Hk. layout.
  - cbn [length dyns]. rewrite Hd.
    rewrite (field_agrees _ _ _ off (word_size L) Ha'), (field_agrees _ _ _ off (word_size L) Ha2), Hf1 by (done || (intros k Hk; layout)).
    rewrite (field_agrees _ _ _ (off + word_size L) (word_size L) Ha'), Hf2 by (done || lia || (intros k Hk; layout)). by destruct e.
Qed.
Context (opts : options).
Hypothesis Hdry : dry_run opts = false.

(** ** The parts of a file *)

(** The size of the header, which ends in [e_shnum] and [e_shstrndx]. *)
Definition ehdr_size : Z := e_shnum_at L + 4.
Definition e_phoff (b : bytes) : Z := field b (e_phoff_at L) (word_size L).
Definition e_phnum (b : bytes) : Z := field b (e_phnum_at L) 2.
Definition e_shoff (b : bytes) : Z := field b (e_shoff_at L) (word_size L).
Definition e_shnum (b : bytes) : Z := field b (e_shnum_at L) 2.
Definition p_type (b : bytes) (i : Z) : Z := field b (e_phoff b + i * phdr_size L) 4.
Definition p_align (b : bytes) (i : Z) : Z := field b (e_phoff b + i * phdr_size L + p_align_at L) (word_size L).
Definition sh_type (b : bytes) (i : Z) : Z := field b (e_shoff b + i * shdr_size L + 4) 4.
Definition sh_offset (b : bytes) (i : Z) : Z := field b (e_shoff b + i * shdr_size L + sh_offset_at L) (word_size L).
Definition sh_size (b : bytes) (i : Z) : Z := field b (e_shoff b + i * shdr_size L + sh_size_at L) (word_size L).
Definition entries_of (b : bytes) (i : Z) : nat := Z.to_nat (sh_size b i / dyn_size L).

Definition apart (off n off' n' : Z) : Prop := off + n <= off' ∨ off' + n' <= off.
(** The dynamic sections. *)
Definition dynamic (b : bytes) (i : Z) : Prop := 1 <= i < e_shnum b ∧ sh_type b i = SHT_DYNAMIC.

(** Header, tables and dynamic sections lie in the file and apart; a table of at most one header is not looked at. *)
Record elf_wf (b : bytes) : Prop := {
  wf_bytes : all_bytes b = true;
  wf_small : Z.of_nat (length b) < 2 ^ 32;
  wf_header : ehdr_size <= Z.of_nat (length b) ∧ shdr_size L <= Z.of_nat (length b);
  wf_phdrs : e_phoff b + e_phnum b * phdr_size L <= Z.of_nat (length b) ∧ (1 < e_phnum b → ehdr_size <= e_phoff b);
  wf_shdrs : e_shoff b + e_shnum b * shdr_size L <= Z.of_nat (length b) ∧ (1 < e_shnum b → ehdr_size <= e_shoff b);
  wf_tables : 1 < e_phnum b → 1 < e_shnum b → apart (e_phoff b) (e_phnum b * phdr_size L) (e_shoff b) (e_shnum b * shdr_size L);
  wf_dynamic : ∀ i, dynamic b i → ehdr_size <= sh_offset b i ∧ dyn_size L <= sh_size b i ∧ sh_offset b i + sh_size b i <= Z.of_nat (length b) ∧
    apart (sh_offset b i) (sh_size b i) (e_shoff b) (e_shnum b * shdr_size L) ∧
    (1 < e_phnum b → apart (sh_offset b i) (sh_size b i) (e_phoff b) (e_phnum b * phdr_size L));
  wf_apart : ∀ i j, dynamic b i → dynamic b j → i ≠ j → apart (sh_offset b i) (sh_size b i) (sh_offset b j) (sh_size b j);
}.

(** ** The program headers *)

(** The alignment that a header is left with. *)
Definition new_align (b : bytes) (i : Z) : Z :=
  if (p_type b i =? PT_TLS) && (p_align b i <? word_size L * 8) then word_size L * 8 else p_align b i.

(** The bytes of the alignment of header [i], when it is too small for thread-local storage. *)
Definition align_raised (b : bytes) (i : Z) (k : nat) : Prop :=
  1 <= i < e_phnum b ∧ p_type b i = PT_TLS ∧ p_align b i < word_size L * 8 ∧ within (e_phoff b + i * phdr_size L + p_align_at L) (word_size L) k.

Lemma header_agrees (P : nat → Prop) b b' :
  agrees P b b' → (∀ k, within 0 ehdr_size k → P k) →
  e_phoff b' = e_phoff b ∧ e_phnum b' = e_phnum b ∧ e_shoff b' = e_shoff b ∧ e_shnum b' = e_shnum b.
Proof using HL.
  intros Ha HP. unfold e_phoff, e_phnum, e_shoff, e_shnum, ehdr_size in *.
  split_and!; (apply (field_agrees P); [done|layout|]; intros k Hk; apply HP; layout).
Qed.

Lemma tls_loop_ok fuel b i o :
  1 <= i <= 65536 → 65537 <= Z.of_nat fuel + i → 0 <= e_phoff b → 0 <= e_phnum b <= 65535 → ehdr_size <= Z.of_nat (length b) →
  e_phoff b + e_phnum b * phdr_size L <= Z.of_nat (length b) → (1 < e_phnum b → ehdr_size <= e_phoff b) →
  ∃ b', tls_loop L opts fuel b (e_phoff b) i o = Done (b', o) ∧
    agrees (λ k, ∀ j, i <= j → ¬ align_raised b j k) b b' ∧
    ∀ k, i <= k < e_phnum b → p_align b' k = new_align b k.
Proof using HL Hdry.
  revert b i. induction fuel as [|fuel IH]; intros b i Hi Hfuel Hoff Hnum Hh Hend Heh; [lia|]. cbn [tls_loop]. unfold mbind at 1, M_bind at 1.
  rewrite get_field_ok by (unfold ehdr_size in *; layout). fold (e_phnum b).
  destruct (Z.ltb_spec i (e_phnum b)) as [Hlt|Hge]; cbn [negb]; [|exists b; split; [done|]; split; [done|]; intros; lia].
  specialize (Heh ltac:(lia)). cbv zeta. unfold mbind, M_bind. rewrite get_field_ok by layout. rewrite get_field_ok by layout.
  fold (p_type b i) (p_align b i). rewrite Hdry. cbn [negb]. rewrite andb_true_r.
  set (at_i := e_phoff b + i * phdr_size L + p_align_at L).
  assert (Hstep : ∃ b1, (if (p_type b i =? PT_TLS) && (p_align b i <? word_size L * 8) then put_field b at_i (word_size L) (word_size L * 8) else mret b) o = Done (b1, o) ∧
    agrees (λ k, ¬ align_raised b i k) b b1 ∧ field b1 at_i (word_size L) = new_align b i).
  { unfold new_align. destruct (_ && _) eqn:Etls; [|by exists b]. apply andb_true_iff in Etls as [Et%Z.eqb_eq Eal%Z.ltb_lt].
    destruct (put_field_ok b at_i (word_size L) (word_size L * 8) o) as (b1 & H1 & H2 & H3); [unfold at_i; layout..|].
    exists b1. split; [done|]. split; [|apply H3; layout]. apply (agrees_mono _ _ _ _ H2). intros k Hk Hw. apply Hk. split; [lia|done]. }
  destruct Hstep as (b1 & -> & Ha1f & Hf1).
  assert (Ha1 : agrees (λ k, ¬ within at_i (word_size L) k) b b1) by (apply (agrees_mono _ _ _ _ Ha1f); intros k Hk (_ & _ & _ & Hw); by apply Hk).
  destruct (header_agrees _ _ _ Ha1) as (E1 & E2 & _); [intros k Hk; unfold at_i, ehdr_size in *; layout|].
  assert (Hsame : ∀ k, i < k → p_type b1 k = p_type b k ∧ p_align b1 k = p_align b k).
  { intros k Hk. unfold p_type, p_align. rewrite E1. split; apply (field_agrees _ _ _ _ _ Ha1); try (intros x Hx; unfold at_i); layout. }
  destruct (IH b1 (i + 1)) as (b' & Hr & Ha' & Hal); [lia|lia|lia|lia|rewrite (proj1 Ha1); lia|rewrite (proj1 Ha1), E1, E2; lia|by rewrite E1, E2|].
  assert (Ha'f : agrees (λ k, ∀ j, i + 1 <= j → ¬ align_raised b j k) b1 b').
  { apply (agrees_mono _ _ _ _ Ha'). intros k Hk j Hj Hr'. apply (Hk j Hj). unfold align_raised in *. destruct (Hsame j ltac:(lia)) as [<- <-]. by rewrite <- E1, <- E2. }
  assert (Ha'' : agrees (λ k, ¬ within (e_phoff b + (i + 1) * phdr_size L) ((e_phnum b - (i + 1)) * phdr_size L) k) b1 b').
  { apply (agrees_mono _ _ _ _ Ha'f). intros k Hk j Hj (Hr1 & _ & _ & Hw). apply Hk. layout. }
  rewrite E1, E2 in *. exists b'. split; [exact Hr|]. split.
  - eapply agrees_trans; [exact Ha1f|exact Ha'f|]. intros k Hk. split; [apply Hk; lia|]. intros j Hj. apply Hk. lia.
  - intros k Hk. destruct (header_agrees _ _ _ Ha'') as (E1' & _); [intros x Hx; unfold ehdr_size in *; layout|]. rewrite E1 in E1'.
    destruct (decide (k = i)) as [->|Hne].
    + unfold p_align. rewrite E1'. fold at_i. rewrite <- Hf1. apply (field_agrees _ _ _ _ _ Ha''); [unfold at_i; layout|]. intros x Hx. unfold at_i in Hx. layout.
    + rewrite Hal by lia. unfold new_align. destruct (Hsame k) as [-> ->]; [lia|done].
Qed.

(** ** The section headers *)

Definition version_section (t : Z) : bool := (t =? SHT_GNU_verdef) || (t =? SHT_GNU_verneed) || (t =? SHT_GNU_versym).
Definition new_type (b : bytes) (i : Z) : Z := if (api_level opts <? 23) && version_section (sh_type b i) then SHT_NULL else sh_type b i.
(** The entries of a section have each been cleaned, and still come before the first DT_NULL. *)
Definition section_cleaned (is_aarch64 : bool) (b b' : bytes) (i : Z) : Prop :=
  let es := dyns b (sh_offset b i) (entries_of b i) in
  let es' := dyns b' (sh_offset b i) (entries_of b i) in
  es' ≡ₚ clean_entry opts is_aarch64 <$> es ∧ Forall (λ e, removed opts is_aarch64 (d_tag e) = false) es' ∧ (terminated es → terminated es').
(** The places that the loop has not come to yet: the headers from [i] on, and their dynamic sections. *)
Definition todo (b : bytes) (i : Z) (k : nat) : Prop :=
  within (e_shoff b + i * shdr_size L) ((e_shnum b - i) * shdr_size L) k ∨
  ∃ j, i <= j ∧ dynamic b j ∧ within (sh_offset b j) (sh_size b j) k.

(** The bytes that the loop changes for header [i]: the type of a version section, or the entries of a dynamic one. *)
Definition section_changed (b : bytes) (i : Z) (k : nat) : Prop :=
  (1 <= i < e_shnum b ∧ api_level opts < 23 ∧ version_section (sh_type b i) = true ∧ within (e_shoff b + i * shdr_size L + 4) 4 k) ∨
  (dynamic b i ∧ within (sh_offset b i) (Z.of_nat (entries_of b i) * dyn_size L) k).

Lemma entries_bound b i : dyn_size L <= sh_size b i → Z.of_nat (entries_of b i) * dyn_size L <= sh_size b i ∧ entries_of b i ≠ 0%nat.
Proof using HL.
  intros H. assert (Hd : 0 < dyn_size L) by layout. pose proof (Z.mul_div_le (sh_size b i) (dyn_size L) Hd). pose proof (Z.div_str_pos (sh_size b i) (dyn_size L) ltac:(lia)).
  unfold entries_of. lia.
Qed.
Lemma land_le a m : 0 <= a → a .& m <= a.
Proof.
  intros Ha. assert (Hd : Z.ldiff (a .& m) a = 0).
  { apply Z.bits_inj'. intros n _. rewrite Z.ldiff_spec, Z.land_spec, Z.bits_0. by destruct (Z.testbit a n), (Z.testbit m n). }
  pose proof (Z.sub_nocarry_ldiff a (a .& m) Hd). pose proof (proj2 (Z.ldiff_nonneg a (a .& m)) (or_introl Ha)). lia.
Qed.
Lemma clean_entry_fits is_aarch64 e : dyn_fits e → dyn_fits (clean_entry opts is_aarch64 e).
Proof using HL.
  intros [Ht Hv]. unfold clean_entry. destruct (removed _ _ _); [split; [|done]; cbn [d_tag]; layout; done|]. destruct (d_tag e =? DT_FLAGS_1); [|done]. split; [done|]. cbn [d_val].
  split; [apply Z.land_nonneg; left; lia|]. eapply Z.le_lt_trans; [apply land_le; lia|apply Hv].
Qed.

(** One dynamic section. *)
Lemma dynamic_step is_aarch64 b0 b i o :
  elf_wf b0 → dynamic b0 i → agrees (todo b0 i) b0 b →
  ∃ es es' b1, load_dyns L b (sh_offset b0 i) (entries_of b0 i) o = Done (es, o) ∧ clean_dynamic opts is_aarch64 es o = Done (es', o) ∧
    store_dyns L b (sh_offset b0 i) es' o = Done (b1, o) ∧
    agrees (λ k, ¬ within (sh_offset b0 i) (Z.of_nat (entries_of b0 i) * dyn_size L) k) b b1 ∧ section_cleaned is_aarch64 b0 b1 i.
Proof using HL Hdry.
  intros Hwf Hd Ha. destruct (wf_dynamic _ Hwf i Hd) as (H1 & H2 & H3 & _). destruct (entries_bound b0 i H2) as [Hn Hn0].
  assert (H0 : 0 <= sh_offset b0 i) by (unfold ehdr_size in H1; layout).
  assert (Hes : dyns b (sh_offset b0 i) (entries_of b0 i) = dyns b0 (sh_offset b0 i) (entries_of b0 i)).
  { apply (dyns_agrees (todo b0 i)); [done..|]. intros k Hk. right. exists i. split; [lia|]. split; [done|]. unfold within in *. lia. }
  set (es := dyns b0 (sh_offset b0 i) (entries_of b0 i)) in *. assert (Hlen : length es = entries_of b0 i) by apply dyns_length.
  assert (Hlb := proj1 Ha). assert (Hne : es ≠ []) by (intros E; rewrite E in Hlen; cbn in Hlen; lia). pose proof (wf_small _ Hwf).
  destruct (clean_dynamic_run opts is_aarch64 Hdry es o Hne) as (es' & Hc & Hcl); [layout|]. pose proof Hcl as (_ & Hp & Hl & _).
  destruct (store_dyns_ok b (sh_offset b0 i) es' o) as (b1 & Hs & Ha1 & Hd1); [done|rewrite Hl, Hlen, Hlb; lia| |].
  { rewrite Hp. apply Forall_fmap, (Forall_impl dyn_fits); [apply dyns_fit, Hwf|apply clean_entry_fits]. }
  exists es, es', b1. rewrite load_dyns_ok, Hes by (lia || (rewrite Hlb; lia)). split; [done|]. split; [done|]. split; [done|]. split.
  - by rewrite Hl, Hlen in Ha1.
  - unfold section_cleaned. cbv zeta. fold es. rewrite <- Hlen, <- Hl, Hd1. split; [done|]. split; [by eapply cleaned_removed|by apply (cleaned_terminated opts is_aarch64)].
Qed.

(** What is yet to come is apart from the header and from a section that is done. *)
Lemma todo_header b i k : elf_wf b → 1 <= i → within 0 ehdr_size k → todo b i k → False.
Proof using HL.
  intros Hwf Hi Hk [Ht|(j & Hj & Hd & Ht)].
  - pose proof (proj2 (wf_shdrs _ Hwf)). unfold within in *. assert (1 < e_shnum b) by (layout; nia). layout.
  - pose proof (wf_dynamic _ Hwf j Hd). unfold within in *. lia.
Qed.
Lemma todo_dynamic b i k : elf_wf b → dynamic b i → within (sh_offset b i) (sh_size b i) k → todo b (i + 1) k → False.
Proof using HL.
  intros Hwf Hd Hk [Ht|(j & Hj & Hdj & Ht)].
  - destruct (wf_dynamic _ Hwf i Hd) as (_ & _ & _ & [?|?] & _); destruct Hd as [? _]; layout.
  - destruct (wf_apart _ Hwf i j Hd Hdj); unfold within in *; lia.
Qed.
Lemma todo_entry b i k : elf_wf b → 1 <= i < e_shnum b → within (e_shoff b + i * shdr_size L) (shdr_size L) k → todo b (i + 1) k → False.
Proof using HL.
  intros Hwf Hi Hk [Ht|(j & Hj & Hdj & Ht)]; [layout|].
  destruct (wf_dynamic _ Hwf j Hdj) as (_ & _ & _ & [?|?] & _); layout.
Qed.
Lemma todo_next b i k : 1 <= i < e_shnum b → todo b (i + 1) k → todo b i k.
Proof using HL.
  intros Hi [Ht|(j & Hj & Hd & Ht)]; [left; layout|]. right. exists j. split; [lia|done].
Qed.

(** What is changed for a header was yet to come, and is done with. *)
Lemma changed_todo b i j k : elf_wf b → i <= j → section_changed b j k → todo b i k.
Proof using HL.
  intros Hwf Hij [(Hj & _ & _ & Hk)|[Hd Hk]]; [left; layout|]. right. exists j. split; [done|]. split; [done|].
  destruct (wf_dynamic _ Hwf j Hd) as (_ & H2 & _). pose proof (entries_bound b j H2). unfold within in *. lia.
Qed.
Lemma changed_done b i k : elf_wf b → section_changed b i k → todo b (i + 1) k → False.
Proof using HL.
  intros Hwf [(Hi & _ & _ & Hk)|[Hd Hk]] Ht; [apply (todo_entry b i k); [done..|layout|done]|].
  destruct (wf_dynamic _ Hwf i Hd) as (_ & H2 & _). pose proof (entries_bound b i H2). apply (todo_dynamic b i k); [done..| |done]. unfold within in *. lia.
Qed.

(** What the loop does with the header [i], as one change of the file. *)
Definition header_done (is_aarch64 : bool) (b0 b1 : bytes) (i : Z) : Prop :=
  sh_type b1 i = new_type b0 i ∧ (dynamic b0 i → section_cleaned is_aarch64 b0 b1 i).

Lemma header_done_agrees is_aarch64 b0 b1 b' i :
  elf_wf b0 → 1 <= i < e_shnum b0 → 0 <= e_shoff b0 → e_shoff b1 = e_shoff b0 →
  agrees (λ k, ¬ todo b0 (i + 1) k) b1 b' → header_done is_aarch64 b0 b1 i → header_done is_aarch64 b0 b' i.
Proof using HL.
  intros Hwf Hi Ho Eo Ha [Ht Hc]. split.
  - rewrite <- Ht. unfold sh_type. destruct (header_agrees _ _ _ Ha) as (_ & _ & -> & _); [intros k Hk Htd; apply (todo_header b0 (i + 1) k); [done|lia|done..]|].
    rewrite Eo. apply (field_agrees _ _ _ _ _ Ha); [layout|]. intros k Hk Htd. apply (todo_entry b0 i k); [done..|layout|done].
  - intros Hd. specialize (Hc Hd). unfold section_cleaned in *. cbv zeta in *. destruct (wf_dynamic _ Hwf i Hd) as (H1 & H2 & _).
    rewrite (dyns_agrees _ _ _ (sh_offset b0 i) (entries_of b0 i) Ha); [done|unfold ehdr_size in H1; layout|].
    intros k Hk Htd. apply (todo_dynamic b0 i k); [done..| |done]. pose proof (entries_bound b0 i H2). unfold within in *. lia.
Qed.

Lemma size_end (x w : Z) : w = 4 ∨ w = 8 → 0 <= x < 2 ^ 32 → size (x mod 256 ^ w) = x.
Proof.
  intros Hw Hx. unfold size, SIZE_MAX, ULONG_MAX. rewrite (Z.mod_small x) by (destruct Hw as [-> | ->]; lia).
  apply Z.mod_small. destruct ulong_bits_ok as [-> | ->]; lia.
Qed.

Lemma header_step is_aarch64 b0 b i o :
  elf_wf b0 → 1 <= i < e_shnum b0 → agrees (λ k, within 0 ehdr_size k ∨ todo b0 i k) b0 b →
  ∃ b1, (∀ fuel, section_loop L opts (S fuel) is_aarch64 b (e_shoff b0) i o = section_loop L opts fuel is_aarch64 b1 (e_shoff b0) (i + 1) o) ∧
    agrees (λ k, ¬ section_changed b0 i k) b b1 ∧ header_done is_aarch64 b0 b1 i.
Proof using HL Hdry.
  intros Hwf Hi Ha. destruct (header_agrees _ _ _ Ha) as (_ & _ & Eo & En); [by left|].
  destruct (wf_shdrs _ Hwf) as [Hend Hoff]. specialize (Hoff ltac:(lia)). pose proof (wf_header _ Hwf) as [Hh _]. pose proof (wf_small _ Hwf) as Hn. assert (Hlb := proj1 Ha).
  assert (Hfield : ∀ off n, e_shoff b0 + i * shdr_size L <= off → off + n <= e_shoff b0 + (i + 1) * shdr_size L → field b off n = field b0 off n).
  { intros off n H1 H2. apply (field_agrees _ _ _ _ _ Ha); [unfold ehdr_size in Hoff; layout|]. intros k Hk. right. left. layout. }
  assert (Hkeep : ∀ b1, agrees (λ k, ¬ section_changed b0 i k) b b1 → e_shoff b1 = e_shoff b0).
  { intros b1 Ha1. destruct (header_agrees _ _ _ Ha1) as (_ & _ & -> & _); [|done]. intros k Hk Hc. apply (todo_header b0 i k); [done|lia|done|]. by apply (changed_todo b0 i i). }
  set (F := λ fuel, section_loop L opts (S fuel) is_aarch64 b (e_shoff b0) i o).
  enough (∃ b1, (∀ fuel, F fuel = section_loop L opts fuel is_aarch64 b1 (e_shoff b0) (i + 1) o) ∧
    agrees (λ k, ¬ section_changed b0 i k) b b1 ∧ header_done is_aarch64 b0 b1 i) by done.
  assert (Hloop : ∀ fuel, F fuel = section_loop L opts (S fuel) is_aarch64 b (e_shoff b0) i o) by done. clearbody F.
  cbn [section_loop] in Hloop. unfold mbind, M_bind in Hloop.
  rewrite get_field_ok in Hloop by (unfold ehdr_size in *; layout). fold (e_shnum b) in Hloop. rewrite En, (proj2 (Z.ltb_lt _ _)) in Hloop by lia. cbn [negb] in Hloop. cbv zeta in Hloop.
  rewrite get_field_ok in Hloop by (unfold ehdr_size in *; layout).
  rewrite (Hfield (e_shoff b0 + i * shdr_size L + 4) 4) in Hloop by layout. fold (sh_type b0 i) in Hloop.
  destruct (Z.eqb_spec (sh_type b0 i) SHT_DYNAMIC) as [Ed|Ed].
  - assert (Hd : dynamic b0 i) by done. destruct (wf_dynamic _ Hwf i Hd) as (H1 & H2 & H3 & H4 & _).
    rewrite get_field_ok in Hloop by (unfold ehdr_size in *; layout). rewrite get_field_ok in Hloop by (unfold ehdr_size in *; layout).
    rewrite (Hfield (e_shoff b0 + i * shdr_size L + sh_offset_at L)), (Hfield (e_shoff b0 + i * shdr_size L + sh_size_at L)) in Hloop by layout.
    fold (sh_offset b0 i) (sh_size b0 i) in Hloop.
    rewrite size_end, (proj2 (Z.ltb_ge _ _)) in Hloop by (try (unfold ehdr_size in *; layout); layout). fold (entries_of b0 i) in Hloop.
    destruct (dynamic_step is_aarch64 b0 b i o Hwf Hd) as (es & es' & b1 & Hl & Hc & Hs & Ha1 & Hcl); [apply (agrees_mono _ _ _ _ Ha); by right|].
    rewrite Hl, Hc, Hs in Hloop. assert (Ha1' : agrees (λ k, ¬ section_changed b0 i k) b b1).
    { apply (agrees_mono _ _ _ _ Ha1). intros k Hk Hw. apply Hk. by right. }
    exists b1. split; [exact Hloop|]. split; [done|]. split; [|done]. unfold new_type. rewrite Ed. change (version_section SHT_DYNAMIC) with false. rewrite andb_false_r.
    rewrite <- Ed. unfold sh_type. rewrite (Hkeep b1) by done. rewrite (field_agrees _ _ _ _ _ Ha1); [apply Hfield; layout|unfold ehdr_size in *; layout|].
    intros k Hk Hw. pose proof (entries_bound b0 i H2). destruct H4; layout.
  - fold (version_section (sh_type b0 i)) in Hloop. destruct ((api_level opts <? 23) && version_section (sh_type b0 i)) eqn:Ev.
    + rewrite Hdry in Hloop. cbn [negb] in Hloop.
      destruct (put_field_ok b (e_shoff b0 + i * shdr_size L + 4) 4 SHT_NULL o) as (b1 & Hp & Ha1 & Hf); [unfold ehdr_size in *; layout|lia|layout|]. rewrite Hp in Hloop.
      assert (Ha1' : agrees (λ k, ¬ section_changed b0 i k) b b1).
      { apply (agrees_mono _ _ _ _ Ha1). intros k Hk Hw. apply Hk. left. apply andb_true_iff in Ev as [Ev1%Z.ltb_lt Ev2]. split; [lia|done]. }
      exists b1. split; [exact Hloop|]. split; [done|]. split; [|by intros [_ ?]]. unfold new_type. rewrite Ev. unfold sh_type. rewrite (Hkeep b1) by done. by apply Hf.
    + exists b. split; [exact Hloop|]. split; [done|]. split; [|by intros [_ ?]]. unfold new_type. rewrite Ev. unfold sh_type. rewrite Eo. apply Hfield; layout.
Qed.

Lemma section_loop_ok is_aarch64 b0 fuel b i o :
  elf_wf b0 → 1 <= i <= 65536 → 65537 <= Z.of_nat fuel + i → agrees (λ k, within 0 ehdr_size k ∨ todo b0 i k) b0 b →
  ∃ b', section_loop L opts fuel is_aarch64 b (e_shoff b0) i o = Done ((true, b'), o) ∧
    agrees (λ k, ∀ j, i <= j → ¬ section_changed b0 j k) b b' ∧ ∀ j, i <= j < e_shnum b0 → header_done is_aarch64 b0 b' j.
Proof using HL Hdry.
  intros Hwf. revert b i. induction fuel as [|fuel IH]; intros b i Hi Hfuel Ha; [lia|].
  pose proof (field_value_range b0 (e_shnum_at L) 2 (wf_bytes _ Hwf) ltac:(lia)) as Hnum. fold (e_shnum b0) in Hnum.
  assert (Ho : 0 <= e_shoff b0) by (apply field_value_range; [apply Hwf|layout]).
  destruct (header_agrees _ _ _ Ha) as (_ & _ & Eo & En); [by left|]. destruct (Z.lt_ge_cases i (e_shnum b0)) as [Hlt|Hge].
  - destruct (header_step is_aarch64 b0 b i o Hwf ltac:(lia) Ha) as (b1 & Hl & Ha1 & Hd1).
    assert (Ha1' : agrees (λ k, within 0 ehdr_size k ∨ todo b0 (i + 1) k) b0 b1).
    { eapply agrees_trans; [exact Ha|exact Ha1|]. intros k [Hk|Hk].
      - split; [by left|]. intros Hc. apply (todo_header b0 i k); [done|lia|done|]. by apply (changed_todo b0 i i).
      - split; [right; apply todo_next; [lia|done]|]. intros Hc. by apply (changed_done b0 i k). }
    destruct (IH b1 (i + 1) ltac:(lia) ltac:(lia) Ha1') as (b' & Hr & Ha' & Hd'). exists b'. split; [by rewrite Hl|]. split.
    + eapply agrees_trans; [exact Ha1|exact Ha'|]. intros k Hk. split; [by apply Hk|]. intros j Hj. apply Hk. lia.
    + intros j Hj. destruct (decide (j = i)) as [->|Hne]; [|apply Hd'; lia]. destruct (header_agrees _ _ _ Ha1') as (_ & _ & Eo1 & _); [by left|].
      apply (header_done_agrees _ _ b1); [done|lia|done|done| |done]. apply (agrees_mono _ _ _ _ Ha'). intros k Hk x Hx Hc. apply Hk. by apply (changed_todo b0 (i + 1) x).
  - exists b. pose proof (wf_header _ Hwf) as [Hh _]. assert (Hlb := proj1 Ha). cbn [section_loop]. unfold mbind, M_bind.
    rewrite get_field_ok by (unfold ehdr_size in *; layout). fold (e_shnum b). rewrite En, (proj2 (Z.ltb_ge _ _)) by lia. split; [done|]. split; [done|]. intros; lia.
Qed.

(** ** The whole file *)

(** The program headers behind the first, in which alignments are changed. *)
Definition phdrs (b : bytes) (k : nat) : Prop := within (e_phoff b + phdr_size L) ((e_phnum b - 1) * phdr_size L) k.
Lemma phdrs_apart b k : elf_wf b → phdrs b k → within 0 ehdr_size k ∨ todo b 1 k → False.
Proof using HL.
  intros Hwf Hp. unfold phdrs in Hp. destruct (wf_phdrs _ Hwf) as [_ H1]. assert (Hn : 1 < e_phnum b) by (layout; nia). specialize (H1 Hn).
  intros [Hk|[Ht|(j & Hj & Hd & Ht)]]; [layout| |].
  - assert (Hs : 1 < e_shnum b) by (layout; nia). destruct (wf_tables _ Hwf Hn Hs); layout.
  - destruct (wf_dynamic _ Hwf j Hd) as (_ & _ & _ & _ & H2). destruct (H2 Hn); layout.
Qed.

(** A file is cleaned: alignments, types and dynamic sections are what they should be, and no byte has changed but those of an
    alignment that was too small, of the type of a version section below API level 23, or of the entries of a dynamic section. *)
Record elf_cleaned (b b' : bytes) : Prop := {
  cl_else : agrees (λ k, ∀ i, 1 <= i → ¬ align_raised b i k ∧ ¬ section_changed b i k) b b';
  cl_align : ∀ i, 1 <= i < e_phnum b → p_align b' i = new_align b i;
  cl_sections : ∀ i, 1 <= i < e_shnum b → header_done (field b 18 2 =? 183) b b' i;
}.

Lemma process_elf_cleans b o : elf_wf b → ∃ b', process_elf L opts b o = Done ((true, b'), o) ∧ elf_cleaned b b'.
Proof using HL Hdry.
  intros Hwf. destruct (wf_header _ Hwf) as [Hh Hs]. destruct (wf_phdrs _ Hwf) as [Hpe Hpo]. destruct (wf_shdrs _ Hwf) as [Hse _]. pose proof (wf_small _ Hwf) as Hn.
  pose proof (field_value_range b (e_phnum_at L) 2 (wf_bytes _ Hwf) ltac:(lia)) as Hpn. fold (e_phnum b) in Hpn.
  pose proof (field_value_range b (e_shnum_at L) 2 (wf_bytes _ Hwf) ltac:(lia)) as Hsn. fold (e_shnum b) in Hsn.
  assert (Hpp : 0 <= e_phoff b) by (apply field_value_range; [apply Hwf|layout]). assert (Hsp : 0 <= e_shoff b) by (apply field_value_range; [apply Hwf|layout]).
  assert (Hsize : ∀ x, 0 <= x < 2 ^ 32 → size x = x).
  { intros x Hx. unfold size, SIZE_MAX, ULONG_MAX. apply Z.mod_small. destruct ulong_bits_ok as [-> | ->]; lia. }
  destruct (tls_loop_ok loop_fuel b 1 o) as (b1 & Htls & Ha1 & Hal); [lia|unfold loop_fuel; lia|done|lia|done|done|done|].
  assert (Ha1' : agrees (λ k, within 0 ehdr_size k ∨ todo b 1 k) b b1).
  { apply (agrees_mono _ _ _ _ Ha1). intros k Hk j Hj (Hn1 & _ & _ & Hw). apply (phdrs_apart b k); [done| |done]. unfold phdrs. layout. }
  destruct (header_agrees _ _ _ Ha1') as (Ep & _ & Eo & En); [by left|].
  destruct (section_loop_ok (field b 18 2 =? 183) b loop_fuel b1 1 o Hwf) as (b' & Hsec & Ha' & Hd'); [lia|unfold loop_fuel; lia|done|].
  exists b'. split.
  - unfold process_elf. rewrite (proj2 (Z.ltb_ge _ _)) by done. unfold mbind, M_bind. do 3 (rewrite get_field_ok by (unfold ehdr_size in *; layout)).
    fold (e_phoff b) (e_phnum b). rewrite Hsize, (proj2 (Z.ltb_ge _ _)) by layout. rewrite Htls. assert (Hl1 := proj1 Ha1).
    do 2 (rewrite get_field_ok by (unfold ehdr_size in *; layout)). fold (e_shoff b1) (e_shnum b1). rewrite Eo, En, Hsize, (proj2 (Z.ltb_ge _ _)) by layout. exact Hsec.
  - split; [|intros i Hi|done].
    + eapply agrees_trans; [exact Ha1|exact Ha'|]. intros k Hk. split; intros j Hj; by apply Hk.
    + rewrite <- Hal by lia. assert (Hsec_todo : agrees (λ k, ¬ todo b 1 k) b1 b').
      { apply (agrees_mono _ _ _ _ Ha'). intros k Hk j Hj Hc. apply Hk. by apply (changed_todo b 1 j). }
      destruct (header_agrees _ _ _ Hsec_todo) as (Ep' & _); [intros k Hk Ht; apply (todo_header b 1 k); [done|lia|done..]|].
      unfold p_align. rewrite Ep', Ep. apply (field_agrees _ _ _ _ _ Hsec_todo); [layout|]. intros k Hk Ht. apply (phdrs_apart b k); [done| |by right]. unfold phdrs. layout.
Qed.
End Safe.

(** The layout of a class of files, and its number in the header. *)
Definition layout_of (is_64 : bool) : elf_layout := if is_64 then Elf64 else Elf32.
Definition class_of (is_64 : bool) : Z := if is_64 then 2 else 1.

Lemma at_take (b : bytes) k n x : take n b !! k = Some x → at_ b k = x.
Proof. intros H. unfold at_. apply lookup_take_Some in H as [-> _]. done. Qed.

(** C19: elf-cleaner, not in a dry run, on a well-formed file of either class, smaller than 4 GiB, that can be mapped and whose header,
    tables and dynamic sections (of at least one entry each) lie in it and apart from each other: it accesses nothing outside of the file and
    returns 0, or 1 when the file cannot be written back.  Of the program headers but the first, those of thread-local storage with an
    alignment below 8 words have 8 words (32 or 64) at any API level, although a comment of the code says below 29, and the others the
    alignment they had; version sections have the type SHT_NULL below API level 23 and the others the type they had; the entries of every
    dynamic section have each been cleaned and still come before the first DT_NULL.  No byte of the file has changed but those of an
    alignment field that was raised, of the 4-byte type of a version section below API level 23, and of the entries of a dynamic section. *)
Theorem parse_file_cleans {plat : Platform} (opts : options) (f : file) (is_64 : bool) (o : allocs)
    (Hdry : dry_run opts = false) (Hstat : fstat_fails f = false) (Hmap : mmap_fails f = false)
    (Hhead : take 6 (contents f) = [0x7f; ch "E"; ch "L"; ch "F"; class_of is_64; 1])
    (Hwf : elf_wf (layout_of is_64) (contents f)) :
  ∃ b', parse_file opts f o = Done ((if msync_fails f then 1 else 0, b'), o) ∧ elf_cleaned (layout_of is_64) opts (contents f) b'.
Proof.
  assert (HL : layout_of is_64 = Elf32 ∨ layout_of is_64 = Elf64) by (destruct is_64; auto).
  destruct (process_elf_cleans (layout_of is_64) HL opts Hdry (contents f) o Hwf) as (b' & Hp & Hc). exists b'. split; [|done].
  assert (Hat : ∀ k x, [0x7f; ch "E"; ch "L"; ch "F"; class_of is_64; 1] !! k = Some x → at_ (contents f) k = x) by (intros k x Hk; rewrite <- Hhead in Hk; by eapply at_take).
  unfold parse_file. cbv zeta. rewrite Hstat, Hmap. rewrite (Hat 0%nat _ eq_refl), (Hat 1%nat _ eq_refl), (Hat 2%nat _ eq_refl), (Hat 3%nat _ eq_refl), (Hat 4%nat _ eq_refl), (Hat 5%nat _ eq_refl).
  rewrite (proj2 (Z.ltb_ge _ _)).
  2:{ pose proof (wf_header _ _ Hwf) as [Hh _]. unfold ehdr_size, SIZEOF_Elf32_Ehdr in *. destruct is_64; cbn [layout_of e_shnum_at Elf32 Elf64] in Hh; lia. }
  rewrite !Z.eqb_refl. cbn [andb negb]. unfold mbind, M_bind.
  destruct is_64; cbn [class_of layout_of] in *; [change (2 =? 1) with false; change (2 =? 2) with true|change (1 =? 1) with true]; cbn [orb]; by rewrite Hp.
Qed.

(** A 64-bit file: two program headers, the second one of thread-local storage with the alignment 16, and the sections: none, versions, dynamic. *)
Definition tls_header : bytes := le_bytes 4 PT_TLS ++ replicate 44 0 ++ le_bytes 8 16.
Definition section_header (sh_type sh_offset sh_size : Z) : bytes := replicate 4 0 ++ le_bytes 4 sh_type ++ replicate 16 0 ++ le_bytes 8 sh_offset ++ le_bytes 8 sh_size ++ replicate 24 0.
Definition sample_elf : bytes :=
  [0x7f; 0x45; 0x4c; 0x46; 2; 1; 1; 0] ++ replicate 8 0 ++ le_bytes 2 3 ++ le_bytes 2 183 ++ replicate 12 0 ++ le_bytes 8 64 ++ le_bytes 8 224 ++
  replicate 8 0 ++ le_bytes 2 2 ++ replicate 2 0 ++ le_bytes 2 3 ++ replicate 2 0 ++
  replicate 56 0 ++ tls_header ++ (le_bytes 8 DT_RPATH ++ le_bytes 8 1 ++ le_bytes 8 5 ++ le_bytes 8 7 ++ replicate 16 0) ++
  section_header SHT_NULL 0 0 ++ section_header SHT_GNU_versym 0 0 ++ section_header SHT_DYNAMIC 176 48.
Definition sample_file : file := {| contents := sample_elf; fstat_fails := false; mmap_fails := false; msync_fails := false; close_fails := false |}.

Lemma sample_dynamic i : dynamic Elf64 sample_elf i → i = 2.
Proof.
  intros [Hi Ht]. assert (e_shnum Elf64 sample_elf = 3) as E by (vm_compute; reflexivity). rewrite E in Hi.
  destruct (decide (i = 1)) as [->|]; [|lia]. vm_compute in Ht. discriminate.
Qed.
Lemma sample_wf : elf_wf Elf64 sample_elf.
Proof.
  split; try (vm_compute; done); try (split; vm_compute; done).
  - intros _ _. left. vm_compute. discriminate.
  - intros i ->%sample_dynamic. split_and!; try (vm_compute; discriminate); [left|intros _; right]; vm_compute; discriminate.
  - intros i j ->%sample_dynamic ->%sample_dynamic. done.
Qed.
Lemma parse_file_cleans_witness :
  ∃ b', parse_file (plat := x86_64) sample_options sample_file [] = Done ((0, b'), []) ∧ elf_cleaned Elf64 sample_options sample_elf b'.
Proof.
  apply (parse_file_cleans (plat := x86_64) sample_options sample_file true []); [reflexivity..|vm_compute; reflexivity|exact sample_wf].
Defined.
(** What becomes of it: the alignment is 64, the version section is gone, and the path is behind the entry that stays. *)
Example sample_elf_cleaned :
  ∃ b', run (parse_file (plat := x86_64) sample_options sample_file) = Done (0, b') ∧ p_align Elf64 b' 1 = 64 ∧ sh_type Elf64 b' 1 = SHT_NULL ∧
    dyns Elf64 b' 176 3 = [{| d_tag := 5; d_val := 7 |}; {| d_tag := DT_NULL; d_val := 1 |}; {| d_tag := DT_NULL; d_val := 0 |}].
Proof. eexists. split; [vm_compute; reflexivity|]. vm_compute. done. Qed.
