(* ===== verification/NatPunch.v ===== *)
(** * NatPunch: contrib/nat-hole-punching, the server and the client

    The server remembers the address from which each key last spoke and tells it to those who ask for that key; the
    client asks for all peers of an interface until each has been answered, and sets their endpoints.
    Keys are the 32 bytes; addresses and ports are the numbers in network order. *)

From Stdlib Require Import Ascii String.
From stdpp Require Import base numbers option sets list list_numbers strings gmap.
From S2P Require Import Prelude CLib Containers.
#[local] Open Scope c_scope.

Definition PORT : Z := 49918.

(** ** nat-punch-server.c *)

Record entry := { pubkey : bytes; e_ip : Z; e_port : Z }.
Definition entry_zero : entry := {| pubkey := replicate 32 0; e_ip := 0; e_port := 0 |}.
Definition MAX_ENTRIES : Z := 65536.
Record server := { entries : list entry; next_entry : Z }.
Definition server_zero : server := {| entries := replicate (Z.to_nat MAX_ENTRIES) entry_zero; next_entry := 0 |}.

(** The place of the first entry of a key. *)
Fixpoint find_from (es : list entry) (key : bytes) : option nat :=
  match es with
  | [] => None
  | e :: es' => if negb (truthy (memcmp (pubkey e) key 32)) then Some 0%nat else S <$> find_from es' key
  end.
Definition find_entry (s : server) (key : bytes) : option nat := find_from (entries s) key.

Definition find_or_insert_entry (s : server) (key : bytes) : nat * server :=
  match find_entry s key with
  | Some i => (i, s)
  | None =>
      let i := Z.to_nat (next_entry s mod MAX_ENTRIES) in
      (i, {| entries := alter (λ e, {| pubkey := key; e_ip := e_ip e; e_port := e_port e |}) i (entries s); next_entry := u32 (next_entry s + 1) |})
  end.

(** What [recvfrom] gives: the bytes of the packet and the address of the sender, or an error. *)
Record datagram := { d_bytes : bytes; d_ip : Z; d_port : Z }.

(** A turn of the loop in [main]: the reply that is sent, [None] for the empty one, unless the datagram is too short;
    a longer one is cut. *)
Definition serve (s : server) (d : option datagram) : option (option (Z * Z)) * server :=
  match d with
  | None => (None, s)
  | Some d =>
      if (length (d_bytes d) <? 64)%nat then (None, s)
      else
        let my_pubkey := take 32 (d_bytes d) in
        let their_pubkey := take 32 (drop 32 (d_bytes d)) in
        let '(i, s) := find_or_insert_entry s my_pubkey in
        let s := {| entries := alter (λ e, {| pubkey := pubkey e; e_ip := d_ip d; e_port := d_port d |}) i (entries s); next_entry := next_entry s |} in
        match find_entry s their_pubkey with
        | Some k => (Some ((λ e, (e_ip e, e_port e)) <$> entries s !! k), s)
        | None => (Some None, s)
        end
  end.

(** The loop, over what is received: the replies in order. *)
Fixpoint server_loop (s : server) (ds : list (option datagram)) : list (option (option (Z * Z))) * server :=
  match ds with
  | [] => ([], s)
  | d :: ds' =>
      let '(r, s) := serve s d in
      let '(rs, s) := server_loop s ds' in
      (r :: rs, s)
  end.

(** ** nat-punch-client.c: the filter of the raw socket *)

(** The instructions of a socket filter that [apply_bpf] uses: loads of a word and of a half word at an
    offset, a jump on equality, and the end. *)
Inductive sock_filter :=
  | LD_W_ABS (k : Z)
  | LD_H_ABS (k : Z)
  | JEQ_K (k : Z) (jt jf : nat)
  | RET_K (k : Z).

(** filter.txt of Linux: loads are big-endian, one outside of the packet ends the program with 0, and a
    program ends with an instruction RET.  The result is the number of bytes kept. *)
Definition be_load (pkt : bytes) (off n : nat) : option Z :=
  if (off + n <=? length pkt)%nat then Some (foldl (λ v b, v * 256 + b) 0 (take n (drop off pkt))) else None.
Fixpoint run_filter (fuel : nat) (prog : list sock_filter) (pkt : bytes) (a : Z) : option Z :=
  match fuel, prog with
  | S fuel', LD_W_ABS k :: prog' => match be_load pkt (Z.to_nat k) 4 with Some v => run_filter fuel' prog' pkt v | None => Some 0 end
  | S fuel', LD_H_ABS k :: prog' => match be_load pkt (Z.to_nat k) 2 with Some v => run_filter fuel' prog' pkt v | None => Some 0 end
  | S fuel', JEQ_K k jt jf :: prog' => run_filter fuel' (drop (if a =? k then jt else jf) prog') pkt a
  | S _, RET_K k :: _ => Some (u32 k)
  | _, _ => None
  end.

Definition apply_bpf (port ip : Z) : list sock_filter :=
  [LD_W_ABS 12; JEQ_K ip 0 5; LD_H_ABS 20; JEQ_K PORT 0 3; LD_H_ABS 22; JEQ_K port 0 1; RET_K (-1); RET_K 0].

(** ** nat-punch-client.c: the peers *)

Record peer := { base64_key : bytes; have_seen : bool }.
Definition MAX_PEERS : Z := 65536.

(** [fgets(buf, n, f)]: what is stored, and what is left of the stream. *)
Fixpoint fgets_chars (n : nat) (f : bytes) : bytes * bytes :=
  match n, f with
  | S n', c :: f' => if c =? 10 then ([c], f') else let '(l, r) := fgets_chars n' f' in (c :: l, r)
  | _, _ => ([], f)
  end.
Definition fgets (n : nat) (f : bytes) : option (bytes * bytes) := if f is [] then None else Some (fgets_chars (n - 1) f).

(** The loop of [read_peers] over the output of wg; a store behind the array is undefined. *)
Fixpoint read_peers (fuel : nat) (f : bytes) (peers : list peer) : M (list peer) :=
  match fuel with
  | O => out_of_fuel
  | S fuel' =>
      match fgets 45 f with
      | None => mret peers
      | Some (line, f) =>
          let base64_key := cstr line in
          let len := length base64_key in
          if MAX_PEERS <=? Z.of_nat (length peers) then undefined
          else if negb (len =? 44)%nat && negb (len =? 45)%nat then read_peers fuel' f peers
          else
            let key := if at_ base64_key (len - 1) =? 10 then take (len - 1) base64_key else base64_key in
            read_peers fuel' f (peers ++ [{| base64_key := key; have_seen := false |}])
      end
  end.

(** ** nat-punch-client.c: asking the server *)

(** What the client does about a peer: it sends a request, and sets the endpoint. *)
Inductive action := Ask (key : bytes) | Set_endpoint (key : bytes) (ip port : Z).

Section Client.
(** The answer to the request that follows what has been done: the address, or [None] for a
    reply of another size. *)
Variable answer : list action → bytes → option (Z * Z).

(** The loop over the peers: the peers, whether to repeat, and what has been done. *)
Fixpoint ask_peers (peers : list peer) (repeat : bool) (log : list action) : list peer * bool * list action :=
  match peers with
  | [] => ([], repeat, log)
  | p :: peers' =>
      if have_seen p then
        let '(ps, repeat, log) := ask_peers peers' repeat log in (p :: ps, repeat, log)
      else
        let log := log ++ [Ask (base64_key p)] in
        match answer log (base64_key p) with
        | None => let '(ps, repeat, log) := ask_peers peers' true log in (p :: ps, repeat, log)
        | Some (ip, port) =>
            let '(ps, repeat, log) := ask_peers peers' repeat (log ++ [Set_endpoint (base64_key p) ip port]) in
            ({| base64_key := base64_key p; have_seen := true |} :: ps, repeat, log)
        end
  end.

(** From [check_again] on; the fuel is the number of rounds that are waited for. *)
Fixpoint check_again (fuel : nat) (peers : list peer) (log : list action) : M (list peer * list action) :=
  match fuel with
  | O => out_of_fuel
  | S fuel' =>
      let '(peers, repeat, log) := ask_peers peers false log in
      if (repeat : bool) then check_again fuel' peers log else mret (peers, log)
  end.
End Client.
