(* ===== verification/NatPunchSpec.v ===== *)
(** * NatPunchSpec: what the server remembers and the client asks for *)

From Stdlib Require Import Ascii String.
From stdpp Require Import base numbers option sets list list_numbers strings gmap.
From S2P Require Import Prelude CLib Encoding Containers Setconf NatPunch.
#[local] Open Scope c_scope.

(** ** The filter *)

(** The fields of an IPv4 packet with a UDP header behind 20 bytes. *)
Definition has_field (pkt : bytes) (off n : nat) (v : Z) : bool := bool_decide (be_load pkt off n = Some v).
Definition from_server (pkt : bytes) (ip port : Z) : bool := has_field pkt 12 4 ip && has_field pkt 20 2 PORT && has_field pkt 22 2 port.

(** A load and the jump behind it. *)
Lemma load_w_then_jump fuel k v jf prog pkt a :
  run_filter (S (S fuel)) (LD_W_ABS k :: JEQ_K v 0 jf :: prog) pkt a =
  if has_field pkt (Z.to_nat k) 4 v then run_filter fuel prog pkt v
  else match be_load pkt (Z.to_nat k) 4 with Some w => run_filter fuel (drop jf prog) pkt w | None => Some 0 end.
Proof.
  unfold has_field. cbn [run_filter]. destruct (be_load pkt (Z.to_nat k) 4) as [w|]; [|done]. destruct (Z.eqb_spec w v) as [->|Hne].
  - by rewrite bool_decide_true.
  - rewrite bool_decide_false by congruence. done.
Qed.
Lemma load_h_then_jump fuel k v jf prog pkt a :
  run_filter (S (S fuel)) (LD_H_ABS k :: JEQ_K v 0 jf :: prog) pkt a =
  if has_field pkt (Z.to_nat k) 2 v then run_filter fuel prog pkt v
  else match be_load pkt (Z.to_nat k) 2 with Some w => run_filter fuel (drop jf prog) pkt w | None => Some 0 end.
Proof.
  unfold has_field. cbn [run_filter]. destruct (be_load pkt (Z.to_nat k) 2) as [w|]; [|done]. destruct (Z.eqb_spec w v) as [->|Hne].
  - by rewrite bool_decide_true.
  - rewrite bool_decide_false by congruence. done.
Qed.

(** The socket filter that the client attaches keeps the whole packet when it comes from the port and the address of the server and goes to
    the port of the interface, and drops every other packet, short ones included. *)
Theorem filter_exact (pkt : bytes) (port ip : Z) :
  run_filter 8 (apply_bpf port ip) pkt 0 = Some (if from_server pkt ip port then 2 ^ 32 - 1 else 0).
Proof.
  unfold from_server, apply_bpf. rewrite load_w_then_jump. change (Z.to_nat 12) with 12%nat.
  destruct (has_field pkt 12 4 ip); [|by destruct (be_load pkt 12 4)]. rewrite load_h_then_jump. change (Z.to_nat 20) with 20%nat.
  destruct (has_field pkt 20 2 PORT); [|by destruct (be_load pkt 20 2)]. rewrite load_h_then_jump. change (Z.to_nat 22) with 22%nat.
  destruct (has_field pkt 22 2 port); [done|]. by destruct (be_load pkt 22 2).
Qed.

(** ** The server *)

Definition key_bytes (k : bytes) : Prop := length k = 32%nat.
Abbreviation no_key := (replicate 32 0).
Abbreviation addresses := (gmap bytes (Z * Z)).

(** The server as a map from keys to addresses. *)
Definition remember (m : addresses) (d : datagram) : addresses := <[take 32 (d_bytes d) := (d_ip d, d_port d)]> m.
(** A datagram that is long enough. *)
Definition accepted (d : option datagram) : option datagram := d ← d; if (length (d_bytes d) <? 64)%nat then None else Some d.
Definition learn (m : addresses) (d : option datagram) : addresses := match accepted d with Some d => remember m d | None => m end.
Fixpoint replies (m : addresses) (ds : list (option datagram)) : list (option (option (Z * Z))) :=
  match ds with
  | [] => []
  | d :: ds' =>
      let m := learn m d in
      ((λ d, m !! take 32 (drop 32 (d_bytes d))) <$> accepted d) :: replies m ds'
  end.

Lemma memcmp_key a b : key_bytes a → key_bytes b → negb (truthy (memcmp a b 32)) = bool_decide (a = b).
Proof.
  intros Ha Hb. unfold truthy. destruct (Z.eqb_spec (memcmp a b 32) 0) as [E|E]; cbn [negb].
  - symmetry. apply bool_decide_true. by apply (memcmp_eq a b 32).
  - symmetry. apply bool_decide_false. intros ->. apply E. by apply (memcmp_eq b b 32).
Qed.

Lemma find_from_spec es key :
  Forall (λ e, key_bytes (pubkey e)) es → key_bytes key →
  match find_from es key with
  | Some i => ∃ e, es !! i = Some e ∧ pubkey e = key
  | None => key ∉ (pubkey <$> es)
  end.
Proof.
  intros Hes Hk. induction Hes as [|e es He _ IH]; [apply not_elem_of_nil|]. cbn [find_from]. rewrite memcmp_key by done.
  case_bool_decide as E; [by exists e|]. destruct (find_from es key) as [i|].
  - destruct IH as (x & Hx & Hp). by exists x.
  - cbn [fmap option_fmap option_map]. rewrite fmap_cons, not_elem_of_cons. split; [congruence|done].
Qed.

(** The entries of a table, used ones and zero ones. *)
Definition table (used : list entry) : list entry := used ++ replicate (Z.to_nat MAX_ENTRIES - length used) entry_zero.
Definition used_ok (used : list entry) : Prop :=
  (length used <= Z.to_nat MAX_ENTRIES)%nat ∧ NoDup (pubkey <$> used) ∧ Forall (λ e, key_bytes (pubkey e) ∧ pubkey e ≠ no_key) used.
Definition used_map (used : list entry) (m : addresses) : Prop := ∀ k a, m !! k = Some a ↔ ∃ e, e ∈ used ∧ pubkey e = k ∧ (e_ip e, e_port e) = a.

Lemma find_table used m key :
  used_ok used → used_map used m → key_bytes key → key ≠ no_key →
  match find_from (table used) key with
  | Some i => ∃ e, used !! i = Some e ∧ pubkey e = key ∧ m !! key = Some (e_ip e, e_port e)
  | None => m !! key = None
  end.
Proof.
  intros (_ & _ & Hu) Hm Hk Hz. assert (Htab : Forall (λ e, key_bytes (pubkey e)) (table used)).
  { apply Forall_app. split; [eapply Forall_impl; [exact Hu|]; intros e He; apply He|]. apply Forall_replicate. done. }
  pose proof (find_from_spec (table used) key Htab Hk) as H. destruct (find_from (table used) key) as [i|].
  - destruct H as (e & [He|[_ [-> _]%lookup_replicate]]%lookup_app_Some & Hp); [|by destruct Hz]. exists e. split; [done|]. split; [done|].
    apply Hm. exists e. split; [by eapply list_elem_of_lookup_2|done].
  - apply eq_None_not_Some. intros [a (e & He & Hp & _)%Hm]. apply H. unfold table. rewrite fmap_app. apply elem_of_app. left. rewrite <- Hp.
    by apply list_elem_of_fmap_2.
Qed.

(** The used entries come first, with distinct keys, and the others are zero. *)
Definition knows (s : server) (m : addresses) : Prop :=
  ∃ used, entries s = table used ∧ next_entry s = Z.of_nat (length used) ∧ used_ok used ∧ used_map used m.

(** An entry for a key is changed or added. *)
Lemma used_map_step used used' m new :
  used_map used m → (∀ e, e ∈ used' ↔ e = new ∨ (e ∈ used ∧ pubkey e ≠ pubkey new)) →
  used_map used' (<[pubkey new := (e_ip new, e_port new)]> m).
Proof.
  intros Hm Hu k a. destruct (decide (k = pubkey new)) as [->|Hne].
  - rewrite lookup_insert_eq. split.
    + intros [= <-]. exists new. split; [|done]. apply Hu. by left.
    + intros (e & [->|[_ Hn]]%Hu & Hp & <-); [done|congruence].
  - rewrite lookup_insert_ne by done. rewrite (Hm k a). split; intros (e & He & Hp & Ha); exists e; (split; [|done]).
    + apply Hu. right. split; congruence.
    + apply Hu in He as [->|[He _]]; [congruence|done].
Qed.

Lemma used_le_size used m : used_ok used → used_map used m → (length used <= size m)%nat.
Proof.
  intros (_ & Hnd & _) Hm. rewrite <- (length_fmap pubkey used), <- (size_list_to_set (C := gset bytes)), <- (size_dom (D := gset bytes)) by done.
  apply subseteq_size. intros k Hk%elem_of_list_to_set. apply list_elem_of_fmap in Hk as (e & -> & He). apply elem_of_dom. eexists. apply Hm. eauto.
Qed.

Definition set_address (ip port : Z) (e : entry) : entry := {| pubkey := pubkey e; e_ip := ip; e_port := port |}.

(** Storing the address of the sender. *)
Lemma store_address s m key ip port :
  knows s m → key_bytes key → key ≠ no_key → (size (<[key := (ip, port)]> m) <= Z.to_nat MAX_ENTRIES)%nat →
  let '(i, s1) := find_or_insert_entry s key in
  knows {| entries := alter (set_address ip port) i (entries s1); next_entry := next_entry s1 |} (<[key := (ip, port)]> m).
Proof.
  intros (used & Hes & Hnext & Hok & Hm) Hk Hz Hsize. unfold find_or_insert_entry, find_entry. rewrite Hes.
  pose proof (find_table used m key Hok Hm Hk Hz) as Hf. pose proof Hok as (Hl & Hnd & Hfa). set (new := {| pubkey := key; e_ip := ip; e_port := port |}).
  destruct (find_from (table used) key) as [i|].
  - destruct Hf as (e & Hi & Hp & _). rewrite Hes. exists (<[i := new]> used). pose proof (lookup_lt_Some _ _ _ Hi) as Hlt.
    assert (Halt : alter (set_address ip port) i used = <[i := new]> used).
    { apply list_eq. intros j. rewrite list_lookup_alter. case_decide as E; [subst j; rewrite Hi, list_lookup_insert_eq by done; cbn; unfold set_address; by rewrite Hp|].
      by rewrite list_lookup_insert_ne. }
    assert (Hkeys : pubkey <$> <[i := new]> used = pubkey <$> used).
    { rewrite list_fmap_insert. apply list_insert_id. rewrite list_lookup_fmap, Hi. cbn. by rewrite Hp. }
    split; [cbn [entries]; unfold table; by rewrite alter_app_l, Halt, length_insert|]. split; [cbn; by rewrite length_insert|]. split.
    + split; [by rewrite length_insert|]. split; [by rewrite Hkeys|]. by apply Forall_insert.
    + apply (used_map_step used _ m new Hm). intros x. rewrite !list_elem_of_lookup. split.
      * intros [j Hj]. destruct (decide (i = j)) as [->|Hne]; [rewrite list_lookup_insert_eq in Hj by done; injection Hj as <-; by left|].
        rewrite list_lookup_insert_ne in Hj by done. right. split; [by exists j|]. intros Hpx. apply Hne.
        eapply (NoDup_lookup (pubkey <$> used) i j key); [done|rewrite list_lookup_fmap..]; [by rewrite Hi, <- Hp|rewrite Hj; cbn; by rewrite Hpx].
      * intros [->|[[j Hj] Hpx]]; [exists i; by apply list_lookup_insert_eq|]. exists j. rewrite list_lookup_insert_ne; [done|]. intros ->. apply Hpx. cbn. congruence.
  - assert (Hlt : (length used < Z.to_nat MAX_ENTRIES)%nat).
    { pose proof (used_le_size used m Hok Hm). rewrite map_size_insert_None in Hsize by done. lia. }
    rewrite Hnext, Z.mod_small, Nat2Z.id by lia. cbn [entries next_entry]. exists (used ++ [new]). split; [|split; [|split]].
    + unfold table. rewrite !(alter_app_r_alt _ used) by lia. rewrite Nat.sub_diag, length_app. cbn [length].
      destruct (Z.to_nat MAX_ENTRIES - length used)%nat as [|n] eqn:En; [lia|]. replace (Z.to_nat MAX_ENTRIES - (length used + 1))%nat with n by lia.
      by rewrite <- app_assoc.
    + rewrite length_app. cbn. rewrite u32_small by (unfold MAX_ENTRIES in *; lia). lia.
    + split; [rewrite length_app; cbn; lia|]. assert (Hfresh : key ∉ (pubkey <$> used)).
      { intros (e & -> & He)%list_elem_of_fmap. assert (m !! pubkey e = Some (e_ip e, e_port e)) by (apply Hm; eauto). congruence. }
      split; [|apply Forall_app; split; [done|by apply Forall_singleton]]. rewrite fmap_app. apply NoDup_app. split; [done|].
      split; [|apply NoDup_singleton]. intros k Hin Hin2. apply list_elem_of_singleton in Hin2 as ->. done.
    + apply (used_map_step used _ m new Hm). intros x. rewrite elem_of_app, list_elem_of_singleton. split.
      * intros [Hx| ->]; [|by left]. right. split; [done|]. intros Hpx. assert (m !! key = Some (e_ip x, e_port x)) by (apply Hm; exists x; done). congruence.
      * intros [->|[? _]]; auto.
Qed.

Lemma knows_zero : knows server_zero ∅.
Proof.
  exists []. split; [done|]. split; [done|]. split; [split; [cbn; lia|split; constructor]|]. intros k a. rewrite lookup_empty. split; [done|].
  intros (e & []%not_elem_of_nil & _).
Qed.

Lemma learn_size m ds : (size m <= size (foldl learn m ds))%nat.
Proof.
  revert m. induction ds as [|d ds IH]; intros m; [done|]. cbn [foldl]. etransitivity; [|apply IH]. unfold learn, remember. destruct (accepted d) as [d'|]; [|done].
  destruct (m !! take 32 (d_bytes d')) as [a|] eqn:E; [by rewrite map_size_insert_Some by (by eexists)|rewrite map_size_insert_None by done; lia].
Qed.

(** Keys other than the zero one. *)
Definition real_keys (d : option datagram) : Prop :=
  ∀ d', accepted d = Some d' → take 32 (d_bytes d') ≠ no_key ∧ take 32 (drop 32 (d_bytes d')) ≠ no_key.

Lemma serve_step s m d :
  knows s m → real_keys d → (size (learn m d) <= Z.to_nat MAX_ENTRIES)%nat →
  (serve s d).1 = (λ x, learn m d !! take 32 (drop 32 (d_bytes x))) <$> accepted d ∧ knows (serve s d).2 (learn m d).
Proof.
  intros Hs Hd Hsize. destruct d as [d|]; [|done]. unfold learn, real_keys, accepted in *. cbn [mbind option_bind] in *. cbn [serve].
  destruct (Nat.ltb_spec (length (d_bytes d)) 64) as [|Hl]; [done|]. cbn [mbind option_bind fmap option_fmap option_map] in *.
  destruct (Hd d eq_refl) as [H1 H2]. assert (Hk1 : key_bytes (take 32 (d_bytes d))) by (unfold key_bytes; rewrite length_take; lia).
  assert (Hk2 : key_bytes (take 32 (drop 32 (d_bytes d)))) by (unfold key_bytes; rewrite length_take, length_drop; lia).
  pose proof (store_address s m _ (d_ip d) (d_port d) Hs Hk1 H1 Hsize) as Hst. fold (remember m d) in Hst.
  destruct (find_or_insert_entry s (take 32 (d_bytes d))) as [i s1]. change (λ e : entry, {| pubkey := pubkey e; e_ip := d_ip d; e_port := d_port d |}) with (set_address (d_ip d) (d_port d)).
  set (s2 := {| entries := _; next_entry := _ |}) in *. destruct Hst as (used & Hes & Hnext & Hok & Hm). unfold find_entry. rewrite Hes.
  pose proof (find_table used _ _ Hok Hm Hk2 H2) as Hf. destruct (find_from (table used) _) as [k|].
  - destruct Hf as (e & He & _ & Hval). split; [|by exists used]. cbn [fst]. unfold table. rewrite lookup_app_l by (by eapply lookup_lt_Some). rewrite He. cbn. by rewrite <- Hval.
  - split; [|by exists used]. cbn [fst]. by rewrite Hf.
Qed.


Definition sample_datagram : option datagram := Some {| d_bytes := replicate 32 1 ++ replicate 32 2; d_ip := 16777343; d_port := 51820 |}.
(** The zero key finds an entry that nobody has used. *)
Example server_zero_key :
  (serve server_zero (Some {| d_bytes := replicate 32 1 ++ replicate 32 0; d_ip := 16777343; d_port := 51820 |})).1 = Some (Some (0, 0)).
Proof. vm_compute. reflexivity. Qed.

(** ** The client *)

Definition asks (log : list action) : nat := length (omap (λ a, if a is Ask k then Some k else None) log).
Definition endpoint_keys (log : list action) : list bytes := omap (λ a, if a is Set_endpoint k _ _ then Some k else None) log.
Definition unseen (ps : list peer) : list bytes := base64_key <$> filter (λ p, have_seen p = false) ps.

Section Client.
Context (answer : list action → bytes → option (Z * Z)).

(** Every endpoint that is set is the answer to the request before it. *)
Definition faithful (log : list action) : Prop :=
  ∀ pre k ip port post, log = pre ++ Set_endpoint k ip port :: post → answer pre k = Some (ip, port).

Lemma faithful_snoc log a :
  faithful log → (∀ k ip port, a = Set_endpoint k ip port → answer log k = Some (ip, port)) → faithful (log ++ [a]).
Proof.
  intros Hf Ha pre k ip port post Heq. destruct post as [|b post] using rev_ind.
  - apply app_inj_tail in Heq as [-> ->]. by apply Ha.
  - rewrite app_comm_cons, app_assoc in Heq. apply app_inj_tail in Heq as [-> _]. by eapply Hf.
Qed.

(** What a round does, from a list of peers to another and from a log to another. *)
Record round (ps ps' : list peer) (log log' : list action) : Prop := {
  r_keys : base64_key <$> ps' = base64_key <$> ps;
  r_unseen : unseen ps ++ endpoint_keys log ≡ₚ unseen ps' ++ endpoint_keys log';
  r_fewer : (length (unseen ps') <= length (unseen ps))%nat;
  r_asks : asks log' = (asks log + length (unseen ps))%nat;
  r_faithful : faithful log → faithful log';
  r_done N : (∀ log key, (N <= asks log)%nat → answer log key ≠ None) → (N <= asks log)%nat → unseen ps' = [];
}.

Lemma asks_snoc log a : asks (log ++ [a]) = (asks log + if a is Ask _ then 1 else 0)%nat.
Proof. unfold asks. rewrite omap_app, length_app. f_equal. by destruct a. Qed.
Lemma endpoint_keys_snoc log a : endpoint_keys (log ++ [a]) = endpoint_keys log ++ if a is Set_endpoint k _ _ then [k] else [].
Proof. unfold endpoint_keys. rewrite omap_app. f_equal. by destruct a. Qed.
Lemma unseen_cons p ps : unseen (p :: ps) = if have_seen p then unseen ps else base64_key p :: unseen ps.
Proof. unfold unseen. rewrite filter_cons. destruct (have_seen p); [by rewrite decide_False by done|by rewrite decide_True by done]. Qed.

Lemma ask_peers_round ps repeat log :
  let '(ps', repeat', log') := ask_peers answer ps repeat log in
  round ps ps' log log' ∧ repeat' = repeat || negb (bool_decide (unseen ps' = [])).
Proof.
  revert repeat log. induction ps as [|p ps IH]; intros repeat log; cbn [ask_peers].
  { split; [|by rewrite orb_false_r]. split; [done|done|done|cbn; lia|done|done]. }
  destruct (have_seen p) eqn:Es.
  { specialize (IH repeat log). destruct (ask_peers answer ps repeat log) as [[ps' r'] log']. destruct IH as [[H1 H2 Hle' H3 H4 H5] Hr]. split; [|by rewrite unseen_cons, Es].
    split; rewrite ?unseen_cons, ?Es; [by rewrite !fmap_cons, H1|done..]. }
  cbv zeta. set (log1 := log ++ [Ask (base64_key p)]).
  assert (Ha1 : asks log1 = S (asks log)) by (unfold log1; rewrite asks_snoc; lia).
  assert (Hk1 : endpoint_keys log1 = endpoint_keys log) by (unfold log1; by rewrite endpoint_keys_snoc, app_nil_r).
  assert (Hf1 : faithful log → faithful log1) by (intros Hf; by apply faithful_snoc).
  destruct (answer log1 (base64_key p)) as [[ip port]|] eqn:Ea.
  - set (log2 := log1 ++ [Set_endpoint (base64_key p) ip port]). specialize (IH repeat log2).
    destruct (ask_peers answer ps repeat log2) as [[ps' r'] log']. destruct IH as [[H1 H2 Hle' H3 H4 H5] Hr].
    assert (Ha2 : asks log2 = S (asks log)) by (unfold log2; rewrite asks_snoc; lia).
    assert (Hk2 : endpoint_keys log2 = endpoint_keys log ++ [base64_key p]) by (unfold log2; by rewrite endpoint_keys_snoc, Hk1).
    split; [|by rewrite unseen_cons]. split; rewrite ?unseen_cons, ?Es; cbn [have_seen length].
    + by rewrite !fmap_cons, H1.
    + rewrite <- H2, Hk2, app_assoc. cbn. apply Permutation_cons_append.
    + lia.
    + rewrite H3, Ha2. lia.
    + intros Hf. apply H4, faithful_snoc; [by apply Hf1|]. by intros k ip' port' [= <- <- <-].
    + intros N HN Hle. apply (H5 N HN). lia.
  - specialize (IH true log1). destruct (ask_peers answer ps true log1) as [[ps' r'] log']. destruct IH as [[H1 H2 Hle' H3 H4 H5] Hr].
    split; [|rewrite unseen_cons, Es, bool_decide_false by done; by rewrite Hr, orb_true_r]. split; rewrite ?unseen_cons, ?Es; cbn [length].
    + by rewrite !fmap_cons, H1.
    + cbn. rewrite <- H2, Hk1. done.
    + lia.
    + rewrite H3, Ha1. lia.
    + auto.
    + intros N HN Hle. exfalso. apply (HN log1 (base64_key p)); [lia|done].
Qed.

Lemma check_again_ends N fuel ps log :
  (∀ log key, (N <= asks log)%nat → answer log key ≠ None) → (N - asks log + 1 < fuel)%nat → faithful log →
  ∃ ps' log', run (check_again answer fuel ps log) = Done (ps', log') ∧ base64_key <$> ps' = base64_key <$> ps ∧ unseen ps' = [] ∧
    endpoint_keys log' ≡ₚ unseen ps ++ endpoint_keys log ∧ faithful log'.
Proof.
  intros HN. revert ps log. induction fuel as [|fuel IH]; intros ps log Hfuel Hf; [lia|]. unfold run. cbn [check_again].
  pose proof (ask_peers_round ps false log) as H. destruct (ask_peers answer ps false log) as [[ps1 r] log1]. destruct H as [[H1 H2 Hle' H3 H4 H5] ->]. cbn [orb].
  case_bool_decide as Eu; cbn [negb].
  - exists ps1, log1. split; [done|]. split; [done|]. split; [done|]. rewrite Eu in H2. split; [by rewrite H2|auto].
  - assert (Hlt : (asks log < N)%nat). { destruct (Nat.lt_ge_cases (asks log) N); [done|]. by destruct Eu; eapply H5. }
    assert (0 < length (unseen ps))%nat by (destruct (unseen ps1); [done|cbn in *; lia]).
    destruct (IH ps1 log1) as (ps' & log' & Hr & K1 & K2 & K3 & K4); [lia|auto|]. exists ps', log'. split; [exact Hr|]. split; [congruence|]. split; [done|].
    split; [|done]. by rewrite K3, H2.
Qed.

(** C39: when the server answers all requests once it has had some number of them, the client comes to an end: it has then set the endpoint of
    every peer exactly once, each to the address that the server answered for its key. *)
Theorem client_sets_each_once (N : nat) (ps : list peer)
    (HN : ∀ log key, (N <= asks log)%nat → answer log key ≠ None) (Hps : Forall (λ p, have_seen p = false) ps) :
  ∃ ps' log, run (check_again answer (N + 2) ps []) = Done (ps', log) ∧ Forall (λ p, have_seen p = true) ps' ∧
    endpoint_keys log ≡ₚ base64_key <$> ps ∧ faithful log.
Proof.
  destruct (check_again_ends N (N + 2) ps [] HN) as (ps' & log & Hr & _ & Hu & Hk & Hf); [cbn; lia|by intros [] |].
  exists ps', log. split; [done|]. split; [|split; [|done]].
  - clear -Hu. induction ps' as [|p ps' IH]; [constructor|]. rewrite unseen_cons in Hu. destruct (have_seen p) eqn:E; [constructor; auto|done].
  - rewrite Hk. cbn. rewrite app_nil_r. clear -Hps. induction Hps as [|p ps Hp _ IH]; [done|]. rewrite unseen_cons, Hp, fmap_cons. by rewrite IH.
Qed.
End Client.

Definition patient_server (log : list action) (key : bytes) : option (Z * Z) := if decide (2 <= asks log)%nat then Some (16777343, Z.of_nat (length key)) else None.
Lemma client_sets_each_once_witness :
  let ps := [{| base64_key := str "a"; have_seen := false |}; {| base64_key := str "bc"; have_seen := false |}] in
  ∃ ps' log, run (check_again patient_server 4 ps []) = Done (ps', log) ∧ Forall (λ p, have_seen p = true) ps' ∧
    endpoint_keys log ≡ₚ base64_key <$> ps ∧ faithful patient_server log.
Proof.
  apply (client_sets_each_once patient_server 2); [|repeat constructor].
  intros log key Hle. unfold patient_server. rewrite decide_True by done. discriminate.
Defined.

(** ** Reading the peers *)

Lemma fgets_full n k rest : length k = n → 10 ∉ k → fgets_chars n (k ++ rest) = (k, rest).
Proof.
  intros <-. induction k as [|c k IH]; [by destruct rest|]. rewrite not_elem_of_cons. intros [Hc Hk]. cbn [length app fgets_chars].
  rewrite (proj2 (Z.eqb_neq c 10)) by congruence. by rewrite IH.
Qed.

(** A key of 44 characters fills the buffer, so its newline is read as a line of its own, which is skipped. *)
Theorem read_peers_keys keys :
  Forall (λ k, length k = 44%nat ∧ cstring k = true ∧ 10 ∉ k) keys → Z.of_nat (length keys) < MAX_PEERS →
  run (read_peers (2 * length keys + 1) (flat_map (λ k, k ++ [10]) keys) []) = Done ((λ k, {| base64_key := k; have_seen := false |}) <$> keys).
Proof.
  intros Hk Hmax.
  assert (Hgen : ∀ ps, Z.of_nat (length ps + length keys) < MAX_PEERS →
    read_peers (2 * length keys + 1) (flat_map (λ k, k ++ [10]) keys) ps [] = Done (ps ++ ((λ k, {| base64_key := k; have_seen := false |}) <$> keys), [])).
  2:{ unfold run. rewrite (Hgen []) by (cbn [length]; lia). done. }
  clear Hmax. induction Hk as [|k keys (Hl & Hc & Hn) _ IH]; intros ps Hmax.
  { cbn [length flat_map] in *. cbn [Nat.mul Nat.add read_peers]. rewrite (proj2 (Z.leb_gt _ _)) by lia. by rewrite app_nil_r. }
  cbn [length flat_map] in *. replace (2 * S (length keys) + 1)%nat with (S (S (2 * length keys + 1))) by lia. cbn [read_peers].
  rewrite (proj2 (Z.leb_gt _ _)) by lia. rewrite <- app_assoc. cbn [app].
  assert (Hfg : fgets 45 (k ++ 10 :: flat_map (λ k, k ++ [10]) keys) = Some (k, 10 :: flat_map (λ k, k ++ [10]) keys)).
  { unfold fgets. destruct k as [|c k]; [done|]. by rewrite (fgets_full 44) by done. }
  rewrite Hfg. rewrite (cstr_id k) by done.
  rewrite Hl. change (44 =? 44)%nat with true. cbn [negb andb Nat.sub].
  assert ((at_ k 43 =? 10) = false) as ->.
  { apply Z.eqb_neq. intros E. apply Hn. unfold at_ in E. destruct (k !! 43%nat) as [x|] eqn:Ex; [|done]. cbn in E. subst. by eapply list_elem_of_lookup_2. }
  assert ((MAX_PEERS <=? Z.of_nat (length (ps ++ [{| base64_key := k; have_seen := false |}]))) = false) as -> by (apply Z.leb_gt; rewrite length_app; cbn; lia).
  assert (Hnl : fgets 45 (10 :: flat_map (λ k, k ++ [10]) keys) = Some ([10], flat_map (λ k, k ++ [10]) keys)) by done. rewrite Hnl. clear Hfg Hnl.
  cbv zeta. change (length (cstr [10])) with 1%nat. change (negb (1 =? 44)%nat && negb (1 =? 45)%nat) with true. cbn iota.
  rewrite IH by (rewrite length_app; cbn; lia). by rewrite <- app_assoc.
Qed.
