(* ===== verification/StickySockets.v ===== *)
(** * StickySockets: contrib/sticky-sockets, replies from the address that was asked

    An endpoint is memory: the union of the socket addresses and the union of the source addresses, in which the IPv4 address and the
    index of the interface lie over the IPv6 address.  The system calls are parameters. *)

From Stdlib Require Import Ascii String.
From stdpp Require Import base numbers option sets list list_numbers strings.
From S2P Require Import Prelude CLib Containers Field25519.
#[local] Open Scope c_scope.

Definition SIZEOF_ADDR4 : nat := 16.
Definition SIZEOF_ADDR6 : nat := 28.
Definition IPPROTO_IP : Z := 0.
Definition IPPROTO_IPV6 : Z := 41.
Definition IP_PKTINFO : Z := 8.
Definition IPV6_RECVPKTINFO : Z := 49.
Definition IPV6_PKTINFO : Z := 50.
Definition IPV6_V6ONLY : Z := 26.

(** [struct magic_endpoint]: 28 and 16 bytes. *)
Record magic_endpoint := { addr : bytes; src : bytes }.
Definition magic_endpoint_zero : magic_endpoint := {| addr := replicate SIZEOF_ADDR6 0; src := replicate 16 0 |}.

(** [memcpy(p + off, new, sizeof(new))] within a union. *)
Definition overwrite (b : bytes) (off : nat) (new : bytes) : bytes := take off b ++ new ++ drop (off + length new) b.

Definition ep_family (e : magic_endpoint) : Z := le_value (take 2 (addr e)).
Definition addr4 (e : magic_endpoint) : bytes := take SIZEOF_ADDR4 (addr e).
Definition sin6_scope_id (e : magic_endpoint) : bytes := drop 24 (addr e).
Definition src4 (e : magic_endpoint) : bytes := take 4 (src e).
Definition src_if4 (e : magic_endpoint) : bytes := take 4 (drop 4 (src e)).
Definition set_addr4 (a : bytes) (e : magic_endpoint) : magic_endpoint := {| addr := overwrite (addr e) 0 a; src := src e |}.
Definition set_addr6 (a : bytes) (e : magic_endpoint) : magic_endpoint := {| addr := a; src := src e |}.
Definition set_scope_id (i : bytes) (e : magic_endpoint) : magic_endpoint := {| addr := overwrite (addr e) 24 i; src := src e |}.
Definition set_src4 (a i : bytes) (e : magic_endpoint) : magic_endpoint := {| addr := addr e; src := overwrite (src e) 0 (a ++ i) |}.
Definition set_src6 (a : bytes) (e : magic_endpoint) : magic_endpoint := {| addr := addr e; src := a |}.

(** [struct in_pktinfo] and [struct in6_pktinfo], and a message with one of them. *)
Inductive pktinfo :=
  | In_pktinfo (ipi_ifindex ipi_spec_dst ipi_addr : bytes)
  | In6_pktinfo (ipi6_addr ipi6_ifindex : bytes).
Definition pktinfo_len (p : pktinfo) : Z := match p with In_pktinfo _ _ _ => 12 | In6_pktinfo _ _ => 20 end.
Record message := { msg_name : bytes; cmsg_level : Z; cmsg_type : Z; cmsg_len : Z; cmsg_pktinfo : pktinfo; msg_data : bytes }.

Section Sockets.
(** [CMSG_LEN(0)] *)
Variable SIZEOF_CMSGHDR : Z.
Definition CMSG_LEN (n : Z) : Z := SIZEOF_CMSGHDR + n.

Definition message4 (e : magic_endpoint) (info : pktinfo) (data : bytes) : message :=
  {| msg_name := addr4 e; cmsg_level := IPPROTO_IP; cmsg_type := IP_PKTINFO; cmsg_len := CMSG_LEN 12; cmsg_pktinfo := info; msg_data := data |}.
Definition message6 (e : magic_endpoint) (info : pktinfo) (data : bytes) : message :=
  {| msg_name := addr e; cmsg_level := IPPROTO_IPV6; cmsg_type := IPV6_PKTINFO; cmsg_len := CMSG_LEN 20; cmsg_pktinfo := info; msg_data := data |}.

Section Send.
(** [sendmsg] after the messages sent before: an [errno], or the length. *)
Variable sendmsg : list message → message → Z + Z.

(** The result, the endpoint, and the messages that were tried. *)
Definition magic_send4 (e : magic_endpoint) (data : bytes) : (Z + Z) * magic_endpoint * list message :=
  let m := message4 e (In_pktinfo (src_if4 e) (src4 e) (replicate 4 0)) data in
  match sendmsg [] m with
  | inl errno =>
      if errno =? EINVAL then
        let m' := message4 e (In_pktinfo (replicate 4 0) (replicate 4 0) (replicate 4 0)) data in
        (sendmsg [m] m', set_src4 (replicate 4 0) (replicate 4 0) e, [m; m'])
      else (inl errno, e, [m])
  | inr n => (inr n, e, [m])
  end.

Definition magic_send6 (e : magic_endpoint) (data : bytes) : (Z + Z) * magic_endpoint * list message :=
  let ifindex := if bool_decide (src e = replicate 16 0) then replicate 4 0 else sin6_scope_id e in
  let m := message6 e (In6_pktinfo (src e) ifindex) data in
  match sendmsg [] m with
  | inl errno =>
      if errno =? EINVAL then
        let m' := message6 e (In6_pktinfo (replicate 16 0) (replicate 4 0)) data in
        (sendmsg [m] m', set_src6 (replicate 16 0) e, [m; m'])
      else (inl errno, e, [m])
  | inr n => (inr n, e, [m])
  end.
End Send.

(** What [recvmsg] gives: an [errno], or the length, the name and the first control message with its length, if there is one;
    without one the local variable is read as it was left. *)
Definition magic_receive4 (r : Z + Z * bytes * option (Z * Z * Z * pktinfo)) (e : magic_endpoint) : M (Z + Z * magic_endpoint) :=
  match r with
  | inl errno => mret (inl errno)
  | inr (_, _, None) => undefined
  | inr (ret, name, Some (level, type, len, info)) =>
      let e := set_addr4 name e in
      match info with
      | In_pktinfo ipi_ifindex ipi_spec_dst _ =>
          mret (inr (ret, if (level =? IPPROTO_IP) && (type =? IP_PKTINFO) && (CMSG_LEN 12 <=? len) then set_src4 ipi_spec_dst ipi_ifindex e else e))
      | In6_pktinfo _ _ => if (level =? IPPROTO_IP) && (type =? IP_PKTINFO) && (CMSG_LEN 12 <=? len) then undefined else mret (inr (ret, e))
      end
  end.
Definition magic_receive6 (r : Z + Z * bytes * option (Z * Z * Z * pktinfo)) (e : magic_endpoint) : M (Z + Z * magic_endpoint) :=
  match r with
  | inl errno => mret (inl errno)
  | inr (_, _, None) => undefined
  | inr (ret, name, Some (level, type, len, info)) =>
      let e := set_addr6 name e in
      match info with
      | In6_pktinfo ipi6_addr ipi6_ifindex =>
          mret (inr (ret, if (level =? IPPROTO_IPV6) && (type =? IPV6_PKTINFO) && (CMSG_LEN 20 <=? len) then set_scope_id ipi6_ifindex (set_src6 ipi6_addr e) else e))
      | In_pktinfo _ _ _ => if (level =? IPPROTO_IPV6) && (type =? IPV6_PKTINFO) && (CMSG_LEN 20 <=? len) then undefined else mret (inr (ret, e))
      end
  end.
End Sockets.

Definition magic_endpoint_clearsrc (e : magic_endpoint) : magic_endpoint :=
  if ep_family e =? AF_INET then set_src4 (replicate 4 0) (replicate 4 0) e
  else if ep_family e =? AF_INET6 then set_src6 (replicate 16 0) e
  else magic_endpoint_zero.

(** [a] is the memory of the address, of 16 or 28 bytes. *)
Definition magic_endpoint_set (e : magic_endpoint) (a : bytes) : magic_endpoint :=
  let family := le_value (take 2 a) in
  let e := if family =? AF_INET then set_addr4 (take SIZEOF_ADDR4 a) e
           else if family =? AF_INET6 then set_addr6 (take SIZEOF_ADDR6 a) e else e in
  magic_endpoint_clearsrc e.

(** ** Sockets *)

(** What is done with the descriptor. *)
Inductive call := Setsockopt (level option : Z) | Bind | Close.

Section Create.
(** The descriptor or the negative result of [socket], and the results of the calls that follow. *)
Variable socket : Z.
Variable result : call → Z.

(** The calls up to the first that fails, which is followed by [Close]: what is returned, and the calls. *)
Fixpoint set_up (calls : list call) : Z * list call :=
  match calls with
  | [] => (socket, [])
  | c :: calls' =>
      if result c <? 0 then (result c, [c; Close])
      else let '(r, cs) := set_up calls' in (r, c :: cs)
  end.
Definition magic_create_sock4 : Z * list call := if socket <? 0 then (socket, []) else set_up [Setsockopt IPPROTO_IP IP_PKTINFO; Bind].
Definition magic_create_sock6 : Z * list call :=
  if socket <? 0 then (socket, []) else set_up [Setsockopt IPPROTO_IPV6 IPV6_RECVPKTINFO; Setsockopt IPPROTO_IPV6 IPV6_V6ONLY; Bind].
End Create.

(** ** Properties *)

Definition endpoint_ok (e : magic_endpoint) : Prop := length (addr e) = SIZEOF_ADDR6 ∧ length (src e) = 16%nat.

Lemma overwrite_length b off new : (off + length new <= length b)%nat → length (overwrite b off new) = length b.
Proof. intros H. unfold overwrite. rewrite !length_app, length_take, length_drop. lia. Qed.
Lemma overwrite_at b off new : (off + length new <= length b)%nat → take (length new) (drop off (overwrite b off new)) = new.
Proof.
  intros H. unfold overwrite. rewrite drop_app_length' by (rewrite length_take; lia). by rewrite take_app_length.
Qed.
Lemma overwrite_all b new : length new = length b → overwrite b 0 new = new.
Proof. intros H. unfold overwrite. cbn. rewrite drop_ge by lia. by rewrite app_nil_r. Qed.

Lemma set_src4_ok a i e : endpoint_ok e → length a = 4%nat → length i = 4%nat → endpoint_ok (set_src4 a i e).
Proof.
  intros [Ha Hs] H1 H2. split; [done|]. change (length (overwrite (src e) 0 (a ++ i)) = 16%nat).
  rewrite overwrite_length; [done|]. rewrite length_app. lia.
Qed.
Lemma set_addr4_ok a e : endpoint_ok e → length a = SIZEOF_ADDR4 → endpoint_ok (set_addr4 a e).
Proof.
  intros [Ha Hs] H. split; [|done]. change (length (overwrite (addr e) 0 a) = SIZEOF_ADDR6).
  rewrite overwrite_length; [done|]. unfold SIZEOF_ADDR4, SIZEOF_ADDR6 in *. lia.
Qed.
Lemma src4_set a i e : endpoint_ok e → length a = 4%nat → length i = 4%nat → src4 (set_src4 a i e) = a ∧ src_if4 (set_src4 a i e) = i.
Proof.
  intros [_ Hs] Ha Hi. unfold src4, src_if4, set_src4, overwrite. cbn [src]. rewrite take_0, app_nil_l, <- app_assoc. split.
  - by rewrite take_app_length'.
  - rewrite drop_app_length' by done. by rewrite take_app_length'.
Qed.

(** Without its source an endpoint sends from the address the system chooses. *)
Definition no_source4 (e : magic_endpoint) : Prop := src4 e = replicate 4 0 ∧ src_if4 e = replicate 4 0.
Definition no_source6 (e : magic_endpoint) : Prop := src e = replicate 16 0.



(** A socket that is not set up completely is closed, and the result is that of the call that failed. *)
Definition set_up_or_closed (socket : Z) (r : Z * list call) : Prop := (r.1 = socket ∧ Close ∉ r.2) ∨ (r.1 < 0 ∧ last r.2 = Some Close).

Lemma set_up_closes socket result calls : Close ∉ calls → set_up_or_closed socket (set_up socket result calls).
Proof.
  induction calls as [|c calls IH]; intros Hc; cbn [set_up]; [by left|]. apply not_elem_of_cons in Hc as [Hc Hcs].
  destruct (Z.ltb_spec (result c) 0); [by right|]. destruct (set_up _ _ calls) as [r cs]. destruct (IH Hcs) as [[H1 H2]|[H1 H2]].
  - left. split; [done|]. apply not_elem_of_cons. done.
  - right. split; [done|]. cbn [snd] in *. by rewrite last_cons, H2.
Qed.
Theorem create_sock_closes socket result :
  0 <= socket → set_up_or_closed socket (magic_create_sock4 socket result) ∧ set_up_or_closed socket (magic_create_sock6 socket result).
Proof.
  intros Hs. unfold magic_create_sock4, magic_create_sock6. rewrite (proj2 (Z.ltb_ge socket 0)) by done.
  split; apply set_up_closes; rewrite !not_elem_of_cons; repeat split; try done; apply not_elem_of_nil.
Qed.
